(* ===== verification/_CoqProject ===== *)
-Q . S2P
Prelude.v
Layout.v
Strings.v
Kernel.v
Spinlock.v
Sched.v
Printf.v
Kalloc.v
Vm.v
PageTable.v
VmSpec.v
VmProps.v
Bio.v
Virtio.v
Log.v
Fs.v
Dir.v
Mkfs.v
Pipe.v
Console.v
File.v
Proc.v
Exec.v
Syscall.v
Trap.v
Devices.v
Riscv.v
Vectors.v
VectorsSpec.v
TimerSpec.v
VectorsProps.v
Initcode.v
Locks.v
Types.v
Ring.v
Cache.v
Crash.v
LogProof.v
Transaction.v
CacheInit.v
Circ.v
VirtioSpec.v
VirtioProof.v
VirtioSys.v
PipeSpec.v
FsAlloc.v
FsExample.v
FsFile.v
FsWrite.v
FsContent.v
FsProps.v
DirSpec.v
Inodes.v
Lookup.v
MkfsSpec.v
MkfsImage.v
MkfsProps.v
MkfsBoot.v
DirLink.v
ExecSpec.v
PrintSpec.v
ConsoleSpec.v
Umalloc.v
UmallocSpec.v
User.v
Ulib.v
UserSpec.v
Calls.v
CallsSpec.v
Ls.v
Grind.v
Usertests.v
Grep.v
GrepSpec.v
Programs.v
Sh.v
ShSpec.v
ShProof.v
ShRun.v
ShRunSpec.v
