(* ===== verification/Prelude.v ===== *)
(** * A verification of xv6 for RISC-V

    xv6 is a small multiprocessor Unix kernel with a log-structured commit, a
    shell and a few user programs.  This library models the C of src/kernel,
    src/user and src/mkfs as Rocq functions and proves what the code promises.

    ** The program and how its parts interact

    A user process enters the kernel by a trap (trap.c, syscall.c).  A system
    call works on processes (proc.c, exec.c), address spaces (vm.c on the page
    allocator kalloc.c) and files (sysfile.c, file.c).  A file is a pipe
    (pipe.c), a device (console.c on uart.c) or an inode (fs.c).  The file
    system reads and writes blocks through the cache (bio.c) and makes groups
    of writes atomic with a write-ahead log (log.c); the cache asks the disk
    driver (virtio_disk.c).  Spinlocks protect data between harts, sleep-locks
    between processes, sleep() and wakeup() connect a process with the
    interrupt or the process it waits for.

    ** How code is modelled

    - An integer is a [Z]; wherever the C type can wrap, the value is put
      through the conversion of that type ([u8] ... [i64] below).
    - Kernel code is a state monad [M] with the outcomes of [outcome]: [Ok],
      [Panic] with the message of panic(), [Blocked] (the process waits and
      nobody wakes it), [Diverge] (a loop ran out of the fuel its model was
      given) and [Fault] (an access outside the objects of the model).  [K] of
      Kernel.v is this monad over [world]: the kernel state and what the rest
      of the system does, step by step, each time the process gives up the CPU.
    - A pointer into a static table is an index; a pointer to memory is an
      address of the byte memory [k_mem].
    - A loop is a [Fixpoint] on the data it consumes where there is such data,
      and on fuel otherwise.  The fuel is computed from the arguments and is
      never less than what the loop needs: theorems that say that an operation
      returns ([Ok]) also say that the fuel suffices, because [Diverge] is not
      [Ok].  readi() and writei() get one round for each block they touch,
      page-table walks three levels, scans of a table its size.

    ** The files

    Prelude: integers, the monad and its laws, byte memories, little-endian
    encodings, blocks of bytes, the tactics [run] and [words].

    Layout: constants and macros of param.h, riscv.h, memlayout.h, fs.h.
    Strings: string.c.  Kernel: the structs and globals as one record.
    Spinlock: spinlock.c on several harts.  Sched, Proc: proc.c.  Kalloc:
    kalloc.c.  Vm: vm.c.  Bio: sleeplock.c, bio.c.  Virtio: virtio_disk.c.
    Log: log.c.  Fs, Dir: fs.c.  Pipe, File: pipe.c, file.c.  Console, Printf:
    console.c, uart.c, printf.c.  Exec: exec.c.  Syscall: syscall.c,
    sysproc.c, sysfile.c.  Trap: trap.c, plic.c, main.c on hart 0.  Devices:
    uartinit(), plicinit(), plicinithart(), main.c on the other harts.  Mkfs:
    mkfs.c.  Riscv: the registers and instructions of a hart, the accessors of
    riscv.h, start.c.  Vectors: entry.S, swtch.S, trampoline.S, kernelvec.S.
    Each of these files has the definitions, one for each function of the
    source, and the lemmas that need nothing else.

    The other kernel files hold specifications and proofs.
    - Locks: every routine of the kernel returns with the spinlocks it was
      called with, up to syscall() and usertrap().
    - Types: from boot on, however a system call or a trap ends, the pipes, the
      console and UART buffers and the log header hold no more than they have
      room for, blocks keep their size, and tables and integers have their
      declared lengths and ranges.
    - VectorsSpec, TimerSpec, VectorsProps: the assembly: a trap from user space
      and back restores every register, kernelvec is transparent, swtch resumes
      the other context, the first instructions reach main() in supervisor
      mode, the timer keeps ticking.
    - PageTable, VmSpec, VmProps: a page table as a map; mappages(), copyout()
      and copyin() as operations on this map and on user memory.
    - Ring, Cache, CacheInit: the buffer cache as a map from block numbers to
      contents, the least recently used order of its ring.
    - Crash, LogProof, Transaction: the log as a sequence of disk writes cut by
      a crash at any point, the simulation of log.c by it, and whole
      transactions.
    - FsAlloc, FsFile, FsWrite, FsContent, FsProps: inside a transaction, the
      bitmap as a set, the block map of an inode, and readi() and writei() on
      the contents of a file as a list of bytes, copied to and from user memory,
      kernel memory or a local variable.  FsExample is a disk on which
      these theorems are run.
    - DirSpec, Inodes, Lookup, DirLink: a directory as a list of entries, the
      table of inodes as a map with reference counts, namei() against the
      resolution of a path on the disk, and dirlink() against what a lookup
      finds afterwards.  ExecSpec: what the operations of the file
      system leave of the processes, their memory, files and pipes, and that
      exec() of what cannot be run changes nothing.
    - MkfsSpec, MkfsImage, MkfsProps, MkfsBoot: the image that mkfs writes is a
      file system with the files it was given, and a kernel booted on it reads
      them back.
    - Circ: circular buffers with free-running counters, used by PipeSpec (a
      pipe is a bounded queue), ConsoleSpec (line editing) and the rings of the
      disk driver.
    - VirtioSpec, VirtioProof, VirtioSys: the driver, the device and the
      interrupt handler interleaved, a refinement of an abstract disk.
    - PrintSpec: decimal output.

    User space.
    - Initcode: initcode.S, its machine code in proc.c, and that it starts
      /init; and that the stubs of usys.pl reach the kernel functions they
      name.
    - Ulib: the routines of ulib.c on memory.  Umalloc, UmallocSpec: the
      allocator, over the memory of the process.
    - User, UserSpec: the system calls on streams as a process sees them,
      user/printf.c and the rest of ulib.c.
    - Calls, CallsSpec: programs as the system calls they make, against an
      arbitrary operating system: init, kill, ln, mkdir, rm, zombie, forktest
      and stressfs; and a logic of the descriptors such a program owns, used by
      Ls (ls) and Grind (grind).  Usertests: the driver of usertests.
    - Grep, GrepSpec, Programs: grep against a semantics of its patterns; cat,
      wc and echo.
    - Sh, ShSpec, ShProof: the parser of the shell against a grammar; ShRun,
      ShRunSpec: runcmd() against a plan of what a command should run, and the
      main loop against a description of a session.

    ** What is assumed

    Between two calls of swtch() kernel code of one process is taken to run
    without interference; that the locks it holds make this so on several harts
    is the subject of Spinlock.v and Locks.v.  While a process sleeps the rest
    of the system is arbitrary ([world]), and theorems state what they need of
    it.  The cache and log theorems are about a process that need not wait: no
    other process is in the file system and a disk transfer is one step; that
    virtio_disk_rw() amounts to such a step is [VirtioSys.virtio_refines],
    whose hypothesis on the device is the protocol of the virtio
    specification.  In that theorem a critical section of the driver is atomic
    with respect to the device, apart from the order of its memory accesses
    that the fences of the code impose.

    ** Not modelled

    The individual tests of usertests.c are programs that try the system calls
    on chosen inputs and have no behaviour to promise beyond that; their driver
    takes them as a parameter.  ramdisk.c is not linked into the kernel and
    does not compile against its headers: it uses fields and flags of struct
    buf that buf.h does not have.  kernel.ld and user.ld are linker scripts;
    defs.h and user.h hold prototypes.  What the routines of mkfs and of the
    shell print for a person (error messages aside), the contents of memory
    that malloc() hands to the shell for the nodes of a command, and the times
    that the device takes are not represented. *)

From Stdlib Require Export ZArith Lia String Ascii.
From stdpp Require Export base tactics list numbers option gmap.
Open Scope Z_scope.

(** ** Machine integers

    C integers are values of [Z]; every place where the source can wrap
    applies the conversion of the C type it assigns to. *)

Definition u8 (x : Z) : Z := x mod 2 ^ 8.
Definition u16 (x : Z) : Z := x mod 2 ^ 16.
Definition u32 (x : Z) : Z := x mod 2 ^ 32.
Definition u64 (x : Z) : Z := x mod 2 ^ 64.

Definition signed (w : Z) (x : Z) : Z :=
  let y := x mod 2 ^ w in if y <? 2 ^ (w - 1) then y else y - 2 ^ w.

Definition i16 (x : Z) : Z := signed 16 x.
Definition i32 (x : Z) : Z := signed 32 x.
Definition i64 (x : Z) : Z := signed 64 x.

Lemma u8_range x : 0 <= u8 x < 256.
Proof. unfold u8. apply Z.mod_pos_bound. lia. Qed.
Lemma u16_range x : 0 <= u16 x < 2 ^ 16.
Proof. unfold u16. apply Z.mod_pos_bound. lia. Qed.
Lemma u32_range x : 0 <= u32 x < 2 ^ 32.
Proof. unfold u32. apply Z.mod_pos_bound. lia. Qed.
Lemma u64_range x : 0 <= u64 x < 2 ^ 64.
Proof. unfold u64. apply Z.mod_pos_bound. lia. Qed.

Lemma u8_small x : 0 <= x < 256 -> u8 x = x.
Proof. intros. unfold u8. apply Z.mod_small. lia. Qed.
Lemma u16_small x : 0 <= x < 2 ^ 16 -> u16 x = x.
Proof. intros. unfold u16. apply Z.mod_small. lia. Qed.
Lemma u32_small x : 0 <= x < 2 ^ 32 -> u32 x = x.
Proof. intros. unfold u32. apply Z.mod_small. lia. Qed.
Lemma u64_small x : 0 <= x < 2 ^ 64 -> u64 x = x.
Proof. intros. unfold u64. apply Z.mod_small. lia. Qed.

Lemma u32_add_u32 x y : u32 (u32 x + y) = u32 (x + y).
Proof. unfold u32. by rewrite Z.add_mod_idemp_l. Qed.
Lemma u32_sub_u32 x y : u32 (u32 x - y) = u32 (x - y).
Proof. unfold u32. by rewrite Zminus_mod_idemp_l. Qed.

Lemma signed_range w x : 0 < w -> - 2 ^ (w - 1) <= signed w x < 2 ^ (w - 1).
Proof.
  intros Hw. unfold signed.
  assert (2 ^ w = 2 * 2 ^ (w - 1)) as E.
  { rewrite <- Z.pow_succ_r by lia. f_equal. lia. }
  pose proof (Z.mod_pos_bound x (2 ^ w) ltac:(apply Z.pow_pos_nonneg; lia)).
  destruct (Z.ltb_spec (x mod 2 ^ w) (2 ^ (w - 1))); lia.
Qed.

Lemma signed_small w x : 0 < w -> - 2 ^ (w - 1) <= x < 2 ^ (w - 1) -> signed w x = x.
Proof.
  intros Hw Hx. unfold signed.
  assert (2 ^ w = 2 * 2 ^ (w - 1)) as E.
  { rewrite <- Z.pow_succ_r by lia. f_equal. lia. }
  destruct (Z.lt_ge_cases x 0) as [Hneg|Hpos].
  - replace (x mod 2 ^ w) with (x + 2 ^ w).
    + destruct (Z.ltb_spec (x + 2 ^ w) (2 ^ (w - 1))); lia.
    + apply Z.mod_unique with (-1); lia.
  - rewrite Z.mod_small by lia.
    destruct (Z.ltb_spec x (2 ^ (w - 1))); lia.
Qed.

Lemma i32_small x : - 2 ^ 31 <= x < 2 ^ 31 -> i32 x = x.
Proof. intros. apply signed_small; lia. Qed.
Lemma i32_range x : - 2 ^ 31 <= i32 x < 2 ^ 31.
Proof. apply (signed_range 32). lia. Qed.
Lemma i16_small x : - 2 ^ 15 <= x < 2 ^ 15 -> i16 x = x.
Proof. intros. apply signed_small; lia. Qed.
Lemma i16_range x : - 2 ^ 15 <= i16 x < 2 ^ 15.
Proof. apply (signed_range 16). lia. Qed.

(** ** Outcomes and the state monad

    A C function that works on the state [S] is a value of [M S A].  Besides
    returning, it can call [panic] (which never returns), wait forever
    ([Blocked]: still asleep when the schedule of wakeups is exhausted), run
    out of the fuel a loop was given ([Diverge]) or do something the C
    standard leaves undefined, such as dereferencing a null pointer
    ([Fault]).  Every outcome keeps the state reached, because a disk
    outlives a panic. *)

Inductive outcome (S A : Type) : Type :=
| Ok (a : A) (s : S)
| Panic (msg : string) (s : S)
| Blocked (s : S)
| Diverge (s : S)
| Fault (s : S).
Arguments Ok {S A} a s.
Arguments Panic {S A} msg s.
Arguments Blocked {S A} s.
Arguments Diverge {S A} s.
Arguments Fault {S A} s.

Definition M (S A : Type) : Type := S -> outcome S A.

Definition ret {S A} (a : A) : M S A := fun s => Ok a s.

Definition bind {S A B} (m : M S A) (k : A -> M S B) : M S B :=
  fun s =>
    match m s with
    | Ok a s' => k a s'
    | Panic msg s' => Panic msg s'
    | Blocked s' => Blocked s'
    | Diverge s' => Diverge s'
    | Fault s' => Fault s'
    end.

Definition panic {S A} (msg : string) : M S A := fun s => Panic msg s.
Definition diverge {S A} : M S A := fun s => Diverge s.
Definition fault {S A} : M S A := fun s => Fault s.

Declare Scope m_scope.
Delimit Scope m_scope with M.
Notation "'let*' x := m 'in' k" := (bind m (fun x => k))
  (at level 10, x pattern, m at level 200, k at level 200) : m_scope.
Notation "m ;; k" := (bind m (fun _ => k))
  (at level 100, k at level 200, right associativity) : m_scope.
Notation "'when' b 'do' m" := (if b then m else ret tt)
  (at level 199, b at level 99, m at level 100) : m_scope.
Open Scope m_scope.

(** The computation returned. *)
Definition is_ok {S A} (o : outcome S A) : bool :=
  match o with Ok _ _ => true | _ => false end.

(** The state an outcome leaves behind, whatever the outcome is. *)
Definition final {S A} (o : outcome S A) : S :=
  match o with
  | Ok _ s | Panic _ s | Blocked s | Diverge s | Fault s => s
  end.

Lemma bind_ret {S A B} (a : A) (k : A -> M S B) s : bind (ret a) k s = k a s.
Proof. reflexivity. Qed.

Lemma bind_ok {S A B} (m : M S A) (k : A -> M S B) s a s' :
  m s = Ok a s' -> bind m k s = k a s'.
Proof. intros H. unfold bind. by rewrite H. Qed.

Lemma bind_inv {S A B} (m : M S A) (k : A -> M S B) s b s' :
  bind m k s = Ok b s' -> exists a s1, m s = Ok a s1 /\ k a s1 = Ok b s'.
Proof. unfold bind. destruct (m s); intros; simplify_eq; eauto. Qed.

Lemma bind_assoc {S A B C} (m : M S A) (f : A -> M S B) (g : B -> M S C) s :
  bind (bind m f) g s = bind m (fun a => bind (f a) g) s.
Proof. unfold bind. by destruct (m s). Qed.

(** Symbolic execution: run the first command of a sequence. *)
Lemma run_bind {S A B} (m : M S A) (k : A -> M S B) s a s' r :
  m s = Ok a s' -> k a s' = r -> bind m k s = r.
Proof. intros H <-. by apply bind_ok. Qed.

Lemma run_assoc {S A B C} (m : M S A) (f : A -> M S B) (g : B -> M S C) s r :
  bind m (fun a => bind (f a) g) s = r -> bind (bind m f) g s = r.
Proof. intros <-. apply bind_assoc. Qed.

Lemma run_cong {S A B} (m m' : M S A) (k : A -> M S B) s s' :
  m s = m' s' -> bind m k s = bind m' k s'.
Proof. intros H. unfold bind. by rewrite H. Qed.

Lemma bind_eq {S A B} (m : M S A) (f g : A -> M S B) s : (forall a s', f a s' = g a s') -> bind m f s = bind m g s.
Proof. intros H. unfold bind. by destruct (m s). Qed.

(** The constant at the head of an application. *)
Ltac head_of m := lazymatch m with ?f _ => head_of f | _ => m end.

(** Run the first command of a sequence, of which [E] says what it does. *)
Tactic Notation "run" uconstr(E) := rewrite (bind_ok _ _ _ _ _ E).

(** [for(i = lo; i < lo + n; i++) body(i)], and the same loop with a body that
    may return from the enclosing function. *)
Fixpoint for_loop {S} (n i : nat) (body : nat -> M S unit) : M S unit :=
  match n with
  | O => ret tt
  | S n' => body i ;; for_loop n' (Datatypes.S i) body
  end.

Fixpoint for_ret {S R} (n i : nat) (body : nat -> M S (option R)) : M S (option R) :=
  match n with
  | O => ret None
  | S n' =>
      let* r := body i in
      match r with Some x => ret (Some x) | None => for_ret n' (Datatypes.S i) body end
  end.

Lemma for_loop_inv {S} (I : nat -> S -> Prop) n : forall i body s,
  I i s ->
  (forall j s, (i <= j < i + n)%nat -> I j s -> exists s', body j s = Ok tt s' /\ I (Datatypes.S j) s') ->
  exists s', for_loop n i body s = Ok tt s' /\ I (i + n)%nat s'.
Proof.
  induction n as [|n IH]; intros i body s Hi Hb; simpl.
  - exists s. rewrite Nat.add_0_r. done.
  - destruct (Hb i s ltac:(lia) Hi) as (s1 & H1 & Hi1).
    destruct (IH (Datatypes.S i) body s1 Hi1) as (s2 & H2 & Hi2).
    { intros j s' Hj. apply Hb. lia. }
    exists s2. rewrite (bind_ok _ _ _ _ _ H1). split; [done|].
    by replace (i + Datatypes.S n)%nat with (Datatypes.S i + n)%nat by lia.
Qed.

(** A search loop: it stops at the first index whose body returns. *)
Lemma for_ret_inv {S R} (I : nat -> S -> Prop) (Q : R -> S -> Prop) n : forall i body s,
  I i s ->
  (forall j s, (i <= j < i + n)%nat -> I j s ->
     exists r s', body j s = Ok r s' /\
     match r with Some x => Q x s' | None => I (Datatypes.S j) s' end) ->
  exists r s', for_ret n i body s = Ok r s' /\
     match r with Some x => Q x s' | None => I (i + n)%nat s' end.
Proof.
  induction n as [|n IH]; intros i body s Hi Hb; simpl.
  - exists None, s. rewrite Nat.add_0_r. done.
  - destruct (Hb i s ltac:(lia) Hi) as (r & s1 & H1 & Hi1).
    rewrite (bind_ok _ _ _ _ _ H1). destruct r as [x|].
    + exists (Some x), s1. done.
    + destruct (IH (Datatypes.S i) body s1 Hi1) as (r & s2 & H2 & Hi2).
      { intros j s' Hj. apply Hb. lia. }
      exists r, s2. split; [done|].
      by replace (i + Datatypes.S n)%nat with (Datatypes.S i + n)%nat by lia.
Qed.

(** Preservation along every outcome, and along successful returns only. *)
Definition always {S A} (R : S -> S -> Prop) (m : M S A) : Prop :=
  forall s, R s (final (m s)).
Definition okpres {S A} (R : S -> S -> Prop) (m : M S A) : Prop :=
  forall s a s', m s = Ok a s' -> R s s'.

(** Partial-correctness triples: outcomes other than a return are allowed. *)
Definition hoare {S A} (P : S -> Prop) (m : M S A) (Q : A -> S -> Prop) : Prop :=
  forall s, P s -> forall a s', m s = Ok a s' -> Q a s'.

Section Preservation.
Context {S : Type} (R : S -> S -> Prop) `{!PreOrder R}.

Lemma always_ret {A} (a : A) : always R (ret a).
Proof. intros s. simpl. reflexivity. Qed.
Lemma always_panic {A} msg : always R (panic (A := A) msg).
Proof. intros s. simpl. reflexivity. Qed.
Lemma always_fault {A} : always R (fault (A := A)).
Proof. intros s. simpl. reflexivity. Qed.
Lemma always_diverge {A} : always R (diverge (A := A)).
Proof. intros s. simpl. reflexivity. Qed.
Lemma always_bind {A B} (m : M S A) (k : A -> M S B) :
  always R m -> (forall a, always R (k a)) -> always R (bind m k).
Proof.
  intros Hm Hk s. specialize (Hm s). unfold bind.
  destruct (m s) as [a s'| | | |]; simpl in *; try done.
  etrans; [exact Hm|]. apply Hk.
Qed.
Lemma always_if {A} (b : bool) (m1 m2 : M S A) :
  always R m1 -> always R m2 -> always R (if b then m1 else m2).
Proof. by destruct b. Qed.

Lemma okpres_ret {A} (a : A) : okpres R (ret a).
Proof. intros s b s' [= <- <-]. reflexivity. Qed.
Lemma okpres_panic {A} msg : okpres R (panic (A := A) msg).
Proof. by intros s a s' [=]. Qed.
Lemma okpres_fault {A} : okpres R (fault (A := A)).
Proof. by intros s a s' [=]. Qed.
Lemma okpres_diverge {A} : okpres R (diverge (A := A)).
Proof. by intros s a s' [=]. Qed.
Lemma okpres_bind {A B} (m : M S A) (k : A -> M S B) :
  okpres R m -> (forall a, okpres R (k a)) -> okpres R (bind m k).
Proof.
  intros Hm Hk s b s' (a & s1 & H1 & H2)%bind_inv.
  etrans; [eapply Hm|eapply Hk]; eauto.
Qed.
Lemma okpres_if {A} (b : bool) (m1 m2 : M S A) :
  okpres R m1 -> okpres R m2 -> okpres R (if b then m1 else m2).
Proof. by destruct b. Qed.
End Preservation.

(** ** Records with field updates

    [s <| f := v |>] is the C assignment [s.f = v]. *)

Class Field {R T : Type} (proj : R -> T) := upd : (T -> T) -> R -> R.
Arguments upd {R T} proj {_} _ _.
Notation "r <| f := v |>" := (upd f (fun _ => v) r)
  (at level 1, f at level 0, left associativity).
Notation "r <| f ::= g |>" := (upd f g r)
  (at level 1, f at level 0, left associativity).

(** ** String and character constants *)

(** The bytes of a string literal. *)
Definition bytes (s : string) : list Z := (fun c => Z.of_nat (nat_of_ascii c)) <$> list_ascii_of_string s.

Definition chr (s : string) : Z := hd 0 (bytes s).

(** A newline. *)
Definition nl : list Z := [10].

(** ** Bytes, little-endian words and memories *)

Fixpoint le_bytes (n : nat) (x : Z) : list Z :=
  match n with
  | O => []
  | S n' => x mod 256 :: le_bytes n' (x / 256)
  end.

Fixpoint le_val (l : list Z) : Z :=
  match l with
  | [] => 0
  | b :: l' => b + 256 * le_val l'
  end.

Definition is_byte (b : Z) : Prop := 0 <= b < 256.

Lemma length_le_bytes n x : length (le_bytes n x) = n.
Proof. revert x; induction n; intros; simpl; auto. Qed.

Lemma le_bytes_byte n x : Forall is_byte (le_bytes n x).
Proof.
  revert x; induction n; intros; simpl; constructor; auto.
  apply Z.mod_pos_bound. lia.
Qed.

Lemma le_val_le_bytes n x : le_val (le_bytes n x) = x mod 2 ^ (8 * Z.of_nat n).
Proof.
  revert x; induction n as [|n IH]; intros x; simpl le_val.
  - by rewrite Z.mod_1_r.
  - rewrite IH.
    replace (8 * Z.of_nat (S n)) with (8 + 8 * Z.of_nat n) by lia.
    rewrite Z.pow_add_r by lia. change (2 ^ 8) with 256.
    rewrite Z.rem_mul_r; [lia|lia|]. apply Z.pow_pos_nonneg; lia.
Qed.

Lemma le_val_range l : Forall is_byte l -> 0 <= le_val l < 2 ^ (8 * Z.of_nat (length l)).
Proof.
  induction 1 as [|b l Hb _ IH]; simpl le_val; simpl length; [simpl; lia|].
  replace (8 * Z.of_nat (S (length l))) with (8 + 8 * Z.of_nat (length l)) by lia.
  rewrite Z.pow_add_r by lia. unfold is_byte in Hb. lia.
Qed.

Lemma le_bytes_le_val l : Forall is_byte l -> le_bytes (length l) (le_val l) = l.
Proof.
  induction 1 as [|b l Hb _ IH]; simpl; [done|]. unfold is_byte in Hb.
  replace (b + 256 * le_val l) with (le_val l * 256 + b) by lia.
  rewrite Z.div_add_l, (Z.div_small b) by lia.
  rewrite (Z.add_comm _ b), Z.mod_add, Z.mod_small by lia.
  rewrite Z.add_0_r. by rewrite IH.
Qed.

(** A memory maps kernel addresses to byte values. *)
Definition mem : Type := Z -> Z.

Definition mread (m : mem) (a : Z) (n : nat) : list Z :=
  (fun i : nat => m (a + Z.of_nat i)) <$> seq 0 n.

Definition mwrite (m : mem) (a : Z) (l : list Z) : mem := fun x =>
  if (a <=? x) && (x <? a + Z.of_nat (length l)) then nth (Z.to_nat (x - a)) l 0 else m x.

Definition load (n : nat) (m : mem) (a : Z) : Z := le_val (mread m a n).
Definition store (n : nat) (m : mem) (a : Z) (v : Z) : mem := mwrite m a (le_bytes n v).

Arguments mread : simpl never.
Arguments mwrite : simpl never.
Arguments load : simpl never.
Arguments store : simpl never.

Lemma length_mread m a n : length (mread m a n) = n.
Proof. unfold mread. by rewrite length_fmap, length_seq. Qed.

Lemma lookup_mread m a n i : (i < n)%nat -> mread m a n !! i = Some (m (a + Z.of_nat i)).
Proof.
  intros. unfold mread. rewrite list_lookup_fmap, lookup_seq_lt by lia. done.
Qed.

Lemma mread_ext m m' a a' n :
  (forall i : nat, (i < n)%nat -> m (a + Z.of_nat i) = m' (a' + Z.of_nat i)) ->
  mread m a n = mread m' a' n.
Proof.
  intros H. apply list_eq_same_length with (n := n); rewrite ?length_mread; auto.
  intros i x y Hi. rewrite !lookup_mread by lia. intros. simplify_eq. auto.
Qed.

Lemma mwrite_in m a l (i : nat) :
  (i < length l)%nat -> mwrite m a l (a + Z.of_nat i) = nth i l 0.
Proof.
  intros. unfold mwrite.
  destruct (Z.leb_spec a (a + Z.of_nat i)); [|lia].
  destruct (Z.ltb_spec (a + Z.of_nat i) (a + Z.of_nat (length l))); [|lia].
  simpl. f_equal. lia.
Qed.

Lemma mwrite_out m a l x :
  x < a \/ a + Z.of_nat (length l) <= x -> mwrite m a l x = m x.
Proof.
  intros. unfold mwrite.
  destruct (Z.leb_spec a x), (Z.ltb_spec x (a + Z.of_nat (length l))); simpl; auto; lia.
Qed.

Lemma mread_mwrite_same m a l : mread (mwrite m a l) a (length l) = l.
Proof.
  apply list_eq_same_length with (n := length l); rewrite ?length_mread; auto.
  intros i x y Hi. rewrite lookup_mread by lia. rewrite mwrite_in by lia.
  intros ? Hl. simplify_eq. erewrite nth_lookup_Some; eauto.
Qed.

Lemma mread_mwrite_disjoint m a l b n :
  b + Z.of_nat n <= a \/ a + Z.of_nat (length l) <= b ->
  mread (mwrite m a l) b n = mread m b n.
Proof. intros. apply mread_ext. intros. rewrite mwrite_out; auto. lia. Qed.

Lemma load_store_same n m a v : load n (store n m a v) a = v mod 2 ^ (8 * Z.of_nat n).
Proof.
  unfold load, store. pose proof (mread_mwrite_same m a (le_bytes n v)) as H.
  rewrite length_le_bytes in H. by rewrite H, le_val_le_bytes.
Qed.

Lemma load_store_disjoint n k m a b v :
  b + Z.of_nat n <= a \/ a + Z.of_nat k <= b -> load n (store k m a v) b = load n m b.
Proof.
  intros. unfold load, store. rewrite mread_mwrite_disjoint; auto.
  rewrite length_le_bytes. lia.
Qed.

Lemma store_out n m a v x : x < a \/ a + Z.of_nat n <= x -> store n m a v x = m x.
Proof. intros. unfold store. apply mwrite_out. by rewrite length_le_bytes. Qed.

Lemma load_ext n m m' a :
  (forall x, a <= x < a + Z.of_nat n -> m x = m' x) -> load n m a = load n m' a.
Proof. intros H. unfold load. f_equal. apply mread_ext. intros. apply H. lia. Qed.

Lemma load_range n m a :
  (forall x, is_byte (m x)) -> 0 <= load n m a < 2 ^ (8 * Z.of_nat n).
Proof.
  intros H. unfold load. pose proof (le_val_range (mread m a n)) as L.
  rewrite length_mread in L. apply L.
  unfold mread. apply Forall_fmap, Forall_forall. intros. apply H.
Qed.

(** ** Byte blocks

    A disk block or buffer is a list of bytes; its fields are read and written
    as little-endian words at a byte offset. *)

Definition rdb (l : list Z) (off n : nat) : list Z := take n (drop off l).
Definition wrb (l : list Z) (off : nat) (bs : list Z) : list Z :=
  take off l ++ bs ++ drop (off + length bs) l.
Definition rdn (n : nat) (l : list Z) (off : nat) : Z := le_val (rdb l off n).
Definition wrn (n : nat) (l : list Z) (off : nat) (v : Z) : list Z := wrb l off (le_bytes n v).

Arguments rdb : simpl never.
Arguments wrb : simpl never.
Arguments rdn : simpl never.
Arguments wrn : simpl never.

Lemma length_wrb l off bs : (off + length bs <= length l)%nat -> length (wrb l off bs) = length l.
Proof. intros. unfold wrb. rewrite !length_app, length_take, length_drop. lia. Qed.

Lemma length_wrn n l off v : (off + n <= length l)%nat -> length (wrn n l off v) = length l.
Proof. intros. apply length_wrb. by rewrite length_le_bytes. Qed.

Create HintDb words.

#[export] Hint Rewrite length_wrb length_wrn using lia : words.
#[export] Hint Rewrite u8_small u16_small u32_small u64_small using lia : words.
#[export] Hint Rewrite length_le_bytes length_mread : words.

Ltac words := autorewrite with words in *; try lia.

Lemma rdb_wrb_same l off bs : (off + length bs <= length l)%nat -> rdb (wrb l off bs) off (length bs) = bs.
Proof.
  intros. unfold rdb, wrb. rewrite drop_app_length' by (rewrite length_take; lia).
  by rewrite take_app_length.
Qed.

Lemma lookup_wrb l off bs i :
  (off + length bs <= length l)%nat ->
  wrb l off bs !! i = if decide (off <= i < off + length bs)%nat then bs !! (i - off)%nat else l !! i.
Proof.
  intros Hl. unfold wrb. case_decide as D.
  - rewrite lookup_app_r by (rewrite length_take; lia).
    rewrite lookup_app_l by (rewrite length_take; lia). f_equal. rewrite length_take. lia.
  - destruct (decide (i < off)%nat).
    + rewrite lookup_app_l by (rewrite length_take; lia). apply lookup_take_lt; lia.
    + rewrite lookup_app_r by (rewrite length_take; lia).
      rewrite lookup_app_r by (rewrite length_take; lia). rewrite lookup_drop, length_take.
      f_equal. lia.
Qed.

Lemma rdb_wrb_disjoint l off bs off' n :
  (off + length bs <= length l)%nat -> (off' + n <= off \/ off + length bs <= off')%nat ->
  rdb (wrb l off bs) off' n = rdb l off' n.
Proof.
  intros Hl Hd. unfold rdb. apply list_eq. intros i. destruct (decide (i < n)%nat).
  - rewrite !lookup_take_lt, !lookup_drop, lookup_wrb by done.
    rewrite decide_False by lia. done.
  - rewrite !lookup_take_ge by lia. done.
Qed.

Lemma rdn_wrn_same n l off v :
  (off + n <= length l)%nat -> rdn n (wrn n l off v) off = v mod 2 ^ (8 * Z.of_nat n).
Proof.
  intros H. unfold rdn, wrn. pose proof (rdb_wrb_same l off (le_bytes n v)) as E.
  rewrite length_le_bytes in E. by rewrite E, le_val_le_bytes.
Qed.

Lemma rdn_wrn_disjoint n k l off v off' :
  (off + k <= length l)%nat -> (off' + n <= off \/ off + k <= off')%nat ->
  rdn n (wrn k l off v) off' = rdn n l off'.
Proof.
  intros. unfold rdn, wrn. f_equal. apply rdb_wrb_disjoint; by rewrite length_le_bytes.
Qed.

(** ** Functions updated at one argument *)

Definition fset {A B} `{EqDecision A} (f : A -> B) (a : A) (v : B) : A -> B := fun b => if decide (b = a) then v else f b.

Lemma fset_eq {A B} `{EqDecision A} (f : A -> B) a v : fset f a v a = v.
Proof. unfold fset. by rewrite decide_True. Qed.

Lemma fset_ne {A B} `{EqDecision A} (f : A -> B) a v b : b <> a -> fset f a v b = f b.
Proof. intros H. unfold fset. by rewrite decide_False. Qed.

(** The same for functions on [Z], with a test that computes. *)
Definition zset {A} (f : Z -> A) (k : Z) (v : A) : Z -> A := fun x => if x =? k then v else f x.

Lemma zset_eq {A} (f : Z -> A) k v : zset f k v k = v.
Proof. unfold zset. by rewrite Z.eqb_refl. Qed.
Lemma zset_ne {A} (f : Z -> A) k v x : x <> k -> zset f k v x = f x.
Proof. intros. unfold zset. by destruct (Z.eqb_spec x k). Qed.

(** ** Lists *)

Section ListLemmas.
Context {A : Type} `{!EqDecision A}.

Lemma filter_ne_notin (x : A) (l : list A) : x ∉ l -> filter (fun y => y <> x) l = l.
Proof.
  induction l as [|y l IH]; intros H; [done|]. rewrite filter_cons_True by set_solver.
  f_equal. apply IH. set_solver.
Qed.

Lemma length_filter_ne (x : A) (l : list A) :
  NoDup l -> x ∈ l -> S (length (filter (fun y => y <> x) l)) = length l.
Proof.
  induction 1 as [|y l Hy Hd IH]; intros Hx; [set_solver|].
  destruct (decide (y = x)) as [->|].
  - rewrite filter_cons_False by naive_solver. by rewrite filter_ne_notin.
  - rewrite filter_cons_True by done. simpl. f_equal. apply IH. set_solver.
Qed.
End ListLemmas.

Lemma list_alter_insert {A} (f : A -> A) i (l : list A) x :
  l !! i = Some x -> alter f i l = <[i := f x]> l.
Proof.
  revert i; induction l as [|y l IH]; intros [|i] H; simplify_eq/=; [done|].
  f_equal. by apply IH.
Qed.

Lemma list_alter_id' {A} (f : A -> A) i (l : list A) :
  (forall x, l !! i = Some x -> f x = x) -> alter f i l = l.
Proof.
  revert i; induction l as [|y l IH]; intros [|i] H; simpl; f_equal; auto.
  apply IH. intros x Hx. apply H. done.
Qed.
