(* ===== verification/Layout.v ===== *)
(** Constants and address arithmetic of the kernel headers: param.h,
    riscv.h (page-table macros), memlayout.h, fs.h, stat.h, fcntl.h. *)

From S2P Require Import Prelude.

(** ** kernel/param.h *)

Definition NPROC : nat := 64.
Definition NCPU : nat := 8.
Definition NOFILE : nat := 16.
Definition NFILE : nat := 100.
Definition NINODE : nat := 50.
Definition NDEV : Z := 10.
Definition ROOTDEV : Z := 1.
Definition MAXARG : nat := 32.
Definition MAXOPBLOCKS : Z := 10.
Definition LOGSIZE : Z := MAXOPBLOCKS * 3.
Definition NBUF : nat := 30.
Definition FSSIZE : Z := 2000.
Definition MAXPATH : Z := 128.

(** ** kernel/riscv.h: page sizes, page-table entries, Sv39 indices *)

Definition PGSIZE : Z := 4096.
Definition PGSHIFT : Z := 12.

(** [PGROUNDUP] adds in 64 bits; [~(PGSIZE-1)] is the sign-extended mask. *)
Definition PGROUNDUP (sz : Z) : Z := Z.land (u64 (sz + PGSIZE - 1)) (u64 (Z.lnot (PGSIZE - 1))).
Definition PGROUNDDOWN (a : Z) : Z := Z.land a (u64 (Z.lnot (PGSIZE - 1))).

Definition PTE_V : Z := Z.shiftl 1 0.
Definition PTE_R : Z := Z.shiftl 1 1.
Definition PTE_W : Z := Z.shiftl 1 2.
Definition PTE_X : Z := Z.shiftl 1 3.
Definition PTE_U : Z := Z.shiftl 1 4.

Definition PA2PTE (pa : Z) : Z := u64 (Z.shiftl (Z.shiftr pa 12) 10).
Definition PTE2PA (pte : Z) : Z := u64 (Z.shiftl (Z.shiftr pte 10) 12).
Definition PTE_FLAGS (pte : Z) : Z := Z.land pte 1023.

Definition PXMASK : Z := 511.
Definition PXSHIFT (level : Z) : Z := PGSHIFT + 9 * level.
Definition PX (level va : Z) : Z := Z.land (Z.shiftr va (PXSHIFT level)) PXMASK.

Definition MAXVA : Z := Z.shiftl 1 (9 + 9 + 9 + 12 - 1).

(** ** kernel/memlayout.h *)

Definition UART0 : Z := 268435456.
Definition UART0_IRQ : Z := 10.
Definition VIRTIO0 : Z := 268439552.
Definition VIRTIO0_IRQ : Z := 1.
Definition PLIC : Z := 201326592.
Definition KERNBASE : Z := 2147483648.
Definition PHYSTOP : Z := KERNBASE + 128 * 1024 * 1024.
Definition TRAMPOLINE : Z := MAXVA - PGSIZE.
Definition KSTACK (p : Z) : Z := TRAMPOLINE - (p + 1) * 2 * PGSIZE.
Definition TRAPFRAME : Z := TRAMPOLINE - PGSIZE.

(** ** kernel/fs.h: on-disk format *)

Definition ROOTINO : Z := 1.
Definition BSIZE : Z := 1024.

Record superblock : Type := mkSuperblock {
  sb_magic : Z;
  sb_size : Z;
  sb_nblocks : Z;
  sb_ninodes : Z;
  sb_nlog : Z;
  sb_logstart : Z;
  sb_inodestart : Z;
  sb_bmapstart : Z;
}.

Definition FSMAGIC : Z := 270544960.
Definition NDIRECT : Z := 12.
Definition NINDIRECT : Z := BSIZE / 4.
Definition MAXFILE : Z := NDIRECT + NINDIRECT.

Record dinode : Type := mkDinode {
  di_type : Z;
  di_major : Z;
  di_minor : Z;
  di_nlink : Z;
  di_size : Z;
  di_addrs : list Z;
}.
Definition sizeof_dinode : Z := 64.

Definition IPB : Z := BSIZE / sizeof_dinode.
Definition IBLOCK (i : Z) (sb : superblock) : Z := u32 (i / IPB + sb_inodestart sb).
Definition BPB : Z := BSIZE * 8.
Definition BBLOCK (b : Z) (sb : superblock) : Z := u32 (b / BPB + sb_bmapstart sb).

Definition DIRSIZ : Z := 14.
Record dirent : Type := mkDirent {
  de_inum : Z;
  de_name : list Z;
}.
Definition sizeof_dirent : Z := 16.

(** ** kernel/stat.h and kernel/fcntl.h *)

Definition T_DIR : Z := 1.
Definition T_FILE : Z := 2.
Definition T_DEVICE : Z := 3.

Definition O_RDONLY : Z := 0.
Definition O_WRONLY : Z := 1.
Definition O_RDWR : Z := 2.
Definition O_CREATE : Z := 512.
Definition O_TRUNC : Z := 1024.

(** ** Arithmetic of the macros *)

Lemma PGROUNDDOWN_eq a : 0 <= a < 2 ^ 64 -> PGROUNDDOWN a = a / PGSIZE * PGSIZE.
Proof.
  intros H. unfold PGROUNDDOWN, PGSIZE.
  replace (u64 (Z.lnot (4096 - 1))) with (Z.ldiff (Z.ones 64) (Z.ones 12)) by reflexivity.
  replace (Z.land a (Z.ldiff (Z.ones 64) (Z.ones 12))) with (Z.ldiff (Z.land a (Z.ones 64)) (Z.ones 12)).
  - rewrite Z.land_ones, Z.mod_small by lia.
    rewrite Z.ldiff_ones_r by lia. rewrite Z.shiftl_mul_pow2, Z.shiftr_div_pow2 by lia.
    reflexivity.
  - apply Z.bits_inj'. intros n Hn. rewrite Z.land_spec, !Z.ldiff_spec, Z.land_spec.
    by rewrite andb_assoc.
Qed.

Lemma PGROUNDUP_eq a :
  0 <= a -> a + PGSIZE - 1 < 2 ^ 64 -> PGROUNDUP a = (a + PGSIZE - 1) / PGSIZE * PGSIZE.
Proof.
  intros H1 H2. unfold PGROUNDUP.
  assert (0 <= a + PGSIZE - 1) by (unfold PGSIZE; lia).
  rewrite u64_small by lia.
  pose proof (PGROUNDDOWN_eq (a + PGSIZE - 1)) as E. unfold PGROUNDDOWN in E.
  rewrite E; [done|lia].
Qed.

Lemma PGROUNDDOWN_bounds a :
  0 <= a < 2 ^ 64 -> PGROUNDDOWN a <= a < PGROUNDDOWN a + PGSIZE /\ (PGSIZE | PGROUNDDOWN a).
Proof.
  intros. rewrite PGROUNDDOWN_eq by done. unfold PGSIZE in *.
  pose proof (Z.div_mod a 4096) as E. pose proof (Z.mod_pos_bound a 4096).
  split; [lia|]. apply Z.divide_factor_r.
Qed.

Lemma PGROUNDUP_bounds a :
  0 <= a -> a + PGSIZE - 1 < 2 ^ 64 ->
  a <= PGROUNDUP a < a + PGSIZE /\ (PGSIZE | PGROUNDUP a).
Proof.
  intros. rewrite PGROUNDUP_eq by done. unfold PGSIZE in *.
  pose proof (Z.div_mod (a + 4096 - 1) 4096) as E.
  pose proof (Z.mod_pos_bound (a + 4096 - 1) 4096).
  split; [lia|]. apply Z.divide_factor_r.
Qed.

Lemma PGROUNDDOWN_aligned a : 0 <= a < 2 ^ 64 -> (PGSIZE | a) -> PGROUNDDOWN a = a.
Proof.
  intros H [k ->]. rewrite PGROUNDDOWN_eq by done. unfold PGSIZE in *.
  by rewrite Z.div_mul.
Qed.

Lemma PGROUNDUP_aligned a :
  0 <= a -> a + PGSIZE - 1 < 2 ^ 64 -> (PGSIZE | a) -> PGROUNDUP a = a.
Proof.
  intros H H' [k ->]. rewrite PGROUNDUP_eq by done. unfold PGSIZE in *.
  replace (k * 4096 + 4096 - 1) with (k * 4096 + 4095) by lia.
  rewrite Z.div_add_l by lia. change (4095 / 4096) with 0. lia.
Qed.

Lemma PX_eq level va : 0 <= level -> PX level va = (va / 2 ^ PXSHIFT level) mod 512.
Proof.
  intros. unfold PX, PXMASK. change 511 with (Z.ones 9).
  rewrite Z.land_ones by lia. rewrite Z.shiftr_div_pow2; [done|].
  unfold PXSHIFT, PGSHIFT. lia.
Qed.

Lemma PX_range level va : 0 <= level -> 0 <= PX level va < 512.
Proof. intros. rewrite PX_eq by done. apply Z.mod_pos_bound. lia. Qed.

(** The three indices determine the page of a virtual address below [MAXVA]. *)
Lemma PX_inj va va' :
  0 <= va < MAXVA -> 0 <= va' < MAXVA ->
  PX 2 va = PX 2 va' -> PX 1 va = PX 1 va' -> PX 0 va = PX 0 va' ->
  va / PGSIZE = va' / PGSIZE.
Proof.
  unfold MAXVA. rewrite !PX_eq by lia. unfold PXSHIFT, PGSHIFT, PGSIZE.
  change (Z.shiftl 1 (9 + 9 + 9 + 12 - 1)) with 274877906944.
  change (2 ^ (12 + 9 * 2)) with 1073741824. change (2 ^ (12 + 9 * 1)) with 2097152.
  change (2 ^ (12 + 9 * 0)) with 4096. intros.
  assert (forall x, 0 <= x < 274877906944 ->
    x / 4096 = (x / 1073741824) mod 512 * 262144 + (x / 2097152) mod 512 * 512 + (x / 4096) mod 512) as D.
  { clear. intros. Z.to_euclidean_division_equations. lia. }
  rewrite (D va), (D va') by lia. congruence.
Qed.

Lemma PTE2PA_PA2PTE pa flags :
  (PGSIZE | pa) -> 0 <= pa < 2 ^ 56 -> 0 <= flags < 1024 ->
  PTE2PA (Z.lor (PA2PTE pa) flags) = pa.
Proof.
  intros [k ->] Hpa Hf. unfold PTE2PA, PA2PTE, PGSIZE in *.
  assert (0 <= k < 2 ^ 44) by lia.
  rewrite (Z.shiftr_div_pow2 (k * 4096) 12) by lia. change (2 ^ 12) with 4096.
  rewrite Z.div_mul by lia. rewrite (u64_small (Z.shiftl k 10))
    by (rewrite Z.shiftl_mul_pow2 by lia; lia).
  rewrite Z.shiftr_lor. rewrite Z.shiftr_shiftl_l by lia. simpl (10 - 10).
  rewrite Z.shiftl_0_r. rewrite (Z.shiftr_div_pow2 flags 10) by lia.
  change (2 ^ 10) with 1024. rewrite Z.div_small by lia. rewrite Z.lor_0_r.
  rewrite Z.shiftl_mul_pow2 by lia. rewrite u64_small by lia. reflexivity.
Qed.

Lemma PTE_FLAGS_PA2PTE pa flags :
  0 <= pa < 2 ^ 64 -> 0 <= flags < 1024 -> PTE_FLAGS (Z.lor (PA2PTE pa) flags) = flags.
Proof.
  intros Hpa Hf. unfold PTE_FLAGS, PA2PTE. change 1023 with (Z.ones 10).
  assert (0 <= Z.shiftr pa 12 < 2 ^ 52).
  { rewrite Z.shiftr_div_pow2 by lia. Z.to_euclidean_division_equations. lia. }
  rewrite Z.shiftl_mul_pow2 by lia. rewrite u64_small by lia.
  rewrite Z.land_lor_distr_l, !Z.land_ones by lia.
  change (2 ^ 10) with 1024. rewrite Z.mod_mul, (Z.mod_small flags) by lia. done.
Qed.

(** Testing a flag of an entry built by [mappages] tests the permission. *)
Lemma land_flags_PA2PTE pa flags bit :
  0 <= pa < 2 ^ 64 -> 0 <= flags < 1024 -> 0 <= bit < 1024 ->
  Z.land (Z.lor (PA2PTE pa) flags) bit = Z.land flags bit.
Proof.
  intros Hpa Hf Hb. pose proof (PTE_FLAGS_PA2PTE pa flags Hpa Hf) as E.
  unfold PTE_FLAGS in E. rewrite <- E at 2.
  rewrite <- Z.land_assoc. f_equal. change 1023 with (Z.ones 10).
  rewrite Z.land_comm, Z.land_ones by lia. rewrite Z.mod_small by lia. done.
Qed.

Lemma pte_u64 pa flags :
  0 <= flags < 1024 -> 0 <= Z.lor (PA2PTE pa) flags < 2 ^ 64.
Proof.
  intros. pose proof (u64_range (Z.shiftl (Z.shiftr pa 12) 10)).
  unfold PA2PTE. split; [apply Z.lor_nonneg; lia|].
  destruct (Z.eq_dec (Z.lor (u64 (Z.shiftl (Z.shiftr pa 12) 10)) flags) 0) as [->|]; [lia|].
  apply Z.log2_lt_pow2; [|rewrite Z.log2_lor by lia].
  - assert (0 <= Z.lor (u64 (Z.shiftl (Z.shiftr pa 12) 10)) flags) by (apply Z.lor_nonneg; lia).
    lia.
  - apply Z.max_lub_lt.
    + destruct (Z.eq_dec (u64 (Z.shiftl (Z.shiftr pa 12) 10)) 0) as [->|]; [simpl; lia|].
      apply Z.log2_lt_pow2; lia.
    + destruct (Z.eq_dec flags 0) as [->|]; [simpl; lia|].
      apply Z.log2_lt_pow2; lia.
Qed.
