(* ===== verification/Strings.v ===== *)
(** kernel/string.c: memory and string routines, over a byte memory.

    Each routine is the loop of the source; pointers are addresses, and the
    remaining count of a loop is its structural argument.  The closed forms
    [mfill] and [mcopy] are what the rest of the kernel uses; [memset_mfill]
    and [memmove_mcopy] prove the loops compute them, overlap included. *)

From S2P Require Import Prelude Layout.

(** ** The routines *)

Definition mset (m : mem) (a v : Z) : mem := fun x => if x =? a then v else m x.

Fixpoint memset_loop (k : nat) (m : mem) (cdst i c : Z) : mem :=
  match k with
  | O => m
  | S k' => memset_loop k' (mset m (cdst + i) (u8 c)) cdst (i + 1) c
  end.

Definition memset (m : mem) (dst c n : Z) : mem :=
  memset_loop (Z.to_nat n) m dst 0 c.

Fixpoint memcmp (m : mem) (s1 s2 : Z) (n : nat) : Z :=
  match n with
  | O => 0
  | S n' => if negb (m s1 =? m s2) then m s1 - m s2 else memcmp m (s1 + 1) (s2 + 1) n'
  end.

Fixpoint move_down (k : nat) (m : mem) (d s : Z) : mem :=
  match k with
  | O => m
  | S k' => move_down k' (mset m (d - 1) (m (s - 1))) (d - 1) (s - 1)
  end.

Fixpoint move_up (k : nat) (m : mem) (d s : Z) : mem :=
  match k with
  | O => m
  | S k' => move_up k' (mset m d (m s)) (d + 1) (s + 1)
  end.

Definition memmove (m : mem) (dst src n : Z) : mem :=
  if n =? 0 then m
  else if (src <? dst) && (dst <? src + n) then move_down (Z.to_nat n) m (dst + n) (src + n)
  else move_up (Z.to_nat n) m dst src.

Definition memcpy (m : mem) (dst src n : Z) : mem := memmove m dst src n.

Fixpoint strncmp (m : mem) (p q : Z) (n : nat) : Z :=
  match n with
  | O => 0
  | S n' =>
      if negb (m p =? 0) && (m p =? m q) then strncmp m (p + 1) (q + 1) n'
      else m p - m q
  end.

Fixpoint strncpy_pad (k : nat) (m : mem) (s : Z) : mem :=
  match k with
  | O => m
  | S k' => strncpy_pad k' (mset m s 0) (s + 1)
  end.

Fixpoint strncpy_copy (k : nat) (m : mem) (s t : Z) : mem :=
  match k with
  | O => m
  | S k' =>
      let c := m t in
      let m' := mset m s c in
      if c =? 0 then strncpy_pad k' m' (s + 1) else strncpy_copy k' m' (s + 1) (t + 1)
  end.

Definition strncpy (m : mem) (s t n : Z) : mem := strncpy_copy (Z.to_nat n) m s t.

Fixpoint safestrcpy_loop (k : nat) (m : mem) (s t : Z) : mem :=
  match k with
  | O => mset m s 0
  | S k' =>
      let c := m t in
      let m' := mset m s c in
      if c =? 0 then mset m' (s + 1) 0 else safestrcpy_loop k' m' (s + 1) (t + 1)
  end.

Definition safestrcpy (m : mem) (s t n : Z) : mem :=
  if n <=? 0 then m else safestrcpy_loop (Z.to_nat (n - 1)) m s t.

(** [strlen] scans until a NUL; [fuel] bounds the scan. *)
Fixpoint strlen_loop (fuel : nat) (m : mem) (s n : Z) : option Z :=
  match fuel with
  | O => None
  | S f => if m (s + n) =? 0 then Some n else strlen_loop f m s (n + 1)
  end.

Definition strlen (fuel : nat) (m : mem) (s : Z) : option Z := strlen_loop fuel m s 0.

(** ** Closed forms *)

Definition mfill (m : mem) (a c n : Z) : mem := fun x =>
  if (a <=? x) && (x <? a + n) then u8 c else m x.

Definition mcopy (m : mem) (d s n : Z) : mem := fun x =>
  if (d <=? x) && (x <? d + n) then m (s + (x - d)) else m x.

Arguments mfill : simpl never.
Arguments mcopy : simpl never.

Ltac zcases :=
  repeat match goal with
  | |- context [?a =? ?b] => destruct (Z.eqb_spec a b)
  | |- context [?a <=? ?b] => destruct (Z.leb_spec a b)
  | |- context [?a <? ?b] => destruct (Z.ltb_spec a b)
  end; simpl.

Lemma memset_loop_spec k : forall m d i c x,
  memset_loop k m d i c x = mfill m (d + i) c (Z.of_nat k) x.
Proof.
  induction k as [|k IH]; intros; simpl memset_loop.
  - unfold mfill. zcases; auto; lia.
  - rewrite IH. unfold mfill, mset. zcases; auto; lia.
Qed.

Lemma move_up_spec k : forall m d s x,
  d <= s \/ s + Z.of_nat k <= d ->
  move_up k m d s x = mcopy m d s (Z.of_nat k) x.
Proof.
  induction k as [|k IH]; intros m d s x H; simpl move_up.
  - unfold mcopy. zcases; auto; lia.
  - rewrite IH by lia. unfold mcopy, mset. zcases; auto; try lia; f_equal; lia.
Qed.

Lemma move_down_spec k : forall m d s x,
  s <= d ->
  move_down k m d s x = mcopy m (d - Z.of_nat k) (s - Z.of_nat k) (Z.of_nat k) x.
Proof.
  induction k as [|k IH]; intros m d s x H; simpl move_down.
  - unfold mcopy. zcases; auto; lia.
  - rewrite IH by lia. unfold mcopy, mset. zcases; auto; try lia; f_equal; lia.
Qed.

(** The C string at [p], cut at [n] bytes: the bytes before the first NUL. *)
Fixpoint cstr (n : nat) (m : mem) (p : Z) : list Z :=
  match n with
  | O => []
  | S n' => if m p =? 0 then [] else m p :: cstr n' m (p + 1)
  end.

Lemma cstr_S n m p :
  cstr (S n) m p = if m p =? 0 then [] else m p :: cstr n m (p + 1).
Proof. done. Qed.

Lemma length_cstr n m p : (length (cstr n m p) <= n)%nat.
Proof.
  revert p; induction n as [|n IH]; intros p; simpl; [lia|].
  destruct (m p =? 0); simpl; [lia|]. specialize (IH (p + 1)). lia.
Qed.

Lemma cstr_ext n m m' p p' :
  (forall i : nat, (i < n)%nat -> m (p + Z.of_nat i) = m' (p' + Z.of_nat i)) ->
  cstr n m p = cstr n m' p'.
Proof.
  revert p p'; induction n as [|n IH]; intros p p' H; simpl; [done|].
  pose proof (H O ltac:(lia)) as H0. rewrite !Z.add_0_r in H0. rewrite H0.
  destruct (m' p' =? 0); [done|]. f_equal. apply IH. intros i Hi.
  specialize (H (S i) ltac:(lia)).
  replace (p + 1 + Z.of_nat i) with (p + Z.of_nat (S i)) by lia.
  replace (p' + 1 + Z.of_nat i) with (p' + Z.of_nat (S i)) by lia. done.
Qed.

Lemma cstr_nonzero n m p : Forall (fun c => c <> 0) (cstr n m p).
Proof.
  revert p; induction n as [|n IH]; intros p; simpl; [constructor|].
  destruct (Z.eqb_spec (m p) 0); constructor; auto.
Qed.

Lemma mread_S m a n : mread m a (S n) = m a :: mread m (a + 1) n.
Proof.
  unfold mread. simpl. rewrite Z.add_0_r. f_equal.
  rewrite <- seq_shift, <- list_fmap_compose. apply list_fmap_ext. intros; simpl.
  f_equal. lia.
Qed.

(** Memmove() copies [n] bytes from [s] to [d] as they were before the
    call and changes no other byte, whether or not the ranges overlap. *)
Theorem memmove_mcopy m d s n x : 0 <= n -> memmove m d s n x = mcopy m d s n x.
Proof.
  intros Hn. unfold memmove. destruct (Z.eqb_spec n 0) as [->|].
  { unfold mcopy. zcases; auto; lia. }
  destruct ((s <? d) && (d <? s + n)) eqn:E.
  - rewrite move_down_spec by lia. unfold mcopy. rewrite Z2Nat.id by lia.
    zcases; auto; try lia; f_equal; lia.
  - rewrite move_up_spec by lia. by rewrite Z2Nat.id by lia.
Qed.

(** An instance of [memmove_mcopy]. *)
Lemma memmove_mcopy_witness :
  memmove (fun x => x) 12 10 5 14 = 12 /\ memmove (fun x => x) 12 10 5 14 = mcopy (fun x => x) 12 10 5 14.
Proof. split; [reflexivity|]. apply (memmove_mcopy (fun x => x) 12 10 5 14). lia. Defined.

(** Memset() sets [n] bytes at [d] to [c] cut to a byte, and no other. *)
Theorem memset_mfill m d c n x : 0 <= n -> memset m d c n x = mfill m d c n x.
Proof.
  intros. unfold memset. rewrite memset_loop_spec, Z.add_0_r, Z2Nat.id by lia. done.
Qed.

(** An instance of [memset_mfill]. *)
Lemma memset_mfill_witness :
  memset (fun x => x) 10 257 5 14 = 1 /\ memset (fun x => x) 10 257 5 14 = mfill (fun x => x) 10 257 5 14.
Proof. split; [reflexivity|]. apply (memset_mfill (fun x => x) 10 257 5 14). lia. Defined.

Lemma strncmp_range m p q n : (forall x, is_byte (m x)) -> -256 < strncmp m p q n < 256.
Proof.
  intros Hb. revert p q; induction n as [|n IH]; intros p q; simpl; [lia|].
  pose proof (Hb p). pose proof (Hb q). unfold is_byte in *.
  destruct (negb (m p =? 0) && (m p =? m q)); [auto|lia].
Qed.

(** Strncmp() of two memory areas returns 0 exactly when the strings there,
    cut to [n] bytes, are equal. *)
Theorem strncmp_eq m p q n : strncmp m p q n = 0 <-> cstr n m p = cstr n m q.
Proof.
  revert p q; induction n as [|n IH]; intros p q; simpl; [done|].
  destruct (Z.eqb_spec (m p) 0) as [Hp|Hp], (Z.eqb_spec (m p) (m q)) as [Hpq|Hpq],
    (Z.eqb_spec (m q) 0) as [Hq|Hq]; simpl; try lia.
  - split; [done|lia].
  - split; [lia|done].
  - rewrite IH. split; intros H; [by f_equal|]. by simplify_eq.
  - split; [lia|done].
  - split; [lia|]. intros. simplify_eq.
Qed.

Lemma strncpy_pad_spec k : forall m s x,
  strncpy_pad k m s x = mfill m s 0 (Z.of_nat k) x.
Proof.
  induction k as [|k IH]; intros; simpl strncpy_pad.
  - unfold mfill. zcases; auto; lia.
  - rewrite IH. unfold mfill, mset. zcases; auto; lia.
Qed.

Lemma strncpy_copy_out k : forall m s t x,
  x < s \/ s + Z.of_nat k <= x -> strncpy_copy k m s t x = m x.
Proof.
  induction k as [|k IH]; intros m s t x Hx; simpl; [done|].
  destruct (m t =? 0).
  - rewrite strncpy_pad_spec. unfold mfill, mset. zcases; auto; lia.
  - rewrite IH by lia. unfold mset. zcases; auto; lia.
Qed.

Lemma strncpy_copy_spec k : forall m s t,
  t + Z.of_nat k <= s \/ s + Z.of_nat k <= t ->
  mread (strncpy_copy k m s t) s k =
  cstr k m t ++ replicate (k - length (cstr k m t)) 0.
Proof.
  induction k as [|k IH]; intros m s t Hdis; simpl strncpy_copy; [done|].
  rewrite mread_S. simpl cstr. destruct (Z.eqb_spec (m t) 0) as [E|E].
  - simpl. rewrite strncpy_pad_spec. unfold mfill at 1, mset at 1. zcases; try lia.
    rewrite E. f_equal. apply list_eq_same_length with (n := k);
      rewrite ?length_mread, ?length_replicate; auto.
    intros i x y Hi. rewrite lookup_mread, lookup_replicate_2 by lia.
    rewrite strncpy_pad_spec. unfold mfill. zcases; try lia.
    change (u8 0) with 0. congruence.
  - rewrite strncpy_copy_out by lia. simpl. unfold mset at 1. zcases; try lia.
    f_equal. rewrite IH by lia.
    rewrite (cstr_ext k (mset m s (m t)) m (t + 1) (t + 1)); [done|].
    intros i Hi. unfold mset. zcases; auto; lia.
Qed.

(** Strncpy() between areas that do not overlap leaves at [s] the string at
    [t], cut to [n] bytes and padded with zeros to [n]. *)
Theorem strncpy_spec m s t n :
  0 <= n -> t + n <= s \/ s + n <= t ->
  mread (strncpy m s t n) s (Z.to_nat n) =
  cstr (Z.to_nat n) m t ++ replicate (Z.to_nat n - length (cstr (Z.to_nat n) m t)) 0.
Proof. intros. apply strncpy_copy_spec. lia. Qed.

(** An instance of [strncpy_spec]. *)
Lemma strncpy_spec_witness :
  let m := fun x => if x =? 3 then 0 else x in
  mread (strncpy m 10 1 4) 10 4 = [1; 2; 0; 0] /\
  mread (strncpy m 10 1 4) 10 4 = cstr 4 m 1 ++ replicate (4 - length (cstr 4 m 1)) 0.
Proof.
  intros m. split; [reflexivity|]. apply (strncpy_spec m 10 1 4); [lia|left; lia].
Defined.

Lemma safestrcpy_loop_out k : forall m s t x,
  x < s \/ s + Z.of_nat k < x -> safestrcpy_loop k m s t x = m x.
Proof.
  induction k as [|k IH]; intros m s t x Hx; simpl.
  - unfold mset. zcases; auto; lia.
  - destruct (m t =? 0).
    + unfold mset. zcases; auto; lia.
    + rewrite IH by lia. unfold mset. zcases; auto; lia.
Qed.

Lemma safestrcpy_loop_spec k : forall m s t,
  t + Z.of_nat k <= s \/ s + Z.of_nat k <= t ->
  cstr (S k) (safestrcpy_loop k m s t) s = cstr k m t.
Proof.
  induction k as [|k IH]; intros m s t Hdis.
  - simpl. unfold mset. by rewrite Z.eqb_refl.
  - simpl safestrcpy_loop. rewrite (cstr_S (S k)), (cstr_S k m). destruct (Z.eqb_spec (m t) 0) as [E|E].
    + unfold mset. rewrite E. zcases; auto; lia.
    + rewrite safestrcpy_loop_out by lia. unfold mset at 1 2. rewrite Z.eqb_refl.
      destruct (Z.eqb_spec (m t) 0); [done|]. f_equal.
      rewrite IH by lia. apply cstr_ext. intros. unfold mset. zcases; auto; lia.
Qed.

(** C40: safestrcpy() between areas that do not overlap leaves at [s] the string
    at [t] cut to [n - 1] bytes, always terminated within the [n] bytes of the
    destination, and changes nothing outside them. *)
Theorem safestrcpy_spec m s t n :
  0 < n -> t + n <= s \/ s + n <= t ->
  cstr (Z.to_nat n) (safestrcpy m s t n) s = cstr (Z.to_nat (n - 1)) m t /\
  (forall x, x < s \/ s + n <= x -> safestrcpy m s t n x = m x).
Proof.
  intros Hn Hd. unfold safestrcpy. destruct (Z.leb_spec n 0); [lia|]. split.
  - replace (Z.to_nat n) with (S (Z.to_nat (n - 1))) by lia.
    apply safestrcpy_loop_spec. lia.
  - intros. apply safestrcpy_loop_out. lia.
Qed.

(** An instance of [safestrcpy_spec]. *)
Lemma safestrcpy_spec_witness :
  cstr 3 (safestrcpy (fun x => x) 10 1 3) 10 = [1; 2] /\ safestrcpy (fun x => x) 10 1 3 13 = 13.
Proof.
  destruct (safestrcpy_spec (fun x => x) 10 1 3) as [H1 H2]; [lia|left; lia|].
  split; [exact H1|]. apply (H2 13). lia.
Defined.

Lemma strlen_loop_spec fuel : forall m s n,
  (length (cstr fuel m (s + n)) < fuel)%nat ->
  strlen_loop fuel m s n = Some (n + Z.of_nat (length (cstr fuel m (s + n)))).
Proof.
  induction fuel as [|f IH]; intros m s n; simpl; [lia|].
  destruct (m (s + n) =? 0) eqn:E; simpl; intros.
  - f_equal. lia.
  - rewrite <- Z.add_assoc in *. rewrite IH by lia. f_equal. lia.
Qed.
