(* ===== verification/Kernel.v ===== *)
(** The kernel state: the structs of proc.h, buf.h, file.h, sleeplock.h and
    the globals of the kernel's .c files, as one record, with the monad in
    which kernel code runs.

    A pointer into a static table (proc, buf, inode, file) is the index of the
    entry, [None] for a null pointer; a pointer to a page is its address.
    Physical memory, the kernel's direct map, is one byte memory [k_mem].

    Kernel code runs between two calls of [swtch] without interference; at a
    [swtch] the rest of the system runs.  A [world] therefore pairs the kernel
    state with a schedule: the successive state changes other processes and
    interrupts make while the current process is off the CPU.  When the
    schedule is used up the process is still waiting and the outcome is
    [Blocked]. *)

From S2P Require Import Prelude Layout.

(** ** Names of locks and sleep channels *)

(** The spinlocks of the kernel. *)
Inductive lockid : Type :=
| LkKmem | LkPid | LkWait
| LkProc (i : nat)
| LkBcache
| LkBuf (i : nat)       (** the spinlock inside the sleep-lock of a buffer *)
| LkLog | LkItable
| LkInode (i : nat)     (** the spinlock inside the sleep-lock of an inode *)
| LkFtable
| LkPipe (pi : Z)
| LkTicks | LkCons | LkUart | LkVdisk | LkPr.

#[export] Instance lockid_eq_dec : EqDecision lockid.
Proof. solve_decision. Defined.

(** The addresses processes sleep on. *)
Inductive chan : Type :=
| ChLog
| ChProc (i : nat)
| ChPipeRead (pi : Z)   (** address of pi->nread *)
| ChPipeWrite (pi : Z)  (** address of pi->nwrite *)
| ChBufLock (i : nat)
| ChInodeLock (i : nat)
| ChTicks | ChCons | ChUart
| ChBuf (i : nat)
| ChDiskFree
| ChNull.

#[export] Instance chan_eq_dec : EqDecision chan.
Proof. solve_decision. Defined.

(** ** Structs *)

(** struct sleeplock; its inner spinlock is a [lockid]. *)
Record sleeplock : Type := mkSleeplock {
  sl_locked : bool;
  sl_pid : Z;
}.

#[export] Instance upd_sl_locked : Field sl_locked := fun g r =>
  mkSleeplock (g (sl_locked r)) (sl_pid r).
#[export] Instance upd_sl_pid : Field sl_pid := fun g r =>
  mkSleeplock (sl_locked r) (g (sl_pid r)).
(** enum procstate *)
Inductive procstate : Type :=
| UNUSED | USED | SLEEPING | RUNNABLE | RUNNING | ZOMBIE.

#[export] Instance procstate_eq_dec : EqDecision procstate.
Proof. solve_decision. Defined.

(** struct context: callee-saved registers. *)
Record context : Type := mkContext {
  ctx_ra : Z;
  ctx_sp : Z;
  ctx_s : list Z;  (** s0 to s11 *)
}.

#[export] Instance upd_ctx_ra : Field ctx_ra := fun g r =>
  mkContext (g (ctx_ra r)) (ctx_sp r) (ctx_s r).
#[export] Instance upd_ctx_sp : Field ctx_sp := fun g r =>
  mkContext (ctx_ra r) (g (ctx_sp r)) (ctx_s r).
#[export] Instance upd_ctx_s : Field ctx_s := fun g r =>
  mkContext (ctx_ra r) (ctx_sp r) (g (ctx_s r)).
(** struct proc *)
Record proc : Type := mkProc {
  p_state : procstate;
  p_chan : option chan;
  p_killed : Z;
  p_xstate : Z;
  p_pid : Z;
  p_parent : option nat;
  p_kstack : Z;
  p_sz : Z;
  p_pagetable : Z;
  p_trapframe : Z;
  p_context : context;
  p_ofile : list (option nat);
  p_cwd : option nat;
  p_name : list Z;
}.

#[export] Instance upd_p_state : Field p_state := fun g r =>
  mkProc (g (p_state r)) (p_chan r) (p_killed r) (p_xstate r) (p_pid r) (p_parent r) (p_kstack r) (p_sz r) (p_pagetable r) (p_trapframe r) (p_context r) (p_ofile r) (p_cwd r) (p_name r).
#[export] Instance upd_p_chan : Field p_chan := fun g r =>
  mkProc (p_state r) (g (p_chan r)) (p_killed r) (p_xstate r) (p_pid r) (p_parent r) (p_kstack r) (p_sz r) (p_pagetable r) (p_trapframe r) (p_context r) (p_ofile r) (p_cwd r) (p_name r).
#[export] Instance upd_p_killed : Field p_killed := fun g r =>
  mkProc (p_state r) (p_chan r) (g (p_killed r)) (p_xstate r) (p_pid r) (p_parent r) (p_kstack r) (p_sz r) (p_pagetable r) (p_trapframe r) (p_context r) (p_ofile r) (p_cwd r) (p_name r).
#[export] Instance upd_p_xstate : Field p_xstate := fun g r =>
  mkProc (p_state r) (p_chan r) (p_killed r) (g (p_xstate r)) (p_pid r) (p_parent r) (p_kstack r) (p_sz r) (p_pagetable r) (p_trapframe r) (p_context r) (p_ofile r) (p_cwd r) (p_name r).
#[export] Instance upd_p_pid : Field p_pid := fun g r =>
  mkProc (p_state r) (p_chan r) (p_killed r) (p_xstate r) (g (p_pid r)) (p_parent r) (p_kstack r) (p_sz r) (p_pagetable r) (p_trapframe r) (p_context r) (p_ofile r) (p_cwd r) (p_name r).
#[export] Instance upd_p_parent : Field p_parent := fun g r =>
  mkProc (p_state r) (p_chan r) (p_killed r) (p_xstate r) (p_pid r) (g (p_parent r)) (p_kstack r) (p_sz r) (p_pagetable r) (p_trapframe r) (p_context r) (p_ofile r) (p_cwd r) (p_name r).
#[export] Instance upd_p_kstack : Field p_kstack := fun g r =>
  mkProc (p_state r) (p_chan r) (p_killed r) (p_xstate r) (p_pid r) (p_parent r) (g (p_kstack r)) (p_sz r) (p_pagetable r) (p_trapframe r) (p_context r) (p_ofile r) (p_cwd r) (p_name r).
#[export] Instance upd_p_sz : Field p_sz := fun g r =>
  mkProc (p_state r) (p_chan r) (p_killed r) (p_xstate r) (p_pid r) (p_parent r) (p_kstack r) (g (p_sz r)) (p_pagetable r) (p_trapframe r) (p_context r) (p_ofile r) (p_cwd r) (p_name r).
#[export] Instance upd_p_pagetable : Field p_pagetable := fun g r =>
  mkProc (p_state r) (p_chan r) (p_killed r) (p_xstate r) (p_pid r) (p_parent r) (p_kstack r) (p_sz r) (g (p_pagetable r)) (p_trapframe r) (p_context r) (p_ofile r) (p_cwd r) (p_name r).
#[export] Instance upd_p_trapframe : Field p_trapframe := fun g r =>
  mkProc (p_state r) (p_chan r) (p_killed r) (p_xstate r) (p_pid r) (p_parent r) (p_kstack r) (p_sz r) (p_pagetable r) (g (p_trapframe r)) (p_context r) (p_ofile r) (p_cwd r) (p_name r).
#[export] Instance upd_p_context : Field p_context := fun g r =>
  mkProc (p_state r) (p_chan r) (p_killed r) (p_xstate r) (p_pid r) (p_parent r) (p_kstack r) (p_sz r) (p_pagetable r) (p_trapframe r) (g (p_context r)) (p_ofile r) (p_cwd r) (p_name r).
#[export] Instance upd_p_ofile : Field p_ofile := fun g r =>
  mkProc (p_state r) (p_chan r) (p_killed r) (p_xstate r) (p_pid r) (p_parent r) (p_kstack r) (p_sz r) (p_pagetable r) (p_trapframe r) (p_context r) (g (p_ofile r)) (p_cwd r) (p_name r).
#[export] Instance upd_p_cwd : Field p_cwd := fun g r =>
  mkProc (p_state r) (p_chan r) (p_killed r) (p_xstate r) (p_pid r) (p_parent r) (p_kstack r) (p_sz r) (p_pagetable r) (p_trapframe r) (p_context r) (p_ofile r) (g (p_cwd r)) (p_name r).
#[export] Instance upd_p_name : Field p_name := fun g r =>
  mkProc (p_state r) (p_chan r) (p_killed r) (p_xstate r) (p_pid r) (p_parent r) (p_kstack r) (p_sz r) (p_pagetable r) (p_trapframe r) (p_context r) (p_ofile r) (p_cwd r) (g (p_name r)).
(** struct buf; [b_prev] and [b_next] are indices, [NBUF] being bcache.head. *)
Record buf : Type := mkBuf {
  b_valid : bool;
  b_disk : bool;  (** does disk own buf? *)
  b_dev : Z;
  b_blockno : Z;
  b_lock : sleeplock;
  b_refcnt : Z;
  b_prev : nat;
  b_next : nat;
  b_data : list Z;
}.

#[export] Instance upd_b_valid : Field b_valid := fun g r =>
  mkBuf (g (b_valid r)) (b_disk r) (b_dev r) (b_blockno r) (b_lock r) (b_refcnt r) (b_prev r) (b_next r) (b_data r).
#[export] Instance upd_b_disk : Field b_disk := fun g r =>
  mkBuf (b_valid r) (g (b_disk r)) (b_dev r) (b_blockno r) (b_lock r) (b_refcnt r) (b_prev r) (b_next r) (b_data r).
#[export] Instance upd_b_dev : Field b_dev := fun g r =>
  mkBuf (b_valid r) (b_disk r) (g (b_dev r)) (b_blockno r) (b_lock r) (b_refcnt r) (b_prev r) (b_next r) (b_data r).
#[export] Instance upd_b_blockno : Field b_blockno := fun g r =>
  mkBuf (b_valid r) (b_disk r) (b_dev r) (g (b_blockno r)) (b_lock r) (b_refcnt r) (b_prev r) (b_next r) (b_data r).
#[export] Instance upd_b_lock : Field b_lock := fun g r =>
  mkBuf (b_valid r) (b_disk r) (b_dev r) (b_blockno r) (g (b_lock r)) (b_refcnt r) (b_prev r) (b_next r) (b_data r).
#[export] Instance upd_b_refcnt : Field b_refcnt := fun g r =>
  mkBuf (b_valid r) (b_disk r) (b_dev r) (b_blockno r) (b_lock r) (g (b_refcnt r)) (b_prev r) (b_next r) (b_data r).
#[export] Instance upd_b_prev : Field b_prev := fun g r =>
  mkBuf (b_valid r) (b_disk r) (b_dev r) (b_blockno r) (b_lock r) (b_refcnt r) (g (b_prev r)) (b_next r) (b_data r).
#[export] Instance upd_b_next : Field b_next := fun g r =>
  mkBuf (b_valid r) (b_disk r) (b_dev r) (b_blockno r) (b_lock r) (b_refcnt r) (b_prev r) (g (b_next r)) (b_data r).
#[export] Instance upd_b_data : Field b_data := fun g r =>
  mkBuf (b_valid r) (b_disk r) (b_dev r) (b_blockno r) (b_lock r) (b_refcnt r) (b_prev r) (b_next r) (g (b_data r)).
(** struct log (the lock is [LkLog]) *)
Record logst : Type := mkLog {
  log_start : Z;
  log_size : Z;
  log_outstanding : Z;
  log_committing : bool;
  log_dev : Z;
  lh_n : Z;  (** log.lh.n *)
  lh_block : list Z;  (** log.lh.block *)
}.

#[export] Instance upd_log_start : Field log_start := fun g r =>
  mkLog (g (log_start r)) (log_size r) (log_outstanding r) (log_committing r) (log_dev r) (lh_n r) (lh_block r).
#[export] Instance upd_log_size : Field log_size := fun g r =>
  mkLog (log_start r) (g (log_size r)) (log_outstanding r) (log_committing r) (log_dev r) (lh_n r) (lh_block r).
#[export] Instance upd_log_outstanding : Field log_outstanding := fun g r =>
  mkLog (log_start r) (log_size r) (g (log_outstanding r)) (log_committing r) (log_dev r) (lh_n r) (lh_block r).
#[export] Instance upd_log_committing : Field log_committing := fun g r =>
  mkLog (log_start r) (log_size r) (log_outstanding r) (g (log_committing r)) (log_dev r) (lh_n r) (lh_block r).
#[export] Instance upd_log_dev : Field log_dev := fun g r =>
  mkLog (log_start r) (log_size r) (log_outstanding r) (log_committing r) (g (log_dev r)) (lh_n r) (lh_block r).
#[export] Instance upd_lh_n : Field lh_n := fun g r =>
  mkLog (log_start r) (log_size r) (log_outstanding r) (log_committing r) (log_dev r) (g (lh_n r)) (lh_block r).
#[export] Instance upd_lh_block : Field lh_block := fun g r =>
  mkLog (log_start r) (log_size r) (log_outstanding r) (log_committing r) (log_dev r) (lh_n r) (g (lh_block r)).
(** struct inode: in-memory copy of an inode *)
Record inode : Type := mkInode {
  i_dev : Z;
  i_inum : Z;
  i_ref : Z;
  i_lock : sleeplock;
  i_valid : bool;
  i_type : Z;
  i_major : Z;
  i_minor : Z;
  i_nlink : Z;
  i_size : Z;
  i_addrs : list Z;
}.

#[export] Instance upd_i_dev : Field i_dev := fun g r =>
  mkInode (g (i_dev r)) (i_inum r) (i_ref r) (i_lock r) (i_valid r) (i_type r) (i_major r) (i_minor r) (i_nlink r) (i_size r) (i_addrs r).
#[export] Instance upd_i_inum : Field i_inum := fun g r =>
  mkInode (i_dev r) (g (i_inum r)) (i_ref r) (i_lock r) (i_valid r) (i_type r) (i_major r) (i_minor r) (i_nlink r) (i_size r) (i_addrs r).
#[export] Instance upd_i_ref : Field i_ref := fun g r =>
  mkInode (i_dev r) (i_inum r) (g (i_ref r)) (i_lock r) (i_valid r) (i_type r) (i_major r) (i_minor r) (i_nlink r) (i_size r) (i_addrs r).
#[export] Instance upd_i_lock : Field i_lock := fun g r =>
  mkInode (i_dev r) (i_inum r) (i_ref r) (g (i_lock r)) (i_valid r) (i_type r) (i_major r) (i_minor r) (i_nlink r) (i_size r) (i_addrs r).
#[export] Instance upd_i_valid : Field i_valid := fun g r =>
  mkInode (i_dev r) (i_inum r) (i_ref r) (i_lock r) (g (i_valid r)) (i_type r) (i_major r) (i_minor r) (i_nlink r) (i_size r) (i_addrs r).
#[export] Instance upd_i_type : Field i_type := fun g r =>
  mkInode (i_dev r) (i_inum r) (i_ref r) (i_lock r) (i_valid r) (g (i_type r)) (i_major r) (i_minor r) (i_nlink r) (i_size r) (i_addrs r).
#[export] Instance upd_i_major : Field i_major := fun g r =>
  mkInode (i_dev r) (i_inum r) (i_ref r) (i_lock r) (i_valid r) (i_type r) (g (i_major r)) (i_minor r) (i_nlink r) (i_size r) (i_addrs r).
#[export] Instance upd_i_minor : Field i_minor := fun g r =>
  mkInode (i_dev r) (i_inum r) (i_ref r) (i_lock r) (i_valid r) (i_type r) (i_major r) (g (i_minor r)) (i_nlink r) (i_size r) (i_addrs r).
#[export] Instance upd_i_nlink : Field i_nlink := fun g r =>
  mkInode (i_dev r) (i_inum r) (i_ref r) (i_lock r) (i_valid r) (i_type r) (i_major r) (i_minor r) (g (i_nlink r)) (i_size r) (i_addrs r).
#[export] Instance upd_i_size : Field i_size := fun g r =>
  mkInode (i_dev r) (i_inum r) (i_ref r) (i_lock r) (i_valid r) (i_type r) (i_major r) (i_minor r) (i_nlink r) (g (i_size r)) (i_addrs r).
#[export] Instance upd_i_addrs : Field i_addrs := fun g r =>
  mkInode (i_dev r) (i_inum r) (i_ref r) (i_lock r) (i_valid r) (i_type r) (i_major r) (i_minor r) (i_nlink r) (i_size r) (g (i_addrs r)).
(** The type tag of struct file *)
Inductive fdtype : Type := FD_NONE | FD_PIPE | FD_INODE | FD_DEVICE.

#[export] Instance fdtype_eq_dec : EqDecision fdtype.
Proof. solve_decision. Defined.

(** struct file *)
Record file : Type := mkFile {
  f_type : fdtype;
  f_ref : Z;
  f_readable : bool;
  f_writable : bool;
  f_pipe : Z;
  f_ip : option nat;
  f_off : Z;
  f_major : Z;
}.

#[export] Instance upd_f_type : Field f_type := fun g r =>
  mkFile (g (f_type r)) (f_ref r) (f_readable r) (f_writable r) (f_pipe r) (f_ip r) (f_off r) (f_major r).
#[export] Instance upd_f_ref : Field f_ref := fun g r =>
  mkFile (f_type r) (g (f_ref r)) (f_readable r) (f_writable r) (f_pipe r) (f_ip r) (f_off r) (f_major r).
#[export] Instance upd_f_readable : Field f_readable := fun g r =>
  mkFile (f_type r) (f_ref r) (g (f_readable r)) (f_writable r) (f_pipe r) (f_ip r) (f_off r) (f_major r).
#[export] Instance upd_f_writable : Field f_writable := fun g r =>
  mkFile (f_type r) (f_ref r) (f_readable r) (g (f_writable r)) (f_pipe r) (f_ip r) (f_off r) (f_major r).
#[export] Instance upd_f_pipe : Field f_pipe := fun g r =>
  mkFile (f_type r) (f_ref r) (f_readable r) (f_writable r) (g (f_pipe r)) (f_ip r) (f_off r) (f_major r).
#[export] Instance upd_f_ip : Field f_ip := fun g r =>
  mkFile (f_type r) (f_ref r) (f_readable r) (f_writable r) (f_pipe r) (g (f_ip r)) (f_off r) (f_major r).
#[export] Instance upd_f_off : Field f_off := fun g r =>
  mkFile (f_type r) (f_ref r) (f_readable r) (f_writable r) (f_pipe r) (f_ip r) (g (f_off r)) (f_major r).
#[export] Instance upd_f_major : Field f_major := fun g r =>
  mkFile (f_type r) (f_ref r) (f_readable r) (f_writable r) (f_pipe r) (f_ip r) (f_off r) (g (f_major r)).
(** struct pipe, kept at the page address kalloc returned *)
Record pipe : Type := mkPipe {
  pi_data : list Z;
  pi_nread : Z;
  pi_nwrite : Z;
  pi_readopen : bool;
  pi_writeopen : bool;
}.

#[export] Instance upd_pi_data : Field pi_data := fun g r =>
  mkPipe (g (pi_data r)) (pi_nread r) (pi_nwrite r) (pi_readopen r) (pi_writeopen r).
#[export] Instance upd_pi_nread : Field pi_nread := fun g r =>
  mkPipe (pi_data r) (g (pi_nread r)) (pi_nwrite r) (pi_readopen r) (pi_writeopen r).
#[export] Instance upd_pi_nwrite : Field pi_nwrite := fun g r =>
  mkPipe (pi_data r) (pi_nread r) (g (pi_nwrite r)) (pi_readopen r) (pi_writeopen r).
#[export] Instance upd_pi_readopen : Field pi_readopen := fun g r =>
  mkPipe (pi_data r) (pi_nread r) (pi_nwrite r) (g (pi_readopen r)) (pi_writeopen r).
#[export] Instance upd_pi_writeopen : Field pi_writeopen := fun g r =>
  mkPipe (pi_data r) (pi_nread r) (pi_nwrite r) (pi_readopen r) (g (pi_writeopen r)).
(** the console input buffer of console.c *)
Record consst : Type := mkCons {
  cons_buf : list Z;
  cons_r : Z;
  cons_w : Z;
  cons_e : Z;
}.

#[export] Instance upd_cons_buf : Field cons_buf := fun g r =>
  mkCons (g (cons_buf r)) (cons_r r) (cons_w r) (cons_e r).
#[export] Instance upd_cons_r : Field cons_r := fun g r =>
  mkCons (cons_buf r) (g (cons_r r)) (cons_w r) (cons_e r).
#[export] Instance upd_cons_w : Field cons_w := fun g r =>
  mkCons (cons_buf r) (cons_r r) (g (cons_w r)) (cons_e r).
#[export] Instance upd_cons_e : Field cons_e := fun g r =>
  mkCons (cons_buf r) (cons_r r) (cons_w r) (g (cons_e r)).
(** The transmit buffer of uart.c, and the device behind it. *)
Record uartst : Type := mkUart {
  ut_buf : list Z;  (** uart_tx_buf *)
  ut_w : Z;  (** uart_tx_w *)
  ut_r : Z;  (** uart_tx_r *)
  ut_idle : list bool;  (** what the next reads of LSR report for TX_IDLE; idle after that *)
  ut_rx : list Z;  (** input bytes waiting in the receive register *)
}.

#[export] Instance upd_ut_buf : Field ut_buf := fun g r =>
  mkUart (g (ut_buf r)) (ut_w r) (ut_r r) (ut_idle r) (ut_rx r).
#[export] Instance upd_ut_w : Field ut_w := fun g r =>
  mkUart (ut_buf r) (g (ut_w r)) (ut_r r) (ut_idle r) (ut_rx r).
#[export] Instance upd_ut_r : Field ut_r := fun g r =>
  mkUart (ut_buf r) (ut_w r) (g (ut_r r)) (ut_idle r) (ut_rx r).
#[export] Instance upd_ut_idle : Field ut_idle := fun g r =>
  mkUart (ut_buf r) (ut_w r) (ut_r r) (g (ut_idle r)) (ut_rx r).
#[export] Instance upd_ut_rx : Field ut_rx := fun g r =>
  mkUart (ut_buf r) (ut_w r) (ut_r r) (ut_idle r) (g (ut_rx r)).
(** Control and status registers of this hart. *)
Record csrs : Type := mkCsrs {
  c_sstatus : Z;  (** apart from SIE, which is [k_sie] *)
  c_sepc : Z;
  c_scause : Z;
  c_stval : Z;
  c_stvec : Z;
  c_satp : Z;
  c_sip : Z;
  c_tp : Z;  (** the hart id *)
  c_plic : list Z;  (** interrupts the PLIC will report, next first *)
}.

#[export] Instance upd_c_sstatus : Field c_sstatus := fun g r =>
  mkCsrs (g (c_sstatus r)) (c_sepc r) (c_scause r) (c_stval r) (c_stvec r) (c_satp r) (c_sip r) (c_tp r) (c_plic r).
#[export] Instance upd_c_sepc : Field c_sepc := fun g r =>
  mkCsrs (c_sstatus r) (g (c_sepc r)) (c_scause r) (c_stval r) (c_stvec r) (c_satp r) (c_sip r) (c_tp r) (c_plic r).
#[export] Instance upd_c_scause : Field c_scause := fun g r =>
  mkCsrs (c_sstatus r) (c_sepc r) (g (c_scause r)) (c_stval r) (c_stvec r) (c_satp r) (c_sip r) (c_tp r) (c_plic r).
#[export] Instance upd_c_stval : Field c_stval := fun g r =>
  mkCsrs (c_sstatus r) (c_sepc r) (c_scause r) (g (c_stval r)) (c_stvec r) (c_satp r) (c_sip r) (c_tp r) (c_plic r).
#[export] Instance upd_c_stvec : Field c_stvec := fun g r =>
  mkCsrs (c_sstatus r) (c_sepc r) (c_scause r) (c_stval r) (g (c_stvec r)) (c_satp r) (c_sip r) (c_tp r) (c_plic r).
#[export] Instance upd_c_satp : Field c_satp := fun g r =>
  mkCsrs (c_sstatus r) (c_sepc r) (c_scause r) (c_stval r) (c_stvec r) (g (c_satp r)) (c_sip r) (c_tp r) (c_plic r).
#[export] Instance upd_c_sip : Field c_sip := fun g r =>
  mkCsrs (c_sstatus r) (c_sepc r) (c_scause r) (c_stval r) (c_stvec r) (c_satp r) (g (c_sip r)) (c_tp r) (c_plic r).
#[export] Instance upd_c_tp : Field c_tp := fun g r =>
  mkCsrs (c_sstatus r) (c_sepc r) (c_scause r) (c_stval r) (c_stvec r) (c_satp r) (c_sip r) (g (c_tp r)) (c_plic r).
#[export] Instance upd_c_plic : Field c_plic := fun g r =>
  mkCsrs (c_sstatus r) (c_sepc r) (c_scause r) (c_stval r) (c_stvec r) (c_satp r) (c_sip r) (c_tp r) (g (c_plic r)).
(** Addresses the linker assigns. *)
Record symbols : Type := mkSymbols {
  sy_etext : Z;
  sy_trampoline : Z;
  sy_uservec : Z;
  sy_userret : Z;
  sy_kernelvec : Z;
  sy_usertrap : Z;
  sy_forkret : Z;
}.

#[export] Instance upd_sy_etext : Field sy_etext := fun g r =>
  mkSymbols (g (sy_etext r)) (sy_trampoline r) (sy_uservec r) (sy_userret r) (sy_kernelvec r) (sy_usertrap r) (sy_forkret r).
#[export] Instance upd_sy_trampoline : Field sy_trampoline := fun g r =>
  mkSymbols (sy_etext r) (g (sy_trampoline r)) (sy_uservec r) (sy_userret r) (sy_kernelvec r) (sy_usertrap r) (sy_forkret r).
#[export] Instance upd_sy_uservec : Field sy_uservec := fun g r =>
  mkSymbols (sy_etext r) (sy_trampoline r) (g (sy_uservec r)) (sy_userret r) (sy_kernelvec r) (sy_usertrap r) (sy_forkret r).
#[export] Instance upd_sy_userret : Field sy_userret := fun g r =>
  mkSymbols (sy_etext r) (sy_trampoline r) (sy_uservec r) (g (sy_userret r)) (sy_kernelvec r) (sy_usertrap r) (sy_forkret r).
#[export] Instance upd_sy_kernelvec : Field sy_kernelvec := fun g r =>
  mkSymbols (sy_etext r) (sy_trampoline r) (sy_uservec r) (sy_userret r) (g (sy_kernelvec r)) (sy_usertrap r) (sy_forkret r).
#[export] Instance upd_sy_usertrap : Field sy_usertrap := fun g r =>
  mkSymbols (sy_etext r) (sy_trampoline r) (sy_uservec r) (sy_userret r) (sy_kernelvec r) (g (sy_usertrap r)) (sy_forkret r).
#[export] Instance upd_sy_forkret : Field sy_forkret := fun g r =>
  mkSymbols (sy_etext r) (sy_trampoline r) (sy_uservec r) (sy_userret r) (sy_kernelvec r) (sy_usertrap r) (g (sy_forkret r)).
(** ** The globals *)

(** The pointers virtio_disk.c puts into descriptors. *)
Inductive vaddr : Type :=
| VNull
| VOps (i : nat)      (** &disk.ops[i] *)
| VData (b : nat)     (** b->data *)
| VStatus (i : nat).  (** &disk.info[i].status *)

(** struct virtq_desc *)
Record virtq_desc : Type := mkDesc {
  d_addr : vaddr;
  d_len : Z;
  d_flags : Z;
  d_next : Z;
}.

#[export] Instance upd_d_addr : Field d_addr := fun g r =>
  mkDesc (g (d_addr r)) (d_len r) (d_flags r) (d_next r).
#[export] Instance upd_d_len : Field d_len := fun g r =>
  mkDesc (d_addr r) (g (d_len r)) (d_flags r) (d_next r).
#[export] Instance upd_d_flags : Field d_flags := fun g r =>
  mkDesc (d_addr r) (d_len r) (g (d_flags r)) (d_next r).
#[export] Instance upd_d_next : Field d_next := fun g r =>
  mkDesc (d_addr r) (d_len r) (d_flags r) (g (d_next r)).
(** struct virtio_blk_req *)
Record virtio_blk_req : Type := mkReq {
  rq_type : Z;
  rq_reserved : Z;
  rq_sector : Z;
}.

#[export] Instance upd_rq_type : Field rq_type := fun g r =>
  mkReq (g (rq_type r)) (rq_reserved r) (rq_sector r).
#[export] Instance upd_rq_reserved : Field rq_reserved := fun g r =>
  mkReq (rq_type r) (g (rq_reserved r)) (rq_sector r).
#[export] Instance upd_rq_sector : Field rq_sector := fun g r =>
  mkReq (rq_type r) (rq_reserved r) (g (rq_sector r)).
(** an entry of disk.info *)
Record vinfo : Type := mkInfo {
  in_b : option nat;
  in_status : Z;
}.

#[export] Instance upd_in_b : Field in_b := fun g r =>
  mkInfo (g (in_b r)) (in_status r).
#[export] Instance upd_in_status : Field in_status := fun g r =>
  mkInfo (in_b r) (g (in_status r)).
(** struct disk of virtio_disk.c, with the two rings and the device behind them *)
Record vdisk : Type := mkVdisk {
  vd_desc : list virtq_desc;  (** the descriptors *)
  vd_avail_idx : Z;  (** avail->idx *)
  vd_avail : list Z;  (** avail->ring *)
  vd_dev_idx : Z;  (** used->idx, which the device increments *)
  vd_used : list Z;  (** the ids in used->ring *)
  vd_free : list bool;  (** free *)
  vd_used_idx : Z;  (** used_idx *)
  vd_info : list vinfo;  (** info *)
  vd_ops : list virtio_blk_req;  (** ops *)
  vd_last : Z;  (** the device: avail entries it has read *)
  vd_taken : list nat;  (** the device: chains it works on *)
  vd_regs : list (Z * Z);  (** writes to the device registers *)
}.

#[export] Instance upd_vd_desc : Field vd_desc := fun g r =>
  mkVdisk (g (vd_desc r)) (vd_avail_idx r) (vd_avail r) (vd_dev_idx r) (vd_used r) (vd_free r) (vd_used_idx r) (vd_info r) (vd_ops r) (vd_last r) (vd_taken r) (vd_regs r).
#[export] Instance upd_vd_avail_idx : Field vd_avail_idx := fun g r =>
  mkVdisk (vd_desc r) (g (vd_avail_idx r)) (vd_avail r) (vd_dev_idx r) (vd_used r) (vd_free r) (vd_used_idx r) (vd_info r) (vd_ops r) (vd_last r) (vd_taken r) (vd_regs r).
#[export] Instance upd_vd_avail : Field vd_avail := fun g r =>
  mkVdisk (vd_desc r) (vd_avail_idx r) (g (vd_avail r)) (vd_dev_idx r) (vd_used r) (vd_free r) (vd_used_idx r) (vd_info r) (vd_ops r) (vd_last r) (vd_taken r) (vd_regs r).
#[export] Instance upd_vd_dev_idx : Field vd_dev_idx := fun g r =>
  mkVdisk (vd_desc r) (vd_avail_idx r) (vd_avail r) (g (vd_dev_idx r)) (vd_used r) (vd_free r) (vd_used_idx r) (vd_info r) (vd_ops r) (vd_last r) (vd_taken r) (vd_regs r).
#[export] Instance upd_vd_used : Field vd_used := fun g r =>
  mkVdisk (vd_desc r) (vd_avail_idx r) (vd_avail r) (vd_dev_idx r) (g (vd_used r)) (vd_free r) (vd_used_idx r) (vd_info r) (vd_ops r) (vd_last r) (vd_taken r) (vd_regs r).
#[export] Instance upd_vd_free : Field vd_free := fun g r =>
  mkVdisk (vd_desc r) (vd_avail_idx r) (vd_avail r) (vd_dev_idx r) (vd_used r) (g (vd_free r)) (vd_used_idx r) (vd_info r) (vd_ops r) (vd_last r) (vd_taken r) (vd_regs r).
#[export] Instance upd_vd_used_idx : Field vd_used_idx := fun g r =>
  mkVdisk (vd_desc r) (vd_avail_idx r) (vd_avail r) (vd_dev_idx r) (vd_used r) (vd_free r) (g (vd_used_idx r)) (vd_info r) (vd_ops r) (vd_last r) (vd_taken r) (vd_regs r).
#[export] Instance upd_vd_info : Field vd_info := fun g r =>
  mkVdisk (vd_desc r) (vd_avail_idx r) (vd_avail r) (vd_dev_idx r) (vd_used r) (vd_free r) (vd_used_idx r) (g (vd_info r)) (vd_ops r) (vd_last r) (vd_taken r) (vd_regs r).
#[export] Instance upd_vd_ops : Field vd_ops := fun g r =>
  mkVdisk (vd_desc r) (vd_avail_idx r) (vd_avail r) (vd_dev_idx r) (vd_used r) (vd_free r) (vd_used_idx r) (vd_info r) (g (vd_ops r)) (vd_last r) (vd_taken r) (vd_regs r).
#[export] Instance upd_vd_last : Field vd_last := fun g r =>
  mkVdisk (vd_desc r) (vd_avail_idx r) (vd_avail r) (vd_dev_idx r) (vd_used r) (vd_free r) (vd_used_idx r) (vd_info r) (vd_ops r) (g (vd_last r)) (vd_taken r) (vd_regs r).
#[export] Instance upd_vd_taken : Field vd_taken := fun g r =>
  mkVdisk (vd_desc r) (vd_avail_idx r) (vd_avail r) (vd_dev_idx r) (vd_used r) (vd_free r) (vd_used_idx r) (vd_info r) (vd_ops r) (vd_last r) (g (vd_taken r)) (vd_regs r).
#[export] Instance upd_vd_regs : Field vd_regs := fun g r =>
  mkVdisk (vd_desc r) (vd_avail_idx r) (vd_avail r) (vd_dev_idx r) (vd_used r) (vd_free r) (vd_used_idx r) (vd_info r) (vd_ops r) (vd_last r) (vd_taken r) (g (vd_regs r)).
Definition block : Type := list Z.

(** The kernel's global state. *)
Record kernel : Type := mkKernel {
  k_held : list lockid;  (** spinlocks this hart holds *)
  k_sie : bool;  (** interrupts enabled when no spinlock is held *)
  k_cur : option nat;  (** mycpu()->proc *)
  k_mem : mem;  (** memory, by kernel address *)
  k_end : Z;  (** linker symbol end *)
  k_syms : symbols;  (** other linker symbols *)
  k_freelist : Z;  (** kmem.freelist *)
  k_kpgtbl : Z;  (** vm.c: kernel_pagetable *)
  k_procs : list proc;  (** proc[NPROC] *)
  k_nextpid : Z;
  k_initproc : option nat;
  k_first : bool;  (** forkret(): first *)
  k_ticks : Z;
  k_disk : Z -> block;  (** contents of the disk *)
  k_writes : list (Z * block);  (** block writes issued, oldest first *)
  k_bufs : list buf;  (** bcache.buf, then bcache.head *)
  k_sb : superblock;  (** fs.c: sb *)
  k_log : logst;  (** log.c: log *)
  k_inodes : list inode;  (** itable.inode *)
  k_files : list file;  (** ftable.file *)
  k_pipes : gmap Z pipe;  (** pipes by page address *)
  k_cons : consst;  (** console.c: cons *)
  k_out : list Z;  (** bytes sent to the UART, oldest first *)
  k_uart : uartst;  (** uart.c *)
  k_locking : bool;  (** printf.c: pr.locking *)
  k_csr : csrs;
  k_vdisk : vdisk;  (** virtio_disk.c: disk *)
}.

#[export] Instance upd_k_held : Field k_held := fun g r =>
  mkKernel (g (k_held r)) (k_sie r) (k_cur r) (k_mem r) (k_end r) (k_syms r) (k_freelist r) (k_kpgtbl r) (k_procs r) (k_nextpid r) (k_initproc r) (k_first r) (k_ticks r) (k_disk r) (k_writes r) (k_bufs r) (k_sb r) (k_log r) (k_inodes r) (k_files r) (k_pipes r) (k_cons r) (k_out r) (k_uart r) (k_locking r) (k_csr r) (k_vdisk r).
#[export] Instance upd_k_sie : Field k_sie := fun g r =>
  mkKernel (k_held r) (g (k_sie r)) (k_cur r) (k_mem r) (k_end r) (k_syms r) (k_freelist r) (k_kpgtbl r) (k_procs r) (k_nextpid r) (k_initproc r) (k_first r) (k_ticks r) (k_disk r) (k_writes r) (k_bufs r) (k_sb r) (k_log r) (k_inodes r) (k_files r) (k_pipes r) (k_cons r) (k_out r) (k_uart r) (k_locking r) (k_csr r) (k_vdisk r).
#[export] Instance upd_k_cur : Field k_cur := fun g r =>
  mkKernel (k_held r) (k_sie r) (g (k_cur r)) (k_mem r) (k_end r) (k_syms r) (k_freelist r) (k_kpgtbl r) (k_procs r) (k_nextpid r) (k_initproc r) (k_first r) (k_ticks r) (k_disk r) (k_writes r) (k_bufs r) (k_sb r) (k_log r) (k_inodes r) (k_files r) (k_pipes r) (k_cons r) (k_out r) (k_uart r) (k_locking r) (k_csr r) (k_vdisk r).
#[export] Instance upd_k_mem : Field k_mem := fun g r =>
  mkKernel (k_held r) (k_sie r) (k_cur r) (g (k_mem r)) (k_end r) (k_syms r) (k_freelist r) (k_kpgtbl r) (k_procs r) (k_nextpid r) (k_initproc r) (k_first r) (k_ticks r) (k_disk r) (k_writes r) (k_bufs r) (k_sb r) (k_log r) (k_inodes r) (k_files r) (k_pipes r) (k_cons r) (k_out r) (k_uart r) (k_locking r) (k_csr r) (k_vdisk r).
#[export] Instance upd_k_end : Field k_end := fun g r =>
  mkKernel (k_held r) (k_sie r) (k_cur r) (k_mem r) (g (k_end r)) (k_syms r) (k_freelist r) (k_kpgtbl r) (k_procs r) (k_nextpid r) (k_initproc r) (k_first r) (k_ticks r) (k_disk r) (k_writes r) (k_bufs r) (k_sb r) (k_log r) (k_inodes r) (k_files r) (k_pipes r) (k_cons r) (k_out r) (k_uart r) (k_locking r) (k_csr r) (k_vdisk r).
#[export] Instance upd_k_syms : Field k_syms := fun g r =>
  mkKernel (k_held r) (k_sie r) (k_cur r) (k_mem r) (k_end r) (g (k_syms r)) (k_freelist r) (k_kpgtbl r) (k_procs r) (k_nextpid r) (k_initproc r) (k_first r) (k_ticks r) (k_disk r) (k_writes r) (k_bufs r) (k_sb r) (k_log r) (k_inodes r) (k_files r) (k_pipes r) (k_cons r) (k_out r) (k_uart r) (k_locking r) (k_csr r) (k_vdisk r).
#[export] Instance upd_k_freelist : Field k_freelist := fun g r =>
  mkKernel (k_held r) (k_sie r) (k_cur r) (k_mem r) (k_end r) (k_syms r) (g (k_freelist r)) (k_kpgtbl r) (k_procs r) (k_nextpid r) (k_initproc r) (k_first r) (k_ticks r) (k_disk r) (k_writes r) (k_bufs r) (k_sb r) (k_log r) (k_inodes r) (k_files r) (k_pipes r) (k_cons r) (k_out r) (k_uart r) (k_locking r) (k_csr r) (k_vdisk r).
#[export] Instance upd_k_kpgtbl : Field k_kpgtbl := fun g r =>
  mkKernel (k_held r) (k_sie r) (k_cur r) (k_mem r) (k_end r) (k_syms r) (k_freelist r) (g (k_kpgtbl r)) (k_procs r) (k_nextpid r) (k_initproc r) (k_first r) (k_ticks r) (k_disk r) (k_writes r) (k_bufs r) (k_sb r) (k_log r) (k_inodes r) (k_files r) (k_pipes r) (k_cons r) (k_out r) (k_uart r) (k_locking r) (k_csr r) (k_vdisk r).
#[export] Instance upd_k_procs : Field k_procs := fun g r =>
  mkKernel (k_held r) (k_sie r) (k_cur r) (k_mem r) (k_end r) (k_syms r) (k_freelist r) (k_kpgtbl r) (g (k_procs r)) (k_nextpid r) (k_initproc r) (k_first r) (k_ticks r) (k_disk r) (k_writes r) (k_bufs r) (k_sb r) (k_log r) (k_inodes r) (k_files r) (k_pipes r) (k_cons r) (k_out r) (k_uart r) (k_locking r) (k_csr r) (k_vdisk r).
#[export] Instance upd_k_nextpid : Field k_nextpid := fun g r =>
  mkKernel (k_held r) (k_sie r) (k_cur r) (k_mem r) (k_end r) (k_syms r) (k_freelist r) (k_kpgtbl r) (k_procs r) (g (k_nextpid r)) (k_initproc r) (k_first r) (k_ticks r) (k_disk r) (k_writes r) (k_bufs r) (k_sb r) (k_log r) (k_inodes r) (k_files r) (k_pipes r) (k_cons r) (k_out r) (k_uart r) (k_locking r) (k_csr r) (k_vdisk r).
#[export] Instance upd_k_initproc : Field k_initproc := fun g r =>
  mkKernel (k_held r) (k_sie r) (k_cur r) (k_mem r) (k_end r) (k_syms r) (k_freelist r) (k_kpgtbl r) (k_procs r) (k_nextpid r) (g (k_initproc r)) (k_first r) (k_ticks r) (k_disk r) (k_writes r) (k_bufs r) (k_sb r) (k_log r) (k_inodes r) (k_files r) (k_pipes r) (k_cons r) (k_out r) (k_uart r) (k_locking r) (k_csr r) (k_vdisk r).
#[export] Instance upd_k_first : Field k_first := fun g r =>
  mkKernel (k_held r) (k_sie r) (k_cur r) (k_mem r) (k_end r) (k_syms r) (k_freelist r) (k_kpgtbl r) (k_procs r) (k_nextpid r) (k_initproc r) (g (k_first r)) (k_ticks r) (k_disk r) (k_writes r) (k_bufs r) (k_sb r) (k_log r) (k_inodes r) (k_files r) (k_pipes r) (k_cons r) (k_out r) (k_uart r) (k_locking r) (k_csr r) (k_vdisk r).
#[export] Instance upd_k_ticks : Field k_ticks := fun g r =>
  mkKernel (k_held r) (k_sie r) (k_cur r) (k_mem r) (k_end r) (k_syms r) (k_freelist r) (k_kpgtbl r) (k_procs r) (k_nextpid r) (k_initproc r) (k_first r) (g (k_ticks r)) (k_disk r) (k_writes r) (k_bufs r) (k_sb r) (k_log r) (k_inodes r) (k_files r) (k_pipes r) (k_cons r) (k_out r) (k_uart r) (k_locking r) (k_csr r) (k_vdisk r).
#[export] Instance upd_k_disk : Field k_disk := fun g r =>
  mkKernel (k_held r) (k_sie r) (k_cur r) (k_mem r) (k_end r) (k_syms r) (k_freelist r) (k_kpgtbl r) (k_procs r) (k_nextpid r) (k_initproc r) (k_first r) (k_ticks r) (g (k_disk r)) (k_writes r) (k_bufs r) (k_sb r) (k_log r) (k_inodes r) (k_files r) (k_pipes r) (k_cons r) (k_out r) (k_uart r) (k_locking r) (k_csr r) (k_vdisk r).
#[export] Instance upd_k_writes : Field k_writes := fun g r =>
  mkKernel (k_held r) (k_sie r) (k_cur r) (k_mem r) (k_end r) (k_syms r) (k_freelist r) (k_kpgtbl r) (k_procs r) (k_nextpid r) (k_initproc r) (k_first r) (k_ticks r) (k_disk r) (g (k_writes r)) (k_bufs r) (k_sb r) (k_log r) (k_inodes r) (k_files r) (k_pipes r) (k_cons r) (k_out r) (k_uart r) (k_locking r) (k_csr r) (k_vdisk r).
#[export] Instance upd_k_bufs : Field k_bufs := fun g r =>
  mkKernel (k_held r) (k_sie r) (k_cur r) (k_mem r) (k_end r) (k_syms r) (k_freelist r) (k_kpgtbl r) (k_procs r) (k_nextpid r) (k_initproc r) (k_first r) (k_ticks r) (k_disk r) (k_writes r) (g (k_bufs r)) (k_sb r) (k_log r) (k_inodes r) (k_files r) (k_pipes r) (k_cons r) (k_out r) (k_uart r) (k_locking r) (k_csr r) (k_vdisk r).
#[export] Instance upd_k_sb : Field k_sb := fun g r =>
  mkKernel (k_held r) (k_sie r) (k_cur r) (k_mem r) (k_end r) (k_syms r) (k_freelist r) (k_kpgtbl r) (k_procs r) (k_nextpid r) (k_initproc r) (k_first r) (k_ticks r) (k_disk r) (k_writes r) (k_bufs r) (g (k_sb r)) (k_log r) (k_inodes r) (k_files r) (k_pipes r) (k_cons r) (k_out r) (k_uart r) (k_locking r) (k_csr r) (k_vdisk r).
#[export] Instance upd_k_log : Field k_log := fun g r =>
  mkKernel (k_held r) (k_sie r) (k_cur r) (k_mem r) (k_end r) (k_syms r) (k_freelist r) (k_kpgtbl r) (k_procs r) (k_nextpid r) (k_initproc r) (k_first r) (k_ticks r) (k_disk r) (k_writes r) (k_bufs r) (k_sb r) (g (k_log r)) (k_inodes r) (k_files r) (k_pipes r) (k_cons r) (k_out r) (k_uart r) (k_locking r) (k_csr r) (k_vdisk r).
#[export] Instance upd_k_inodes : Field k_inodes := fun g r =>
  mkKernel (k_held r) (k_sie r) (k_cur r) (k_mem r) (k_end r) (k_syms r) (k_freelist r) (k_kpgtbl r) (k_procs r) (k_nextpid r) (k_initproc r) (k_first r) (k_ticks r) (k_disk r) (k_writes r) (k_bufs r) (k_sb r) (k_log r) (g (k_inodes r)) (k_files r) (k_pipes r) (k_cons r) (k_out r) (k_uart r) (k_locking r) (k_csr r) (k_vdisk r).
#[export] Instance upd_k_files : Field k_files := fun g r =>
  mkKernel (k_held r) (k_sie r) (k_cur r) (k_mem r) (k_end r) (k_syms r) (k_freelist r) (k_kpgtbl r) (k_procs r) (k_nextpid r) (k_initproc r) (k_first r) (k_ticks r) (k_disk r) (k_writes r) (k_bufs r) (k_sb r) (k_log r) (k_inodes r) (g (k_files r)) (k_pipes r) (k_cons r) (k_out r) (k_uart r) (k_locking r) (k_csr r) (k_vdisk r).
#[export] Instance upd_k_pipes : Field k_pipes := fun g r =>
  mkKernel (k_held r) (k_sie r) (k_cur r) (k_mem r) (k_end r) (k_syms r) (k_freelist r) (k_kpgtbl r) (k_procs r) (k_nextpid r) (k_initproc r) (k_first r) (k_ticks r) (k_disk r) (k_writes r) (k_bufs r) (k_sb r) (k_log r) (k_inodes r) (k_files r) (g (k_pipes r)) (k_cons r) (k_out r) (k_uart r) (k_locking r) (k_csr r) (k_vdisk r).
#[export] Instance upd_k_cons : Field k_cons := fun g r =>
  mkKernel (k_held r) (k_sie r) (k_cur r) (k_mem r) (k_end r) (k_syms r) (k_freelist r) (k_kpgtbl r) (k_procs r) (k_nextpid r) (k_initproc r) (k_first r) (k_ticks r) (k_disk r) (k_writes r) (k_bufs r) (k_sb r) (k_log r) (k_inodes r) (k_files r) (k_pipes r) (g (k_cons r)) (k_out r) (k_uart r) (k_locking r) (k_csr r) (k_vdisk r).
#[export] Instance upd_k_out : Field k_out := fun g r =>
  mkKernel (k_held r) (k_sie r) (k_cur r) (k_mem r) (k_end r) (k_syms r) (k_freelist r) (k_kpgtbl r) (k_procs r) (k_nextpid r) (k_initproc r) (k_first r) (k_ticks r) (k_disk r) (k_writes r) (k_bufs r) (k_sb r) (k_log r) (k_inodes r) (k_files r) (k_pipes r) (k_cons r) (g (k_out r)) (k_uart r) (k_locking r) (k_csr r) (k_vdisk r).
#[export] Instance upd_k_uart : Field k_uart := fun g r =>
  mkKernel (k_held r) (k_sie r) (k_cur r) (k_mem r) (k_end r) (k_syms r) (k_freelist r) (k_kpgtbl r) (k_procs r) (k_nextpid r) (k_initproc r) (k_first r) (k_ticks r) (k_disk r) (k_writes r) (k_bufs r) (k_sb r) (k_log r) (k_inodes r) (k_files r) (k_pipes r) (k_cons r) (k_out r) (g (k_uart r)) (k_locking r) (k_csr r) (k_vdisk r).
#[export] Instance upd_k_locking : Field k_locking := fun g r =>
  mkKernel (k_held r) (k_sie r) (k_cur r) (k_mem r) (k_end r) (k_syms r) (k_freelist r) (k_kpgtbl r) (k_procs r) (k_nextpid r) (k_initproc r) (k_first r) (k_ticks r) (k_disk r) (k_writes r) (k_bufs r) (k_sb r) (k_log r) (k_inodes r) (k_files r) (k_pipes r) (k_cons r) (k_out r) (k_uart r) (g (k_locking r)) (k_csr r) (k_vdisk r).
#[export] Instance upd_k_csr : Field k_csr := fun g r =>
  mkKernel (k_held r) (k_sie r) (k_cur r) (k_mem r) (k_end r) (k_syms r) (k_freelist r) (k_kpgtbl r) (k_procs r) (k_nextpid r) (k_initproc r) (k_first r) (k_ticks r) (k_disk r) (k_writes r) (k_bufs r) (k_sb r) (k_log r) (k_inodes r) (k_files r) (k_pipes r) (k_cons r) (k_out r) (k_uart r) (k_locking r) (g (k_csr r)) (k_vdisk r).
#[export] Instance upd_k_vdisk : Field k_vdisk := fun g r =>
  mkKernel (k_held r) (k_sie r) (k_cur r) (k_mem r) (k_end r) (k_syms r) (k_freelist r) (k_kpgtbl r) (k_procs r) (k_nextpid r) (k_initproc r) (k_first r) (k_ticks r) (k_disk r) (k_writes r) (k_bufs r) (k_sb r) (k_log r) (k_inodes r) (k_files r) (k_pipes r) (k_cons r) (k_out r) (k_uart r) (k_locking r) (k_csr r) (g (k_vdisk r)).

(** ** Power on

    The statically initialised globals, as the boot loader leaves them: zero
    except for the initialisers in the source ([nextpid] and forkret()'s
    [first] are 1). *)

Definition zero_lock : sleeplock := mkSleeplock false 0.
Definition zero_proc : proc :=
  mkProc UNUSED None 0 0 0 None 0 0 0 0 (mkContext 0 0 (replicate 12 0))
    (replicate NOFILE None) None (replicate 16 0).
Definition zero_buf : buf := mkBuf false false 0 0 zero_lock 0 O O (replicate 1024 0).
Definition zero_inode : inode := mkInode 0 0 0 zero_lock false 0 0 0 0 0 (replicate 13 0).
Definition zero_file : file := mkFile FD_NONE 0 false false 0 None 0 0.

Definition zero_vdisk : vdisk :=
  mkVdisk (replicate 8 (mkDesc VNull 0 0 0)) 0 (replicate 8 0) 0 (replicate 8 0) (replicate 8 false) 0
    (replicate 8 (mkInfo None 0)) (replicate 8 (mkReq 0 0 0)) 0 [] [].

Definition power_on (end_ : Z) (sy : symbols) (disk : Z -> block) : kernel :=
  mkKernel [] false None (fun _ => 0) end_ sy 0 0 (replicate NPROC zero_proc) 1 None true 0
    disk [] (replicate (S NBUF) zero_buf) (mkSuperblock 0 0 0 0 0 0 0 0)
    (mkLog 0 0 0 false 0 0 (replicate 30 0)) (replicate NINODE zero_inode)
    (replicate NFILE zero_file) ∅ (mkCons (replicate 128 0) 0 0 0) []
    (mkUart (replicate 32 0) 0 0 [] []) false (mkCsrs 0 0 0 0 0 0 0 0 [])
    zero_vdisk.

(** A machine with 16 pages of memory above the kernel and a blank disk,
    running one process: the concrete state examples start from. *)
Definition one_proc : kernel :=
  (power_on (PHYSTOP - 16 * PGSIZE) (mkSymbols 0 0 0 0 0 0 0) (fun _ => replicate 1024 0))
    <| k_procs ::= <[0%nat := zero_proc <| p_state := RUNNING |> <| p_pid := 1 |>]> |>
    <| k_cur := Some 0%nat |>.

(** ** Worlds and kernel code *)

Record world : Type := mkWorld {
  w_k : kernel;
  w_env : list (kernel -> kernel);
}.

Abbreviation K := (M world).

Definition gets {A} (f : kernel -> A) : K A := fun w => Ok (f (w_k w)) w.
Definition modify (f : kernel -> kernel) : K unit :=
  fun w => Ok tt (mkWorld (f (w_k w)) (w_env w)).

(** Table accesses; an index outside the table is undefined behaviour. *)
Definition index {A} (l : list A) (i : nat) : K A :=
  match l !! i with Some x => ret x | None => fault end.

Definition get_proc (i : nat) : K proc := let* l := gets k_procs in index l i.
Definition mod_proc (i : nat) (f : proc -> proc) : K unit :=
  get_proc i ;; modify (fun s => s <| k_procs ::= alter f i |>).
Definition get_buf (i : nat) : K buf := let* l := gets k_bufs in index l i.
Definition mod_buf (i : nat) (f : buf -> buf) : K unit :=
  get_buf i ;; modify (fun s => s <| k_bufs ::= alter f i |>).
Definition get_inode (i : nat) : K inode := let* l := gets k_inodes in index l i.
Definition mod_inode (i : nat) (f : inode -> inode) : K unit :=
  get_inode i ;; modify (fun s => s <| k_inodes ::= alter f i |>).
Definition get_file (i : nat) : K file := let* l := gets k_files in index l i.
Definition mod_file (i : nat) (f : file -> file) : K unit :=
  get_file i ;; modify (fun s => s <| k_files ::= alter f i |>).
Definition get_pipe (pi : Z) : K pipe :=
  let* m := gets k_pipes in match m !! pi with Some p => ret p | None => fault end.
Definition mod_pipe (pi : Z) (f : pipe -> pipe) : K unit :=
  get_pipe pi ;; modify (fun s => s <| k_pipes ::= alter f pi |>).
Definition mod_log (f : logst -> logst) : K unit :=
  modify (fun s => s <| k_log ::= f |>).
Definition mod_mem (f : mem -> mem) : K unit :=
  modify (fun s => s <| k_mem ::= f |>).

(** ** Spinlocks as the rest of the kernel uses them

    The set of locks this hart holds is what spinlock.c tracks through
    [lk->locked], [lk->cpu] and [noff]; Spinlock.v proves that the concrete
    routines refine these three operations. *)

Definition holding (lk : lockid) : K bool :=
  gets (fun s => bool_decide (lk ∈ k_held s)).

Definition acquire (lk : lockid) : K unit :=
  let* h := holding lk in
  if h then panic "acquire" else modify (fun s => s <| k_held ::= cons lk |>).

Definition release (lk : lockid) : K unit :=
  let* h := holding lk in
  if negb h then panic "release"
  else modify (fun s => s <| k_held ::= filter (fun l => l <> lk) |>).

(** Interrupts are off while a spinlock is held ([push_off]); otherwise they
    are as [intr_on] and [intr_off] left them. *)
Definition intr_get : K bool := gets (fun s => bool_decide (k_held s = []) && k_sie s).
Definition intr_on : K unit := modify (fun s => s <| k_sie := true |>).
Definition intr_off : K unit := modify (fun s => s <| k_sie := false |>).

(** ** Running kernel code *)

Lemma ok_inj {A} (a a' : A) s s' e e' :
  Ok a (mkWorld s e) = Ok a' (mkWorld s' e') -> a = a' /\ s = s'.
Proof. by intros [= -> -> _]. Qed.

Definition kmod (f : kernel -> kernel) (w : world) : world :=
  mkWorld (f (w_k w)) (w_env w).

Lemma acquire_ok lk w :
  lk ∉ k_held (w_k w) -> acquire lk w = Ok tt (kmod (fun s => s <| k_held ::= cons lk |>) w).
Proof. intros. unfold acquire, holding, bind, gets. by rewrite bool_decide_false. Qed.

Lemma acquire_panic lk w : lk ∈ k_held (w_k w) -> acquire lk w = Panic "acquire" w.
Proof. intros. unfold acquire, holding, bind, gets. by rewrite bool_decide_true. Qed.

Lemma release_ok lk w :
  lk ∈ k_held (w_k w) ->
  release lk w = Ok tt (kmod (fun s => s <| k_held ::= filter (fun l => l <> lk) |>) w).
Proof. intros. unfold release, holding, bind, gets. by rewrite bool_decide_true. Qed.

Lemma release_panic lk w : lk ∉ k_held (w_k w) -> release lk w = Panic "release" w.
Proof. intros. unfold release, holding, bind, gets. by rewrite bool_decide_false. Qed.

Lemma release_acquired lk s e h :
  lk ∉ h -> k_held s = lk :: h ->
  release lk (mkWorld s e) = Ok tt (mkWorld (s <| k_held := h |>) e).
Proof.
  intros Hn Hh. rewrite release_ok by (simpl; rewrite Hh; set_solver).
  unfold kmod; simpl. do 2 f_equal. destruct s; simpl in *. subst.
  unfold upd, upd_k_held; simpl. rewrite filter_cons_False by naive_solver.
  by rewrite filter_ne_notin.
Qed.

Lemma index_ok {A} (l : list A) i x w : l !! i = Some x -> index l i w = Ok x w.
Proof. intros H. unfold index. by rewrite H. Qed.

Lemma kernel_eta_held s : s <| k_held := k_held s |> = s.
Proof. by destruct s. Qed.

(** Equality of two kernel states written as field updates of a third. *)
Ltac kstate :=
  unfold kmod; cbn [w_k w_env];
  repeat match goal with w : world |- _ => destruct w end;
  repeat match goal with s : kernel |- _ => destruct s end;
  cbv [upd upd_k_held upd_k_sie upd_k_cur upd_k_mem upd_k_end upd_k_syms upd_k_freelist upd_k_kpgtbl upd_k_procs upd_k_nextpid upd_k_initproc upd_k_first upd_k_ticks upd_k_disk upd_k_writes upd_k_bufs upd_k_sb upd_k_log upd_k_inodes upd_k_files upd_k_pipes upd_k_cons upd_k_out upd_k_uart upd_k_locking upd_k_csr upd_k_vdisk
    k_held k_sie k_cur k_mem k_end k_syms k_freelist k_kpgtbl k_procs k_nextpid k_initproc k_first k_ticks k_disk k_writes k_bufs k_sb k_log k_inodes k_files k_pipes k_cons k_out k_uart k_locking k_csr k_vdisk] in *;
  subst;
  try match goal with |- mkWorld _ _ = mkWorld _ _ => f_equal end;
  try match goal with |- @eq kernel _ _ => f_equal end.

Lemma filter_lock_cons (lk : lockid) h :
  lk ∉ h -> filter (fun l => l <> lk) (lk :: h) = h.
Proof. intros. rewrite filter_cons_False by naive_solver. by apply filter_ne_notin. Qed.

(** A run whose end is only known by evaluation. *)
Lemma run_final (m : K unit) s e :
  is_ok (m (mkWorld s e)) = true -> w_env (final (m (mkWorld s e))) = e ->
  m (mkWorld s e) = Ok tt (mkWorld (w_k (final (m (mkWorld s e)))) e).
Proof. destruct (m (mkWorld s e)) as [[] [s' e']| | | |]; [|done..]. cbn. by intros _ ->. Qed.

Lemma bind_gets {A B} (f : kernel -> A) (k : A -> K B) s e :
  bind (gets f) k (mkWorld s e) = k (f s) (mkWorld s e).
Proof. done. Qed.

Lemma bind_modify {B} f (k : unit -> K B) s e :
  bind (modify f) k (mkWorld s e) = k tt (mkWorld (f s) e).
Proof. done. Qed.

Create HintDb krun.
#[export] Hint Resolve acquire_ok release_ok index_ok : krun.

Ltac held_side := cbn -[filter elem_of]; try (match goal with H : k_held _ = _ |- _ => rewrite H end);
  rewrite ?list_elem_of_filter; set_solver.

Ltac kstep1 :=
  match goal with
  | |- bind (bind _ _) _ _ = _ => apply run_assoc
  | |- bind (gets _) _ _ = _ => eapply run_bind; [reflexivity|]; cbn [w_k w_env]
  | |- bind (modify _) _ _ = _ => eapply run_bind; [reflexivity|]; cbn [w_k w_env]
  | |- bind (ret _) _ _ = _ => eapply run_bind; [reflexivity|]
  | |- bind (acquire _) _ _ = _ => eapply run_bind; [apply acquire_ok; held_side|]
  | |- bind (release _) _ _ = _ => eapply run_bind; [apply release_ok; held_side|]
  | |- bind (if ?b then _ else _) _ _ = _ => progress cbn
  end.
Ltac kstep := kstep1; cbn beta.
