(* ===== verification/Spinlock.v ===== *)
(** kernel/spinlock.c: spinlocks on several harts.

    [smp] holds what the code reads and writes: each hart's interrupt-enable
    bit and its [struct cpu] fields [noff] and [intena], and each lock's
    [locked] word and [cpu] pointer.  [push_off] to [release] are the C
    functions run by one hart; a hart that finds the lock taken spins, which
    here is the outcome [Blocked].  [step] cuts [acquire] and [release] at the
    atomic instructions, so that harts interleave between the test-and-set,
    the assignment of [lk->cpu] and the store that unlocks. *)

From S2P Require Import Prelude Layout Kernel.

Record spinlock : Type := mkSpinlock {
  locked : bool;
  cpu : option nat;
}.

Record hart : Type := mkHart {
  intr : bool;     (** sstatus.SIE *)
  noff : Z;
  intena : bool;
}.

Record smp : Type := mkSmp {
  harts : nat -> hart;
  locks : lockid -> spinlock;
}.

Definition set_hart (h : nat) (c : hart) (s : smp) : smp :=
  mkSmp (fun x => if decide (x = h) then c else harts s x) (locks s).
Definition set_lock (lk : lockid) (l : spinlock) (s : smp) : smp :=
  mkSmp (harts s) (fun x => if decide (x = lk) then l else locks s x).

Definition smp_get {A} (f : smp -> A) : M smp A := fun s => Ok (f s) s.
Definition smp_mod (f : smp -> smp) : M smp unit := fun s => Ok tt (f s).

Definition initlock (lk : lockid) : M smp unit :=
  smp_mod (set_lock lk (mkSpinlock false None)).

Definition push_off (h : nat) : M smp unit :=
  let* c := smp_get (fun s => harts s h) in
  let old := intr c in
  let ena := if noff c =? 0 then old else intena c in
  smp_mod (set_hart h (mkHart false (noff c + 1) ena)).

Definition pop_off (h : nat) : M smp unit :=
  let* c := smp_get (fun s => harts s h) in
  if intr c then panic "pop_off - interruptible"
  else if noff c <? 1 then panic "pop_off"
  else
    let n := noff c - 1 in
    let i := (n =? 0) && intena c in
    smp_mod (set_hart h (mkHart i n (intena c))).

Definition holding_cpu (h : nat) (lk : lockid) : M smp bool :=
  smp_get (fun s => locked (locks s lk) && bool_decide (cpu (locks s lk) = Some h)).

(** One [amoswap]: returns the old value of [lk->locked] and sets it. *)
Definition test_and_set (lk : lockid) : M smp bool :=
  let* l := smp_get (fun s => locks s lk) in
  smp_mod (set_lock lk (mkSpinlock true (cpu l))) ;;
  ret (locked l).

Definition acquire_cpu (h : nat) (lk : lockid) : M smp unit :=
  push_off h ;;
  let* r := holding_cpu h lk in
  if r then panic "acquire"
  else
    let* old := test_and_set lk in
    if old then fun s => Blocked s
    else smp_mod (set_lock lk (mkSpinlock true (Some h))).

Definition release_cpu (h : nat) (lk : lockid) : M smp unit :=
  let* r := holding_cpu h lk in
  if negb r then panic "release"
  else
    let* l := smp_get (fun s => locks s lk) in
    smp_mod (set_lock lk (mkSpinlock (locked l) None)) ;;
    smp_mod (set_lock lk (mkSpinlock false None)) ;;
    pop_off h.

(** ** Interleaved execution

    Where a hart is inside [acquire] or [release]. *)
Inductive pc : Type :=
| Idle
| Spinning (lk : lockid)   (** in the test-and-set loop *)
| Locked (lk : lockid)     (** test-and-set succeeded, lk->cpu not yet set *)
| Unlocking (lk : lockid). (** lk->cpu cleared, lk->locked still 1 *)

Record config : Type := mkConfig {
  cfg_smp : smp;
  cfg_pc : nat -> pc;
}.

Definition set_pc (h : nat) (p : pc) (f : nat -> pc) : nat -> pc :=
  fun x => if decide (x = h) then p else f x.

Inductive step : config -> config -> Prop :=
| step_acquire h lk c s' :
    cfg_pc c h = Idle ->
    push_off h (cfg_smp c) = Ok tt s' ->
    holding_cpu h lk s' = Ok false s' ->
    step c (mkConfig s' (set_pc h (Spinning lk) (cfg_pc c)))
| step_spin h lk c s' :
    cfg_pc c h = Spinning lk ->
    test_and_set lk (cfg_smp c) = Ok true s' ->
    step c (mkConfig s' (cfg_pc c))
| step_locked h lk c s' :
    cfg_pc c h = Spinning lk ->
    test_and_set lk (cfg_smp c) = Ok false s' ->
    step c (mkConfig s' (set_pc h (Locked lk) (cfg_pc c)))
| step_setcpu h lk c s' :
    cfg_pc c h = Locked lk ->
    s' = set_lock lk (mkSpinlock (locked (locks (cfg_smp c) lk)) (Some h)) (cfg_smp c) ->
    step c (mkConfig s' (set_pc h Idle (cfg_pc c)))
| step_release h lk c s' :
    cfg_pc c h = Idle ->
    holding_cpu h lk (cfg_smp c) = Ok true (cfg_smp c) ->
    s' = set_lock lk (mkSpinlock (locked (locks (cfg_smp c) lk)) None) (cfg_smp c) ->
    step c (mkConfig s' (set_pc h (Unlocking lk) (cfg_pc c)))
| step_unlock h lk c s' :
    cfg_pc c h = Unlocking lk ->
    pop_off h (set_lock lk (mkSpinlock false (cpu (locks (cfg_smp c) lk))) (cfg_smp c)) = Ok tt s' ->
    step c (mkConfig s' (set_pc h Idle (cfg_pc c)))
| step_intr h b c :
    (** intr_on() and intr_off() by code that holds no spinlock *)
    cfg_pc c h = Idle ->
    noff (harts (cfg_smp c) h) = 0 ->
    step c (mkConfig (set_hart h (mkHart b 0 (intena (harts (cfg_smp c) h))) (cfg_smp c)) (cfg_pc c)).

(** All harts outside the lock code, all locks as [initlock] leaves them. *)
Definition initial (c : config) : Prop :=
  (forall h, cfg_pc c h = Idle) /\
  (forall lk, locks (cfg_smp c) lk = mkSpinlock false None) /\
  (forall h, noff (harts (cfg_smp c) h) = 0).

Definition reachable (c : config) : Prop :=
  exists c0, initial c0 /\ rtc step c0 c.

(** Hart [h] owns [lk]: it is in the critical section the lock protects, or
    at one of its two edges. *)
Definition owns (c : config) (h : nat) (lk : lockid) : Prop :=
  cfg_pc c h = Locked lk \/ cfg_pc c h = Unlocking lk \/
  cpu (locks (cfg_smp c) lk) = Some h.

(** What holds of hart [h]: [held] are the locks whose [cpu] field names it,
    [noff] counts them (plus one inside [acquire] or [release]), and
    interrupts are off while it is positive. *)
Definition hart_inv (c : config) (h : nat) (held : list lockid) : Prop :=
  NoDup held /\
  (forall lk, lk ∈ held <-> cpu (locks (cfg_smp c) lk) = Some h) /\
  noff (harts (cfg_smp c) h) =
    Z.of_nat (length held) + (match cfg_pc c h with Idle => 0 | _ => 1 end) /\
  (0 < noff (harts (cfg_smp c) h) -> intr (harts (cfg_smp c) h) = false).

(** A lock word is 1 exactly when one hart owns the lock, and then only one. *)
Definition owner_inv (c : config) (lk : lockid) : Prop :=
  if locked (locks (cfg_smp c) lk)
  then exists h, forall h', owns c h' lk <-> h' = h
  else forall h', ~ owns c h' lk.

Record lock_inv (c : config) : Prop := {
  inv_owner lk : owner_inv c lk;
  inv_pc h lk : cpu (locks (cfg_smp c) lk) = Some h ->
    cfg_pc c h <> Locked lk /\ cfg_pc c h <> Unlocking lk;
  inv_hart h : exists held, hart_inv c h held;
}.

Lemma lock_inv_initial c : initial c -> lock_inv c.
Proof.
  intros (Hpc & Hlk & Hn). split.
  - intros lk. unfold owner_inv, owns. rewrite Hlk. simpl. intros h'. rewrite Hpc. naive_solver.
  - intros h lk H. by rewrite Hlk in H.
  - intros h. exists []. split_and!; [by apply NoDup_nil| |by rewrite Hpc, Hn|rewrite Hn; lia].
    intros lk. rewrite Hlk. set_solver.
Qed.

(** A step that leaves the lock word and everybody's ownership alone. *)
Lemma owner_inv_same c c' lk :
  locked (locks (cfg_smp c') lk) = locked (locks (cfg_smp c) lk) ->
  (forall h, owns c' h lk <-> owns c h lk) ->
  owner_inv c lk -> owner_inv c' lk.
Proof.
  intros E O. unfold owner_inv. rewrite E. destruct (locked (locks (cfg_smp c) lk)).
  - intros [h H]. exists h. intros h'. by rewrite O.
  - intros H h'. by rewrite O.
Qed.

Ltac run_smp := unfold push_off, pop_off, holding_cpu, test_and_set, bind, smp_get, smp_mod,
  ret, panic in *; simpl in *; simplify_eq/=; repeat case_match; simplify_eq/=.

Ltac solve_owns := unfold owns, set_pc in *; simpl in *;
  repeat case_decide; simplify_eq/=; intuition congruence.

Lemma owner_inv_step c c' lk :
  lock_inv c -> step c c' -> owner_inv c' lk.
Proof.
  intros [I Ip _] Hs. pose proof (I lk) as Ilk.
  destruct Hs as [h lk0 c s' Hpc Hp Hh|h lk0 c s' Hpc Ht|h lk0 c s' Hpc Ht|h lk0 c s' Hpc ->
    |h lk0 c s' Hpc Hh ->|h lk0 c s' Hpc Hp|h b c Hpc Hn].
  - apply owner_inv_same with c; [run_smp; done| |done]. intros h'. run_smp; solve_owns.
  - injection Ht as Ht <-. apply owner_inv_same with c; [| |done]; [|intros h']; solve_owns.
  - injection Ht as Ht <-. destruct (decide (lk = lk0)) as [->|].
    + unfold owner_inv in *. simpl. rewrite Ht in Ilk. rewrite decide_True by done. simpl.
      exists h. intros h'. specialize (Ilk h'). solve_owns.
    + apply owner_inv_same with c; [| |done]; [|intros h']; solve_owns.
  - apply owner_inv_same with c; [solve_owns| |done].
    intros h'. assert (owns c h lk0) as O by (left; done).
    specialize (I lk0). unfold owner_inv in I. destruct (locked (locks (cfg_smp c) lk0)) eqn:E;
      [|naive_solver]. destruct I as [h0 I]. pose proof (proj1 (I h) O) as <-. pose proof (I h') as Ih.
    solve_owns.
  - injection Hh as Hh. apply andb_true_iff in Hh as [E E2]. apply bool_decide_eq_true in E2.
    apply owner_inv_same with c; [| |done]; [|intros h']; solve_owns.
  - run_smp. destruct (decide (lk = lk0)) as [->|].
    + unfold owner_inv in *. simpl. rewrite decide_True by done. simpl.
      assert (owns c h lk0) as O by (right; left; done).
      destruct (locked (locks (cfg_smp c) lk0)); [|naive_solver].
      destruct Ilk as [h0 I0]. pose proof (proj1 (I0 h) O) as <-. intros h'. specialize (I0 h').
      specialize (Ip h lk0). solve_owns.
    + apply owner_inv_same with c; [| |done]; [|intros h']; solve_owns.
  - apply owner_inv_same with c; done.
Qed.

Lemma pc_inv_step c c' h lk :
  lock_inv c -> step c c' -> cpu (locks (cfg_smp c') lk) = Some h ->
  cfg_pc c' h <> Locked lk /\ cfg_pc c' h <> Unlocking lk.
Proof.
  intros [I Ip _] Hs. specialize (Ip h lk). specialize (I lk). unfold owner_inv in I.
  destruct Hs as [h0 lk0 c s' Hpc Hp Hh|h0 lk0 c s' Hpc Ht|h0 lk0 c s' Hpc Ht|h0 lk0 c s' Hpc ->
    |h0 lk0 c s' Hpc Hh ->|h0 lk0 c s' Hpc Hp|h0 b c Hpc Hn].
  - run_smp; solve_owns.
  - run_smp; solve_owns.
  - injection Ht as Ht <-. destruct (decide (lk = lk0)) as [->|]; [|solve_owns].
    rewrite Ht in I. specialize (I h). solve_owns.
  - solve_owns.
  - solve_owns.
  - run_smp; solve_owns.
  - solve_owns.
Qed.

(** [hart_inv] of a hart depends only on its own fields and on which locks
    name it. *)
Lemma hart_inv_frame c c' h held :
  harts (cfg_smp c') h = harts (cfg_smp c) h -> cfg_pc c' h = cfg_pc c h ->
  (forall lk, cpu (locks (cfg_smp c') lk) = Some h <-> cpu (locks (cfg_smp c) lk) = Some h) ->
  hart_inv c h held -> hart_inv c' h held.
Proof.
  intros Eh Ep El (Hd & Hin & Hn & Hi). unfold hart_inv. rewrite Eh, Ep.
  split_and!; auto. intros lk. by rewrite El.
Qed.

Lemma hart_inv_step c c' h :
  lock_inv c -> step c c' -> exists held, hart_inv c' h held.
Proof.
  intros [I Ip Ih] Hs. destruct (Ih h) as [held Hh0].
  destruct Hs as [h0 lk0 c s' Hpc Hp Hh|h0 lk0 c s' Hpc Ht|h0 lk0 c s' Hpc Ht|h0 lk0 c s' Hpc ->
    |h0 lk0 c s' Hpc Hh ->|h0 lk0 c s' Hpc Hp|h0 b c Hpc Hn].
  - exists held. destruct (decide (h = h0)) as [->|].
    + injection Hp as <-. destruct Hh0 as (Hd & Hin & Hn & Hi). rewrite Hpc in Hn.
      unfold hart_inv, set_pc; simpl. rewrite !decide_True by done. simpl.
      split_and!; auto; lia.
    + injection Hp as <-. eapply hart_inv_frame; [| | |exact Hh0]; solve_owns.
  - exists held. injection Ht as Ht <-. eapply hart_inv_frame; [| | |exact Hh0]; try done.
    intros; solve_owns.
  - exists held. injection Ht as Ht <-. destruct (decide (h = h0)) as [->|].
    + destruct Hh0 as (Hd & Hin & Hn & Hi). rewrite Hpc in Hn. unfold hart_inv, set_pc; simpl.
      rewrite !decide_True by done. split_and!; auto. intros lk. rewrite Hin. solve_owns.
    + eapply hart_inv_frame; [| | |exact Hh0]; try done; intros; solve_owns.
  - destruct (decide (h = h0)) as [->|].
    + exists (lk0 :: held). destruct Hh0 as (Hd & Hin & Hn & Hi). rewrite Hpc in Hn.
      unfold hart_inv, set_pc; simpl. rewrite !decide_True by done. split_and!; [|..|lia|done].
      * apply NoDup_cons. split; [|done]. rewrite Hin. specialize (Ip h0 lk0). naive_solver.
      * intros lk. rewrite elem_of_cons, Hin. solve_owns.
    + exists held. eapply hart_inv_frame; [| | |exact Hh0]; [solve_owns..|].
      intros lk. simpl. case_decide; [|done]. subst. simpl.
      specialize (I lk0). unfold owner_inv in I.
      assert (owns c h0 lk0) as O by (left; done).
      destruct (locked (locks (cfg_smp c) lk0)); [|naive_solver]. destruct I as [h1 I].
      pose proof (proj1 (I h0) O). split; [congruence|]. intros E.
      assert (owns c h lk0) as O2 by (right; right; done). apply I in O2. congruence.
  - injection Hh as Hh. apply andb_true_iff in Hh as [E E2]. apply bool_decide_eq_true in E2.
    destruct (decide (h = h0)) as [->|].
    + exists (filter (fun l => l <> lk0) held). destruct Hh0 as (Hd & Hin & Hn & Hi).
      rewrite Hpc in Hn. unfold hart_inv, set_pc; simpl. rewrite !decide_True by done.
      split_and!; [by apply NoDup_filter| | |done].
      * intros lk. rewrite list_elem_of_filter, Hin. solve_owns.
      * rewrite Hn, <- (length_filter_ne lk0 held); [lia|done|by apply Hin].
    + exists held. eapply hart_inv_frame; [| | |exact Hh0]; [solve_owns..|].
      intros lk. solve_owns.
  - unfold pop_off, bind, smp_get in Hp. simpl in Hp.
    destruct (intr (harts (cfg_smp c) h0)); [done|].
    destruct (Z.ltb_spec (noff (harts (cfg_smp c) h0)) 1); [done|]. injection Hp as <-.
    exists held. destruct (decide (h = h0)) as [->|].
    + destruct Hh0 as (Hd & Hin & Hn & Hi). rewrite Hpc in Hn. unfold hart_inv, set_pc; simpl.
      rewrite !decide_True by done. simpl. split_and!; auto; [|lia|].
      * intros lk. rewrite Hin. solve_owns.
      * intros. destruct (Z.eqb_spec (noff (harts (cfg_smp c) h0) - 1) 0); [lia|done].
    + eapply hart_inv_frame; [| | |exact Hh0]; [solve_owns..|]. intros lk. solve_owns.
  - exists held. destruct (decide (h = h0)) as [->|].
    + destruct Hh0 as (Hd & Hin & Hn' & Hi). unfold hart_inv; simpl.
      rewrite !decide_True by done. simpl. split_and!; auto; lia.
    + eapply hart_inv_frame; [| | |exact Hh0]; [solve_owns..|]. done.
Qed.

Lemma lock_inv_reachable c : reachable c -> lock_inv c.
Proof.
  intros (c0 & H0 & Hr). apply lock_inv_initial in H0. induction Hr as [|c0 c1 c2 Hs _ IH]; [done|].
  apply IH. split.
  - intros lk. eauto using owner_inv_step.
  - intros h lk. eauto using pc_inv_step.
  - intros h. eauto using hart_inv_step.
Qed.

(** A run of two harts: hart 0 takes [LkKmem] while hart 1 spins on it. *)
Definition run0 : config :=
  mkConfig (mkSmp (fun _ => mkHart true 0 false) (fun _ => mkSpinlock false None)) (fun _ => Idle).
Definition run1 : config :=
  mkConfig (final (push_off 0 (cfg_smp run0))) (set_pc 0 (Spinning LkKmem) (cfg_pc run0)).
Definition run2 : config :=
  mkConfig (final (push_off 1 (cfg_smp run1))) (set_pc 1 (Spinning LkKmem) (cfg_pc run1)).
Definition run3 : config :=
  mkConfig (final (test_and_set LkKmem (cfg_smp run2))) (set_pc 0 (Locked LkKmem) (cfg_pc run2)).
Definition run4 : config :=
  mkConfig (final (test_and_set LkKmem (cfg_smp run3))) (cfg_pc run3).

Lemma run4_reachable : reachable run4.
Proof.
  exists run0. split; [done|].
  apply rtc_l with run1; [apply (step_acquire 0 LkKmem run0); reflexivity|].
  apply rtc_l with run2; [apply (step_acquire 1 LkKmem run1); reflexivity|].
  apply rtc_l with run3; [apply (step_locked 0 LkKmem run2); reflexivity|].
  apply rtc_l with run4; [apply (step_spin 1 LkKmem run3); reflexivity|]. apply rtc_refl.
Qed.

(** C11: two harts never own the same spinlock at the same time, on any
    interleaving of the instructions of acquire() and release(). *)
Theorem mutual_exclusion c h1 h2 lk :
  reachable c -> owns c h1 lk -> owns c h2 lk -> h1 = h2.
Proof.
  intros [I _ _]%lock_inv_reachable O1 O2. specialize (I lk). unfold owner_inv in I.
  destruct (locked (locks (cfg_smp c) lk)); [|naive_solver].
  destruct I as [h I]. apply I in O1, O2. congruence.
Qed.

(** An instance of [mutual_exclusion]. *)
Lemma mutual_exclusion_witness : reachable run4 /\ owns run4 0 LkKmem /\ ~ owns run4 1 LkKmem.
Proof.
  split; [apply run4_reachable|]. split; [left; reflexivity|]. intros O.
  discriminate (mutual_exclusion run4 0 1 LkKmem run4_reachable (or_introl eq_refl) O).
Defined.

(** A hart that owns a spinlock runs with interrupts off, and its [noff]
    is at least 1. *)
Theorem interrupts_off c h lk :
  reachable c -> owns c h lk ->
  intr (harts (cfg_smp c) h) = false /\ 1 <= noff (harts (cfg_smp c) h).
Proof.
  intros [_ _ I]%lock_inv_reachable O. destruct (I h) as (held & Hd & Hin & Hn & Hi).
  assert (1 <= noff (harts (cfg_smp c) h)); [|split; [apply Hi; lia|done]].
  destruct O as [O|[O|O]]; rewrite ?O in Hn; [lia..|].
  apply Hin in O. destruct held; [set_solver|]. simpl in Hn. destruct (cfg_pc c h); lia.
Qed.

(** An instance of [interrupts_off]. *)
Lemma interrupts_off_witness :
  owns run4 0 LkKmem /\ intr (harts (cfg_smp run4) 0) = false /\ 1 <= noff (harts (cfg_smp run4) 0).
Proof.
  split; [left; reflexivity|].
  apply (interrupts_off run4 0 LkKmem run4_reachable). left; reflexivity.
Defined.

(** ** Refinement: the held-lock set the rest of the kernel uses *)

(** Hart [h] of [s] holds exactly [held], with consistent counters. *)
Definition holds (s : smp) (h : nat) (held : list lockid) : Prop :=
  hart_inv (mkConfig s (fun _ => Idle)) h held /\
  (forall lk, cpu (locks s lk) = Some h -> locked (locks s lk) = true).

Lemma holding_cpu_spec s h held lk :
  holds s h held -> holding_cpu h lk s = Ok (bool_decide (lk ∈ held)) s.
Proof.
  intros [(Hd & Hin & _) Hl]. unfold holding_cpu, smp_get. f_equal.
  specialize (Hin lk). simpl in Hin. specialize (Hl lk).
  repeat case_bool_decide; [rewrite Hl by tauto; done|tauto|tauto|by rewrite andb_false_r].
Qed.

Lemma push_off_intr_off s h s' : push_off h s = Ok tt s' -> intr (harts s' h) = false.
Proof. intros [= <-]. simpl. by rewrite decide_True. Qed.

Lemma acquire_holds s h held lk :
  holds s h held -> lk ∉ held -> locked (locks s lk) = false ->
  exists s', acquire_cpu h lk s = Ok tt s' /\ holds s' h (lk :: held).
Proof.
  intros [(Hd & Hin & Hn & Hi) Hl] Hlk Hf. simpl in *.
  unfold acquire_cpu, push_off, holding_cpu, test_and_set, bind, smp_get, smp_mod; simpl.
  rewrite Hf. simpl.
  rewrite Hf. eexists. split; [done|]. split.
  - unfold hart_inv; simpl. rewrite decide_True by done. simpl. split_and!; [by apply NoDup_cons| |lia|done].
    intros lk'. rewrite elem_of_cons, Hin. repeat case_decide; subst; simpl; naive_solver.
  - simpl. intros lk'. repeat case_decide; subst; simpl; auto.
Qed.

Lemma release_holds s h held lk :
  holds s h held -> lk ∈ held ->
  exists s', release_cpu h lk s = Ok tt s' /\ holds s' h (filter (fun l => l <> lk) held).
Proof.
  intros H Hlk. unfold release_cpu. erewrite bind_ok by (by eapply holding_cpu_spec).
  rewrite bool_decide_true by done. destruct H as [(Hd & Hin & Hn & Hi) Hl]. simpl in *.
  pose proof (length_filter_ne lk held Hd Hlk) as Hlen.
  unfold pop_off, bind, smp_get, smp_mod; simpl. rewrite Hi by lia.
  destruct (Z.ltb_spec (noff (harts s h)) 1); [lia|]. eexists. split; [done|]. split.
  - unfold hart_inv; simpl. rewrite decide_True by done. simpl.
    split_and!; [by apply NoDup_filter| |lia|].
    + intros lk'. rewrite list_elem_of_filter, Hin. repeat case_decide; subst; simpl; naive_solver.
    + intros. destruct (Z.eqb_spec (noff (harts s h) - 1) 0); [lia|done].
  - simpl. intros lk'. repeat case_decide; subst; simpl; auto. done.
Qed.

(** C12: acquire() and release() refine the held-lock set of [Kernel]: they
    panic exactly when it does, they spin only on a lock another hart has
    taken, and otherwise both end in related states. *)
Theorem acquire_refines s h w lk :
  holds s h (k_held (w_k w)) ->
  match acquire_cpu h lk s with
  | Ok _ s' => exists w', acquire lk w = Ok tt w' /\ holds s' h (k_held (w_k w'))
  | Panic msg _ => acquire lk w = Panic msg w
  | Blocked _ => locked (locks s lk) = true /\ lk ∉ k_held (w_k w)
  | _ => False
  end /\
  match release_cpu h lk s with
  | Ok _ s' => exists w', release lk w = Ok tt w' /\ holds s' h (k_held (w_k w'))
  | Panic msg _ => release lk w = Panic msg w
  | _ => False
  end.
Proof.
  intros H. destruct (decide (lk ∈ k_held (w_k w))) as [Hin|Hin]; split.
  - rewrite acquire_panic by done. destruct H as [(_ & Hc & _) Hl]. apply Hc in Hin. simpl in Hin.
    unfold acquire_cpu, push_off, holding_cpu, bind, smp_get, smp_mod; simpl.
    rewrite Hl, bool_decide_true by done. done.
  - destruct (release_holds _ _ _ _ H Hin) as (s' & -> & Hs'). rewrite release_ok by done.
    eexists. split; [reflexivity|exact Hs'].
  - destruct (locked (locks s lk)) eqn:E.
    + destruct H as [(_ & Hc & _) Hl]. simpl in Hc.
      unfold acquire_cpu, push_off, holding_cpu, test_and_set, bind, smp_get, smp_mod; simpl.
      rewrite E, bool_decide_false by (rewrite <- Hc; done). simpl. by rewrite E.
    + destruct (acquire_holds _ _ _ _ H Hin E) as (s' & -> & Hs'). rewrite acquire_ok by done.
      eexists. split; [reflexivity|exact Hs'].
  - unfold release_cpu. erewrite bind_ok by (by eapply holding_cpu_spec).
    by rewrite bool_decide_false, release_panic.
Qed.

(** An instance of [acquire_refines]. *)
Lemma acquire_refines_witness :
  let w := mkWorld one_proc [] in
  holds (cfg_smp run0) 0 [] /\
  exists s' w', acquire_cpu 0 LkKmem (cfg_smp run0) = Ok tt s' /\ acquire LkKmem w = Ok tt w' /\
    holds s' 0 (k_held (w_k w')).
Proof.
  intros w. assert (holds (cfg_smp run0) 0 []) as H.
  { split; [|done]. split; [apply NoDup_nil_2|]. split_and!; [|reflexivity|done].
    intros lk. split; [set_solver|done]. }
  split; [exact H|]. destruct (acquire_refines (cfg_smp run0) 0 w LkKmem H) as [(w' & E & H') _].
  eexists _, w'. split; [reflexivity|]. split; [exact E|exact H'].
Defined.
