(* ===== verification/Sched.v ===== *)
(** kernel/proc.c, part 1: the current process, sleep and wakeup, the switch
    between a process and the scheduler, kill.

    The locks of proc.c are [LkProc i], [LkPid] and [LkWait].  Giving up the
    CPU is [sched]: after its four checks the scheduler drops the process
    ([sched_return]), the rest of the system runs (the next element of the
    schedule), and the scheduler picks the process up again ([sched_dispatch])
    if it is RUNNABLE by then. *)

From S2P Require Import Prelude Layout Kernel.

(** A null [struct proc *] is dereferenced only by [curproc]. *)
Definition myproc : K (option nat) := gets k_cur.
Definition curproc : K nat :=
  let* p := myproc in match p with Some i => ret i | None => fault end.

(** scheduler(), between its choice of a process and swtch(). *)
Definition sched_dispatch (i : nat) : K unit :=
  acquire (LkProc i) ;;
  let* p := get_proc i in
  if decide (p_state p = RUNNABLE) then
    mod_proc i (fun p => p <| p_state := RUNNING |>) ;;
    modify (fun s => s <| k_cur := Some i |>)
  else fun w => Blocked w.

(** scheduler(), after swtch() has come back. *)
Definition sched_return (i : nat) : K unit :=
  modify (fun s => s <| k_cur := None |>) ;;
  release (LkProc i).

(** The rest of the system runs.  It leaves this hart's lock set alone. *)
Definition others_run : K unit := fun w =>
  match w_env w with
  | [] => Blocked w
  | f :: env => Ok tt (mkWorld ((f (w_k w)) <| k_held := k_held (w_k w) |>) env)
  end.

Definition swtch (i : nat) : K unit :=
  sched_return i ;; others_run ;; sched_dispatch i.

(** The checks of sched(), and the current process. *)
Definition sched_check : K nat :=
  let* i := curproc in
  let* h := holding (LkProc i) in
  if negb h then panic "sched p->lock"
  else
    let* held := gets k_held in
    if negb (length held =? 1)%nat then panic "sched locks"
    else
      let* p := get_proc i in
      if decide (p_state p = RUNNING) then panic "sched running"
      else
        let* on := intr_get in
        if on then panic "sched interruptible" else ret i.

Definition sched : K unit :=
  let* i := sched_check in
  let* intena := gets k_sie in
  swtch i ;;
  modify (fun s => s <| k_sie := intena |>).

(** sched() called by a ZOMBIE: the context saved here is never switched to
    again, so the call does not return. *)
Definition sched_zombie {A} : K A :=
  let* i := sched_check in
  sched_return i ;;
  fun w => Blocked w.

Definition yield : K unit :=
  let* i := curproc in
  acquire (LkProc i) ;;
  mod_proc i (fun p => p <| p_state := RUNNABLE |>) ;;
  sched ;;
  release (LkProc i).

Definition sleep (ch : chan) (lk : lockid) : K unit :=
  let* i := curproc in
  acquire (LkProc i) ;;
  release lk ;;
  mod_proc i (fun p => p <| p_chan := Some ch |> <| p_state := SLEEPING |>) ;;
  sched ;;
  mod_proc i (fun p => p <| p_chan := None |>) ;;
  release (LkProc i) ;;
  acquire lk.

Definition wakeup_one (ch : chan) (i : nat) : K unit :=
  let* me := myproc in
  if decide (Some i = me) then ret tt
  else
    acquire (LkProc i) ;;
    let* p := get_proc i in
    (when bool_decide (p_state p = SLEEPING) && bool_decide (p_chan p = Some ch) do
      mod_proc i (fun p => p <| p_state := RUNNABLE |>)) ;;
    release (LkProc i).

Definition wakeup (ch : chan) : K unit := for_loop NPROC 0 (wakeup_one ch).

Definition kill_one (pid : Z) (i : nat) : K (option Z) :=
  acquire (LkProc i) ;;
  let* p := get_proc i in
  if p_pid p =? pid then
    mod_proc i (fun p => p <| p_killed := 1 |>) ;;
    (when bool_decide (p_state p = SLEEPING) do
      mod_proc i (fun p => p <| p_state := RUNNABLE |>)) ;;
    release (LkProc i) ;;
    ret (Some 0)
  else
    release (LkProc i) ;;
    ret None.

Definition kill (pid : Z) : K Z :=
  let* r := for_ret NPROC 0 (kill_one pid) in
  ret (match r with Some x => x | None => -1 end).

Definition setkilled (i : nat) : K unit :=
  acquire (LkProc i) ;;
  mod_proc i (fun p => p <| p_killed := 1 |>) ;;
  release (LkProc i).

Definition killed (i : nat) : K Z :=
  acquire (LkProc i) ;;
  let* p := get_proc i in
  release (LkProc i) ;;
  ret (p_killed p).

(** One round of the scheduler's loop over the process table.  [run i] is the
    execution of process [i] from the moment it is switched to until it
    switches back, still holding its lock. *)
Definition scheduler_one (run : nat -> kernel -> kernel) (i : nat) : K unit :=
  acquire (LkProc i) ;;
  let* p := get_proc i in
  (if decide (p_state p = RUNNABLE) then
     mod_proc i (fun p => p <| p_state := RUNNING |>) ;;
     modify (fun s => s <| k_cur := Some i |>) ;;
     modify (run i) ;;
     modify (fun s => s <| k_cur := None |>)
   else ret tt) ;;
  release (LkProc i).

Definition scheduler_round (run : nat -> kernel -> kernel) : K unit :=
  intr_on ;; for_loop NPROC 0 (scheduler_one run).

(** The first [n] rounds of the scheduler, which never returns. *)
Fixpoint scheduler_rounds (n : nat) (run : nat -> kernel -> kernel) : K unit :=
  match n with
  | O => ret tt
  | S n' => scheduler_round run ;; scheduler_rounds n' run
  end.

Definition scheduler (n : nat) (run : nat -> kernel -> kernel) : K unit :=
  modify (fun s => s <| k_cur := None |>) ;; scheduler_rounds n run.

(** ** Properties *)

(** What [wakeup(ch)] does to one sleeping process. *)
Definition wake (ch : chan) (p : proc) : proc :=
  if bool_decide (p_state p = SLEEPING) && bool_decide (p_chan p = Some ch)
  then p <| p_state := RUNNABLE |> else p.

Lemma get_proc_ok i p w : k_procs (w_k w) !! i = Some p -> get_proc i w = Ok p w.
Proof. intros H. unfold get_proc, bind, gets. by apply index_ok. Qed.

Lemma mod_proc_ok i f p w :
  k_procs (w_k w) !! i = Some p ->
  mod_proc i f w = Ok tt (kmod (fun s => s <| k_procs ::= alter f i |>) w).
Proof. intros H. unfold mod_proc. erewrite bind_ok by (by apply get_proc_ok). done. Qed.

Lemma wakeup_one_ok ch i p w :
  k_cur (w_k w) <> Some i -> LkProc i ∉ k_held (w_k w) -> k_procs (w_k w) !! i = Some p ->
  wakeup_one ch i w = Ok tt (kmod (fun s => s <| k_procs ::= alter (wake ch) i |>) w).
Proof.
  destruct w as [s e]; simpl. intros Hc Hl Hp. unfold wakeup_one, myproc.
  unfold gets, bind at 1. simpl. rewrite decide_False by congruence.
  erewrite bind_ok by (by apply acquire_ok).
  erewrite bind_ok by (by apply get_proc_ok).
  unfold wake. destruct (bool_decide (p_state p = SLEEPING) && bool_decide (p_chan p = Some ch)) eqn:E.
  - erewrite bind_ok by (by eapply mod_proc_ok). erewrite release_ok by (simpl; set_solver).
    f_equal. kstate; [by apply filter_lock_cons|]. erewrite !list_alter_insert by done.
    by rewrite E.
  - rewrite bind_ret. rewrite release_ok by (simpl; set_solver).
    f_equal. kstate; [by apply filter_lock_cons|].
    rewrite list_alter_id'; [done|]. intros x Hx. simplify_eq. by rewrite E.
Qed.

Definition wake_upto (ch : chan) (cur : option nat) (j : nat) (l : list proc) : list proc :=
  imap (fun i p => if decide ((i < j)%nat /\ cur <> Some i) then wake ch p else p) l.

Arguments wake_upto : simpl never.

Lemma wake_upto_S ch cur j l :
  wake_upto ch cur (S j) l =
  if decide (cur = Some j) then wake_upto ch cur j l
  else alter (wake ch) j (wake_upto ch cur j l).
Proof.
  unfold wake_upto. case_decide as Hc.
  - apply imap_ext. intros i p Hi. apply decide_ext.
    destruct (decide (i = j)) as [->|]; [tauto|]. split; intros []; split; auto; lia.
  - apply list_eq. intros i. destruct (decide (i = j)) as [->|Hij].
    + rewrite list_lookup_alter_eq, !list_lookup_imap. destruct (l !! j); simpl; [|done].
      rewrite decide_True by (split; [lia|done]). rewrite decide_False by lia. done.
    + rewrite list_lookup_alter_ne, !list_lookup_imap by done. destruct (l !! i); simpl; [|done].
      f_equal. apply decide_ext. split; intros []; split; auto; lia.
Qed.

(** The state other code sees while process [i] sleeps on [ch]. *)
Definition asleep (i : nat) (ch : chan) (s : kernel) : kernel :=
  s <| k_procs ::= alter (fun p => p <| p_chan := Some ch |> <| p_state := SLEEPING |>) i |>
    <| k_cur := None |> <| k_held := [] |>.

(** The locks [wakeup] may take: no other process's lock is held. *)
Definition no_proc_locks (s : kernel) : Prop :=
  forall i, k_cur s <> Some i -> LkProc i ∉ k_held s.

Lemma wakeup_run ch w :
  length (k_procs (w_k w)) = NPROC -> no_proc_locks (w_k w) ->
  wakeup ch w =
  Ok tt (kmod (fun s => s <| k_procs ::= imap (fun i p =>
    if decide (k_cur s = Some i) then p else wake ch p) |>) w).
Proof.
  destruct w as [s e]; simpl. intros Hlen Hl. unfold wakeup.
  destruct (for_loop_inv (fun j w => w = mkWorld (s <| k_procs ::= wake_upto ch (k_cur s) j |>) e)
    NPROC 0 (wakeup_one ch) (mkWorld s e)) as (w' & -> & ->).
  - f_equal. destruct s; cbv [upd upd_k_procs]; simpl; f_equal.
    symmetry. apply list_eq. intros i. unfold wake_upto. rewrite list_lookup_imap.
    destruct (_ !! i); cbn [fmap option_fmap option_map]; [|done]. by rewrite decide_False by lia.
  - intros j w' Hj ->. eexists. split; [|reflexivity].
    destruct (decide (k_cur s = Some j)) as [Hc|Hc].
    + unfold wakeup_one, myproc, bind, gets. simpl. rewrite decide_True by done.
      unfold ret. do 2 f_equal. destruct s; cbv [upd upd_k_procs]; simpl in *. f_equal.
      rewrite wake_upto_S. by rewrite decide_True.
    + destruct (lookup_lt_is_Some_2 (wake_upto ch (k_cur s) j (k_procs s)) j) as [p Hp].
      { unfold wake_upto. rewrite length_imap. lia. }
      erewrite wakeup_one_ok by (simpl; eauto). do 2 f_equal. kstate.
      rewrite wake_upto_S. by rewrite decide_False.
  - f_equal. kstate. unfold wake_upto. apply imap_ext. intros i p Hi%lookup_lt_Some.
    symmetry. case_decide as Hc; [rewrite decide_False by tauto; done|].
    rewrite decide_True; [done|]. split; [lia|done].
Qed.

(** Wakeup(chan) makes RUNNABLE exactly the other processes that sleep on
    [chan], changes nothing else, and returns with the locks it started with. *)
Theorem wakeup_spec ch w :
  length (k_procs (w_k w)) = NPROC -> no_proc_locks (w_k w) ->
  wakeup ch w =
  Ok tt (kmod (fun s => s <| k_procs ::= imap (fun i p =>
    if decide (k_cur s = Some i) then p else wake ch p) |>) w).
Proof. apply wakeup_run. Qed.

(** An instance of [wakeup_spec]. *)
Lemma wakeup_spec_witness :
  exists s', wakeup ChTicks (mkWorld (asleep 3 ChTicks one_proc) []) = Ok tt (mkWorld s' []) /\
    (p_state <$> k_procs s' !! 3%nat) = Some RUNNABLE /\ (p_state <$> k_procs s' !! 0%nat) = Some RUNNING.
Proof.
  eexists. split; [apply (wakeup_spec ChTicks (mkWorld (asleep 3 ChTicks one_proc) []))|split; reflexivity].
  - reflexivity.
  - intros i _. apply not_elem_of_nil.
Defined.

(** ** kill *)

Definition do_kill (p : proc) : proc :=
  let q := p <| p_killed := 1 |> in
  if decide (p_state p = SLEEPING) then q <| p_state := RUNNABLE |> else q.

Lemma kill_one_ok pid i p w :
  LkProc i ∉ k_held (w_k w) -> k_procs (w_k w) !! i = Some p ->
  kill_one pid i w =
  if p_pid p =? pid
  then Ok (Some 0) (kmod (fun s => s <| k_procs ::= alter do_kill i |>) w)
  else Ok None w.
Proof.
  destruct w as [s e]; simpl. intros Hl Hp. unfold kill_one.
  erewrite bind_ok by (by apply acquire_ok).
  erewrite bind_ok by (by apply get_proc_ok).
  destruct (p_pid p =? pid).
  - erewrite bind_ok by (by eapply mod_proc_ok). unfold do_kill.
    destruct (bool_decide (p_state p = SLEEPING)) eqn:E.
    + apply bool_decide_eq_true in E.
      erewrite bind_ok by (eapply mod_proc_ok; simpl; rewrite list_lookup_alter_eq, Hp; reflexivity).
      erewrite bind_ok by (apply release_ok; simpl; set_solver).
      unfold ret. f_equal. kstate; [by apply filter_lock_cons|].
      rewrite list_alter_alter_eq. apply list_alter_ext; [|done]. simpl.
      intros x Hx. simplify_eq. by rewrite decide_True.
    + apply bool_decide_eq_false in E. rewrite bind_ret.
      erewrite bind_ok by (apply release_ok; simpl; set_solver).
      unfold ret. f_equal. kstate; [by apply filter_lock_cons|].
      apply list_alter_ext; [|done]. intros x Hx. simplify_eq. by rewrite decide_False.
  - erewrite bind_ok by (apply release_ok; simpl; set_solver).
    unfold ret. f_equal. kstate. by apply filter_lock_cons.
Qed.

(** Kill(pid) marks the first process with that pid killed, wakes it if it
    sleeps (whatever it sleeps on) and returns 0; if there is none it returns
    -1 and changes nothing. *)
Theorem kill_spec pid w :
  length (k_procs (w_k w)) = NPROC -> (forall i, LkProc i ∉ k_held (w_k w)) ->
  kill pid w =
  match list_find (fun p => p_pid p = pid) (k_procs (w_k w)) with
  | Some (i, _) => Ok 0 (kmod (fun s => s <| k_procs ::= alter do_kill i |>) w)
  | None => Ok (-1) w
  end.
Proof.
  intros Hlen Hl. unfold kill.
  assert (forall n i, (i + n)%nat = NPROC ->
    for_ret n i (kill_one pid) w =
    match list_find (fun p => p_pid p = pid) (drop i (k_procs (w_k w))) with
    | Some (j, _) => Ok (Some 0) (kmod (fun s => s <| k_procs ::= alter do_kill (i + j)%nat |>) w)
    | None => Ok None w
    end) as Loop.
  { induction n as [|n IH]; intros i Hi; simpl.
    - rewrite drop_ge by lia. done.
    - destruct (lookup_lt_is_Some_2 (k_procs (w_k w)) i) as [p Hp]; [lia|].
      erewrite drop_S by done. simpl.
      unfold bind. erewrite kill_one_ok by (eauto).
      destruct (Z.eqb_spec (p_pid p) pid) as [E|E].
      + rewrite decide_True by done. rewrite Nat.add_0_r. done.
      + rewrite decide_False by done. rewrite IH by lia.
        destruct (list_find _ (drop (S i) _)) as [[j q]|]; simpl; [|done].
        by rewrite Nat.add_succ_r. }
  unfold bind. rewrite (Loop NPROC 0%nat) by done. rewrite drop_0.
  destruct (list_find _ _) as [[j q]|]; done.
Qed.

(** An instance of [kill_spec]. *)
Lemma kill_spec_witness :
  exists s', kill 1 (mkWorld one_proc []) = Ok 0 (mkWorld s' []) /\
    (p_killed <$> k_procs s' !! 0%nat) = Some 1 /\ kill 2 (mkWorld one_proc []) = Ok (-1) (mkWorld one_proc []).
Proof.
  eexists. split_and!.
  - apply (kill_spec 1 (mkWorld one_proc [])); [reflexivity|]. intros i. apply not_elem_of_nil.
  - reflexivity.
  - apply (kill_spec 2 (mkWorld one_proc [])); [reflexivity|]. intros i. apply not_elem_of_nil.
Defined.

(** ** sleep *)

(** The state in which [sleep] returns, if the code that ran meanwhile left [s]. *)
Definition awake (i : nat) (lk : lockid) (sie : bool) (s : kernel) : kernel :=
  s <| k_procs ::= alter (fun p => p <| p_state := RUNNING |> <| p_chan := None |>) i |>
    <| k_cur := Some i |> <| k_sie := sie |> <| k_held := [lk] |>.

Lemma curproc_ok i w : k_cur (w_k w) = Some i -> curproc w = Ok i w.
Proof. intros H. unfold curproc, myproc, bind, gets. by rewrite H. Qed.

Lemma sched_check_ok i p w :
  k_cur (w_k w) = Some i -> k_held (w_k w) = [LkProc i] ->
  k_procs (w_k w) !! i = Some p -> p_state p <> RUNNING -> sched_check w = Ok i w.
Proof.
  destruct w as [s e]; simpl. intros Hc Hh Hp Hs. unfold sched_check, holding, intr_get.
  eapply run_bind; [by apply curproc_ok|]. kstep. rewrite Hh, bool_decide_true by set_solver.
  cbn [negb]. kstep. rewrite Hh. cbn [length Nat.eqb negb].
  eapply run_bind; [by apply get_proc_ok|]. rewrite decide_False by done.
  kstep. rewrite Hh. cbn [andb]. by rewrite bool_decide_false by done.
Qed.

Lemma sched_entry i p w :
  k_cur (w_k w) = Some i -> k_held (w_k w) = [LkProc i] ->
  k_procs (w_k w) !! i = Some p -> p_state p <> RUNNING ->
  sched w =
  bind (others_run ;; sched_dispatch i)
    (fun _ => modify (fun s => s <| k_sie := k_sie (w_k w) |>))
    (kmod (fun s => s <| k_cur := None |> <| k_held := [] |>) w).
Proof.
  intros Hc Hh Hp Hs. unfold sched. eapply run_bind; [by eapply sched_check_ok|].
  destruct w as [s e]; simpl in *. kstep. unfold swtch, sched_return. do 3 kstep.
  eapply run_bind; [apply (release_acquired _ _ _ []); [set_solver|simpl; done]|].
  done.
Qed.

Lemma sleep_sched_entry i ch lk p s e :
  k_cur s = Some i -> k_held s = [lk] -> lk <> LkProc i -> k_procs s !! i = Some p ->
  sleep ch lk (mkWorld s e) =
  bind (others_run ;; sched_dispatch i)
    (fun _ => modify (fun s' => s' <| k_sie := k_sie s |>) ;;
        mod_proc i (fun p => p <| p_chan := None |>) ;; release (LkProc i) ;; acquire lk)
    (mkWorld (asleep i ch s) e).
Proof.
  intros Hc Hh Hne Hp. unfold sleep. eapply run_bind; [by apply curproc_ok|].
  do 2 kstep. eapply run_bind; [eapply mod_proc_ok; simpl; done|].
  etrans; [eapply run_cong, (sched_entry i (p <| p_chan := Some ch |> <| p_state := SLEEPING |>))|].
  - done.
  - cbn -[filter]. rewrite Hh. rewrite filter_cons_True by done. rewrite filter_cons_False by naive_solver. done.
  - cbn. by rewrite list_lookup_alter_eq, Hp.
  - done.
  - rewrite bind_assoc. done.
Qed.

(** sleep(), up to what the others do. *)
Lemma sleep_run i ch lk p s f e :
  k_cur s = Some i -> k_held s = [lk] -> lk <> LkProc i -> k_procs s !! i = Some p ->
  let s1 := (f (asleep i ch s)) <| k_held := [] |> in
  sleep ch lk (mkWorld s (f :: e)) =
  match k_procs s1 !! i with
  | Some q =>
      if decide (p_state q = RUNNABLE)
      then Ok tt (mkWorld (awake i lk (k_sie s) s1) e)
      else Blocked (mkWorld (s1 <| k_held := [LkProc i] |>) e)
  | None => Fault (mkWorld (s1 <| k_held := [LkProc i] |>) e)
  end.
Proof.
  intros Hc Hh Hne Hp s1. erewrite sleep_sched_entry by done. kstep.
  eapply run_bind; [reflexivity|]. cbn [w_k w_env].
  change (k_held (asleep i ch s)) with (@nil lockid). subst s1.
  generalize (f (asleep i ch s)); intros s2. generalize (k_sie s); intros sie. clear - Hne.
  unfold sched_dispatch. do 2 kstep.
  cbn [k_procs upd upd_k_held]. destruct (k_procs s2 !! i) as [q|] eqn:Hq.
  - apply run_assoc. eapply run_bind; [apply get_proc_ok; exact Hq|]. case_decide as Hr.
    + kstep. eapply run_bind; [eapply mod_proc_ok; exact Hq|]. do 2 kstep.
      eapply run_bind; [eapply mod_proc_ok; cbn; by rewrite list_lookup_alter_eq, Hq|].
      kstep. rewrite acquire_ok by held_side. f_equal. unfold awake. kstate.
      * by rewrite filter_cons_False by naive_solver.
      * by rewrite list_alter_alter_eq.
    + unfold bind. f_equal.
  - unfold get_proc, index, bind, gets; cbn. rewrite Hq. done.
Qed.

(** A process that sleeps on [ch] holding only [lk] gives up [lk], is seen
    SLEEPING on [ch] by everybody else, and when the others have made it
    RUNNABLE it returns RUNNING, off the channel, holding [lk] again; if they
    have not, it stays asleep. *)
Theorem sleep_spec i ch lk p s f e :
  k_cur s = Some i -> k_held s = [lk] -> lk <> LkProc i -> k_procs s !! i = Some p ->
  let s1 := (f (asleep i ch s)) <| k_held := [] |> in
  sleep ch lk (mkWorld s (f :: e)) =
  match k_procs s1 !! i with
  | Some q =>
      if decide (p_state q = RUNNABLE)
      then Ok tt (mkWorld (awake i lk (k_sie s) s1) e)
      else Blocked (mkWorld (s1 <| k_held := [LkProc i] |>) e)
  | None => Fault (mkWorld (s1 <| k_held := [LkProc i] |>) e)
  end.
Proof. intros. by eapply sleep_run. Qed.

(** An instance of [sleep_spec]. *)
Lemma sleep_spec_witness :
  let s := one_proc <| k_held := [LkTicks] |> in
  let f := fun k => k <| k_procs ::= alter (wake ChTicks) 0%nat |> in
  exists s', sleep ChTicks LkTicks (mkWorld s [f]) = Ok tt (mkWorld s' []) /\
    k_held s' = [LkTicks] /\ (p_state <$> k_procs s' !! 0%nat) = Some RUNNING.
Proof.
  intros s f. exists (awake 0 LkTicks false ((f (asleep 0 ChTicks s)) <| k_held := [] |>)).
  split; [|split; reflexivity].
  pose proof (fun p => sleep_spec 0 ChTicks LkTicks p s f [] eq_refl eq_refl) as H.
  rewrite (H (zero_proc <| p_state := RUNNING |> <| p_pid := 1 |>)); [|discriminate|reflexivity].
  vm_compute. reflexivity.
Defined.
