(* ===== verification/Printf.v ===== *)
(** kernel/printf.c and the polled output half of kernel/uart.c: formatted
    output of the kernel, as the bytes written to the UART.

    [push_off] and [pop_off] around a polled write only mask interrupts and
    are not represented; [panicked] is never set in a state kernel code
    continues from. *)

From S2P Require Import Prelude Layout Kernel Sched.

(** ** uart.c: registers and polled output *)

Definition LSR_RX_READY : Z := Z.shiftl 1 0.
Definition LSR_TX_IDLE : Z := Z.shiftl 1 5.

Definition mod_uart (f : uartst -> uartst) : K unit := modify (fun s => s <| k_uart ::= f |>).

(** ReadReg(LSR) *)
Definition read_lsr : K Z :=
  let* u := gets k_uart in
  mod_uart (fun u => u <| ut_idle ::= @tail bool |>) ;;
  ret (Z.lor (if hd true (ut_idle u) then LSR_TX_IDLE else 0)
             (match ut_rx u with [] => 0 | _ => LSR_RX_READY end)).

(** WriteReg(THR, c) *)
Definition write_thr (c : Z) : K unit := modify (fun s => s <| k_out ::= fun o => o ++ [u8 c] |>).

Fixpoint wait_tx (fuel : nat) : K unit :=
  match fuel with
  | O => diverge
  | S f =>
      let* lsr := read_lsr in
      if Z.land lsr LSR_TX_IDLE =? 0 then wait_tx f else ret tt
  end.

Definition uartputc_sync (c : Z) : K unit :=
  (fun w => wait_tx (S (length (ut_idle (k_uart (w_k w))))) w) ;; write_thr c.

(** ** console.c: consputc *)

Definition BACKSPACE : Z := 256.

Definition consputc (c : Z) : K unit :=
  if c =? BACKSPACE then uartputc_sync 8 ;; uartputc_sync 32 ;; uartputc_sync 8
  else uartputc_sync c.

Fixpoint consputs (l : list Z) : K unit :=
  match l with
  | [] => ret tt
  | c :: l' => consputc c ;; consputs l'
  end.

(** ** printf.c *)

(** digits[i] *)
Definition digit (i : Z) : Z := nth (Z.to_nat i) (bytes "0123456789abcdef") 0.

(** do { buf[i++] = digits[x % base]; } while((x /= base) != 0); *)
Fixpoint printint_loop (fuel : nat) (x base : Z) : list Z :=
  match fuel with
  | O => []
  | S f =>
      digit (x mod base) :: (if x / base =? 0 then [] else printint_loop f (x / base) base)
  end.

(** The contents of [buf], in the order printint() fills it: a 32-bit number
    has at most 32 digits. *)
Definition printint_buf (xx base : Z) (sign : bool) : list Z :=
  let neg := sign && (xx <? 0) in
  let x := if neg then u32 (- xx) else u32 xx in
  printint_loop 32 x base ++ (if neg then bytes "-" else []).

Definition printint (xx base : Z) (sign : bool) : K unit :=
  consputs (rev (printint_buf xx base sign)).

Fixpoint printptr_loop (n : nat) (x : Z) : K unit :=
  match n with
  | O => ret tt
  | S n' => consputc (digit (Z.shiftr x 60)) ;; printptr_loop n' (u64 (Z.shiftl x 4))
  end.

Definition printptr (x : Z) : K unit :=
  consputs (bytes "0x") ;; printptr_loop 16 x.

(** The variable arguments; [va_arg] at another type is undefined. *)
Inductive arg : Type := AInt (x : Z) | APtr (x : Z) | AStr (s : option (list Z)).

Fixpoint printf_loop (fmt : list Z) (ap : list arg) : K unit :=
  match fmt with
  | [] => ret tt
  | c :: fmt =>
      if negb (c =? chr "%") then consputc c ;; printf_loop fmt ap
      else
        match fmt with
        | [] => ret tt
        | c :: fmt =>
            if c =? chr "d" then
              match ap with
              | AInt x :: ap => printint x 10 true ;; printf_loop fmt ap
              | _ => fault
              end
            else if c =? chr "x" then
              match ap with
              | AInt x :: ap => printint x 16 true ;; printf_loop fmt ap
              | _ => fault
              end
            else if c =? chr "p" then
              match ap with
              | APtr x :: ap => printptr x ;; printf_loop fmt ap
              | _ => fault
              end
            else if c =? chr "s" then
              match ap with
              | AStr (Some s) :: ap => consputs s ;; printf_loop fmt ap
              | AStr None :: ap => consputs (bytes "(null)") ;; printf_loop fmt ap
              | _ => fault
              end
            else if c =? chr "%" then consputc (chr "%") ;; printf_loop fmt ap
            else consputc (chr "%") ;; consputc c ;; printf_loop fmt ap
        end
  end.

(** A format is the bytes before its NUL. *)
Definition printf (fmt : list Z) (ap : list arg) : K unit :=
  let* locking := gets k_locking in
  (when locking do acquire LkPr) ;;
  printf_loop fmt ap ;;
  (when locking do release LkPr).

(** panic() of printf.c up to its endless loop; [panic] is the outcome. *)
Definition panic_print (msg : list Z) : K unit :=
  modify (fun s => s <| k_locking := false |>) ;;
  printf (bytes "panic: ") [] ;;
  printf msg [] ;;
  printf nl [].

Definition printfinit : K unit := modify (fun s => s <| k_locking := true |>).

(** ** proc.c: procdump *)

Definition state_name (st : procstate) : list Z :=
  match st with
  | UNUSED => bytes "unused"
  | USED => bytes "used"
  | SLEEPING => bytes "sleep "
  | RUNNABLE => bytes "runble"
  | RUNNING => bytes "run   "
  | ZOMBIE => bytes "zombie"
  end.

Definition procdump_one (i : nat) : K unit :=
  let* p := get_proc i in
  if decide (p_state p = UNUSED) then ret tt
  else
    printf (bytes "%d %s %s") [AInt (p_pid p); AStr (Some (state_name (p_state p))); AStr (Some (p_name p))] ;;
    printf nl [].

Definition procdump : K unit := printf nl [] ;; for_loop NPROC 0 procdump_one.
