(* ===== verification/Kalloc.v ===== *)
(** kernel/kalloc.c: the physical page allocator.

    The free list is threaded through the free pages themselves: the first
    eight bytes of a free page are the address of the next one.  The list is
    read off the memory by [freechain]; [kmem_inv] is the allocator's
    invariant. *)

From Stdlib Require Import FunctionalExtensionality.
From S2P Require Import Prelude Layout Strings Kernel.

(** ** The code *)

Definition kfree (pa : Z) : K unit :=
  let* end_ := gets k_end in
  if negb (pa mod PGSIZE =? 0) || (pa <? end_) || (PHYSTOP <=? pa) then panic "kfree"
  else
    mod_mem (fun m => mfill m pa 1 PGSIZE) ;;
    acquire LkKmem ;;
    let* fl := gets k_freelist in
    mod_mem (fun m => store 8 m pa fl) ;;
    modify (fun s => s <| k_freelist := pa |>) ;;
    release LkKmem.

Definition kalloc : K Z :=
  acquire LkKmem ;;
  let* r := gets k_freelist in
  (when negb (r =? 0) do
    let* m := gets k_mem in modify (fun s => s <| k_freelist := load 8 m r |>)) ;;
  release LkKmem ;;
  (when negb (r =? 0) do mod_mem (fun m => mfill m r 5 PGSIZE)) ;;
  ret r.

Fixpoint freerange_loop (fuel : nat) (p pa_end : Z) : K unit :=
  match fuel with
  | O => diverge
  | S f =>
      if p + PGSIZE <=? pa_end then kfree p ;; freerange_loop f (p + PGSIZE) pa_end
      else ret tt
  end.

(** The loop runs once per whole page of the range, and once more to stop. *)
Definition freerange (pa_start pa_end : Z) : K unit :=
  let p := PGROUNDUP pa_start in
  freerange_loop (S (Z.to_nat ((pa_end - p) / PGSIZE))) p pa_end.

Definition kinit : K unit :=
  let* end_ := gets k_end in freerange end_ PHYSTOP.

(** ** The invariant *)

(** [l] is the list that starts at [hd] and follows the next pointers. *)
Fixpoint freechain (m : mem) (hd : Z) (l : list Z) : Prop :=
  match l with
  | [] => hd = 0
  | p :: l' => hd = p /\ freechain m (load 8 m p) l'
  end.

(** A page the allocator may manage. *)
Definition kpage (end_ p : Z) : Prop := p mod PGSIZE = 0 /\ end_ <= p < PHYSTOP.

Record kmem_inv (s : kernel) (l : list Z) : Prop := {
  kmem_end : 0 < k_end s;
  kmem_chain : freechain (k_mem s) (k_freelist s) l;
  kmem_nodup : NoDup l;
  kmem_pages : Forall (kpage (k_end s)) l;
}.

(** ** Lemmas *)

(** Distinct pages do not overlap. *)
Lemma pages_disjoint p q :
  p mod PGSIZE = 0 -> q mod PGSIZE = 0 -> p <> q -> p + PGSIZE <= q \/ q + PGSIZE <= p.
Proof. unfold PGSIZE. intros. Z.to_euclidean_division_equations. lia. Qed.

Lemma mfill_out m a c n x : x < a \/ a + n <= x -> mfill m a c n x = m x.
Proof. intros. unfold mfill. zcases; auto; lia. Qed.

Lemma mfill_in m a c n x : a <= x < a + n -> mfill m a c n x = u8 c.
Proof. intros. unfold mfill. zcases; auto; lia. Qed.

(** The chain depends only on the bytes of its own pages. *)
Lemma freechain_ext m m' l : forall hd,
  Forall (fun p => forall x, p <= x < p + PGSIZE -> m x = m' x) l ->
  freechain m hd l -> freechain m' hd l.
Proof.
  induction l as [|p l IH]; intros hd; simpl; [done|]. intros [Hp Hl]%Forall_cons [-> Hc].
  split; [done|]. rewrite <- (load_ext 8 m m') ; [by apply IH|].
  intros. apply Hp. unfold PGSIZE. lia.
Qed.

Lemma kpage_pos end_ p : 0 < end_ -> kpage end_ p -> 0 < p < 2 ^ 63.
Proof. unfold kpage, PHYSTOP, KERNBASE. lia. Qed.

Definition after_kfree (pa : Z) (s : kernel) : kernel :=
  s <| k_mem ::= fun m => store 8 (mfill m pa 1 PGSIZE) pa (k_freelist s) |>
    <| k_freelist := pa |>.

Lemma kfree_ok pa w :
  LkKmem ∉ k_held (w_k w) -> kpage (k_end (w_k w)) pa ->
  kfree pa w = Ok tt (kmod (after_kfree pa) w).
Proof.
  intros Hl [Hm Hr]. unfold kfree, mod_mem. kstep.
  rewrite Hm. destruct (Z.ltb_spec pa (k_end (w_k w))); [lia|].
  destruct (Z.leb_spec PHYSTOP pa); [lia|]. cbn [Z.eqb negb orb].
  kstep. eapply run_bind; [by apply acquire_ok|]. do 3 kstep.
  rewrite release_ok by held_side. f_equal. unfold after_kfree. kstate.
  by apply filter_lock_cons.
Qed.

Lemma after_kfree_inv pa s l :
  kmem_inv s l -> kpage (k_end s) pa -> pa ∉ l -> kmem_inv (after_kfree pa s) (pa :: l).
Proof.
  intros [He Hc Hd Hp] Hpa Hn. split; simpl; [done| |by apply NoDup_cons|by constructor].
  split; [done|]. cbn.
  assert (0 <= k_freelist s < 2 ^ 64) as Hf.
  { destruct l as [|q l]; simpl in Hc; [lia|]. destruct Hc as [-> _].
    apply Forall_cons in Hp as [Hq _]. apply kpage_pos in Hq; lia. }
  rewrite load_store_same. change (8 * Z.of_nat 8) with 64. rewrite Z.mod_small by done.
  eapply freechain_ext; [|exact Hc]. rewrite Forall_forall in *. intros p Hin x Hx.
  specialize (Hp p Hin). assert (p <> pa) by set_solver.
  destruct Hp as [Hp _]. destruct Hpa as [Hpa _].
  destruct (pages_disjoint p pa) as [D|D]; auto;
    rewrite store_out, mfill_out; auto; unfold PGSIZE in *; lia.
Qed.

Definition after_kalloc (r : Z) (s : kernel) : kernel :=
  s <| k_freelist := load 8 (k_mem s) r |> <| k_mem ::= fun m => mfill m r 5 PGSIZE |>.

Lemma kalloc_ok w :
  LkKmem ∉ k_held (w_k w) ->
  kalloc w =
  if k_freelist (w_k w) =? 0 then Ok 0 w
  else Ok (k_freelist (w_k w)) (kmod (after_kalloc (k_freelist (w_k w))) w).
Proof.
  intros Hl. unfold kalloc, mod_mem. eapply run_bind; [by apply acquire_ok|]. kstep.
  cbn [kmod w_k k_freelist upd upd_k_held].
  destruct (Z.eqb_spec (k_freelist (w_k w)) 0) as [E|E]; cbn [negb].
  - do 3 kstep. unfold ret. rewrite E. f_equal. kstate. by apply filter_lock_cons.
  - do 4 kstep. eapply run_bind; [reflexivity|]. unfold ret. f_equal.
    unfold after_kalloc. kstate. by apply filter_lock_cons.
Qed.

Lemma after_kalloc_inv p s l : kmem_inv s (p :: l) -> kmem_inv (after_kalloc p s) l.
Proof.
  intros [He Hc Hd Hp]. simpl in Hc. destruct Hc as [Hf Hc].
  apply NoDup_cons in Hd as [Hn Hd]. apply Forall_cons in Hp as [Hpp Hp].
  split; cbn; [done| |done|done]. eapply freechain_ext; [|exact Hc].
  rewrite Forall_forall in *. intros q Hin x Hx. rewrite mfill_out; [done|].
  assert (q <> p) by set_solver. destruct (Hp q Hin) as [Hq _]. destruct Hpp as [Hpp _].
  destruct (pages_disjoint q p); auto; lia.
Qed.

Lemma kmem_head p l s : kmem_inv s (p :: l) -> k_freelist s = p /\ p <> 0.
Proof.
  intros [He [Hc _] _ Hp]. split; [done|]. apply Forall_cons in Hp as [Hp _].
  apply kpage_pos in Hp; lia.
Qed.

(** Writes outside the free pages do not disturb the allocator. *)
Lemma kmem_inv_mem s l m :
  kmem_inv s l -> (forall p x, p ∈ l -> p <= x < p + PGSIZE -> m x = k_mem s x) ->
  kmem_inv (s <| k_mem := m |>) l.
Proof.
  intros [He Hc Hd Hp] H. split; auto. cbn. eapply freechain_ext; [|exact Hc].
  apply Forall_forall. intros p Hin x Hx. symmetry. by eapply H.
Qed.

Lemma mfill_mfill m a c d n : mfill (mfill m a c n) a d n = mfill m a d n.
Proof. apply functional_extensionality. intros x. unfold mfill. by destruct (_ && _). Qed.

(** The pages kinit() hands to the allocator, lowest first. *)
Definition all_pages (end_ : Z) : list Z :=
  (fun i : nat => PGROUNDUP end_ + Z.of_nat i * PGSIZE)
    <$> seq 0 (Z.to_nat ((PHYSTOP - PGROUNDUP end_) / PGSIZE)).

(** ** What the allocator guarantees *)

(** Kalloc() returns 0 exactly when the free list is empty and otherwise
    removes its head, fills the page with junk, leaves every other byte alone
    and keeps the invariant. *)
Theorem kalloc_spec s l e :
  kmem_inv s l -> LkKmem ∉ k_held s ->
  match l with
  | [] => kalloc (mkWorld s e) = Ok 0 (mkWorld s e)
  | p :: l' =>
      exists s', kalloc (mkWorld s e) = Ok p (mkWorld s' e) /\ kmem_inv s' l' /\
        p <> 0 /\ k_held s' = k_held s /\
        forall x, k_mem s' x = if (p <=? x) && (x <? p + PGSIZE) then 5 else k_mem s x
  end.
Proof.
  intros Hi Hl. rewrite kalloc_ok by done. cbn [w_k]. destruct l as [|p l].
  - destruct Hi as [_ Hc _ _]. simpl in Hc. by rewrite Hc.
  - destruct (kmem_head _ _ _ Hi) as [-> Hp]. destruct (Z.eqb_spec p 0); [done|].
    eexists. split; [reflexivity|]. split_and!; auto using after_kalloc_inv.
Qed.

(** An instance of [kalloc_spec]. *)
Lemma kalloc_spec_witness :
  let s := one_proc <| k_freelist := PHYSTOP - PGSIZE |> in
  exists s', kalloc (mkWorld s []) = Ok (PHYSTOP - PGSIZE) (mkWorld s' []) /\ kmem_inv s' [] /\
    k_mem s' (PHYSTOP - 1) = 5.
Proof.
  intros s. destruct (kalloc_spec s [PHYSTOP - PGSIZE] []) as (s' & E & I & _ & _ & M).
  - split; [reflexivity|split; reflexivity|apply NoDup_singleton|].
    constructor; [|constructor]. split; [reflexivity|split; [done|reflexivity]].
  - apply not_elem_of_nil.
  - exists s'. split; [exact E|split; [exact I|]]. rewrite M. reflexivity.
Defined.

(** Kfree() of a page that is not free puts it at the head of the free list,
    keeps the invariant and changes no byte outside the page. *)
Theorem kfree_spec s l pa e :
  kmem_inv s l -> LkKmem ∉ k_held s -> kpage (k_end s) pa -> pa ∉ l ->
  exists s', kfree pa (mkWorld s e) = Ok tt (mkWorld s' e) /\ kmem_inv s' (pa :: l) /\
    k_held s' = k_held s /\
    forall x, x < pa \/ pa + PGSIZE <= x -> k_mem s' x = k_mem s x.
Proof.
  intros. exists (after_kfree pa s). rewrite kfree_ok by done.
  split_and!; auto using after_kfree_inv.
  intros x Hx. cbn. rewrite store_out, mfill_out; auto. unfold PGSIZE in *. lia.
Qed.

(** An instance of [kfree_spec]. *)
Lemma kfree_spec_witness :
  exists s', kfree (PHYSTOP - PGSIZE) (mkWorld one_proc []) = Ok tt (mkWorld s' []) /\
    kmem_inv s' [PHYSTOP - PGSIZE].
Proof.
  destruct (kfree_spec one_proc [] (PHYSTOP - PGSIZE) []) as (s' & E & I & _).
  - split; [reflexivity|reflexivity|apply NoDup_nil_2|constructor].
  - apply not_elem_of_nil.
  - split; [reflexivity|split; [done|reflexivity]].
  - apply not_elem_of_nil.
  - exists s'. split; [exact E|exact I].
Defined.

(** Kfree() panics on an address that is not page aligned or lies outside
    the memory kalloc() manages. *)
Theorem kfree_bad pa w : ~ kpage (k_end (w_k w)) pa -> kfree pa w = Panic "kfree" w.
Proof.
  intros H. unfold kfree, kpage in *. kstep.
  destruct (Z.eqb_spec (pa mod PGSIZE) 0), (Z.ltb_spec pa (k_end (w_k w))),
    (Z.leb_spec PHYSTOP pa); cbn; try done. exfalso. apply H. lia.
Qed.

(** An instance of [kfree_bad]. *)
Lemma kfree_bad_witness :
  ~ kpage (k_end one_proc) (PHYSTOP - 1) /\ kfree (PHYSTOP - 1) (mkWorld one_proc []) = Panic "kfree" (mkWorld one_proc []).
Proof.
  assert (~ kpage (k_end one_proc) (PHYSTOP - 1)) as H by (intros [H _]; discriminate H).
  split; [exact H|]. exact (kfree_bad (PHYSTOP - 1) (mkWorld one_proc []) H).
Defined.

Lemma freerange_loop_inv fuel : forall p pa_end s l e,
  kmem_inv s l -> LkKmem ∉ k_held s -> p mod PGSIZE = 0 -> k_end s <= p -> pa_end <= PHYSTOP ->
  Forall (fun q => q < p) l -> (Z.to_nat ((pa_end - p) / PGSIZE) < fuel)%nat ->
  exists s', freerange_loop fuel p pa_end (mkWorld s e) = Ok tt (mkWorld s' e) /\
    k_held s' = k_held s /\ k_end s' = k_end s /\
    kmem_inv s' (rev ((fun i : nat => p + Z.of_nat i * PGSIZE)
      <$> seq 0 (Z.to_nat ((pa_end - p) / PGSIZE))) ++ l).
Proof.
  induction fuel as [|f IH]; intros p pa_end s l e Hi Hl Hm Hp He Hlt Hfuel; [lia|]. simpl.
  assert (PGSIZE = 4096) as PG by done.
  destruct (Z.leb_spec (p + PGSIZE) pa_end) as [Hle|Hgt].
  - assert (kpage (k_end s) p) as Hkp by (split; [done|lia]).
    assert (p ∉ l) as Hnin. { intros Hin. rewrite Forall_forall in Hlt. specialize (Hlt p Hin). lia. }
    erewrite bind_ok by (by apply kfree_ok). unfold kmod; cbn [w_k w_env].
    destruct (IH (p + PGSIZE) pa_end (after_kfree p s) (p :: l) e) as (s' & H1 & H2 & H3 & H4).
    + by apply after_kfree_inv.
    + done.
    + rewrite PG in *. Z.to_euclidean_division_equations. lia.
    + cbn. lia.
    + done.
    + constructor; [lia|]. eapply Forall_impl; [exact Hlt|]. cbn. lia.
    + rewrite PG in *. Z.to_euclidean_division_equations. lia.
    + exists s'. split_and!; [done..|]. revert H4.
      replace (Z.to_nat ((pa_end - p) / PGSIZE)) with (S (Z.to_nat ((pa_end - (p + PGSIZE)) / PGSIZE))).
      * rewrite <- cons_seq, fmap_cons, <- seq_shift, <- list_fmap_compose. simpl.
        rewrite <- app_assoc. simpl. rewrite Z.add_0_r.
        rewrite (list_fmap_ext (fun i : nat => p + PGSIZE + Z.of_nat i * PGSIZE)
          ((fun i : nat => p + Z.of_nat i * PGSIZE) ∘ S)); [done|].
        intros. simpl. lia.
      * rewrite PG in *. Z.to_euclidean_division_equations. lia.
  - exists s. split_and!; [done..|].
    replace (Z.to_nat ((pa_end - p) / PGSIZE)) with 0%nat; [done|].
    rewrite PG in *. Z.to_euclidean_division_equations. lia.
Qed.

Lemma kinit_ok s e :
  0 < k_end s <= PHYSTOP -> k_freelist s = 0 -> LkKmem ∉ k_held s ->
  exists s', kinit (mkWorld s e) = Ok tt (mkWorld s' e) /\ k_held s' = k_held s /\
    k_end s' = k_end s /\ kmem_inv s' (rev (all_pages (k_end s))).
Proof.
  intros He Hf Hl. unfold kinit, freerange. erewrite bind_ok by reflexivity. cbn [w_k].
  assert (PGSIZE = 4096) as PG by done. assert (PHYSTOP = 2281701376) as PS by done.
  pose proof (PGROUNDUP_bounds (k_end s) ltac:(lia) ltac:(lia)) as [B [q Hq]].
  destruct (freerange_loop_inv (S (Z.to_nat ((PHYSTOP - PGROUNDUP (k_end s)) / PGSIZE)))
    (PGROUNDUP (k_end s)) PHYSTOP s [] e) as (s' & H1 & H2 & H3 & H4); try lia; auto.
  - split; simpl; auto; [lia|apply NoDup_nil; done].
  - rewrite Hq. by rewrite Z.mod_mul.
  - exists s'. rewrite app_nil_r in H4. done.
Qed.

(** C37: after kinit() the free list holds exactly the whole pages between
    [end] and PHYSTOP, highest first. *)
Theorem kinit_spec s e :
  0 < k_end s <= PHYSTOP -> k_freelist s = 0 -> LkKmem ∉ k_held s ->
  exists s', kinit (mkWorld s e) = Ok tt (mkWorld s' e) /\ k_held s' = k_held s /\
    k_end s' = k_end s /\ kmem_inv s' (rev (all_pages (k_end s))).
Proof. apply kinit_ok. Qed.

(** An instance of [kinit_spec]. *)
Lemma kinit_spec_witness :
  exists s', kinit (mkWorld one_proc []) = Ok tt (mkWorld s' []) /\
    kmem_inv s' (rev (all_pages (PHYSTOP - 16 * PGSIZE))) /\ length (all_pages (PHYSTOP - 16 * PGSIZE)) = 16%nat.
Proof.
  destruct (kinit_spec one_proc []) as (s' & E & _ & _ & I).
  - split; [reflexivity|done].
  - reflexivity.
  - apply not_elem_of_nil.
  - exists s'. split; [exact E|split; [exact I|reflexivity]].
Defined.

(** ** Clients of the allocator

    [alloc_step] is what the rest of the kernel may do with pages: allocate,
    free a page it got, and write to the pages it got.  [out] are the pages
    currently handed out. *)
Inductive alloc_step : kernel * list Z -> kernel * list Z -> Prop :=
| as_alloc s s' e e' out p :
    kalloc (mkWorld s e) = Ok p (mkWorld s' e') -> p <> 0 ->
    alloc_step (s, out) (s', p :: out)
| as_none s s' e e' out :
    kalloc (mkWorld s e) = Ok 0 (mkWorld s' e') -> alloc_step (s, out) (s', out)
| as_free s s' e e' out p :
    p ∈ out -> kfree p (mkWorld s e) = Ok tt (mkWorld s' e') ->
    alloc_step (s, out) (s', filter (fun q => q <> p) out)
| as_write s m out :
    (forall x, m x <> k_mem s x -> exists p, p ∈ out /\ p <= x < p + PGSIZE) ->
    alloc_step (s, out) (s <| k_mem := m |>, out).

Definition alloc_inv (all : list Z) (c : kernel * list Z) : Prop :=
  LkKmem ∉ k_held c.1 /\
  exists l, kmem_inv c.1 l /\ c.2 ++ l ≡ₚ all.

Lemma alloc_step_inv all c c' :
  NoDup all -> Forall (kpage (k_end c.1)) all ->
  alloc_inv all c -> alloc_step c c' -> alloc_inv all c' /\ k_end c'.1 = k_end c.1.
Proof.
  intros Hnd Hpg (Hl & l & Hi & Hperm) Hs. destruct Hs as [s s' e e' out p Ha Hp|s s' e e' out Ha
    |s s' e e' out p Hin Hf|s m out Hw]; cbn [fst snd] in *.
  - rewrite kalloc_ok in Ha by done. cbn [w_k] in Ha. destruct l as [|q l].
    { destruct Hi as [_ Hc _ _]. simpl in Hc. rewrite Hc in Ha. simplify_eq/=. }
    destruct (kmem_head _ _ _ Hi) as [Hq Hq0]. rewrite Hq in Ha.
    destruct (Z.eqb_spec q 0); [done|]. injection Ha as <- <- <-. split; [|done].
    split; [done|]. exists l. split; [by apply after_kalloc_inv|]. cbn.
    by rewrite <- Hperm, Permutation_middle.
  - rewrite kalloc_ok in Ha by done. cbn [w_k] in Ha.
    destruct (Z.eqb_spec (k_freelist s) 0); [|congruence]. simplify_eq. split; [|done].
    split; [done|]. eauto.
  - assert (kpage (k_end s) p) as Hp.
    { rewrite Forall_forall in Hpg. apply Hpg. rewrite <- Hperm. set_solver. }
    assert (NoDup (out ++ l)) as Hnd' by (by rewrite Hperm).
    apply NoDup_app in Hnd' as (Hno & Hdis & Hnl).
    rewrite kfree_ok in Hf by done. injection Hf as <- <-. split; [|done]. split; [done|].
    exists (p :: l). split; [apply after_kfree_inv; auto; set_solver|]. cbn.
    rewrite <- Permutation_middle, <- Hperm. clear - Hno Hin.
    rewrite app_comm_cons. apply Permutation_app; [|done].
    induction Hno as [|q out Hq Hno IH]; [set_solver|].
    destruct (decide (q = p)) as [->|].
    + rewrite filter_cons_False by naive_solver. by rewrite filter_ne_notin.
    + rewrite filter_cons_True by done. rewrite Permutation_swap. f_equiv. apply IH. set_solver.
  - split; [|done]. split; [done|]. exists l. split; [|done]. destruct Hi as [He Hc Hd Hp].
    split; cbn; auto. eapply freechain_ext; [|exact Hc].
    assert (NoDup (out ++ l)) as Hnd' by (by rewrite Hperm).
    apply NoDup_app in Hnd' as (Hno & Hdis & Hnl).
    rewrite Forall_forall in *. intros q Hq x Hx.
    destruct (Z.eq_dec (m x) (k_mem s x)) as [|Hne]; [done|]. exfalso.
    destruct (Hw x Hne) as (p & Hin & Hxp).
    assert (p <> q) by (intros ->; by apply (Hdis q)).
    destruct (Hp q Hq) as [Hqm _]. destruct (Hpg p) as [Hpm _]; [rewrite <- Hperm; set_solver|].
    destruct (pages_disjoint p q); auto; lia.
Qed.

Lemma alloc_rtc_inv all c c' :
  rtc alloc_step c c' -> NoDup all -> Forall (kpage (k_end c.1)) all ->
  alloc_inv all c -> alloc_inv all c'.
Proof.
  induction 1 as [|c0 c1 c2 Hs Hr IH]; [done|]. intros Hnd Hpg H0.
  destruct (alloc_step_inv _ _ _ Hnd Hpg H0 Hs) as [H1 E].
  apply IH; [done| |done]. by rewrite E.
Qed.

Lemma all_pages_NoDup end_ : NoDup (all_pages end_).
Proof.
  unfold all_pages. apply NoDup_fmap_2; [|apply NoDup_seq].
  intros i j H. unfold PGSIZE in H. lia.
Qed.

(** C15: starting from kinit(), whatever sequence of allocations, frees and
    writes to owned pages the kernel performs, the pages handed out and the
    free pages together are exactly the pages of memory, each once: no page is
    handed out twice or lost. *)
Theorem pages_conserved s0 e s1 c :
  0 < k_end s0 <= PHYSTOP -> k_freelist s0 = 0 -> LkKmem ∉ k_held s0 ->
  kinit (mkWorld s0 e) = Ok tt (mkWorld s1 e) -> rtc alloc_step (s1, []) c ->
  exists l, freechain (k_mem c.1) (k_freelist c.1) l /\ NoDup (c.2 ++ l) /\
    c.2 ++ l ≡ₚ all_pages (k_end s0).
Proof.
  intros He Hf Hl Hk Hr.
  destruct (kinit_ok s0 e He Hf Hl) as (s' & Hk' & Hh & Hend & Hi).
  rewrite Hk in Hk'. injection Hk' as <-.
  assert (NoDup (all_pages (k_end s0))) as Hnd by apply all_pages_NoDup.
  assert (Forall (kpage (k_end s0)) (all_pages (k_end s0))) as Hpg.
  { pose proof (kmem_pages _ _ Hi) as Hp. rewrite Hend in Hp.
    apply Forall_rev in Hp. by rewrite rev_involutive in Hp. }
  enough (alloc_inv (all_pages (k_end s0)) c) as (_ & l & Hi' & Hp).
  { exists l. split_and!; [by destruct Hi'|by rewrite Hp|done]. }
  assert (alloc_inv (all_pages (k_end s0)) (s1, [])) as H0.
  { split; [cbn [fst]; by rewrite Hh|]. exists (rev (all_pages (k_end s0))). split; [done|].
    cbn. by rewrite <- Permutation_rev. }
  eapply alloc_rtc_inv; eauto. cbn. by rewrite Hend.
Qed.

(** An instance of [pages_conserved]. *)
Lemma pages_conserved_witness :
  exists s1 s2, kinit (mkWorld one_proc []) = Ok tt (mkWorld s1 []) /\
    alloc_step (s1, []) (s2, [PHYSTOP - PGSIZE]) /\
    exists l, freechain (k_mem s2) (k_freelist s2) l /\ NoDup (PHYSTOP - PGSIZE :: l) /\
      PHYSTOP - PGSIZE :: l ≡ₚ all_pages (PHYSTOP - 16 * PGSIZE).
Proof.
  destruct (kinit_ok one_proc []) as (s1 & E & Hh & _ & I); [split; [reflexivity|done]|reflexivity|apply not_elem_of_nil|].
  destruct (kmem_head (PHYSTOP - PGSIZE) _ _ I) as [Hf Hp].
  exists s1, (after_kalloc (PHYSTOP - PGSIZE) s1). split; [exact E|].
  assert (alloc_step (s1, []) (after_kalloc (PHYSTOP - PGSIZE) s1, [PHYSTOP - PGSIZE])) as St.
  { apply (as_alloc _ _ [] []); [|done]. rewrite kalloc_ok by (cbn [w_k]; rewrite Hh; apply not_elem_of_nil).
    cbn [w_k]. rewrite Hf. reflexivity. }
  split; [exact St|].
  apply (pages_conserved one_proc [] s1 (after_kalloc (PHYSTOP - PGSIZE) s1, [PHYSTOP - PGSIZE]));
    [split; [reflexivity|done]|reflexivity|apply not_elem_of_nil|exact E|].
  eapply rtc_once, St.
Defined.
