(* ===== verification/Vm.v ===== *)
(** kernel/vm.c: Sv39 page tables, user address spaces, copies between user
    and kernel memory.

    Page tables live in the byte memory: a page-table page is 512 64-bit
    entries, read and written with [load 8] and [store 8] at the address the C
    code computes.  A copy to kernel memory ([copyin], [copyinstr]) returns the
    bytes it stored at its destination next to its result, and [copyout] takes
    the bytes at its source. *)

From S2P Require Import Prelude Layout Strings Kernel Kalloc.

(** ** The code *)

Definition read_pte (pte : Z) : K Z := gets (fun s => load 8 (k_mem s) pte).
Definition write_pte (pte v : Z) : K unit := mod_mem (fun m => store 8 m pte v).

(** [pte & bits] as a condition. *)
Definition has (pte bits : Z) : bool := negb (Z.land pte bits =? 0).

(** The loop of [walk], from [level] down to 1. *)
Fixpoint walk_loop (level : nat) (pagetable va : Z) (alloc : bool) : K Z :=
  match level with
  | O => ret (pagetable + 8 * PX 0 va)
  | S l =>
      let pte := pagetable + 8 * PX (Z.of_nat level) va in
      let* v := read_pte pte in
      if has v PTE_V then walk_loop l (PTE2PA v) va alloc
      else if negb alloc then ret 0
      else
        let* pagetable' := kalloc in
        if pagetable' =? 0 then ret 0
        else
          mod_mem (fun m => mfill m pagetable' 0 PGSIZE) ;;
          write_pte pte (Z.lor (PA2PTE pagetable') PTE_V) ;;
          walk_loop l pagetable' va alloc
  end.

Definition walk (pagetable va : Z) (alloc : bool) : K Z :=
  if MAXVA <=? va then panic "walk" else walk_loop 2 pagetable va alloc.

Definition walkaddr (pagetable va : Z) : K Z :=
  if MAXVA <=? va then ret 0
  else
    let* pte := walk pagetable va false in
    if pte =? 0 then ret 0
    else
      let* v := read_pte pte in
      if negb (has v PTE_V) then ret 0
      else if negb (has v PTE_U) then ret 0
      else ret (PTE2PA v).

Fixpoint mappages_loop (fuel : nat) (pagetable a last pa perm : Z) : K Z :=
  match fuel with
  | O => diverge
  | S f =>
      let* pte := walk pagetable a true in
      if pte =? 0 then ret (-1)
      else
        let* v := read_pte pte in
        if has v PTE_V then panic "mappages: remap"
        else
          write_pte pte (Z.lor (Z.lor (PA2PTE pa) perm) PTE_V) ;;
          if a =? last then ret 0
          else mappages_loop f pagetable (u64 (a + PGSIZE)) last (u64 (pa + PGSIZE)) perm
  end.

(** [a] reaches [last] after one step per page, modulo 2^64. *)
Definition mappages (pagetable va size pa perm : Z) : K Z :=
  if size =? 0 then panic "mappages: size"
  else
    let a := PGROUNDDOWN va in
    let last := PGROUNDDOWN (u64 (va + size - 1)) in
    mappages_loop (S (Z.to_nat (u64 (last - a) / PGSIZE))) pagetable a last pa perm.

Definition kvmmap (kpgtbl va pa sz perm : Z) : K unit :=
  let* r := mappages kpgtbl va sz pa perm in
  if negb (r =? 0) then panic "kvmmap" else ret tt.

(** proc.c: a kernel stack for each process, below the trampoline *)
Definition proc_mapstacks (kpgtbl : Z) : K unit :=
  for_loop NPROC 0 (fun i =>
    let* pa := kalloc in
    if pa =? 0 then panic "kalloc"
    else kvmmap kpgtbl (KSTACK (Z.of_nat i)) pa PGSIZE (Z.lor PTE_R PTE_W)).

(** memset() through the null pointer if the first kalloc() fails *)
Definition kvmmake : K Z :=
  let* kpgtbl := kalloc in
  if kpgtbl =? 0 then fault
  else
    mod_mem (fun m => mfill m kpgtbl 0 PGSIZE) ;;
    let* sy := gets k_syms in
    let etext := sy_etext sy in
    kvmmap kpgtbl UART0 UART0 PGSIZE (Z.lor PTE_R PTE_W) ;;
    kvmmap kpgtbl VIRTIO0 VIRTIO0 PGSIZE (Z.lor PTE_R PTE_W) ;;
    kvmmap kpgtbl PLIC PLIC 4194304 (Z.lor PTE_R PTE_W) ;;
    kvmmap kpgtbl KERNBASE KERNBASE (u64 (etext - KERNBASE)) (Z.lor PTE_R PTE_X) ;;
    kvmmap kpgtbl etext etext (u64 (PHYSTOP - etext)) (Z.lor PTE_R PTE_W) ;;
    kvmmap kpgtbl TRAMPOLINE (sy_trampoline sy) PGSIZE (Z.lor PTE_R PTE_X) ;;
    proc_mapstacks kpgtbl ;;
    ret kpgtbl.

Definition kvminit : K unit :=
  let* kpgtbl := kvmmake in modify (fun s => s <| k_kpgtbl := kpgtbl |>).

(** MAKE_SATP: mode Sv39 and the page number of the root *)
Definition MAKE_SATP (pagetable : Z) : Z := Z.lor (Z.shiftl 8 60) (Z.shiftr pagetable 12).

Definition kvminithart : K unit :=
  modify (fun s => s <| k_csr ::= fun c => c <| c_satp := MAKE_SATP (k_kpgtbl s) |> |>).

Fixpoint uvmunmap_loop (fuel : nat) (pagetable a limit : Z) (do_free : bool) : K unit :=
  match fuel with
  | O => diverge
  | S f =>
      if negb (a <? limit) then ret tt
      else
        let* pte := walk pagetable a false in
        if pte =? 0 then panic "uvmunmap: walk"
        else
          let* v := read_pte pte in
          if negb (has v PTE_V) then panic "uvmunmap: not mapped"
          else if PTE_FLAGS v =? PTE_V then panic "uvmunmap: not a leaf"
          else
            (when do_free do kfree (PTE2PA v)) ;;
            write_pte pte 0 ;;
            uvmunmap_loop f pagetable (a + PGSIZE) limit do_free
  end.

Definition uvmunmap (pagetable va npages : Z) (do_free : bool) : K unit :=
  if negb (va mod PGSIZE =? 0) then panic "uvmunmap: not aligned"
  else uvmunmap_loop (S (Z.to_nat npages)) pagetable va (u64 (va + npages * PGSIZE)) do_free.

Definition uvmcreate : K Z :=
  let* pagetable := kalloc in
  if pagetable =? 0 then ret 0
  else mod_mem (fun m => mfill m pagetable 0 PGSIZE) ;; ret pagetable.

Definition uvmfirst (pagetable : Z) (src : list Z) : K unit :=
  if PGSIZE <=? Z.of_nat (length src) then panic "uvmfirst: more than a page"
  else
    let* mem := kalloc in
    if mem =? 0 then fault
    else
      mod_mem (fun m => mfill m mem 0 PGSIZE) ;;
      mappages pagetable 0 PGSIZE mem (Z.lor (Z.lor (Z.lor PTE_W PTE_R) PTE_X) PTE_U) ;;
      mod_mem (fun m => mwrite m mem src).

(** [npages] is a C int passed as a uint64. *)
Definition uvmdealloc (pagetable oldsz newsz : Z) : K Z :=
  if oldsz <=? newsz then ret oldsz
  else
    (when PGROUNDUP newsz <? PGROUNDUP oldsz do
      let npages := i32 ((PGROUNDUP oldsz - PGROUNDUP newsz) / PGSIZE) in
      uvmunmap pagetable (PGROUNDUP newsz) (u64 npages) true) ;;
    ret newsz.

Fixpoint uvmalloc_loop (fuel : nat) (pagetable a oldsz newsz xperm : Z) : K Z :=
  match fuel with
  | O => diverge
  | S f =>
      if negb (a <? newsz) then ret newsz
      else
        let* mem := kalloc in
        if mem =? 0 then uvmdealloc pagetable a oldsz ;; ret 0
        else
          mod_mem (fun m => mfill m mem 0 PGSIZE) ;;
          let* r := mappages pagetable a PGSIZE mem (Z.lor (Z.lor PTE_R PTE_U) xperm) in
          if negb (r =? 0) then kfree mem ;; uvmdealloc pagetable a oldsz ;; ret 0
          else uvmalloc_loop f pagetable (a + PGSIZE) oldsz newsz xperm
  end.

Definition uvmalloc (pagetable oldsz newsz xperm : Z) : K Z :=
  if newsz <? oldsz then ret oldsz
  else
    let oldsz := PGROUNDUP oldsz in
    uvmalloc_loop (S (S (Z.to_nat ((newsz - oldsz) / PGSIZE)))) pagetable oldsz oldsz newsz xperm.

(** The recursion is over the levels of the tree: [depth] counts them. *)
Fixpoint freewalk (depth : nat) (pagetable : Z) : K unit :=
  match depth with
  | O => diverge
  | S d =>
      for_loop 512 0 (fun i =>
        let* pte := read_pte (pagetable + 8 * Z.of_nat i) in
        if has pte PTE_V && negb (has pte (Z.lor (Z.lor PTE_R PTE_W) PTE_X)) then
          freewalk d (PTE2PA pte) ;;
          write_pte (pagetable + 8 * Z.of_nat i) 0
        else if has pte PTE_V then panic "freewalk: leaf"
        else ret tt) ;;
      kfree pagetable
  end.

Definition uvmfree (pagetable sz : Z) : K unit :=
  (when 0 <? sz do uvmunmap pagetable 0 (PGROUNDUP sz / PGSIZE) true) ;;
  freewalk 3 pagetable.

Fixpoint uvmcopy_loop (fuel : nat) (old new i sz : Z) : K Z :=
  match fuel with
  | O => diverge
  | S f =>
      if negb (i <? sz) then ret 0
      else
        let* pte := walk old i false in
        if pte =? 0 then panic "uvmcopy: pte should exist"
        else
          let* v := read_pte pte in
          if negb (has v PTE_V) then panic "uvmcopy: page not present"
          else
            let pa := PTE2PA v in
            let flags := PTE_FLAGS v in
            let err := uvmunmap new 0 (i / PGSIZE) true ;; ret (-1) in
            let* mem := kalloc in
            if mem =? 0 then err
            else
              mod_mem (fun m => mcopy m mem pa PGSIZE) ;;
              let* r := mappages new i PGSIZE mem flags in
              if negb (r =? 0) then kfree mem ;; err
              else uvmcopy_loop f old new (i + PGSIZE) sz
  end.

Definition uvmcopy (old new sz : Z) : K Z :=
  uvmcopy_loop (S (S (Z.to_nat (sz / PGSIZE)))) old new 0 sz.

Definition uvmclear (pagetable va : Z) : K unit :=
  let* pte := walk pagetable va false in
  if pte =? 0 then panic "uvmclear"
  else
    let* v := read_pte pte in
    write_pte pte (Z.land v (u64 (Z.lnot PTE_U))).

Fixpoint copyout_loop (fuel : nat) (pagetable dstva : Z) (src : list Z) : K Z :=
  match src, fuel with
  | [], _ => ret 0
  | _, O => diverge
  | _, S f =>
      let va0 := PGROUNDDOWN dstva in
      let* pa0 := walkaddr pagetable va0 in
      if pa0 =? 0 then ret (-1)
      else
        let n := Z.min (PGSIZE - (dstva - va0)) (Z.of_nat (length src)) in
        mod_mem (fun m => mwrite m (pa0 + (dstva - va0)) (take (Z.to_nat n) src)) ;;
        copyout_loop f pagetable (u64 (va0 + PGSIZE)) (drop (Z.to_nat n) src)
  end.

(** Every round copies at least one byte. *)
Definition copyout (pagetable dstva : Z) (src : list Z) : K Z :=
  copyout_loop (length src) pagetable dstva src.

Fixpoint copyin_loop (fuel : nat) (pagetable srcva : Z) (len : nat) (dst : list Z) : K (Z * list Z) :=
  match len, fuel with
  | O, _ => ret (0, dst)
  | _, O => diverge
  | _, S f =>
      let va0 := PGROUNDDOWN srcva in
      let* pa0 := walkaddr pagetable va0 in
      if pa0 =? 0 then ret (-1, dst)
      else
        let n := Z.to_nat (Z.min (PGSIZE - (srcva - va0)) (Z.of_nat len)) in
        let* bytes := gets (fun s => mread (k_mem s) (pa0 + (srcva - va0)) n) in
        copyin_loop f pagetable (u64 (va0 + PGSIZE)) (len - n) (dst ++ bytes)
  end.

Definition copyin (pagetable srcva len : Z) : K (Z * list Z) :=
  copyin_loop (Z.to_nat len) pagetable srcva (Z.to_nat len) [].

(** The inner loop of [copyinstr]: bytes of one page up to a NUL. *)
Fixpoint scan_nul (n : nat) (m : mem) (p : Z) : list Z * bool :=
  match n with
  | O => ([], false)
  | S n' =>
      if m p =? 0 then ([0], true)
      else let r := scan_nul n' m (p + 1) in (m p :: r.1, r.2)
  end.

Fixpoint copyinstr_loop (fuel : nat) (pagetable srcva : Z) (max : nat) (dst : list Z) : K (Z * list Z) :=
  match max, fuel with
  | O, _ => ret (-1, dst)
  | _, O => diverge
  | _, S f =>
      let va0 := PGROUNDDOWN srcva in
      let* pa0 := walkaddr pagetable va0 in
      if pa0 =? 0 then ret (-1, dst)
      else
        let n := Z.to_nat (Z.min (PGSIZE - (srcva - va0)) (Z.of_nat max)) in
        let* m := gets k_mem in
        let r := scan_nul n m (pa0 + (srcva - va0)) in
        if r.2 then ret (0, dst ++ r.1)
        else copyinstr_loop f pagetable (u64 (va0 + PGSIZE)) (max - n) (dst ++ r.1)
  end.

Definition copyinstr (pagetable srcva max : Z) : K (Z * list Z) :=
  copyinstr_loop (Z.to_nat max) pagetable srcva (Z.to_nat max) [].
