(* ===== verification/PageTable.v ===== *)
(** Page tables in memory as maps from virtual pages to entries.

    [node m root k va] is the page-table page reached from [root] after [k]
    steps of the walk for [va]; [pte_of m root va] is the leaf entry of [va],
    0 when the walk stops early.  [pt_wf] says that the pages of the tree are
    distinct.  The lemmas show that the writes vm.c makes (a leaf entry, a new
    interior page) act on [pte_of] as an update of one page, or not at all. *)

From S2P Require Import Prelude Layout Strings Kernel Kalloc Vm.

Definition pte_slot (p : Z) (k : nat) (va : Z) : Z := p + 8 * PX (2 - Z.of_nat k) va.

Fixpoint node (m : mem) (root : Z) (k : nat) (va : Z) : option Z :=
  match k with
  | O => Some root
  | S k' =>
      match node m root k' va with
      | Some p =>
          let v := load 8 m (pte_slot p k' va) in
          if has v PTE_V then Some (PTE2PA v) else None
      | None => None
      end
  end.

Definition pte_of (m : mem) (root va : Z) : Z :=
  match node m root 2 va with
  | Some p => load 8 m (pte_slot p 2 va)
  | None => 0
  end.

(** The address bits that select the page at depth [k]. *)
Definition prefix (k : nat) (va : Z) : Z := va / 2 ^ (39 - 9 * Z.of_nat k).

Definition is_va (va : Z) : Prop := 0 <= va < MAXVA.

Record pt_wf (end_ : Z) (m : mem) (root : Z) : Prop := {
  wf_page k va p : (k <= 2)%nat -> is_va va -> node m root k va = Some p -> kpage end_ p;
  wf_inj k va k' va' p : (k <= 2)%nat -> (k' <= 2)%nat -> is_va va -> is_va va' ->
    node m root k va = Some p -> node m root k' va' = Some p ->
    k = k' /\ prefix k va = prefix k va';
}.

Definition is_node (m : mem) (root p : Z) : Prop :=
  exists k va, (k <= 2)%nat /\ is_va va /\ node m root k va = Some p.

(** ** Indices and prefixes *)

Lemma PX_prefix k va : (k <= 2)%nat -> PX (2 - Z.of_nat k) va = prefix (S k) va mod 512.
Proof.
  intros. rewrite PX_eq by lia. unfold prefix, PXSHIFT, PGSHIFT. do 3 f_equal. lia.
Qed.

Lemma prefix_shrink k va va' :
  (k <= 2)%nat -> prefix (S k) va = prefix (S k) va' -> prefix k va = prefix k va'.
Proof.
  unfold prefix. intros Hk H.
  assert (forall x, x / 2 ^ (39 - 9 * Z.of_nat k) = x / 2 ^ (39 - 9 * Z.of_nat (S k)) / 2 ^ 9) as E.
  { intros x. rewrite Z.div_div by (try apply Z.pow_nonzero; try apply Z.pow_pos_nonneg; lia).
    rewrite <- Z.pow_add_r by lia. f_equal. f_equal. lia. }
  rewrite (E va), (E va'). by rewrite H.
Qed.

Lemma prefix_ext k va va' :
  (k <= 2)%nat -> prefix k va = prefix k va' -> PX (2 - Z.of_nat k) va = PX (2 - Z.of_nat k) va' ->
  prefix (S k) va = prefix (S k) va'.
Proof.
  intros Hk H1. rewrite !PX_prefix by done. intros H2. revert H1 H2. unfold prefix.
  assert (forall x, x / 2 ^ (39 - 9 * Z.of_nat k) = x / 2 ^ (39 - 9 * Z.of_nat (S k)) / 2 ^ 9) as E.
  { intros x. rewrite Z.div_div by (try apply Z.pow_nonzero; try apply Z.pow_pos_nonneg; lia).
    rewrite <- Z.pow_add_r by lia. f_equal. f_equal. lia. }
  rewrite (E va), (E va'). generalize (va / 2 ^ (39 - 9 * Z.of_nat (S k))).
  generalize (va' / 2 ^ (39 - 9 * Z.of_nat (S k))). intros a b. change (2 ^ 9) with 512.
  intros. pose proof (Z.div_mod a 512). pose proof (Z.div_mod b 512). lia.
Qed.

Lemma prefix_0 va va' : is_va va -> is_va va' -> prefix 0 va = prefix 0 va'.
Proof.
  unfold is_va, prefix. change MAXVA with 274877906944.
  change (2 ^ (39 - 9 * Z.of_nat 0)) with 549755813888. intros. by rewrite !Z.div_small by lia.
Qed.

Lemma prefix_3 va : prefix 3 va = va / PGSIZE.
Proof. done. Qed.

Lemma node_prefix m root k : forall va va',
  (k <= 3)%nat -> prefix k va = prefix k va' -> node m root k va = node m root k va'.
Proof.
  induction k as [|k IH]; intros va va' Hk H; simpl; [done|].
  rewrite (IH va va'); [|lia|by apply prefix_shrink; [lia|]].
  destruct (node m root k va'); [|done]. unfold pte_slot.
  rewrite !PX_prefix by lia. by rewrite H.
Qed.

Lemma slot_bounds p k va :
  (k <= 2)%nat -> p <= pte_slot p k va /\ pte_slot p k va + 8 <= p + PGSIZE.
Proof.
  intros. unfold pte_slot, PGSIZE. pose proof (PX_range (2 - Z.of_nat k) va). lia.
Qed.

(** Slots of one page are equal or disjoint. *)
Lemma slot_disjoint p k va va' :
  (k <= 2)%nat -> PX (2 - Z.of_nat k) va <> PX (2 - Z.of_nat k) va' ->
  pte_slot p k va + 8 <= pte_slot p k va' \/ pte_slot p k va' + 8 <= pte_slot p k va.
Proof. unfold pte_slot. lia. Qed.

(** ** Frame: memory changes outside the pages of the tree *)

Lemma node_frame m m' root k va :
  (forall j p, (j < k)%nat -> node m root j va = Some p ->
     load 8 m' (pte_slot p j va) = load 8 m (pte_slot p j va)) ->
  node m' root k va = node m root k va.
Proof.
  induction k as [|k IH]; intros H; simpl; [done|].
  rewrite IH by (intros; apply H; [lia|done]).
  destruct (node m root k va) as [p|] eqn:E; [|done]. by rewrite (H k p) by (done || lia).
Qed.

Lemma load_out_page m m' p q a n :
  p mod PGSIZE = 0 -> q mod PGSIZE = 0 -> p <> q ->
  p <= a -> a + Z.of_nat n <= p + PGSIZE ->
  (forall x, x < q \/ q + PGSIZE <= x -> m' x = m x) -> load n m' a = load n m a.
Proof.
  intros Hp Hq Hne H1 H2 Hm. apply load_ext. intros x Hx. apply Hm.
  destruct (pages_disjoint p q); auto; lia.
Qed.

(** ** Writing a leaf entry *)

Section Leaf.
Context (end_ : Z) (m : mem) (root va p v : Z).
Hypothesis Wf : pt_wf end_ m root.
Hypothesis Hva : is_va va.
Hypothesis Hp : node m root 2 va = Some p.

Let m' := store 8 m (pte_slot p 2 va) v.

Lemma leaf_store_out x : x < p \/ p + PGSIZE <= x -> m' x = m x.
Proof.
  intros. apply store_out. pose proof (slot_bounds p 2 va). unfold PGSIZE in *. lia.
Qed.

Lemma node_store_leaf k va' :
  (k <= 2)%nat -> is_va va' -> node m' root k va' = node m root k va'.
Proof.
  intros Hk Hva'. apply node_frame. intros j q Hj Hq.
  assert (q <> p).
  { intros ->. destruct (wf_inj _ _ _ Wf j va' 2 va p) as [E _]; auto; lia. }
  pose proof (wf_page _ _ _ Wf j va' q ltac:(lia) Hva' Hq) as [Hqm _].
  pose proof (wf_page _ _ _ Wf 2 va p ltac:(lia) Hva Hp) as [Hpm _].
  destruct (slot_bounds q j va'); [lia|].
  eapply (load_out_page m m' q p); auto using leaf_store_out.
Qed.

Lemma pte_of_store_leaf va' :
  is_va va' -> 0 <= v < 2 ^ 64 ->
  pte_of m' root va' = if va' / PGSIZE =? va / PGSIZE then v else pte_of m root va'.
Proof.
  intros Hva' Hv. unfold pte_of. rewrite node_store_leaf by auto.
  destruct (Z.eqb_spec (va' / PGSIZE) (va / PGSIZE)) as [E|E].
  - rewrite <- !prefix_3 in E. rewrite (node_prefix m root 2 va' va), Hp
      by (lia || (apply prefix_shrink; auto)).
    unfold m', pte_slot. rewrite (PX_prefix 2 va'), (PX_prefix 2 va), E by lia.
    rewrite load_store_same. by rewrite Z.mod_small.
  - destruct (node m root 2 va') as [q|] eqn:Hq; [|done].
    destruct (decide (q = p)) as [->|Hne].
    + destruct (wf_inj _ _ _ Wf 2 va' 2 va p) as [_ E2]; auto.
      unfold m'. rewrite load_store_disjoint; [done|]. apply slot_disjoint; [lia|].
      intros E3. apply E. rewrite <- !prefix_3. symmetry. apply prefix_ext; auto; congruence.
    + pose proof (wf_page _ _ _ Wf 2 va' q ltac:(lia) Hva' Hq) as [Hqm _].
      pose proof (wf_page _ _ _ Wf 2 va p ltac:(lia) Hva Hp) as [Hpm _].
      destruct (slot_bounds q 2 va'); [lia|].
      eapply (load_out_page m m' q p); auto using leaf_store_out.
Qed.

Lemma pt_wf_store_leaf : pt_wf end_ m' root.
Proof.
  destruct Wf as [W1 W2]. split.
  - intros k va' q Hk Hva'. rewrite node_store_leaf by done. eauto.
  - intros k va1 k' va2 q Hk Hk' H1 H2. rewrite !node_store_leaf by done. eauto.
Qed.

Lemma is_node_store_leaf q : is_node m' root q <-> is_node m root q.
Proof.
  unfold is_node. split; intros (k & va' & Hk & Hva' & H); exists k, va';
    rewrite node_store_leaf in *; auto.
Qed.
End Leaf.

(** ** Linking a new, zeroed page below an interior page *)

Lemma has_V_PA2PTE pa : has (Z.lor (PA2PTE pa) PTE_V) PTE_V = true.
Proof.
  unfold has. rewrite Z.land_lor_distr_l. destruct (Z.eqb_spec (Z.lor (Z.land (PA2PTE pa) PTE_V)
    (Z.land PTE_V PTE_V)) 0) as [E|]; [|done].
  apply Z.lor_eq_0_iff in E as [_ E]. discriminate.
Qed.

Lemma load_zero n m a : (forall x, a <= x < a + Z.of_nat n -> m x = 0) -> load n m a = 0.
Proof.
  intros H. rewrite (load_ext n _ (fun _ => 0)) by done. clear.
  unfold load, mread. generalize 0%nat. induction n as [|n IH]; intros i; simpl; [done|]. by rewrite IH.
Qed.

Lemma load_zero_page m q a n :
  q <= a -> a + Z.of_nat n <= q + PGSIZE -> load n (mfill m q 0 PGSIZE) a = 0.
Proof. intros. apply load_zero. intros x Hx. rewrite mfill_in; [done|lia]. Qed.

Section AddNode.
Context (end_ : Z) (m : mem) (root va p q : Z) (k : nat).
Hypothesis Hend : 0 < end_.
Hypothesis Wf : pt_wf end_ m root.
Hypothesis Hva : is_va va.
Hypothesis Hk : (k <= 1)%nat.
Hypothesis Hp : node m root k va = Some p.
Hypothesis Hnone : has (load 8 m (pte_slot p k va)) PTE_V = false.
Hypothesis Hq : kpage end_ q.
Hypothesis Hfresh : ~ is_node m root q.

Let v := Z.lor (PA2PTE q) PTE_V.
Let m' := store 8 (mfill m q 0 PGSIZE) (pte_slot p k va) v.

Lemma add_node_pq : p <> q.
Proof. intros ->. apply Hfresh. exists k, va. auto. Qed.

Lemma add_node_load p' k' va' :
  (k' <= 2)%nat -> is_va va' -> node m root k' va' = Some p' ->
  ~ (k' = k /\ prefix (S k) va' = prefix (S k) va) ->
  load 8 m' (pte_slot p' k' va') = load 8 m (pte_slot p' k' va').
Proof.
  intros Hk' Hva' Hn Hd.
  assert (p' <> q) by (intros ->; apply Hfresh; exists k', va'; auto).
  pose proof (wf_page _ _ _ Wf k' va' p' Hk' Hva' Hn) as [Hpm' _].
  pose proof (wf_page _ _ _ Wf k va p ltac:(lia) Hva Hp) as [Hpm _].
  destruct Hq as [Hqm _]. destruct (slot_bounds p' k' va' Hk').
  destruct (slot_bounds p k va ltac:(lia)).
  transitivity (load 8 (mfill m q 0 PGSIZE) (pte_slot p' k' va')).
  - unfold m'. apply load_store_disjoint. destruct (decide (p' = p)) as [->|].
    + destruct (wf_inj _ _ _ Wf k' va' k va p) as [-> E]; auto.
      apply slot_disjoint; [lia|]. intros E2. apply Hd. split; [done|].
      apply prefix_ext; auto.
    + destruct (pages_disjoint p' p); auto; lia.
  - apply (load_out_page m (mfill m q 0 PGSIZE) p' q); auto. intros. by apply mfill_out.
Qed.

Lemma add_node_node k' va' :
  (k' <= 2)%nat -> is_va va' ->
  node m' root k' va' =
  if decide ((k < k')%nat /\ prefix (S k) va' = prefix (S k) va)
  then (if decide (k' = S k) then Some q else None) else node m root k' va'.
Proof.
  intros Hk' Hva'. induction k' as [|k' IH]; [by rewrite decide_False by lia|].
  simpl node at 1. rewrite IH by lia. case_decide as D.
  - rewrite (decide_True (P := (k < S k')%nat /\ _)) by (split; [lia|tauto]).
    rewrite (decide_False (P := S k' = S k)) by lia.
    case_decide; [|done]. subst k'. unfold m'.
    destruct (slot_bounds q (S k) va' ltac:(lia)). destruct (slot_bounds p k va ltac:(lia)).
    destruct (wf_page _ _ _ Wf k va p ltac:(lia) Hva Hp) as [Hpm _]. destruct Hq as [Hqm _].
    rewrite load_store_disjoint; [by rewrite load_zero_page|].
    destruct (pages_disjoint p q); auto using add_node_pq; lia.
  - destruct (decide (k' = k /\ prefix (S k) va' = prefix (S k) va)) as [[-> E]|D2].
    + rewrite decide_True by (split; [lia|done]). rewrite decide_True by done.
      rewrite (node_prefix _ _ k va' va), Hp by (lia || (apply prefix_shrink; [lia|done])).
      unfold m', pte_slot. rewrite (PX_prefix k va'), (PX_prefix k va), E by lia.
      rewrite load_store_same. change (8 * Z.of_nat 8) with 64.
      assert (0 <= v < 2 ^ 64) as Hv. by (apply pte_u64; done).
      rewrite Z.mod_small by done. unfold v. rewrite has_V_PA2PTE.
      f_equal. destruct Hq. by apply PTE2PA_PA2PTE; [apply Z.mod_divide| unfold PHYSTOP, KERNBASE in *; lia|].
    + rewrite decide_False by (intros [? ?]; apply D2; split; [|done]; destruct (decide (k' = k)); [done|];
        exfalso; apply D; split; [lia|done]).
      simpl. destruct (node m root k' va') as [p'|] eqn:E; [|done].
      rewrite add_node_load; auto. lia.
Qed.

Lemma add_node_stop k' va' :
  (k < k')%nat -> (k' <= 2)%nat -> prefix (S k) va' = prefix (S k) va -> node m root k' va' = None.
Proof.
  intros H1 H2 E. assert (node m root (S k) va' = None) as Hn.
  { rewrite (node_prefix _ _ (S k) va' va) by (lia || done). simpl. by rewrite Hp, Hnone. }
  replace k' with (k' - S k + S k)%nat by lia. clear H1 H2. induction (k' - S k)%nat; [done|].
  simpl. by rewrite IHn.
Qed.

Lemma add_node_is_node x : is_node m' root x <-> is_node m root x \/ x = q.
Proof.
  split.
  - intros (k' & va' & H1 & H2 & H3). rewrite add_node_node in H3 by done.
    repeat case_decide; simplify_eq; [by right|]. left. exists k', va'. auto.
  - intros [(k' & va' & H1 & H2 & H3)| ->].
    + exists k', va'. split_and!; auto. rewrite add_node_node, decide_False; auto.
      intros [? E]. rewrite (add_node_stop k' va') in H3 by (lia || done). done.
    + exists (S k), va. split_and!; auto; [lia|]. rewrite add_node_node by (lia || done).
      by rewrite !decide_True by (lia || done).
Qed.

Lemma add_node_pte va' : is_va va' -> pte_of m' root va' = pte_of m root va'.
Proof.
  intros Hva'. unfold pte_of. rewrite add_node_node by done. case_decide as D.
  - rewrite add_node_stop by (lia || tauto). case_decide; [|done].
    unfold m'. destruct (slot_bounds q 2 va' ltac:(lia)). destruct (slot_bounds p k va ltac:(lia)).
    destruct (wf_page _ _ _ Wf k va p ltac:(lia) Hva Hp) as [Hpm _]. destruct Hq as [Hqm _].
    rewrite load_store_disjoint; [by rewrite load_zero_page|].
    destruct (pages_disjoint p q); auto using add_node_pq; lia.
  - destruct (node m root 2 va') as [p'|] eqn:E; [|done].
    apply add_node_load; auto. lia.
Qed.

Lemma add_node_wf : pt_wf end_ m' root.
Proof.
  split.
  - intros k' va' x H1 H2. rewrite add_node_node by done. repeat case_decide; intros; simplify_eq; auto.
    by eapply (wf_page _ _ _ Wf).
  - intros k1 va1 k2 va2 x H1 H2 V1 V2. rewrite !add_node_node by done.
    repeat case_decide; intros; simplify_eq.
    + split; [done|]. destruct H, H3. congruence.
    + exfalso. apply Hfresh. exists k2, va2. auto.
    + exfalso. apply Hfresh. exists k1, va1. auto.
    + by eapply (wf_inj _ _ _ Wf).
Qed.

Lemma add_node_out x :
  (x < p \/ p + PGSIZE <= x) -> (x < q \/ q + PGSIZE <= x) -> m' x = m x.
Proof.
  intros H1 H2. unfold m'. destruct (slot_bounds p k va ltac:(lia)).
  rewrite store_out by lia. by apply mfill_out.
Qed.
End AddNode.

(** ** Address spaces and the allocator together *)

(** [root] is a page table whose pages are in use, [l] is the free list. *)
Record vm_inv (s : kernel) (l : list Z) (root : Z) : Prop := {
  vm_kmem : kmem_inv s l;
  vm_wf : pt_wf (k_end s) (k_mem s) root;
  vm_used p : is_node (k_mem s) root p -> p ∉ l;
  vm_lock : LkKmem ∉ k_held s;
}.

Definition in_page (p x : Z) : Prop := p <= x < p + PGSIZE.

(** What growing a page table may change: its own pages and free pages. *)
Record vm_grow (root : Z) (s : kernel) (l : list Z) (s' : kernel) (l' : list Z) : Prop := {
  vg_state : s' = s <| k_mem := k_mem s' |> <| k_freelist := k_freelist s' |>;
  vg_suffix : l' `suffix_of` l;
  vg_new p : is_node (k_mem s') root p -> is_node (k_mem s) root p \/ p ∈ l;
  vg_old p : is_node (k_mem s) root p -> is_node (k_mem s') root p;
  vg_mem x : (forall p, is_node (k_mem s) root p \/ p ∈ l -> ~ in_page p x) ->
    k_mem s' x = k_mem s x;
}.

Lemma vm_grow_refl root s l : vm_grow root s l s l.
Proof. split; auto. by destruct s. Qed.

Lemma vm_grow_trans root s1 l1 s2 l2 s3 l3 :
  vm_grow root s1 l1 s2 l2 -> vm_grow root s2 l2 s3 l3 -> vm_grow root s1 l1 s3 l3.
Proof.
  intros [A1 A2 A3 A4 A5] [B1 B2 B3 B4 B5]. split.
  - rewrite B1, A1. by destruct s1.
  - by trans l2.
  - intros p Hp. destruct (B3 p Hp) as [|Hl]; [auto|]. right. by eapply elem_of_suffix.
  - auto.
  - intros x Hx. rewrite B5; [by apply A5|]. intros p [Hp|Hp].
    + apply Hx. auto.
    + apply Hx. right. by eapply elem_of_suffix.
Qed.

(** ** walk *)

Lemma read_pte_ok pte s e : read_pte pte (mkWorld s e) = Ok (load 8 (k_mem s) pte) (mkWorld s e).
Proof. done. Qed.

(** Kernel memory with one more page-table page. *)
Definition grown (p q va : Z) (k : nat) (s : kernel) : kernel :=
  (after_kalloc q s) <| k_mem := store 8 (mfill (k_mem s) q 0 PGSIZE) (pte_slot p k va)
    (Z.lor (PA2PTE q) PTE_V) |>.

Lemma mem_upd_upd (s : kernel) f g :
  s <| k_mem ::= f |> <| k_mem ::= g |> = s <| k_mem := g (f (k_mem s)) |>.
Proof. by destruct s. Qed.

Lemma grown_eq p q va k s :
  (after_kalloc q s) <| k_mem ::= fun m => mfill m q 0 PGSIZE |>
    <| k_mem ::= fun m => store 8 m (pte_slot p k va) (Z.lor (PA2PTE q) PTE_V) |> = grown p q va k s.
Proof.
  rewrite mem_upd_upd. unfold grown.
  replace (mfill (k_mem (after_kalloc q s)) q 0 PGSIZE) with (mfill (k_mem s) q 0 PGSIZE); [done|].
  symmetry. apply mfill_mfill.
Qed.

Lemma grown_inv root p q va k s l :
  vm_inv s (q :: l) root -> is_va va -> (k <= 1)%nat -> node (k_mem s) root k va = Some p ->
  has (load 8 (k_mem s) (pte_slot p k va)) PTE_V = false ->
  vm_inv (grown p q va k s) l root /\ vm_grow root s (q :: l) (grown p q va k s) l /\
  node (k_mem (grown p q va k s)) root (S k) va = Some q /\
  forall va', is_va va' -> pte_of (k_mem (grown p q va k s)) root va' = pte_of (k_mem s) root va'.
Proof.
  intros [Hi Hw Hu Hl] Hva Hk Hp Hn.
  assert (0 < k_end s) as He by apply Hi.
  assert (kpage (k_end s) q) as Hq by (destruct Hi as [_ _ _ [? _]%Forall_cons]; done).
  assert (~ is_node (k_mem s) root q) as Hf by (intros H%Hu; set_solver).
  assert (is_node (k_mem s) root p) as Hpn by (exists k, va; auto).
  assert (q ∉ l) as Hql by (destruct Hi as [_ _ [? _]%NoDup_cons _]; done).
  pose proof (wf_page _ _ _ Hw k va p ltac:(lia) Hva Hp) as [Hpm _].
  split_and!; [split| split | |].
  - apply (kmem_inv_mem _ _ _ (after_kalloc_inv _ _ _ Hi)). intros x y Hx Hy. cbn.
    assert (kpage (k_end s) x) as [Hxm _].
    { destruct Hi as [_ _ _ [_ Hfa]%Forall_cons]. rewrite Forall_forall in Hfa. auto. }
    assert (x <> p) by (intros ->; apply Hu in Hpn; set_solver).
    assert (x <> q) by set_solver. destruct Hq as [Hqm _].
    destruct (slot_bounds p k va ltac:(lia)).
    destruct (pages_disjoint x p), (pages_disjoint x q); auto;
      rewrite store_out, !mfill_out; auto; lia.
  - eapply add_node_wf; eauto.
  - cbn. intros x Hx. eapply add_node_is_node in Hx; eauto.
    destruct Hx as [Hx| ->]; [|done]. apply Hu in Hx. set_solver.
  - done.
  - unfold grown, after_kalloc. by destruct s.
  - apply suffix_cons_r. done.
  - cbn. intros x Hx. eapply add_node_is_node in Hx; eauto. set_solver.
  - cbn. intros x Hx. eapply add_node_is_node; eauto.
  - cbn. intros x Hx. assert (~ in_page p x) by (apply Hx; auto).
    assert (~ in_page q x) by (apply Hx; set_solver).
    unfold in_page in *. eapply add_node_out; lia.
  - cbn [grown k_mem upd upd_k_mem]. rewrite add_node_node with (end_ := k_end s); auto; [|lia].
    by rewrite !decide_True by (lia || done).
  - intros va' Hva'. eapply add_node_pte; eauto.
Qed.

Definition walk_result (root va : Z) (s : kernel) (l : list Z) (s' : kernel) (l' : list Z) (r : Z) : Prop :=
  vm_inv s' l' root /\ vm_grow root s l s' l' /\
  (forall va', is_va va' -> pte_of (k_mem s') root va' = pte_of (k_mem s) root va') /\
  ((r = 0 /\ l' = []) \/ exists p, node (k_mem s') root 2 va = Some p /\ r = pte_slot p 2 va).

Lemma walk_loop_alloc root va e level : forall k p s l,
  (level + k = 2)%nat -> is_va va -> vm_inv s l root -> node (k_mem s) root k va = Some p ->
  exists r s' l', walk_loop level p va true (mkWorld s e) = Ok r (mkWorld s' e) /\
    walk_result root va s l s' l' r.
Proof.
  induction level as [|level IH]; intros k p s l Hk Hva Hi Hp.
  - exists (pte_slot p 2 va), s, l. assert (k = 2)%nat as -> by lia. split; [done|].
    split_and!; auto using vm_grow_refl. right. eauto.
  - cbn [walk_loop]. rewrite (bind_ok _ _ _ _ _ (read_pte_ok _ _ _)).
    replace (p + 8 * PX (Z.of_nat (S level)) va) with (pte_slot p k va)
      by (unfold pte_slot; do 3 f_equal; lia).
    destruct (has (load 8 (k_mem s) (pte_slot p k va)) PTE_V) eqn:E.
    + apply (IH (S k)); auto; [lia|]. simpl. by rewrite Hp, E.
    + cbn [negb]. pose proof (vm_lock _ _ _ Hi) as Hl. destruct l as [|q l].
      * assert (k_freelist s = 0) as Hf by (by destruct Hi as [[_ Hc _ _] _ _ _]).
        exists 0, s, []. split; [|split_and!; auto using vm_grow_refl].
        unfold bind. rewrite kalloc_ok by done. cbn [w_k]. by rewrite Hf.
      * destruct (kmem_head _ _ _ (vm_kmem _ _ _ Hi)) as [Hf Hq].
        destruct (grown_inv root p q va k s l) as (G1 & G2 & G3 & G4); auto; [lia|].
        destruct (IH (S k) q (grown p q va k s) l) as (r & s' & l' & W1 & W2 & W3 & W4 & W5); auto; [lia|].
        exists r, s', l'. split.
        -- unfold bind at 1. rewrite kalloc_ok by done. cbn [w_k]. rewrite Hf.
           destruct (Z.eqb_spec q 0); [done|]. destruct (Z.eqb_spec q 0); [done|].
           unfold write_pte, mod_mem. do 2 kstep. rewrite <- W1, <- grown_eq. done.
        -- split_and!; auto; [by eapply vm_grow_trans|]. intros. rewrite W4; auto.
Qed.

Lemma walk_alloc root va s l e :
  is_va va -> vm_inv s l root ->
  exists r s' l', walk root va true (mkWorld s e) = Ok r (mkWorld s' e) /\
    walk_result root va s l s' l' r.
Proof.
  intros Hva Hi. unfold walk. destruct (Z.leb_spec MAXVA va); [unfold is_va in *; lia|].
  by apply (walk_loop_alloc root va e 2 0).
Qed.

(** Without [alloc], the walk only reads. *)
Lemma walk_loop_lookup root va s e level : forall k p,
  (level + k = 2)%nat -> node (k_mem s) root k va = Some p ->
  walk_loop level p va false (mkWorld s e) =
  Ok (match node (k_mem s) root 2 va with Some q => pte_slot q 2 va | None => 0 end) (mkWorld s e).
Proof.
  induction level as [|level IH]; intros k p Hk Hp.
  - assert (k = 2)%nat as -> by lia. by rewrite Hp.
  - cbn [walk_loop]. rewrite (bind_ok _ _ _ _ _ (read_pte_ok _ _ _)).
    replace (p + 8 * PX (Z.of_nat (S level)) va) with (pte_slot p k va)
      by (unfold pte_slot; do 3 f_equal; lia).
    destruct (has (load 8 (k_mem s) (pte_slot p k va)) PTE_V) eqn:E.
    + apply (IH (S k)); auto; [lia|]. simpl. by rewrite Hp, E.
    + cbn [negb]. replace (node (k_mem s) root 2 va) with (@None Z); [done|]. symmetry.
      assert (node (k_mem s) root (S k) va = None) as Hn by (simpl; by rewrite Hp, E).
      destruct k as [|[|k]]; [|done|lia]. simpl in *. by rewrite Hn.
Qed.

Lemma walk_lookup root va s e :
  is_va va ->
  walk root va false (mkWorld s e) =
  Ok (match node (k_mem s) root 2 va with Some q => pte_slot q 2 va | None => 0 end) (mkWorld s e).
Proof.
  intros Hva. unfold walk. destruct (Z.leb_spec MAXVA va); [unfold is_va in *; lia|].
  by apply (walk_loop_lookup root va s e 2 0).
Qed.

Lemma slot_nonzero end_ m root va p :
  0 < end_ -> pt_wf end_ m root -> is_va va -> node m root 2 va = Some p -> pte_slot p 2 va <> 0.
Proof.
  intros He Hw Hva Hp. pose proof (wf_page _ _ _ Hw 2 va p ltac:(lia) Hva Hp) as [_ ?].
  destruct (slot_bounds p 2 va ltac:(lia)). lia.
Qed.

(** The physical page [va] is mapped to for user code, 0 if there is none. *)
Definition upage (m : mem) (root va : Z) : Z :=
  let v := pte_of m root va in if has v PTE_V && has v PTE_U then PTE2PA v else 0.

Lemma walkaddr_ok root va s e :
  0 < k_end s -> pt_wf (k_end s) (k_mem s) root -> 0 <= va ->
  walkaddr root va (mkWorld s e) =
  Ok (if va <? MAXVA then upage (k_mem s) root va else 0) (mkWorld s e).
Proof.
  intros He Hw Hva. unfold walkaddr. destruct (Z.leb_spec MAXVA va), (Z.ltb_spec va MAXVA);
    try lia; [done|]. rewrite (bind_ok _ _ _ _ _ (walk_lookup root va s e ltac:(split; lia))).
  unfold upage, pte_of. destruct (node (k_mem s) root 2 va) as [p|] eqn:E; [|done].
  destruct (Z.eqb_spec (pte_slot p 2 va) 0) as [Z0|_].
  { exfalso. by eapply (slot_nonzero (k_end s)); eauto. }
  rewrite (bind_ok _ _ _ _ _ (read_pte_ok _ _ _)). by destruct (has _ PTE_V), (has _ PTE_U).
Qed.

(** ** mappages *)

Definition set_leaf (p va v : Z) (s : kernel) : kernel :=
  s <| k_mem ::= fun m => store 8 m (pte_slot p 2 va) v |>.

Lemma set_leaf_inv root p va v s l :
  vm_inv s l root -> is_va va -> node (k_mem s) root 2 va = Some p ->
  vm_inv (set_leaf p va v s) l root /\ vm_grow root s l (set_leaf p va v s) l.
Proof.
  intros [Hi Hw Hu Hl] Hva Hp.
  assert (is_node (k_mem s) root p) as Hpn by (exists 2%nat, va; auto).
  pose proof (wf_page _ _ _ Hw 2 va p ltac:(lia) Hva Hp) as [Hpm _].
  destruct (slot_bounds p 2 va ltac:(lia)).
  split; split.
  - apply kmem_inv_mem; [done|]. intros x y Hx Hy.
    assert (x <> p) by (intros ->; by apply (Hu p)).
    assert (kpage (k_end s) x) as [Hxm _].
    { destruct Hi as [_ _ _ Hfa]. rewrite Forall_forall in Hfa. auto. }
    destruct (pages_disjoint x p); auto; rewrite store_out; auto; lia.
  - by apply pt_wf_store_leaf.
  - cbn. intros x. erewrite is_node_store_leaf by eauto. auto.
  - done.
  - unfold set_leaf. by destruct s.
  - done.
  - cbn. intros x. erewrite is_node_store_leaf by eauto. auto.
  - cbn. intros x. erewrite is_node_store_leaf by eauto. auto.
  - cbn. intros x Hx. assert (~ in_page p x) by auto. unfold in_page in *.
    apply store_out. lia.
Qed.

(** [pte_of] after [j] pages starting at [a] were mapped to [pa] and up. *)
Definition mapped (m : mem) (root a pa perm : Z) (j : nat) (va' : Z) : Z :=
  let d := va' / PGSIZE - a / PGSIZE in
  if (0 <=? d) && (d <? Z.of_nat j)
  then Z.lor (Z.lor (PA2PTE (pa + d * PGSIZE)) perm) PTE_V else pte_of m root va'.

Definition map_result (root a pa perm : Z) (n : nat) (s : kernel) (l : list Z) (s' : kernel) (l' : list Z) (r : Z) : Prop :=
  vm_inv s' l' root /\ vm_grow root s l s' l' /\
  exists j : nat, ((r = 0 /\ j = n) \/ (r = -1 /\ l' = [] /\ (j < n)%nat)) /\
  forall va', is_va va' -> pte_of (k_mem s') root va' = mapped (k_mem s) root a pa perm j va'.

Lemma mapped_0 m root a pa perm va' : mapped m root a pa perm 0 va' = pte_of m root va'.
Proof.
  unfold mapped. generalize (va' / PGSIZE - a / PGSIZE). intros d.
  destruct (Z.leb_spec 0 d), (Z.ltb_spec d (Z.of_nat 0)); done || lia.
Qed.

Lemma page_step a : (a + PGSIZE) / PGSIZE = a / PGSIZE + 1.
Proof. unfold PGSIZE. rewrite <- (Z.div_add a 1 4096) by lia. done. Qed.

(** One page, then [j] pages, is [j + 1] pages. *)
Lemma mapped_S m m1 root a pa perm j va' :
  (forall va', is_va va' -> pte_of m1 root va' =
    if va' / PGSIZE =? a / PGSIZE then Z.lor (Z.lor (PA2PTE pa) perm) PTE_V else pte_of m root va') ->
  is_va va' ->
  mapped m1 root (a + PGSIZE) (pa + PGSIZE) perm j va' = mapped m root a pa perm (S j) va'.
Proof.
  intros H Hva. unfold mapped. rewrite page_step, H by done.
  set (d := va' / PGSIZE). set (b := a / PGSIZE).
  destruct (Z.leb_spec 0 (d - (b + 1))), (Z.ltb_spec (d - (b + 1)) (Z.of_nat j)),
    (Z.leb_spec 0 (d - b)), (Z.ltb_spec (d - b) (Z.of_nat (S j))), (Z.eqb_spec d b);
    cbn [andb]; try lia; try done.
  - do 3 f_equal. lia.
  - do 3 f_equal. lia.
Qed.

Section Mappages.
Context (root perm : Z) (e : list (kernel -> kernel)).
Hypothesis Hperm : 0 <= perm < 1024.

Lemma perm_V_range : 0 <= Z.lor perm PTE_V < 1024.
Proof.
  assert (0 <= PTE_V) as HV by done.
  assert (0 <= Z.lor perm PTE_V) as Hl by (apply Z.lor_nonneg; lia). split; [done|].
  destruct (Z.eq_dec (Z.lor perm PTE_V) 0) as [->|]; [lia|].
  apply (Z.log2_lt_pow2 _ 10); [lia|].
  rewrite Z.log2_lor by lia. apply Z.max_lub_lt; [|done].
  destruct (Z.eq_dec perm 0) as [->|]; [done|]. apply Z.log2_lt_pow2; lia.
Qed.

Lemma perm_u64 pa : 0 <= Z.lor (Z.lor (PA2PTE pa) perm) PTE_V < 2 ^ 64.
Proof. rewrite <- Z.lor_assoc. apply pte_u64, perm_V_range. Qed.

(** One round of the loop of mappages() on an unmapped page. *)
Lemma map_one a s l :
  is_va a -> vm_inv s l root -> has (pte_of (k_mem s) root a) PTE_V = false ->
  exists r s1 l1, walk root a true (mkWorld s e) = Ok r (mkWorld s1 e) /\
    ((r = 0 /\ map_result root a 0 perm 1 s l s1 l1 (-1)) \/
     (r <> 0 /\ has (load 8 (k_mem s1) r) PTE_V = false /\
      forall pa, exists s2, write_pte r (Z.lor (Z.lor (PA2PTE pa) perm) PTE_V) (mkWorld s1 e) = Ok tt (mkWorld s2 e)
        /\ map_result root a pa perm 1 s l s2 l1 0)).
Proof.
  intros Hva Hi Hn. destruct (walk_alloc root a s l e Hva Hi) as (r & s1 & l1 & W1 & W2 & W3 & W4 & W5).
  exists r, s1, l1. split; [done|]. destruct W5 as [[-> ->]|(p & Hp & ->)].
  - left. split; [done|]. split_and!; auto. exists 0%nat. split; [right; auto with lia|].
    intros. rewrite mapped_0. auto.
  - right. split; [|split].
    + eapply (slot_nonzero (k_end s1)); eauto; apply W2.
    + rewrite <- Hn, <- W4 by done. unfold pte_of. by rewrite Hp.
    + intros pa. set (v := Z.lor _ PTE_V). destruct (set_leaf_inv root p a v s1 l1) as [I1 I2]; auto.
      exists (set_leaf p a v s1). split; [done|]. split_and!; auto; [by eapply vm_grow_trans|].
      exists 1%nat. split; [auto|]. intros va' Hva'. cbn.
      rewrite (pte_of_store_leaf (k_end s1)) by (done || apply W2 || apply perm_u64).
      rewrite W4 by done. unfold mapped.
      destruct (Z.eqb_spec (va' / PGSIZE) (a / PGSIZE)) as [E|E].
      * rewrite E, Z.sub_diag, Z.add_0_r. done.
      * revert E. generalize (va' / PGSIZE), (a / PGSIZE). intros d b E.
        destruct (Z.leb_spec 0 (d - b)), (Z.ltb_spec (d - b) (Z.of_nat 1)); done || lia.
Qed.

Lemma mappages_loop_ok n : forall fuel a pa s l,
  (n < fuel)%nat -> a mod PGSIZE = 0 -> is_va a -> is_va (a + Z.of_nat n * PGSIZE) ->
  0 <= pa -> pa + (Z.of_nat n + 1) * PGSIZE < 2 ^ 56 -> vm_inv s l root ->
  (forall i : nat, (i <= n)%nat -> has (pte_of (k_mem s) root (a + Z.of_nat i * PGSIZE)) PTE_V = false) ->
  exists r s' l', mappages_loop fuel root a (a + Z.of_nat n * PGSIZE) pa perm (mkWorld s e)
      = Ok r (mkWorld s' e) /\
    map_result root a pa perm (S n) s l s' l' r.
Proof.
  assert (PGSIZE = 4096) as PG by done. assert (MAXVA = 274877906944) as MV by done.
  induction n as [|n IH]; intros [|f] a pa s l Hf Ha Hva Hva2 Hpa Hpa2 Hi Hn; try lia; cbn [mappages_loop];
    destruct (map_one a s l) as (r & s1 & l1 & W1 & [(-> & I1 & I2 & j & [[]|(_ & -> & Hj)] & I3)|(Hr & Hv & W2)]); auto;
    try (rewrite <- (Hn 0%nat) by lia; do 3 f_equal; lia); try lia;
    run W1.
  1, 3: exists (-1), s1, []; split; [done|]; split_and!; auto; exists 0%nat; split; [right; auto with lia|];
    intros; rewrite I3 by done; assert (j = 0)%nat as -> by lia; by rewrite !mapped_0.
  - destruct (Z.eqb_spec r 0); [done|]. rewrite (bind_ok _ _ _ _ _ (read_pte_ok _ _ _)), Hv.
    destruct (W2 pa) as (s2 & W3 & W4). run W3.
    rewrite Z.mul_0_l, Z.add_0_r, Z.eqb_refl. exists 0, s2, l1. done.
  - destruct (Z.eqb_spec r 0); [done|]. rewrite (bind_ok _ _ _ _ _ (read_pte_ok _ _ _)), Hv.
    destruct (W2 pa) as (s2 & W3 & I1 & I2 & j & [[_ ->]|(? & _)] & I3); [|done].
    run W3. destruct (Z.eqb_spec a (a + Z.of_nat (S n) * PGSIZE)); [lia|].
    unfold is_va in *. rewrite !u64_small by lia.
    replace (a + Z.of_nat (S n) * PGSIZE) with ((a + PGSIZE) + Z.of_nat n * PGSIZE) by lia.
    assert (forall va', is_va va' -> pte_of (k_mem s2) root va' =
      if va' / PGSIZE =? a / PGSIZE then Z.lor (Z.lor (PA2PTE pa) perm) PTE_V
      else pte_of (k_mem s) root va') as I3'.
    { intros va' Hva'. rewrite I3 by done. unfold mapped.
      generalize (va' / PGSIZE), (a / PGSIZE). intros d b. destruct (Z.eqb_spec d b) as [->|].
      - rewrite Z.sub_diag, Z.add_0_r. done.
      - destruct (Z.leb_spec 0 (d - b)), (Z.ltb_spec (d - b) (Z.of_nat 1)); done || lia. }
    destruct (IH f (a + PGSIZE) (pa + PGSIZE) s2 l1) as (r' & s3 & l3 & X1 & X2 & X3 & j & X4 & X5); auto; try lia.
    + rewrite <- (Z.mod_add a 1 PGSIZE) in Ha by lia. by rewrite Z.mul_1_l in Ha.
    + intros i Hin. rewrite I3' by (unfold is_va; lia).
      replace (a + PGSIZE + Z.of_nat i * PGSIZE) with (a + Z.of_nat (S i) * PGSIZE) by lia.
      destruct (Z.eqb_spec ((a + Z.of_nat (S i) * PGSIZE) / PGSIZE) (a / PGSIZE)) as [E|]; [|apply Hn; lia].
      rewrite Z.div_add in E by lia. lia.
    + exists r', s3, l3. split; [done|]. split_and!; auto; [by eapply vm_grow_trans|].
      exists (S j). split; [destruct X4 as [[? ->]|(? & ? & ?)]; [left|right]; auto with lia|].
      intros va' Hva'. rewrite X5 by done. by apply mapped_S.
Qed.
End Mappages.
