(* ===== verification/VmSpec.v ===== *)
(** What vm.c guarantees: mappages() as an update of the map from virtual to
    physical pages, copyout() and copyin() as reads and writes of the user's
    virtual memory. *)

From S2P Require Import Prelude Layout Strings Kernel Kalloc Vm PageTable.

Lemma pte_of_page m root va va' :
  va / PGSIZE = va' / PGSIZE -> pte_of m root va = pte_of m root va'.
Proof.
  rewrite <- !prefix_3. intros E. unfold pte_of.
  rewrite (node_prefix m root 2 va va') by (lia || (apply prefix_shrink; auto)).
  unfold pte_slot. rewrite (PX_prefix 2 va), (PX_prefix 2 va'), E by lia. done.
Qed.

Lemma upage_page m root va va' :
  va / PGSIZE = va' / PGSIZE -> upage m root va = upage m root va'.
Proof. intros E. unfold upage. by rewrite (pte_of_page _ _ _ _ E). Qed.

(** The number of pages that overlap [va, va + size). *)
Definition npages (va size : Z) : nat := Z.to_nat ((va + size - 1) / PGSIZE - va / PGSIZE + 1).

Lemma mappages_ok root va size pa perm s l e :
  vm_inv s l root -> 0 <= perm < 1024 -> 0 <= va -> 0 < size -> va + size <= MAXVA ->
  0 <= pa < 2 ^ 55 ->
  (forall x, va <= x < va + size -> has (pte_of (k_mem s) root x) PTE_V = false) ->
  exists r s' l', mappages root va size pa perm (mkWorld s e) = Ok r (mkWorld s' e) /\
    map_result root (PGROUNDDOWN va) pa perm (npages va size) s l s' l' r.
Proof.
  intros Hi Hperm Hva Hs Hmax Hpa Hn. unfold mappages. destruct (Z.eqb_spec size 0); [lia|].
  assert (MAXVA = 274877906944) as MV by done. assert (PGSIZE = 4096) as PG by done.
  rewrite (u64_small (va + size - 1)) by lia.
  rewrite (PGROUNDDOWN_eq va), (PGROUNDDOWN_eq (va + size - 1)) by lia. unfold npages.
  assert (va / PGSIZE <= (va + size - 1) / PGSIZE) by (apply Z.div_le_mono; lia).
  assert (0 <= va / PGSIZE) by (apply Z.div_pos; lia).
  assert ((va + size - 1) / PGSIZE * PGSIZE <= va + size - 1) by (rewrite Z.mul_comm; apply Z.mul_div_le; lia).
  assert (va / PGSIZE * PGSIZE <= va) by (rewrite Z.mul_comm; apply Z.mul_div_le; lia).
  assert (va < va / PGSIZE * PGSIZE + PGSIZE) by (pose proof (Z.mod_pos_bound va PGSIZE); pose proof (Z.div_mod va PGSIZE); lia).
  set (a := va / PGSIZE) in *. set (b := (va + size - 1) / PGSIZE) in *.
  replace (Z.to_nat (b - a + 1)) with (S (Z.to_nat (b - a))) by lia.
  assert (b * PGSIZE = a * PGSIZE + Z.of_nat (Z.to_nat (b - a)) * PGSIZE) as E by lia. rewrite E.
  apply mappages_loop_ok; auto.
  - rewrite u64_small by lia. rewrite (Z.add_comm (a * PGSIZE)), Z.add_simpl_r, Z.div_mul by lia. lia.
  - by rewrite Z.mod_mul by lia.
  - unfold is_va. lia.
  - unfold is_va. lia.
  - lia.
  - lia.
  - intros i Hin. rewrite <- (Hn (Z.max va (a * PGSIZE + Z.of_nat i * PGSIZE))) by lia.
    f_equal. apply pte_of_page. destruct (decide (i = 0)%nat) as [->|].
    + rewrite Z.mul_0_l, Z.add_0_r, Z.max_l by lia. by rewrite Z.div_mul by lia.
    + f_equal. lia.
Qed.

(** ** User memory *)

(** A user address space: mapped pages are distinct pages of their own. *)
Record uspace (s : kernel) (l : list Z) (root : Z) : Prop := {
  us_vm : vm_inv s l root;
  us_leaf va : is_va va -> upage (k_mem s) root va <> 0 ->
    kpage (k_end s) (upage (k_mem s) root va) /\
    ~ is_node (k_mem s) root (upage (k_mem s) root va) /\ upage (k_mem s) root va ∉ l;
  us_inj va va' : is_va va -> is_va va' -> upage (k_mem s) root va <> 0 ->
    upage (k_mem s) root va = upage (k_mem s) root va' -> va / PGSIZE = va' / PGSIZE;
}.

Lemma uspace_ext s s' l root :
  uspace s l root -> k_mem s' = k_mem s -> k_end s' = k_end s -> k_freelist s' = k_freelist s ->
  LkKmem ∉ k_held s' -> uspace s' l root.
Proof.
  intros [[V1 V2 V3 V4] U2 U3] Em Ee Ef Hl. split.
  - split; rewrite ?Em, ?Ee; auto. destruct V1 as [K1 K2 K3 K4]. split; rewrite ?Em, ?Ee, ?Ef; auto.
  - intros va. rewrite Em, Ee. auto.
  - intros va va'. rewrite Em. auto.
Qed.

(** The byte at user address [va], and whether user code can access it. *)
Definition uload (m : mem) (root va : Z) : Z := m (upage m root va + va mod PGSIZE).
Definition umapped (m : mem) (root va : Z) : Prop := is_va va /\ upage m root va <> 0.

Section Write.
Context (s : kernel) (l : list Z) (root va0 off : Z) (bytes : list Z).
Hypothesis Hu : uspace s l root.
Hypothesis Hva : is_va va0.
Hypothesis Hal : va0 mod PGSIZE = 0.
Hypothesis Hmap : upage (k_mem s) root va0 <> 0.
Hypothesis Hoff : 0 <= off.
Hypothesis Hlen : off + Z.of_nat (length bytes) <= PGSIZE.

Let pa0 := upage (k_mem s) root va0.
Let s' := s <| k_mem ::= fun m => mwrite m (pa0 + off) bytes |>.

Lemma uwrite_out x : ~ in_page pa0 x -> k_mem s' x = k_mem s x.
Proof. intros Hx. apply mwrite_out. unfold in_page in Hx. lia. Qed.

Lemma uwrite_load p k va : (k <= 2)%nat -> is_va va -> node (k_mem s) root k va = Some p ->
  load 8 (k_mem s') (pte_slot p k va) = load 8 (k_mem s) (pte_slot p k va).
Proof.
  intros Hk Hv Hn. destruct (us_leaf _ _ _ Hu va0 Hva Hmap) as ([Hm _] & Hnn & _).
  assert (p <> pa0) by (intros ->; apply Hnn; exists k, va; auto).
  destruct (slot_bounds p k va Hk).
  destruct (wf_page _ _ _ (vm_wf _ _ _ (us_vm _ _ _ Hu)) k va p Hk Hv Hn) as [Hpm _].
  apply (load_out_page (k_mem s) (k_mem s') p pa0); auto.
  intros. apply uwrite_out. unfold in_page. lia.
Qed.

Lemma uwrite_node k va : (k <= 2)%nat -> is_va va ->
  node (k_mem s') root k va = node (k_mem s) root k va.
Proof. intros. apply node_frame. intros. apply uwrite_load; auto. lia. Qed.

Lemma uwrite_pte va : is_va va -> pte_of (k_mem s') root va = pte_of (k_mem s) root va.
Proof.
  intros. unfold pte_of. rewrite uwrite_node by auto. destruct (node _ _ _ _) eqn:E; [|done].
  by apply uwrite_load.
Qed.

Lemma uwrite_upage va : is_va va -> upage (k_mem s') root va = upage (k_mem s) root va.
Proof. intros. unfold upage. by rewrite uwrite_pte. Qed.

Lemma uwrite_is_node p : is_node (k_mem s') root p <-> is_node (k_mem s) root p.
Proof. split; intros (k & va & H1 & H2 & H3); exists k, va; rewrite uwrite_node in *; auto. Qed.

Lemma uwrite_uspace : uspace s' l root.
Proof.
  destruct Hu as [[H1 H2 H3 H4] HL HI]. destruct (HL va0 Hva Hmap) as ([Hm _] & Hnn & Hnl).
  split; [split| |].
  - apply kmem_inv_mem; [done|]. intros p x Hp Hx. apply uwrite_out.
    destruct H1 as [_ _ _ Hf]. rewrite Forall_forall in Hf. destruct (Hf p Hp) as [Hpm _].
    assert (p <> pa0) by (intros ->; done). unfold in_page.
    destruct (pages_disjoint p pa0); auto; lia.
  - split.
    + intros k va p Hk Hv. rewrite uwrite_node by done. by apply H2.
    + intros k va k' va' p Hk Hk' Hv Hv'. rewrite !uwrite_node by done. by apply H2.
  - intros p. rewrite uwrite_is_node. auto.
  - done.
  - intros va Hv. rewrite uwrite_upage, uwrite_is_node by done. by apply HL.
  - intros va va' Hv Hv'. rewrite !uwrite_upage by done. by apply HI.
Qed.

Lemma uwrite_uload y : umapped (k_mem s) root y ->
  uload (k_mem s') root y =
  if (va0 + off <=? y) && (y <? va0 + off + Z.of_nat (length bytes))
  then nth (Z.to_nat (y - (va0 + off))) bytes 0 else uload (k_mem s) root y.
Proof.
  intros [Hy Hm]. unfold uload. rewrite uwrite_upage by done.
  assert (PGSIZE = 4096) as PG by done.
  pose proof (Z.mod_pos_bound y PGSIZE ltac:(lia)). pose proof (Z.div_mod y PGSIZE ltac:(lia)).
  pose proof (Z.div_mod va0 PGSIZE ltac:(lia)).
  destruct (decide (y / PGSIZE = va0 / PGSIZE)) as [E|E].
  - rewrite (upage_page _ _ y va0 E). fold pa0. unfold s', mwrite; cbn.
    rewrite E in *. replace (y mod PGSIZE) with (y - va0) in * by lia.
    replace (pa0 + (y - va0) - (pa0 + off)) with (y - (va0 + off)) by lia.
    destruct (Z.leb_spec (pa0 + off) (pa0 + (y - va0))), (Z.leb_spec (va0 + off) y),
      (Z.ltb_spec (pa0 + (y - va0)) (pa0 + off + Z.of_nat (length bytes))),
      (Z.ltb_spec y (va0 + off + Z.of_nat (length bytes))); done || lia.
  - destruct (Z.leb_spec (va0 + off) y), (Z.ltb_spec y (va0 + off + Z.of_nat (length bytes)));
      cbn [andb].
    1: { exfalso. apply E. symmetry. apply (Z.div_unique y PGSIZE _ (y - va0)); lia. }
    all: apply uwrite_out; unfold in_page.
    all: assert (upage (k_mem s) root y <> pa0) by (intros Hc; apply E; by apply (us_inj _ _ _ Hu)).
    all: destruct (us_leaf _ _ _ Hu y Hy Hm) as ([M1 _] & _).
    all: destruct (us_leaf _ _ _ Hu va0 Hva Hmap) as ([M2 _] & _); fold pa0 in M2.
    all: destruct (pages_disjoint (upage (k_mem s) root y) pa0); auto; lia.
Qed.
End Write.

(** ** copyout and copyin *)

Definition in_range (va : Z) (n : nat) (y : Z) : bool := (va <=? y) && (y <? va + Z.of_nat n).

(** [x] is the physical address of a byte of the [n] bytes at [va]. *)
Definition backs (m : mem) (root va : Z) (n : nat) (x : Z) : Prop :=
  exists y, in_range va n y = true /\ umapped m root y /\ x = upage m root y + y mod PGSIZE.

(** What copyout() to [va] leaves behind when it returns [r]. *)
Record copied (root va : Z) (src : list Z) (l : list Z) (s s' : kernel) (r : Z) : Prop := {
  cp_space : uspace s' l root;
  cp_state : s' = s <| k_mem := k_mem s' |>;
  cp_pte y : is_va y -> pte_of (k_mem s') root y = pte_of (k_mem s) root y;
  cp_mem x : ~ backs (k_mem s) root va (length src) x -> k_mem s' x = k_mem s x;
  cp_ret : (r = 0 /\ forall y, in_range va (length src) y = true -> umapped (k_mem s) root y) \/
    (r = -1 /\ exists y, in_range va (length src) y = true /\ ~ umapped (k_mem s) root y);
  cp_data y : umapped (k_mem s) root y ->
    (in_range va (length src) y = false -> uload (k_mem s') root y = uload (k_mem s) root y) /\
    (r = 0 -> in_range va (length src) y = true ->
      uload (k_mem s') root y = nth (Z.to_nat (y - va)) src 0) /\
    (in_range va (length src) y = true -> uload (k_mem s') root y = nth (Z.to_nat (y - va)) src 0 \/
      uload (k_mem s') root y = uload (k_mem s) root y);
}.

Lemma upage_pte m m' root y : pte_of m' root y = pte_of m root y -> upage m' root y = upage m root y.
Proof. unfold upage. by intros ->. Qed.

Lemma cp_upage root va src l s s' r y : copied root va src l s s' r -> is_va y ->
  upage (k_mem s') root y = upage (k_mem s) root y.
Proof. intros C Hy. by apply upage_pte, (cp_pte _ _ _ _ _ _ _ C). Qed.

Lemma umapped_pte m m' root y : (forall y, is_va y -> pte_of m' root y = pte_of m root y) ->
  umapped m' root y <-> umapped m root y.
Proof. intros H. unfold umapped. split; intros [? E]; (rewrite (upage_pte m m') in * by auto); done. Qed.

(** Which bytes back the user's memory is up to the page table alone. *)
Lemma backs_pte m m' root va n x : (forall y, is_va y -> pte_of m' root y = pte_of m root y) ->
  backs m' root va n x -> backs m root va n x.
Proof.
  intros H (y & Hy & Hm & ->). apply (umapped_pte m m') in Hm; [|done]. exists y. split_and!; [done..|].
  by rewrite (upage_pte m m') by apply H, Hm.
Qed.

Lemma backs_mono m root va va' n n' x : (forall y, in_range va n y = true -> in_range va' n' y = true) ->
  backs m root va n x -> backs m root va' n' x.
Proof. intros H (y & Hy & Hm). exists y. auto. Qed.

Lemma in_range_spec va n y : in_range va n y = true <-> va <= y < va + Z.of_nat n.
Proof. unfold in_range. rewrite andb_true_iff, Z.leb_le, Z.ltb_lt. done. Qed.

Lemma in_range_false va n y : in_range va n y = false <-> ~ (va <= y < va + Z.of_nat n).
Proof. rewrite <- in_range_spec. by destruct (in_range va n y). Qed.

(** The page and the offset of [va]. *)
Lemma page_split va : 0 <= va < 2 ^ 64 ->
  let va0 := PGROUNDDOWN va in
  va0 mod PGSIZE = 0 /\ 0 <= va0 <= va /\ va < va0 + PGSIZE /\
  (forall y, va0 <= y < va0 + PGSIZE -> y / PGSIZE = va0 / PGSIZE) /\
  (forall y, is_va va0 -> va0 <= y < va0 + PGSIZE -> is_va y).
Proof.
  intros H. cbv zeta. rewrite PGROUNDDOWN_eq by done.
  assert (PGSIZE = 4096) as PG by done. assert (MAXVA = 67108864 * PGSIZE) as MV by done.
  pose proof (Z.mod_pos_bound va PGSIZE ltac:(lia)). pose proof (Z.div_mod va PGSIZE ltac:(lia)).
  assert (0 <= va / PGSIZE) by (apply Z.div_pos; lia).
  split_and!; try lia.
  - by rewrite Z.mod_mul by lia.
  - intros y Hy. rewrite Z.div_mul by lia. symmetry.
    apply (Z.div_unique y PGSIZE _ (y - va / PGSIZE * PGSIZE)); lia.
  - intros y [? ?] ?. rewrite MV in *. split; nia.
Qed.

Lemma copied_nil root va l s : uspace s l root -> copied root va [] l s s 0.
Proof.
  intros H. split; auto.
  - by destruct s.
  - left. split; [done|]. intros y Hy%in_range_spec. simpl in Hy. lia.
  - intros y Hy. split_and!; [done|intros _|]; intros Hr%in_range_spec; simpl in Hr; lia.
Qed.

Lemma walkaddr_upage root va s l e :
  uspace s l root -> 0 <= va ->
  exists r, walkaddr root va (mkWorld s e) = Ok r (mkWorld s e) /\
    (r <> 0 -> umapped (k_mem s) root va /\ r = upage (k_mem s) root va) /\
    (r = 0 -> ~ umapped (k_mem s) root va).
Proof.
  intros Hu Hva. eexists. split.
  - apply walkaddr_ok; [apply Hu|apply Hu|done].
  - unfold umapped, is_va. destruct (Z.ltb_spec va MAXVA); split; intuition lia.
Qed.

Lemma in_range_0 va y : in_range va 0 y = false.
Proof. apply in_range_false. lia. Qed.

Lemma copied_nil_va root va va' l s s' r : copied root va [] l s s' r -> copied root va' [] l s s' r.
Proof.
  intros [C1 C2 C3 C6 C4 C5]. cbn [length] in *. split; auto; cbn [length].
  - intros x Hx. apply C6. intros (y & Hy & _). by rewrite in_range_0 in Hy.
  - destruct C4 as [[? _]|[? (y & Hy & _)]]; [|by rewrite in_range_0 in Hy].
    left. split; [done|]. intros y Hy. by rewrite in_range_0 in Hy.
  - intros y Hy. destruct (C5 y Hy) as (D1 & D2 & D3). rewrite in_range_0 in *. split_and!; [auto|done..].
Qed.

(** A first chunk of [n] bytes, then the rest. *)
Lemma copied_step root va (n : nat) src l s s1 s' r :
  (n <= length src)%nat -> s1 = s <| k_mem := k_mem s1 |> ->
  (forall y, is_va y -> pte_of (k_mem s1) root y = pte_of (k_mem s) root y) ->
  (forall x, ~ backs (k_mem s) root va n x -> k_mem s1 x = k_mem s x) ->
  (forall y, in_range va n y = true -> umapped (k_mem s) root y) ->
  (forall y, umapped (k_mem s) root y -> uload (k_mem s1) root y =
     if in_range va n y then nth (Z.to_nat (y - va)) src 0 else uload (k_mem s) root y) ->
  copied root (va + Z.of_nat n) (drop n src) l s1 s' r -> copied root va src l s s' r.
Proof.
  intros Hn Hs Hp Hx Hm Hl [C1 C2 C3 C7 C4 C5].
  assert (forall y, umapped (k_mem s1) root y <-> umapped (k_mem s) root y) as Hmm by (intros; by apply umapped_pte).
  assert (forall y, in_range va (length src) y =
    in_range va n y || in_range (va + Z.of_nat n) (length (drop n src)) y) as Hr.
  { intros y. rewrite length_drop. apply eq_true_iff_eq.
    rewrite orb_true_iff, !in_range_spec. lia. }
  split; auto.
  - rewrite C2, Hs. by destruct s.
  - intros y Hy. rewrite C3; auto.
  - intros x Hb. rewrite C7, Hx; [done|..]; intros Hb'; apply Hb.
    + eapply backs_mono; [|exact Hb']. intros y Hy. by rewrite Hr, Hy.
    + eapply backs_mono; [|eapply backs_pte; [exact Hp|exact Hb']]. intros y Hy. by rewrite Hr, Hy, orb_true_r.
  - destruct C4 as [[-> C4]|[-> (y & C4 & C6)]]; [left|right]; split; auto.
    + intros y. rewrite Hr, orb_true_iff. intros [?|?]; [auto|]. apply Hmm. auto.
    + exists y. rewrite Hr, C4, orb_true_r, <- Hmm. done.
  - intros y Hy. rewrite Hr. destruct (C5 y) as (D1 & D2 & D3); [by apply Hmm|]. specialize (Hl y Hy).
    assert (in_range (va + Z.of_nat n) (length (drop n src)) y = true ->
      nth (Z.to_nat (y - (va + Z.of_nat n))) (drop n src) 0 = nth (Z.to_nat (y - va)) src 0) as Hd.
    { intros R2%in_range_spec. rewrite <- (take_drop n src) at 2. rewrite app_nth2 by (rewrite length_take; lia).
      f_equal. rewrite length_take. lia. }
    destruct (in_range va n y) eqn:R1, (in_range (va + Z.of_nat n) _ y) eqn:R2; cbn [orb];
      rewrite ?Hd in * by done; try rewrite <- Hl; try (split_and!; auto; done).
    exfalso. apply in_range_spec in R1, R2. lia.
Qed.

(** What was copied after [d1] follows it. *)
Lemma copied_app root va d1 d2 l s s1 s2 :
  copied root va d1 l s s1 0 -> copied root (va + Z.of_nat (length d1)) d2 l s1 s2 0 -> copied root va (d1 ++ d2) l s s2 0.
Proof.
  intros [C1 C2 C3 C4 C5 C6] D. destruct C5 as [[_ C5]|[? _]]; [|done].
  apply (copied_step root va (length d1) (d1 ++ d2) l s s1 s2 0); auto; [rewrite length_app; lia| |by rewrite drop_app_length].
  intros y Hy. destruct (C6 y Hy) as (H1 & H2 & _). destruct (in_range va (length d1) y) eqn:R; [|auto].
  rewrite H2 by done. apply in_range_spec in R. rewrite app_nth1 by lia. done.
Qed.

(** copyout() depends on the memory only. *)
Lemma copied_ext root va src l s s' t r :
  copied root va src l s s' r -> k_mem t = k_mem s -> uspace (t <| k_mem := k_mem s' |>) l root ->
  copied root va src l t (t <| k_mem := k_mem s' |>) r.
Proof. intros [C1 C2 C3 C4 C5 C6] E U. split; cbn; rewrite ?E; auto. Qed.

Lemma umapped_page root s va0 y :
  umapped (k_mem s) root va0 -> is_va y -> y / PGSIZE = va0 / PGSIZE -> umapped (k_mem s) root y.
Proof. intros [_ H] Hy E. split; [done|]. by rewrite (upage_page _ _ y va0). Qed.

Lemma page_offset va0 y : va0 mod PGSIZE = 0 -> va0 <= y < va0 + PGSIZE -> y mod PGSIZE = y - va0.
Proof.
  assert (PGSIZE = 4096) as PG by done. intros H Hy. pose proof (Z.div_mod va0 PGSIZE ltac:(lia)).
  symmetry. apply (Z.mod_unique y PGSIZE (va0 / PGSIZE)); lia.
Qed.

(** The chunk of a round of copyout(): at most the rest of the page of [va]. *)
Lemma copied_chunk root va (n : nat) src l s s' r rest :
  let va0 := PGROUNDDOWN va in
  let s1 := s <| k_mem ::= fun m => mwrite m (upage (k_mem s) root va0 + (va - va0)) (take n src) |> in
  0 <= va < 2 ^ 64 -> uspace s l root -> umapped (k_mem s) root va0 ->
  (n <= length src)%nat -> Z.of_nat n <= PGSIZE - (va - va0) ->
  rest = va + Z.of_nat n \/ drop n src = [] ->
  copied root rest (drop n src) l s1 s' r -> copied root va src l s s' r.
Proof.
  intros va0 s1 Hva Hu [M1 M2] Hn Hpg Hrest HC.
  destruct (page_split va Hva) as (P1 & P2 & P3 & P4 & P5). fold va0 in P1, P2, P3, P4, P5.
  assert (length (take n src) = n) as Ln by (apply length_take_le; lia).
  apply (copied_step root va n src l s s1 s' r); auto.
  - intros y. apply (uwrite_pte s l root va0 (va - va0) (take n src)); auto; lia.
  - intros x Hx. apply mwrite_out. rewrite Ln.
    set (b := upage (k_mem s) root va0 + (va - va0)).
    assert (~ (0 <= x - b < Z.of_nat n)); [|lia]. intros Hk. apply Hx. exists (va + (x - b)).
    rewrite in_range_spec, (upage_page _ _ (va + (x - b)) va0) by (apply P4; lia).
    rewrite (page_offset va0) by (done || lia).
    split_and!; [lia|lia|eapply (umapped_page _ _ va0); [by split|apply P5|apply P4]; auto; lia|lia].
  - intros y Hy%in_range_spec. eapply (umapped_page _ _ va0); [by split|apply P5|apply P4]; auto; lia.
  - intros y Hy. unfold s1. rewrite (uwrite_uload s l root va0 (va - va0) (take n src)) by (auto || lia). rewrite Ln.
    replace (va0 + (va - va0)) with va by lia. unfold in_range.
    destruct (Z.leb_spec va y), (Z.ltb_spec y (va + Z.of_nat n)); try done. cbn [andb].
    rewrite <- (take_drop n src) at 2. rewrite app_nth1; [done|]. rewrite Ln. lia.
  - destruct Hrest as [->|E0]; [done|]. rewrite E0 in *. by eapply copied_nil_va.
Qed.

Lemma copyout_loop_ok root l e fuel : forall va src s,
  (length src <= fuel)%nat -> 0 <= va < 2 ^ 64 -> uspace s l root ->
  exists r s', copyout_loop fuel root va src (mkWorld s e) = Ok r (mkWorld s' e) /\
    copied root va src l s s' r.
Proof.
  assert (PGSIZE = 4096) as PG by done. assert (MAXVA = 274877906944) as MV by done.
  induction fuel as [|f IH]; intros va src s Hf Hva Hu;
    (destruct src as [|c src]; [exists 0, s; split; [done|by apply copied_nil]|]); [simpl in Hf; lia|].
  set (str := c :: src) in *. assert (length str > 0)%nat by (unfold str; simpl; lia).
  destruct (page_split va Hva) as (P1 & P2 & P3 & P4 & P5). set (va0 := PGROUNDDOWN va) in *.
  destruct (walkaddr_upage root va0 s l e Hu ltac:(lia)) as (pa0 & W1 & W2 & W3).
  set (n := Z.min (PGSIZE - (va - va0)) (Z.of_nat (length str))).
  assert (copyout_loop (S f) root va str (mkWorld s e) =
    if pa0 =? 0 then Ok (-1) (mkWorld s e) else
    copyout_loop f root (u64 (va0 + PGSIZE)) (drop (Z.to_nat n) str)
      (mkWorld (s <| k_mem ::= fun m => mwrite m (pa0 + (va - va0)) (take (Z.to_nat n) str) |>) e)) as ->.
  { unfold str at 1. cbn [copyout_loop]. fold str va0. run W1.
    fold n. by destruct (pa0 =? 0). }
  destruct (Z.eqb_spec pa0 0) as [Z0|Hp].
  - exists (-1), s. split; [done|]. split; [done|by destruct s|done|done| |].
    + right. split; [done|]. exists va. split; [apply in_range_spec; unfold str; simpl length; lia|].
      intros [M1 M2]. apply W3; [done|]. split; [unfold is_va in *; lia|].
      by rewrite (upage_page _ _ va0 va) by (symmetry; apply P4; lia).
    + intros y Hy. split_and!; [done|lia|auto].
  - destruct (W2 Hp) as ([M1 M2] & ->).
    assert (length (take (Z.to_nat n) str) = Z.to_nat n) as Ln by (apply length_take_le; lia).
    pose proof (uwrite_uspace s l root va0 (va - va0) (take (Z.to_nat n) str) Hu M1 M2 ltac:(lia) ltac:(lia)) as U1.
    destruct (IH (u64 (va0 + PGSIZE)) (drop (Z.to_nat n) str) _ ltac:(rewrite length_drop; lia) (u64_range _) U1)
      as (r & s' & X1 & X2).
    exists r, s'. split; [exact X1|]. eapply (copied_chunk root va (Z.to_nat n)); [done..|split; done|lia|fold va0; lia| |exact X2].
    destruct (decide (Z.to_nat n = length str)) as [E|E].
    + right. rewrite E. apply drop_all.
    + left. unfold is_va in M1. rewrite u64_small by lia. lia.
Qed.

(** [n] bytes of user memory. *)
Definition uread (m : mem) (root va : Z) (n : nat) : list Z :=
  (fun i : nat => uload m root (va + Z.of_nat i)) <$> seq 0 n.

Lemma uread_app m root va n k :
  uread m root va (n + k) = uread m root va n ++ uread m root (va + Z.of_nat n) k.
Proof.
  unfold uread. rewrite seq_app, fmap_app. f_equal. apply list_eq_same_length with (n := k);
    rewrite ?length_fmap, ?length_seq; auto.
  intros i x y Hi. rewrite !list_lookup_fmap, !lookup_seq_lt by lia. cbn. intros [= <-] [= <-].
  f_equal. lia.
Qed.

(** copyin() reads the same way. *)
Lemma copyin_loop_ok root l s e fuel : forall va len dst,
  (len <= fuel)%nat -> 0 <= va < 2 ^ 64 -> uspace s l root ->
  ((forall y, in_range va len y = true -> umapped (k_mem s) root y) /\
   copyin_loop fuel root va len dst (mkWorld s e) =
   Ok (0, dst ++ uread (k_mem s) root va len) (mkWorld s e)) \/
  ((exists y, in_range va len y = true /\ ~ umapped (k_mem s) root y) /\
   exists got, copyin_loop fuel root va len dst (mkWorld s e) = Ok (-1, got) (mkWorld s e)).
Proof.
  assert (PGSIZE = 4096) as PG by done. assert (MAXVA = 274877906944) as MV by done.
  induction fuel as [|f IH]; intros va len dst Hf Hva Hu;
    (destruct len as [|len]; [left; split; [intros y; by rewrite in_range_0|simpl; by rewrite app_nil_r]|]);
    [lia|].
  destruct (page_split va Hva) as (P1 & P2 & P3 & P4 & P5).
  cbn [copyin_loop]. set (va0 := PGROUNDDOWN va) in *.
  destruct (walkaddr_upage root va0 s l e Hu ltac:(lia)) as (pa0 & W1 & W2 & W3).
  run W1. destruct (Z.eqb_spec pa0 0) as [Z0|Hp].
  - right. split; [|by eexists]. exists va. split; [apply in_range_spec; lia|].
    intros Hm. apply W3; [done|]. eapply umapped_page; [exact Hm| |symmetry; apply P4; lia].
    destruct Hm as [[? ?] _]. split; lia.
  - destruct (W2 Hp) as (M & ->). set (n := Z.to_nat (Z.min _ _)). rewrite bind_gets.
    assert (forall y, in_range va n y = true -> umapped (k_mem s) root y) as Hm.
    { intros y Hy%in_range_spec. eapply (umapped_page _ _ va0); [done|apply P5|apply P4]; try lia. apply M. }
    assert (mread (k_mem s) (upage (k_mem s) root va0 + (va - va0)) n =
      uread (k_mem s) root va n) as Hb.
    { unfold mread, uread. apply list_fmap_ext. intros i x [-> Hi]%lookup_seq. unfold uload. cbn [Nat.add].
      assert ((va + Z.of_nat i) / PGSIZE = va0 / PGSIZE) as E by (apply P4; lia).
      rewrite (upage_page _ _ _ va0 E). f_equal.
      pose proof (Z.div_mod (va + Z.of_nat i) PGSIZE). pose proof (Z.div_mod va0 PGSIZE). lia. }
    assert (forall y, in_range va (S len) y = in_range va n y || in_range (va + Z.of_nat n) (S len - n) y) as Hr.
    { intros y. apply eq_true_iff_eq. rewrite orb_true_iff, !in_range_spec. lia. }
    assert ((S len - n = 0)%nat \/ u64 (va0 + PGSIZE) = va + Z.of_nat n) as [E|E].
    { destruct M as [[? ?] _]. rewrite u64_small by lia. lia. }
    + rewrite E. left. split.
      * intros y. rewrite Hr, E, in_range_0, orb_false_r. auto.
      * replace (S len) with n by lia. rewrite Hb. by destruct f.
    + rewrite E. destruct (IH (va + Z.of_nat n) (S len - n)%nat
        (dst ++ mread (k_mem s) (upage (k_mem s) root va0 + (va - va0)) n))
        as [[R1 R2]|[(y & R1 & R2) R3]]; auto; try lia; [rewrite <- E; apply u64_range|left|right].
      * split; [intros y; rewrite Hr, orb_true_iff; intros [?|?]; auto|]. rewrite R2, Hb.
        rewrite <- app_assoc, <- uread_app. do 4 f_equal. lia.
      * split; [|done]. exists y. by rewrite Hr, R1, orb_true_r.
Qed.
