(* ===== verification/VmProps.v ===== *)
(** What vm.c guarantees to the rest of the kernel: mappings, and access to
    user memory. *)

From S2P Require Import Prelude Layout Kernel Kalloc Vm PageTable VmSpec.

(** The entry mappages() writes, decoded. *)
Lemma upage_entry m root x pa perm d :
  pte_of m root x = Z.lor (Z.lor (PA2PTE (pa + d * PGSIZE)) perm) PTE_V ->
  (PGSIZE | pa) -> 0 <= pa + d * PGSIZE < 2 ^ 55 -> 0 <= perm < 1024 -> has perm PTE_U = true ->
  upage m root x = pa + d * PGSIZE.
Proof.
  intros E Hal Hpa Hperm HU. unfold upage. rewrite E, <- Z.lor_assoc.
  set (fl := Z.lor perm PTE_V). assert (0 <= fl < 1024) as Hfl by (by apply perm_V_range).
  assert (forall bit, 0 <= bit < 1024 -> has (Z.lor (PA2PTE (pa + d * PGSIZE)) fl) bit = has fl bit) as Hh.
  { intros bit Hb. unfold has. by rewrite land_flags_PA2PTE by lia. }
  rewrite !Hh by done. unfold fl, has in *. rewrite !Z.land_lor_distr_l.
  replace (Z.land PTE_V PTE_V) with 1 by done. replace (Z.land PTE_V PTE_U) with 0 by done.
  rewrite Z.lor_0_r. destruct (Z.eqb_spec (Z.land perm PTE_U) 0) as [E0|E0]; [done|].
  assert (Z.lor (Z.land perm PTE_V) 1 <> 0) as Hv.
  { intros H%Z.lor_eq_0_iff. lia. }
  destruct (Z.eqb_spec (Z.lor (Z.land perm PTE_V) 1) 0); [done|]. cbn [negb andb].
  apply PTE2PA_PA2PTE; [|lia|done]. by apply Z.divide_add_r, Z.divide_mul_r.
Qed.

(** ** A fresh page table, and its first page *)

Section Blank.
Context (end_ root : Z) (m : mem).
Hypothesis Hr : kpage end_ root.
Hypothesis Hz : forall x, in_page root x -> m x = 0.

Lemma blank_node k va : (k <= 2)%nat -> is_va va -> node m root k va = if (k =? 0)%nat then Some root else None.
Proof.
  intros Hk Hva. induction k as [|k IH]; [done|]. cbn [node]. rewrite IH by lia.
  destruct (Nat.eqb_spec k 0) as [->|]; [|done].
  rewrite load_zero; [done|]. intros x Hx. apply Hz.
  pose proof (slot_bounds root 0 va ltac:(lia)). unfold in_page. lia.
Qed.

Lemma blank_pte va : is_va va -> pte_of m root va = 0.
Proof. intros. unfold pte_of. by rewrite blank_node by (done || lia). Qed.

Lemma blank_is_node p : is_node m root p -> p = root.
Proof.
  intros (k & va & Hk & Hva & E). rewrite blank_node in E by done.
  destruct (k =? 0)%nat; congruence.
Qed.

Lemma blank_wf : pt_wf end_ m root.
Proof.
  split.
  - intros k va p Hk Hva E. rewrite blank_node in E by done. destruct (k =? 0)%nat; congruence.
  - intros k va k' va' p Hk Hk' Hva Hva' E E'. rewrite blank_node in E, E' by done.
    destruct (Nat.eqb_spec k 0) as [->|]; [|done]. destruct (Nat.eqb_spec k' 0) as [->|]; [|done].
    split; [done|]. by apply prefix_0.
Qed.
End Blank.

Lemma one_page va :
  0 <= va -> va + PGSIZE <= MAXVA -> (PGSIZE | va) -> PGROUNDDOWN va = va /\ npages va PGSIZE = 1%nat.
Proof.
  change MAXVA with 274877906944. assert (PGSIZE = 4096) as PG by done. intros Hva Hmax [q ->]. split.
  - rewrite PGROUNDDOWN_eq by lia. by rewrite Z.div_mul by lia.
  - unfold npages. replace (q * PGSIZE + PGSIZE - 1) with (PGSIZE - 1 + q * PGSIZE) by lia.
    rewrite Z.div_mul, Z.div_add by lia. change ((PGSIZE - 1) / PGSIZE) with 0. lia.
Qed.

(** Mapping one page of its own into a blank table makes a user address space
    in which exactly that page is accessible. *)
Lemma uspace_first root va pa perm s l e s' :
  kmem_inv s l -> LkKmem ∉ k_held s -> kpage (k_end s) root -> root ∉ l ->
  (forall x, in_page root x -> k_mem s x = 0) ->
  kpage (k_end s) pa -> pa <> root -> pa ∉ l -> 0 <= perm < 1024 -> has perm PTE_U = true ->
  0 <= va -> va + PGSIZE <= MAXVA -> (PGSIZE | va) ->
  mappages root va PGSIZE pa perm (mkWorld s e) = Ok 0 (mkWorld s' e) ->
  exists l', uspace s' l' root /\ l' `suffix_of` l /\
    s' = s <| k_mem := k_mem s' |> <| k_freelist := k_freelist s' |> /\
    forall y, is_va y -> upage (k_mem s') root y = if y / PGSIZE =? va / PGSIZE then pa else 0.
Proof.
  intros Hk Hl Hr Hrl Hz Hp Hpr Hpl Hperm HU Hva Hmax Hal E. assert (PGSIZE = 4096) as PG by done.
  assert (vm_inv s l root) as Hi.
  { split; [done|by apply blank_wf| |done]. intros q Hq. apply (blank_is_node root _ Hz) in Hq. by subst. }
  pose proof (kpage_pos _ _ (kmem_end _ _ Hk) Hp) as Hpos. change (2 ^ 63) with 9223372036854775808 in Hpos.
  destruct Hp as [Hpm Hpe]. assert (PHYSTOP = 2281701376) as PS by done.
  destruct (mappages_ok root va PGSIZE pa perm s l e) as (r & s1 & l1 & E1 & W & G & j & Hj & Hm);
    [done|lia|lia|lia|lia|change (2 ^ 55) with 36028797018963968; lia| |].
  { intros x Hx. rewrite (blank_pte root _ Hz) by (unfold is_va; lia). done. }
  rewrite E in E1. injection E1 as <- <-. destruct Hj as [[_ ->]|[? _]]; [|done].
  destruct (one_page va Hva Hmax Hal) as [Ed En].
  assert (forall y, is_va y -> upage (k_mem s') root y = if y / PGSIZE =? va / PGSIZE then pa else 0) as Hup.
  { intros y Hy. specialize (Hm y Hy). rewrite Ed, En in Hm. unfold mapped in Hm.
    rewrite (blank_pte root _ Hz) in Hm by done. destruct (Z.eqb_spec (y / PGSIZE) (va / PGSIZE)) as [Eq|Nq].
    - rewrite Eq in Hm. rewrite Z.sub_diag in Hm. rewrite (upage_entry _ _ _ pa perm 0); [lia|exact Hm|..]; auto.
      + by apply Z.mod_divide.
      + change (2 ^ 55) with 36028797018963968. lia.
    - unfold upage. rewrite Hm.
      destruct (Z.leb_spec 0 (y / PGSIZE - va / PGSIZE)), (Z.ltb_spec (y / PGSIZE - va / PGSIZE) (Z.of_nat 1)); done || lia. }
  exists l1. split_and!; [|apply G|apply G|done].
  assert (k_end s' = k_end s) as Ee by (rewrite (vg_state _ _ _ _ _ G); done).
  split; [done|..].
  - intros y Hy Hn. rewrite Hup in * by done. destruct (y / PGSIZE =? va / PGSIZE); [|done].
    rewrite Ee. split_and!; [done| |].
    + intros Hq%(vg_new _ _ _ _ _ G). destruct Hq as [Hq|Hq]; [|done]. by apply (blank_is_node root _ Hz) in Hq.
    + intros Hq. apply Hpl. destruct (vg_suffix _ _ _ _ _ G) as [l0 ->]. set_solver.
  - intros y y' Hy Hy' Hn. rewrite !Hup by done. rewrite Hup in Hn by done.
    destruct (Z.eqb_spec (y / PGSIZE) (va / PGSIZE)); [|done].
    destruct (Z.eqb_spec (y' / PGSIZE) (va / PGSIZE)); [lia|]. intros ->. lia.
Qed.

(** A concrete one: [nth_page 1] is the page table of process 0, the next
    page is to be mapped at 0, and three pages are free. *)
Definition nth_page (i : Z) : Z := PHYSTOP - i * PGSIZE.
Definition blank_space : kernel :=
  one_proc <| k_mem := store 8 (store 8 (fun _ => 0) (nth_page 3) (nth_page 4)) (nth_page 4) (nth_page 5) |>
    <| k_freelist := nth_page 3 |>
    <| k_procs ::= alter (fun p => p <| p_pagetable := nth_page 1 |> <| p_sz := PGSIZE |>) 0%nat |>.
Definition perm_WRU : Z := Z.lor (Z.lor PTE_W PTE_R) PTE_U.
Abbreviation first_page := (mappages (nth_page 1) 0 PGSIZE (nth_page 2) perm_WRU).
Definition user_space : kernel := w_k (final (first_page (mkWorld blank_space []))).

Lemma nth_kpage i : 1 <= i <= 5 -> kpage (k_end blank_space) (nth_page i).
Proof.
  intros Hi. unfold nth_page. split.
  - change (PHYSTOP - i * PGSIZE) with (557056 * PGSIZE - i * PGSIZE). rewrite <- Z.mul_sub_distr_r.
    by apply Z.mod_mul.
  - change (k_end blank_space) with 2281635840. change PHYSTOP with 2281701376. change PGSIZE with 4096. lia.
Qed.

Lemma blank_space_kmem : kmem_inv blank_space [nth_page 3; nth_page 4; nth_page 5].
Proof.
  split; [done|cbn [freechain]; split_and!; vm_compute; reflexivity| |].
  - apply (bool_decide_eq_true_1 _). vm_compute. reflexivity.
  - repeat (constructor; [apply nth_kpage; lia|]). constructor.
Qed.

Lemma blank_space_root x : in_page (nth_page 1) x -> k_mem blank_space x = 0.
Proof.
  intros Hx. unfold in_page in Hx. change (nth_page 1) with 2281697280 in Hx.
  cbn. rewrite !store_out; [done|change (nth_page 3) with 2281689088; lia|change (nth_page 4) with 2281684992; lia].
Qed.

Lemma blank_space_vm : vm_inv blank_space [nth_page 3; nth_page 4; nth_page 5] (nth_page 1).
Proof.
  split; [apply blank_space_kmem|apply blank_wf; [by apply nth_kpage|apply blank_space_root]| |set_solver].
  intros p Hp%(blank_is_node (nth_page 1) _ blank_space_root). subst.
  apply (bool_decide_eq_true_1 _). vm_compute. reflexivity.
Qed.

Lemma blank_space_unmapped size : size <= MAXVA ->
  forall x, 0 <= x < 0 + size -> has (pte_of (k_mem blank_space) (nth_page 1) x) PTE_V = false.
Proof. intros Hs x Hx. rewrite (blank_pte (nth_page 1) _ blank_space_root) by (unfold is_va; lia). done. Qed.

Lemma first_page_ok : first_page (mkWorld blank_space []) = Ok 0 (mkWorld user_space []).
Proof.
  assert (match first_page (mkWorld blank_space []) with
          | Ok r w => (r =? 0) && (length (w_env w) =? 0)%nat | _ => false end = true) as H by (vm_compute; reflexivity).
  unfold user_space. destruct (first_page (mkWorld blank_space [])) as [r [s e]| | | |]; try discriminate H.
  apply andb_true_iff in H as [->%Z.eqb_eq H]. cbn in *. destruct e; [done|discriminate H].
Qed.

Lemma mem_fields (s : kernel) m f :
  k_procs (s <| k_mem := m |> <| k_freelist := f |>) = k_procs s /\
  k_held (s <| k_mem := m |> <| k_freelist := f |>) = k_held s /\
  k_cur (s <| k_mem := m |> <| k_freelist := f |>) = k_cur s.
Proof. done. Qed.

Lemma user_space_ok : exists l,
  uspace user_space l (nth_page 1) /\
  user_space = blank_space <| k_mem := k_mem user_space |> <| k_freelist := k_freelist user_space |> /\
  forall y, 0 <= y < PGSIZE -> umapped (k_mem user_space) (nth_page 1) y.
Proof.
  destruct (uspace_first (nth_page 1) 0 (nth_page 2) perm_WRU blank_space
    [nth_page 3; nth_page 4; nth_page 5] [] user_space) as (l & U & _ & Es & Hup).
  - apply blank_space_kmem.
  - apply not_elem_of_nil.
  - apply nth_kpage; lia.
  - apply (bool_decide_eq_true_1 _); vm_compute; reflexivity.
  - apply blank_space_root.
  - apply nth_kpage; lia.
  - discriminate.
  - apply (bool_decide_eq_true_1 _); vm_compute; reflexivity.
  - split; [discriminate|reflexivity].
  - reflexivity.
  - discriminate.
  - discriminate.
  - apply Z.divide_0_r.
  - apply first_page_ok.
  - exists l. split; [exact U|]. clear U. split; [exact Es|]. clear Es.
    intros y Hy. assert (is_va y) as Hv.
    { unfold is_va. change MAXVA with 274877906944. change PGSIZE with 4096 in Hy. lia. }
    split; [exact Hv|]. rewrite Hup by exact Hv.
    rewrite Z.div_small by exact Hy. discriminate.
Qed.

(** C16: mappages() on an unmapped range either maps every page of it, to
    consecutive physical pages and with the given permissions, and returns 0, or
    runs out of memory and returns -1; either way no other mapping changes, the
    page table stays well formed, and only page-table pages and free pages are
    written. *)
Theorem mappages_spec root va size pa perm s l e :
  vm_inv s l root -> 0 <= perm < 1024 -> 0 <= va -> 0 < size -> va + size <= MAXVA ->
  0 <= pa < 2 ^ 55 ->
  (forall x, va <= x < va + size -> has (pte_of (k_mem s) root x) PTE_V = false) ->
  exists r s' l', mappages root va size pa perm (mkWorld s e) = Ok r (mkWorld s' e) /\
    vm_inv s' l' root /\ vm_grow root s l s' l' /\ (r = 0 \/ r = -1 /\ l' = []) /\
    (forall x, is_va x -> ~ (va / PGSIZE <= x / PGSIZE <= (va + size - 1) / PGSIZE) ->
       pte_of (k_mem s') root x = pte_of (k_mem s) root x) /\
    (r = 0 -> forall x, is_va x -> va / PGSIZE <= x / PGSIZE <= (va + size - 1) / PGSIZE ->
       pte_of (k_mem s') root x =
       Z.lor (Z.lor (PA2PTE (pa + (x / PGSIZE - va / PGSIZE) * PGSIZE)) perm) PTE_V).
Proof.
  intros Hi Hperm Hva Hs Hmax Hpa Hn.
  destruct (mappages_ok root va size pa perm s l e Hi Hperm Hva Hs Hmax Hpa Hn)
    as (r & s' & l' & E & W & G & j & Hj & Hm).
  assert (PGROUNDDOWN va / PGSIZE = va / PGSIZE) as Ed.
  { change MAXVA with 274877906944 in Hmax. rewrite PGROUNDDOWN_eq by lia. by rewrite Z.div_mul. }
  assert (va / PGSIZE <= (va + size - 1) / PGSIZE) as Hle by (apply Z.div_le_mono; [done|lia]).
  unfold npages in Hj. unfold mapped in Hm. rewrite Ed in Hm.
  exists r, s', l'. split_and!; auto; [tauto| |].
  - intros x Hx Ho. rewrite Hm by done. generalize dependent (x / PGSIZE). intros q Ho.
    destruct (Z.leb_spec 0 (q - va / PGSIZE)), (Z.ltb_spec (q - va / PGSIZE) (Z.of_nat j)); try done.
    exfalso. lia.
  - intros -> x Hx Ho. rewrite Hm by done. generalize dependent (x / PGSIZE). intros q Ho.
    destruct Hj as [[_ ->]|[? _]]; [|done].
    destruct (Z.leb_spec 0 (q - va / PGSIZE)); [|lia].
    destruct (Z.ltb_spec (q - va / PGSIZE) (Z.of_nat (Z.to_nat ((va + size - 1) / PGSIZE - va / PGSIZE + 1))));
      [done|lia].
Qed.

(** An instance of [mappages_spec]. *)
Lemma mappages_spec_witness :
  exists l', vm_inv user_space l' (nth_page 1) /\
    pte_of (k_mem user_space) (nth_page 1) 100 = Z.lor (Z.lor (PA2PTE (nth_page 2)) perm_WRU) PTE_V.
Proof.
  destruct (mappages_spec (nth_page 1) 0 PGSIZE (nth_page 2) perm_WRU blank_space
    [nth_page 3; nth_page 4; nth_page 5] []) as (r & s' & l' & E & W & _ & _ & _ & H).
  - apply blank_space_vm.
  - split; [discriminate|reflexivity].
  - discriminate.
  - reflexivity.
  - discriminate.
  - split; [discriminate|reflexivity].
  - apply blank_space_unmapped. discriminate.
  - rewrite first_page_ok in E. destruct (ok_inj _ _ _ _ _ _ E) as [<- <-]. exists l'. split; [exact W|].
    rewrite (H eq_refl 100); [reflexivity|split; [discriminate|reflexivity]|split; discriminate].
Defined.

Lemma page_span va size x :
  va <= x < va + size -> (x / PGSIZE - va / PGSIZE) * PGSIZE < size + PGSIZE.
Proof.
  intros H. assert (PGSIZE = 4096) as PG by done.
  pose proof (Z.div_mod x PGSIZE ltac:(lia)). pose proof (Z.div_mod va PGSIZE ltac:(lia)).
  pose proof (Z.mod_pos_bound x PGSIZE ltac:(lia)). pose proof (Z.mod_pos_bound va PGSIZE ltac:(lia)). nia.
Qed.

(** After a successful mappages() with user permission, walkaddr()
    translates every address of the range to the page it was mapped to. *)
Theorem mappages_walkaddr root va size pa perm s l e s' e' x :
  vm_inv s l root -> 0 <= perm < 1024 -> has perm PTE_U = true -> 0 <= va -> 0 < size -> va + size <= MAXVA ->
  (PGSIZE | pa) -> 0 <= pa -> pa + size + PGSIZE < 2 ^ 55 ->
  (forall y, va <= y < va + size -> has (pte_of (k_mem s) root y) PTE_V = false) ->
  mappages root va size pa perm (mkWorld s e) = Ok 0 (mkWorld s' e) -> va <= x < va + size ->
  walkaddr root x (mkWorld s' e') = Ok (pa + (x / PGSIZE - va / PGSIZE) * PGSIZE) (mkWorld s' e').
Proof.
  intros Hi Hperm HU Hva Hs Hmax Hal Hpa Hpa2 Hn E Hx. change (2 ^ 55) with 36028797018963968 in Hpa2.
  destruct (mappages_ok root va size pa perm s l e Hi Hperm Hva Hs Hmax ltac:(change (2 ^ 55) with 36028797018963968; unfold PGSIZE in *; lia) Hn)
    as (r & s1 & l' & E1 & W & G & j & Hj & Hm). rewrite E in E1. injection E1 as <- <-.
  destruct Hj as [[_ ->]|[? _]]; [|done].
  assert (is_va x) as Hv by (split; lia).
  rewrite walkaddr_ok by (apply W || lia). destruct (Z.ltb_spec x MAXVA); [|lia]. do 2 f_equal.
  assert (PGROUNDDOWN va / PGSIZE = va / PGSIZE) as Ed.
  { change MAXVA with 274877906944 in Hmax. rewrite PGROUNDDOWN_eq by lia. by rewrite Z.div_mul. }
  assert (va / PGSIZE <= x / PGSIZE <= (va + size - 1) / PGSIZE) as Hle
    by (split; apply Z.div_le_mono; (done || lia)).
  assert ((x / PGSIZE - va / PGSIZE) * PGSIZE < size + PGSIZE) as Hd.
  { by apply page_span. }
  apply (upage_entry _ _ _ pa perm); auto.
  - rewrite Hm by done. unfold mapped. rewrite Ed. unfold npages.
    generalize dependent (x / PGSIZE). intros q Hq Hd.
    destruct (Z.leb_spec 0 (q - va / PGSIZE)); [|lia].
    destruct (Z.ltb_spec (q - va / PGSIZE) (Z.of_nat (Z.to_nat ((va + size - 1) / PGSIZE - va / PGSIZE + 1))));
      [done|lia].
  - change (2 ^ 55) with 36028797018963968. unfold PGSIZE in *. lia.
Qed.

(** An instance of [mappages_walkaddr]. *)
Lemma mappages_walkaddr_witness :
  walkaddr (nth_page 1) 100 (mkWorld user_space []) = Ok (nth_page 2) (mkWorld user_space []).
Proof.
  apply (mappages_walkaddr (nth_page 1) 0 PGSIZE (nth_page 2) perm_WRU blank_space
    [nth_page 3; nth_page 4; nth_page 5] [] user_space [] 100).
  - apply blank_space_vm.
  - split; [discriminate|reflexivity].
  - reflexivity.
  - discriminate.
  - reflexivity.
  - discriminate.
  - by exists 557054.
  - discriminate.
  - reflexivity.
  - apply blank_space_unmapped. discriminate.
  - apply first_page_ok.
  - split; [discriminate|reflexivity].
Defined.

(** C17: copyout() in a well-formed address space (page-table pages, free pages and
    the pages of the process apart, no page mapped twice) writes the bytes to user
    memory when every address of the destination is in a mapped user page, and
    otherwise returns -1; either way no byte of the physical memory changes but
    those that back the destination, a byte that changes gets the byte meant for
    it, and no page table entry and nothing else in the kernel changes. *)
Theorem copyout_spec root va src s l e :
  uspace s l root -> 0 <= va < 2 ^ 64 ->
  exists r s', copyout root va src (mkWorld s e) = Ok r (mkWorld s' e) /\
    copied root va src l s s' r.
Proof. intros Hu Hva. unfold copyout. by apply copyout_loop_ok. Qed.

(** An instance of [copyout_spec]. *)
Lemma copyout_spec_witness :
  exists l r s', uspace user_space l (nth_page 1) /\
    copyout (nth_page 1) 10 [1; 2; 3] (mkWorld user_space []) = Ok r (mkWorld s' []) /\
    copied (nth_page 1) 10 [1; 2; 3] l user_space s' r.
Proof.
  destruct user_space_ok as (l & U & _). exists l.
  destruct (copyout_spec (nth_page 1) 10 [1; 2; 3] user_space l [] U) as (r & s' & H).
  - split; [discriminate|reflexivity].
  - exists r, s'. split; [exact U|exact H].
Defined.

(** Copyin() after a successful copyout() to the same place returns what
    was written. *)
Theorem copyout_copyin root va src s l e s' e' e'' :
  uspace s l root -> 0 <= va < 2 ^ 64 ->
  copyout root va src (mkWorld s e) = Ok 0 (mkWorld s' e') ->
  copyin root va (Z.of_nat (length src)) (mkWorld s' e'') = Ok (0, src) (mkWorld s' e'').
Proof.
  intros Hu Hva E. unfold copyout in E.
  destruct (copyout_loop_ok root l e (length src) va src s) as (r & s1 & E1 & C); [done..|].
  rewrite E in E1. injection E1 as <- <- <-. pose proof (fun y => cp_upage _ _ _ _ _ _ _ y C) as C3. destruct C as [C1 C2 _ _ C4 C5].
  destruct C4 as [[_ C4]|[? _]]; [|done].
  assert (forall y, in_range va (length src) y = true -> umapped (k_mem s') root y) as Hm.
  { intros y Hy. destruct (C4 y Hy) as [Hv Hp]. split; [done|]. by rewrite C3. }
  unfold copyin. rewrite Nat2Z.id.
  destruct (copyin_loop_ok root l s' e'' (length src) va (length src) []) as [[_ ->]|[(y & Hy & Hn) _]]; auto.
  2: { exfalso. by apply Hn, Hm. }
  do 2 f_equal. cbn [app]. apply list_eq_same_length with (n := length src); [done|..].
  { unfold uread. by rewrite length_fmap, length_seq. }
  intros i x y Hi. unfold uread. rewrite list_lookup_fmap, lookup_seq_lt by done. cbn. intros [= <-] Hy.
  assert (in_range va (length src) (va + Z.of_nat i) = true) as Hr by (apply in_range_spec; lia).
  destruct (C5 _ (C4 _ Hr)) as (_ & -> & _); auto. replace (va + Z.of_nat i - va) with (Z.of_nat i) by lia.
  rewrite Nat2Z.id. by apply nth_lookup_Some.
Qed.

(** An instance of [copyout_copyin]. *)
Lemma copyout_copyin_witness :
  exists s', copyout (nth_page 1) 10 [1; 2; 3] (mkWorld user_space []) = Ok 0 (mkWorld s' []) /\
    copyin (nth_page 1) 10 3 (mkWorld s' []) = Ok (0, [1; 2; 3]) (mkWorld s' []).
Proof.
  destruct user_space_ok as (l & U & _ & Hm).
  destruct (copyout_loop_ok (nth_page 1) l [] 3 10 [1; 2; 3] user_space) as (r & s' & E & C);
    [reflexivity|split; [discriminate|reflexivity]|exact U|].
  destruct (cp_ret _ _ _ _ _ _ _ C) as [[-> _]|[_ (y & Hy & Hn)]].
  - exists s'. split; [exact E|].
    apply (copyout_copyin (nth_page 1) 10 [1; 2; 3] user_space l [] s' [] [] U); [split; [discriminate|reflexivity]|exact E].
  - apply in_range_spec in Hy. destruct Hn. apply Hm. cbn in Hy. change PGSIZE with 4096. lia.
Defined.
