(* ===== verification/Bio.v ===== *)
(** kernel/sleeplock.c and kernel/bio.c: sleep-locks and the buffer cache.

    The cache is a doubly linked ring through [b_prev] and [b_next], with the
    list head at index [NBUF].  A disk transfer ([disk_rw]) is
    taken as one step: the calling process must hold no other spinlock, because
    it sleeps until the device answers, and only the device acts meanwhile. *)

From S2P Require Import Prelude Layout Kernel Sched.

(** ** sleeplock.c *)

(** The sleep-locks of the kernel: one per buffer, one per inode. *)
Inductive slid : Type := SlBuf (i : nat) | SlInode (i : nat).

Definition sl_spin (x : slid) : lockid :=
  match x with SlBuf i => LkBuf i | SlInode i => LkInode i end.
Definition sl_chan (x : slid) : chan :=
  match x with SlBuf i => ChBufLock i | SlInode i => ChInodeLock i end.
Definition get_sl (x : slid) : K sleeplock :=
  match x with
  | SlBuf i => let* b := get_buf i in ret (b_lock b)
  | SlInode i => let* ip := get_inode i in ret (i_lock ip)
  end.
Definition mod_sl (x : slid) (f : sleeplock -> sleeplock) : K unit :=
  match x with
  | SlBuf i => mod_buf i (fun b => b <| b_lock ::= f |>)
  | SlInode i => mod_inode i (fun ip => ip <| i_lock ::= f |>)
  end.

Definition initsleeplock (x : slid) : K unit :=
  mod_sl x (fun l => l <| sl_locked := false |> <| sl_pid := 0 |>).

(** while(lk->locked) sleep(lk, &lk->lk); *)
Fixpoint acquiresleep_loop (fuel : nat) (x : slid) : K unit :=
  match fuel with
  | O => diverge
  | S f =>
      let* l := get_sl x in
      if sl_locked l then sleep (sl_chan x) (sl_spin x) ;; acquiresleep_loop f x
      else ret tt
  end.

(** Each sleep uses up one element of the schedule. *)
Definition waiting {A} (loop : nat -> K A) : K A := fun w => loop (S (length (w_env w))) w.

Definition mypid : K Z :=
  let* i := curproc in let* p := get_proc i in ret (p_pid p).

Definition acquiresleep (x : slid) : K unit :=
  acquire (sl_spin x) ;;
  waiting (fun fuel => acquiresleep_loop fuel x) ;;
  mod_sl x (fun l => l <| sl_locked := true |>) ;;
  let* pid := mypid in
  mod_sl x (fun l => l <| sl_pid := pid |>) ;;
  release (sl_spin x).

Definition releasesleep (x : slid) : K unit :=
  acquire (sl_spin x) ;;
  mod_sl x (fun l => l <| sl_locked := false |> <| sl_pid := 0 |>) ;;
  wakeup (sl_chan x) ;;
  release (sl_spin x).

(** [lk->pid == myproc()->pid] is evaluated only when the lock is taken. *)
Definition holdingsleep (x : slid) : K bool :=
  acquire (sl_spin x) ;;
  let* l := get_sl x in
  let* r := (if sl_locked l then let* pid := mypid in ret (sl_pid l =? pid) else ret false) in
  release (sl_spin x) ;;
  ret r.

(** ** bio.c *)

(** &bcache.head *)
Definition bhead : nat := NBUF.

Definition binit : K unit :=
  mod_buf bhead (fun b => b <| b_prev := bhead |>) ;;
  mod_buf bhead (fun b => b <| b_next := bhead |>) ;;
  for_loop NBUF 0 (fun i =>
    let* h := get_buf bhead in
    mod_buf i (fun b => b <| b_next := b_next h |>) ;;
    mod_buf i (fun b => b <| b_prev := bhead |>) ;;
    initsleeplock (SlBuf i) ;;
    let* h := get_buf bhead in
    mod_buf (b_next h) (fun b => b <| b_prev := i |>) ;;
    mod_buf bhead (fun b => b <| b_next := i |>)).

(** for(b = start; b != &bcache.head; b = step(b)) if(test(b)) return b; *)
Fixpoint bscan (fuel : nat) (step : buf -> nat) (test : buf -> bool) (i : nat) : K (option nat) :=
  if (i =? bhead)%nat then ret None
  else
    match fuel with
    | O => diverge
    | S f =>
        let* b := get_buf i in
        if test b then ret (Some i) else bscan f step test (step b)
    end.

(** The ring has [NBUF] buffers, so [NBUF] steps reach the head again. *)
Definition bget (dev blockno : Z) : K nat :=
  acquire LkBcache ;;
  let* h := get_buf bhead in
  let* r := bscan NBUF b_next (fun b => (b_dev b =? dev) && (b_blockno b =? blockno)) (b_next h) in
  match r with
  | Some i =>
      mod_buf i (fun b => b <| b_refcnt ::= fun c => u32 (c + 1) |>) ;;
      release LkBcache ;;
      acquiresleep (SlBuf i) ;;
      ret i
  | None =>
      let* h := get_buf bhead in
      let* r := bscan NBUF b_prev (fun b => b_refcnt b =? 0) (b_prev h) in
      match r with
      | Some i =>
          mod_buf i (fun b => b <| b_dev := dev |> <| b_blockno := blockno |>
            <| b_valid := false |> <| b_refcnt := 1 |>) ;;
          release LkBcache ;;
          acquiresleep (SlBuf i) ;;
          ret i
      | None => panic "bget: no buffers"
      end
  end.

(** One transfer between a buffer and the disk. *)
Definition disk_transfer (i : nat) (write : bool) : K unit :=
  let* b := get_buf i in
  if write then
    modify (fun s => s <| k_disk := fun x => if x =? b_blockno b then b_data b else k_disk s x |>
      <| k_writes ::= fun ws => ws ++ [(b_blockno b, b_data b)] |>)
  else
    let* d := gets k_disk in
    mod_buf i (fun b' => b' <| b_data := d (b_blockno b) |>).

Definition disk_rw (i : nat) (write : bool) : K unit :=
  acquire LkVdisk ;;
  curproc ;;
  let* held := gets k_held in
  if negb (length held =? 1)%nat then panic "sched locks"
  else
    disk_transfer i write ;;
    release LkVdisk.

Definition bread (dev blockno : Z) : K nat :=
  let* i := bget dev blockno in
  let* b := get_buf i in
  (when negb (b_valid b) do
    disk_rw i false ;;
    mod_buf i (fun b => b <| b_valid := true |>)) ;;
  ret i.

Definition bwrite (i : nat) : K unit :=
  let* h := holdingsleep (SlBuf i) in
  if negb h then panic "bwrite" else disk_rw i true.

Definition brelse (i : nat) : K unit :=
  let* h := holdingsleep (SlBuf i) in
  if negb h then panic "brelse"
  else
    releasesleep (SlBuf i) ;;
    acquire LkBcache ;;
    mod_buf i (fun b => b <| b_refcnt ::= fun c => u32 (c - 1) |>) ;;
    let* b := get_buf i in
    (when b_refcnt b =? 0 do
      mod_buf (b_next b) (fun x => x <| b_prev := b_prev b |>) ;;
      mod_buf (b_prev b) (fun x => x <| b_next := b_next b |>) ;;
      let* h := get_buf bhead in
      mod_buf i (fun x => x <| b_next := b_next h |>) ;;
      mod_buf i (fun x => x <| b_prev := bhead |>) ;;
      mod_buf (b_next h) (fun x => x <| b_prev := i |>) ;;
      mod_buf bhead (fun x => x <| b_next := i |>)) ;;
    release LkBcache.

Definition bpin (i : nat) : K unit :=
  acquire LkBcache ;;
  mod_buf i (fun b => b <| b_refcnt ::= fun c => u32 (c + 1) |>) ;;
  release LkBcache.

Definition bunpin (i : nat) : K unit :=
  acquire LkBcache ;;
  mod_buf i (fun b => b <| b_refcnt ::= fun c => u32 (c - 1) |>) ;;
  release LkBcache.
