(* ===== verification/Virtio.v ===== *)
(** kernel/virtio_disk.c: the driver of the virtio disk.

    The descriptors, the two rings and the driver's own tables are the record
    [vdisk]; a pointer in a descriptor names the object it points to.  Reads of
    a device register return what the device answers ([R], a parameter, which
    may depend on the registers written so far); writes are recorded.

    The device is not code of the kernel.  [dev_take] and [dev_complete] are
    what the virtio specification documents of it: it takes chain heads from
    the available ring, carries out the request a chain describes at the
    512-byte sector it names, writes the status byte and puts the head on the
    used ring, in any order. *)

From S2P Require Import Prelude Layout Strings Kernel Sched Kalloc Bio.

Definition NUM : nat := 8.

Definition VIRTIO_MMIO_MAGIC_VALUE : Z := 0x000.
Definition VIRTIO_MMIO_VERSION : Z := 0x004.
Definition VIRTIO_MMIO_DEVICE_ID : Z := 0x008.
Definition VIRTIO_MMIO_VENDOR_ID : Z := 0x00c.
Definition VIRTIO_MMIO_DEVICE_FEATURES : Z := 0x010.
Definition VIRTIO_MMIO_DRIVER_FEATURES : Z := 0x020.
Definition VIRTIO_MMIO_QUEUE_SEL : Z := 0x030.
Definition VIRTIO_MMIO_QUEUE_NUM_MAX : Z := 0x034.
Definition VIRTIO_MMIO_QUEUE_NUM : Z := 0x038.
Definition VIRTIO_MMIO_QUEUE_READY : Z := 0x044.
Definition VIRTIO_MMIO_QUEUE_NOTIFY : Z := 0x050.
Definition VIRTIO_MMIO_INTERRUPT_STATUS : Z := 0x060.
Definition VIRTIO_MMIO_INTERRUPT_ACK : Z := 0x064.
Definition VIRTIO_MMIO_STATUS : Z := 0x070.
Definition VIRTIO_MMIO_QUEUE_DESC_LOW : Z := 0x080.
Definition VIRTIO_MMIO_QUEUE_DESC_HIGH : Z := 0x084.
Definition VIRTIO_MMIO_DRIVER_DESC_LOW : Z := 0x090.
Definition VIRTIO_MMIO_DRIVER_DESC_HIGH : Z := 0x094.
Definition VIRTIO_MMIO_DEVICE_DESC_LOW : Z := 0x0a0.
Definition VIRTIO_MMIO_DEVICE_DESC_HIGH : Z := 0x0a4.

Definition VIRTIO_CONFIG_S_ACKNOWLEDGE : Z := 1.
Definition VIRTIO_CONFIG_S_DRIVER : Z := 2.
Definition VIRTIO_CONFIG_S_DRIVER_OK : Z := 4.
Definition VIRTIO_CONFIG_S_FEATURES_OK : Z := 8.

Definition VIRTIO_BLK_F_RO : Z := 5.
Definition VIRTIO_BLK_F_SCSI : Z := 7.
Definition VIRTIO_BLK_F_CONFIG_WCE : Z := 11.
Definition VIRTIO_BLK_F_MQ : Z := 12.
Definition VIRTIO_F_ANY_LAYOUT : Z := 27.
Definition VIRTIO_RING_F_INDIRECT_DESC : Z := 28.
Definition VIRTIO_RING_F_EVENT_IDX : Z := 29.

Definition VRING_DESC_F_NEXT : Z := 1.
Definition VRING_DESC_F_WRITE : Z := 2.
Definition VIRTIO_BLK_T_IN : Z := 0.
Definition VIRTIO_BLK_T_OUT : Z := 1.
Definition sizeof_virtio_blk_req : Z := 16.

(** ** The driver's tables *)

Definition mod_vd (f : vdisk -> vdisk) : K unit := modify (fun s => s <| k_vdisk ::= f |>).

(** Element [i] of a table of the driver, [i] an int. *)
Definition vd_at {A} (f : vdisk -> list A) (i : Z) : K A :=
  let* d := gets k_vdisk in if i <? 0 then fault else index (f d) (Z.to_nat i).

Definition mod_desc (i : Z) (f : virtq_desc -> virtq_desc) : K unit :=
  vd_at vd_desc i ;; mod_vd (fun d => d <| vd_desc ::= alter f (Z.to_nat i) |>).
Definition mod_info (i : Z) (f : vinfo -> vinfo) : K unit :=
  vd_at vd_info i ;; mod_vd (fun d => d <| vd_info ::= alter f (Z.to_nat i) |>).
Definition mod_ops (i : Z) (f : virtio_blk_req -> virtio_blk_req) : K unit :=
  vd_at vd_ops i ;; mod_vd (fun d => d <| vd_ops ::= alter f (Z.to_nat i) |>).

Definition alloc_desc : K Z :=
  let* r := for_ret NUM 0 (fun i =>
    let* fr := vd_at vd_free (Z.of_nat i) in
    if fr : bool then
      mod_vd (fun d => d <| vd_free ::= <[i := false]> |>) ;; ret (Some (Z.of_nat i))
    else ret None) in
  ret (match r with Some i => i | None => -1 end).

Definition free_desc (i : Z) : K unit :=
  if Z.of_nat NUM <=? i then panic "free_desc 1"
  else
    let* fr := vd_at vd_free i in
    if fr : bool then panic "free_desc 2"
    else
      mod_desc i (fun d => d <| d_addr := VNull |> <| d_len := 0 |> <| d_flags := 0 |> <| d_next := 0 |>) ;;
      mod_vd (fun d => d <| vd_free ::= <[Z.to_nat i := true]> |>) ;;
      wakeup ChDiskFree.

(** Every round frees a descriptor that was not free, so [NUM] rounds are
    enough. *)
Fixpoint free_chain_loop (fuel : nat) (i : Z) : K unit :=
  match fuel with
  | O => diverge
  | S f =>
      let* d := vd_at vd_desc i in
      let flag := d_flags d in
      let nxt := d_next d in
      free_desc i ;;
      if negb (Z.land flag VRING_DESC_F_NEXT =? 0) then free_chain_loop f nxt else ret tt
  end.

Definition free_chain (i : Z) : K unit := free_chain_loop NUM i.

Fixpoint free_descs (l : list Z) : K unit :=
  match l with [] => ret tt | j :: l' => free_desc j ;; free_descs l' end.

(** [idx] are the descriptors allocated so far; [None] when there are fewer
    than three. *)
Fixpoint alloc3_loop (n : nat) (idx : list Z) : K (option (list Z)) :=
  match n with
  | O => ret (Some idx)
  | S n' =>
      let* j := alloc_desc in
      if j <? 0 then free_descs idx ;; ret None
      else alloc3_loop n' (idx ++ [j])
  end.

Definition alloc3_desc : K (option (list Z)) := alloc3_loop 3 [].

Section Driver.
Variable R : list (Z * Z) -> Z -> Z.

Definition mmio_read (r : Z) : K Z := let* d := gets k_vdisk in ret (u32 (R (vd_regs d) r)).
Definition mmio_write (r v : Z) : K unit :=
  mod_vd (fun d => d <| vd_regs ::= fun l => l ++ [(r, u32 v)] |>).

(** The features the driver does not want, cleared one by one. *)
Definition negotiate (features : Z) : Z :=
  fold_left (fun x b => Z.land x (Z.lnot (Z.shiftl 1 b)))
    [VIRTIO_BLK_F_RO; VIRTIO_BLK_F_SCSI; VIRTIO_BLK_F_CONFIG_WCE; VIRTIO_BLK_F_MQ; VIRTIO_F_ANY_LAYOUT;
     VIRTIO_RING_F_EVENT_IDX; VIRTIO_RING_F_INDIRECT_DESC] features.

(** The three pages hold the descriptors and the rings, which are then zero. *)
Definition init_queues : K unit :=
  let* desc := kalloc in
  let* avail := kalloc in
  let* used := kalloc in
  if (desc =? 0) || (avail =? 0) || (used =? 0) then panic "virtio disk kalloc"
  else
    mod_mem (fun m => mfill m desc 0 PGSIZE) ;;
    mod_mem (fun m => mfill m avail 0 PGSIZE) ;;
    mod_mem (fun m => mfill m used 0 PGSIZE) ;;
    mod_vd (fun d => d <| vd_desc := replicate NUM (mkDesc VNull 0 0 0) |>
      <| vd_avail_idx := 0 |> <| vd_avail := replicate NUM 0 |>
      <| vd_dev_idx := 0 |> <| vd_used := replicate NUM 0 |>) ;;
    mmio_write VIRTIO_MMIO_QUEUE_NUM (Z.of_nat NUM) ;;
    mmio_write VIRTIO_MMIO_QUEUE_DESC_LOW desc ;;
    mmio_write VIRTIO_MMIO_QUEUE_DESC_HIGH (Z.shiftr desc 32) ;;
    mmio_write VIRTIO_MMIO_DRIVER_DESC_LOW avail ;;
    mmio_write VIRTIO_MMIO_DRIVER_DESC_HIGH (Z.shiftr avail 32) ;;
    mmio_write VIRTIO_MMIO_DEVICE_DESC_LOW used ;;
    mmio_write VIRTIO_MMIO_DEVICE_DESC_HIGH (Z.shiftr used 32).

Definition virtio_disk_init : K unit :=
  let* magic := mmio_read VIRTIO_MMIO_MAGIC_VALUE in
  let* version := mmio_read VIRTIO_MMIO_VERSION in
  let* device := mmio_read VIRTIO_MMIO_DEVICE_ID in
  let* vendor := mmio_read VIRTIO_MMIO_VENDOR_ID in
  if negb (magic =? 0x74726976) || negb (version =? 2) || negb (device =? 2) || negb (vendor =? 0x554d4551)
  then panic "could not find virtio disk"
  else
    let status := 0 in
    mmio_write VIRTIO_MMIO_STATUS status ;;
    let status := Z.lor status VIRTIO_CONFIG_S_ACKNOWLEDGE in
    mmio_write VIRTIO_MMIO_STATUS status ;;
    let status := Z.lor status VIRTIO_CONFIG_S_DRIVER in
    mmio_write VIRTIO_MMIO_STATUS status ;;
    let* features := mmio_read VIRTIO_MMIO_DEVICE_FEATURES in
    mmio_write VIRTIO_MMIO_DRIVER_FEATURES (negotiate features) ;;
    let status := Z.lor status VIRTIO_CONFIG_S_FEATURES_OK in
    mmio_write VIRTIO_MMIO_STATUS status ;;
    let* status := mmio_read VIRTIO_MMIO_STATUS in
    if Z.land status VIRTIO_CONFIG_S_FEATURES_OK =? 0 then panic "virtio disk FEATURES_OK unset"
    else
      mmio_write VIRTIO_MMIO_QUEUE_SEL 0 ;;
      let* ready := mmio_read VIRTIO_MMIO_QUEUE_READY in
      if negb (ready =? 0) then panic "virtio disk should not be ready"
      else
        let* max := mmio_read VIRTIO_MMIO_QUEUE_NUM_MAX in
        if max =? 0 then panic "virtio disk has no queue 0"
        else if max <? Z.of_nat NUM then panic "virtio disk max queue too short"
        else
          init_queues ;;
          mmio_write VIRTIO_MMIO_QUEUE_READY 1 ;;
          mod_vd (fun d => d <| vd_free := replicate NUM true |>) ;;
          mmio_write VIRTIO_MMIO_STATUS (Z.lor status VIRTIO_CONFIG_S_DRIVER_OK).

(** ** Requests *)

(** while(1) until three descriptors are allocated. *)
Fixpoint rw_alloc_loop (fuel : nat) : K (list Z) :=
  match fuel with
  | O => diverge
  | S f =>
      let* r := alloc3_desc in
      match r with
      | Some idx => ret idx
      | None => sleep ChDiskFree LkVdisk ;; rw_alloc_loop f
      end
  end.

(** Fill in the three descriptors and hand the chain to the device. *)
Definition rw_post (b : nat) (write : bool) (sector i0 i1 i2 : Z) : K unit :=
  mod_ops i0 (fun r => r <| rq_type := if write then VIRTIO_BLK_T_OUT else VIRTIO_BLK_T_IN |>
    <| rq_reserved := 0 |> <| rq_sector := sector |>) ;;
  mod_desc i0 (fun d => d <| d_addr := VOps (Z.to_nat i0) |> <| d_len := sizeof_virtio_blk_req |>
    <| d_flags := VRING_DESC_F_NEXT |> <| d_next := u16 i1 |>) ;;
  mod_desc i1 (fun d => d <| d_addr := VData b |> <| d_len := BSIZE |>
    <| d_flags := if write then 0 else VRING_DESC_F_WRITE |>
    <| d_flags ::= fun x => Z.lor x VRING_DESC_F_NEXT |> <| d_next := u16 i2 |>) ;;
  mod_info i0 (fun x => x <| in_status := 0xff |>) ;;
  mod_desc i2 (fun d => d <| d_addr := VStatus (Z.to_nat i0) |> <| d_len := 1 |>
    <| d_flags := VRING_DESC_F_WRITE |> <| d_next := 0 |>) ;;
  mod_buf b (fun x => x <| b_disk := true |>) ;;
  mod_info i0 (fun x => x <| in_b := Some b |>) ;;
  mod_vd (fun d => d <| vd_avail ::= <[Z.to_nat (vd_avail_idx d mod Z.of_nat NUM) := u16 i0]> |>) ;;
  mod_vd (fun d => d <| vd_avail_idx ::= fun x => u16 (x + 1) |>) ;;
  mmio_write VIRTIO_MMIO_QUEUE_NOTIFY 0.

(** while(b->disk == 1) sleep(b, &disk.vdisk_lock); *)
Fixpoint rw_wait_loop (fuel : nat) (b : nat) : K unit :=
  match fuel with
  | O => diverge
  | S f =>
      let* bf := get_buf b in
      if b_disk bf then sleep (ChBuf b) LkVdisk ;; rw_wait_loop f b else ret tt
  end.

Definition rw_finish (i0 : Z) : K unit :=
  mod_info i0 (fun x => x <| in_b := None |>) ;;
  free_chain i0.

Definition virtio_disk_rw (b : nat) (write : bool) : K unit :=
  let* bf := get_buf b in
  let sector := u32 (b_blockno bf * (BSIZE / 512)) in
  acquire LkVdisk ;;
  let* idx := waiting rw_alloc_loop in
  match idx with
  | [i0; i1; i2] =>
      rw_post b write sector i0 i1 i2 ;;
      waiting (fun fuel => rw_wait_loop fuel b) ;;
      rw_finish i0 ;;
      release LkVdisk
  | _ => fault
  end.

(** One completed request: its buffer is the process's again. *)
Definition intr_one : K unit :=
  let* d := gets k_vdisk in
  let* id := vd_at vd_used (vd_used_idx d mod Z.of_nat NUM) in
  let* inf := vd_at vd_info id in
  if negb (in_status inf =? 0) then panic "virtio_disk_intr status"
  else
    match in_b inf with
    | None => fault
    | Some b =>
        mod_buf b (fun x => x <| b_disk := false |>) ;;
        wakeup (ChBuf b) ;;
        mod_vd (fun d => d <| vd_used_idx ::= fun x => u16 (x + 1) |>)
    end.

(** while(disk.used_idx != disk.used->idx): one round per entry between the
    two 16-bit indices. *)
Fixpoint intr_loop (fuel : nat) : K unit :=
  let* d := gets k_vdisk in
  if vd_used_idx d =? vd_dev_idx d then ret tt
  else match fuel with O => diverge | S f => intr_one ;; intr_loop f end.

Definition virtio_disk_intr : K unit :=
  acquire LkVdisk ;;
  let* st := mmio_read VIRTIO_MMIO_INTERRUPT_STATUS in
  mmio_write VIRTIO_MMIO_INTERRUPT_ACK (Z.land st 0x3) ;;
  let* d := gets k_vdisk in
  intr_loop (Z.to_nat (u16 (vd_dev_idx d - vd_used_idx d))) ;;
  release LkVdisk.
End Driver.

(** ** The device, as the virtio specification documents it *)

(** It reads the next head from the available ring. *)
Definition dev_take (s : kernel) : option kernel :=
  let d := k_vdisk s in
  if vd_last d =? vd_avail_idx d then None
  else
    h ← vd_avail d !! Z.to_nat (vd_last d mod Z.of_nat NUM);
    Some (s <| k_vdisk ::= fun d => d <| vd_last ::= fun x => u16 (x + 1) |>
      <| vd_taken ::= fun l => l ++ [Z.to_nat h] |> |>).

(** The objects the three descriptors of a chain point to. *)
Definition dev_chain (d : vdisk) (h : nat) : option (virtio_blk_req * nat * bool * nat) :=
  d0 ← vd_desc d !! h;
  d1 ← vd_desc d !! Z.to_nat (d_next d0);
  d2 ← vd_desc d !! Z.to_nat (d_next d1);
  match d_addr d0, d_addr d1, d_addr d2 with
  | VOps j, VData b, VStatus i =>
      rq ← vd_ops d !! j;
      if (d_flags d0 =? VRING_DESC_F_NEXT) && (d_len d1 =? BSIZE) &&
         negb (Z.land (d_flags d1) VRING_DESC_F_NEXT =? 0) && (d_flags d2 =? VRING_DESC_F_WRITE)
      then Some (rq, b, negb (Z.land (d_flags d1) VRING_DESC_F_WRITE =? 0), i) else None
  | _, _, _ => None
  end.

(** The BSIZE bytes of the disk that start at a sector of 512 bytes; a block is
    two sectors, so that an odd sector starts in the middle of a block. *)
Definition sectors (disk : Z -> list Z) (sector : Z) : list Z :=
  let blk := sector / 2 in
  if Z.even sector then disk blk else drop 512 (disk blk) ++ take 512 (disk (blk + 1)).

(** The blocks that a write of [data] from a sector on changes. *)
Definition sector_writes (disk : Z -> list Z) (sector : Z) (data : list Z) : list (Z * list Z) :=
  let blk := sector / 2 in
  if Z.even sector then [(blk, data)]
  else [(blk, take 512 (disk blk) ++ take 512 data); (blk + 1, drop 512 data ++ drop 512 (disk (blk + 1)))].

(** It carries out the request of the chain [h], at the sector that it names. *)
Definition dev_complete (h : nat) (s : kernel) : option kernel :=
  let d := k_vdisk s in
  if decide (h ∈ vd_taken d) then
    '(rq, b, writable, i) ← dev_chain d h;
    bf ← k_bufs s !! b;
    let ws := sector_writes (k_disk s) (rq_sector rq) (b_data bf) in
    s1 ← (if (rq_type rq =? VIRTIO_BLK_T_OUT) && negb writable then
            Some (s <| k_disk := foldl (fun d '(blk, x) y => if y =? blk then x else d y) (k_disk s) ws |>
              <| k_writes ::= fun old => old ++ ws |>)
          else if (rq_type rq =? VIRTIO_BLK_T_IN) && writable then
            Some (s <| k_bufs ::= alter (fun x => x <| b_data := sectors (k_disk s) (rq_sector rq) |>) b |>)
          else None);
    Some (s1 <| k_vdisk ::= fun d => d <| vd_info ::= alter (fun x => x <| in_status := 0 |>) i |>
      <| vd_used ::= <[Z.to_nat (vd_dev_idx d mod Z.of_nat NUM) := Z.of_nat h]> |>
      <| vd_dev_idx ::= fun x => u16 (x + 1) |>
      <| vd_taken ::= filter (fun x => x <> h) |> |>)
  else None.
