(* ===== verification/Log.v ===== *)
(** kernel/log.c: the write-ahead log. *)

From S2P Require Import Prelude Layout Kernel Sched Bio.

(** struct logheader: int n; int block[LOGSIZE] *)
Definition sizeof_logheader : Z := 4 + 4 * LOGSIZE.

(** log.lh.block[i] and its assignment; an index outside the array is
    undefined behaviour. *)
Definition lh_get (i : nat) : K Z := let* l := gets k_log in index (lh_block l) i.
Definition lh_set (i : nat) (v : Z) : K unit :=
  lh_get i ;; mod_log (fun l => l <| lh_block ::= <[i := i32 v]> |>).

(** The header fields of a block. *)
Definition hb_n (data : list Z) : Z := i32 (rdn 4 data 0).
Definition hb_block (data : list Z) (i : nat) : Z := i32 (rdn 4 data (4 + 4 * i)).
Definition hb_set_n (v : Z) (data : list Z) : list Z := wrn 4 data 0 v.
Definition hb_set_block (i : nat) (v : Z) (data : list Z) : list Z := wrn 4 data (4 + 4 * i) v.

Definition mod_data (i : nat) (f : list Z -> list Z) : K unit :=
  mod_buf i (fun b => b <| b_data ::= f |>).

(** One iteration of the loop of install_trans(). *)
Definition install_one (recovering : bool) (tail : nat) : K unit :=
  let* lg := gets k_log in
  let* lbuf := bread (log_dev lg) (u32 (log_start lg + Z.of_nat tail + 1)) in
  let* lg := gets k_log in
  let* bn := lh_get tail in
  let* dbuf := bread (log_dev lg) (u32 bn) in
  let* lb := get_buf lbuf in
  mod_data dbuf (fun _ => b_data lb) ;;
  bwrite dbuf ;;
  (when negb recovering do bunpin dbuf) ;;
  brelse lbuf ;;
  brelse dbuf.

Definition install_trans (recovering : bool) : K unit :=
  let* lg := gets k_log in
  for_loop (Z.to_nat (lh_n lg)) 0 (install_one recovering).

Definition read_head : K unit :=
  let* lg := gets k_log in
  let* i := bread (log_dev lg) (u32 (log_start lg)) in
  let* b := get_buf i in
  mod_log (fun l => l <| lh_n := hb_n (b_data b) |>) ;;
  for_loop (Z.to_nat (hb_n (b_data b))) 0 (fun j => lh_set j (hb_block (b_data b) j)) ;;
  brelse i.

Definition write_head : K unit :=
  let* lg := gets k_log in
  let* i := bread (log_dev lg) (u32 (log_start lg)) in
  mod_data i (hb_set_n (lh_n lg)) ;;
  for_loop (Z.to_nat (lh_n lg)) 0 (fun j =>
    let* v := lh_get j in mod_data i (hb_set_block j v)) ;;
  bwrite i ;;
  brelse i.

Definition recover_from_log : K unit :=
  read_head ;;
  install_trans true ;;
  mod_log (fun l => l <| lh_n := 0 |>) ;;
  write_head.

Definition initlog (dev : Z) (sb : superblock) : K unit :=
  if BSIZE <=? sizeof_logheader then panic "initlog: too big logheader"
  else
    mod_log (fun l => l <| log_start := i32 (sb_logstart sb) |>
      <| log_size := i32 (sb_nlog sb) |> <| log_dev := i32 dev |>) ;;
    recover_from_log.

(** The while(1) loop of begin_op(), with log.lock held. *)
Fixpoint begin_op_loop (fuel : nat) : K unit :=
  match fuel with
  | O => diverge
  | S f =>
      let* lg := gets k_log in
      if log_committing lg then sleep ChLog LkLog ;; begin_op_loop f
      else if LOGSIZE <? lh_n lg + (log_outstanding lg + 1) * MAXOPBLOCKS then
        sleep ChLog LkLog ;; begin_op_loop f
      else
        mod_log (fun l => l <| log_outstanding ::= fun c => i32 (c + 1) |>) ;;
        release LkLog
  end.

Definition begin_op : K unit :=
  acquire LkLog ;; waiting begin_op_loop.

(** One iteration of the loop of write_log(). *)
Definition write_log_one (tail : nat) : K unit :=
  let* lg := gets k_log in
  let* to := bread (log_dev lg) (u32 (log_start lg + Z.of_nat tail + 1)) in
  let* lg := gets k_log in
  let* bn := lh_get tail in
  let* from := bread (log_dev lg) (u32 bn) in
  let* fb := get_buf from in
  mod_data to (fun _ => b_data fb) ;;
  bwrite to ;;
  brelse from ;;
  brelse to.

Definition write_log : K unit :=
  let* lg := gets k_log in
  for_loop (Z.to_nat (lh_n lg)) 0 write_log_one.

Definition commit : K unit :=
  let* lg := gets k_log in
  when 0 <? lh_n lg do
    (write_log ;;
     write_head ;;
     install_trans false ;;
     mod_log (fun l => l <| lh_n := 0 |>) ;;
     write_head).

Definition end_op : K unit :=
  acquire LkLog ;;
  mod_log (fun l => l <| log_outstanding ::= fun c => i32 (c - 1) |>) ;;
  let* lg := gets k_log in
  if log_committing lg then panic "log.committing"
  else
    let do_commit := log_outstanding lg =? 0 in
    (if do_commit then mod_log (fun l => l <| log_committing := true |>)
     else wakeup ChLog) ;;
    release LkLog ;;
    (when do_commit do
      (commit ;;
       acquire LkLog ;;
       mod_log (fun l => l <| log_committing := false |>) ;;
       wakeup ChLog ;;
       release LkLog)).

(** The search of log_write(): the index of the block in the log, [n] if it is
    not there yet. *)
Fixpoint log_absorb (n i : nat) (blocks : list Z) (blockno : Z) : nat :=
  match n with
  | O => i
  | S n' =>
      if u32 (nth i blocks 0) =? blockno then i else log_absorb n' (S i) blocks blockno
  end.

Definition log_write (b : nat) : K unit :=
  acquire LkLog ;;
  let* lg := gets k_log in
  if (LOGSIZE <=? lh_n lg) || (log_size lg - 1 <=? lh_n lg) then panic "too big a transaction"
  else if log_outstanding lg <? 1 then panic "log_write outside of trans"
  else
    let* bf := get_buf b in
    let i := log_absorb (Z.to_nat (lh_n lg)) 0 (lh_block lg) (b_blockno bf) in
    lh_set i (b_blockno bf) ;;
    (when Z.of_nat i =? lh_n lg do
      bpin b ;;
      mod_log (fun l => l <| lh_n ::= fun c => i32 (c + 1) |>)) ;;
    release LkLog.
