(* ===== verification/Fs.v ===== *)
(** kernel/fs.c: blocks, inodes and their contents; either_copyin() and
    either_copyout() of kernel/proc.c.

    An inode pointer is the index of the entry in itable, [None] when null.
    An on-disk inode, bitmap byte or indirect entry is read and written at its
    byte offset in the buffer's data. *)

From S2P Require Import Prelude Layout Strings Kernel Sched Printf Kalloc Vm Bio Log.

(** ** proc.c: copies to and from user or kernel memory *)

(** Where a copy goes: user memory of the current process, kernel memory, or
    the byte [pos] of a local variable of the caller, whose bytes are returned. *)
Inductive dest : Type := DUser (va : Z) | DKern (pa : Z) | DLocal (pos : Z).
Inductive source : Type := SUser (va : Z) | SKern (pa : Z) | SLocal (l : list Z).

(** dst += m, src += m *)
Definition dest_add (d : dest) (m : Z) : dest :=
  match d with
  | DUser va => DUser (u64 (va + m))
  | DKern pa => DKern (u64 (pa + m))
  | DLocal pos => DLocal (pos + m)
  end.
Definition source_add (d : source) (m : Z) : source :=
  match d with
  | SUser va => SUser (u64 (va + m))
  | SKern pa => SKern (u64 (pa + m))
  | SLocal l => SLocal (drop (Z.to_nat m) l)
  end.

Definition mypagetable : K Z :=
  let* i := curproc in let* p := get_proc i in ret (p_pagetable p).

Definition either_copyout (dst : dest) (src : list Z) : K Z :=
  match dst with
  | DUser va => let* pt := mypagetable in copyout pt va src
  | DKern pa => mod_mem (fun m => mwrite m pa src) ;; ret 0
  | DLocal _ => ret 0
  end.

(** The bytes that have been stored in a local variable, after a copy of [src]. *)
Definition local_store (dst : dest) (src buf : list Z) : list Z :=
  match dst with DLocal pos => wrb buf (Z.to_nat pos) src | _ => buf end.

Definition either_copyin (src : source) (len : Z) : K (Z * list Z) :=
  match src with
  | SUser va => let* pt := mypagetable in copyin pt va len
  | SKern pa => let* m := gets k_mem in ret (0, mread m pa (Z.to_nat len))
  | SLocal l => ret (0, take (Z.to_nat len) l)
  end.

(** ** The super block *)

Definition sb_of_bytes (d : list Z) : superblock :=
  mkSuperblock (rdn 4 d 0) (rdn 4 d 4) (rdn 4 d 8) (rdn 4 d 12) (rdn 4 d 16) (rdn 4 d 20)
    (rdn 4 d 24) (rdn 4 d 28).

Definition readsb (dev : Z) : K superblock :=
  let* i := bread (u32 dev) 1 in
  let* b := get_buf i in
  brelse i ;;
  ret (sb_of_bytes (b_data b)).

Definition fsinit (dev : Z) : K unit :=
  let* sb := readsb dev in
  modify (fun s => s <| k_sb := sb |>) ;;
  if negb (sb_magic sb =? FSMAGIC) then panic "invalid file system"
  else initlog dev sb.

(** ** Blocks *)

Definition zero_block : list Z := replicate (Z.to_nat BSIZE) 0.

Definition bzero (dev bno : Z) : K unit :=
  let* bp := bread (u32 dev) (u32 bno) in
  mod_data bp (fun _ => zero_block) ;;
  log_write bp ;;
  brelse bp.

Definition bit_mask (bi : Z) : Z := Z.shiftl 1 (bi mod 8).
Definition bit_byte (data : list Z) (bi : Z) : Z := nth (Z.to_nat (bi / 8)) data 0.
Definition bit_set (bi : Z) (data : list Z) : list Z :=
  <[Z.to_nat (bi / 8) := Z.lor (bit_byte data bi) (bit_mask bi)]> data.
Definition bit_clear (bi : Z) (data : list Z) : list Z :=
  <[Z.to_nat (bi / 8) := Z.land (bit_byte data bi) (u8 (Z.lnot (bit_mask bi)))]> data.

(** for(bi = ...; bi < BPB && b + bi < sb.size; bi++) until a clear bit *)
Fixpoint balloc_scan (n : nat) (bi b size : Z) (data : list Z) : option Z :=
  match n with
  | O => None
  | S n' =>
      if b + bi <? size then
        if Z.land (bit_byte data bi) (bit_mask bi) =? 0 then Some bi
        else balloc_scan n' (bi + 1) b size data
      else None
  end.

Fixpoint balloc_loop (fuel : nat) (dev b : Z) : K Z :=
  match fuel with
  | O => diverge
  | S f =>
      let* sb := gets k_sb in
      if b <? sb_size sb then
        let* bp := bread dev (BBLOCK b sb) in
        let* bf := get_buf bp in
        match balloc_scan (Z.to_nat BPB) 0 b (sb_size sb) (b_data bf) with
        | Some bi =>
            mod_data bp (bit_set bi) ;;
            log_write bp ;;
            brelse bp ;;
            bzero dev (b + bi) ;;
            ret (b + bi)
        | None =>
            brelse bp ;;
            balloc_loop f dev (b + BPB)
        end
      else
        printf (bytes "balloc: out of blocks" ++ nl) [] ;;
        ret 0
  end.

(** One round per bitmap block. *)
Definition balloc (dev : Z) : K Z :=
  let* sb := gets k_sb in
  balloc_loop (S (S (Z.to_nat (sb_size sb / BPB)))) dev 0.

Definition bfree (dev b : Z) : K unit :=
  let* sb := gets k_sb in
  let* bp := bread (u32 dev) (BBLOCK b sb) in
  let bi := b mod BPB in
  let* bf := get_buf bp in
  if Z.land (bit_byte (b_data bf) bi) (bit_mask bi) =? 0 then panic "freeing free block"
  else
    mod_data bp (bit_clear bi) ;;
    log_write bp ;;
    brelse bp.

(** ** Inodes *)

(** (struct dinode* )bp->data + inum % IPB, as a byte offset *)
Definition dip_off (inum : Z) : nat := Z.to_nat (inum mod IPB * sizeof_dinode).

Definition dip_read (d : list Z) (off : nat) : dinode :=
  mkDinode (i16 (rdn 2 d off)) (i16 (rdn 2 d (off + 2))) (i16 (rdn 2 d (off + 4)))
    (i16 (rdn 2 d (off + 6))) (rdn 4 d (off + 8))
    ((fun i => rdn 4 d (off + 12 + 4 * i)) <$> seq 0 (Z.to_nat (NDIRECT + 1))).

Fixpoint wr_addrs (d : list Z) (off : nat) (addrs : list Z) : list Z :=
  match addrs with
  | [] => d
  | a :: addrs' => wr_addrs (wrn 4 d off a) (off + 4) addrs'
  end.

Definition dip_write (off : nat) (di : dinode) (d : list Z) : list Z :=
  let d := wrn 2 d off (di_type di) in
  let d := wrn 2 d (off + 2) (di_major di) in
  let d := wrn 2 d (off + 4) (di_minor di) in
  let d := wrn 2 d (off + 6) (di_nlink di) in
  let d := wrn 4 d (off + 8) (di_size di) in
  wr_addrs d (off + 12) (di_addrs di).

(** memset(dip, 0, sizeof( *dip)); dip->type = type; *)
Definition dip_init (off : nat) (type : Z) (d : list Z) : list Z :=
  wrn 2 (wrb d off (replicate (Z.to_nat sizeof_dinode) 0)) off type.

Definition dinode_of (ip : inode) : dinode :=
  mkDinode (i_type ip) (i_major ip) (i_minor ip) (i_nlink ip) (i_size ip) (i_addrs ip).

Definition iinit : K unit := for_loop NINODE 0 (fun i => initsleeplock (SlInode i)).

(** The loop of iget() over the table: the entry if it is there, otherwise the
    first free one. *)
Fixpoint iget_scan (l : list inode) (i : nat) (dev inum : Z) (empty : option nat) : (option nat) * (option nat) :=
  match l with
  | [] => (None, empty)
  | ip :: l' =>
      if (0 <? i_ref ip) && (i_dev ip =? dev) && (i_inum ip =? inum) then (Some i, empty)
      else
        iget_scan l' (S i) dev inum
          (match empty with
           | None => if i_ref ip =? 0 then Some i else None
           | Some _ => empty
           end)
  end.

Definition iget (dev inum : Z) : K nat :=
  acquire LkItable ;;
  let* t := gets k_inodes in
  match iget_scan t 0 dev inum None with
  | (Some i, _) =>
      mod_inode i (fun ip => ip <| i_ref ::= fun r => i32 (r + 1) |>) ;;
      release LkItable ;;
      ret i
  | (None, None) => panic "iget: no inodes"
  | (None, Some i) =>
      mod_inode i (fun ip => ip <| i_dev := dev |> <| i_inum := inum |> <| i_ref := 1 |>
        <| i_valid := false |>) ;;
      release LkItable ;;
      ret i
  end.

(** for(inum = 1; inum < sb.ninodes; inum++) *)
Fixpoint ialloc_loop (fuel : nat) (dev type inum : Z) : K (option nat) :=
  match fuel with
  | O => diverge
  | S f =>
      let* sb := gets k_sb in
      if inum <? sb_ninodes sb then
        let* bp := bread dev (IBLOCK inum sb) in
        let* bf := get_buf bp in
        if di_type (dip_read (b_data bf) (dip_off inum)) =? 0 then
          mod_data bp (dip_init (dip_off inum) type) ;;
          log_write bp ;;
          brelse bp ;;
          let* ip := iget dev inum in
          ret (Some ip)
        else
          brelse bp ;;
          ialloc_loop f dev type (inum + 1)
      else
        printf (bytes "ialloc: no inodes" ++ nl) [] ;;
        ret None
  end.

Definition ialloc (dev type : Z) : K (option nat) :=
  let* sb := gets k_sb in ialloc_loop (S (Z.to_nat (sb_ninodes sb))) dev type 1.

Definition iupdate (ip : nat) : K unit :=
  let* sb := gets k_sb in
  let* i := get_inode ip in
  let* bp := bread (i_dev i) (IBLOCK (i_inum i) sb) in
  let* i := get_inode ip in
  mod_data bp (dip_write (dip_off (i_inum i)) (dinode_of i)) ;;
  log_write bp ;;
  brelse bp.

Definition idup (ip : nat) : K nat :=
  acquire LkItable ;;
  mod_inode ip (fun i => i <| i_ref ::= fun r => i32 (r + 1) |>) ;;
  release LkItable ;;
  ret ip.

Definition load_dinode (di : dinode) (i : inode) : inode :=
  i <| i_type := di_type di |> <| i_major := di_major di |> <| i_minor := di_minor di |>
    <| i_nlink := di_nlink di |> <| i_size := di_size di |> <| i_addrs := di_addrs di |>.

Definition ilock (ipp : option nat) : K unit :=
  match ipp with
  | None => panic "ilock"
  | Some ip =>
      let* i := get_inode ip in
      if i_ref i <? 1 then panic "ilock"
      else
        acquiresleep (SlInode ip) ;;
        let* i := get_inode ip in
        when negb (i_valid i) do
          (let* sb := gets k_sb in
           let* bp := bread (i_dev i) (IBLOCK (i_inum i) sb) in
           let* bf := get_buf bp in
           mod_inode ip (load_dinode (dip_read (b_data bf) (dip_off (i_inum i)))) ;;
           brelse bp ;;
           mod_inode ip (fun i => i <| i_valid := true |>) ;;
           let* i := get_inode ip in
           if i_type i =? 0 then panic "ilock: no type" else ret tt)
  end.

Definition iunlock (ipp : option nat) : K unit :=
  match ipp with
  | None => panic "iunlock"
  | Some ip =>
      let* h := holdingsleep (SlInode ip) in
      if negb h then panic "iunlock"
      else
        let* i := get_inode ip in
        if i_ref i <? 1 then panic "iunlock" else releasesleep (SlInode ip)
  end.

(** ** Inode content *)

Definition addr_get (ip : nat) (n : Z) : K Z :=
  let* i := get_inode ip in index (i_addrs i) (Z.to_nat n).
Definition addr_set (ip : nat) (n a : Z) : K unit :=
  mod_inode ip (fun i => i <| i_addrs ::= <[Z.to_nat n := a]> |>).

(** a[bn] of an indirect block *)
Definition ind_get (d : list Z) (bn : Z) : Z := rdn 4 d (4 * Z.to_nat bn).
Definition ind_set (bn a : Z) (d : list Z) : list Z := wrn 4 d (4 * Z.to_nat bn) a.

Definition bmap (ip : nat) (bn : Z) : K Z :=
  let* i := get_inode ip in
  if bn <? NDIRECT then
    let* addr := addr_get ip bn in
    if addr =? 0 then
      let* addr := balloc (i_dev i) in
      if addr =? 0 then ret 0 else addr_set ip bn addr ;; ret addr
    else ret addr
  else
    let bn := bn - NDIRECT in
    if bn <? NINDIRECT then
      let* addr := addr_get ip NDIRECT in
      let* addr := (if addr =? 0 then
                      let* addr := balloc (i_dev i) in
                      if addr =? 0 then ret 0 else addr_set ip NDIRECT addr ;; ret addr
                    else ret addr) in
      if addr =? 0 then ret 0
      else
        let* bp := bread (i_dev i) addr in
        let* bf := get_buf bp in
        let addr := ind_get (b_data bf) bn in
        let* addr := (if addr =? 0 then
                        let* addr := balloc (i_dev i) in
                        (when negb (addr =? 0) do
                          (mod_data bp (ind_set bn addr) ;; log_write bp)) ;;
                        ret addr
                      else ret addr) in
        brelse bp ;;
        ret addr
    else panic "bmap: out of range".

Definition itrunc (ip : nat) : K unit :=
  for_loop (Z.to_nat NDIRECT) 0 (fun k =>
    let* i := get_inode ip in
    let* a := addr_get ip (Z.of_nat k) in
    when negb (a =? 0) do (bfree (i_dev i) a ;; addr_set ip (Z.of_nat k) 0)) ;;
  let* i := get_inode ip in
  let* a := addr_get ip NDIRECT in
  (when negb (a =? 0) do
    (let* bp := bread (i_dev i) a in
     for_loop (Z.to_nat NINDIRECT) 0 (fun j =>
       let* bf := get_buf bp in
       let e := ind_get (b_data bf) (Z.of_nat j) in
       when negb (e =? 0) do bfree (i_dev i) e) ;;
     brelse bp ;;
     bfree (i_dev i) a ;;
     addr_set ip NDIRECT 0)) ;;
  mod_inode ip (fun i => i <| i_size := 0 |>) ;;
  iupdate ip.

Definition iput (ip : nat) : K unit :=
  acquire LkItable ;;
  let* i := get_inode ip in
  (when (i_ref i =? 1) && i_valid i && (i_nlink i =? 0) do
    (acquiresleep (SlInode ip) ;;
     release LkItable ;;
     itrunc ip ;;
     mod_inode ip (fun i => i <| i_type := 0 |>) ;;
     iupdate ip ;;
     mod_inode ip (fun i => i <| i_valid := false |>) ;;
     releasesleep (SlInode ip) ;;
     acquire LkItable)) ;;
  mod_inode ip (fun i => i <| i_ref ::= fun r => i32 (r - 1) |>) ;;
  release LkItable.

Definition iunlockput (ip : nat) : K unit := iunlock (Some ip) ;; iput ip.

(** struct stat *)
Record stat : Type := mkStat {
  st_dev : Z;
  st_ino : Z;
  st_type : Z;
  st_nlink : Z;
  st_size : Z;
}.

Definition stati (ip : nat) : K stat :=
  let* i := get_inode ip in
  ret (mkStat (i32 (i_dev i)) (i_inum i) (i_type i) (i_nlink i) (i_size i)).

(** The loop of readi(): [acc] are the bytes stored in a local destination. *)
Fixpoint readi_loop (fuel : nat) (ip : nat) (dst : dest) (off tot n : Z) (acc : list Z) : K (Z * list Z) :=
  match fuel with
  | O => diverge
  | S f =>
      if tot <? n then
        let* addr := bmap ip (off / BSIZE) in
        if addr =? 0 then ret (i32 tot, acc)
        else
          let* i := get_inode ip in
          let* bp := bread (i_dev i) addr in
          let m := Z.min (n - tot) (BSIZE - off mod BSIZE) in
          let* bf := get_buf bp in
          let chunk := rdb (b_data bf) (Z.to_nat (off mod BSIZE)) (Z.to_nat m) in
          let* r := either_copyout dst chunk in
          if r =? -1 then brelse bp ;; ret (-1, acc)
          else
            brelse bp ;;
            readi_loop f ip (dest_add dst m) (u32 (off + m)) (u32 (tot + m)) n (local_store dst chunk acc)
      else ret (i32 tot, acc)
  end.

(** Every round but the first starts at a block boundary. *)
Definition readi (ip : nat) (dst : dest) (off n : Z) : K (Z * list Z) :=
  let* i := get_inode ip in
  if (i_size i <? off) || (u32 (off + n) <? off) then ret (0, [])
  else
    let n := if i_size i <? u32 (off + n) then i_size i - off else n in
    readi_loop (S (S (Z.to_nat (n / BSIZE + 1)))) ip dst off 0 n [].

(** The loop of writei(): it returns [tot] and the final [off]. *)
Fixpoint writei_loop (fuel : nat) (ip : nat) (src : source) (off tot n : Z) : K (Z * Z) :=
  match fuel with
  | O => diverge
  | S f =>
      if tot <? n then
        let* addr := bmap ip (off / BSIZE) in
        if addr =? 0 then ret (tot, off)
        else
          let* i := get_inode ip in
          let* bp := bread (i_dev i) addr in
          let m := Z.min (n - tot) (BSIZE - off mod BSIZE) in
          let* r := either_copyin src m in
          mod_data bp (fun d => wrb d (Z.to_nat (off mod BSIZE)) r.2) ;;
          if r.1 =? -1 then brelse bp ;; ret (tot, off)
          else
            log_write bp ;;
            brelse bp ;;
            writei_loop f ip (source_add src m) (u32 (off + m)) (u32 (tot + m)) n
      else ret (tot, off)
  end.

Definition writei (ip : nat) (src : source) (off n : Z) : K Z :=
  let* i := get_inode ip in
  if (i_size i <? off) || (u32 (off + n) <? off) then ret (-1)
  else if MAXFILE * BSIZE <? u32 (off + n) then ret (-1)
  else
    let* r := writei_loop (S (S (Z.to_nat (n / BSIZE + 1)))) ip src off 0 n in
    let* i := get_inode ip in
    (when i_size i <? r.2 do mod_inode ip (fun i => i <| i_size := r.2 |>)) ;;
    iupdate ip ;;
    ret (i32 r.1).

(** ** Stores within a block *)

Lemma length_bit_set bi data : length (bit_set bi data) = length data.
Proof. apply length_insert. Qed.

Lemma length_bit_clear bi data : length (bit_clear bi data) = length data.
Proof. apply length_insert. Qed.

Lemma length_wr_addrs addrs : forall d off,
  (off + 4 * length addrs <= length d)%nat -> length (wr_addrs d off addrs) = length d.
Proof.
  induction addrs as [|a addrs IH]; intros d off H; cbn [wr_addrs length] in *; [done|].
  rewrite IH; rewrite length_wrn; lia.
Qed.

Lemma dip_off_le inum : (dip_off inum + 64 <= 1024)%nat.
Proof.
  pose proof (Z.mod_pos_bound inum IPB ltac:(done)) as Hm. unfold dip_off, sizeof_dinode. change IPB with 16 in *. lia.
Qed.

Lemma length_dip_write inum di d : length d = 1024%nat -> length (di_addrs di) = 13%nat ->
  length (dip_write (dip_off inum) di d) = 1024%nat.
Proof.
  intros Hd Ha. pose proof (dip_off_le inum). unfold dip_write.
  repeat first [rewrite length_wr_addrs|rewrite length_wrn]; rewrite ?Ha; repeat rewrite length_wrn; lia.
Qed.

Lemma length_dip_init inum type d : length d = 1024%nat -> length (dip_init (dip_off inum) type d) = 1024%nat.
Proof.
  intros Hd. pose proof (dip_off_le inum). unfold dip_init. change (Z.to_nat sizeof_dinode) with 64%nat.
  assert (length (wrb d (dip_off inum) (replicate 64 0)) = 1024%nat) as H2 by (rewrite length_wrb; rewrite ?length_replicate; lia).
  rewrite length_wrn; lia.
Qed.

Lemma length_ind_set bn a d : (bn <? NINDIRECT) = true -> length d = 1024%nat -> length (ind_set bn a d) = 1024%nat.
Proof. intros Hb Hd. change NINDIRECT with 256 in Hb. unfold ind_set. rewrite length_wrn; lia. Qed.
