(* ===== verification/Dir.v ===== *)
(** kernel/fs.c, directories and path names.

    A path or a name is the list of bytes before its NUL.  A directory entry is
    16 bytes: a 2-byte inode number and a name of at most DIRSIZ bytes, padded
    with NULs. *)

From S2P Require Import Prelude Layout Kernel Sched Printf Bio Log Fs.

(** ** Names *)

(** strncmp() of a name with a fixed-size field, and strncpy() into one; the
    versions on memory are in Strings.v. *)
Fixpoint lstrncmp (n : nat) (p q : list Z) : Z :=
  match n with
  | O => 0
  | S n' =>
      let a := hd 0 p in
      let b := hd 0 q in
      if negb (a =? 0) && (a =? b) then lstrncmp n' (tail p) (tail q) else a - b
  end.

Fixpoint lstrncpy (n : nat) (t : list Z) : list Z :=
  match n with
  | O => []
  | S n' =>
      match t with
      | c :: t' => if c =? 0 then replicate n 0 else c :: lstrncpy n' t'
      | [] => replicate n 0
      end
  end.

Definition namecmp (s t : list Z) : Z := lstrncmp (Z.to_nat DIRSIZ) s t.

(** struct dirent *)
Definition de_of_bytes (d : list Z) : dirent :=
  mkDirent (rdn 2 d 0) (rdb d 2 (Z.to_nat DIRSIZ)).
Definition de_bytes (de : dirent) : list Z := le_bytes 2 (de_inum de) ++ de_name de.

(** for(off = 0; off < dp->size; off += sizeof(de)): the offset and inode
    number of the first entry called [name] *)
Fixpoint dirlookup_loop (fuel : nat) (dp : nat) (name : list Z) (off : Z) : K (option (Z * Z)) :=
  match fuel with
  | O => diverge
  | S f =>
      let* d := get_inode dp in
      if off <? i_size d then
        let* r := readi dp (DLocal 0) off sizeof_dirent in
        if negb (r.1 =? sizeof_dirent) then panic "dirlookup read"
        else
          let de := de_of_bytes r.2 in
          if de_inum de =? 0 then dirlookup_loop f dp name (u32 (off + sizeof_dirent))
          else if namecmp name (de_name de) =? 0 then ret (Some (off, de_inum de))
          else dirlookup_loop f dp name (u32 (off + sizeof_dirent))
      else ret None
  end.

(** Returns the inode and the offset of the entry ([*poff]). *)
Definition dirlookup (dp : nat) (name : list Z) : K (option (nat * Z)) :=
  let* d := get_inode dp in
  if negb (i_type d =? T_DIR) then panic "dirlookup not DIR"
  else
    let* r := dirlookup_loop (S (S (Z.to_nat (i_size d / sizeof_dirent)))) dp name 0 in
    match r with
    | Some (off, inum) => let* ip := iget (i_dev d) inum in ret (Some (ip, off))
    | None => ret None
    end.

(** The second loop of dirlink(): the offset of the first empty entry, or the
    end of the directory. *)
Fixpoint dirlink_loop (fuel : nat) (dp : nat) (off : Z) : K Z :=
  match fuel with
  | O => diverge
  | S f =>
      let* d := get_inode dp in
      if off <? i_size d then
        let* r := readi dp (DLocal 0) off sizeof_dirent in
        if negb (r.1 =? sizeof_dirent) then panic "dirlink read"
        else if de_inum (de_of_bytes r.2) =? 0 then ret off
        else dirlink_loop f dp (off + sizeof_dirent)
      else ret off
  end.

Definition dirlink (dp : nat) (name : list Z) (inum : Z) : K Z :=
  let* r := dirlookup dp name in
  match r with
  | Some (ip, _) => iput ip ;; ret (-1)
  | None =>
      let* d := get_inode dp in
      let* off := dirlink_loop (S (S (Z.to_nat (i_size d / sizeof_dirent)))) dp 0 in
      let de := mkDirent (u16 inum) (lstrncpy (Z.to_nat DIRSIZ) name) in
      let* n := writei dp (SLocal (de_bytes de)) off sizeof_dirent in
      if negb (n =? sizeof_dirent) then ret (-1) else ret 0
  end.

(** ** Paths *)

Definition SLASH : Z := 47.

(** while( *path == '/') path++; *)
Fixpoint skip_slashes (path : list Z) : list Z :=
  match path with
  | c :: p => if c =? SLASH then skip_slashes p else path
  | [] => []
  end.

(** while( *path != '/' && *path != 0) path++: the element and what follows *)
Fixpoint path_elem (path : list Z) : list Z * list Z :=
  match path with
  | c :: p => if c =? SLASH then ([], path) else let r := path_elem p in (c :: r.1, r.2)
  | [] => ([], [])
  end.

(** The name is cut to DIRSIZ bytes. *)
Definition skipelem (path : list Z) : option (list Z * list Z) :=
  match skip_slashes path with
  | [] => None
  | path =>
      let r := path_elem path in
      Some (take (Z.to_nat DIRSIZ) r.1, skip_slashes r.2)
  end.

(** The while loop of namex(), with the inode reached so far. *)
Fixpoint namex_loop (fuel : nat) (path : list Z) (nameiparent : bool) (name : list Z) (ip : nat)
  : K (option nat * list Z) :=
  match skipelem path with
  | None =>
      if nameiparent then iput ip ;; ret (None, name) else ret (Some ip, name)
  | Some (name, path) =>
      match fuel with
      | O => diverge
      | S f =>
          ilock (Some ip) ;;
          let* i := get_inode ip in
          if negb (i_type i =? T_DIR) then iunlockput ip ;; ret (None, name)
          else if nameiparent && (match path with [] => true | _ => false end) then
            iunlock (Some ip) ;; ret (Some ip, name)
          else
            let* next := dirlookup ip name in
            match next with
            | None => iunlockput ip ;; ret (None, name)
            | Some (next, _) => iunlockput ip ;; namex_loop f path nameiparent name next
            end
      end
  end.

(** Every element takes at least one byte of the path. *)
Definition namex (path : list Z) (nameiparent : bool) : K (option nat * list Z) :=
  let* ip :=
    (if hd 0 path =? SLASH then iget ROOTDEV ROOTINO
     else
       let* i := curproc in
       let* p := get_proc i in
       match p_cwd p with Some c => idup c | None => fault end) in
  namex_loop (length path) path nameiparent [] ip.

Definition namei (path : list Z) : K (option nat) :=
  let* r := namex path false in ret r.1.

(** The parent directory, and the last element of the path. *)
Definition nameiparent (path : list Z) : K (option nat * list Z) := namex path true.
