(* ===== verification/Mkfs.v ===== *)
(** mkfs/mkfs.c: the program that builds the disk image.

    The image file is its sectors; a sector that was never written reads as
    zeroes inside the file and cannot be read beyond its end.  The program stops
    with a message when an assertion fails or a call of the host fails, which is
    the outcome [Panic].  A file of the host is the pieces read() returns of it.
    What mkfs prints on success is not represented. *)

From S2P Require Import Prelude Layout Kernel Fs Dir.

Record img : Type := mkImg {
  im_disk : Z -> block;
  im_nsect : Z;  (** sectors of the image file *)
  im_sb : superblock;
  im_freeinode : Z;
  im_freeblock : Z;
}.

#[export] Instance upd_im_disk : Field im_disk := fun g r =>
  mkImg (g (im_disk r)) (im_nsect r) (im_sb r) (im_freeinode r) (im_freeblock r).
#[export] Instance upd_im_nsect : Field im_nsect := fun g r =>
  mkImg (im_disk r) (g (im_nsect r)) (im_sb r) (im_freeinode r) (im_freeblock r).
#[export] Instance upd_im_sb : Field im_sb := fun g r =>
  mkImg (im_disk r) (im_nsect r) (g (im_sb r)) (im_freeinode r) (im_freeblock r).
#[export] Instance upd_im_freeinode : Field im_freeinode := fun g r =>
  mkImg (im_disk r) (im_nsect r) (im_sb r) (g (im_freeinode r)) (im_freeblock r).
#[export] Instance upd_im_freeblock : Field im_freeblock := fun g r =>
  mkImg (im_disk r) (im_nsect r) (im_sb r) (im_freeinode r) (g (im_freeblock r)).

Definition H (A : Type) : Type := M img A.

Definition NINODES : Z := 200.
Definition nbitmap : Z := FSSIZE / (BSIZE * 8) + 1.
Definition ninodeblocks : Z := NINODES / IPB + 1.
Definition nlog : Z := LOGSIZE.
Definition nmeta : Z := 2 + nlog + ninodeblocks + nbitmap.
Definition nblocks : Z := FSSIZE - nmeta.

Definition zeroes : block := replicate (Z.to_nat BSIZE) 0.

(** The value whose bytes in memory, lowest first, are those of [x]. *)
Definition xshort (x : Z) : Z := le_val [u8 x; u8 (Z.shiftr x 8)].
Definition xint (x : Z) : Z := le_val [u8 x; u8 (Z.shiftr x 8); u8 (Z.shiftr x 16); u8 (Z.shiftr x 24)].

(** lseek() to [sec * BSIZE], a uint, and a read or write of one sector. *)
Definition wsect (sec : Z) (buf : block) : H unit := fun s =>
  let b := u32 (sec * BSIZE) / BSIZE in
  Ok tt (s <| im_disk ::= fun d => zset d b buf |> <| im_nsect ::= Z.max (b + 1) |>).

Definition rsect (sec : Z) : H block := fun s =>
  let b := u32 (sec * BSIZE) / BSIZE in
  if b <? im_nsect s then Ok (im_disk s b) s else Panic "read" s.

Definition winode (inum : Z) (ip : dinode) : H unit :=
  let* s := (fun s => Ok s s) in
  let bn := IBLOCK inum (im_sb s) in
  let* buf := rsect bn in
  wsect bn (dip_write (dip_off inum) ip buf).

Definition rinode (inum : Z) : H dinode :=
  let* s := (fun s => Ok s s) in
  let bn := IBLOCK inum (im_sb s) in
  let* buf := rsect bn in
  ret (dip_read buf (dip_off inum)).

Definition ialloc (type : Z) : H Z :=
  let* s := (fun s => Ok s s) in
  let inum := im_freeinode s in
  (fun s => Ok tt (s <| im_freeinode := u32 (inum + 1) |>)) ;;
  winode inum (mkDinode (i16 (xshort type)) 0 0 (i16 (xshort 1)) (xint 0) (replicate 13 0)) ;;
  ret inum.

(** for(i = 0; i < used; i++) buf[i/8] = buf[i/8] | (0x1 << (i%8)) *)
Fixpoint mark_used (n : nat) (buf : block) : block :=
  match n with
  | O => buf
  | S n' => bit_set (Z.of_nat n') (mark_used n' buf)
  end.

Definition balloc (used : Z) : H unit :=
  if negb (used <? BSIZE * 8) then panic "used < BSIZE*8"
  else
    let* s := (fun s => Ok s s) in
    wsect (sb_bmapstart (im_sb s)) (mark_used (Z.to_nat used) zeroes).

(** freeblock++ *)
Definition next_block : H Z := fun s => Ok (im_freeblock s) (s <| im_freeblock ::= fun b => u32 (b + 1) |>).

Definition set_addr (din : dinode) (n : Z) (a : Z) : dinode :=
  mkDinode (di_type din) (di_major din) (di_minor din) (di_nlink din) (di_size din) (<[Z.to_nat n := a]> (di_addrs din)).
Definition get_addr (din : dinode) (n : Z) : Z := nth (Z.to_nat n) (di_addrs din) 0.

(** The block for [fbn], allocated if need be. *)
Definition iappend_block (din : dinode) (fbn : Z) : H (dinode * Z) :=
  if fbn <? NDIRECT then
    let* din := (if xint (get_addr din fbn) =? 0 then let* b := next_block in ret (set_addr din fbn (xint b)) else ret din) in
    ret (din, xint (get_addr din fbn))
  else
    let* din := (if xint (get_addr din NDIRECT) =? 0 then let* b := next_block in ret (set_addr din NDIRECT (xint b)) else ret din) in
    let* indirect := rsect (xint (get_addr din NDIRECT)) in
    let* indirect :=
      (if ind_get indirect (fbn - NDIRECT) =? 0 then
         let* b := next_block in
         let indirect := ind_set (fbn - NDIRECT) (xint b) indirect in
         wsect (xint (get_addr din NDIRECT)) indirect ;; ret indirect
       else ret indirect) in
    ret (din, xint (ind_get indirect (fbn - NDIRECT))).

Fixpoint iappend_loop (fuel : nat) (din : dinode) (off : Z) (p : list Z) : H (dinode * Z) :=
  match fuel with
  | O => diverge
  | S f =>
      match p with
      | [] => ret (din, off)
      | _ =>
          let fbn := off / BSIZE in
          if negb (fbn <? MAXFILE) then panic "fbn < MAXFILE"
          else
            let* r := iappend_block din fbn in
            let n1 := Z.min (Z.of_nat (length p)) ((fbn + 1) * BSIZE - off) in
            let* buf := rsect r.2 in
            wsect r.2 (wrb buf (Z.to_nat (off - fbn * BSIZE)) (take (Z.to_nat n1) p)) ;;
            iappend_loop f r.1 (u32 (off + n1)) (drop (Z.to_nat n1) p)
      end
  end.

Definition set_size (din : dinode) (size : Z) : dinode :=
  mkDinode (di_type din) (di_major din) (di_minor din) (di_nlink din) size (di_addrs din).

(** Every round but the first starts at a block boundary. *)
Definition iappend (inum : Z) (p : list Z) : H unit :=
  let* din := rinode inum in
  let* r := iappend_loop (S (S (Z.to_nat (Z.of_nat (length p) / BSIZE + 1)))) din (xint (di_size din)) p in
  winode inum (set_size r.1 (xint r.2)).

(** ** main() *)

(** A directory entry; the name is padded with zeroes. *)
Definition add_entry (dir inum : Z) (name : list Z) : H unit :=
  iappend dir (de_bytes (mkDirent (xshort inum) (lstrncpy (Z.to_nat DIRSIZ) name))).

Definition sb_bytes (sb : superblock) : list Z :=
  le_bytes 4 (sb_magic sb) ++ le_bytes 4 (sb_size sb) ++ le_bytes 4 (sb_nblocks sb) ++ le_bytes 4 (sb_ninodes sb) ++
  le_bytes 4 (sb_nlog sb) ++ le_bytes 4 (sb_logstart sb) ++ le_bytes 4 (sb_inodestart sb) ++ le_bytes 4 (sb_bmapstart sb).

Definition mkfs_sb : superblock :=
  mkSuperblock FSMAGIC (xint FSSIZE) (xint nblocks) (xint NINODES) (xint nlog) (xint 2) (xint (2 + nlog)) (xint (2 + nlog + ninodeblocks)).

(** Without "user/" in front, and without a leading underscore. *)
Definition strip_user (path : list Z) : list Z :=
  if lstrncmp 5 path (bytes "user/") =? 0 then drop 5 path else path.
Definition strip_underscore (name : list Z) : list Z :=
  match name with c :: name' => if c =? chr "_" then name' else name | [] => [] end.

(** while((cc = read(fd, buf, sizeof(buf))) > 0) iappend(inum, buf, cc) *)
Fixpoint append_pieces (inum : Z) (pieces : list (list Z)) : H unit :=
  match pieces with
  | p :: pieces' => match p with [] => ret tt | _ => iappend inum p ;; append_pieces inum pieces' end
  | [] => ret tt
  end.

Definition add_file (host : list Z -> option (list (list Z))) (rootino : Z) (path : list Z) : H unit :=
  let shortname := strip_user path in
  if negb (bool_decide (SLASH ∉ shortname)) then panic "index(shortname, '/') == 0"
  else
    match host path with
    | None => panic "open"
    | Some pieces =>
        let shortname := strip_underscore shortname in
        let* inum := ialloc T_FILE in
        add_entry rootino inum shortname ;;
        append_pieces inum pieces
    end.

Fixpoint add_files (host : list Z -> option (list (list Z))) (rootino : Z) (paths : list (list Z)) : H unit :=
  match paths with
  | [] => ret tt
  | path :: paths' => add_file host rootino path ;; add_files host rootino paths'
  end.

(** fix size of root inode dir *)
Definition fix_root (rootino : Z) : H unit :=
  let* din := rinode rootino in
  let off := xint (di_size din) in
  let off := u32 ((off / BSIZE + 1) * BSIZE) in
  winode rootino (set_size din (xint off)).

(** [argv] has the program, the image and the files; the image can be opened. *)
Definition mkfs_main (host : list Z -> option (list (list Z))) (argv : list (list Z)) : H unit :=
  if (length argv <? 2)%nat then panic "Usage: mkfs fs.img files..."
  else
    (fun s => Ok tt (s <| im_sb := mkfs_sb |> <| im_freeblock := nmeta |>)) ;;
    for_loop (Z.to_nat FSSIZE) 0 (fun i => wsect (Z.of_nat i) zeroes) ;;
    wsect 1 (wrb zeroes 0 (sb_bytes mkfs_sb)) ;;
    let* rootino := ialloc T_DIR in
    if negb (rootino =? ROOTINO) then panic "rootino == ROOTINO"
    else
      add_entry rootino rootino (bytes ".") ;;
      add_entry rootino rootino (bytes "..") ;;
      add_files host rootino (drop 2 argv) ;;
      fix_root rootino ;;
      let* s := (fun s => Ok s s) in
      balloc (im_freeblock s).

(** The program starts with an empty image file. *)
Definition empty_img : img := mkImg (fun _ => zeroes) 0 (mkSuperblock 0 0 0 0 0 0 0 0) 1 0.
