(* ===== verification/Pipe.v ===== *)
(** kernel/pipe.c: pipes.

    A pipe is a ring buffer of PIPESIZE bytes with 32-bit counters of the bytes
    read and written; it is kept under the address of the page it lives in. *)

From S2P Require Import Prelude Layout Kernel Sched Kalloc Vm Bio Fs.

Definition PIPESIZE : Z := 512.

Definition pipeclose (pi : Z) (writable : bool) : K unit :=
  acquire (LkPipe pi) ;;
  (if writable then
     mod_pipe pi (fun p => p <| pi_writeopen := false |>) ;; wakeup (ChPipeRead pi)
   else
     mod_pipe pi (fun p => p <| pi_readopen := false |>) ;; wakeup (ChPipeWrite pi)) ;;
  let* p := get_pipe pi in
  if negb (pi_readopen p) && negb (pi_writeopen p) then
    release (LkPipe pi) ;;
    modify (fun s => s <| k_pipes ::= delete pi |>) ;;
    kfree pi
  else release (LkPipe pi).

(** pi->data[pi->nwrite++ % PIPESIZE] = ch *)
Definition pipe_put (ch : Z) (p : pipe) : pipe :=
  p <| pi_data ::= <[Z.to_nat (pi_nwrite p mod PIPESIZE) := ch]> |>
    <| pi_nwrite ::= fun c => u32 (c + 1) |>.

(** ch = pi->data[pi->nread % PIPESIZE] *)
Definition pipe_peek (p : pipe) : Z := nth (Z.to_nat (pi_nread p mod PIPESIZE)) (pi_data p) 0.
Definition pipe_get (p : pipe) : pipe := p <| pi_nread ::= fun c => u32 (c + 1) |>.

Definition pipe_full (p : pipe) : bool := pi_nwrite p =? u32 (pi_nread p + PIPESIZE).
Definition pipe_empty (p : pipe) : bool := pi_nread p =? pi_nwrite p.

(** The while loop of pipewrite(): [None] for the early return of -1. *)
Fixpoint pipewrite_loop (fuel : nat) (pi : Z) (pr : nat) (addr i n : Z) : K (option Z) :=
  match fuel with
  | O => diverge
  | S f =>
      if i <? n then
        let* p := get_pipe pi in
        let* kl := (if pi_readopen p then killed pr else ret 1) in
        if negb (kl =? 0) then release (LkPipe pi) ;; ret None
        else if pipe_full p then
          wakeup (ChPipeRead pi) ;;
          sleep (ChPipeWrite pi) (LkPipe pi) ;;
          pipewrite_loop f pi pr addr i n
        else
          let* q := get_proc pr in
          let* r := copyin (p_pagetable q) (u64 (addr + i)) 1 in
          if r.1 =? -1 then ret (Some i)
          else
            mod_pipe pi (pipe_put (hd 0 r.2)) ;;
            pipewrite_loop f pi pr addr (i + 1) n
      else ret (Some i)
  end.

(** Each round copies a byte or uses up one element of the schedule. *)
Definition waiting_for {A} (n : Z) (loop : nat -> K A) : K A :=
  fun w => loop (S (Z.to_nat n + length (w_env w))) w.

Definition pipewrite (pi addr n : Z) : K Z :=
  let* pr := curproc in
  acquire (LkPipe pi) ;;
  let* r := waiting_for n (fun fuel => pipewrite_loop fuel pi pr addr 0 n) in
  match r with
  | None => ret (-1)
  | Some i => wakeup (ChPipeRead pi) ;; release (LkPipe pi) ;; ret i
  end.

(** while(pi->nread == pi->nwrite && pi->writeopen): false if killed *)
Fixpoint piperead_wait (fuel : nat) (pi : Z) (pr : nat) : K bool :=
  match fuel with
  | O => diverge
  | S f =>
      let* p := get_pipe pi in
      if pipe_empty p && pi_writeopen p then
        let* kl := killed pr in
        if negb (kl =? 0) then release (LkPipe pi) ;; ret false
        else sleep (ChPipeRead pi) (LkPipe pi) ;; piperead_wait f pi pr
      else ret true
  end.

Fixpoint piperead_copy (k : nat) (pi : Z) (pr : nat) (addr i : Z) : K Z :=
  match k with
  | O => ret i
  | S k' =>
      let* p := get_pipe pi in
      if pipe_empty p then ret i
      else
        mod_pipe pi pipe_get ;;
        let* q := get_proc pr in
        let* r := copyout (p_pagetable q) (u64 (addr + i)) [pipe_peek p] in
        if r =? -1 then ret i else piperead_copy k' pi pr addr (i + 1)
  end.

Definition piperead (pi addr n : Z) : K Z :=
  let* pr := curproc in
  acquire (LkPipe pi) ;;
  let* ok := waiting (fun fuel => piperead_wait fuel pi pr) in
  if negb ok then ret (-1)
  else
    let* i := piperead_copy (Z.to_nat n) pi pr addr 0 in
    wakeup (ChPipeWrite pi) ;;
    release (LkPipe pi) ;;
    ret i.
