(* ===== verification/Console.v ===== *)
(** kernel/console.c and the interrupt-driven half of kernel/uart.c. *)

From S2P Require Import Prelude Layout Kernel Sched Printf Kalloc Vm Bio Fs.

(** ** uart.c *)

Definition UART_TX_BUF_SIZE : Z := 32.

(** while(1) of uartstart(): each round sends one byte. *)
Fixpoint uartstart_loop (fuel : nat) : K unit :=
  match fuel with
  | O => diverge
  | S f =>
      let* u := gets k_uart in
      if ut_w u =? ut_r u then ret tt
      else
        let* lsr := read_lsr in
        if Z.land lsr LSR_TX_IDLE =? 0 then ret tt
        else
          let c := nth (Z.to_nat (ut_r u mod UART_TX_BUF_SIZE)) (ut_buf u) 0 in
          mod_uart (fun u => u <| ut_r ::= fun r => u64 (r + 1) |>) ;;
          wakeup ChUart ;;
          write_thr c ;;
          uartstart_loop f
  end.

(** At most UART_TX_BUF_SIZE bytes are buffered. *)
Definition uartstart : K unit := uartstart_loop (S (Z.to_nat UART_TX_BUF_SIZE)).

(** while(uart_tx_w == uart_tx_r + UART_TX_BUF_SIZE) sleep(...) *)
Fixpoint uartputc_wait (fuel : nat) : K unit :=
  match fuel with
  | O => diverge
  | S f =>
      let* u := gets k_uart in
      if ut_w u =? u64 (ut_r u + UART_TX_BUF_SIZE) then
        sleep ChUart LkUart ;; uartputc_wait f
      else ret tt
  end.

Definition uartputc (c : Z) : K unit :=
  acquire LkUart ;;
  waiting uartputc_wait ;;
  mod_uart (fun u => u <| ut_buf ::= <[Z.to_nat (ut_w u mod UART_TX_BUF_SIZE) := u8 c]> |>
    <| ut_w ::= fun x => u64 (x + 1) |>) ;;
  uartstart ;;
  release LkUart.

Definition uartgetc : K Z :=
  let* lsr := read_lsr in
  if negb (Z.land lsr 1 =? 0) then
    let* u := gets k_uart in
    mod_uart (fun u => u <| ut_rx ::= @tail Z |>) ;;
    ret (hd 0 (ut_rx u))
  else ret (-1).

(** ** console.c *)

Definition INPUT_BUF_SIZE : Z := 128.

(** C(x): Control-x *)
Definition Ctrl (s : string) : Z := chr s - chr "@".

Definition mod_cons (f : consst -> consst) : K unit := modify (fun s => s <| k_cons ::= f |>).

Fixpoint consolewrite_loop (k : nat) (src : source) (i : Z) : K Z :=
  match k with
  | O => ret i
  | S k' =>
      let* r := either_copyin src 1 in
      if r.1 =? -1 then ret i
      else uartputc (hd 0 r.2) ;; consolewrite_loop k' (source_add src 1) (i + 1)
  end.

Definition consolewrite (src : source) (n : Z) : K Z := consolewrite_loop (Z.to_nat n) src 0.

(** while(cons.r == cons.w): false if killed *)
Fixpoint consoleread_wait (fuel : nat) : K bool :=
  match fuel with
  | O => diverge
  | S f =>
      let* c := gets k_cons in
      if cons_r c =? cons_w c then
        let* i := curproc in
        let* kl := killed i in
        if negb (kl =? 0) then release LkCons ;; ret false
        else sleep ChCons LkCons ;; consoleread_wait f
      else ret true
  end.

(** while(n > 0): the remaining n, or [None] for the early return of -1 *)
Fixpoint consoleread_loop (k : nat) (target : Z) (dst : dest) (n : Z) : K (option Z) :=
  match k with
  | O => ret (Some n)
  | S k' =>
      let* ok := waiting consoleread_wait in
      if negb ok then ret None
      else
        let* cs := gets k_cons in
        let c := nth (Z.to_nat (cons_r cs mod INPUT_BUF_SIZE)) (cons_buf cs) 0 in
        mod_cons (fun cs => cs <| cons_r ::= fun r => u32 (r + 1) |>) ;;
        if c =? Ctrl "D" then
          (when u32 n <? target do mod_cons (fun cs => cs <| cons_r ::= fun r => u32 (r - 1) |>)) ;;
          ret (Some n)
        else
          let* r := either_copyout dst [c] in
          if r =? -1 then ret (Some n)
          else if c =? 10 then ret (Some (n - 1))
          else consoleread_loop k' target (dest_add dst 1) (n - 1)
  end.

Definition consoleread (dst : dest) (n : Z) : K Z :=
  let target := u32 n in
  acquire LkCons ;;
  let* r := consoleread_loop (Z.to_nat n) target dst n in
  match r with
  | None => ret (-1)
  | Some n => release LkCons ;; ret (i32 (target - n))
  end.

(** cons.buf[x % INPUT_BUF_SIZE] *)
Definition cons_at (cs : consst) (x : Z) : Z := nth (Z.to_nat (x mod INPUT_BUF_SIZE)) (cons_buf cs) 0.

(** while(cons.e != cons.w && the last character is not a newline) *)
Fixpoint kill_line (fuel : nat) : K unit :=
  match fuel with
  | O => diverge
  | S f =>
      let* cs := gets k_cons in
      if negb (cons_e cs =? cons_w cs) && negb (cons_at cs (u32 (cons_e cs - 1)) =? 10) then
        mod_cons (fun cs => cs <| cons_e ::= fun e => u32 (e - 1) |>) ;;
        consputc BACKSPACE ;;
        kill_line f
      else ret tt
  end.

(** At most INPUT_BUF_SIZE characters are being edited. *)
Definition consoleintr (c : Z) : K unit :=
  acquire LkCons ;;
  (if c =? Ctrl "P" then procdump
   else if c =? Ctrl "U" then kill_line (S (Z.to_nat INPUT_BUF_SIZE))
   else if (c =? Ctrl "H") || (c =? 127) then
     let* cs := gets k_cons in
     when negb (cons_e cs =? cons_w cs) do
       (mod_cons (fun cs => cs <| cons_e ::= fun e => u32 (e - 1) |>) ;;
        consputc BACKSPACE)
   else
     let* cs := gets k_cons in
     when negb (c =? 0) && (u32 (cons_e cs - cons_r cs) <? INPUT_BUF_SIZE) do
       (let c := if c =? 13 then 10 else c in
        consputc c ;;
        mod_cons (fun cs => cs <| cons_buf ::= <[Z.to_nat (cons_e cs mod INPUT_BUF_SIZE) := u8 c]> |>
          <| cons_e ::= fun e => u32 (e + 1) |>) ;;
        let* cs := gets k_cons in
        when (c =? 10) || (c =? Ctrl "D") || (u32 (cons_e cs - cons_r cs) =? INPUT_BUF_SIZE) do
          (mod_cons (fun cs => cs <| cons_w := cons_e cs |>) ;;
           wakeup ChCons))) ;;
  release LkCons.

Fixpoint uartintr_loop (fuel : nat) : K unit :=
  match fuel with
  | O => diverge
  | S f =>
      let* c := uartgetc in
      if c =? -1 then ret tt else consoleintr c ;; uartintr_loop f
  end.

(** One round per input byte that is waiting. *)
Definition uartintr : K unit :=
  (fun w => uartintr_loop (S (length (ut_rx (k_uart (w_k w))))) w) ;;
  acquire LkUart ;;
  uartstart ;;
  release LkUart.

(** ** devsw: the device switch table after consoleinit() *)

Definition CONSOLE : Z := 1.

Definition devsw_read (major : Z) : option (dest -> Z -> K Z) :=
  if major =? CONSOLE then Some consoleread else None.
Definition devsw_write (major : Z) : option (source -> Z -> K Z) :=
  if major =? CONSOLE then Some consolewrite else None.
