(* ===== verification/File.v ===== *)
(** kernel/file.c, and pipealloc() of kernel/pipe.c: the table of open files. *)

From S2P Require Import Prelude Layout Kernel Sched Kalloc Vm Bio Log Fs Console Pipe.

Definition filealloc_one (i : nat) : K (option nat) :=
  let* f := get_file i in
  if f_ref f =? 0 then
    mod_file i (fun f => f <| f_ref := 1 |>) ;;
    release LkFtable ;;
    ret (Some i)
  else ret None.

Definition filealloc : K (option nat) :=
  acquire LkFtable ;;
  let* r := for_ret NFILE 0 filealloc_one in
  match r with
  | Some i => ret (Some i)
  | None => release LkFtable ;; ret None
  end.

Definition filedup (f : nat) : K nat :=
  acquire LkFtable ;;
  let* x := get_file f in
  if f_ref x <? 1 then panic "filedup"
  else
    mod_file f (fun x => x <| f_ref ::= fun r => i32 (r + 1) |>) ;;
    release LkFtable ;;
    ret f.

(** ff.ip is null only for a file that is not an inode or a device. *)
Definition iput_ptr (ip : option nat) : K unit :=
  match ip with Some i => iput i | None => fault end.

Definition fileclose (f : nat) : K unit :=
  acquire LkFtable ;;
  let* x := get_file f in
  if f_ref x <? 1 then panic "fileclose"
  else
    mod_file f (fun x => x <| f_ref ::= fun r => i32 (r - 1) |>) ;;
    let* ff := get_file f in
    if 0 <? f_ref ff then release LkFtable
    else
      mod_file f (fun x => x <| f_ref := 0 |> <| f_type := FD_NONE |>) ;;
      release LkFtable ;;
      match f_type ff with
      | FD_PIPE => pipeclose (f_pipe ff) (f_writable ff)
      | FD_INODE | FD_DEVICE => begin_op ;; iput_ptr (f_ip ff) ;; end_op
      | FD_NONE => ret tt
      end.

(** The page of a new pipe is as kalloc() left it. *)
Definition new_pipe : pipe := mkPipe (replicate (Z.to_nat PIPESIZE) 5) 0 0 true true.

(** bad: what was allocated so far is given back *)
Definition pipealloc_bad (f0 f1 : option nat) : K (option (nat * nat)) :=
  (match f0 with Some f => fileclose f | None => ret tt end) ;;
  (match f1 with Some f => fileclose f | None => ret tt end) ;;
  ret None.

(** The read end and the write end; [None] for -1. *)
Definition pipealloc : K (option (nat * nat)) :=
  let* f0 := filealloc in
  match f0 with
  | None => pipealloc_bad None None
  | Some r =>
      let* f1 := filealloc in
      match f1 with
      | None => pipealloc_bad (Some r) None
      | Some w =>
          let* pi := kalloc in
          if pi =? 0 then pipealloc_bad (Some r) (Some w)
          else
            modify (fun s => s <| k_pipes ::= <[pi := new_pipe]> |>) ;;
            mod_file r (fun f => f <| f_type := FD_PIPE |> <| f_readable := true |>
              <| f_writable := false |> <| f_pipe := pi |>) ;;
            mod_file w (fun f => f <| f_type := FD_PIPE |> <| f_readable := false |>
              <| f_writable := true |> <| f_pipe := pi |>) ;;
            ret (Some (r, w))
      end
  end.

(** struct stat in memory; [pad] are the four bytes of padding before size,
    which stati() does not set. *)
Definition stat_bytes (pad : list Z) (st : stat) : list Z :=
  le_bytes 4 (st_dev st) ++ le_bytes 4 (st_ino st) ++ le_bytes 2 (st_type st) ++
  le_bytes 2 (st_nlink st) ++ take 4 pad ++ le_bytes 8 (st_size st).

Definition filestat (pad : list Z) (f : nat) (addr : Z) : K Z :=
  let* x := get_file f in
  match f_type x with
  | FD_INODE | FD_DEVICE =>
      ilock (f_ip x) ;;
      match f_ip x with
      | None => fault
      | Some ip =>
          let* st := stati ip in
          iunlock (f_ip x) ;;
          let* pt := mypagetable in
          let* r := copyout pt addr (stat_bytes pad st) in
          if r <? 0 then ret (-1) else ret 0
      end
  | _ => ret (-1)
  end.

Definition fileread (f : nat) (addr n : Z) : K Z :=
  let* x := get_file f in
  if negb (f_readable x) then ret (-1)
  else
    match f_type x with
    | FD_PIPE => piperead (f_pipe x) addr n
    | FD_DEVICE =>
        if (f_major x <? 0) || (NDEV <=? f_major x) then ret (-1)
        else
          match devsw_read (f_major x) with
          | None => ret (-1)
          | Some rd => rd (DUser addr) n
          end
    | FD_INODE =>
        ilock (f_ip x) ;;
        match f_ip x with
        | None => fault
        | Some ip =>
            let* y := get_file f in
            let* r := readi ip (DUser addr) (f_off y) (u32 n) in
            (when 0 <? r.1 do mod_file f (fun x => x <| f_off ::= fun o => u32 (o + r.1) |>)) ;;
            iunlock (f_ip x) ;;
            ret r.1
        end
    | FD_NONE => panic "fileread"
    end.

(** ((MAXOPBLOCKS-1-1-2) / 2) * BSIZE *)
Definition filewrite_max : Z := (MAXOPBLOCKS - 1 - 1 - 2) / 2 * BSIZE.

(** while(i < n) of filewrite(): the final i *)
Fixpoint filewrite_loop (fuel : nat) (f ip : nat) (addr i n : Z) : K Z :=
  match fuel with
  | O => diverge
  | S fu =>
      if i <? n then
        let n1 := Z.min (n - i) filewrite_max in
        begin_op ;;
        ilock (Some ip) ;;
        let* x := get_file f in
        let* r := writei ip (SUser (u64 (addr + i))) (f_off x) n1 in
        (when 0 <? r do mod_file f (fun x => x <| f_off ::= fun o => u32 (o + r) |>)) ;;
        iunlock (Some ip) ;;
        end_op ;;
        if negb (r =? n1) then ret i else filewrite_loop fu f ip addr (i + r) n
      else ret i
  end.

Definition filewrite (f : nat) (addr n : Z) : K Z :=
  let* x := get_file f in
  if negb (f_writable x) then ret (-1)
  else
    match f_type x with
    | FD_PIPE => pipewrite (f_pipe x) addr n
    | FD_DEVICE =>
        if (f_major x <? 0) || (NDEV <=? f_major x) then ret (-1)
        else
          match devsw_write (f_major x) with
          | None => ret (-1)
          | Some wr => wr (SUser addr) n
          end
    | FD_INODE =>
        let* i :=
          (if 0 <? n then
             match f_ip x with
             | None => begin_op ;; panic "ilock"
             | Some ip => filewrite_loop (S (S (Z.to_nat (n / filewrite_max)))) f ip addr 0 n
             end
           else ret 0) in
        ret (if i =? n then n else -1)
    | FD_NONE => panic "filewrite"
    end.
