(* ===== verification/Proc.v ===== *)
(** kernel/proc.c, part 2: the life of a process. *)

From S2P Require Import Prelude Layout Strings Kernel Sched Printf Kalloc Vm Bio Log Fs Dir Console Pipe File.

(** ** Trap frames *)

(** Offsets of the fields of struct trapframe. *)
Definition TF_kernel_satp : Z := 0.
Definition TF_kernel_sp : Z := 8.
Definition TF_kernel_trap : Z := 16.
Definition TF_epc : Z := 24.
Definition TF_kernel_hartid : Z := 32.
Definition TF_sp : Z := 48.
Definition TF_a0 : Z := 112.
Definition TF_a1 : Z := 120.
Definition TF_a7 : Z := 168.
Definition sizeof_trapframe : Z := 288.

(** p->trapframe->field; the trap frame is null only in an unused slot. *)
Definition tf_get (i : nat) (field : Z) : K Z :=
  let* p := get_proc i in
  if p_trapframe p =? 0 then fault else gets (fun s => load 8 (k_mem s) (p_trapframe p + field)).
Definition tf_set (i : nat) (field v : Z) : K unit :=
  let* p := get_proc i in
  if p_trapframe p =? 0 then fault else mod_mem (fun m => store 8 m (p_trapframe p + field) v).

(** safestrcpy() of a string into a field of [n] bytes. *)
Definition lsafestrcpy (t : list Z) (n : nat) : list Z := take (n - 1) t.

(** ** Allocation *)

Definition procinit : K unit :=
  for_loop NPROC 0 (fun i =>
    mod_proc i (fun p => p <| p_state := UNUSED |> <| p_kstack := KSTACK (Z.of_nat i) |>)).

Definition allocpid : K Z :=
  acquire LkPid ;;
  let* pid := gets k_nextpid in
  modify (fun s => s <| k_nextpid := i32 (pid + 1) |>) ;;
  release LkPid ;;
  ret pid.

Definition proc_pagetable (i : nat) : K Z :=
  let* pagetable := uvmcreate in
  if pagetable =? 0 then ret 0
  else
    let* sy := gets k_syms in
    let* r := mappages pagetable TRAMPOLINE PGSIZE (sy_trampoline sy) (Z.lor PTE_R PTE_X) in
    if r <? 0 then uvmfree pagetable 0 ;; ret 0
    else
      let* p := get_proc i in
      let* r := mappages pagetable TRAPFRAME PGSIZE (p_trapframe p) (Z.lor PTE_R PTE_W) in
      if r <? 0 then
        uvmunmap pagetable TRAMPOLINE 1 false ;;
        uvmfree pagetable 0 ;;
        ret 0
      else ret pagetable.

Definition proc_freepagetable (pagetable sz : Z) : K unit :=
  uvmunmap pagetable TRAMPOLINE 1 false ;;
  uvmunmap pagetable TRAPFRAME 1 false ;;
  uvmfree pagetable sz.

Definition freeproc (i : nat) : K unit :=
  let* p := get_proc i in
  (when negb (p_trapframe p =? 0) do kfree (p_trapframe p)) ;;
  mod_proc i (fun p => p <| p_trapframe := 0 |>) ;;
  (when negb (p_pagetable p =? 0) do proc_freepagetable (p_pagetable p) (p_sz p)) ;;
  mod_proc i (fun p => p <| p_pagetable := 0 |> <| p_sz := 0 |> <| p_pid := 0 |>
    <| p_parent := None |> <| p_name := [] |> <| p_chan := None |> <| p_killed := 0 |>
    <| p_xstate := 0 |> <| p_state := UNUSED |>).

(** The search of allocproc(): it returns with the lock of the slot held. *)
Definition find_unused (i : nat) : K (option nat) :=
  acquire (LkProc i) ;;
  let* p := get_proc i in
  if decide (p_state p = UNUSED) then ret (Some i)
  else release (LkProc i) ;; ret None.

(** found: false if memory ran out *)
Definition allocproc_found (i : nat) : K bool :=
  let* pid := allocpid in
  mod_proc i (fun p => p <| p_pid := pid |> <| p_state := USED |>) ;;
  let* tf := kalloc in
  mod_proc i (fun p => p <| p_trapframe := tf |>) ;;
  if tf =? 0 then freeproc i ;; release (LkProc i) ;; ret false
  else
    let* pt := proc_pagetable i in
    mod_proc i (fun p => p <| p_pagetable := pt |>) ;;
    if pt =? 0 then freeproc i ;; release (LkProc i) ;; ret false
    else
      let* sy := gets k_syms in
      mod_proc i (fun p => p <| p_context := mkContext (sy_forkret sy) (u64 (p_kstack p + PGSIZE))
        (replicate 12 0) |>) ;;
      ret true.

Definition allocproc : K (option nat) :=
  let* r := for_ret NPROC 0 find_unused in
  match r with
  | None => ret None
  | Some i => let* ok := allocproc_found i in ret (if ok then Some i else None)
  end.

(** uchar initcode[] *)
Definition initcode : list Z :=
  [23; 5; 0; 0; 19; 5; 69; 2;
   151; 5; 0; 0; 147; 133; 53; 2;
   147; 8; 112; 0; 115; 0; 0; 0;
   147; 8; 32; 0; 115; 0; 0; 0;
   239; 240; 159; 255; 47; 105; 110; 105;
   116; 0; 0; 36; 0; 0; 0; 0;
   0; 0; 0; 0].

Definition userinit : K unit :=
  let* r := allocproc in
  modify (fun s => s <| k_initproc := r |>) ;;
  match r with
  | None => fault
  | Some i =>
      let* p := get_proc i in
      uvmfirst (p_pagetable p) initcode ;;
      mod_proc i (fun p => p <| p_sz := PGSIZE |>) ;;
      tf_set i TF_epc 0 ;;
      tf_set i TF_sp PGSIZE ;;
      mod_proc i (fun p => p <| p_name := lsafestrcpy (bytes "initcode") 16 |>) ;;
      let* cwd := namei (bytes "/") in
      mod_proc i (fun p => p <| p_cwd := cwd |>) ;;
      mod_proc i (fun p => p <| p_state := RUNNABLE |>) ;;
      release (LkProc i)
  end.

Definition growproc (n : Z) : K Z :=
  let* i := curproc in
  let* p := get_proc i in
  let sz := p_sz p in
  if 0 <? n then
    let* sz' := uvmalloc (p_pagetable p) sz (u64 (sz + n)) PTE_W in
    if sz' =? 0 then ret (-1)
    else mod_proc i (fun p => p <| p_sz := sz' |>) ;; ret 0
  else
    let* sz' := (if n <? 0 then uvmdealloc (p_pagetable p) sz (u64 (sz + n)) else ret sz) in
    mod_proc i (fun p => p <| p_sz := sz' |>) ;; ret 0.

(** ** fork, exit, wait *)

Definition fork_file (p np : nat) (fd : nat) : K unit :=
  let* q := get_proc p in
  let* o := index (p_ofile q) fd in
  match o with
  | None => ret tt
  | Some f =>
      let* f := filedup f in
      mod_proc np (fun q => q <| p_ofile ::= <[fd := Some f]> |>)
  end.

Definition fork : K Z :=
  let* p := curproc in
  let* r := allocproc in
  match r with
  | None => ret (-1)
  | Some np =>
      let* q := get_proc p in
      let* nq := get_proc np in
      let* r := uvmcopy (p_pagetable q) (p_pagetable nq) (p_sz q) in
      if r <? 0 then freeproc np ;; release (LkProc np) ;; ret (-1)
      else
        mod_proc np (fun x => x <| p_sz := p_sz q |>) ;;
        mod_mem (fun m => mcopy m (p_trapframe nq) (p_trapframe q) sizeof_trapframe) ;;
        tf_set np TF_a0 0 ;;
        for_loop NOFILE 0 (fork_file p np) ;;
        (match p_cwd q with
         | None => fault
         | Some c => let* c := idup c in mod_proc np (fun x => x <| p_cwd := Some c |>)
         end) ;;
        mod_proc np (fun x => x <| p_name := lsafestrcpy (p_name q) 16 |>) ;;
        let* nq := get_proc np in
        let pid := p_pid nq in
        release (LkProc np) ;;
        acquire LkWait ;;
        mod_proc np (fun x => x <| p_parent := Some p |>) ;;
        release LkWait ;;
        acquire (LkProc np) ;;
        mod_proc np (fun x => x <| p_state := RUNNABLE |>) ;;
        release (LkProc np) ;;
        ret pid
  end.

(** A process used as a channel. *)
Definition proc_chan (p : option nat) : chan :=
  match p with Some i => ChProc i | None => ChNull end.

Definition reparent_one (p : nat) (i : nat) : K unit :=
  let* pp := get_proc i in
  when bool_decide (p_parent pp = Some p) do
    (let* init := gets k_initproc in
     mod_proc i (fun x => x <| p_parent := init |>) ;;
     wakeup (proc_chan init)).

Definition reparent (p : nat) : K unit := for_loop NPROC 0 (reparent_one p).

Definition exit_file (p : nat) (fd : nat) : K unit :=
  let* q := get_proc p in
  let* o := index (p_ofile q) fd in
  match o with
  | None => ret tt
  | Some f => fileclose f ;; mod_proc p (fun q => q <| p_ofile ::= <[fd := None]> |>)
  end.

Definition exit {A} (status : Z) : K A :=
  let* p := curproc in
  let* init := gets k_initproc in
  if decide (Some p = init) then panic "init exiting"
  else
    for_loop NOFILE 0 (exit_file p) ;;
    begin_op ;;
    let* q := get_proc p in
    iput_ptr (p_cwd q) ;;
    end_op ;;
    mod_proc p (fun q => q <| p_cwd := None |>) ;;
    acquire LkWait ;;
    reparent p ;;
    let* q := get_proc p in
    wakeup (proc_chan (p_parent q)) ;;
    acquire (LkProc p) ;;
    mod_proc p (fun q => q <| p_xstate := status |> <| p_state := ZOMBIE |>) ;;
    release LkWait ;;
    sched_zombie.

(** One iteration of the scan in wait(): havekids so far; [Some r] returns. *)
Fixpoint wait_scan (n i : nat) (p : nat) (addr : Z) (havekids : bool) : K (option Z * bool) :=
  match n with
  | O => ret (None, havekids)
  | S n' =>
      let* pp := get_proc i in
      if bool_decide (p_parent pp = Some p) then
        acquire (LkProc i) ;;
        let* pp := get_proc i in
        if decide (p_state pp = ZOMBIE) then
          let pid := p_pid pp in
          let* q := get_proc p in
          let* bad := (if addr =? 0 then ret false
                       else
                         let* r := copyout (p_pagetable q) addr (le_bytes 4 (p_xstate pp)) in
                         ret (r <? 0)) in
          if bad then
            release (LkProc i) ;;
            release LkWait ;;
            ret (Some (-1), true)
          else
            freeproc i ;;
            release (LkProc i) ;;
            release LkWait ;;
            ret (Some pid, true)
        else
          release (LkProc i) ;;
          wait_scan n' (S i) p addr true
      else wait_scan n' (S i) p addr havekids
  end.

Fixpoint wait_loop (fuel : nat) (p : nat) (addr : Z) : K Z :=
  match fuel with
  | O => diverge
  | S f =>
      let* r := wait_scan NPROC 0 p addr false in
      match r with
      | (Some x, _) => ret x
      | (None, havekids) =>
          let* stop := (if havekids then let* k := killed p in ret (negb (k =? 0)) else ret true) in
          if stop then release LkWait ;; ret (-1)
          else sleep (ChProc p) LkWait ;; wait_loop f p addr
      end
  end.

Definition wait (addr : Z) : K Z :=
  let* p := curproc in
  acquire LkWait ;;
  waiting (fun fuel => wait_loop fuel p addr).
