(* ===== verification/Exec.v ===== *)
(** kernel/exec.c: replacing the image of a process by an ELF file. *)

From S2P Require Import Prelude Layout Strings Kernel Sched Printf Kalloc Vm Bio Log Fs Dir Console Pipe File Proc.

(** ** elf.h *)

Definition ELF_MAGIC : Z := 1179403647.
Definition ELF_PROG_LOAD : Z := 1.
Definition sizeof_elfhdr : Z := 64.
Definition sizeof_proghdr : Z := 56.

Record elfhdr : Type := mkElf { elf_magic : Z; elf_entry : Z; elf_phoff : Z; elf_phnum : Z }.
Record proghdr : Type := mkPh {
  ph_type : Z; ph_flags : Z; ph_off : Z; ph_vaddr : Z; ph_filesz : Z; ph_memsz : Z
}.

Definition elf_of_bytes (d : list Z) : elfhdr :=
  mkElf (rdn 4 d 0) (rdn 8 d 24) (rdn 8 d 32) (rdn 2 d 56).
Definition ph_of_bytes (d : list Z) : proghdr :=
  mkPh (rdn 4 d 0) (rdn 4 d 4) (rdn 8 d 8) (rdn 8 d 16) (rdn 8 d 32) (rdn 8 d 40).

(** ** exec.c *)

Definition flags2perm (flags : Z) : Z :=
  let perm := if negb (Z.land flags 1 =? 0) then PTE_X else 0 in
  if negb (Z.land flags 2 =? 0) then Z.lor perm PTE_W else perm.

(** for(i = 0; i < sz; i += PGSIZE) *)
Fixpoint loadseg_loop (fuel : nat) (pagetable va : Z) (ip : nat) (offset sz i : Z) : K Z :=
  match fuel with
  | O => diverge
  | S f =>
      if i <? sz then
        let* pa := walkaddr pagetable (u64 (va + i)) in
        if pa =? 0 then panic "loadseg: address should exist"
        else
          let n := if sz - i <? PGSIZE then sz - i else PGSIZE in
          let* r := readi ip (DKern pa) (u32 (offset + i)) n in
          if negb (r.1 =? n) then ret (-1)
          else loadseg_loop f pagetable va ip offset sz (u32 (i + PGSIZE))
      else ret 0
  end.

Definition loadseg (pagetable va : Z) (ip : nat) (offset sz : Z) : K Z :=
  loadseg_loop (S (S (Z.to_nat (sz / PGSIZE)))) pagetable va ip offset sz 0.

(** The loop over the program headers: whether it succeeded, and the size of
    the image so far. *)
Fixpoint exec_segments (n : nat) (ip : nat) (pagetable off sz : Z) : K (bool * Z) :=
  match n with
  | O => ret (true, sz)
  | S n' =>
      let* r := readi ip (DLocal 0) (u32 off) sizeof_proghdr in
      if negb (r.1 =? sizeof_proghdr) then ret (false, sz)
      else
        let ph := ph_of_bytes r.2 in
        if negb (ph_type ph =? ELF_PROG_LOAD) then
          exec_segments n' ip pagetable (i32 (off + sizeof_proghdr)) sz
        else if ph_memsz ph <? ph_filesz ph then ret (false, sz)
        else if u64 (ph_vaddr ph + ph_memsz ph) <? ph_vaddr ph then ret (false, sz)
        else if negb (ph_vaddr ph mod PGSIZE =? 0) then ret (false, sz)
        else
          let* sz1 := uvmalloc pagetable sz (u64 (ph_vaddr ph + ph_memsz ph)) (flags2perm (ph_flags ph)) in
          if sz1 =? 0 then ret (false, sz)
          else
            let* r := loadseg pagetable (ph_vaddr ph) ip (u32 (ph_off ph)) (u32 (ph_filesz ph)) in
            if r <? 0 then ret (false, sz1)
            else exec_segments n' ip pagetable (i32 (off + sizeof_proghdr)) sz1
  end.

(** The string at a kernel address. *)
Definition kstr (m : mem) (p : Z) : list Z := cstr (Z.to_nat PGSIZE) m p.

(** for(argc = 0; argv[argc]; argc++): the stack pointer and ustack, or [None]
    for bad *)
Fixpoint exec_args (argv : list Z) (pagetable sp stackbase : Z) (ustack : list Z) : K (option (Z * list Z)) :=
  match argv with
  | [] => ret (Some (sp, ustack))
  | a :: argv' =>
      if (MAXARG <=? length ustack)%nat then ret None
      else
        let* m := gets k_mem in
        let str := kstr m a in
        let sp := u64 (sp - (Z.of_nat (length str) + 1)) in
        let sp := u64 (sp - sp mod 16) in
        if sp <? stackbase then ret None
        else
          let* r := copyout pagetable sp (str ++ [0]) in
          if r <? 0 then ret None
          else exec_args argv' pagetable sp stackbase (ustack ++ [sp])
  end.

(** last = the part of the path after its last slash *)
Fixpoint path_last (path last : list Z) : list Z :=
  match path with
  | [] => last
  | c :: p => path_last p (if c =? SLASH then p else last)
  end.

(** bad: *)
Definition exec_bad (pagetable sz : Z) (ip : option nat) : K Z :=
  (when negb (pagetable =? 0) do proc_freepagetable pagetable sz) ;;
  (match ip with Some i => iunlockput i ;; end_op | None => ret tt end) ;;
  ret (-1).

(** exec() after the file has been loaded and closed *)
Definition exec_stack (p : nat) (path : list Z) (argv : list Z) (elf : elfhdr) (pagetable sz : Z) : K Z :=
  let* q := get_proc p in
  let oldsz := p_sz q in
  let sz := PGROUNDUP sz in
  let* sz1 := uvmalloc pagetable sz (u64 (sz + 2 * PGSIZE)) PTE_W in
  if sz1 =? 0 then exec_bad pagetable sz None
  else
    let sz := sz1 in
    uvmclear pagetable (u64 (sz - 2 * PGSIZE)) ;;
    let sp := sz in
    let stackbase := u64 (sp - PGSIZE) in
    let* r := exec_args argv pagetable sp stackbase [] in
    match r with
    | None => exec_bad pagetable sz None
    | Some (sp, ustack) =>
        if (MAXARG <=? length ustack)%nat then fault
        else
          let argc := Z.of_nat (length ustack) in
          let sp := u64 (sp - (argc + 1) * 8) in
          let sp := u64 (sp - sp mod 16) in
          if sp <? stackbase then exec_bad pagetable sz None
          else
            let* r := copyout pagetable sp (concat (le_bytes 8 <$> (ustack ++ [0]))) in
            if r <? 0 then exec_bad pagetable sz None
            else
              tf_set p TF_a1 sp ;;
              mod_proc p (fun q => q <| p_name := lsafestrcpy (path_last path path) 16 |>) ;;
              let* q := get_proc p in
              let oldpagetable := p_pagetable q in
              mod_proc p (fun q => q <| p_pagetable := pagetable |> <| p_sz := sz |>) ;;
              tf_set p TF_epc (elf_entry elf) ;;
              tf_set p TF_sp sp ;;
              proc_freepagetable oldpagetable oldsz ;;
              ret argc
    end.

Definition exec (path : list Z) (argv : list Z) : K Z :=
  let* p := curproc in
  begin_op ;;
  let* ipp := namei path in
  match ipp with
  | None => end_op ;; ret (-1)
  | Some ip =>
      ilock (Some ip) ;;
      let* r := readi ip (DLocal 0) 0 sizeof_elfhdr in
      if negb (r.1 =? sizeof_elfhdr) then exec_bad 0 0 (Some ip)
      else
        let elf := elf_of_bytes r.2 in
        if negb (elf_magic elf =? ELF_MAGIC) then exec_bad 0 0 (Some ip)
        else
          let* pagetable := proc_pagetable p in
          if pagetable =? 0 then exec_bad 0 0 (Some ip)
          else
            let* r := exec_segments (Z.to_nat (elf_phnum elf)) ip pagetable (i32 (elf_phoff elf)) 0 in
            if negb r.1 then exec_bad pagetable r.2 (Some ip)
            else
              iunlockput ip ;;
              end_op ;;
              let* p := curproc in
              exec_stack p path argv elf pagetable r.2
  end.
