(* ===== verification/Syscall.v ===== *)
(** kernel/syscall.c, kernel/sysproc.c and kernel/sysfile.c: system call
    arguments, the system calls, and their dispatch. *)

From S2P Require Import Prelude Layout Strings Kernel Sched Printf Kalloc Vm Bio Log Fs Dir Console Pipe File Proc Exec.

(** ** syscall.c: arguments *)

(** [None] for -1 *)
Definition fetchaddr (addr : Z) : K (option Z) :=
  let* i := curproc in
  let* p := get_proc i in
  if (p_sz p <=? addr) || (p_sz p <? u64 (addr + 8)) then ret None
  else
    let* r := copyin (p_pagetable p) addr 8 in
    if negb (r.1 =? 0) then ret None else ret (Some (le_val r.2)).

(** The result and the string copied; copyinstr() copies the NUL too. *)
Definition fetchstr (addr max : Z) : K (Z * list Z) :=
  let* i := curproc in
  let* p := get_proc i in
  let* r := copyinstr (p_pagetable p) addr max in
  if r.1 <? 0 then ret (-1, []) else ret (Z.of_nat (length r.2) - 1, removelast r.2).

Definition argraw (n : Z) : K Z :=
  let* i := curproc in
  if (0 <=? n) && (n <=? 5) then tf_get i (TF_a0 + 8 * n) else panic "argraw".

Definition argint (n : Z) : K Z := let* v := argraw n in ret (i32 v).
Definition argaddr (n : Z) : K Z := argraw n.

Definition argstr (n max : Z) : K (Z * list Z) :=
  let* addr := argaddr n in fetchstr addr max.

(** ** sysproc.c *)

Definition sys_exit : K Z := let* n := argint 0 in exit n.

Definition sys_getpid : K Z := mypid.

Definition sys_fork : K Z := fork.

Definition sys_wait : K Z := let* p := argaddr 0 in wait p.

Definition sys_sbrk : K Z :=
  let* n := argint 0 in
  let* i := curproc in
  let* p := get_proc i in
  let addr := p_sz p in
  let* r := growproc n in
  if r <? 0 then ret (-1) else ret addr.

(** while(ticks - ticks0 < n): the comparison is unsigned *)
Fixpoint sys_sleep_loop (fuel : nat) (ticks0 n : Z) : K Z :=
  match fuel with
  | O => diverge
  | S f =>
      let* ticks := gets k_ticks in
      if u32 (ticks - ticks0) <? u32 n then
        let* i := curproc in
        let* k := killed i in
        if negb (k =? 0) then release LkTicks ;; ret (-1)
        else sleep ChTicks LkTicks ;; sys_sleep_loop f ticks0 n
      else release LkTicks ;; ret 0
  end.

Definition sys_sleep : K Z :=
  let* n := argint 0 in
  acquire LkTicks ;;
  let* ticks0 := gets k_ticks in
  waiting (fun fuel => sys_sleep_loop fuel ticks0 n).

Definition sys_kill : K Z := let* pid := argint 0 in kill pid.

Definition sys_uptime : K Z :=
  acquire LkTicks ;;
  let* xticks := gets k_ticks in
  release LkTicks ;;
  ret xticks.

(** ** sysfile.c *)

Definition argfd (n : Z) : K (option (nat * nat)) :=
  let* fd := argint n in
  if (fd <? 0) || (Z.of_nat NOFILE <=? fd) then ret None
  else
    let* i := curproc in
    let* p := get_proc i in
    let* o := index (p_ofile p) (Z.to_nat fd) in
    match o with None => ret None | Some f => ret (Some (Z.to_nat fd, f)) end.

(** for(fd = 0; fd < NOFILE; fd++) until a free descriptor *)
Fixpoint fd_free (l : list (option nat)) (fd : nat) : option nat :=
  match l with
  | [] => None
  | None :: _ => Some fd
  | Some _ :: l' => fd_free l' (S fd)
  end.

Definition set_fd (i fd : nat) (o : option nat) : K unit :=
  mod_proc i (fun p => p <| p_ofile ::= <[fd := o]> |>).

Definition fdalloc (f : nat) : K Z :=
  let* i := curproc in
  let* p := get_proc i in
  match fd_free (p_ofile p) 0 with
  | Some fd => set_fd i fd (Some f) ;; ret (Z.of_nat fd)
  | None => ret (-1)
  end.

Definition sys_dup : K Z :=
  let* a := argfd 0 in
  match a with
  | None => ret (-1)
  | Some (_, f) =>
      let* fd := fdalloc f in
      if fd <? 0 then ret (-1) else filedup f ;; ret fd
  end.

Definition sys_read : K Z :=
  let* p := argaddr 1 in
  let* n := argint 2 in
  let* a := argfd 0 in
  match a with None => ret (-1) | Some (_, f) => fileread f p n end.

Definition sys_write : K Z :=
  let* p := argaddr 1 in
  let* n := argint 2 in
  let* a := argfd 0 in
  match a with None => ret (-1) | Some (_, f) => filewrite f p n end.

Definition sys_close : K Z :=
  let* a := argfd 0 in
  match a with
  | None => ret (-1)
  | Some (fd, f) =>
      let* i := curproc in
      set_fd i fd None ;;
      fileclose f ;;
      ret 0
  end.

Definition sys_fstat (pad : list Z) : K Z :=
  let* st := argaddr 1 in
  let* a := argfd 0 in
  match a with None => ret (-1) | Some (_, f) => filestat pad f st end.

(** bad: of sys_link() *)
Definition link_bad (ip : nat) : K Z :=
  ilock (Some ip) ;;
  mod_inode ip (fun i => i <| i_nlink ::= fun n => i16 (n - 1) |>) ;;
  iupdate ip ;;
  iunlockput ip ;;
  end_op ;;
  ret (-1).

Definition sys_link : K Z :=
  let* old := argstr 0 MAXPATH in
  if old.1 <? 0 then ret (-1)
  else
    let* new := argstr 1 MAXPATH in
    if new.1 <? 0 then ret (-1)
    else
      begin_op ;;
      let* ipp := namei old.2 in
      match ipp with
      | None => end_op ;; ret (-1)
      | Some ip =>
          ilock (Some ip) ;;
          let* i := get_inode ip in
          if i_type i =? T_DIR then iunlockput ip ;; end_op ;; ret (-1)
          else
            mod_inode ip (fun i => i <| i_nlink ::= fun n => i16 (n + 1) |>) ;;
            iupdate ip ;;
            iunlock (Some ip) ;;
            let* r := nameiparent new.2 in
            match r with
            | (None, _) => link_bad ip
            | (Some dp, name) =>
                ilock (Some dp) ;;
                let* d := get_inode dp in
                let* i := get_inode ip in
                let* bad := (if negb (i_dev d =? i_dev i) then ret true
                             else let* r := dirlink dp name (i_inum i) in ret (r <? 0)) in
                if bad then iunlockput dp ;; link_bad ip
                else
                  iunlockput dp ;;
                  iput ip ;;
                  end_op ;;
                  ret 0
            end
      end.

(** for(off=2*sizeof(de); off<dp->size; off+=sizeof(de)) *)
Fixpoint isdirempty_loop (fuel : nat) (dp : nat) (off : Z) : K bool :=
  match fuel with
  | O => diverge
  | S f =>
      let* d := get_inode dp in
      if off <? i_size d then
        let* r := readi dp (DLocal 0) off sizeof_dirent in
        if negb (r.1 =? sizeof_dirent) then panic "isdirempty: readi"
        else if negb (de_inum (de_of_bytes r.2) =? 0) then ret false
        else isdirempty_loop f dp (off + sizeof_dirent)
      else ret true
  end.

Definition isdirempty (dp : nat) : K bool :=
  let* d := get_inode dp in
  isdirempty_loop (S (S (Z.to_nat (i_size d / sizeof_dirent)))) dp (2 * sizeof_dirent).

Definition unlink_bad (dp : nat) : K Z := iunlockput dp ;; end_op ;; ret (-1).

Definition sys_unlink : K Z :=
  let* path := argstr 0 MAXPATH in
  if path.1 <? 0 then ret (-1)
  else
    begin_op ;;
    let* r := nameiparent path.2 in
    match r with
    | (None, _) => end_op ;; ret (-1)
    | (Some dp, name) =>
        ilock (Some dp) ;;
        if (namecmp name (bytes ".") =? 0) || (namecmp name (bytes "..") =? 0) then unlink_bad dp
        else
          let* l := dirlookup dp name in
          match l with
          | None => unlink_bad dp
          | Some (ip, off) =>
              ilock (Some ip) ;;
              let* i := get_inode ip in
              if i_nlink i <? 1 then panic "unlink: nlink < 1"
              else
                let* busy := (if i_type i =? T_DIR then let* e := isdirempty ip in ret (negb e)
                              else ret false) in
                if busy then iunlockput ip ;; unlink_bad dp
                else
                  let* n := writei dp (SLocal (replicate (Z.to_nat sizeof_dirent) 0)) off sizeof_dirent in
                  if negb (n =? sizeof_dirent) then panic "unlink: writei"
                  else
                    let* i := get_inode ip in
                    (when i_type i =? T_DIR do
                      (mod_inode dp (fun d => d <| i_nlink ::= fun n => i16 (n - 1) |>) ;;
                       iupdate dp)) ;;
                    iunlockput dp ;;
                    mod_inode ip (fun i => i <| i_nlink ::= fun n => i16 (n - 1) |>) ;;
                    iupdate ip ;;
                    iunlockput ip ;;
                    end_op ;;
                    ret 0
          end
    end.

(** fail: of create() *)
Definition create_fail (ip dp : nat) : K (option nat) :=
  mod_inode ip (fun i => i <| i_nlink := 0 |>) ;;
  iupdate ip ;;
  iunlockput ip ;;
  iunlockput dp ;;
  ret None.

Definition create (path : list Z) (type major minor : Z) : K (option nat) :=
  let* r := nameiparent path in
  match r with
  | (None, _) => ret None
  | (Some dp, name) =>
      ilock (Some dp) ;;
      let* l := dirlookup dp name in
      match l with
      | Some (ip, _) =>
          iunlockput dp ;;
          ilock (Some ip) ;;
          let* i := get_inode ip in
          if (type =? T_FILE) && ((i_type i =? T_FILE) || (i_type i =? T_DEVICE)) then ret (Some ip)
          else iunlockput ip ;; ret None
      | None =>
          let* d := get_inode dp in
          let* a := ialloc (i_dev d) type in
          match a with
          | None => iunlockput dp ;; ret None
          | Some ip =>
              ilock (Some ip) ;;
              mod_inode ip (fun i => i <| i_major := major |> <| i_minor := minor |> <| i_nlink := 1 |>) ;;
              iupdate ip ;;
              let* i := get_inode ip in
              let* d := get_inode dp in
              let* bad :=
                (if type =? T_DIR then
                   let* r := dirlink ip (bytes ".") (i_inum i) in
                   if r <? 0 then ret true
                   else let* r := dirlink ip (bytes "..") (i_inum d) in ret (r <? 0)
                 else ret false) in
              if bad then create_fail ip dp
              else
                let* r := dirlink dp name (i_inum i) in
                if r <? 0 then create_fail ip dp
                else
                  (when type =? T_DIR do
                    (mod_inode dp (fun d => d <| i_nlink ::= fun n => i16 (n + 1) |>) ;;
                     iupdate dp)) ;;
                  iunlockput dp ;;
                  ret (Some ip)
          end
      end
  end.

Definition has_mode (omode bit : Z) : bool := negb (Z.land omode bit =? 0).

(** sys_open() from the point where the inode is locked *)
Definition open_inode (ip : nat) (omode : Z) : K Z :=
  let* i := get_inode ip in
  if (i_type i =? T_DEVICE) && ((i_major i <? 0) || (NDEV <=? i_major i)) then
    iunlockput ip ;; end_op ;; ret (-1)
  else
    let* fp := filealloc in
    match fp with
    | None => iunlockput ip ;; end_op ;; ret (-1)
    | Some f =>
        let* fd := fdalloc f in
        if fd <? 0 then fileclose f ;; iunlockput ip ;; end_op ;; ret (-1)
        else
          let* i := get_inode ip in
          (if i_type i =? T_DEVICE then
             mod_file f (fun x => x <| f_type := FD_DEVICE |> <| f_major := i_major i |>)
           else mod_file f (fun x => x <| f_type := FD_INODE |> <| f_off := 0 |>)) ;;
          mod_file f (fun x => x <| f_ip := Some ip |>
            <| f_readable := negb (has_mode omode O_WRONLY) |>
            <| f_writable := has_mode omode O_WRONLY || has_mode omode O_RDWR |>) ;;
          (when has_mode omode O_TRUNC && (i_type i =? T_FILE) do itrunc ip) ;;
          iunlock (Some ip) ;;
          end_op ;;
          ret fd
    end.

Definition sys_open : K Z :=
  let* omode := argint 1 in
  let* path := argstr 0 MAXPATH in
  if path.1 <? 0 then ret (-1)
  else
    begin_op ;;
    if has_mode omode O_CREATE then
      let* ip := create path.2 T_FILE 0 0 in
      match ip with
      | None => end_op ;; ret (-1)
      | Some ip => open_inode ip omode
      end
    else
      let* ipp := namei path.2 in
      match ipp with
      | None => end_op ;; ret (-1)
      | Some ip =>
          ilock (Some ip) ;;
          let* i := get_inode ip in
          if (i_type i =? T_DIR) && negb (omode =? O_RDONLY) then
            iunlockput ip ;; end_op ;; ret (-1)
          else open_inode ip omode
      end.

Definition sys_mkdir : K Z :=
  begin_op ;;
  let* path := argstr 0 MAXPATH in
  let* ip := (if path.1 <? 0 then ret None else create path.2 T_DIR 0 0) in
  match ip with
  | None => end_op ;; ret (-1)
  | Some ip => iunlockput ip ;; end_op ;; ret 0
  end.

Definition sys_mknod : K Z :=
  begin_op ;;
  let* major := argint 1 in
  let* minor := argint 2 in
  let* path := argstr 0 MAXPATH in
  let* ip := (if path.1 <? 0 then ret None else create path.2 T_DEVICE (i16 major) (i16 minor)) in
  match ip with
  | None => end_op ;; ret (-1)
  | Some ip => iunlockput ip ;; end_op ;; ret 0
  end.

Definition sys_chdir : K Z :=
  let* p := curproc in
  begin_op ;;
  let* path := argstr 0 MAXPATH in
  let* ipp := (if path.1 <? 0 then ret None else namei path.2) in
  match ipp with
  | None => end_op ;; ret (-1)
  | Some ip =>
      ilock (Some ip) ;;
      let* i := get_inode ip in
      if negb (i_type i =? T_DIR) then iunlockput ip ;; end_op ;; ret (-1)
      else
        iunlock (Some ip) ;;
        let* q := get_proc p in
        iput_ptr (p_cwd q) ;;
        end_op ;;
        mod_proc p (fun q => q <| p_cwd := Some ip |>) ;;
        ret 0
  end.

(** for(i=0;; i++) of sys_exec(): the pages allocated so far, and whether all
    arguments were fetched *)
Fixpoint exec_fetch (fuel : nat) (uargv i : Z) (argv : list Z) : K (bool * list Z) :=
  match fuel with
  | O => ret (false, argv)
  | S f =>
      let* a := fetchaddr (u64 (uargv + 8 * i)) in
      match a with
      | None => ret (false, argv)
      | Some uarg =>
          if uarg =? 0 then ret (true, argv)
          else
            let* page := kalloc in
            if page =? 0 then ret (false, argv)
            else
              let* i' := curproc in
              let* p := get_proc i' in
              let* r := copyinstr (p_pagetable p) uarg PGSIZE in
              mod_mem (fun m => mwrite m page r.2) ;;
              if r.1 <? 0 then ret (false, argv ++ [page])
              else exec_fetch f uargv (i + 1) (argv ++ [page])
      end
  end.

Fixpoint kfree_all (l : list Z) : K unit :=
  match l with [] => ret tt | p :: l' => kfree p ;; kfree_all l' end.

(** i reaches NELEM(argv) after MAXARG rounds. *)
Definition sys_exec : K Z :=
  let* uargv := argaddr 1 in
  let* path := argstr 0 MAXPATH in
  if path.1 <? 0 then ret (-1)
  else
    let* r := exec_fetch MAXARG uargv 0 [] in
    if r.1 then
      let* x := exec path.2 r.2 in
      kfree_all r.2 ;;
      ret x
    else kfree_all r.2 ;; ret (-1).

Definition sys_pipe : K Z :=
  let* p := curproc in
  let* fdarray := argaddr 0 in
  let* r := pipealloc in
  match r with
  | None => ret (-1)
  | Some (rf, wf) =>
      let* fd0 := fdalloc rf in
      let* fd1 := (if fd0 <? 0 then ret (-1) else fdalloc wf) in
      if fd1 <? 0 then
        (when 0 <=? fd0 do set_fd p (Z.to_nat fd0) None) ;;
        fileclose rf ;;
        fileclose wf ;;
        ret (-1)
      else
        let* q := get_proc p in
        let* r0 := copyout (p_pagetable q) fdarray (le_bytes 4 fd0) in
        let* r1 := (if r0 <? 0 then ret (-1)
                    else copyout (p_pagetable q) (u64 (fdarray + 4)) (le_bytes 4 fd1)) in
        if r1 <? 0 then
          set_fd p (Z.to_nat fd0) None ;;
          set_fd p (Z.to_nat fd1) None ;;
          fileclose rf ;;
          fileclose wf ;;
          ret (-1)
        else ret 0
  end.

(** ** syscall.c: dispatch *)

(** syscalls[num]; [pad] is the padding of sys_fstat()'s struct stat. *)
Definition syscalls (pad : list Z) (num : Z) : option (K Z) :=
  match num with
  | 1 => Some sys_fork
  | 2 => Some sys_exit
  | 3 => Some sys_wait
  | 4 => Some sys_pipe
  | 5 => Some sys_read
  | 6 => Some sys_kill
  | 7 => Some sys_exec
  | 8 => Some (sys_fstat pad)
  | 9 => Some sys_chdir
  | 10 => Some sys_dup
  | 11 => Some sys_getpid
  | 12 => Some sys_sbrk
  | 13 => Some sys_sleep
  | 14 => Some sys_uptime
  | 15 => Some sys_open
  | 16 => Some sys_write
  | 17 => Some sys_mknod
  | 18 => Some sys_unlink
  | 19 => Some sys_link
  | 20 => Some sys_mkdir
  | 21 => Some sys_close
  | _ => None
  end.

Definition syscall (pad : list Z) : K unit :=
  let* i := curproc in
  let* a7 := tf_get i TF_a7 in
  let num := i32 a7 in
  match syscalls pad num with
  | Some f =>
      let* r := f in
      tf_set i TF_a0 (u64 r)
  | None =>
      let* p := get_proc i in
      printf (bytes "%d %s: unknown sys call %d" ++ nl)
        [AInt (p_pid p); AStr (Some (p_name p)); AInt num] ;;
      tf_set i TF_a0 (u64 (-1))
  end.
