(* ===== verification/Trap.v ===== *)
(** kernel/trap.c, kernel/plic.c, forkret() of kernel/proc.c and
    kernel/main.c: traps, interrupts, and the boot of the first hart.

    [SIE] of sstatus is [k_sie]; the other bits of sstatus and the remaining
    trap registers are in [k_csr].  The device behind the PLIC is the list of
    interrupts it will report.  [usertrapret] ends where trampoline.S takes
    over: it returns the satp value it passes to it. *)

From S2P Require Import Prelude Layout Strings Kernel Sched Printf Kalloc Vm Bio Virtio Log Fs Dir Console Pipe File Proc Exec Syscall.

Definition SSTATUS_SPP : Z := Z.shiftl 1 8.
Definition SSTATUS_SPIE : Z := Z.shiftl 1 5.

Definition mod_csr (f : csrs -> csrs) : K unit := modify (fun s => s <| k_csr ::= f |>).

(** ** plic.c *)

(** Reading the claim register takes the next pending interrupt, 0 if none. *)
Definition plic_claim : K Z :=
  let* c := gets k_csr in
  mod_csr (fun c => c <| c_plic ::= @tail Z |>) ;;
  ret (hd 0 (c_plic c)).

(** Writing it back lets the device interrupt again. *)
Definition plic_complete (irq : Z) : K unit := ret tt.

(** ** trap.c *)

Definition trapinithart : K unit :=
  modify (fun s => s <| k_csr ::= fun c => c <| c_stvec := sy_kernelvec (k_syms s) |> |>).

Definition clockintr : K unit :=
  acquire LkTicks ;;
  modify (fun s => s <| k_ticks ::= fun t => u32 (t + 1) |>) ;;
  wakeup ChTicks ;;
  release LkTicks.

(** [R] is what reads of the disk's registers return. *)
Definition devintr (R : list (Z * Z) -> Z -> Z) : K Z :=
  let* c := gets k_csr in
  let scause := c_scause c in
  if negb (Z.land scause (2 ^ 63) =? 0) && (Z.land scause 255 =? 9) then
    let* irq := plic_claim in
    (if irq =? UART0_IRQ then uartintr
     else if irq =? VIRTIO0_IRQ then virtio_disk_intr R
     else if negb (irq =? 0) then printf (bytes "unexpected interrupt irq=%d" ++ nl) [AInt irq]
     else ret tt) ;;
    (when negb (irq =? 0) do plic_complete irq) ;;
    ret 1
  else if scause =? 2 ^ 63 + 1 then
    (when c_tp c =? 0 do clockintr) ;;
    mod_csr (fun c => c <| c_sip ::= fun x => Z.land x (u64 (Z.lnot 2)) |>) ;;
    ret 2
  else ret 0.

Definition usertrapret : K Z :=
  let* i := curproc in
  intr_off ;;
  let* sy := gets k_syms in
  mod_csr (fun c => c <| c_stvec := u64 (TRAMPOLINE + (sy_uservec sy - sy_trampoline sy)) |>) ;;
  let* c := gets k_csr in
  let* p := get_proc i in
  tf_set i TF_kernel_satp (c_satp c) ;;
  tf_set i TF_kernel_sp (u64 (p_kstack p + PGSIZE)) ;;
  tf_set i TF_kernel_trap (sy_usertrap sy) ;;
  tf_set i TF_kernel_hartid (c_tp c) ;;
  mod_csr (fun c => c <| c_sstatus ::=
    fun x => Z.lor (Z.land x (u64 (Z.lnot SSTATUS_SPP))) SSTATUS_SPIE |>) ;;
  let* epc := tf_get i TF_epc in
  mod_csr (fun c => c <| c_sepc := epc |>) ;;
  ret (MAKE_SATP (p_pagetable p)).

Definition usertrap (pad : list Z) (R : list (Z * Z) -> Z -> Z) : K Z :=
  let* c := gets k_csr in
  if negb (Z.land (c_sstatus c) SSTATUS_SPP =? 0) then panic "usertrap: not from user mode"
  else
    trapinithart ;;
    let* i := curproc in
    tf_set i TF_epc (c_sepc c) ;;
    let* which_dev :=
      (if c_scause c =? 8 then
         let* k := killed i in
         (when negb (k =? 0) do exit (-1)) ;;
         let* epc := tf_get i TF_epc in
         tf_set i TF_epc (u64 (epc + 4)) ;;
         intr_on ;;
         syscall pad ;;
         ret 0
       else
         let* which_dev := devintr R in
         (when which_dev =? 0 do
           (let* p := get_proc i in
            let* c := gets k_csr in
            printf (bytes "usertrap(): unexpected scause %p pid=%d" ++ nl)
              [APtr (c_scause c); AInt (p_pid p)] ;;
            printf (bytes "            sepc=%p stval=%p" ++ nl) [APtr (c_sepc c); APtr (c_stval c)] ;;
            setkilled i)) ;;
         ret which_dev) in
    let* k := killed i in
    (when negb (k =? 0) do exit (-1)) ;;
    (when which_dev =? 2 do yield) ;;
    usertrapret.

Definition kerneltrap (R : list (Z * Z) -> Z -> Z) : K unit :=
  let* c := gets k_csr in
  let sepc := c_sepc c in
  let sstatus := c_sstatus c in
  let scause := c_scause c in
  if Z.land sstatus SSTATUS_SPP =? 0 then panic "kerneltrap: not from supervisor mode"
  else
    let* on := intr_get in
    if on then panic "kerneltrap: interrupts enabled"
    else
      let* which_dev := devintr R in
      if which_dev =? 0 then
        printf (bytes "scause %p" ++ nl) [APtr scause] ;;
        let* c := gets k_csr in
        printf (bytes "sepc=%p stval=%p" ++ nl) [APtr (c_sepc c); APtr (c_stval c)] ;;
        panic "kerneltrap"
      else
        let* me := myproc in
        (match me with
         | Some i =>
             when which_dev =? 2 do
               (let* p := get_proc i in
                when bool_decide (p_state p = RUNNING) do yield)
         | None => ret tt
         end) ;;
        mod_csr (fun c => c <| c_sepc := sepc |> <| c_sstatus := sstatus |>).

(** ** proc.c: forkret *)

Definition forkret : K Z :=
  let* i := curproc in
  release (LkProc i) ;;
  let* first := gets k_first in
  (when first do
    (modify (fun s => s <| k_first := false |>) ;;
     fsinit ROOTDEV)) ;;
  usertrapret.

(** ** main.c: hart 0, up to its call of scheduler()

    The locks are created free, so initlock() has nothing to do; the registers
    of the UART and the PLIC are not part of the state. *)
Definition main_boot (R : list (Z * Z) -> Z -> Z) : K unit :=
  printfinit ;;
  printf nl [] ;;
  printf (bytes "xv6 kernel is booting" ++ nl) [] ;;
  printf nl [] ;;
  kinit ;;
  kvminit ;;
  kvminithart ;;
  procinit ;;
  trapinithart ;;
  binit ;;
  iinit ;;
  virtio_disk_init R ;;
  userinit.
