(* ===== verification/Devices.v ===== *)
(** The set-up of the devices at boot: uartinit() against the documented
    registers of a 16550, plicinit() and plicinithart() against the documented
    registers of the interrupt controller; and the start of the harts other than
    the first. *)

From S2P Require Import Prelude Layout Strings Kernel Spinlock Sched Printf Vm Trap.

(** ** uart.c: uartinit() *)

Definition IER : Z := 1.
Definition IER_RX_ENABLE : Z := Z.shiftl 1 0.
Definition IER_TX_ENABLE : Z := Z.shiftl 1 1.
Definition FCR : Z := 2.
Definition FCR_FIFO_ENABLE : Z := Z.shiftl 1 0.
Definition FCR_FIFO_CLEAR : Z := Z.shiftl 3 1.
Definition LCR : Z := 3.
Definition LCR_EIGHT_BITS : Z := Z.shiftl 3 0.
Definition LCR_BAUD_LATCH : Z := Z.shiftl 1 7.

(** A 16550: what a write to each of its registers does.  While the top bit of the
    line control register is set, registers 0 and 1 are the divisor of the baud
    rate. *)
Record lines : Type := mkLines {
  l_ier : Z;
  l_lcr : Z;
  l_divisor : Z * Z;
  l_fcr : Z;
}.
#[export] Instance upd_l_ier : Field l_ier := fun g r => mkLines (g (l_ier r)) (l_lcr r) (l_divisor r) (l_fcr r).
#[export] Instance upd_l_lcr : Field l_lcr := fun g r => mkLines (l_ier r) (g (l_lcr r)) (l_divisor r) (l_fcr r).
#[export] Instance upd_l_divisor : Field l_divisor := fun g r => mkLines (l_ier r) (l_lcr r) (g (l_divisor r)) (l_fcr r).
#[export] Instance upd_l_fcr : Field l_fcr := fun g r => mkLines (l_ier r) (l_lcr r) (l_divisor r) (g (l_fcr r)).

Class uart16550 (D : Type) : Type := {
  WriteReg : Z -> Z -> D -> D;
  settings : D -> lines;
  write_lcr d v : settings (WriteReg LCR v d) = (settings d) <| l_lcr := v |>;
  write_fcr d v : settings (WriteReg FCR v d) = (settings d) <| l_fcr := v |>;
  write_0_latched d v : Z.testbit (l_lcr (settings d)) 7 = true -> settings (WriteReg 0 v d) = (settings d) <| l_divisor ::= fun x => (v, x.2) |>;
  write_1_latched d v : Z.testbit (l_lcr (settings d)) 7 = true -> settings (WriteReg 1 v d) = (settings d) <| l_divisor ::= fun x => (x.1, v) |>;
  write_ier d v : Z.testbit (l_lcr (settings d)) 7 = false -> settings (WriteReg IER v d) = (settings d) <| l_ier := v |>;
}.

Definition latched {D} `{uart16550 D} (d : D) : bool := Z.testbit (l_lcr (settings d)) 7.

(** The writes of uartinit(), the first one first. *)
Definition uartinit {D} `{uart16550 D} (d : D) : D :=
  let d := WriteReg IER 0x00 d in
  let d := WriteReg LCR LCR_BAUD_LATCH d in
  let d := WriteReg 0 0x03 d in
  let d := WriteReg 1 0x00 d in
  let d := WriteReg LCR LCR_EIGHT_BITS d in
  let d := WriteReg FCR (Z.lor FCR_FIFO_ENABLE FCR_FIFO_CLEAR) d in
  WriteReg IER (Z.lor IER_TX_ENABLE IER_RX_ENABLE) d.

(** ** plic.c: plicinit() and plicinithart() *)

Definition PLIC_SENABLE (hart : Z) : Z := PLIC + 0x2080 + hart * 0x100.
Definition PLIC_SPRIORITY (hart : Z) : Z := PLIC + 0x201000 + hart * 0x2000.

Definition plicinit (m : mem) : mem :=
  let m := store 4 m (PLIC + UART0_IRQ * 4) 1 in
  store 4 m (PLIC + VIRTIO0_IRQ * 4) 1.

Definition plicinithart (hart : Z) (m : mem) : mem :=
  let m := store 4 m (PLIC_SENABLE hart) (Z.lor (Z.shiftl 1 UART0_IRQ) (Z.shiftl 1 VIRTIO0_IRQ)) in
  store 4 m (PLIC_SPRIORITY hart) 0.

(** ** main.c: the harts other than hart 0 *)

(** [started] is the value of the variable that hart 0 sets when it is done. *)
Definition main_hart (started : bool) (hart : Z) : K unit :=
  if negb started then diverge
  else
    printf (bytes "hart %d starting" ++ nl) [AInt hart] ;;
    kvminithart ;;
    trapinithart.

(** ** What they set up *)

(** A 16550 whose registers are all there is to it. *)
Definition plain_write (reg v : Z) (d : lines) : lines :=
  if reg =? LCR then d <| l_lcr := v |>
  else if reg =? FCR then d <| l_fcr := v |>
  else if Z.testbit (l_lcr d) 7 then
    if reg =? 0 then d <| l_divisor ::= fun x => (v, x.2) |> else if reg =? 1 then d <| l_divisor ::= fun x => (x.1, v) |> else d
  else if reg =? IER then d <| l_ier := v |> else d.

#[export] Instance plain_uart : uart16550 lines.
Proof. refine {| WriteReg := plain_write; settings d := d |}; intros d v; [done|done|intros H; unfold plain_write; by rewrite H..]. Defined.

(** A UART whose latch is off is left sending and receiving eight bits without
    parity at 38.4K baud (divisor 3), with its queues on and both interrupts
    enabled. *)
Theorem uartinit_spec {D} `{uart16550 D} (d : D) : latched d = false ->
  settings (uartinit d) = mkLines 3 3 (3, 0) 7.
Proof.
  intros H0. unfold uartinit.
  set (d1 := WriteReg IER 0 d). assert (settings d1 = (settings d) <| l_ier := 0 |>) as E1 by by apply write_ier.
  set (d2 := WriteReg LCR _ d1). assert (settings d2 = (settings d1) <| l_lcr := LCR_BAUD_LATCH |>) as E2 by apply write_lcr.
  assert (latched d2 = true) as L2 by (unfold latched; by rewrite E2).
  set (d3 := WriteReg 0 3 d2). assert (settings d3 = (settings d2) <| l_divisor ::= fun x => (3, x.2) |>) as E3 by by apply write_0_latched.
  assert (latched d3 = true) as L3 by (unfold latched; by rewrite E3, E2).
  set (d4 := WriteReg 1 0 d3). assert (settings d4 = (settings d3) <| l_divisor ::= fun x => (x.1, 0) |>) as E4 by by apply write_1_latched.
  rewrite write_ier; unfold latched; rewrite write_fcr, write_lcr, ?E4, ?E3, ?E2, ?E1; done.
Qed.

(** An interrupt is delivered in a context of the controller when it is enabled
    there and its priority is above the threshold of the context; the supervisor
    context of a hart has the number 2 * hart + 1. *)
Definition delivers (m : mem) (hart irq : Z) : bool :=
  let context := 2 * hart + 1 in
  Z.testbit (load 4 m (PLIC + 0x2000 + 0x80 * context)) irq && (load 4 m (PLIC + 0x200000 + 0x1000 * context) <? load 4 m (PLIC + 4 * irq)).

(** plicinithart() of the harts of [l], the first one first. *)
Definition plic_started (l : list Z) (m : mem) : mem := foldl (fun m hart => plicinithart hart m) (plicinit m) l.

Lemma store4_small m a b v : b + 4 <= a \/ a + 4 <= b -> load 4 (store 4 m a v) b = load 4 m b.
Proof. intros. by apply load_store_disjoint. Qed.

(** The words of a hart after its set-up, and those of the other harts and the
    priorities, which stay. *)
Lemma plicinithart_own hart m :
  load 4 (plicinithart hart m) (PLIC_SENABLE hart) = 0x402 /\ load 4 (plicinithart hart m) (PLIC_SPRIORITY hart) = 0 \/ hart < 0 \/ 8 <= hart.
Proof.
  destruct (decide (0 <= hart < 8)) as [H|H]; [left|lia]. unfold plicinithart. split; [|by rewrite load_store_same].
  rewrite store4_small by (unfold PLIC_SENABLE, PLIC_SPRIORITY, PLIC; lia). by rewrite load_store_same.
Qed.

Lemma plicinithart_other hart m a : 0 <= hart < 8 ->
  (a + 4 <= PLIC + 0x2080 \/ exists i, 0 <= i < 8 /\ i <> hart /\ (a = PLIC_SENABLE i \/ a = PLIC_SPRIORITY i)) ->
  load 4 (plicinithart hart m) a = load 4 m a.
Proof.
  intros H Ha. unfold plicinithart. rewrite !store4_small; [done|..]; unfold PLIC_SENABLE, PLIC_SPRIORITY, PLIC in *; destruct Ha as [Ha|(i & Hi & Hn & [-> | ->])]; lia.
Qed.

Lemma plicinit_prio m irq : 0 < irq < 32 -> load 4 (plicinit m) (PLIC + 4 * irq) = if (irq =? UART0_IRQ) || (irq =? VIRTIO0_IRQ) then 1 else load 4 m (PLIC + 4 * irq).
Proof.
  intros H. unfold plicinit, UART0_IRQ, VIRTIO0_IRQ. destruct (Z.eqb_spec irq 10) as [->|H10]; cbn [orb].
  - rewrite store4_small by (unfold PLIC; lia). by rewrite load_store_same.
  - destruct (Z.eqb_spec irq 1) as [->|H1]; [by rewrite load_store_same|]. rewrite !store4_small by (unfold PLIC; lia). done.
Qed.

(** The words after the set-up of several harts. *)
Lemma plic_started_ok l m : Forall (fun i => 0 <= i < 8) l ->
  (forall irq, 0 < irq < 32 -> load 4 (plic_started l m) (PLIC + 4 * irq) = load 4 (plicinit m) (PLIC + 4 * irq)) /\
  forall i, i ∈ l -> load 4 (plic_started l m) (PLIC_SENABLE i) = 0x402 /\ load 4 (plic_started l m) (PLIC_SPRIORITY i) = 0.
Proof.
  unfold plic_started. induction l as [|h l IH] using rev_ind; intros Hl; [split; [done|set_solver]|].
  apply Forall_app in Hl as [Hl [Hh _]%Forall_cons]. destruct (IH Hl) as [IH1 IH2]. rewrite foldl_app. cbn [foldl]. split.
  - intros irq Hi. rewrite plicinithart_other by (done || left; unfold PLIC; lia). by apply IH1.
  - intros i Hi. destruct (decide (i = h)) as [->|Hn].
    + destruct (plicinithart_own h (foldl (fun m hart => plicinithart hart m) (plicinit m) l)) as [H|H]; [done|lia].
    + assert (i ∈ l) as Hin by set_solver. assert (0 <= i < 8) by (by apply (proj1 (Forall_forall _ _) Hl)).
      rewrite !plicinithart_other by (done || right; exists i; naive_solver). by apply IH2.
Qed.

(** Once the controller is set up, each hart that set up its part gets the
    interrupts of the UART and of the disk and no others of the first 31. *)
Theorem plic_spec l m hart irq : Forall (fun i => 0 <= i < 8) l -> hart ∈ l -> 0 < irq < 32 ->
  delivers (plic_started l m) hart irq = (irq =? UART0_IRQ) || (irq =? VIRTIO0_IRQ).
Proof.
  intros Hl Hh Hi. destruct (plic_started_ok l m Hl) as [Hp Ho]. destruct (Ho hart Hh) as [He Ht]. unfold delivers.
  replace (PLIC + 0x2000 + 0x80 * (2 * hart + 1)) with (PLIC_SENABLE hart) by (unfold PLIC_SENABLE; lia).
  replace (PLIC + 0x200000 + 0x1000 * (2 * hart + 1)) with (PLIC_SPRIORITY hart) by (unfold PLIC_SPRIORITY; lia).
  rewrite He, Ht, Hp, plicinit_prio by done. unfold UART0_IRQ, VIRTIO0_IRQ. destruct (Z.eqb_spec irq 10) as [->|H10]; [done|]. destruct (Z.eqb_spec irq 1) as [->|H1]; [done|].
  cbn [orb]. replace (Z.testbit 1026 irq) with false; [done|]. symmetry. change 1026 with (Z.lor (2 ^ 10) (2 ^ 1)). rewrite Z.lor_spec, !Z.pow2_bits_false by lia. done.
Qed.

(** A hart that sees that hart 0 is done, and says that it starts, then runs on
    the same kernel page table and takes its traps at kernelvec. *)
Theorem main_hart_spec hart w w1 : printf (bytes "hart %d starting" ++ nl) [AInt hart] w = Ok tt w1 -> exists w',
  main_hart true hart w = Ok tt w' /\ c_satp (k_csr (w_k w')) = MAKE_SATP (k_kpgtbl (w_k w1)) /\
  c_stvec (k_csr (w_k w')) = sy_kernelvec (k_syms (w_k w1)) /\ (w_k w') <| k_csr := k_csr (w_k w1) |> = w_k w1.
Proof. intros E. unfold main_hart. cbn [negb]. run E. eexists. split; [reflexivity|]. by destruct w1 as [[] ?]. Qed.
