(* ===== verification/Riscv.v ===== *)
(** One RISC-V hart, kernel/riscv.h and kernel/start.c.

    [core] is what the instructions of the kernel read and write: the integer
    registers, the control and status registers (by their number in the
    privileged specification), memory, the privilege mode and the program
    counter.  Loads and stores go through the page table in satp, below machine
    mode.  [x_deleg] are the interrupts this hart lets machine mode delegate;
    the device registers of the CLINT are words of the memory. *)

From S2P Require Import Prelude Layout Kernel Vm PageTable.

Inductive mode : Type := ModeU | ModeS | ModeM.

#[export] Instance mode_eq_dec : EqDecision mode.
Proof. solve_decision. Defined.

Record core : Type := mkCore {
  x_reg : nat -> Z;
  x_csr : Z -> Z;
  x_mem : mem;
  x_mode : mode;
  x_pc : Z;
  x_deleg : Z;
}.

#[export] Instance upd_x_reg : Field x_reg := fun g r =>
  mkCore (g (x_reg r)) (x_csr r) (x_mem r) (x_mode r) (x_pc r) (x_deleg r).
#[export] Instance upd_x_csr : Field x_csr := fun g r =>
  mkCore (x_reg r) (g (x_csr r)) (x_mem r) (x_mode r) (x_pc r) (x_deleg r).
#[export] Instance upd_x_mem : Field x_mem := fun g r =>
  mkCore (x_reg r) (x_csr r) (g (x_mem r)) (x_mode r) (x_pc r) (x_deleg r).
#[export] Instance upd_x_mode : Field x_mode := fun g r =>
  mkCore (x_reg r) (x_csr r) (x_mem r) (g (x_mode r)) (x_pc r) (x_deleg r).
#[export] Instance upd_x_pc : Field x_pc := fun g r =>
  mkCore (x_reg r) (x_csr r) (x_mem r) (x_mode r) (g (x_pc r)) (x_deleg r).

Definition X (A : Type) : Type := M core A.

(** Register numbers, by their names in the calling convention. *)
Module Reg.
Definition zero : nat := 0.
Definition ra : nat := 1.
Definition sp : nat := 2.
Definition gp : nat := 3.
Definition tp : nat := 4.
Definition t0 : nat := 5.
Definition t1 : nat := 6.
Definition t2 : nat := 7.
Definition s0 : nat := 8.
Definition s1 : nat := 9.
Definition a0 : nat := 10.
Definition a1 : nat := 11.
Definition a2 : nat := 12.
Definition a3 : nat := 13.
Definition a4 : nat := 14.
Definition a5 : nat := 15.
Definition a6 : nat := 16.
Definition a7 : nat := 17.
Definition s2 : nat := 18.
Definition s3 : nat := 19.
Definition s4 : nat := 20.
Definition s5 : nat := 21.
Definition s6 : nat := 22.
Definition s7 : nat := 23.
Definition s8 : nat := 24.
Definition s9 : nat := 25.
Definition s10 : nat := 26.
Definition s11 : nat := 27.
Definition t3 : nat := 28.
Definition t4 : nat := 29.
Definition t5 : nat := 30.
Definition t6 : nat := 31.
End Reg.

Module Csr.
Definition sstatus : Z := 0x100.
Definition sie : Z := 0x104.
Definition stvec : Z := 0x105.
Definition sscratch : Z := 0x140.
Definition sepc : Z := 0x141.
Definition scause : Z := 0x142.
Definition stval : Z := 0x143.
Definition sip : Z := 0x144.
Definition satp : Z := 0x180.
Definition mstatus : Z := 0x300.
Definition medeleg : Z := 0x302.
Definition mideleg : Z := 0x303.
Definition mie : Z := 0x304.
Definition mtvec : Z := 0x305.
Definition mcounteren : Z := 0x306.
Definition mscratch : Z := 0x340.
Definition mepc : Z := 0x341.
Definition mcause : Z := 0x342.
Definition mtval : Z := 0x343.
Definition mip : Z := 0x344.
Definition pmpcfg0 : Z := 0x3a0.
Definition pmpaddr0 : Z := 0x3b0.
Definition time : Z := 0xc01.
Definition mhartid : Z := 0xf14.
End Csr.

(** ** kernel/memlayout.h: the CLINT *)

Definition CLINT : Z := 0x2000000.
Definition CLINT_MTIMECMP (hartid : Z) : Z := CLINT + 0x4000 + 8 * hartid.
Definition CLINT_MTIME : Z := CLINT + 0xBFF8.

(** ** Registers *)

Definition reg_of (h : core) (r : nat) : Z := if (r =? 0)%nat then 0 else x_reg h r.
Definition getr (r : nat) : X Z := fun h => Ok (reg_of h r) h.
Definition setr (r : nat) (v : Z) : X unit := fun h => Ok tt (h <| x_reg ::= fun f => fset f r v |>).

(** The bits of [x] selected by [mask], over those of [old]. *)
Definition under (mask old x : Z) : Z := Z.lor (Z.ldiff old mask) (Z.land x mask).

(** The fields of mstatus that sstatus shows: SD, UXL, MXR, SUM, XS, FS, VS,
    SPP, UBE, SPIE and SIE. *)
Definition SSTATUS_MASK : Z := 0x80000003000DE762.

(** sstatus, sie and sip are views of machine-mode registers; through sip only
    the software interrupt can be set or cleared. *)
Definition csr_read (h : core) (c : Z) : Z :=
  if c =? Csr.sstatus then Z.land (x_csr h Csr.mstatus) SSTATUS_MASK
  else if c =? Csr.sie then Z.land (x_csr h Csr.mie) (x_csr h Csr.mideleg)
  else if c =? Csr.sip then Z.land (x_csr h Csr.mip) (x_csr h Csr.mideleg)
  else if c =? Csr.time then load 8 (x_mem h) CLINT_MTIME
  else x_csr h c.

Definition csr_write (c x : Z) (h : core) : core :=
  let put c v := h <| x_csr ::= fun f => fset f c v |> in
  if c =? Csr.sstatus then put Csr.mstatus (under SSTATUS_MASK (x_csr h Csr.mstatus) x)
  else if c =? Csr.sie then put Csr.mie (under (x_csr h Csr.mideleg) (x_csr h Csr.mie) x)
  else if c =? Csr.sip then put Csr.mip (under (Z.land (x_csr h Csr.mideleg) 2) (x_csr h Csr.mip) x)
  else if c =? Csr.mideleg then put Csr.mideleg (Z.land x (x_deleg h))
  else put c x.

Definition csrr (c : Z) : X Z := fun h => Ok (csr_read h c) h.
Definition csrw (c x : Z) : X unit := fun h => Ok tt (csr_write c x h).

(** ** Memory *)

(** The physical address of [va], for a store if [w]; the modes below machine
    mode use the page table when satp selects one.  The kernel never sets SUM,
    so that supervisor mode does not reach user pages. *)
Definition satp_root (satp : Z) : Z := Z.shiftl (Z.land satp (Z.ones 44)) 12.

Definition leaf_ok (m : mode) (w : bool) (pte : Z) : bool :=
  has pte PTE_V && has pte (if w then PTE_W else PTE_R) && Bool.eqb (has pte PTE_U) (bool_decide (m = ModeU)).

Definition xlat (h : core) (w : bool) (va : Z) : option Z :=
  if bool_decide (x_mode h = ModeM) || (Z.shiftr (x_csr h Csr.satp) 60 =? 0) then Some va
  else if MAXVA <=? va then None
  else
    let pte := pte_of (x_mem h) (satp_root (x_csr h Csr.satp)) va in
    if leaf_ok (x_mode h) w pte then Some (PTE2PA pte + va mod PGSIZE) else None.

(** Aligned double words. *)
Definition ld (va : Z) : X Z := fun h =>
  match xlat h false va with
  | Some pa => if va mod 8 =? 0 then Ok (load 8 (x_mem h) pa) h else Fault h
  | None => Fault h
  end.

Definition sd (va v : Z) : X unit := fun h =>
  match xlat h true va with
  | Some pa => if va mod 8 =? 0 then Ok tt (h <| x_mem ::= fun m => store 8 m pa v |>) else Fault h
  | None => Fault h
  end.

(** ** Traps and returns from traps *)

Definition setb (x n : Z) (b : bool) : Z := if b then Z.setbit x n else Z.clearbit x n.

Definition mode_code (m : mode) : Z := match m with ModeU => 0 | ModeS => 1 | ModeM => 3 end.
Definition mode_of (z : Z) : mode := if z =? 0 then ModeU else if z =? 1 then ModeS else ModeM.

(** MPP is bits 11 and 12 of mstatus. *)
Definition mpp (x : Z) : Z := Z.land (Z.shiftr x 11) 3.
Definition set_mpp (x v : Z) : Z := under (Z.shiftl 3 11) x (Z.shiftl v 11).

(** Bit 1 is SIE, 3 MIE, 5 SPIE, 7 MPIE, 8 SPP, 17 MPRV. *)
Definition mret_status (x : Z) : Z :=
  let x' := set_mpp (setb (setb x 3 (Z.testbit x 7)) 7 true) 0 in
  if mpp x =? 3 then x' else setb x' 17 false.

Definition mret : X unit := fun h =>
  let x := x_csr h Csr.mstatus in
  Ok tt (h <| x_csr ::= fun f => fset f Csr.mstatus (mret_status x) |>
           <| x_mode := mode_of (mpp x) |> <| x_pc := x_csr h Csr.mepc |>).

Definition sret : X unit := fun h =>
  let x := x_csr h Csr.mstatus in
  let x' := setb (setb (setb (setb x 1 (Z.testbit x 5)) 5 true) 8 false) 17 false in
  Ok tt (h <| x_csr ::= fun f => fset f Csr.mstatus x' |>
           <| x_mode := if Z.testbit x 8 then ModeS else ModeU |> <| x_pc := x_csr h Csr.sepc |>).

(** The hart takes a trap to machine or to supervisor mode. *)
Definition trap_m (cause : Z) (h : core) : core :=
  let x := x_csr h Csr.mstatus in
  let x' := set_mpp (setb (setb x 7 (Z.testbit x 3)) 3 false) (mode_code (x_mode h)) in
  h <| x_csr ::= fun f => fset (fset (fset f Csr.mstatus x') Csr.mepc (x_pc h)) Csr.mcause cause |>
    <| x_mode := ModeM |> <| x_pc := x_csr h Csr.mtvec |>.

Definition trap_s (cause : Z) (h : core) : core :=
  let x := x_csr h Csr.mstatus in
  let x' := setb (setb (setb x 5 (Z.testbit x 1)) 1 false) 8 (bool_decide (x_mode h = ModeS)) in
  h <| x_csr ::= fun f => fset (fset (fset f Csr.mstatus x') Csr.sepc (x_pc h)) Csr.scause cause |>
    <| x_mode := ModeS |> <| x_pc := x_csr h Csr.stvec |>.

(** The mode that handles interrupt [i] when the hart takes it now. *)
Definition takes (h : core) (i : Z) : option mode :=
  if Z.testbit (x_csr h Csr.mip) i && Z.testbit (x_csr h Csr.mie) i then
    if Z.testbit (x_csr h Csr.mideleg) i then
      match x_mode h with
      | ModeU => Some ModeS
      | ModeS => if Z.testbit (x_csr h Csr.mstatus) 1 then Some ModeS else None
      | ModeM => None
      end
    else
      match x_mode h with
      | ModeM => if Z.testbit (x_csr h Csr.mstatus) 3 then Some ModeM else None
      | _ => Some ModeM
      end
  else None.

(** ** kernel/riscv.h *)

Definition MSTATUS_MPP_MASK : Z := Z.shiftl 3 11.
Definition MSTATUS_MPP_M : Z := Z.shiftl 3 11.
Definition MSTATUS_MPP_S : Z := Z.shiftl 1 11.
Definition MSTATUS_MPP_U : Z := Z.shiftl 0 11.
Definition MSTATUS_MIE : Z := Z.shiftl 1 3.
Definition SIE_SEIE : Z := Z.shiftl 1 9.
Definition SIE_STIE : Z := Z.shiftl 1 5.
Definition SIE_SSIE : Z := Z.shiftl 1 1.
Definition MIE_MEIE : Z := Z.shiftl 1 11.
Definition MIE_MTIE : Z := Z.shiftl 1 7.
Definition MIE_MSIE : Z := Z.shiftl 1 3.
Definition SSTATUS_SIE : Z := Z.shiftl 1 1.

Definition r_mhartid : X Z := csrr Csr.mhartid.
Definition r_mstatus : X Z := csrr Csr.mstatus.
Definition w_mstatus (x : Z) : X unit := csrw Csr.mstatus x.
Definition w_mepc (x : Z) : X unit := csrw Csr.mepc x.
Definition r_sstatus : X Z := csrr Csr.sstatus.
Definition w_sstatus (x : Z) : X unit := csrw Csr.sstatus x.
Definition r_sip : X Z := csrr Csr.sip.
Definition w_sip (x : Z) : X unit := csrw Csr.sip x.
Definition r_sie : X Z := csrr Csr.sie.
Definition w_sie (x : Z) : X unit := csrw Csr.sie x.
Definition r_mie : X Z := csrr Csr.mie.
Definition w_mie (x : Z) : X unit := csrw Csr.mie x.
Definition w_sepc (x : Z) : X unit := csrw Csr.sepc x.
Definition r_sepc : X Z := csrr Csr.sepc.
Definition r_medeleg : X Z := csrr Csr.medeleg.
Definition w_medeleg (x : Z) : X unit := csrw Csr.medeleg x.
Definition r_mideleg : X Z := csrr Csr.mideleg.
Definition w_mideleg (x : Z) : X unit := csrw Csr.mideleg x.
Definition w_stvec (x : Z) : X unit := csrw Csr.stvec x.
Definition r_stvec : X Z := csrr Csr.stvec.
Definition w_mtvec (x : Z) : X unit := csrw Csr.mtvec x.
Definition w_pmpcfg0 (x : Z) : X unit := csrw Csr.pmpcfg0 x.
Definition w_pmpaddr0 (x : Z) : X unit := csrw Csr.pmpaddr0 x.
Definition w_satp (x : Z) : X unit := csrw Csr.satp x.
Definition r_satp : X Z := csrr Csr.satp.
Definition w_mscratch (x : Z) : X unit := csrw Csr.mscratch x.
Definition r_scause : X Z := csrr Csr.scause.
Definition r_stval : X Z := csrr Csr.stval.
Definition w_mcounteren (x : Z) : X unit := csrw Csr.mcounteren x.
Definition r_mcounteren : X Z := csrr Csr.mcounteren.
Definition r_time : X Z := csrr Csr.time.
Definition r_sp : X Z := getr Reg.sp.
Definition r_tp : X Z := getr Reg.tp.
Definition w_tp (x : Z) : X unit := setr Reg.tp x.
Definition r_ra : X Z := getr Reg.ra.

(** Translations are not cached in the model. *)
Definition sfence_vma : X unit := ret tt.

(** intr_on(), intr_off() and intr_get() on sstatus; Kernel.v keeps the bit
    they are about by itself. *)
Definition sstatus_intr_on : X unit := let* x := r_sstatus in w_sstatus (Z.lor x SSTATUS_SIE).
Definition sstatus_intr_off : X unit := let* x := r_sstatus in w_sstatus (Z.land x (u64 (Z.lnot SSTATUS_SIE))).
Definition sstatus_intr_get : X bool := let* x := r_sstatus in ret (negb (Z.land x SSTATUS_SIE =? 0)).

(** ** kernel/start.c *)

(** Addresses the linker assigns. *)
Record start_syms : Type := mkStartSyms {
  sy_main : Z;
  sy_timervec : Z;
  sy_timer_scratch : Z;
  sy_stack0 : Z;
}.

Definition interval : Z := 1000000.

Definition timerinit (sy : start_syms) : X unit :=
  let* id := r_mhartid in
  let id := i32 id in
  let* t := ld CLINT_MTIME in
  sd (CLINT_MTIMECMP id) (u64 (t + interval)) ;;
  let scratch := sy_timer_scratch sy + 40 * id in
  sd (scratch + 24) (CLINT_MTIMECMP id) ;;
  sd (scratch + 32) interval ;;
  w_mscratch scratch ;;
  w_mtvec (sy_timervec sy) ;;
  let* x := r_mstatus in
  w_mstatus (Z.lor x MSTATUS_MIE) ;;
  let* x := r_mie in
  w_mie (Z.lor x MIE_MTIE).

Definition start (sy : start_syms) : X unit :=
  let* x := r_mstatus in
  let x := Z.land x (u64 (Z.lnot MSTATUS_MPP_MASK)) in
  let x := Z.lor x MSTATUS_MPP_S in
  w_mstatus x ;;
  w_mepc (sy_main sy) ;;
  w_satp 0 ;;
  w_medeleg 0xffff ;;
  w_mideleg 0xffff ;;
  let* x := r_sie in
  w_sie (Z.lor (Z.lor (Z.lor x SIE_SEIE) SIE_STIE) SIE_SSIE) ;;
  w_pmpaddr0 0x3fffffffffffff ;;
  w_pmpcfg0 0xf ;;
  timerinit sy ;;
  let* id := r_mhartid in
  w_tp (u64 (i32 id)) ;;
  mret.
