(* ===== verification/Vectors.v ===== *)
(** The assembly of the kernel: kernel/entry.S, kernel/kernelvec.S,
    kernel/swtch.S and kernel/trampoline.S.

    Each routine is the list of its instructions; a jump is the last one, and
    leaves the program counter at its target.  kernelvec is cut at its call of
    kerneltrap(). *)

From S2P Require Import Prelude Layout Kernel Vm PageTable Riscv.

Inductive instr : Type :=
| Sd (r : nat) (off : Z) (b : nat)
| Ld (r : nat) (off : Z) (b : nat)
| Addi (d s : nat) (imm : Z)
| Add (d s t : nat)
| Mul (d s t : nat)
| Li (d : nat) (imm : Z)
| Csrr (d : nat) (c : Z)
| Csrw (c : Z) (s : nat)
| Csrrw (d : nat) (c : Z) (s : nat)
| SfenceVma
| Jr (s : nat)
| Mret
| Sret.

Definition exec_instr (i : instr) : X unit :=
  match i with
  | Sd r off b => let* a := getr b in let* v := getr r in sd (u64 (a + off)) v
  | Ld r off b => let* a := getr b in let* v := ld (u64 (a + off)) in setr r v
  | Addi d s imm => let* a := getr s in setr d (u64 (a + imm))
  | Add d s t => let* a := getr s in let* b := getr t in setr d (u64 (a + b))
  | Mul d s t => let* a := getr s in let* b := getr t in setr d (u64 (a * b))
  | Li d imm => setr d (u64 imm)
  | Csrr d c => let* v := csrr c in setr d v
  | Csrw c s => let* v := getr s in csrw c v
  | Csrrw d c s => let* v := csrr c in let* x := getr s in csrw c x ;; setr d v
  | SfenceVma => ret tt
  | Jr s => let* a := getr s in fun h => Ok tt (h <| x_pc := a |>)
  | Mret => mret
  | Sret => sret
  end.

Fixpoint exec_all (l : list instr) : X unit :=
  match l with
  | [] => ret tt
  | i :: l => exec_instr i ;; exec_all l
  end.

(** ** swtch.S *)

(** void swtch(struct context *old, struct context *new) *)
Definition swtch_code : list instr := [
  Sd Reg.ra 0 Reg.a0; Sd Reg.sp 8 Reg.a0; Sd Reg.s0 16 Reg.a0; Sd Reg.s1 24 Reg.a0; Sd Reg.s2 32 Reg.a0;
  Sd Reg.s3 40 Reg.a0; Sd Reg.s4 48 Reg.a0; Sd Reg.s5 56 Reg.a0; Sd Reg.s6 64 Reg.a0; Sd Reg.s7 72 Reg.a0;
  Sd Reg.s8 80 Reg.a0; Sd Reg.s9 88 Reg.a0; Sd Reg.s10 96 Reg.a0; Sd Reg.s11 104 Reg.a0; Ld Reg.ra 0 Reg.a1;
  Ld Reg.sp 8 Reg.a1; Ld Reg.s0 16 Reg.a1; Ld Reg.s1 24 Reg.a1; Ld Reg.s2 32 Reg.a1; Ld Reg.s3 40 Reg.a1;
  Ld Reg.s4 48 Reg.a1; Ld Reg.s5 56 Reg.a1; Ld Reg.s6 64 Reg.a1; Ld Reg.s7 72 Reg.a1; Ld Reg.s8 80 Reg.a1;
  Ld Reg.s9 88 Reg.a1; Ld Reg.s10 96 Reg.a1; Ld Reg.s11 104 Reg.a1; Jr Reg.ra
].

(** ** trampoline.S *)

(** traps from user space start here *)
Definition uservec_code : list instr := [
  Csrw Csr.sscratch Reg.a0; Li Reg.a0 TRAPFRAME; Sd Reg.ra 40 Reg.a0; Sd Reg.sp 48 Reg.a0;
  Sd Reg.gp 56 Reg.a0; Sd Reg.tp 64 Reg.a0; Sd Reg.t0 72 Reg.a0; Sd Reg.t1 80 Reg.a0; Sd Reg.t2 88 Reg.a0;
  Sd Reg.s0 96 Reg.a0; Sd Reg.s1 104 Reg.a0; Sd Reg.a1 120 Reg.a0; Sd Reg.a2 128 Reg.a0; Sd Reg.a3 136 Reg.a0;
  Sd Reg.a4 144 Reg.a0; Sd Reg.a5 152 Reg.a0; Sd Reg.a6 160 Reg.a0; Sd Reg.a7 168 Reg.a0;
  Sd Reg.s2 176 Reg.a0; Sd Reg.s3 184 Reg.a0; Sd Reg.s4 192 Reg.a0; Sd Reg.s5 200 Reg.a0;
  Sd Reg.s6 208 Reg.a0; Sd Reg.s7 216 Reg.a0; Sd Reg.s8 224 Reg.a0; Sd Reg.s9 232 Reg.a0;
  Sd Reg.s10 240 Reg.a0; Sd Reg.s11 248 Reg.a0; Sd Reg.t3 256 Reg.a0; Sd Reg.t4 264 Reg.a0;
  Sd Reg.t5 272 Reg.a0; Sd Reg.t6 280 Reg.a0; Csrr Reg.t0 Csr.sscratch; Sd Reg.t0 112 Reg.a0;
  Ld Reg.sp 8 Reg.a0; Ld Reg.tp 32 Reg.a0; Ld Reg.t0 16 Reg.a0; Ld Reg.t1 0 Reg.a0; SfenceVma;
  Csrw Csr.satp Reg.t1; SfenceVma; Jr Reg.t0
].

(** userret(pagetable), called by usertrapret() *)
Definition userret_code : list instr := [
  SfenceVma; Csrw Csr.satp Reg.a0; SfenceVma; Li Reg.a0 TRAPFRAME; Ld Reg.ra 40 Reg.a0; Ld Reg.sp 48 Reg.a0;
  Ld Reg.gp 56 Reg.a0; Ld Reg.tp 64 Reg.a0; Ld Reg.t0 72 Reg.a0; Ld Reg.t1 80 Reg.a0; Ld Reg.t2 88 Reg.a0;
  Ld Reg.s0 96 Reg.a0; Ld Reg.s1 104 Reg.a0; Ld Reg.a1 120 Reg.a0; Ld Reg.a2 128 Reg.a0; Ld Reg.a3 136 Reg.a0;
  Ld Reg.a4 144 Reg.a0; Ld Reg.a5 152 Reg.a0; Ld Reg.a6 160 Reg.a0; Ld Reg.a7 168 Reg.a0;
  Ld Reg.s2 176 Reg.a0; Ld Reg.s3 184 Reg.a0; Ld Reg.s4 192 Reg.a0; Ld Reg.s5 200 Reg.a0;
  Ld Reg.s6 208 Reg.a0; Ld Reg.s7 216 Reg.a0; Ld Reg.s8 224 Reg.a0; Ld Reg.s9 232 Reg.a0;
  Ld Reg.s10 240 Reg.a0; Ld Reg.s11 248 Reg.a0; Ld Reg.t3 256 Reg.a0; Ld Reg.t4 264 Reg.a0;
  Ld Reg.t5 272 Reg.a0; Ld Reg.t6 280 Reg.a0; Ld Reg.a0 112 Reg.a0; Sret
].

(** ** kernelvec.S *)

(** interrupts in supervisor mode start here *)
Definition kernelvec_push : list instr := [
  Addi Reg.sp Reg.sp (-256); Sd Reg.ra 0 Reg.sp; Sd Reg.sp 8 Reg.sp; Sd Reg.gp 16 Reg.sp; Sd Reg.tp 24 Reg.sp;
  Sd Reg.t0 32 Reg.sp; Sd Reg.t1 40 Reg.sp; Sd Reg.t2 48 Reg.sp; Sd Reg.s0 56 Reg.sp; Sd Reg.s1 64 Reg.sp;
  Sd Reg.a0 72 Reg.sp; Sd Reg.a1 80 Reg.sp; Sd Reg.a2 88 Reg.sp; Sd Reg.a3 96 Reg.sp; Sd Reg.a4 104 Reg.sp;
  Sd Reg.a5 112 Reg.sp; Sd Reg.a6 120 Reg.sp; Sd Reg.a7 128 Reg.sp; Sd Reg.s2 136 Reg.sp;
  Sd Reg.s3 144 Reg.sp; Sd Reg.s4 152 Reg.sp; Sd Reg.s5 160 Reg.sp; Sd Reg.s6 168 Reg.sp;
  Sd Reg.s7 176 Reg.sp; Sd Reg.s8 184 Reg.sp; Sd Reg.s9 192 Reg.sp; Sd Reg.s10 200 Reg.sp;
  Sd Reg.s11 208 Reg.sp; Sd Reg.t3 216 Reg.sp; Sd Reg.t4 224 Reg.sp; Sd Reg.t5 232 Reg.sp;
  Sd Reg.t6 240 Reg.sp
].

(** after the return of kerneltrap() *)
Definition kernelvec_pop : list instr := [
  Ld Reg.ra 0 Reg.sp; Ld Reg.sp 8 Reg.sp; Ld Reg.gp 16 Reg.sp; Ld Reg.t0 32 Reg.sp; Ld Reg.t1 40 Reg.sp;
  Ld Reg.t2 48 Reg.sp; Ld Reg.s0 56 Reg.sp; Ld Reg.s1 64 Reg.sp; Ld Reg.a0 72 Reg.sp; Ld Reg.a1 80 Reg.sp;
  Ld Reg.a2 88 Reg.sp; Ld Reg.a3 96 Reg.sp; Ld Reg.a4 104 Reg.sp; Ld Reg.a5 112 Reg.sp; Ld Reg.a6 120 Reg.sp;
  Ld Reg.a7 128 Reg.sp; Ld Reg.s2 136 Reg.sp; Ld Reg.s3 144 Reg.sp; Ld Reg.s4 152 Reg.sp;
  Ld Reg.s5 160 Reg.sp; Ld Reg.s6 168 Reg.sp; Ld Reg.s7 176 Reg.sp; Ld Reg.s8 184 Reg.sp;
  Ld Reg.s9 192 Reg.sp; Ld Reg.s10 200 Reg.sp; Ld Reg.s11 208 Reg.sp; Ld Reg.t3 216 Reg.sp;
  Ld Reg.t4 224 Reg.sp; Ld Reg.t5 232 Reg.sp; Ld Reg.t6 240 Reg.sp; Addi Reg.sp Reg.sp 256; Sret
].

(** [handler] is the call of kerneltrap(). *)
Definition kernelvec (handler : X unit) : X unit := exec_all kernelvec_push ;; handler ;; exec_all kernelvec_pop.

(** the machine-mode timer interrupt *)
Definition timervec_code : list instr := [
  Csrrw Reg.a0 Csr.mscratch Reg.a0; Sd Reg.a1 0 Reg.a0; Sd Reg.a2 8 Reg.a0; Sd Reg.a3 16 Reg.a0;
  Ld Reg.a1 24 Reg.a0; Ld Reg.a2 32 Reg.a0; Ld Reg.a3 0 Reg.a1; Add Reg.a3 Reg.a3 Reg.a2; Sd Reg.a3 0 Reg.a1;
  Li Reg.a1 2; Csrw Csr.sip Reg.a1; Ld Reg.a3 16 Reg.a0; Ld Reg.a2 8 Reg.a0; Ld Reg.a1 0 Reg.a0;
  Csrrw Reg.a0 Csr.mscratch Reg.a0; Mret
].

(** ** entry.S *)

(** [la sp, stack0] is a load of the address of the symbol. *)
Definition entry_code (sy : start_syms) : list instr := [
  Li Reg.sp (sy_stack0 sy); Li Reg.a0 (1024 * 4); Csrr Reg.a1 Csr.mhartid; Addi Reg.a1 Reg.a1 1;
  Mul Reg.a0 Reg.a0 Reg.a1; Add Reg.sp Reg.sp Reg.a0
].

Definition _entry (sy : start_syms) : X unit := exec_all (entry_code sy) ;; start sy.
