(* ===== verification/VectorsSpec.v ===== *)
(** Registers are saved and restored: the assembly of the kernel. *)

From S2P Require Import Prelude Layout Strings Kernel Kalloc Vm PageTable Riscv Vectors.

(** ** Register files *)

Lemma reg_of_pos h r : (0 < r)%nat -> reg_of h r = x_reg h r.
Proof. intros H. unfold reg_of. destruct r; [lia|done]. Qed.

Lemma testbit_setb x n b i : 0 <= n -> Z.testbit (setb x n b) i = if decide (i = n) then b else Z.testbit x i.
Proof.
  intros Hn. unfold setb. destruct (decide (i = n)) as [->|Hne]; destruct b;
    [by apply Z.setbit_eq|by apply Z.clearbit_eq|by apply Z.setbit_neq|by apply Z.clearbit_neq].
Qed.

(** ** Words of memory *)

(** [h'] is [h] but for the registers and the memory at [W]. *)
Definition near (W : Z -> Prop) (h h' : core) : Prop :=
  x_csr h' = x_csr h /\ x_mode h' = x_mode h /\ forall a, ~ W a -> x_mem h' a = x_mem h a.

Definition within (pa n : Z) (a : Z) : Prop := pa <= a < pa + n.

(** The words of [va, va + n) are those at [pa], also when the memory at [W],
    to which they belong, is written. *)
Record area (W : Z -> Prop) (h : core) (va pa n : Z) : Prop := {
  ar_maps h' o w : near W h h' -> 0 <= o -> o + 8 <= n -> xlat h' w (va + o) = Some (pa + o);
  ar_in a : within pa n a -> W a;
  ar_va : 0 <= va /\ va + n < 2 ^ 64;
  ar_align : va mod 8 = 0;
}.

Lemma near_refl W h : near W h h.
Proof. split_and!; auto. Qed.

Lemma near_trans W h1 h2 h3 : near W h1 h2 -> near W h2 h3 -> near W h1 h3.
Proof. intros (A1 & B1 & C1) (A2 & B2 & C2). split_and!; [congruence..|]. intros a Ha. by rewrite C2, C1. Qed.

Lemma area_near W h h' va pa n : area W h va pa n -> near W h h' -> area W h' va pa n.
Proof. intros [M I V A] N. split; try done. intros h2 o w N2. apply M. by eapply near_trans. Qed.

Lemma near_store W pa n h o v : (forall a, within pa n a -> W a) -> 0 <= o -> o + 8 <= n ->
  near W h (h <| x_mem ::= fun m => store 8 m (pa + o) v |>).
Proof. intros HW H0 H1. split_and!; [done..|]. intros a Ha. cbn. apply store_out. assert (~ within pa n a) by auto. unfold within in *. lia. Qed.

(** Without translation. *)
Lemma area_bare W h va n : x_mode h = ModeM -> (forall a, within va n a -> W a) -> 0 <= va -> va + n < 2 ^ 64 -> va mod 8 = 0 -> area W h va va n.
Proof. intros Hm HW H0 H1 H8. split; auto. intros h' o w (_ & E & _) _ _. unfold xlat. by rewrite E, Hm. Qed.

(** An offset of a word in an area of [n] bytes. *)
Definition word_at (n o : Z) : Prop := 0 <= o /\ o + 8 <= n /\ o mod 8 = 0.

#[export] Instance word_at_dec n o : Decision (word_at n o).
Proof. unfold word_at. apply _. Defined.

Lemma word_mod va n o : va mod 8 = 0 -> word_at n o -> (va + o) mod 8 =? 0 = true.
Proof. intros H (_ & _ & E). rewrite Z.add_mod, H, E by lia. done. Qed.

Lemma ld_ok W h va pa n o : area W h va pa n -> word_at n o -> ld (u64 (va + o)) h = Ok (load 8 (x_mem h) (pa + o)) h.
Proof.
  intros [M I V A] Ho. pose proof Ho as (H0 & H1 & _). rewrite u64_small by lia. unfold ld.
  by rewrite (M h o false (near_refl _ _) H0 H1), (word_mod va n o).
Qed.

Lemma sd_ok W h va pa n o v : area W h va pa n -> word_at n o ->
  sd (u64 (va + o)) v h = Ok tt (h <| x_mem ::= fun m => store 8 m (pa + o) v |>).
Proof.
  intros [M I V A] Ho. pose proof Ho as (H0 & H1 & _). rewrite u64_small by lia. unfold sd.
  by rewrite (M h o true (near_refl _ _) H0 H1), (word_mod va n o).
Qed.

(** ** Saving registers *)

Definition saves (b : nat) (l : list (nat * Z)) : list instr := (fun x => Sd x.1 x.2 b) <$> l.
Definition loads (b : nat) (l : list (nat * Z)) : list instr := (fun x => Ld x.1 x.2 b) <$> l.

Definition store_regs (pa : Z) (f : nat -> Z) (l : list (nat * Z)) (m : mem) : mem :=
  fold_left (fun m x => store 8 m (pa + x.2) (f x.1)) l m.

Definition load_regs (m : mem) (pa : Z) (l : list (nat * Z)) (f : nat -> Z) : nat -> Z :=
  fold_left (fun f x => fset f x.1 (load 8 m (pa + x.2))) l f.

Lemma exec_app l k h : exec_all (l ++ k) h = bind (exec_all l) (fun _ => exec_all k) h.
Proof. revert h. induction l as [|i l IH]; intros h; cbn; [done|]. rewrite bind_assoc. unfold bind. destruct (exec_instr i h); auto. Qed.

Lemma saves_ok b l k : forall W h va pa n, area W h va pa n -> reg_of h b = va -> Forall (fun x => word_at n x.2) l ->
  exec_all (saves b l ++ k) h = exec_all k (h <| x_mem ::= store_regs pa (reg_of h) l |>).
Proof.
  induction l as [|[r o] l IH]; intros W h va pa n A Hb Hl; [by destruct h|].
  apply Forall_cons in Hl as [Ho Hl]. cbn [saves fmap list_fmap app exec_all exec_instr fst snd].
  unfold getr at 1. rewrite bind_assoc. cbn [bind]. rewrite Hb. unfold bind at 1. unfold getr, bind.
  rewrite (sd_ok _ _ _ _ _ _ _ A Ho). change ((fun x : nat * Z => Sd x.1 x.2 b) <$> l) with (saves b l).
  rewrite (IH W _ va pa n); [done| |done|done]. eapply area_near; [done|]. destruct Ho as (? & ? & ?). eapply near_store; [apply A|done..].
Qed.

Lemma loads_ok b l k : forall W h va pa n, area W h va pa n -> reg_of h b = va -> b ∉ l.*1 -> Forall (fun x => word_at n x.2) l ->
  exec_all (loads b l ++ k) h = exec_all k (h <| x_reg ::= load_regs (x_mem h) pa l |>).
Proof.
  induction l as [|[r o] l IH]; intros W h va pa n A Hb Hn Hl; [by destruct h|].
  apply Forall_cons in Hl as [Ho Hl]. cbn [loads fmap list_fmap app exec_all exec_instr fst snd] in *.
  apply not_elem_of_cons in Hn as [Hr Hn].
  unfold getr. rewrite bind_assoc. unfold bind at 1. rewrite Hb. rewrite bind_assoc. unfold bind at 1. rewrite (ld_ok _ _ _ _ _ _ A Ho).
  unfold setr, bind. change ((fun x : nat * Z => Ld x.1 x.2 b) <$> l) with (loads b l). rewrite (IH W _ va pa n); [done| | |done|done].
  - eapply area_near; [done|]. by split_and!.
  - unfold reg_of in *. cbn. destruct b; [done|]. by rewrite fset_ne.
Qed.

Lemma store_regs_out pa f l lo hi : forall m a, Forall (fun x => lo <= x.2 /\ x.2 + 8 <= hi) l ->
  a < pa + lo \/ pa + hi <= a -> store_regs pa f l m a = m a.
Proof.
  induction l as [|[r o] l IH]; intros m a Hl Ha; [done|]. apply Forall_cons in Hl as [[H0 H1] Hl].
  cbn [store_regs fold_left fst snd] in *. unfold store_regs in IH. rewrite IH by done. apply store_out. lia.
Qed.

(** Words at different offsets do not overlap. *)
Lemma word_disjoint n o o' : word_at n o -> word_at n o' -> o <> o' -> o + 8 <= o' \/ o' + 8 <= o.
Proof. unfold word_at. intros (? & ? & A) (? & ? & B) Hne. apply Z.mod_divide in A as [x ->], B as [y ->]; [|lia..]. lia. Qed.

Lemma store_regs_load pa f l n o : forall m, Forall (fun x => word_at n x.2) l -> word_at n o -> o ∉ l.*2 ->
  load 8 (store_regs pa f l m) (pa + o) = load 8 m (pa + o).
Proof.
  induction l as [|[r o'] l IH]; intros m Hl Ho Hn; [done|]. apply Forall_cons in Hl as [Ho' Hl].
  cbn [store_regs fold_left fst snd fmap list_fmap] in *. unfold store_regs in IH. apply not_elem_of_cons in Hn as [Hne Hn].
  rewrite IH by done. apply load_store_disjoint. pose proof (word_disjoint n o o' Ho Ho' Hne). lia.
Qed.

Lemma store_regs_in pa f l n r o : Forall (fun x => word_at n x.2) l -> NoDup l.*2 -> (r, o) ∈ l ->
  forall m, load 8 (store_regs pa f l m) (pa + o) = f r mod 2 ^ 64.
Proof.
  induction l as [|[r' o'] l IH]; intros Hl Hd Hin m; [by apply not_elem_of_nil in Hin|].
  apply Forall_cons in Hl as [Ho Hl]. apply NoDup_cons in Hd as [Hnot Hd]. cbn [store_regs fold_left fst snd] in *. unfold store_regs in IH.
  apply elem_of_cons in Hin as [[= -> ->]|Hin]; [|by apply IH].
  pose proof (store_regs_load pa f l n o' (store 8 m (pa + o') (f r')) Hl Ho Hnot) as E. unfold store_regs in E. rewrite E.
  by rewrite load_store_same.
Qed.

Lemma load_regs_out m pa l r : forall f, r ∉ l.*1 -> load_regs m pa l f r = f r.
Proof.
  induction l as [|[r' o] l IH]; intros f Hn; [done|]. cbn [load_regs fold_left fst snd fmap list_fmap] in *. unfold load_regs in IH.
  apply not_elem_of_cons in Hn as [Hne Hn]. by rewrite IH, fset_ne.
Qed.

Lemma load_regs_in m pa l r o : NoDup l.*1 -> (r, o) ∈ l -> forall f, load_regs m pa l f r = load 8 m (pa + o).
Proof.
  induction l as [|[r' o'] l IH]; intros Hd Hin f; [by apply not_elem_of_nil in Hin|]. apply NoDup_cons in Hd as [Hnot Hd].
  cbn [load_regs fold_left fst snd] in *. unfold load_regs in IH. apply elem_of_cons in Hin as [[= -> ->]|Hin]; [|by apply IH].
  pose proof (load_regs_out m pa l r' (fset f r' (load 8 m (pa + o'))) Hnot) as E. unfold load_regs in E. by rewrite E, fset_eq.
Qed.

(** ** The trapframe page *)

(** The user page table at [root] maps TRAPFRAME to the page [tf], as
    proc_pagetable() does, and [tf] is not one of its own pages. *)
Record tf_mapped (m : mem) (root tf : Z) : Prop := {
  tm_root : 0 <= root < 2 ^ 56 /\ (PGSIZE | root);
  tm_page : 0 <= tf < 2 ^ 56 /\ (PGSIZE | tf);
  tm_pte : pte_of m root TRAPFRAME = Z.lor (PA2PTE tf) (Z.lor (Z.lor PTE_R PTE_W) PTE_V);
  tm_node k p : (k <= 2)%nat -> node m root k TRAPFRAME = Some p -> p + PGSIZE <= tf \/ tf + PGSIZE <= p;
}.

Lemma satp_root_MAKE root : 0 <= root < 2 ^ 56 -> (PGSIZE | root) ->
  satp_root (MAKE_SATP root) = root /\ Z.shiftr (MAKE_SATP root) 60 = 8.
Proof.
  intros H [k ->]. unfold PGSIZE in *. unfold satp_root, MAKE_SATP. rewrite Z.shiftr_div_pow2 by lia. change (2 ^ 12) with 4096.
  rewrite Z.div_mul by lia. split.
  - rewrite Z.land_lor_distr_l. change (Z.land (Z.shiftl 8 60) (Z.ones 44)) with 0. rewrite Z.lor_0_l, Z.land_ones, Z.mod_small by lia.
    by rewrite Z.shiftl_mul_pow2 by lia.
  - rewrite Z.shiftr_lor. change (Z.shiftr (Z.shiftl 8 60) 60) with 8. rewrite (Z.shiftr_div_pow2 k), Z.div_small by lia. done.
Qed.

Lemma tf_pte m root tf : tf_mapped m root tf -> forall w, leaf_ok ModeS w (pte_of m root TRAPFRAME) = true.
Proof.
  intros [_ [Ht _] E _] w. rewrite E. unfold leaf_ok, has.
  rewrite !land_flags_PA2PTE by first [lia|destruct w; by split; vm_compute|by split; vm_compute]. by destruct w.
Qed.

Lemma tf_mapped_near m m' root tf : tf_mapped m root tf -> (forall a, a < tf \/ tf + PGSIZE <= a -> m' a = m a) -> tf_mapped m' root tf.
Proof.
  intros [R P E N] Hm.
  assert (forall k p, (k <= 2)%nat -> node m root k TRAPFRAME = Some p ->
    load 8 m' (pte_slot p k TRAPFRAME) = load 8 m (pte_slot p k TRAPFRAME)) as Hl.
  { intros k p Hk Hp. apply load_ext. intros x Hx. apply Hm. pose proof (N k p Hk Hp). pose proof (slot_bounds p k TRAPFRAME Hk). lia. }
  assert (forall k, (k <= 2)%nat -> node m' root k TRAPFRAME = node m root k TRAPFRAME) as Hn.
  { intros k Hk. apply node_frame. intros j p Hj. apply Hl. lia. }
  split; [done|done| |].
  - rewrite <- E. unfold pte_of. rewrite Hn by lia. destruct (node m root 2 TRAPFRAME) eqn:Hp; [|done]. by apply Hl.
  - intros k p Hk. rewrite Hn by done. by apply N.
Qed.

Definition TF_SIZE : Z := 288.

Lemma tf_area h root tf : x_mode h = ModeS -> x_csr h Csr.satp = MAKE_SATP root -> tf_mapped (x_mem h) root tf ->
  area (within tf TF_SIZE) h TRAPFRAME tf TF_SIZE.
Proof.
  intros Hm Hs T. split; [|done|by vm_compute|done]. intros h' o w (Ec & Em & Hmem) H0 H1. unfold TF_SIZE in *.
  assert (tf_mapped (x_mem h') root tf) as T'.
  { eapply tf_mapped_near; [done|]. intros a Ha. apply Hmem. unfold within, PGSIZE in *. lia. }
  destruct (satp_root_MAKE root) as [Er E8]; [apply T..|]. pose proof (tf_pte _ _ _ T' w) as L.
  unfold xlat. rewrite Em, Hm, Ec, Hs, E8, Er. cbn [bool_decide orb]. change (bool_decide (ModeS = ModeM)) with false. cbn [orb].
  change TRAPFRAME with 274877898752 in *. change MAXVA with 274877906944. destruct (Z.leb_spec 274877906944 (274877898752 + o)); [lia|].
  assert (pte_of (x_mem h') root (274877898752 + o) = pte_of (x_mem h') root 274877898752) as ->.
  { unfold pte_of. rewrite (node_prefix _ _ 2 _ 274877898752);
      [|lia|unfold prefix; cbn; Z.to_euclidean_division_equations; lia]. unfold pte_slot.
    rewrite !PX_prefix by lia. rewrite !prefix_3. unfold PGSIZE.
    replace ((274877898752 + o) / 4096) with (274877898752 / 4096) by (Z.to_euclidean_division_equations; lia). done. }
  rewrite L. f_equal. pose proof (tm_pte _ _ _ T') as E. change TRAPFRAME with 274877898752 in E. rewrite E, PTE2PA_PA2PTE; [|apply T|apply T|by split; vm_compute].
  unfold PGSIZE. Z.to_euclidean_division_equations. lia.
Qed.

Lemma exec_ld W h va pa n r o b l : area W h va pa n -> word_at n o -> reg_of h b = va ->
  exec_all (Ld r o b :: l) h = exec_all l (h <| x_reg ::= fun f => fset f r (load 8 (x_mem h) (pa + o)) |>).
Proof.
  intros A Ho Hb. cbn [exec_all exec_instr]. unfold getr. rewrite bind_assoc. unfold bind at 1. rewrite Hb, bind_assoc.
  unfold bind at 1. by rewrite (ld_ok _ _ _ _ _ _ A Ho).
Qed.

Lemma exec_sd W h va pa n r o b l : area W h va pa n -> word_at n o -> reg_of h b = va ->
  exec_all (Sd r o b :: l) h = exec_all l (h <| x_mem ::= fun m => store 8 m (pa + o) (reg_of h r) |>).
Proof. intros A Ho Hb. apply (saves_ok b [(r, o)] l W h va pa n A Hb). by apply Forall_singleton. Qed.

(** The registers in struct trapframe; a0 is saved and restored by itself. *)
Definition tf_off (r : nat) : Z := 32 + 8 * Z.of_nat r.
Definition tf_list : list (nat * Z) := (fun r => (r, tf_off r)) <$> (seq 1 9 ++ seq 11 21).

Lemma tf_list_words : Forall (fun x => word_at TF_SIZE x.2) tf_list.
Proof. by apply (bool_decide_unpack _); vm_compute. Qed.

Lemma tf_list_range : Forall (fun x : nat * Z => 40 <= x.2 /\ x.2 + 8 <= TF_SIZE) tf_list.
Proof. by apply (bool_decide_unpack _); vm_compute. Qed.

Lemma tf_list_nodup : NoDup tf_list.*1 /\ NoDup tf_list.*2.
Proof. split; by apply (bool_decide_unpack _); vm_compute. Qed.

Lemma tf_list_elem r : (1 <= r <= 31)%nat -> r <> Reg.a0 -> (r, tf_off r) ∈ tf_list.
Proof. intros H Hne. apply (list_elem_of_fmap_2 (fun r => (r, tf_off r))). apply elem_of_app. rewrite !elem_of_seq. unfold Reg.a0 in Hne. lia. Qed.

Lemma tf_list_a0 : Reg.a0 ∉ tf_list.*1 /\ 112 ∉ tf_list.*2.
Proof. split; by apply (bool_decide_unpack _); vm_compute. Qed.

(** The routines as tables. *)
Lemma uservec_table : uservec_code = [Csrw Csr.sscratch Reg.a0; Li Reg.a0 TRAPFRAME] ++ saves Reg.a0 tf_list ++
  [Csrr Reg.t0 Csr.sscratch; Sd Reg.t0 112 Reg.a0] ++ loads Reg.a0 [(Reg.sp, 8); (Reg.tp, 32); (Reg.t0, 16); (Reg.t1, 0)] ++
  [SfenceVma; Csrw Csr.satp Reg.t1; SfenceVma; Jr Reg.t0].
Proof. vm_compute. reflexivity. Qed.

Lemma userret_table : userret_code = [SfenceVma; Csrw Csr.satp Reg.a0; SfenceVma; Li Reg.a0 TRAPFRAME] ++ loads Reg.a0 tf_list ++
  [Ld Reg.a0 112 Reg.a0; Sret].
Proof. vm_compute. reflexivity. Qed.

(** The first part of uservec: the registers of the user are in the trapframe. *)
Lemma uservec_save h root tf k : x_mode h = ModeS -> x_csr h Csr.satp = MAKE_SATP root -> tf_mapped (x_mem h) root tf ->
  (forall r, 0 <= x_reg h r < 2 ^ 64) ->
  exists h', exec_all ([Csrw Csr.sscratch Reg.a0; Li Reg.a0 TRAPFRAME] ++ saves Reg.a0 tf_list ++
                       [Csrr Reg.t0 Csr.sscratch; Sd Reg.t0 112 Reg.a0] ++ k) h = exec_all k h' /\
    area (within tf TF_SIZE) h' TRAPFRAME tf TF_SIZE /\ reg_of h' Reg.a0 = TRAPFRAME /\
    (forall r, (1 <= r <= 31)%nat -> load 8 (x_mem h') (tf + tf_off r) = x_reg h r) /\
    (forall a, a < tf + 40 \/ tf + TF_SIZE <= a -> x_mem h' a = x_mem h a) /\
    x_mode h' = ModeS /\ (forall c, c <> Csr.sscratch -> x_csr h' c = x_csr h c).
Proof.
  intros Hm Hs T Hr.
  pose (h1 := h <| x_csr ::= fun f => fset f Csr.sscratch (x_reg h Reg.a0) |> <| x_reg ::= fun f => fset f Reg.a0 TRAPFRAME |>).
  assert (area (within tf TF_SIZE) h1 TRAPFRAME tf TF_SIZE) as A1 by (apply (tf_area _ root); [done|exact Hs|exact T]).
  set (m2 := store_regs tf (reg_of h1) tf_list (x_mem h1)).
  pose (h2 := h1 <| x_mem := m2 |> <| x_reg ::= fun f => fset f Reg.t0 (x_reg h Reg.a0) |>).
  pose (h3 := h2 <| x_mem ::= fun m => store 8 m (tf + 112) (x_reg h Reg.a0) |>).
  assert (forall a, a < tf + 40 \/ tf + TF_SIZE <= a -> m2 a = x_mem h a) as Hout.
  { intros a Ha. exact (store_regs_out _ _ _ 40 TF_SIZE _ _ tf_list_range Ha). }
  assert (near (within tf TF_SIZE) h1 h2) as N2 by (split_and!; [done..|]; intros a Ha; apply Hout; unfold within in Ha; lia).
  pose proof (area_near _ _ _ _ _ _ A1 N2) as A2.
  assert (word_at TF_SIZE 112) as W by (by apply (bool_decide_unpack _); vm_compute).
  exists h3. split_and!; [| |done| | |done|].
  - change (exec_all (saves Reg.a0 tf_list ++ [Csrr Reg.t0 Csr.sscratch; Sd Reg.t0 112 Reg.a0] ++ k) h1 = exec_all k h3).
    rewrite (saves_ok Reg.a0 tf_list _ _ h1 _ _ _ A1 eq_refl tf_list_words).
    change (exec_all (Sd Reg.t0 112 Reg.a0 :: k) h2 = exec_all k h3). exact (exec_sd _ h2 _ _ _ Reg.t0 112 Reg.a0 k A2 W eq_refl).
  - eapply area_near; [exact A2|by eapply near_store].
  - intros r Hrr. cbn [h3 h2 x_mem upd upd_x_mem upd_x_reg]. destruct (decide (r = Reg.a0)) as [->|Hne].
    + change (tf_off Reg.a0) with 112. rewrite load_store_same. by rewrite Z.mod_small.
    + pose proof (tf_list_elem r Hrr Hne) as Hin. pose proof (proj1 (Forall_forall _ _) tf_list_words _ Hin) as Hw.
      rewrite load_store_disjoint.
      * unfold m2. rewrite (store_regs_in _ _ _ _ _ _ tf_list_words (proj2 tf_list_nodup) Hin).
        rewrite reg_of_pos by lia. cbn. rewrite fset_ne by done. by rewrite Z.mod_small.
      * assert (tf_off r <> 112) as Hd by (unfold tf_off, Reg.a0 in *; lia). pose proof (word_disjoint _ _ _ Hw W Hd). cbn in *. lia.
  - intros a Ha. cbn. rewrite store_out by (unfold TF_SIZE in Ha; lia). by apply Hout.
  - intros c Hc. cbn. by apply fset_ne.
Qed.

(** uservec saves the registers of the user in the trapframe and enters the
    kernel with the stack, the hart id and the page table it finds there. *)
Lemma uservec_ok h root tf : x_mode h = ModeS -> x_csr h Csr.satp = MAKE_SATP root -> tf_mapped (x_mem h) root tf ->
  (forall r, 0 <= x_reg h r < 2 ^ 64) ->
  exists h', exec_all uservec_code h = Ok tt h' /\
    (forall r, (1 <= r <= 31)%nat -> load 8 (x_mem h') (tf + tf_off r) = x_reg h r) /\
    (forall a, a < tf + 40 \/ tf + TF_SIZE <= a -> x_mem h' a = x_mem h a) /\
    x_reg h' Reg.sp = load 8 (x_mem h) (tf + 8) /\ x_reg h' Reg.tp = load 8 (x_mem h) (tf + 32) /\
    x_pc h' = load 8 (x_mem h) (tf + 16) /\ x_csr h' Csr.satp = load 8 (x_mem h) (tf + 0) /\
    x_mode h' = ModeS /\ (forall c, c <> Csr.satp -> c <> Csr.sscratch -> x_csr h' c = x_csr h c).
Proof.
  intros Hm Hs T Hr.
  pose (k := [SfenceVma; Csrw Csr.satp Reg.t1; SfenceVma; Jr Reg.t0]).
  pose (l := [(Reg.sp, 8); (Reg.tp, 32); (Reg.t0, 16); (Reg.t1, 0)]).
  destruct (uservec_save h root tf (loads Reg.a0 l ++ k) Hm Hs T Hr) as (h1 & E1 & A1 & Ha0 & Hregs & Hmem & Hmode & Hcsr).
  rewrite uservec_table. fold l k. rewrite E1.
  rewrite (loads_ok Reg.a0 l k _ h1 _ _ _ A1 Ha0); [|by apply (bool_decide_unpack _); vm_compute..].
  assert (forall o, 0 <= o <= 32 -> load 8 (x_mem h1) (tf + o) = load 8 (x_mem h) (tf + o)) as Hl.
  { intros o Ho. apply load_ext. intros x Hx. apply Hmem. lia. }
  eexists. split; [reflexivity|]. cbn -[load Z.add]. rewrite !Hl by lia. split_and!; try done.
  intros c Hc Hc'. rewrite fset_ne by done. by apply Hcsr.
Qed.

(** userret restores all the registers from the trapframe. *)
Lemma userret_ok h root tf : x_mode h = ModeS -> x_reg h Reg.a0 = MAKE_SATP root -> tf_mapped (x_mem h) root tf ->
  exists h', exec_all userret_code h = Ok tt h' /\
    (forall r, (1 <= r <= 31)%nat -> x_reg h' r = load 8 (x_mem h) (tf + tf_off r)) /\
    x_mem h' = x_mem h /\ x_csr h' Csr.satp = MAKE_SATP root /\
    x_mode h' = (if Z.testbit (x_csr h Csr.mstatus) 8 then ModeS else ModeU) /\ x_pc h' = x_csr h Csr.sepc /\
    Z.testbit (x_csr h' Csr.mstatus) 1 = Z.testbit (x_csr h Csr.mstatus) 5 /\
    (forall c, c <> Csr.satp -> c <> Csr.mstatus -> x_csr h' c = x_csr h c).
Proof.
  intros Hm Ha0 T.
  pose (h1 := h <| x_csr ::= fun f => fset f Csr.satp (x_reg h Reg.a0) |> <| x_reg ::= fun f => fset f Reg.a0 TRAPFRAME |>).
  assert (area (within tf TF_SIZE) h1 TRAPFRAME tf TF_SIZE) as A1 by (apply (tf_area _ root); [done|exact Ha0|exact T]).
  rewrite userret_table. change (exec_all ([SfenceVma; Csrw _ _; SfenceVma; Li _ _] ++ ?l) h) with (exec_all l h1).
  rewrite (loads_ok Reg.a0 tf_list _ _ h1 _ _ _ A1 eq_refl (proj1 tf_list_a0) tf_list_words). set (h2 := h1 <| x_reg ::= _ |>).
  assert (area (within tf TF_SIZE) h2 TRAPFRAME tf TF_SIZE) as A2 by (eapply area_near; [exact A1|by split_and!]).
  rewrite (exec_ld (within tf TF_SIZE) h2 TRAPFRAME tf TF_SIZE); [|done|by apply (bool_decide_unpack _); vm_compute|].
  2: { rewrite reg_of_pos by (unfold Reg.a0; lia). unfold h2. cbn -[load_regs]. by rewrite load_regs_out by apply tf_list_a0. }
  eexists. split; [reflexivity|]. cbn -[load load_regs tf_off Z.testbit setb]. split_and!; try done.
  - intros r Hr. destruct (decide (r = Reg.a0)) as [->|Hne]; [by rewrite fset_eq|]. rewrite fset_ne by done.
    by rewrite (load_regs_in _ _ _ _ _ (proj1 tf_list_nodup) (tf_list_elem r Hr Hne)).
  - by rewrite fset_eq, !testbit_setb, fset_ne by (done || lia).
  - intros c H1 H2. by rewrite !fset_ne.
Qed.

(** ** swtch *)

(** struct context: ra, sp and s0 to s11. *)
Definition ctx_list : list (nat * Z) :=
  [(Reg.ra, 0); (Reg.sp, 8); (Reg.s0, 16); (Reg.s1, 24)] ++ ((fun i => ((Reg.s2 + i)%nat, 32 + 8 * Z.of_nat i)) <$> seq 0 10).

Definition CTX_SIZE : Z := 112.

Lemma ctx_list_words : Forall (fun x => word_at CTX_SIZE x.2) ctx_list.
Proof. by apply (bool_decide_unpack _); vm_compute. Qed.

Lemma ctx_list_range : Forall (fun x : nat * Z => 0 <= x.2 /\ x.2 + 8 <= CTX_SIZE) ctx_list.
Proof. by apply (bool_decide_unpack _); vm_compute. Qed.

Lemma ctx_list_nodup : NoDup ctx_list.*1 /\ NoDup ctx_list.*2 /\ (Reg.a1 ∉ ctx_list.*1) /\ (0%nat ∉ ctx_list.*1).
Proof. split_and!; by apply (bool_decide_unpack _); vm_compute. Qed.

Lemma swtch_table : swtch_code = saves Reg.a0 ctx_list ++ loads Reg.a1 ctx_list ++ [Jr Reg.ra].
Proof. vm_compute. reflexivity. Qed.

(** The registers a context holds. *)
Definition context_at (m : mem) (c : Z) (f : nat -> Z) : Prop := forall r o, (r, o) ∈ ctx_list -> load 8 m (c + o) = f r.

(** swtch() saves the callee-saved registers in one context and continues with
    those of the other. *)
Lemma swtch_ok W h old po new pn : area W h old po CTX_SIZE -> area W h new pn CTX_SIZE ->
  po + CTX_SIZE <= pn \/ pn + CTX_SIZE <= po ->
  x_reg h Reg.a0 = old -> x_reg h Reg.a1 = new -> (forall r, 0 <= x_reg h r < 2 ^ 64) ->
  exists h', exec_all swtch_code h = Ok tt h' /\
    context_at (x_mem h') po (x_reg h) /\ context_at (x_mem h) pn (x_reg h') /\ x_pc h' = x_reg h' Reg.ra /\
    (forall a, ~ within po CTX_SIZE a -> x_mem h' a = x_mem h a) /\
    (forall r, r ∉ ctx_list.*1 -> x_reg h' r = x_reg h r) /\ x_csr h' = x_csr h /\ x_mode h' = x_mode h.
Proof.
  intros Ao An Hd H0 H1 Hr. destruct ctx_list_nodup as (N1 & N2 & Na & Nz).
  rewrite swtch_table.
  rewrite (saves_ok Reg.a0 ctx_list _ W h old po _ Ao H0 ctx_list_words). set (m1 := store_regs po (reg_of h) ctx_list (x_mem h)).
  assert (forall a, ~ within po CTX_SIZE a -> m1 a = x_mem h a) as Hout.
  { intros a Ha. apply (store_regs_out _ _ _ 0 CTX_SIZE); [apply ctx_list_range|]. unfold within in Ha. lia. }
  assert (area W (h <| x_mem := m1 |>) new pn CTX_SIZE) as An'.
  { eapply area_near; [exact An|]. split_and!; [done..|]. intros a Ha. apply Hout. intros Hw. by apply Ha, (ar_in _ _ _ _ _ Ao). }
  change (h <| x_mem ::= store_regs po (reg_of h) ctx_list |>) with (h <| x_mem := m1 |>).
  rewrite (loads_ok Reg.a1 ctx_list _ W _ new pn _ An' H1 Na ctx_list_words).
  eexists. split; [reflexivity|]. cbn -[load_regs ctx_list]. split_and!; try done.
  - intros r o Hin. unfold m1. rewrite (store_regs_in _ _ _ _ _ _ ctx_list_words N2 Hin).
    rewrite reg_of_pos, Z.mod_small; [done|done|]. destruct r; [|lia]. destruct Nz. by apply (list_elem_of_fmap_2 fst) in Hin.
  - intros r o Hin. rewrite (load_regs_in _ _ _ _ _ N1 Hin). apply load_ext. intros x Hx. symmetry. apply Hout.
    pose proof (proj1 (Forall_forall _ _) ctx_list_range _ Hin) as Hw. unfold within. cbn in Hw. lia.
  - intros r Hn. by apply load_regs_out.
Qed.

(** ** kernelvec *)

Definition kv_off (r : nat) : Z := 8 * Z.of_nat r - 8.
Definition kv_list (l : list nat) : list (nat * Z) := (fun r => (r, kv_off r)) <$> l.
Definition KV_SIZE : Z := 256.

Lemma kv_list_words l : Forall (fun r => (1 <= r <= 31)%nat) l -> Forall (fun x => word_at KV_SIZE x.2) (kv_list l).
Proof.
  intros H. apply Forall_fmap. eapply Forall_impl; [exact H|]. intros r Hr. cbn beta in Hr. change (word_at KV_SIZE (kv_off r)).
  unfold word_at, kv_off, KV_SIZE.
  split_and!; [lia..|]. replace (8 * Z.of_nat r - 8) with ((Z.of_nat r - 1) * 8) by lia. by apply Z.mod_mul.
Qed.

Lemma kv_list_fst l : (kv_list l).*1 = l.
Proof. unfold kv_list. rewrite <- list_fmap_compose. apply list_fmap_id. Qed.

Lemma kv_list_snd l : NoDup l -> NoDup (kv_list l).*2.
Proof.
  intros H. unfold kv_list. rewrite <- list_fmap_compose. apply NoDup_fmap_2; [|done]. intros x y E. change (kv_off x = kv_off y) in E. unfold kv_off in E. lia.
Qed.

Lemma kernelvec_tables : kernelvec_push = [Addi Reg.sp Reg.sp (-256)] ++ saves Reg.sp (kv_list (seq 1 31)) /\
  kernelvec_pop = [Ld Reg.ra 0 Reg.sp; Ld Reg.sp 8 Reg.sp] ++ loads Reg.sp (kv_list ([3%nat] ++ seq 5 27)) ++ [Addi Reg.sp Reg.sp 256; Sret].
Proof. split; vm_compute; reflexivity. Qed.

(** kernelvec is transparent: whatever kerneltrap() does to the registers, as
    long as it returns with the stack pointer and the words above it as they
    were, the interrupted code continues with all its registers but tp. *)
Lemma kernelvec_push_ok W h pa k : area W h (u64 (x_reg h Reg.sp - 256)) pa KV_SIZE -> (forall r, 0 <= x_reg h r < 2 ^ 64) -> 256 <= x_reg h Reg.sp ->
  exists h', exec_all (kernelvec_push ++ k) h = exec_all k h' /\
    (forall r, (1 <= r <= 31)%nat -> load 8 (x_mem h') (pa + kv_off r) = x_reg h r - (if decide (r = Reg.sp) then 256 else 0)) /\
    (forall r, x_reg h' r = x_reg h r - (if decide (r = Reg.sp) then 256 else 0)) /\
    near W h h' /\ x_pc h' = x_pc h.
Proof.
  intros A Hr Hsp. change (x_reg h Reg.sp - 256) with (x_reg h Reg.sp + -256) in A. set (v := u64 (x_reg h Reg.sp + -256)) in *.
  assert (v = x_reg h Reg.sp - 256) as Ev by (unfold v; specialize (Hr Reg.sp); rewrite u64_small; lia).
  pose (h1 := h <| x_reg ::= fun f => fset f Reg.sp v |>).
  rewrite (proj1 kernelvec_tables), <- app_assoc. change (exec_all ([Addi _ _ _] ++ ?l) h) with (exec_all l h1).
  assert (Forall (fun r => (1 <= r <= 31)%nat) (seq 1 31)) as Hs by (apply Forall_seq; lia).
  assert (area W h1 v pa KV_SIZE) as A1 by (eapply area_near; [exact A|by split_and!]).
  rewrite (saves_ok Reg.sp _ k W h1 _ _ _ A1 eq_refl (kv_list_words _ Hs)).
  assert (forall r, x_reg h1 r = x_reg h r - (if decide (r = Reg.sp) then 256 else 0)) as Hreg.
  { intros r. cbn. unfold fset. destruct (decide (r = Reg.sp)) as [->|]; lia. }
  eexists. split; [reflexivity|]. split_and!; [|exact Hreg| |done].
  - intros r Hrr. cbn -[store_regs kv_list]. assert ((r, kv_off r) ∈ kv_list (seq 1 31)) as Hin.
    { apply (list_elem_of_fmap_2 (fun r => (r, kv_off r))), elem_of_seq. lia. }
    rewrite (store_regs_in _ _ _ _ _ _ (kv_list_words _ Hs) (kv_list_snd _ (NoDup_seq _ _)) Hin).
    rewrite reg_of_pos, Hreg by lia. apply Z.mod_small. specialize (Hr r). destruct (decide (r = Reg.sp)) as [->|]; lia.
  - split_and!; [done..|]. intros a Ha. cbn -[store_regs kv_list]. apply (store_regs_out _ _ _ 0 KV_SIZE).
    + eapply Forall_impl; [apply kv_list_words, Hs|]. intros x (? & ? & _). done.
    + assert (~ within pa KV_SIZE a) by (intros Hw; by apply Ha, (ar_in _ _ _ _ _ A)). unfold within in *. lia.
Qed.

Lemma kernelvec_pop_ok W h v pa f : area W h v pa KV_SIZE -> x_reg h Reg.sp = v -> 0 <= v -> v + 256 < 2 ^ 64 -> f Reg.sp = v + 256 ->
  (forall r, (1 <= r <= 31)%nat -> load 8 (x_mem h) (pa + kv_off r) = f r - (if decide (r = Reg.sp) then 256 else 0)) ->
  exists h', exec_all kernelvec_pop h = Ok tt h' /\
    (forall r, (1 <= r <= 31)%nat -> r <> Reg.tp -> x_reg h' r = f r) /\ x_reg h' Reg.tp = x_reg h Reg.tp /\ x_mem h' = x_mem h /\
    x_mode h' = (if Z.testbit (x_csr h Csr.mstatus) 8 then ModeS else ModeU) /\ x_pc h' = x_csr h Csr.sepc /\
    Z.testbit (x_csr h' Csr.mstatus) 1 = Z.testbit (x_csr h Csr.mstatus) 5.
Proof.
  intros A Hsp H0 H1 Hf Hl. pose (l := [3%nat] ++ seq 5 27).
  rewrite (proj2 kernelvec_tables). fold l. cbn [app].
  assert (forall h', x_csr h' = x_csr h -> x_mode h' = x_mode h -> x_mem h' = x_mem h -> area W h' v pa KV_SIZE) as A'.
  { intros h' E1 E2 E3. eapply area_near; [exact A|]. split_and!; [done..|by rewrite E3]. }
  assert (word_at KV_SIZE 0 /\ word_at KV_SIZE 8) as [W0 W8] by (split; by apply (bool_decide_unpack _); vm_compute).
  rewrite (exec_ld W h v pa KV_SIZE) by done. set (h1 := h <| x_reg ::= _ |>).
  rewrite (exec_ld W h1 v pa KV_SIZE); [|by apply A'|done|done]. cbn [h1 x_mem upd upd_x_reg].
  assert (load 8 (x_mem h) (pa + 8) = v) as E8.
  { change (pa + 8) with (pa + kv_off Reg.sp). rewrite Hl by (unfold Reg.sp; lia). rewrite decide_True by done. lia. }
  rewrite E8. set (h2 := h1 <| x_reg ::= _ |>).
  assert (Forall (fun r => (1 <= r <= 31)%nat) l) as Hr by (by apply (bool_decide_unpack _); vm_compute).
  rewrite (loads_ok Reg.sp (kv_list l) _ W h2 v pa KV_SIZE);
    [|by apply A'|done|rewrite kv_list_fst; by apply (bool_decide_unpack _); vm_compute|by apply kv_list_words].
  set (h3 := h2 <| x_reg ::= _ |>).
  assert (x_reg h3 Reg.sp = v) as Hsp3.
  { unfold h3. cbn -[load_regs kv_list]. rewrite load_regs_out; [done|]. rewrite kv_list_fst. by apply (bool_decide_unpack _); vm_compute. }
  pose (h4 := h3 <| x_reg ::= fun g => fset g Reg.sp (v + 256) |>).
  assert (exec_all [Addi Reg.sp Reg.sp 256; Sret] h3 = exec_all [Sret] h4) as ->.
  { cbn [exec_all exec_instr]. unfold getr at 1, setr, bind. rewrite reg_of_pos, Hsp3, u64_small by (unfold Reg.sp; lia). done. }
  eexists. split; [reflexivity|]. split_and!; [| |done..|].
  - intros r Hrr Hne. change (x_reg h4 r = f r). unfold h4. cbn -[load_regs kv_list l]. destruct (decide (r = Reg.sp)) as [->|Hns]; [by rewrite fset_eq|].
    rewrite fset_ne by done. pose proof (Hl r Hrr) as E. rewrite decide_False, Z.sub_0_r in E by done. destruct (decide (r = Reg.ra)) as [->|Hna].
    + rewrite load_regs_out; [done|]. rewrite kv_list_fst. by apply (bool_decide_unpack _); vm_compute.
    + rewrite (load_regs_in _ _ _ _ (kv_off r)); [done|rewrite kv_list_fst; by apply (bool_decide_unpack _); vm_compute|].
      apply (list_elem_of_fmap_2 (fun r => (r, kv_off r))). unfold l. rewrite elem_of_app, elem_of_seq, list_elem_of_singleton.
      unfold Reg.ra, Reg.sp, Reg.tp in *. lia.
  - change (x_reg h4 Reg.tp = x_reg h Reg.tp). unfold h4, h3. cbn -[load_regs kv_list l]. rewrite fset_ne by done.
    rewrite load_regs_out; [done|]. rewrite kv_list_fst. by apply (bool_decide_unpack _); vm_compute.
  - cbn -[load_regs Z.testbit setb kv_list]. by rewrite fset_eq, !testbit_setb by lia.
Qed.
