(* ===== verification/TimerSpec.v ===== *)
(** From reset to main(), and the timer interrupts: entry.S, start.c and
    timervec of kernelvec.S.

    [timer_ready] is what start() sets up for timervec, and what timervec
    keeps: from then on every timer interrupt programs the next one and raises
    a supervisor software interrupt, without being noticed otherwise. *)

From S2P Require Import Prelude Layout Strings Kernel Kalloc Vm PageTable Riscv Vectors VectorsSpec.

Definition scratch_of (sy : start_syms) (id : Z) : Z := sy_timer_scratch sy + 40 * id.

Record timer_ready (sy : start_syms) (id : Z) (h : core) : Prop := {
  tr_scratch : x_csr h Csr.mscratch = scratch_of sy id;
  tr_vec : x_csr h Csr.mtvec = sy_timervec sy;
  tr_mie : Z.testbit (x_csr h Csr.mie) 7 = true;
  tr_machine : Z.testbit (x_csr h Csr.mideleg) 7 = false;
  tr_software : Z.testbit (x_csr h Csr.mideleg) 1 = true;
  tr_cmp : load 8 (x_mem h) (scratch_of sy id + 24) = CLINT_MTIMECMP id;
  tr_interval : load 8 (x_mem h) (scratch_of sy id + 32) = interval;
}.

(** timer_scratch is an array of RAM. *)
Definition syms_ok (sy : start_syms) : Prop :=
  (8 | sy_timer_scratch sy) /\ KERNBASE <= sy_timer_scratch sy /\ sy_timer_scratch sy + 40 * 8 <= PHYSTOP.

(** ** Bits *)

Lemma testbit_under mask old x i : 0 <= i -> Z.testbit (under mask old x) i = if Z.testbit mask i then Z.testbit x i else Z.testbit old i.
Proof. intros Hi. unfold under. rewrite Z.lor_spec, Z.ldiff_spec, Z.land_spec. destruct (Z.testbit mask i); [by rewrite andb_false_r, andb_true_r|by rewrite andb_true_r, andb_false_r, orb_false_r]. Qed.

Lemma testbit_set_mpp x v i : 0 <= i -> 0 <= v <= 3 ->
  Z.testbit (set_mpp x v) i = if (11 <=? i) && (i <=? 12) then Z.testbit v (i - 11) else Z.testbit x i.
Proof.
  intros Hi Hv. unfold set_mpp. rewrite testbit_under by done. rewrite !Z.shiftl_spec by done.
  destruct (Z.leb_spec 11 i), (Z.leb_spec i 12); cbn [andb].
  - assert (i = 11 \/ i = 12) as [->| ->] by lia; done.
  - rewrite (Z.bits_above_log2 3) by (cbn; lia). done.
  - rewrite Z.testbit_neg_r by lia. done.
  - lia.
Qed.

Lemma mpp_bits x : mpp x = (if Z.testbit x 11 then 1 else 0) + (if Z.testbit x 12 then 2 else 0).
Proof.
  unfold mpp. change 3 with (Z.ones 2). rewrite Z.land_ones by lia.
  change 12 with (1 + 11). change (Z.testbit x 11) with (Z.testbit x (0 + 11)). rewrite <- !Z.shiftr_spec by lia. generalize (Z.shiftr x 11). intros y.
  rewrite Z.bit0_odd. change (Z.testbit y 1) with (Z.testbit y (Z.succ 0)). rewrite <- (Z.div2_bits y 0) by lia. rewrite Z.bit0_odd, <- Z.div2_div.
  pose proof (Z.div2_odd y) as E1. pose proof (Z.div2_odd (Z.div2 y)) as E2. revert E1 E2.
  generalize (Z.div2 y) (Z.div2 (Z.div2 y)). intros a b. change (2 ^ 2) with 4.
  destruct (Z.odd y), (Z.odd a); cbn [Z.b2z]; intros E1 E2.
  all: Z.to_euclidean_division_equations; lia.
Qed.

Lemma mpp_set_mpp x v : 0 <= v <= 3 -> mpp (set_mpp x v) = v.
Proof.
  intros Hv. rewrite mpp_bits, !testbit_set_mpp by lia. cbn -[Z.testbit]. change (11 - 11) with 0. change (12 - 11) with 1.
  assert (v = 0 \/ v = 1 \/ v = 2 \/ v = 3) as [->|[->|[->| ->]]] by lia; done.
Qed.

(** ** timervec *)

Notation anywhere := (fun _ : Z => True).

Lemma area_m h va n : x_mode h = ModeM -> 0 <= va -> va + n < 2 ^ 64 -> va mod 8 = 0 -> area anywhere h va va n.
Proof. intros. by apply area_bare. Qed.

Lemma ld_m h va : x_mode h = ModeM -> va mod 8 = 0 -> ld va h = Ok (load 8 (x_mem h) va) h.
Proof. intros Hm H8. unfold ld, xlat. by rewrite Hm, H8. Qed.

Lemma sd_m h va v : x_mode h = ModeM -> va mod 8 = 0 -> sd va v h = Ok tt (h <| x_mem ::= fun m => store 8 m va v |>).
Proof. intros Hm H8. unfold sd, xlat. by rewrite Hm, H8. Qed.

Section Timer.
Context (sy : start_syms) (id : Z).
Hypothesis Hsy : syms_ok sy.
Hypothesis Hid : 0 <= id < 8.

Notation c := (scratch_of sy id).
Notation cmp := (CLINT_MTIMECMP id).

Lemma scratch_bounds : 2 ^ 31 <= c /\ c + 40 < 2 ^ 32 /\ c mod 8 = 0.
Proof.
  destruct Hsy as ([k E] & H1 & H2). unfold scratch_of, KERNBASE, PHYSTOP, KERNBASE in *. split_and!; [lia..|].
  rewrite E. replace (k * 8 + 40 * id) with ((k + 5 * id) * 8) by lia. by apply Z.mod_mul.
Qed.

Lemma cmp_bounds : 0 <= cmp /\ cmp + 8 < 2 ^ 31 /\ cmp mod 8 = 0.
Proof.
  unfold CLINT_MTIMECMP, CLINT. split_and!; [lia..|]. replace (33554432 + 16384 + 8 * id) with ((4196352 + 2048 - 2048 + id) * 8 - 0) by lia.
  rewrite Z.sub_0_r. by apply Z.mod_mul.
Qed.

(** The state in which timervec reprograms the timer: a0 points to the scratch
    area, where a1 to a3 are saved. *)
Lemma timervec_body h k : x_mode h = ModeM -> x_reg h Reg.a0 = c ->
  load 8 (x_mem h) (c + 24) = cmp -> load 8 (x_mem h) (c + 32) = interval ->
  let m := x_mem h in
  exists f, exec_all (loads Reg.a0 [(Reg.a1, 24); (Reg.a2, 32)] ++ [Ld Reg.a3 0 Reg.a1; Add Reg.a3 Reg.a3 Reg.a2; Sd Reg.a3 0 Reg.a1; Li Reg.a1 2] ++ k) h =
    exec_all k (h <| x_reg := f |> <| x_mem := store 8 m cmp (u64 (load 8 m cmp + interval)) |>) /\
    f Reg.a1 = 2 /\ (forall r, r <> Reg.a1 -> r <> Reg.a2 -> r <> Reg.a3 -> f r = x_reg h r).
Proof.
  intros Hm Ha0 Ecmp Eint m. destruct scratch_bounds as (C1 & C2 & C3), cmp_bounds as (D1 & D2 & D3).
  rewrite (loads_ok Reg.a0 [(Reg.a1, 24); (Reg.a2, 32)] _ anywhere h c c 40);
    [|apply area_m; [done|lia..]|done|by apply (bool_decide_unpack _); vm_compute|by apply (bool_decide_unpack _); vm_compute].
  unfold load_regs. cbn [fold_left fst snd]. rewrite Ecmp, Eint. set (h1 := h <| x_reg ::= _ |>). cbn [app].
  rewrite (exec_ld anywhere h1 cmp cmp 8); [|apply area_m; [exact Hm|lia..]|done|reflexivity]. rewrite Z.add_0_r. set (h2 := h1 <| x_reg ::= _ |>).
  pose (v := u64 (load 8 m cmp + interval)). pose (h3 := h2 <| x_reg ::= fun g => fset g Reg.a3 v |>).
  change (exec_all (Add Reg.a3 Reg.a3 Reg.a2 :: ?l) h2) with (exec_all l h3).
  rewrite (exec_sd anywhere h3 cmp cmp 8); [|apply area_m; [exact Hm|lia..]|done|reflexivity]. rewrite Z.add_0_r.
  exists (fset (x_reg h3) Reg.a1 2). split; [reflexivity|]. split; [done|]. intros r N1 N2 N3.
  rewrite fset_ne by done. unfold h3, h2, h1. cbn -[fset]. by rewrite !fset_ne.
Qed.

(** mret undoes the trap, but for the fields only machine mode uses. *)
Lemma mret_trap cause h i : x_mode h <> ModeM -> 0 <= i -> i ∉ [3; 7; 11; 12; 17] ->
  let x := set_mpp (setb (setb (x_csr h Csr.mstatus) 7 (Z.testbit (x_csr h Csr.mstatus) 3)) 3 false) (mode_code (x_mode h)) in
  x_csr (trap_m cause h) Csr.mstatus = x /\ mode_of (mpp x) = x_mode h /\ Z.testbit (mret_status x) i = Z.testbit (x_csr h Csr.mstatus) i.
Proof.
  intros Hm Hi Hn x. assert (0 <= mode_code (x_mode h) <= 3) as Hc by (destruct (x_mode h); cbn; lia).
  assert (mpp x = mode_code (x_mode h)) as E by (by apply mpp_set_mpp).
  rewrite !not_elem_of_cons in Hn. destruct Hn as (N3 & N7 & N11 & N12 & N17 & _).
  split; [done|]. rewrite E. split; [by destruct (x_mode h)|]. unfold mret_status. rewrite E.
  replace (mode_code (x_mode h) =? 3) with false by (by destruct (x_mode h)). unfold x. rewrite !testbit_setb by lia. rewrite (decide_False (P := i = 17)) by done.
  rewrite testbit_set_mpp by lia. replace ((11 <=? i) && (i <=? 12)) with false by lia.
  rewrite !testbit_setb by lia. rewrite (decide_False (P := i = 7)), (decide_False (P := i = 3)) by done.
  rewrite testbit_set_mpp by done. replace ((11 <=? i) && (i <=? 12)) with false by lia.
  rewrite !testbit_setb by lia. by rewrite (decide_False (P := i = 3)), (decide_False (P := i = 7)) by done.
Qed.

Lemma timervec_table : timervec_code = [Csrrw Reg.a0 Csr.mscratch Reg.a0] ++ saves Reg.a0 [(Reg.a1, 0); (Reg.a2, 8); (Reg.a3, 16)] ++
  loads Reg.a0 [(Reg.a1, 24); (Reg.a2, 32)] ++ [Ld Reg.a3 0 Reg.a1; Add Reg.a3 Reg.a3 Reg.a2; Sd Reg.a3 0 Reg.a1; Li Reg.a1 2] ++
  [Csrw Csr.sip Reg.a1] ++ loads Reg.a0 [(Reg.a3, 16); (Reg.a2, 8); (Reg.a1, 0)] ++ [Csrrw Reg.a0 Csr.mscratch Reg.a0; Mret].
Proof. vm_compute. reflexivity. Qed.

(** What timervec does before its mret. *)
Lemma timervec_run cause h : timer_ready sy id h -> (forall r, 0 <= x_reg h r < 2 ^ 64) ->
  exists f m a0, exec_all timervec_code (trap_m cause h) =
      mret ((trap_m cause h) <| x_reg := f |> <| x_mem := m |> <| x_csr ::= fun g =>
        fset (fset (fset g Csr.mscratch a0) Csr.mip (under (Z.land (x_csr h Csr.mideleg) 2) (x_csr h Csr.mip) 2)) Csr.mscratch c |>) /\
    (forall r, f r = x_reg h r) /\ load 8 m cmp = u64 (load 8 (x_mem h) cmp + interval) /\
    (forall a, ~ within c 24 a -> ~ within cmp 8 a -> m a = x_mem h a).
Proof.
  intros T Hr. destruct scratch_bounds as (C1 & C2 & C3), cmp_bounds as (D1 & D2 & D3).
  pose (l := [(Reg.a1, 0); (Reg.a2, 8); (Reg.a3, 16)]). pose (l' := [(Reg.a3, 16); (Reg.a2, 8); (Reg.a1, 0)]).
  pose (k := [Csrw Csr.sip Reg.a1] ++ loads Reg.a0 l' ++ [Csrrw Reg.a0 Csr.mscratch Reg.a0; Mret]).
  pose (h1 := (trap_m cause h) <| x_csr ::= fun f => fset f Csr.mscratch (x_reg h Reg.a0) |> <| x_reg ::= fun f => fset f Reg.a0 (x_csr h Csr.mscratch) |>).
  pose (l2 := [(Reg.a1, 24); (Reg.a2, 32)]). pose (k2 := [Ld Reg.a3 0 Reg.a1; Add Reg.a3 Reg.a3 Reg.a2; Sd Reg.a3 0 Reg.a1; Li Reg.a1 2]).
  rewrite timervec_table. fold l l' l2 k2 k. change (exec_all ([Csrrw _ _ _] ++ ?x) (trap_m cause h)) with (exec_all x h1).
  assert (reg_of h1 Reg.a0 = c) as Ha0 by exact (tr_scratch _ _ _ T).
  rewrite (saves_ok Reg.a0 l _ anywhere h1 c c 40);
    [|apply area_m; [done|lia..]|done|by apply (bool_decide_unpack _); vm_compute].
  set (m1 := store_regs c (reg_of h1) l (x_mem h)).
  change (h1 <| x_mem ::= store_regs c (reg_of h1) l |>) with (h1 <| x_mem := m1 |>).
  assert (forall a, ~ within c 24 a -> m1 a = x_mem h a) as Hout.
  { intros a Ha. apply (store_regs_out _ _ _ 0 24); [by apply (bool_decide_unpack _); vm_compute|]. unfold within in Ha. lia. }
  assert (forall a, a + 8 <= c \/ c + 24 <= a -> load 8 m1 a = load 8 (x_mem h) a) as Hld.
  { intros a Ha. apply load_ext. intros x Hx. apply Hout. unfold within. lia. }
  destruct (timervec_body (h1 <| x_mem := m1 |>) k) as (f & E & Hf1 & Hf); [done|done|..].
  { cbn. rewrite Hld by lia. apply T. }
  { cbn. rewrite Hld by lia. apply T. }
  change (x_mem (h1 <| x_mem := m1 |>)) with m1 in E. rewrite (Hld cmp) in E by lia. set (v := u64 _) in E. unfold l2, k2. rewrite E.
  set (m3 := store 8 m1 cmp v). set (h3 := h1 <| x_mem := m1 |> <| x_reg := f |> <| x_mem := m3 |>).
  pose (h4 := csr_write Csr.sip 2 h3).
  assert (exec_all k h3 = exec_all (loads Reg.a0 l' ++ [Csrrw Reg.a0 Csr.mscratch Reg.a0; Mret]) h4) as ->.
  { unfold k. cbn [app exec_all exec_instr]. unfold getr at 1, bind at 1, bind at 1. rewrite reg_of_pos by (unfold Reg.a1; lia).
    change (x_reg h3 Reg.a1) with (f Reg.a1). by rewrite Hf1. }
  rewrite (loads_ok Reg.a0 l' _ anywhere h4 c c 40);
    [|apply area_m; [done|lia..]| |by apply (bool_decide_unpack _); vm_compute..].
  2: { rewrite reg_of_pos by (unfold Reg.a0; lia). change (x_reg h4 Reg.a0) with (f Reg.a0). rewrite Hf; done. }
  change (x_mem h4) with m3.
  assert (load_regs m3 c l' f Reg.a0 = c) as Hc.
  { rewrite load_regs_out by (by apply (bool_decide_unpack _); vm_compute). rewrite Hf; done. }
  exists (fset (load_regs m3 c l' f) Reg.a0 (x_reg h Reg.a0)), m3, (x_reg h Reg.a0). split_and!.
  - cbn [exec_all exec_instr]. unfold csrr, getr, csrw, setr, bind. rewrite reg_of_pos by (unfold Reg.a0; lia).
    cbn [x_reg upd upd_x_reg]. change (x_reg h4) with f. rewrite Hc. unfold mret. reflexivity.
  - intros r. destruct (decide (r = Reg.a0)) as [->|N0]; [by rewrite fset_eq|]. rewrite fset_ne by done.
    destruct (decide (r ∈ l'.*1)) as [Hin|Hn].
    + assert (NoDup l'.*1) as Hd by (by apply (bool_decide_unpack _); vm_compute).
      assert (NoDup l.*2 /\ Forall (fun x => word_at 40 x.2) l) as [Hd2 Hw] by (split; by apply (bool_decide_unpack _); vm_compute).
      apply list_elem_of_fmap in Hin as ([r' o] & -> & Hin). rewrite (load_regs_in _ _ _ _ _ Hd Hin).
      unfold m3. assert (0 <= o <= 16) as Ho by (unfold l' in Hin; set_solver by lia).
      rewrite load_store_disjoint by lia. unfold m1. rewrite (store_regs_in _ _ _ 40 r' o Hw Hd2) by (unfold l, l' in *; set_solver).
      rewrite reg_of_pos by (unfold l' in Hin; set_solver by (unfold Reg.a1, Reg.a2, Reg.a3; lia)).
      cbn -[fset]. rewrite fset_ne by done. by apply Z.mod_small.
    + rewrite load_regs_out by done. unfold l' in Hn. rewrite Hf by set_solver. cbn -[fset]. by rewrite fset_ne.
  - unfold m3. rewrite load_store_same. unfold v. rewrite Z.mod_small; [done|]. apply u64_range.
  - intros a Ha Hb. unfold m3. rewrite store_out by (unfold within in Hb; lia). by apply Hout.
Qed.

(** The control registers after timervec. *)
Lemma timervec_csr cause h f m a0 v : x_mode h <> ModeM ->
  exists g, mret ((trap_m cause h) <| x_reg := f |> <| x_mem := m |> <| x_csr ::= fun g =>
        fset (fset (fset g Csr.mscratch a0) Csr.mip v) Csr.mscratch c |>) = Ok tt (h <| x_reg := f |> <| x_mem := m |> <| x_csr := g |>) /\
    g Csr.mscratch = c /\ g Csr.mip = v /\
    (forall i, 0 <= i -> i ∉ [3; 7; 11; 12; 17] -> Z.testbit (g Csr.mstatus) i = Z.testbit (x_csr h Csr.mstatus) i) /\
    (forall r, r ∉ [Csr.mstatus; Csr.mepc; Csr.mcause; Csr.mip; Csr.mscratch] -> g r = x_csr h r).
Proof.
  intros Hm.
  set (x := set_mpp (setb (setb (x_csr h Csr.mstatus) 7 (Z.testbit (x_csr h Csr.mstatus) 3)) 3 false) (mode_code (x_mode h))).
  assert (mode_of (mpp x) = x_mode h) as Emode by (apply (mret_trap cause h 0 Hm); [lia|by apply (bool_decide_unpack _); vm_compute]).
  exists (fset (fset (fset (fset (x_csr (trap_m cause h)) Csr.mscratch a0) Csr.mip v) Csr.mscratch c) Csr.mstatus (mret_status x)).
  split_and!; [|done..| |].
  - unfold mret, upd, upd_x_mode, upd_x_reg, upd_x_csr, upd_x_mem, upd_x_pc. cbn [x_csr x_reg x_mem x_mode x_pc x_deleg].
    change (fset _ Csr.mscratch c Csr.mstatus) with x. rewrite Emode. done.
  - intros i Hi Hn. rewrite fset_eq. by apply (mret_trap cause h i Hm).
  - intros r Hn. rewrite !not_elem_of_cons in Hn. destruct Hn as (N1 & N2 & N3 & N4 & N5 & _).
    rewrite !fset_ne by done. unfold trap_m. cbn -[fset]. by rewrite !fset_ne.
Qed.

Lemma timervec_ok cause h : timer_ready sy id h -> x_mode h <> ModeM -> (forall r, 0 <= x_reg h r < 2 ^ 64) ->
  exists h', exec_all timervec_code (trap_m cause h) = Ok tt h' /\
    (forall r, x_reg h' r = x_reg h r) /\ x_mode h' = x_mode h /\ x_pc h' = x_pc h /\
    load 8 (x_mem h') cmp = u64 (load 8 (x_mem h) cmp + interval) /\
    Z.testbit (csr_read h' Csr.sip) 1 = true /\ timer_ready sy id h' /\
    (forall a, ~ within c 24 a -> ~ within cmp 8 a -> x_mem h' a = x_mem h a) /\
    (forall i, 0 <= i -> i ∉ [3; 7; 11; 12; 17] -> Z.testbit (x_csr h' Csr.mstatus) i = Z.testbit (x_csr h Csr.mstatus) i) /\
    (forall r, r ∉ [Csr.mstatus; Csr.mepc; Csr.mcause; Csr.mip] -> x_csr h' r = x_csr h r).
Proof.
  intros T Hm Hr. destruct (timervec_run cause h T Hr) as (f & m & a0 & E & Hf & Hcmp & Hmem).
  destruct (timervec_csr cause h f m a0 (under (Z.land (x_csr h Csr.mideleg) 2) (x_csr h Csr.mip) 2) Hm) as (g & Em & G1 & G2 & G3 & G4).
  rewrite Em in E. exists (h <| x_reg := f |> <| x_mem := m |> <| x_csr := g |>).
  pose proof (scratch_bounds) as (C1 & C2 & C3). pose proof cmp_bounds as (D1 & D2 & D3).
  assert (forall a, c + 24 <= a <= c + 32 -> load 8 m a = load 8 (x_mem h) a) as Hl.
  { intros a Ha. apply load_ext. intros z Hz. apply Hmem; unfold within; lia. }
  assert (forall r, r ∈ [Csr.mtvec; Csr.mie; Csr.mideleg] -> g r = x_csr h r) as Hg.
  { intros r Hin. apply G4. repeat (apply elem_of_cons in Hin as [->|Hin]; [by apply (bool_decide_unpack _); vm_compute|]). by apply not_elem_of_nil in Hin. }
  split_and!; try done.
  - unfold csr_read. cbn -[Z.testbit under]. rewrite G2, Hg by set_solver. rewrite Z.land_spec, testbit_under, Z.land_spec by lia.
    by rewrite (tr_software _ _ _ T).
  - destruct T as [T1 T2 T3 T4 T5 T6 T7]. split; cbn [x_csr x_mem upd upd_x_csr upd_x_mem upd_x_reg];
      [done|rewrite Hg by set_solver; done..|rewrite Hl by lia; done|rewrite Hl by lia; done].
  - intros r Hn. destruct (decide (r = Csr.mscratch)) as [->|]; [by rewrite (tr_scratch _ _ _ T)|]. apply G4. set_solver.
Qed.

(** ** start() *)

Lemma timerinit_ok h : x_mode h = ModeM -> x_csr h Csr.mhartid = id ->
  exists m, timerinit sy h = Ok tt (h <| x_mem := m |> <| x_csr ::= fun f =>
      fset (fset (fset (fset f Csr.mscratch c) Csr.mtvec (sy_timervec sy)) Csr.mstatus (Z.lor (f Csr.mstatus) MSTATUS_MIE))
        Csr.mie (Z.lor (f Csr.mie) MIE_MTIE) |>) /\
    load 8 m cmp = u64 (load 8 (x_mem h) CLINT_MTIME + interval) /\ load 8 m (c + 24) = cmp /\ load 8 m (c + 32) = interval /\
    (forall a, ~ within c 40 a -> ~ within cmp 8 a -> m a = x_mem h a).
Proof.
  intros Hm Hh. destruct scratch_bounds as (C1 & C2 & C3), cmp_bounds as (D1 & D2 & D3).
  assert ((c + 24) mod 8 = 0 /\ (c + 32) mod 8 = 0) as [C24 C32] by (rewrite !(Z.add_mod c), C3 by lia; done).
  set (v := u64 (load 8 (x_mem h) CLINT_MTIME + interval)).
  exists (store 8 (store 8 (store 8 (x_mem h) cmp v) (c + 24) cmp) (c + 32) interval). split_and!.
  - unfold timerinit, r_mhartid, csrr, bind at 1, csr_read. change (if Csr.mhartid =? Csr.sstatus then _ else _) with (x_csr h Csr.mhartid).
    rewrite Hh. rewrite (i32_small id) by lia. cbv zeta. fold c.
    rewrite (bind_ok _ _ _ _ _ (ld_m h CLINT_MTIME Hm eq_refl)), (bind_ok _ _ _ _ _ (sd_m h cmp v Hm D3)).
    erewrite bind_ok by (apply sd_m; [exact Hm|exact C24]). erewrite bind_ok by (apply sd_m; [exact Hm|exact C32]). done.
  - rewrite !load_store_disjoint by lia. rewrite load_store_same. apply Z.mod_small, u64_range.
  - rewrite load_store_disjoint, load_store_same by lia. apply Z.mod_small. lia.
  - by rewrite load_store_same.
  - intros a Ha Hb. unfold within in *. by rewrite !store_out by lia.
Qed.

Definition boot_status (x : Z) : Z := Z.lor (Z.lor (Z.land x (u64 (Z.lnot MSTATUS_MPP_MASK))) MSTATUS_MPP_S) MSTATUS_MIE.

Lemma boot_status_mpp x : mpp (boot_status x) = 1.
Proof. rewrite mpp_bits. unfold boot_status. rewrite !Z.lor_spec, !Z.land_spec. cbn -[Z.testbit]. by rewrite !andb_false_r. Qed.

Lemma boot_status_sie x : Z.testbit (mret_status (boot_status x)) 1 = Z.testbit x 1.
Proof.
  unfold mret_status. rewrite boot_status_mpp. change (1 =? 3) with false. cbv iota zeta. rewrite testbit_setb by lia. rewrite decide_False by lia.
  rewrite testbit_set_mpp by lia. change ((11 <=? 1) && (1 <=? 12)) with false. cbv iota.
  rewrite !testbit_setb by lia. rewrite !decide_False by lia. unfold boot_status. rewrite !Z.lor_spec, Z.land_spec.
  change (Z.testbit (u64 (Z.lnot MSTATUS_MPP_MASK)) 1) with true. by rewrite andb_true_r, !orb_false_r.
Qed.

(** After start() the hart is in supervisor mode at main() with the hart id in
    tp, paging off, the supervisor's interrupts enabled and delegated, and the
    timer set. *)
Lemma start_ok h : x_mode h = ModeM -> x_csr h Csr.mhartid = id ->
  Z.testbit (x_deleg h) 7 = false -> Z.testbit (x_deleg h) 1 = true ->
  exists h', start sy h = Ok tt h' /\ x_mode h' = ModeS /\ x_pc h' = sy_main sy /\ x_reg h' = fset (x_reg h) Reg.tp id /\
    x_csr h' Csr.satp = 0 /\ x_csr h' Csr.medeleg = 0xffff /\ timer_ready sy id h' /\
    load 8 (x_mem h') cmp = u64 (load 8 (x_mem h) CLINT_MTIME + interval) /\
    (forall i, i ∈ [1; 5; 9] -> Z.testbit (x_deleg h) i = true ->
       Z.testbit (x_csr h' Csr.mideleg) i = true /\ Z.testbit (x_csr h' Csr.mie) i = true) /\
    Z.testbit (x_csr h' Csr.mstatus) 1 = Z.testbit (x_csr h Csr.mstatus) 1 /\
    (forall a, ~ within c 40 a -> ~ within cmp 8 a -> x_mem h' a = x_mem h a).
Proof.
  intros Hm Hh Hd7 Hd1. set (D := Z.land 0xffff (x_deleg h)).
  set (e := under D (x_csr h Csr.mie) (Z.lor (Z.lor (Z.lor (Z.land (x_csr h Csr.mie) D) SIE_SEIE) SIE_STIE) SIE_SSIE)).
  set (x := Z.lor (Z.land (x_csr h Csr.mstatus) (u64 (Z.lnot MSTATUS_MPP_MASK))) MSTATUS_MPP_S).
  pose (f1 := fset (fset (fset (fset (fset (fset (fset (fset (x_csr h) Csr.mstatus x) Csr.mepc (sy_main sy)) Csr.satp 0) Csr.medeleg 0xffff)
    Csr.mideleg D) Csr.mie e) Csr.pmpaddr0 0x3fffffffffffff) Csr.pmpcfg0 0xf).
  pose (k := let* id := r_mhartid in w_tp (u64 (i32 id)) ;; mret).
  pose (h1 := h <| x_csr := f1 |>). assert (start sy h = (timerinit sy ;; k) h1) as -> by reflexivity.
  destruct (timerinit_ok h1 Hm Hh) as (m & E & M1 & M2 & M3 & M4).
  run E.
  set (h2 := _ <| x_mem := m |> <| x_csr ::= _ |>). assert (Hid' : u64 (i32 id) = id) by (rewrite i32_small, u64_small by lia; done).
  assert (k h2 = mret (h2 <| x_reg ::= fun f => fset f Reg.tp id |>)) as ->.
  { unfold k, r_mhartid, csrr, bind at 1. change (csr_read h2 Csr.mhartid) with (x_csr h Csr.mhartid). rewrite Hh, Hid'. done. }
  assert (Z.testbit D 7 = false /\ Z.testbit D 1 = true) as [HD7 HD1] by (unfold D; rewrite !Z.land_spec, Hd7, Hd1; done).
  pose proof (boot_status_mpp (x_csr h Csr.mstatus)) as Hmpp. pose proof (boot_status_sie (x_csr h Csr.mstatus)) as Hsie.
  assert (forall i, i ∈ [1; 5; 9] -> Z.testbit (x_deleg h) i = true -> Z.testbit D i = true /\ Z.testbit (Z.lor e MIE_MTIE) i = true) as Hbits.
  { intros i Hi Hd. assert (Z.testbit D i = true /\ 0 <= i) as [HDi H0].
    { unfold D. rewrite Z.land_spec, Hd. repeat (apply elem_of_cons in Hi as [->|Hi]; [done|]). by apply not_elem_of_nil in Hi. }
    split; [done|]. unfold e. rewrite Z.lor_spec, testbit_under, HDi, !Z.lor_spec by done.
    repeat (apply elem_of_cons in Hi as [->|Hi]; [by rewrite ?orb_true_r|]). by apply not_elem_of_nil in Hi. }
  eexists. split; [reflexivity|]. split; [change (mode_of (mpp (boot_status (x_csr h Csr.mstatus))) = ModeS); by rewrite Hmpp|].
  split_and!; try done.
  split; try done. change (Z.testbit (Z.lor e MIE_MTIE) 7 = true). by rewrite Z.lor_spec, orb_true_r.
Qed.

(** The stack of hart [id] ends at the end of its page of stack0. *)
Lemma entry_ok h : x_mode h = ModeM -> x_csr h Csr.mhartid = id -> 0 <= sy_stack0 sy -> sy_stack0 sy + 4096 * 8 < 2 ^ 64 ->
  exists f, exec_all (entry_code sy) h = Ok tt (h <| x_reg := f |>) /\ f Reg.sp = sy_stack0 sy + 4096 * id + 4096 /\
    (forall r, r ∉ [Reg.sp; Reg.a0; Reg.a1] -> f r = x_reg h r).
Proof.
  intros Hm Hh H0 H1. eexists. split; [reflexivity|]. cbn -[u64 fset csr_read]. split.
  - change (u64 (u64 (sy_stack0 sy) + u64 (u64 4096 * u64 (x_csr h Csr.mhartid + 1))) = sy_stack0 sy + 4096 * id + 4096).
    rewrite Hh, (u64_small (id + 1)), (u64_small 4096), (u64_small (sy_stack0 sy)), (u64_small (4096 * (id + 1))) by lia.
    rewrite u64_small; lia.
  - intros r Hn. rewrite !not_elem_of_cons in Hn. destruct Hn as (N1 & N2 & N3 & _). by rewrite !fset_ne.
Qed.
End Timer.
