(* ===== verification/VectorsProps.v ===== *)
(** Crossing between user space, the kernel and machine mode: what the
    assembly of the kernel guarantees to the C code around it. *)

From S2P Require Import Prelude Layout Strings Kernel Sched Kalloc Vm PageTable Proc Trap Riscv Vectors VectorsSpec TimerSpec.

(** ** usertrapret() *)

Lemma tf_set_ok i p off v s e : k_procs s !! i = Some p -> p_trapframe p <> 0 ->
  tf_set i off v (mkWorld s e) = Ok tt (mkWorld (s <| k_mem ::= fun m => store 8 m (p_trapframe p + off) v |>) e).
Proof. intros Hp Ht. unfold tf_set. run (get_proc_ok i p (mkWorld s e) Hp). apply Z.eqb_neq in Ht. by rewrite Ht. Qed.

Lemma tf_get_ok i p off s e : k_procs s !! i = Some p -> p_trapframe p <> 0 ->
  tf_get i off (mkWorld s e) = Ok (load 8 (k_mem s) (p_trapframe p + off)) (mkWorld s e).
Proof. intros Hp Ht. unfold tf_get. run (get_proc_ok i p (mkWorld s e) Hp). apply Z.eqb_neq in Ht. by rewrite Ht. Qed.

(** What usertrapret() leaves for the trampoline. *)
Record tramp_ready (s : kernel) (p : proc) (s' : kernel) : Prop := {
  rd_satp : load 8 (k_mem s') (p_trapframe p + 0) = u64 (c_satp (k_csr s));
  rd_sp : load 8 (k_mem s') (p_trapframe p + 8) = u64 (p_kstack p + PGSIZE);
  rd_trap : load 8 (k_mem s') (p_trapframe p + 16) = u64 (sy_usertrap (k_syms s));
  rd_hart : load 8 (k_mem s') (p_trapframe p + 32) = u64 (c_tp (k_csr s));
  rd_regs o : 40 <= o -> load 8 (k_mem s') (p_trapframe p + o) = load 8 (k_mem s) (p_trapframe p + o);
  rd_stvec : c_stvec (k_csr s') = u64 (TRAMPOLINE + (sy_uservec (k_syms s) - sy_trampoline (k_syms s)));
  rd_sepc : c_sepc (k_csr s') = load 8 (k_mem s) (p_trapframe p + 24);
  rd_spp : Z.testbit (c_sstatus (k_csr s')) 8 = false;
  rd_spie : Z.testbit (c_sstatus (k_csr s')) 5 = true;
}.

Lemma usertrapret_ok i p s e : k_cur s = Some i -> k_procs s !! i = Some p -> p_trapframe p <> 0 ->
  exists s', usertrapret (mkWorld s e) = Ok (MAKE_SATP (p_pagetable p)) (mkWorld s' e) /\ tramp_ready s p s' /\
    (forall a, ~ within (p_trapframe p) 40 a -> k_mem s' a = k_mem s a).
Proof.
  intros Hc Hp Ht. unfold usertrapret. run (curproc_ok i (mkWorld s e) Hc).
  unfold intr_off, mod_csr. rewrite !bind_modify, !bind_gets, bind_modify, bind_gets. cbn [w_k k_syms k_csr].
  set (s1 := s <| k_sie := false |> <| k_csr ::= _ |>). run (get_proc_ok i p (mkWorld s1 e) Hp).
  do 4 (erewrite bind_ok by (by apply (tf_set_ok i p))). rewrite bind_modify. erewrite bind_ok by (by apply (tf_get_ok i p)).
  rewrite bind_modify. eexists. split; [reflexivity|]. cbn -[load store Z.testbit u64]. set (t := p_trapframe p) in *.
  unfold TF_kernel_satp, TF_kernel_sp, TF_kernel_trap, TF_kernel_hartid, TF_epc.
  split; [split|]; cbn -[load store Z.testbit u64]; fold t; try done.
  1-4: rewrite ?load_store_disjoint by lia; rewrite load_store_same; try done; apply Z.mod_small, u64_range.
  - intros o Ho. by rewrite !load_store_disjoint by lia.
  - by rewrite !load_store_disjoint by lia.
  - by rewrite Z.lor_spec, Z.land_spec, andb_false_r.
  - by rewrite Z.lor_spec, orb_true_r.
  - intros a Ha. unfold within in Ha. by rewrite !store_out by lia.
Qed.

(** ** The trampoline *)

(** C21: A system call or an interrupt is transparent to the user program: the
    trap enters the kernel in supervisor mode with interrupts off, on the stack,
    page table and hart id that the trapframe names, and with every user
    register saved in the trapframe; when the kernel has left the saved
    registers as they are, but for a0, userret gives the user program all of
    them back, a0 with the value the kernel put there. *)
Theorem user_trap_roundtrip cause h root tf
  (Hu : x_mode h = ModeU) (Hs : x_csr h Csr.satp = MAKE_SATP root) (T : tf_mapped (x_mem h) root tf)
  (Hr : forall r, 0 <= x_reg h r < 2 ^ 64) :
  exists h1, exec_all uservec_code (trap_s cause h) = Ok tt h1 /\
    x_mode h1 = ModeS /\ Z.testbit (x_csr h1 Csr.mstatus) 1 = false /\ Z.testbit (x_csr h1 Csr.mstatus) 8 = false /\ x_csr h1 Csr.sepc = x_pc h /\ x_csr h1 Csr.scause = cause /\
    x_csr h1 Csr.satp = load 8 (x_mem h) (tf + 0) /\ x_reg h1 Reg.sp = load 8 (x_mem h) (tf + 8) /\
    x_pc h1 = load 8 (x_mem h) (tf + 16) /\ x_reg h1 Reg.tp = load 8 (x_mem h) (tf + 32) /\
    (forall r, (1 <= r <= 31)%nat -> load 8 (x_mem h1) (tf + tf_off r) = x_reg h r) /\
    (forall a, a < tf + 40 \/ tf + TF_SIZE <= a -> x_mem h1 a = x_mem h a) /\
    forall h2, x_mode h2 = ModeS -> x_reg h2 Reg.a0 = MAKE_SATP root -> tf_mapped (x_mem h2) root tf ->
      Z.testbit (x_csr h2 Csr.mstatus) 8 = false ->
      (forall r, (1 <= r <= 31)%nat -> r <> Reg.a0 -> load 8 (x_mem h2) (tf + tf_off r) = load 8 (x_mem h1) (tf + tf_off r)) ->
      exists h3, exec_all userret_code h2 = Ok tt h3 /\ x_mode h3 = ModeU /\ x_pc h3 = x_csr h2 Csr.sepc /\
        x_csr h3 Csr.satp = MAKE_SATP root /\ x_mem h3 = x_mem h2 /\
        (forall r, (1 <= r <= 31)%nat -> x_reg h3 r = if decide (r = Reg.a0) then load 8 (x_mem h2) (tf + tf_off Reg.a0) else x_reg h r).
Proof.
  destruct (uservec_ok (trap_s cause h) root tf) as (h1 & E1 & R1 & Hout & Hsp & Htp & Hpc & Hsatp & Hm1 & Hc); [done|exact Hs|exact T|exact Hr|].
  exists h1. split; [exact E1|]. split; [done|].
  rewrite !Hc by done. cbn -[load fset setb Z.testbit tf_off exec_all]. rewrite !fset_ne, !fset_eq by done. rewrite !testbit_setb, Hu by lia.
  split_and!; try done. intros h2 Hm2 Ha2 T2 Hspp Hsame.
  destruct (userret_ok h2 root tf Hm2 Ha2 T2) as (h3 & E3 & R3 & Hmem & Hs3 & Hm3 & Hpc3 & _).
  exists h3. rewrite Hspp in Hm3. split_and!; try done.
  intros r Hrr. rewrite R3 by done. case_decide as Hd; [by subst|]. by rewrite Hsame, R1.
Qed.

(** C22: Usertrapret() and the trampoline agree: usertrapret() followed by
    userret starts the user program at the saved program counter, in user mode,
    with interrupts on and with the registers of the trapframe; and when that
    program traps, however it has changed the rest of the memory, uservec
    enters usertrap() on the kernel stack of the process, with the kernel page
    table and the id of the hart that ran usertrapret(). *)
Theorem kernel_reentry i p s e
  (Hc : k_cur s = Some i) (Hp : k_procs s !! i = Some p) (Ht : p_trapframe p <> 0)
  (T : tf_mapped (k_mem s) (p_pagetable p) (p_trapframe p)) :
  let tf := p_trapframe p in
  exists satp s', usertrapret (mkWorld s e) = Ok satp (mkWorld s' e) /\
    forall hk, x_mode hk = ModeS -> x_reg hk Reg.a0 = satp -> x_mem hk = k_mem s' -> x_csr hk Csr.sepc = c_sepc (k_csr s') ->
      (forall b, b ∈ [5; 8] -> Z.testbit (x_csr hk Csr.mstatus) b = Z.testbit (c_sstatus (k_csr s')) b) ->
      exists hu, exec_all userret_code hk = Ok tt hu /\ x_mode hu = ModeU /\ x_pc hu = load 8 (k_mem s) (tf + 24) /\
        Z.testbit (x_csr hu Csr.mstatus) 1 = true /\ x_csr hu Csr.satp = satp /\
        (forall r, (1 <= r <= 31)%nat -> x_reg hu r = load 8 (k_mem s) (tf + tf_off r)) /\
        forall hu' cause, x_mode hu' = ModeU -> x_csr hu' Csr.satp = satp -> (forall r, 0 <= x_reg hu' r < 2 ^ 64) ->
          tf_mapped (x_mem hu') (p_pagetable p) tf -> (forall a, within tf PGSIZE a -> x_mem hu' a = x_mem hu a) ->
          exists h, exec_all uservec_code (trap_s cause hu') = Ok tt h /\ x_mode h = ModeS /\
            x_pc h = u64 (sy_usertrap (k_syms s)) /\ x_reg h Reg.sp = u64 (p_kstack p + PGSIZE) /\
            x_reg h Reg.tp = u64 (c_tp (k_csr s)) /\ x_csr h Csr.satp = u64 (c_satp (k_csr s)).
Proof.
  intros tf. destruct (usertrapret_ok i p s e Hc Hp Ht) as (s' & E & R & Hmem). exists (MAKE_SATP (p_pagetable p)), s'. split; [exact E|].
  assert (tf_mapped (k_mem s') (p_pagetable p) tf) as T'.
  { eapply tf_mapped_near; [exact T|]. intros a Ha. apply Hmem. unfold within, PGSIZE, tf in *. lia. }
  intros hk Hm Ha Hmk Hepc Hst. destruct (userret_ok hk (p_pagetable p) tf Hm Ha) as (hu & Eu & Ru & Hmu & Hsu & Hmode & Hpc & Hsie & _).
  { by rewrite Hmk. }
  exists hu. rewrite Hst, (rd_spp _ _ _ R) in Hmode by set_solver. rewrite Hst, (rd_spie _ _ _ R) in Hsie by set_solver.
  split_and!; try done; [by rewrite Hpc, Hepc, (rd_sepc _ _ _ R)| |].
  { intros r Hr. rewrite Ru, Hmk by done. apply (rd_regs _ _ _ R). unfold tf_off. lia. }
  intros hu' cause Hmu' Hsu' Hr' Tu Hkeep.
  assert (forall o, 0 <= o <= 32 -> load 8 (x_mem hu') (tf + o) = load 8 (k_mem s') (tf + o)) as Hl.
  { intros o Ho. apply load_ext. intros x Hx. rewrite Hkeep by (unfold within, PGSIZE; lia). by rewrite Hmu, Hmk. }
  destruct (uservec_ok (trap_s cause hu') (p_pagetable p) tf) as (h & Eh & _ & _ & Hsp & Htp & Hpc' & Hsatp & Hm' & _); [done|exact Hsu'|exact Tu|exact Hr'|].
  exists h. change (x_mem (trap_s cause hu')) with (x_mem hu') in *. rewrite Hpc', Hsp, Htp, Hsatp, !Hl by lia. destruct R. split_and!; done.
Qed.

(** ** kernelvec and swtch *)

(** kerneltrap() puts sepc and sstatus back, whatever ran in between. *)
Lemma kerneltrap_restores R w w' : kerneltrap R w = Ok tt w' ->
  c_sepc (k_csr (w_k w')) = c_sepc (k_csr (w_k w)) /\ c_sstatus (k_csr (w_k w')) = c_sstatus (k_csr (w_k w)).
Proof.
  unfold kerneltrap. intros (c & w1 & [= <- <-] & E)%bind_inv. destruct (_ =? 0); [done|].
  apply bind_inv in E as ([] & w1 & _ & E); [done|].
  apply bind_inv in E as (d & w2 & _ & E). destruct (d =? 0).
  - apply bind_inv in E as (? & ? & _ & E). apply bind_inv in E as (? & ? & _ & E). apply bind_inv in E as (? & ? & _ & E).
    discriminate E.
  - apply bind_inv in E as (me & w3 & _ & E). apply bind_inv in E as (? & w4 & _ & E).
    unfold mod_csr, modify in E. injection E as <-. split; reflexivity.
Qed.

(** C23: An interrupt in the kernel is transparent to the interrupted code:
    whatever kerneltrap() and the processes it switches to do, as long as it
    returns with its stack pointer, leaves the frame of kernelvec alone and puts
    sepc and sstatus back, the interrupted code goes on at the same instruction
    with all its registers but tp, which kernelvec hands to kerneltrap() as it
    is and leaves as kerneltrap() returned it, naming the hart it now runs on;
    kernelvec itself writes no memory but the frame. *)
Theorem kernelvec_transparent W cause h pa handler
  (Hm : x_mode h = ModeS) (A : area W (trap_s cause h) (u64 (x_reg h Reg.sp - 256)) pa KV_SIZE)
  (Hr : forall r, 0 <= x_reg h r < 2 ^ 64) (Hsp : 256 <= x_reg h Reg.sp)
  (Hh : forall h1, near W (trap_s cause h) h1 -> exists h2, handler h1 = Ok tt h2 /\
     x_reg h2 Reg.sp = x_reg h1 Reg.sp /\ area W h2 (u64 (x_reg h Reg.sp - 256)) pa KV_SIZE /\
     (forall a, within pa KV_SIZE a -> x_mem h2 a = x_mem h1 a) /\
     x_csr h2 Csr.sepc = x_csr h1 Csr.sepc /\ x_csr h2 Csr.mstatus = x_csr h1 Csr.mstatus) :
  exists h1 h2 h3, exec_all kernelvec_push (trap_s cause h) = Ok tt h1 /\ handler h1 = Ok tt h2 /\
    kernelvec handler (trap_s cause h) = Ok tt h3 /\
    (forall r, (1 <= r <= 31)%nat -> r <> Reg.tp -> x_reg h3 r = x_reg h r) /\
    x_reg h1 Reg.tp = x_reg h Reg.tp /\ x_reg h3 Reg.tp = x_reg h2 Reg.tp /\
    near W (trap_s cause h) h1 /\ x_mem h3 = x_mem h2 /\
    x_mode h3 = ModeS /\ x_pc h3 = x_pc h /\ Z.testbit (x_csr h3 Csr.mstatus) 1 = Z.testbit (x_csr h Csr.mstatus) 1.
Proof.
  destruct (kernelvec_push_ok W (trap_s cause h) pa [] A Hr Hsp) as (h1 & E1 & Hfr & Hreg & N & _).
  destruct (Hh h1 N) as (h2 & E2 & Hsp2 & A2 & Hkeep & Hepc & Hst).
  assert (x_reg h2 Reg.sp = u64 (x_reg h Reg.sp - 256)) as Hv.
  { rewrite Hsp2, Hreg, decide_True by done. change (x_reg (trap_s cause h)) with (x_reg h). rewrite u64_small; [done|specialize (Hr Reg.sp); lia]. }
  assert (u64 (x_reg h Reg.sp - 256) = x_reg h Reg.sp - 256) as Eu by (apply u64_small; specialize (Hr Reg.sp); lia).
  destruct (kernelvec_pop_ok W h2 _ pa (x_reg h) A2 Hv) as (h3 & E3 & R3 & Htp & Hmem & Hm3 & Hpc3 & Hs3); rewrite ?Eu; [lia|specialize (Hr Reg.sp); lia|lia|..].
  { intros r Hrr. etransitivity; [|exact (Hfr r Hrr)]. apply load_ext. intros x Hx. apply Hkeep. unfold within, KV_SIZE, kv_off in *. lia. }
  pose proof N as (Ec & _ & _). rewrite Hst, Ec in Hm3, Hs3. rewrite Hepc, Ec in Hpc3.
  exists h1, h2, h3. rewrite app_nil_r in E1. split_and!; [done|done| |done|by rewrite Hreg; apply Z.sub_0_r|done..| | |].
  - unfold kernelvec. run E1. run E2. exact E3.
  - rewrite Hm3. unfold trap_s. cbn -[fset setb Z.testbit]. rewrite !fset_ne, fset_eq by done. by rewrite testbit_setb, Hm by lia.
  - by rewrite Hpc3.
  - rewrite Hs3. unfold trap_s. cbn -[fset setb Z.testbit]. rewrite !fset_ne, fset_eq by done. by rewrite !testbit_setb by lia.
Qed.

(** C24: A process that has switched away with swtch() is resumed by a later
    swtch() to its context, on whatever hart: the first call continues with the
    callee-saved registers and the return address of the new context, and when
    a call of swtch() with the old context as its second argument finds it as it
    was saved, the first call returns, with all the callee-saved registers of
    its caller. *)
Theorem swtch_resumes W h old po new pn
  (Ao : area W h old po CTX_SIZE) (An : area W h new pn CTX_SIZE) (Hd : po + CTX_SIZE <= pn \/ pn + CTX_SIZE <= po)
  (H0 : x_reg h Reg.a0 = old) (H1 : x_reg h Reg.a1 = new) (Hr : forall r, 0 <= x_reg h r < 2 ^ 64) :
  exists h1, exec_all swtch_code h = Ok tt h1 /\ x_pc h1 = load 8 (x_mem h) (pn + 0) /\ context_at (x_mem h) pn (x_reg h1) /\
    forall W' g x px, area W' g x px CTX_SIZE -> area W' g old po CTX_SIZE -> px + CTX_SIZE <= po \/ po + CTX_SIZE <= px ->
      x_reg g Reg.a0 = x -> x_reg g Reg.a1 = old -> (forall r, 0 <= x_reg g r < 2 ^ 64) ->
      (forall a, within po CTX_SIZE a -> x_mem g a = x_mem h1 a) ->
      exists g1, exec_all swtch_code g = Ok tt g1 /\ x_pc g1 = x_reg h Reg.ra /\ forall r, r ∈ ctx_list.*1 -> x_reg g1 r = x_reg h r.
Proof.
  destruct (swtch_ok W h old po new pn Ao An Hd H0 H1 Hr) as (h1 & E1 & S1 & C1 & P1 & _).
  exists h1. split; [done|]. split; [rewrite P1; symmetry; apply C1; set_solver|]. split; [done|].
  intros W' g x px Ax Aold Hd' G0 G1 Gr Hkeep. destruct (swtch_ok W' g x px old po Ax Aold Hd' G0 G1 Gr) as (g1 & E & _ & C & P & _).
  assert (forall r, r ∈ ctx_list.*1 -> x_reg g1 r = x_reg h r) as Hall.
  { intros r Hin. apply list_elem_of_fmap in Hin as ([r' o] & -> & Hin). cbn [fst]. rewrite <- (C r' o Hin), <- (S1 r' o Hin).
    apply load_ext. intros a Ha. apply Hkeep. pose proof (proj1 (Forall_forall _ _) ctx_list_range _ Hin) as Hw. unfold within. cbn in Hw. lia. }
  exists g1. split; [done|]. split; [|done]. rewrite P. apply Hall. by apply (bool_decide_unpack _); vm_compute.
Qed.

(** ** From reset to main(), and the clock *)

(** C25: From reset to main(): entry.S and start() bring a hart to main() in
    supervisor mode, with the hart id in tp, with its own page of stack0 as its
    stack, with paging off and with the interrupts of the supervisor enabled
    and delegated; the timer is programmed and ready for timervec. *)
Theorem boot_reaches_main sy id h
  (Hsy : syms_ok sy) (Hid : 0 <= id < 8) (Hm : x_mode h = ModeM) (Hh : x_csr h Csr.mhartid = id)
  (Hst : 0 <= sy_stack0 sy /\ sy_stack0 sy + 4096 * 8 < 2 ^ 64)
  (Hd7 : Z.testbit (x_deleg h) 7 = false) (Hd1 : Z.testbit (x_deleg h) 1 = true) :
  exists h', _entry sy h = Ok tt h' /\ x_mode h' = ModeS /\ x_pc h' = sy_main sy /\ x_reg h' Reg.tp = id /\
    x_reg h' Reg.sp = sy_stack0 sy + 4096 * id + 4096 /\ x_csr h' Csr.satp = 0 /\ timer_ready sy id h' /\
    load 8 (x_mem h') (CLINT_MTIMECMP id) = u64 (load 8 (x_mem h) CLINT_MTIME + interval) /\
    (forall i, i ∈ [1; 5; 9] -> Z.testbit (x_deleg h) i = true ->
       Z.testbit (x_csr h' Csr.mideleg) i = true /\ Z.testbit (x_csr h' Csr.mie) i = true).
Proof.
  destruct Hst as [Hs0 Hs1]. destruct (entry_ok sy id Hid h Hm Hh Hs0 Hs1) as (f & E & Hsp & _).
  pose (h1 := h <| x_reg := f |>). destruct (start_ok sy id Hsy Hid h1 Hm Hh Hd7 Hd1) as (h' & Es & A1 & A2 & A3 & A4 & A5 & A6 & A7 & A8 & _).
  exists h'. split; [unfold _entry; by run E|]. rewrite A3. split_and!; done.
Qed.

(** C26: The clock keeps ticking: when start() has set up the timer and the
    timer interrupts the hart below machine mode, timervec returns to the
    interrupted code with every register as it was, has programmed the next
    timer interrupt one interval later and left a supervisor software interrupt
    pending; it has written nothing but its save area and the compare
    register, and is ready for the next interrupt. *)
Theorem timer_tick sy id h
  (Hsy : syms_ok sy) (Hid : 0 <= id < 8) (T : timer_ready sy id h) (Hm : x_mode h <> ModeM)
  (Hp : Z.testbit (x_csr h Csr.mip) 7 = true) (Hr : forall r, 0 <= x_reg h r < 2 ^ 64) :
  takes h 7 = Some ModeM /\ x_pc (trap_m (2 ^ 63 + 7) h) = sy_timervec sy /\
  exists h', exec_all timervec_code (trap_m (2 ^ 63 + 7) h) = Ok tt h' /\
    (forall r, x_reg h' r = x_reg h r) /\ x_mode h' = x_mode h /\ x_pc h' = x_pc h /\
    load 8 (x_mem h') (CLINT_MTIMECMP id) = u64 (load 8 (x_mem h) (CLINT_MTIMECMP id) + interval) /\
    Z.testbit (csr_read h' Csr.sip) 1 = true /\ timer_ready sy id h' /\
    csr_read h' Csr.sie = csr_read h Csr.sie /\ (forall i, i ∈ [1; 5; 8] -> Z.testbit (x_csr h' Csr.mstatus) i = Z.testbit (x_csr h Csr.mstatus) i) /\
    (forall a, ~ within (scratch_of sy id) 24 a -> ~ within (CLINT_MTIMECMP id) 8 a -> x_mem h' a = x_mem h a).
Proof.
  destruct (timervec_ok sy id Hsy Hid (2 ^ 63 + 7) h T Hm Hr) as (h' & E & R & M & P & L & S & T' & W & St & Cs).
  split; [unfold takes; rewrite Hp, (tr_mie _ _ _ T), (tr_machine _ _ _ T); by destruct (x_mode h)|].
  split; [apply (tr_vec _ _ _ T)|]. exists h'. split_and!; try done.
  - unfold csr_read. cbn. rewrite !Cs; [done|by apply (bool_decide_unpack _); vm_compute..].
  - intros i Hi. apply St; [set_solver by lia|set_solver].
Qed.

(** ** Instances *)

(** A page table with one mapping, of TRAPFRAME to the page at [0x80004000]. *)
Definition tramp_mem : mem :=
  let m := store 8 (fun _ => 0) (0x80001000 + 8 * 255) (Z.lor (PA2PTE 0x80002000) PTE_V) in
  let m := store 8 m (0x80002000 + 8 * 511) (Z.lor (PA2PTE 0x80003000) PTE_V) in
  store 8 m (0x80003000 + 8 * 510) (Z.lor (PA2PTE 0x80004000) (Z.lor (Z.lor PTE_R PTE_W) PTE_V)).

Lemma tramp_mapped : tf_mapped tramp_mem 0x80001000 0x80004000.
Proof.
  assert (node tramp_mem 0x80001000 1 TRAPFRAME = Some 0x80002000 /\ node tramp_mem 0x80001000 2 TRAPFRAME = Some 0x80003000) as [N1 N2]
    by (split; vm_compute; reflexivity).
  split; [split; [lia|by exists 0x80001]|split; [lia|by exists 0x80004]|vm_compute; reflexivity|].
  intros k p Hk. destruct k as [|[|[|k]]]; [intros [= <-]|rewrite N1; intros [= <-]|rewrite N2; intros [= <-]|lia]; left; by vm_compute.
Qed.

Definition core0 (m : mode) (mem : mem) : core :=
  mkCore (fun r => if (r <=? 31)%nat then Z.of_nat r * 1000 else 0) (fun c => if c =? Csr.satp then MAKE_SATP 0x80001000 else 0) mem m 0x1234 0x222.

Lemma core0_regs m mem r : 0 <= x_reg (core0 m mem) r < 2 ^ 64.
Proof. cbn. destruct (r <=? 31)%nat eqn:E; [apply Nat.leb_le in E|]; lia. Qed.

(** An instance of [user_trap_roundtrip]: a system call by a program whose
    register s3 holds 19000. *)
Lemma user_trap_roundtrip_witness : exists h1 h3,
  exec_all uservec_code (trap_s 8 (core0 ModeU tramp_mem)) = Ok tt h1 /\
  exec_all userret_code (h1 <| x_reg ::= fun f => fset f Reg.a0 (MAKE_SATP 0x80001000) |>) = Ok tt h3 /\
  x_mode h3 = ModeU /\ x_reg h3 Reg.s3 = 19000.
Proof.
  destruct (user_trap_roundtrip 8 (core0 ModeU tramp_mem) 0x80001000 0x80004000) as (h1 & E & Hm & _ & Hspp & _ & _ & _ & _ & _ & _ & _ & Hout & H).
  - reflexivity.
  - reflexivity.
  - exact tramp_mapped.
  - apply core0_regs.
  - destruct (H (h1 <| x_reg ::= fun f => fset f Reg.a0 (MAKE_SATP 0x80001000) |>)) as (h3 & E3 & Hm3 & _ & _ & _ & Hr).
    + exact Hm.
    + reflexivity.
    + eapply tf_mapped_near; [exact tramp_mapped|]. intros a Ha. apply Hout. unfold TF_SIZE, PGSIZE in *. lia.
    + exact Hspp.
    + reflexivity.
    + exists h1, h3. split; [exact E|]. split; [exact E3|]. split; [exact Hm3|]. rewrite Hr by (unfold Reg.s3; lia). reflexivity.
Defined.

(** An instance of [kernel_reentry]: the process of [one_proc]. *)
Lemma kernel_reentry_witness : exists satp s',
  usertrapret (mkWorld (one_proc <| k_procs ::= alter (fun p => p <| p_pagetable := 0x80001000 |> <| p_trapframe := 0x80004000 |>) 0%nat |>
    <| k_mem := tramp_mem |>) []) = Ok satp (mkWorld s' []).
Proof.
  destruct (kernel_reentry 0 (zero_proc <| p_state := RUNNING |> <| p_pid := 1 |> <| p_pagetable := 0x80001000 |> <| p_trapframe := 0x80004000 |>)
    (one_proc <| k_procs ::= alter (fun p => p <| p_pagetable := 0x80001000 |> <| p_trapframe := 0x80004000 |>) 0%nat |> <| k_mem := tramp_mem |>) [])
    as (satp & s' & E & _).
  - reflexivity.
  - reflexivity.
  - discriminate.
  - exact tramp_mapped.
  - exists satp, s'. exact E.
Defined.

(** An instance of [kernelvec_transparent]: without translation, with a handler
    that changes a0 and returns on another hart. *)
Lemma kernelvec_transparent_witness : exists h3,
  kernelvec (setr Reg.a0 7 ;; setr Reg.tp 1) (trap_s 5 ((core0 ModeS tramp_mem) <| x_csr := fun _ => 0 |> <| x_reg := fun _ => 0x80008000 |>)) = Ok tt h3 /\
  x_reg h3 Reg.a0 = 0x80008000 /\ x_reg h3 Reg.tp = 1.
Proof.
  set (h := (core0 ModeS tramp_mem) <| x_csr := fun _ => 0 |> <| x_reg := fun _ => 0x80008000 |>).
  assert (forall h1, x_csr h1 = x_csr (trap_s 5 h) -> x_mode h1 = ModeS -> area (within 0x80007f00 256) h1 0x80007f00 0x80007f00 KV_SIZE) as A.
  { intros h1 Ec Em. split; [|done|unfold KV_SIZE; lia|done]. intros h' o w (Ec' & Em' & _) _ _. unfold xlat. by rewrite Ec', Ec, Em', Em. }
  destruct (kernelvec_transparent (within 0x80007f00 256) 5 h 0x80007f00 (setr Reg.a0 7 ;; setr Reg.tp 1)) as (h1 & h2 & h3 & _ & E2 & E & R & _ & Htp & _).
  - reflexivity.
  - apply A; reflexivity.
  - intros r. cbn. lia.
  - cbn. lia.
  - intros h1 (Ec & Em & _). eexists. split; [reflexivity|]. split; [reflexivity|]. split; [apply A; [exact Ec|exact Em]|]. done.
  - exists h3. split; [exact E|]. rewrite R, Htp; [|unfold Reg.a0; lia|discriminate].
    split; [reflexivity|]. injection E2 as <-. reflexivity.
Defined.

(** An instance of [swtch_resumes]: without translation. *)
Lemma swtch_resumes_witness : exists h1,
  exec_all swtch_code ((core0 ModeM tramp_mem) <| x_reg ::= fun f => fset (fset f Reg.a0 0x1000) Reg.a1 0x2000 |>) = Ok tt h1 /\ x_pc h1 = 0.
Proof.
  destruct (swtch_resumes (fun _ => True) ((core0 ModeM tramp_mem) <| x_reg ::= fun f => fset (fset f Reg.a0 0x1000) Reg.a1 0x2000 |>) 0x1000 0x1000 0x2000 0x2000)
    as (h1 & E & Hpc & _).
  - apply area_m; [reflexivity|lia|unfold CTX_SIZE; lia|reflexivity].
  - apply area_m; [reflexivity|lia|unfold CTX_SIZE; lia|reflexivity].
  - unfold CTX_SIZE. lia.
  - reflexivity.
  - reflexivity.
  - intros r. cbn [x_reg upd upd_x_reg]. unfold fset. repeat case_decide; [lia|lia|apply core0_regs].
  - exists h1. split; [exact E|]. rewrite Hpc. vm_compute. reflexivity.
Defined.

Definition syms0 : start_syms := mkStartSyms 0x80000100 0x80000200 0x80009000 0x8000a000.

Lemma syms0_ok : syms_ok syms0.
Proof. split; [by exists (0x80009000 / 8)|split; vm_compute; discriminate]. Qed.

(** The hart 3 at reset. *)
Definition reset3 : core := (core0 ModeM (fun _ => 0)) <| x_csr := fun c => if c =? Csr.mhartid then 3 else 0 |>.

(** An instance of [boot_reaches_main]. *)
Lemma boot_reaches_main_witness : exists h', _entry syms0 reset3 = Ok tt h' /\ x_pc h' = 0x80000100 /\ x_reg h' Reg.tp = 3.
Proof.
  destruct (boot_reaches_main syms0 3 reset3) as (h' & E & _ & Hpc & Htp & _).
  - exact syms0_ok.
  - lia.
  - reflexivity.
  - reflexivity.
  - cbn. lia.
  - reflexivity.
  - reflexivity.
  - exists h'. split; [exact E|]. split; [exact Hpc|exact Htp].
Defined.

(** An instance of [timer_tick]: the first timer interrupt after start(). *)
Lemma timer_tick_witness : exists h h', start syms0 reset3 = Ok tt h /\
  exec_all timervec_code (trap_m (2 ^ 63 + 7) (h <| x_csr ::= fun f => fset f Csr.mip 128 |>)) = Ok tt h' /\
  load 8 (x_mem h') (CLINT_MTIMECMP 3) = 2000000.
Proof.
  destruct (start_ok syms0 3 syms0_ok ltac:(lia) reset3) as (h & E & Hm & _ & Hreg & _ & _ & T & Hl & _); [reflexivity..|].
  destruct (timer_tick syms0 3 (h <| x_csr ::= fun f => fset f Csr.mip 128 |>)) as (_ & _ & h' & E' & _ & _ & _ & Hl' & _).
  - exact syms0_ok.
  - lia.
  - destruct T. by split.
  - cbn. rewrite Hm. discriminate.
  - reflexivity.
  - intros r. cbn. rewrite Hreg. unfold fset. case_decide; [lia|apply core0_regs].
  - exists h, h'. split; [exact E|]. split; [exact E'|]. rewrite Hl'. cbn [x_mem upd upd_x_csr]. rewrite Hl. vm_compute. reflexivity.
Defined.
