(* ===== verification/Initcode.v ===== *)
(** user/initcode.S, the first code that runs in user space, and its machine
    code in kernel/proc.c; and user/usys.pl, the stubs through which programs
    make system calls: the number each one puts into a7 is the one under which
    the kernel has the function of that name.

    The instructions are those of the RV64 base set that this code uses; [decode]
    reads them from their 32-bit words as the unprivileged specification lays
    them out, and [uexec] executes one. *)

From S2P Require Import Prelude Layout Strings Kernel Vm Proc Exec Syscall Riscv.

(** ** Instructions *)

Inductive instr : Type :=
| Auipc (rd : nat) (imm : Z)
| Addi (rd rs : nat) (imm : Z)
| Jal (rd : nat) (imm : Z)
| Jalr (rd rs : nat) (imm : Z)
| Ecall.

(** [n] bits of a word from bit [lo] on. *)
Definition field (w lo n : Z) : Z := Z.land (Z.shiftr w lo) (Z.ones n).

Definition decode (w : Z) : option instr :=
  let rd := Z.to_nat (field w 7 5) in
  if field w 0 7 =? 0x17 then Some (Auipc rd (signed 32 (Z.shiftl (field w 12 20) 12)))
  else if (field w 0 7 =? 0x13) && (field w 12 3 =? 0) then
    Some (Addi rd (Z.to_nat (field w 15 5)) (signed 12 (field w 20 12)))
  else if field w 0 7 =? 0x6f then
    Some (Jal rd (signed 21 (Z.shiftl (field w 31 1) 20 + Z.shiftl (field w 12 8) 12 + Z.shiftl (field w 20 1) 11 + Z.shiftl (field w 21 10) 1)))
  else if (field w 0 7 =? 0x67) && (field w 12 3 =? 0) then
    Some (Jalr rd (Z.to_nat (field w 15 5)) (signed 12 (field w 20 12)))
  else if w =? 0x73 then Some Ecall
  else None.

(** ** initcode.S *)

(** la rd, sym: an address relative to the instruction at [pc]; li; jal. *)
Definition la (rd : nat) (pc sym : Z) : list instr := [Auipc rd 0; Addi rd rd (sym - pc)].
Definition li (rd : nat) (imm : Z) : list instr := [Addi rd Reg.zero imm].

Definition SYS_exit : Z := 2.
Definition SYS_exec : Z := 7.

(** The labels exit, init and argv. *)
Definition l_exit : Z := 24.
Definition l_init : Z := 36.
Definition l_argv : Z := 43.

Definition initcode_S : list instr :=
  la Reg.a0 0 l_init ++ la Reg.a1 8 l_argv ++ li Reg.a7 SYS_exec ++ [Ecall] ++
  (* exit: *) li Reg.a7 SYS_exit ++ [Ecall] ++ [Jal Reg.ra (l_exit - 32)].

(** .string "/init\0"; the two words of argv *)
Definition initdata : list Z := bytes "/init" ++ [0; 0] ++ le_bytes 4 l_init ++ le_bytes 4 0.

(** ** Execution *)

Record ucore : Type := mkUcore {
  u_pc : Z;
  u_reg : nat -> Z;
}.

Definition ureg (h : ucore) (r : nat) : Z := if (r =? 0)%nat then 0 else u_reg h r.

(** One instruction other than ecall. *)
Definition uexec (i : instr) (h : ucore) : option ucore :=
  let set rd v pc := Some (mkUcore (u64 pc) (if (rd =? 0)%nat then u_reg h else fset (u_reg h) rd (u64 v))) in
  match i with
  | Auipc rd imm => set rd (u_pc h + imm) (u_pc h + 4)
  | Addi rd rs imm => set rd (ureg h rs + imm) (u_pc h + 4)
  | Jal rd imm => set rd (u_pc h + 4) (u_pc h + imm)
  | Jalr rd rs imm => set rd (u_pc h + 4) (Z.land (ureg h rs + imm) (-2))
  | Ecall => None
  end.

(** Up to the next system call: the state at the ecall. *)
Fixpoint to_ecall (fuel : nat) (m : mem) (h : ucore) : option ucore :=
  match decode (load 4 m (u_pc h)) with
  | Some Ecall => Some h
  | Some i => match fuel with O => None | S f => h' ← uexec i h; to_ecall f m h' end
  | None => None
  end.

(** The system call at [h] returned [r]: the next instruction, a0 being [r]. *)
Definition returned (h : ucore) (r : Z) : ucore := mkUcore (u_pc h + 4) (fset (u_reg h) Reg.a0 r).

(** ** What it does *)

(** The program is in memory from address 0 on, as uvmfirst() puts it into a
    page of zeroes. *)
Definition has_initcode (m : mem) : Prop := mread m 0 (Z.to_nat PGSIZE) = initcode ++ replicate (Z.to_nat PGSIZE - length initcode) 0.

Lemma has_byte m a : has_initcode m -> 0 <= a < PGSIZE -> m a = nth (Z.to_nat a) initcode 0.
Proof.
  intros H Ha. assert (mread m 0 (Z.to_nat PGSIZE) !! Z.to_nat a = Some (m a)) as E.
  { unfold mread. rewrite list_lookup_fmap, lookup_seq_lt by lia. cbn. do 2 f_equal. lia. }
  rewrite H in E. apply lookup_app_Some in E as [E|[Hge E]].
  - symmetry. by apply nth_lookup_Some.
  - apply lookup_replicate in E as [-> _]. by rewrite nth_overflow.
Qed.

Lemma has_load n m a : has_initcode m -> 0 <= a -> a + Z.of_nat n <= PGSIZE ->
  load n m a = le_val ((fun i : nat => nth (Z.to_nat (a + Z.of_nat i)) initcode 0) <$> seq 0 n).
Proof.
  intros H Ha Hn. unfold load, mread. f_equal. apply list_fmap_ext. intros i x [-> Hi]%lookup_seq. apply has_byte; [done|lia].
Qed.

(** The machine code in proc.c is the program of initcode.S. *)
Lemma initcode_assembled :
  (fun i : nat => decode (rdn 4 initcode (4 * i))) <$> seq 0 (length initcode_S) = Some <$> initcode_S /\
  take (length initdata) (drop (4 * length initcode_S) initcode) = initdata.
Proof. split; vm_compute; reflexivity. Qed.

Lemma fetch m i ins : has_initcode m -> initcode_S !! i = Some ins -> decode (load 4 m (4 * Z.of_nat i)) = Some ins.
Proof.
  intros H Hi. pose proof (lookup_lt_Some _ _ _ Hi) as Hlt. change (length initcode_S) with 9%nat in Hlt. rewrite has_load by (done || unfold PGSIZE; lia).
  do 9 (destruct i as [|i]; [vm_compute in Hi; rewrite <- Hi; vm_compute; reflexivity|]). lia.
Qed.

(** The program runs up to an ecall. *)
Lemma run_step f m h i ins h' : has_initcode m -> u_pc h = 4 * Z.of_nat i -> initcode_S !! i = Some ins -> uexec ins h = Some h' ->
  to_ecall (S f) m h = to_ecall f m h'.
Proof. intros H Hp Hi Hx. cbn [to_ecall]. rewrite Hp, (fetch m i ins H Hi). destruct ins; [by cbn [mbind option_bind]; rewrite Hx..|done]. Qed.

Lemma run_stop f m h i : has_initcode m -> u_pc h = 4 * Z.of_nat i -> initcode_S !! i = Some Ecall -> to_ecall f m h = Some h.
Proof. intros H Hp Hi. destruct f; cbn [to_ecall]; by rewrite Hp, (fetch m i _ H Hi). Qed.

Ltac urun H i :=
  match goal with |- to_ecall (S ?f) ?m ?h = _ => etransitivity; [eapply (run_step f m h i); [exact H|reflexivity|reflexivity|reflexivity]|] end.

Lemma initcode_exec m regs : has_initcode m ->
  exists f, to_ecall 5 m (mkUcore 0 regs) = Some (mkUcore 20 f) /\ f Reg.a7 = SYS_exec /\ f Reg.a0 = l_init /\ f Reg.a1 = l_argv.
Proof.
  intros H. eexists. split; [urun H 0%nat; urun H 1%nat; urun H 2%nat; urun H 3%nat; urun H 4%nat; by apply (run_stop _ _ _ 5)|]. done.
Qed.

(** exit: li a7, SYS_exit; ecall; and jal exit, back to it. *)
Lemma initcode_exit m regs : has_initcode m ->
  (exists f, to_ecall 5 m (mkUcore 24 regs) = Some (mkUcore 28 f) /\ f Reg.a7 = SYS_exit) /\
  exists f, to_ecall 5 m (mkUcore 32 regs) = Some (mkUcore 28 f) /\ f Reg.a7 = SYS_exit.
Proof.
  intros H. split; eexists.
  - split; [urun H 6%nat; by apply (run_stop _ _ _ 7)|done].
  - split; [urun H 8%nat; urun H 6%nat; by apply (run_stop _ _ _ 7)|done].
Qed.

(** C27: the first user program starts init: when the machine code of proc.c, the
    program of initcode.S, is at address 0 in a page of zeroes, the process
    makes the system call exec with the path "/init" and the arguments "/init"
    and a null pointer; should it return, the process calls exit, and calls it
    again whenever that returns. *)
Theorem initcode_starts_init m regs r pad (H : has_initcode m) :
  exists f, to_ecall 5 m (mkUcore 0 regs) = Some (mkUcore 20 f) /\ syscalls pad (f Reg.a7) = Some sys_exec /\
    mread m (f Reg.a0) 6 = bytes "/init" ++ [0] /\ load 8 m (f Reg.a1) = f Reg.a0 /\ load 8 m (f Reg.a1 + 8) = 0 /\
    exists g, to_ecall 5 m (returned (mkUcore 20 f) r) = Some (mkUcore 28 g) /\ syscalls pad (g Reg.a7) = Some sys_exit /\
    forall g' r', exists g'', to_ecall 5 m (returned (mkUcore 28 g') r') = Some (mkUcore 28 g'') /\ syscalls pad (g'' Reg.a7) = Some sys_exit.
Proof.
  destruct (initcode_exec m regs H) as (f & E & E7 & E0 & E1). exists f. rewrite E7, E0, E1. split_and!; [done|done| | | |].
  - unfold mread. cbn [seq fmap list_fmap]. by rewrite !(has_byte m) by (done || unfold l_init, PGSIZE; lia).
  - rewrite has_load by (done || unfold l_argv, PGSIZE; lia). reflexivity.
  - rewrite has_load by (done || unfold l_argv, PGSIZE; lia). reflexivity.
  - destruct (initcode_exit m (fset f Reg.a0 r) H) as [(g & Eg & Eg7) _]. exists g. rewrite Eg7. split_and!; [done|done|].
    intros g' r'. destruct (initcode_exit m (fset g' Reg.a0 r') H) as [_ (g'' & Eg'' & Eg7'')]. exists g''. by rewrite Eg7''.
Qed.

(** An instance of [initcode_starts_init]. *)
Lemma initcode_starts_init_witness : exists f,
  to_ecall 5 (mwrite (fun _ => 0) 0 initcode) (mkUcore 0 (fun _ => 0)) = Some (mkUcore 20 f) /\ f Reg.a7 = 7.
Proof.
  destruct (initcode_starts_init (mwrite (fun _ => 0) 0 initcode) (fun _ => 0) 0 []) as (f & E & _).
  - vm_compute. reflexivity.
  - exists f. split; [exact E|]. vm_compute in E. injection E as <-. reflexivity.
Defined.

(** * The stubs of the system calls: user/usys.pl and kernel/syscall.h *)

(** ** syscall.h: SYS_name for each name *)

Definition SYS : list (string * Z) :=
  [("fork"%string, 1); ("exit"%string, 2); ("wait"%string, 3); ("pipe"%string, 4); ("read"%string, 5); ("kill"%string, 6); ("exec"%string, 7);
   ("fstat"%string, 8); ("chdir"%string, 9); ("dup"%string, 10); ("getpid"%string, 11); ("sbrk"%string, 12); ("sleep"%string, 13); ("uptime"%string, 14);
   ("open"%string, 15); ("write"%string, 16); ("mknod"%string, 17); ("unlink"%string, 18); ("link"%string, 19); ("mkdir"%string, 20); ("close"%string, 21)].

Fixpoint SYS_ (l : list (string * Z)) (name : string) : option Z :=
  match l with
  | [] => None
  | (x, n) :: l => if String.eqb x name then Some n else SYS_ l name
  end.

(** ** usys.pl *)

(** li a7, SYS_name; ecall; ret *)
Definition entry (name : string) : option (list instr) :=
  n ← SYS_ SYS name; Some (li Reg.a7 n ++ [Ecall; Jalr Reg.zero Reg.ra 0]).

Definition entries : list string :=
  ["fork"; "exit"; "wait"; "pipe"; "read"; "write"; "close"; "kill"; "exec"; "open"; "mknod"; "unlink"; "fstat"; "link";
   "mkdir"; "chdir"; "dup"; "getpid"; "sbrk"; "sleep"; "uptime"]%string.

(** ** A call *)

(** Running straight-line code up to its ecall: the state there and what is left. *)
Fixpoint line_to_ecall (l : list instr) (h : ucore) : option (ucore * list instr) :=
  match l with
  | [] => None
  | Ecall :: rest => Some (h, rest)
  | i :: rest => h' ← uexec i h; line_to_ecall rest h'
  end.

(** The kernel's functions by name. *)
Definition handler (pad : list Z) (name : string) : option (K Z) :=
  match name with
  | "fork" => Some sys_fork | "exit" => Some sys_exit | "wait" => Some sys_wait | "pipe" => Some sys_pipe
  | "read" => Some sys_read | "kill" => Some sys_kill | "exec" => Some sys_exec | "fstat" => Some (sys_fstat pad)
  | "chdir" => Some sys_chdir | "dup" => Some sys_dup | "getpid" => Some sys_getpid | "sbrk" => Some sys_sbrk
  | "sleep" => Some sys_sleep | "uptime" => Some sys_uptime | "open" => Some sys_open | "write" => Some sys_write
  | "mknod" => Some sys_mknod | "unlink" => Some sys_unlink | "link" => Some sys_link | "mkdir" => Some sys_mkdir
  | "close" => Some sys_close | _ => None
  end%string.

(** The state a stub makes its call in. *)
Definition at_ecall (n : Z) (h : ucore) : ucore := mkUcore (u64 (u_pc h + 4)) (fset (u_reg h) Reg.a7 (u64 n)).

Lemma entry_run name n : SYS_ SYS name = Some n -> exists l, entry name = Some l /\
  forall h, line_to_ecall l h = Some (at_ecall n h, [Jalr Reg.zero Reg.ra 0]).
Proof. intros E. unfold entry. rewrite E. by eexists. Qed.

Lemma entries_numbered pad : Forall (fun name => exists n f, SYS_ SYS name = Some n /\ u64 n = n /\ syscalls pad n = Some f /\ handler pad name = Some f) entries.
Proof. unfold entries. repeat (apply Forall_cons; split; [by eexists _, _|]). constructor. Qed.

(** A program that calls the function [name] of the library reaches the kernel
    function sys_name with its arguments in the registers it put them in, and
    goes on at its return address with the result of the call in a0. *)
Theorem stubs_call pad name : name ∈ entries -> exists l f, entry name = Some l /\ handler pad name = Some f /\
  forall h, exists h', line_to_ecall l h = Some (h', [Jalr Reg.zero Reg.ra 0]) /\ syscalls pad (u_reg h' Reg.a7) = Some f /\
    (forall r, r <> Reg.a7 -> u_reg h' r = u_reg h r) /\
    forall res, uexec (Jalr Reg.zero Reg.ra 0) (returned h' res) = Some (mkUcore (u64 (Z.land (u_reg h Reg.ra) (-2))) (fset (u_reg h') Reg.a0 res)).
Proof.
  intros Hn. destruct (proj1 (Forall_forall _ _) (entries_numbered pad) name Hn) as (n & f & E & Eu & Ef & Eh).
  destruct (entry_run name n E) as (l & El & Hl). exists l, f. split_and!; [done|done|]. intros h. exists (at_ecall n h). split_and!; [apply Hl| | |].
  - unfold at_ecall. cbn [u_reg]. rewrite fset_eq. by rewrite Eu.
  - intros r Hr. unfold at_ecall. cbn [u_reg]. by rewrite fset_ne.
  - intros res. cbn [uexec returned u_pc u_reg at_ecall ureg Nat.eqb Reg.zero Reg.ra]. rewrite Z.add_0_r. done.
Qed.
