(* ===== verification/Locks.v ===== *)
(** Lock discipline of the whole kernel: every routine that returns does so
    with exactly the spinlocks it was entered with (or, for the few routines
    whose contract says otherwise, with the documented difference), whatever
    the rest of the system does while it sleeps. *)

From S2P Require Import Prelude Layout Strings Kernel Sched Printf Kalloc Vm Bio Virtio Log Fs Dir Console Pipe File Proc Exec Syscall Trap.

(** [lk h m q]: entered with the locks [h], [m] can only return [a] with the
    locks [q a]. *)
Definition lk {A} (h : list lockid) (m : K A) (q : A -> list lockid) : Prop :=
  forall w a w', k_held (w_k w) = h -> m w = Ok a w' -> k_held (w_k w') = q a.

(** [m] gives back every lock it takes and keeps every lock it finds. *)
Definition bal {A} (m : K A) : Prop := forall h, lk h m (fun _ => h).

(** ** Rules *)

Lemma lk_bind {A B} h (m : K A) (k : A -> K B) r q :
  lk h m r -> (forall a, lk (r a) (k a) q) -> lk h (bind m k) q.
Proof. intros Hm Hk w b w' Hh (a & w1 & H1 & H2)%bind_inv. eapply Hk; eauto. Qed.

Lemma lk_bal {A B} h (m : K A) (k : A -> K B) q :
  bal m -> (forall a, lk h (k a) q) -> lk h (bind m k) q.
Proof. intros Hm Hk. eapply lk_bind; [apply Hm|auto]. Qed.

Lemma lk_assoc {A B C} h (m : K A) (f : A -> K B) (g : B -> K C) q :
  lk h (bind m (fun a => bind (f a) g)) q -> lk h (bind (bind m f) g) q.
Proof. intros H w a w' Hh. rewrite bind_assoc. by apply H. Qed.

Lemma lk_ret {A} h (a : A) q : q a = h -> lk h (ret a) q.
Proof. intros Hq w b w' Hh [= <- <-]. by rewrite Hq. Qed.

Lemma lk_acquire {B} h l (k : unit -> K B) q :
  (l ∉ h -> lk (l :: h) (k tt) q) -> lk h (bind (acquire l) k) q.
Proof.
  intros Hk w b w' Hh (a & w1 & H1 & H2)%bind_inv.
  destruct (decide (l ∈ k_held (w_k w))) as [Hin|Hin].
  { by rewrite acquire_panic in H1. }
  rewrite acquire_ok in H1 by done. injection H1 as <- <-.
  eapply Hk; [by rewrite <- Hh| |exact H2]. cbn. by rewrite Hh.
Qed.

Lemma lk_release_any {B} h l (k : unit -> K B) q :
  lk (filter (fun x => x <> l) h) (k tt) q -> lk h (bind (release l) k) q.
Proof.
  intros Hk w b w' Hh (a & w1 & H1 & H2)%bind_inv.
  destruct (decide (l ∈ k_held (w_k w))) as [Hin|Hin].
  - rewrite release_ok in H1 by done. injection H1 as <- <-. eapply Hk; [|exact H2].
    cbn. by rewrite Hh.
  - by rewrite release_panic in H1.
Qed.

Lemma lk_release {B} h l (k : unit -> K B) q :
  l ∉ h -> lk h (k tt) q -> lk (l :: h) (bind (release l) k) q.
Proof. intros. apply lk_release_any. by rewrite filter_lock_cons. Qed.

(** The second lock taken stays, the first one is given back. *)
Lemma lk_release_2 {B} h l l' (k : unit -> K B) q :
  l ∉ l' :: h -> l' <> l -> lk (l' :: h) (k tt) q -> lk (l' :: l :: h) (bind (release l) k) q.
Proof.
  intros. apply lk_release_any. rewrite filter_cons_True by done.
  rewrite filter_lock_cons; [done|]. set_solver.
Qed.

Lemma lk_last {A} h (m : K A) q : lk h (bind m ret) q -> lk h m q.
Proof.
  intros H w a w' Hh Hm. apply (H w a w' Hh). unfold bind, ret. by rewrite Hm.
Qed.

Lemma lk_never {A} h (m : K A) q : (forall w a w', m w <> Ok a w') -> lk h m q.
Proof. intros H w a w' _ E. by apply H in E. Qed.

Lemma lk_if {A} h (b : bool) (m1 m2 : K A) q : lk h m1 q -> lk h m2 q -> lk h (if b then m1 else m2) q.
Proof. by destruct b. Qed.

Lemma lk_world {A} h (f : world -> K A) q :
  (forall w, lk h (f w) q) -> lk h (fun w => f w w) q.
Proof. intros H w a w' Hh E. by eapply (H w). Qed.

(** ** Primitive commands *)

Lemma bal_intro {A} (m : K A) : (forall h, lk h m (fun _ => h)) -> bal m.
Proof. done. Qed.

Lemma bal_ret {A} (a : A) : bal (ret a).
Proof. intros h. by apply lk_ret. Qed.
Lemma bal_panic {A} msg : bal (panic msg : K A).
Proof. intros h. by apply lk_never. Qed.
Lemma bal_fault {A} : bal (fault : K A).
Proof. intros h. by apply lk_never. Qed.
Lemma bal_diverge {A} : bal (diverge : K A).
Proof. intros h. by apply lk_never. Qed.
Lemma bal_gets {A} (f : kernel -> A) : bal (gets f).
Proof. by intros h w a w' Hh [= <- <-]. Qed.
Lemma bal_modify f : (forall s, k_held (f s) = k_held s) -> bal (modify f).
Proof. intros Hf h w a w' Hh [= <- <-]. cbn. by rewrite Hf. Qed.
Lemma bal_bind {A B} (m : K A) (k : A -> K B) : bal m -> (forall a, bal (k a)) -> bal (bind m k).
Proof. intros Hm Hk h. apply lk_bal; [done|]. intros a. apply Hk. Qed.
Lemma bal_if {A} (b : bool) (m1 m2 : K A) : bal m1 -> bal m2 -> bal (if b then m1 else m2).
Proof. by destruct b. Qed.
Lemma bal_waiting {A} (loop : nat -> K A) : (forall n, bal (loop n)) -> bal (waiting loop).
Proof. intros H h w a w' Hh E. eapply H; eauto. Qed.
Lemma bal_for_loop n : forall i (body : nat -> K unit), (forall j, bal (body j)) -> bal (for_loop n i body).
Proof.
  induction n as [|n IH]; intros i body Hb; simpl; [apply bal_ret|].
  apply bal_bind; auto.
Qed.

Create HintDb lk discriminated.
#[export] Hint Resolve bal_ret bal_panic bal_fault bal_diverge bal_gets : lk.

(** ** Automation *)

(** [l ∉ h] for locks acquired one after the other. *)
Ltac lk_side := first [assumption | set_solver].

Ltac lk_step :=
  match goal with
  | |- lk _ (bind (bind _ _) _) _ => apply lk_assoc
  | |- lk _ (bind (ret _) _) _ => eapply lk_bal; [apply bal_ret|]; intros ?
  | |- lk _ (bind (acquire _) _) _ => apply lk_acquire; intros ?
  | |- lk (?l :: _) (bind (release ?l) _) _ => apply lk_release; [lk_side|]
  | |- lk (_ :: ?l :: _) (bind (release ?l) _) _ => apply lk_release_2; [lk_side|set_solver|]
  | |- lk _ (panic _) _ => by apply lk_never
  | |- lk _ fault _ => by apply lk_never
  | |- lk _ diverge _ => by apply lk_never
  | |- lk _ (fun w => Blocked w) _ => by apply lk_never
  | |- lk _ (acquire _) _ => apply lk_last
  | |- lk _ (release _) _ => apply lk_last
  | |- lk _ (bind (modify _) _) _ => eapply lk_bal; [apply bal_modify; done|]; intros ?
  | |- lk _ (bind ?m _) _ => eapply lk_bal; [solve [auto 2 with lk]|]; intros ?
  | |- lk _ (bind (if ?b then _ else _) _) _ => destruct b
  | |- lk _ (bind (match ?x with _ => _ end) _) _ => destruct x
  | |- lk _ (ret _) _ => apply lk_ret; cbn; congruence
  | |- lk _ (if ?b then _ else _) _ => destruct b
  | |- lk _ (match ?x with _ => _ end) _ => destruct x eqn:?
  | |- lk ?h ?m _ =>
      let X := fresh in assert (bal m) as X by (first [by apply bal_modify | auto 2 with lk]); apply (X h)
  end.

Ltac lk_go := cbn [negb]; repeat (lk_step; cbn [negb]).

(** For a routine without a loop: unfold it and run the rules. *)
Ltac bal_go := intros; apply bal_intro; intros h; lk_go.

(** ** Tables *)

Lemma bal_index {A} (l : list A) i : bal (index l i).
Proof. unfold index. destruct (l !! i); auto with lk. Qed.
#[export] Hint Resolve bal_index : lk.

Lemma bal_get_proc i : bal (get_proc i).
Proof. unfold get_proc. bal_go. Qed.
Lemma bal_get_buf i : bal (get_buf i).
Proof. unfold get_buf. bal_go. Qed.
Lemma bal_get_inode i : bal (get_inode i).
Proof. unfold get_inode. bal_go. Qed.
Lemma bal_get_file i : bal (get_file i).
Proof. unfold get_file. bal_go. Qed.
Lemma bal_get_pipe i : bal (get_pipe i).
Proof. unfold get_pipe. bal_go. Qed.
#[export] Hint Resolve bal_get_proc bal_get_buf bal_get_inode bal_get_file bal_get_pipe : lk.

Lemma bal_mod_proc i f : bal (mod_proc i f).
Proof. unfold mod_proc. bal_go. Qed.
Lemma bal_mod_buf i f : bal (mod_buf i f).
Proof. unfold mod_buf. bal_go. Qed.
Lemma bal_mod_inode i f : bal (mod_inode i f).
Proof. unfold mod_inode. bal_go. Qed.
Lemma bal_mod_file i f : bal (mod_file i f).
Proof. unfold mod_file. bal_go. Qed.
Lemma bal_mod_pipe i f : bal (mod_pipe i f).
Proof. unfold mod_pipe. bal_go. Qed.
Lemma bal_mod_log f : bal (mod_log f).
Proof. by apply bal_modify. Qed.
Lemma bal_mod_mem f : bal (mod_mem f).
Proof. by apply bal_modify. Qed.
#[export] Hint Resolve bal_mod_proc bal_mod_buf bal_mod_inode bal_mod_file bal_mod_pipe bal_mod_log
  bal_mod_mem : lk.

(** ** proc.c, part 1 *)

Lemma bal_curproc : bal curproc.
Proof. unfold curproc, myproc. bal_go. Qed.
#[export] Hint Resolve bal_curproc : lk.

Lemma lk_sched_check h :
  lk h sched_check (fun i => [LkProc i]) /\ bal sched_check.
Proof.
  assert (forall w i w', sched_check w = Ok i w' -> w' = w /\ k_held (w_k w) = [LkProc i]) as H.
  { intros w i w' (i' & w1 & H1 & H2)%bind_inv. unfold curproc, myproc, bind, gets in H1.
    destruct (k_cur (w_k w)); [|done]. injection H1 as -> ->.
    apply bind_inv in H2 as (b & w2 & [= <- <-] & H3).
    destruct (bool_decide_reflect (LkProc i' ∈ k_held (w_k w1))) as [Hin|]; [|done].
    apply bind_inv in H3 as (l & w2 & [= <- <-] & H4).
    destruct (Nat.eqb_spec (length (k_held (w_k w1))) 1) as [Hl|]; [|done]. cbn [negb] in H4.
    apply bind_inv in H4 as (p & w2 & H4 & H5).
    assert (w2 = w1) as ->.
    { unfold get_proc, bind, gets, index in H4. destruct (_ !! _); [|done]. by injection H4. }
    case_decide; [done|]. apply bind_inv in H5 as (on & w2 & [= <- <-] & H6).
    destruct (_ && _); [done|]. injection H6 as <- <-. split; [done|].
    destruct (k_held (w_k w1)) as [|x [|]]; try done. f_equal. set_solver. }
  split.
  - intros w i w' Hh E. apply H in E as [-> E]. done.
  - intros h' w i w' Hh E. by apply H in E as [-> _].
Qed.

Lemma lk_others_run : bal others_run.
Proof. intros h w a w' Hh. unfold others_run. destruct (w_env w); [done|]. by intros [= <- <-]. Qed.
#[export] Hint Resolve lk_others_run : lk.

Lemma lk_swtch i : lk [LkProc i] (swtch i) (fun _ => [LkProc i]).
Proof. unfold swtch, sched_return, sched_dispatch. lk_go. Qed.

Lemma bal_sched : bal sched.
Proof.
  intros h w a w' Hh (i & w1 & H1 & H2)%bind_inv.
  pose proof (proj1 (lk_sched_check h) _ _ _ Hh H1) as E.
  pose proof (proj2 (lk_sched_check h) h _ _ _ Hh H1) as E2. cbn in E2.
  assert (h = [LkProc i]) as -> by congruence.
  assert (lk [LkProc i] (let* intena := gets k_sie in
    swtch i ;; modify (fun s => s <| k_sie := intena |>)) (fun _ => [LkProc i])) as L.
  { apply lk_bal; [auto with lk|]. intros sie. eapply lk_bind; [apply lk_swtch|].
    intros []. by apply bal_modify. }
  by apply (L w1 a w').
Qed.
#[export] Hint Resolve bal_sched : lk.

Lemma bal_yield : bal yield.
Proof. unfold yield. bal_go. Qed.

(** sleep() gives its lock back and takes it again. *)
Lemma lk_sleep h ch l : l ∉ h -> lk (l :: h) (sleep ch l) (fun _ => l :: h).
Proof. intros Hl. unfold sleep. lk_go. Qed.

Ltac lk_step ::=
  match goal with
  | |- lk _ (bind (bind _ _) _) _ => apply lk_assoc
  | |- lk _ (bind (ret _) _) _ => eapply lk_bal; [apply bal_ret|]; intros ?
  | |- lk _ (bind (acquire _) _) _ => apply lk_acquire; intros ?
  | |- lk (?l :: _) (bind (release ?l) _) _ => apply lk_release; [lk_side|]
  | |- lk (_ :: ?l :: _) (bind (release ?l) _) _ => apply lk_release_2; [lk_side|set_solver|]
  | |- lk (?l :: _) (bind (sleep _ ?l) _) _ => eapply lk_bind; [apply lk_sleep; lk_side|]; intros ?
  | |- lk _ (panic _) _ => by apply lk_never
  | |- lk _ fault _ => by apply lk_never
  | |- lk _ diverge _ => by apply lk_never
  | |- lk _ (fun w => Blocked w) _ => by apply lk_never
  | |- lk _ (acquire _) _ => apply lk_last
  | |- lk _ (release _) _ => apply lk_last
  | |- lk _ (bind (modify _) _) _ => eapply lk_bal; [apply bal_modify; done|]; intros ?
  | |- lk _ (bind ?m _) _ => eapply lk_bal; [solve [auto 2 with lk]|]; intros ?
  | |- lk _ (bind (if ?b then _ else _) _) _ => destruct b
  | |- lk _ (bind (match ?x with _ => _ end) _) _ => destruct x
  | |- lk _ (ret _) _ => apply lk_ret; cbn; congruence
  | |- lk _ (if ?b then _ else _) _ => destruct b
  | |- lk _ (match ?x with _ => _ end) _ => destruct x eqn:?
  | |- lk ?h ?m _ =>
      let X := fresh in assert (bal m) as X by (first [by apply bal_modify | auto 2 with lk]); apply (X h)
  end.

(** For a loop: induction on its fuel. *)
Ltac bal_loop n := induction n as [|n IH]; intros; cbn; bal_go.

Lemma bal_wakeup_one ch i : bal (wakeup_one ch i).
Proof. unfold wakeup_one, myproc. bal_go. Qed.
Lemma bal_wakeup ch : bal (wakeup ch).
Proof. apply bal_for_loop, bal_wakeup_one. Qed.
Lemma bal_setkilled i : bal (setkilled i).
Proof. unfold setkilled. bal_go. Qed.
Lemma bal_killed i : bal (killed i).
Proof. unfold killed. bal_go. Qed.
Lemma bal_for_ret {R} n : forall i (body : nat -> K (option R)), (forall j, bal (body j)) -> bal (for_ret n i body).
Proof. induction n as [|n IH]; intros i body Hb; cbn; bal_go. Qed.
Lemma bal_kill_one pid i : bal (kill_one pid i).
Proof. unfold kill_one. bal_go. Qed.
Lemma bal_kill pid : bal (kill pid).
Proof. unfold kill. pose proof (bal_for_ret NPROC 0 (kill_one pid) (bal_kill_one pid)). bal_go. Qed.
#[export] Hint Resolve bal_yield bal_wakeup bal_setkilled bal_killed bal_kill : lk.

(** ** printf.c, uart.c *)

Lemma bal_mod_uart f : bal (mod_uart f).
Proof. by apply bal_modify. Qed.
#[export] Hint Resolve bal_mod_uart : lk.
Lemma bal_read_lsr : bal read_lsr.
Proof. unfold read_lsr. bal_go. Qed.
Lemma bal_write_thr c : bal (write_thr c).
Proof. by apply bal_modify. Qed.
#[export] Hint Resolve bal_read_lsr bal_write_thr : lk.
Lemma bal_wait_tx n : bal (wait_tx n).
Proof. bal_loop n. Qed.
Lemma bal_uartputc_sync c : bal (uartputc_sync c).
Proof.
  unfold uartputc_sync. apply bal_bind; [|auto with lk].
  intros h w a w' Hh E. by eapply bal_wait_tx.
Qed.
#[export] Hint Resolve bal_uartputc_sync : lk.
Lemma bal_consputc c : bal (consputc c).
Proof. unfold consputc. bal_go. Qed.
#[export] Hint Resolve bal_consputc : lk.
Lemma bal_consputs l : bal (consputs l).
Proof. bal_loop l. Qed.
#[export] Hint Resolve bal_consputs : lk.
Lemma bal_printint x b s : bal (printint x b s).
Proof. unfold printint. auto with lk. Qed.
Lemma bal_printptr_loop n : forall x, bal (printptr_loop n x).
Proof. bal_loop n. Qed.
#[export] Hint Resolve bal_printint bal_printptr_loop : lk.
Lemma bal_printptr x : bal (printptr x).
Proof. unfold printptr. bal_go. Qed.
#[export] Hint Resolve bal_printptr : lk.
Lemma bal_printf_loop n : forall fmt ap, (length fmt <= n)%nat -> bal (printf_loop fmt ap).
Proof.
  induction n as [|n IH]; intros [|c [|c' fmt]] ap Hn; cbn in Hn; cbn [printf_loop]; try lia;
    try (assert (forall ap, bal (printf_loop fmt ap)) by (intros; apply IH; lia));
    try (assert (forall ap, bal (printf_loop (c' :: fmt) ap)) by (intros; apply IH; cbn; lia)); bal_go;
    apply IH; cbn in *; lia.
Qed.
Lemma bal_printf fmt ap : bal (printf fmt ap).
Proof. unfold printf. pose proof (bal_printf_loop (length fmt) fmt ap (Nat.le_refl _)). bal_go. Qed.
#[export] Hint Resolve bal_printf : lk.
Lemma bal_procdump : bal procdump.
Proof.
  unfold procdump. apply bal_bind; [auto with lk|]. intros _. apply bal_for_loop.
  intros j. unfold procdump_one. bal_go.
Qed.
#[export] Hint Resolve bal_procdump : lk.

(** ** kalloc.c, vm.c *)

Lemma bal_kfree pa : bal (kfree pa).
Proof. unfold kfree. bal_go. Qed.
Lemma bal_kalloc : bal kalloc.
Proof. unfold kalloc. bal_go. Qed.
#[export] Hint Resolve bal_kfree bal_kalloc : lk.
Lemma bal_freerange_loop n : forall p e, bal (freerange_loop n p e).
Proof. bal_loop n. Qed.
#[export] Hint Resolve bal_freerange_loop : lk.
Lemma bal_kinit : bal kinit.
Proof. unfold kinit, freerange. bal_go. Qed.

Lemma bal_read_pte p : bal (read_pte p).
Proof. unfold read_pte. auto with lk. Qed.
Lemma bal_write_pte p v : bal (write_pte p v).
Proof. unfold write_pte. auto with lk. Qed.
#[export] Hint Resolve bal_kinit bal_read_pte bal_write_pte : lk.
Lemma bal_walk_loop n : forall p va a, bal (walk_loop n p va a).
Proof. bal_loop n. Qed.
#[export] Hint Resolve bal_walk_loop : lk.
Lemma bal_walk p va a : bal (walk p va a).
Proof. unfold walk. bal_go. Qed.
#[export] Hint Resolve bal_walk : lk.
Lemma bal_walkaddr p va : bal (walkaddr p va).
Proof. unfold walkaddr. bal_go. Qed.
Lemma bal_mappages_loop n : forall p a l pa pm, bal (mappages_loop n p a l pa pm).
Proof. bal_loop n. Qed.
#[export] Hint Resolve bal_walkaddr bal_mappages_loop : lk.
Lemma bal_mappages p va sz pa pm : bal (mappages p va sz pa pm).
Proof. unfold mappages. bal_go. Qed.
#[export] Hint Resolve bal_mappages : lk.
Lemma bal_kvmmap p va pa sz pm : bal (kvmmap p va pa sz pm).
Proof. unfold kvmmap. bal_go. Qed.
#[export] Hint Resolve bal_kvmmap : lk.
Lemma bal_proc_mapstacks p : bal (proc_mapstacks p).
Proof. apply bal_for_loop. bal_go. Qed.
#[export] Hint Resolve bal_proc_mapstacks : lk.
Lemma bal_kvmmake : bal kvmmake.
Proof. unfold kvmmake. bal_go. Qed.
#[export] Hint Resolve bal_kvmmake : lk.
Lemma bal_kvminit : bal kvminit.
Proof. unfold kvminit. bal_go. Qed.
Lemma bal_kvminithart : bal kvminithart.
Proof. by apply bal_modify. Qed.
Lemma bal_uvmunmap_loop n : forall p a l d, bal (uvmunmap_loop n p a l d).
Proof. bal_loop n. Qed.
#[export] Hint Resolve bal_kvminit bal_kvminithart bal_uvmunmap_loop : lk.
Lemma bal_uvmunmap p va n d : bal (uvmunmap p va n d).
Proof. unfold uvmunmap. bal_go. Qed.
Lemma bal_uvmcreate : bal uvmcreate.
Proof. unfold uvmcreate. bal_go. Qed.
#[export] Hint Resolve bal_uvmunmap bal_uvmcreate : lk.
Lemma bal_uvmfirst p l : bal (uvmfirst p l).
Proof. unfold uvmfirst. bal_go. Qed.
Lemma bal_uvmdealloc p o n : bal (uvmdealloc p o n).
Proof. unfold uvmdealloc. bal_go. Qed.
#[export] Hint Resolve bal_uvmfirst bal_uvmdealloc : lk.
Lemma bal_uvmalloc_loop n : forall p a o nw x, bal (uvmalloc_loop n p a o nw x).
Proof. bal_loop n. Qed.
#[export] Hint Resolve bal_uvmalloc_loop : lk.
Lemma bal_uvmalloc p o n x : bal (uvmalloc p o n x).
Proof. unfold uvmalloc. bal_go. Qed.
Lemma bal_freewalk d : forall p, bal (freewalk d p).
Proof.
  induction d as [|d IH]; intros p; cbn [freewalk]; [auto with lk|].
  apply bal_bind; [|auto with lk]. apply bal_for_loop. bal_go.
Qed.
#[export] Hint Resolve bal_uvmalloc bal_freewalk : lk.
Lemma bal_uvmfree p sz : bal (uvmfree p sz).
Proof. unfold uvmfree. bal_go. Qed.
Lemma bal_uvmcopy_loop n : forall o nw i sz, bal (uvmcopy_loop n o nw i sz).
Proof. bal_loop n. Qed.
#[export] Hint Resolve bal_uvmfree bal_uvmcopy_loop : lk.
Lemma bal_uvmcopy o n sz : bal (uvmcopy o n sz).
Proof. unfold uvmcopy. auto with lk. Qed.
Lemma bal_uvmclear p va : bal (uvmclear p va).
Proof. unfold uvmclear. bal_go. Qed.
Lemma bal_copyout_loop n : forall p va src, bal (copyout_loop n p va src).
Proof. bal_loop n. Qed.
Lemma bal_copyin_loop n : forall p va len d, bal (copyin_loop n p va len d).
Proof. bal_loop n. Qed.
Lemma bal_copyinstr_loop n : forall p va len d, bal (copyinstr_loop n p va len d).
Proof. bal_loop n. Qed.
Lemma bal_copyout p va src : bal (copyout p va src).
Proof. apply bal_copyout_loop. Qed.
Lemma bal_copyin p va len : bal (copyin p va len).
Proof. apply bal_copyin_loop. Qed.
Lemma bal_copyinstr p va max : bal (copyinstr p va max).
Proof. apply bal_copyinstr_loop. Qed.
#[export] Hint Resolve bal_uvmcopy bal_uvmclear bal_copyout bal_copyin bal_copyinstr : lk.

(** ** sleeplock.c, bio.c, log.c *)

Lemma bal_get_sl x : bal (get_sl x).
Proof. unfold get_sl. bal_go. Qed.
Lemma bal_mod_sl x f : bal (mod_sl x f).
Proof. unfold mod_sl. bal_go. Qed.
#[export] Hint Resolve bal_get_sl bal_mod_sl : lk.
Lemma bal_initsleeplock x : bal (initsleeplock x).
Proof. unfold initsleeplock. auto with lk. Qed.
Lemma bal_mypid : bal mypid.
Proof. unfold mypid. bal_go. Qed.
#[export] Hint Resolve bal_initsleeplock bal_mypid : lk.

(** A loop that may sleep on the lock [l] it holds. *)
Lemma lk_waiting {A} h (loop : nat -> K A) q :
  (forall n, lk h (loop n) q) -> lk h (waiting loop) q.
Proof. intros H w a w' Hh E. eapply H; eauto. Qed.

Lemma lk_acquiresleep_loop h x n :
  sl_spin x ∉ h -> lk (sl_spin x :: h) (acquiresleep_loop n x) (fun _ => sl_spin x :: h).
Proof. intros Hl. induction n as [|n IH]; cbn [acquiresleep_loop]; lk_go. apply IH. Qed.
Lemma bal_acquiresleep x : bal (acquiresleep x).
Proof.
  unfold acquiresleep. bal_go. eapply lk_bind; [apply lk_waiting|].
  { intros n. by apply lk_acquiresleep_loop. }
  intros []. lk_go.
Qed.
Lemma bal_releasesleep x : bal (releasesleep x).
Proof. unfold releasesleep. bal_go. Qed.
Lemma bal_holdingsleep x : bal (holdingsleep x).
Proof. unfold holdingsleep. bal_go. Qed.
#[export] Hint Resolve bal_acquiresleep bal_releasesleep bal_holdingsleep : lk.

Lemma bal_binit : bal binit.
Proof.
  unfold binit. do 2 (apply bal_bind; [auto with lk|]; intros _). apply bal_for_loop. bal_go.
Qed.
Lemma bal_bscan n : forall st te i, bal (bscan n st te i).
Proof. induction n as [|n IH]; intros; cbn [bscan]; bal_go. Qed.
#[export] Hint Resolve bal_binit bal_bscan : lk.
Lemma bal_bget d b : bal (bget d b).
Proof. unfold bget. bal_go.
Qed.
Lemma bal_disk_transfer i wr : bal (disk_transfer i wr).
Proof. unfold disk_transfer. bal_go. Qed.
#[export] Hint Resolve bal_bget bal_disk_transfer : lk.
Lemma bal_disk_rw i wr : bal (disk_rw i wr).
Proof. unfold disk_rw. bal_go. Qed.
#[export] Hint Resolve bal_disk_rw : lk.
Lemma bal_bread d b : bal (bread d b).
Proof. unfold bread. bal_go. Qed.
Lemma bal_bwrite i : bal (bwrite i).
Proof. unfold bwrite. bal_go. Qed.
Lemma bal_brelse i : bal (brelse i).
Proof. unfold brelse. bal_go. Qed.
Lemma bal_bpin i : bal (bpin i).
Proof. unfold bpin. bal_go. Qed.
Lemma bal_bunpin i : bal (bunpin i).
Proof. unfold bunpin. bal_go. Qed.
#[export] Hint Resolve bal_bread bal_bwrite bal_brelse bal_bpin bal_bunpin : lk.

Lemma bal_lh_get i : bal (lh_get i).
Proof. unfold lh_get. bal_go. Qed.
#[export] Hint Resolve bal_lh_get : lk.
Lemma bal_lh_set i v : bal (lh_set i v).
Proof. unfold lh_set. bal_go. Qed.
Lemma bal_mod_data i f : bal (mod_data i f).
Proof. unfold mod_data. auto with lk. Qed.
#[export] Hint Resolve bal_lh_set bal_mod_data : lk.
Lemma bal_install_one r t : bal (install_one r t).
Proof. unfold install_one. bal_go. Qed.
Lemma bal_install_trans r : bal (install_trans r).
Proof. apply bal_bind; [auto with lk|]. intros. apply bal_for_loop, bal_install_one. Qed.
Lemma bal_read_head : bal read_head.
Proof.
  unfold read_head. repeat (apply bal_bind; [solve [auto with lk]|]; intros).
  apply bal_bind; [|auto with lk]. apply bal_for_loop. auto with lk.
Qed.
Lemma bal_write_head : bal write_head.
Proof.
  unfold write_head. repeat (apply bal_bind; [solve [auto with lk]|]; intros).
  apply bal_bind; [apply bal_for_loop; bal_go|]. bal_go.
Qed.
#[export] Hint Resolve bal_install_trans bal_read_head bal_write_head : lk.
Lemma bal_recover_from_log : bal recover_from_log.
Proof. unfold recover_from_log. bal_go. Qed.
#[export] Hint Resolve bal_recover_from_log : lk.
Lemma bal_initlog d sb : bal (initlog d sb).
Proof. unfold initlog. bal_go. Qed.
Lemma lk_begin_op_loop h n : LkLog ∉ h -> lk (LkLog :: h) (begin_op_loop n) (fun _ => h).
Proof. intros Hl. induction n as [|n IH]; cbn [begin_op_loop]; lk_go; apply IH. Qed.
Lemma bal_begin_op : bal begin_op.
Proof. unfold begin_op. bal_go. apply lk_waiting. intros n. by apply lk_begin_op_loop. Qed.
Lemma bal_write_log : bal write_log.
Proof.
  apply bal_bind; [auto with lk|]. intros. apply bal_for_loop. intros. unfold write_log_one. bal_go.
Qed.
#[export] Hint Resolve bal_initlog bal_begin_op bal_write_log : lk.
Lemma bal_commit : bal commit.
Proof. unfold commit. bal_go. Qed.
#[export] Hint Resolve bal_commit : lk.
Lemma bal_end_op : bal end_op.
Proof. unfold end_op. bal_go. Qed.
Lemma bal_log_write b : bal (log_write b).
Proof. unfold log_write. bal_go. Qed.
#[export] Hint Resolve bal_end_op bal_log_write : lk.

(** ** fs.c *)

Lemma bal_mypagetable : bal mypagetable.
Proof. unfold mypagetable. bal_go. Qed.
#[export] Hint Resolve bal_mypagetable : lk.
Lemma bal_either_copyout d l : bal (either_copyout d l).
Proof. unfold either_copyout. bal_go. Qed.
Lemma bal_either_copyin s n : bal (either_copyin s n).
Proof. unfold either_copyin. bal_go. Qed.
Lemma bal_readsb d : bal (readsb d).
Proof. unfold readsb. bal_go. Qed.
#[export] Hint Resolve bal_either_copyout bal_either_copyin bal_readsb : lk.
Lemma bal_fsinit d : bal (fsinit d).
Proof. unfold fsinit. bal_go. Qed.
Lemma bal_bzero d b : bal (bzero d b).
Proof. unfold bzero. bal_go. Qed.
#[export] Hint Resolve bal_fsinit bal_bzero : lk.
Lemma bal_balloc_loop n : forall d b, bal (balloc_loop n d b).
Proof. induction n as [|n IH]; intros; cbn [balloc_loop]; bal_go. Qed.
#[export] Hint Resolve bal_balloc_loop : lk.
Lemma bal_balloc d : bal (balloc d).
Proof. unfold balloc. bal_go. Qed.
Lemma bal_bfree d b : bal (bfree d b).
Proof. unfold bfree. bal_go. Qed.
Lemma bal_iinit : bal iinit.
Proof. apply bal_for_loop. auto with lk. Qed.
Lemma bal_iget d i : bal (iget d i).
Proof. unfold iget. bal_go. Qed.
#[export] Hint Resolve bal_balloc bal_bfree bal_iinit bal_iget : lk.
Lemma bal_ialloc_loop n : forall d t i, bal (ialloc_loop n d t i).
Proof. induction n as [|n IH]; intros; cbn [ialloc_loop]; bal_go. Qed.
#[export] Hint Resolve bal_ialloc_loop : lk.
Lemma bal_ialloc d t : bal (ialloc d t).
Proof. unfold ialloc. bal_go. Qed.
Lemma bal_iupdate ip : bal (iupdate ip).
Proof. unfold iupdate. bal_go. Qed.
Lemma bal_idup ip : bal (idup ip).
Proof. unfold idup. bal_go. Qed.
Lemma bal_ilock ip : bal (ilock ip).
Proof. unfold ilock. bal_go. Qed.
Lemma bal_iunlock ip : bal (iunlock ip).
Proof. unfold iunlock. bal_go. Qed.
#[export] Hint Resolve bal_ialloc bal_iupdate bal_idup bal_ilock bal_iunlock : lk.
Lemma bal_addr_get ip n : bal (addr_get ip n).
Proof. unfold addr_get. bal_go. Qed.
Lemma bal_addr_set ip n a : bal (addr_set ip n a).
Proof. unfold addr_set. auto with lk. Qed.
#[export] Hint Resolve bal_addr_get bal_addr_set : lk.
Lemma bal_bmap ip bn : bal (bmap ip bn).
Proof. unfold bmap. bal_go. Qed.
#[export] Hint Resolve bal_bmap : lk.
Lemma bal_itrunc ip : bal (itrunc ip).
Proof.
  unfold itrunc. apply bal_bind; [apply bal_for_loop; bal_go|]. intros _.
  do 2 (apply bal_bind; [auto with lk|]; intros).
  apply bal_bind; [|bal_go]. apply bal_if; [|auto with lk].
  apply bal_bind; [auto with lk|]. intros. apply bal_bind; [apply bal_for_loop; bal_go|]. bal_go.
Qed.
#[export] Hint Resolve bal_itrunc : lk.
(** iput() gives up itable.lock while it truncates, and takes it again. *)
Lemma bal_iput ip : bal (iput ip).
Proof. unfold iput. bal_go. Qed.
#[export] Hint Resolve bal_iput : lk.
Lemma bal_iunlockput ip : bal (iunlockput ip).
Proof. unfold iunlockput. bal_go. Qed.
Lemma bal_stati ip : bal (stati ip).
Proof. unfold stati. bal_go. Qed.
Lemma bal_readi_loop n : forall ip d o t m acc, bal (readi_loop n ip d o t m acc).
Proof. induction n as [|n IH]; intros; cbn [readi_loop]; bal_go. Qed.
#[export] Hint Resolve bal_iunlockput bal_stati bal_readi_loop : lk.
Lemma bal_readi ip d o n : bal (readi ip d o n).
Proof. unfold readi. bal_go. Qed.
Lemma bal_writei_loop n : forall ip s o t m, bal (writei_loop n ip s o t m).
Proof. induction n as [|n IH]; intros; cbn [writei_loop]; bal_go. Qed.
#[export] Hint Resolve bal_readi bal_writei_loop : lk.
Lemma bal_writei ip s o n : bal (writei ip s o n).
Proof. unfold writei. bal_go. Qed.
#[export] Hint Resolve bal_writei : lk.

Lemma bal_dirlookup_loop n : forall d nm o, bal (dirlookup_loop n d nm o).
Proof. induction n as [|n IH]; intros; cbn [dirlookup_loop]; bal_go. Qed.
#[export] Hint Resolve bal_dirlookup_loop : lk.
Lemma bal_dirlookup d nm : bal (dirlookup d nm).
Proof. unfold dirlookup. bal_go. Qed.
Lemma bal_dirlink_loop n : forall d o, bal (dirlink_loop n d o).
Proof. induction n as [|n IH]; intros; cbn [dirlink_loop]; bal_go. Qed.
#[export] Hint Resolve bal_dirlookup bal_dirlink_loop : lk.
Lemma bal_dirlink d nm i : bal (dirlink d nm i).
Proof. unfold dirlink. bal_go. Qed.
Lemma bal_namex_loop n : forall p b nm ip, bal (namex_loop n p b nm ip).
Proof.
  induction n as [|n IH]; intros; cbn [namex_loop]; destruct (skipelem p) as [[]|]; bal_go.
Qed.
#[export] Hint Resolve bal_dirlink bal_namex_loop : lk.
Lemma bal_namex p b : bal (namex p b).
Proof. unfold namex. bal_go. Qed.
#[export] Hint Resolve bal_namex : lk.
Lemma bal_namei p : bal (namei p).
Proof. unfold namei. bal_go. Qed.
Lemma bal_nameiparent p : bal (nameiparent p).
Proof. apply bal_namex. Qed.
#[export] Hint Resolve bal_namei bal_nameiparent : lk.

(** ** console.c, pipe.c, file.c *)

Lemma bal_uartstart_loop n : bal (uartstart_loop n).
Proof. induction n as [|n IH]; cbn [uartstart_loop]; bal_go. Qed.
Lemma bal_uartstart : bal uartstart.
Proof. apply bal_uartstart_loop. Qed.
#[export] Hint Resolve bal_uartstart : lk.
Lemma lk_uartputc_wait h n : LkUart ∉ h -> lk (LkUart :: h) (uartputc_wait n) (fun _ => LkUart :: h).
Proof. intros Hl. induction n as [|n IH]; cbn [uartputc_wait]; lk_go. apply IH. Qed.
Lemma bal_uartputc c : bal (uartputc c).
Proof.
  unfold uartputc. bal_go. eapply lk_bind; [apply lk_waiting|].
  { intros n. by apply lk_uartputc_wait. }
  intros []. lk_go.
Qed.
#[export] Hint Resolve bal_uartputc : lk.
Lemma bal_consolewrite_loop k : forall s i, bal (consolewrite_loop k s i).
Proof. induction k as [|k IH]; intros; cbn [consolewrite_loop]; bal_go. Qed.
Lemma bal_consolewrite s n : bal (consolewrite s n).
Proof. apply bal_consolewrite_loop. Qed.
Lemma bal_mod_cons f : bal (mod_cons f).
Proof. by apply bal_modify. Qed.
#[export] Hint Resolve bal_consolewrite bal_mod_cons : lk.
Lemma lk_consoleread_wait h n : LkCons ∉ h ->
  lk (LkCons :: h) (consoleread_wait n) (fun ok : bool => if ok then LkCons :: h else h).
Proof. intros Hl. induction n as [|n IH]; cbn [consoleread_wait]; lk_go. apply IH. Qed.
Lemma lk_consoleread_loop h k : LkCons ∉ h -> forall t d n,
  lk (LkCons :: h) (consoleread_loop k t d n)
    (fun r => match r with Some _ => LkCons :: h | None => h end).
Proof.
  intros Hl. induction k as [|k IH]; intros; cbn [consoleread_loop]; lk_go.
  eapply lk_bind; [apply lk_waiting; intros n'; by apply lk_consoleread_wait|].
  intros []; lk_go. apply IH.
Qed.
Lemma bal_consoleread d n : bal (consoleread d n).
Proof.
  unfold consoleread. bal_go. eapply lk_bind; [by apply lk_consoleread_loop|].
  intros []; lk_go.
Qed.
Lemma bal_kill_line n : bal (kill_line n).
Proof. induction n as [|n IH]; cbn [kill_line]; bal_go. Qed.
#[export] Hint Resolve bal_consoleread bal_kill_line : lk.
Lemma bal_consoleintr c : bal (consoleintr c).
Proof. unfold consoleintr. bal_go. Qed.
Lemma bal_uartgetc : bal uartgetc.
Proof. unfold uartgetc. bal_go. Qed.
#[export] Hint Resolve bal_consoleintr bal_uartgetc : lk.
Lemma bal_uartintr_loop n : bal (uartintr_loop n).
Proof. induction n as [|n IH]; cbn [uartintr_loop]; bal_go. Qed.
Lemma bal_uartintr : bal uartintr.
Proof.
  unfold uartintr. apply bal_bind; [|bal_go]. intros h w a w' Hh E. by eapply bal_uartintr_loop.
Qed.
#[export] Hint Resolve bal_uartintr : lk.

Lemma bal_pipeclose pi wr : bal (pipeclose pi wr).
Proof. unfold pipeclose. bal_go. Qed.
Lemma lk_pipewrite_loop h pi pr addr n fuel : LkPipe pi ∉ h -> forall i,
  lk (LkPipe pi :: h) (pipewrite_loop fuel pi pr addr i n)
    (fun r => match r with Some _ => LkPipe pi :: h | None => h end).
Proof. intros Hl. induction fuel as [|f IH]; intros; cbn [pipewrite_loop]; lk_go; apply IH. Qed.
Lemma lk_waiting_for {A} h n (loop : nat -> K A) q :
  (forall n, lk h (loop n) q) -> lk h (waiting_for n loop) q.
Proof. intros H w a w' Hh E. eapply H; eauto. Qed.
Lemma bal_pipewrite pi addr n : bal (pipewrite pi addr n).
Proof.
  unfold pipewrite. bal_go. eapply lk_bind; [apply lk_waiting_for; intros; by apply lk_pipewrite_loop|].
  intros []; lk_go.
Qed.
Lemma lk_piperead_wait h pi pr fuel : LkPipe pi ∉ h ->
  lk (LkPipe pi :: h) (piperead_wait fuel pi pr) (fun ok : bool => if ok then LkPipe pi :: h else h).
Proof. intros Hl. induction fuel as [|f IH]; cbn [piperead_wait]; lk_go. apply IH. Qed.
Lemma bal_piperead_copy k : forall pi pr a i, bal (piperead_copy k pi pr a i).
Proof. induction k as [|k IH]; intros; cbn [piperead_copy]; bal_go. Qed.
#[export] Hint Resolve bal_pipeclose bal_pipewrite bal_piperead_copy : lk.
Lemma bal_piperead pi addr n : bal (piperead pi addr n).
Proof.
  unfold piperead. bal_go. eapply lk_bind; [apply lk_waiting; intros; by apply lk_piperead_wait|].
  intros []; lk_go.
Qed.
#[export] Hint Resolve bal_piperead : lk.

(** A search that gives its lock back when it finds something. *)
Lemma lk_for_ret {R} h l n : forall i (body : nat -> K (option R)),
  (forall j, lk (l :: h) (body j) (fun r => match r with Some _ => h | None => l :: h end)) ->
  lk (l :: h) (for_ret n i body) (fun r => match r with Some _ => h | None => l :: h end).
Proof.
  induction n as [|n IH]; intros i body Hb; cbn [for_ret]; [lk_go|].
  eapply lk_bind; [apply Hb|]. intros []; lk_go. by apply IH.
Qed.
Lemma bal_filealloc : bal filealloc.
Proof.
  unfold filealloc. bal_go. eapply lk_bind; [apply lk_for_ret; intros j; unfold filealloc_one; lk_go|].
  intros []; lk_go.
Qed.
Lemma bal_filedup f : bal (filedup f).
Proof. unfold filedup. bal_go. Qed.
Lemma bal_iput_ptr ip : bal (iput_ptr ip).
Proof. unfold iput_ptr. bal_go. Qed.
#[export] Hint Resolve bal_filealloc bal_filedup bal_iput_ptr : lk.
Lemma bal_fileclose f : bal (fileclose f).
Proof. unfold fileclose. bal_go. Qed.
#[export] Hint Resolve bal_fileclose : lk.
Lemma bal_pipealloc_bad f0 f1 : bal (pipealloc_bad f0 f1).
Proof. unfold pipealloc_bad. bal_go. Qed.
#[export] Hint Resolve bal_pipealloc_bad : lk.
Lemma bal_pipealloc : bal pipealloc.
Proof. unfold pipealloc. bal_go. Qed.
Lemma bal_filestat pad f a : bal (filestat pad f a).
Proof. unfold filestat. bal_go. Qed.
Lemma bal_devsw_read mj rd d n : devsw_read mj = Some rd -> bal (rd d n).
Proof. unfold devsw_read. destruct (_ =? _); intros; simplify_eq. auto with lk. Qed.
Lemma bal_devsw_write mj wr s n : devsw_write mj = Some wr -> bal (wr s n).
Proof. unfold devsw_write. destruct (_ =? _); intros; simplify_eq. auto with lk. Qed.
#[export] Hint Resolve bal_pipealloc bal_filestat : lk.
Lemma bal_fileread f a n : bal (fileread f a n).
Proof.
  unfold fileread. bal_go. by eapply bal_devsw_read.
Qed.
Lemma bal_filewrite_loop k : forall f ip a i n, bal (filewrite_loop k f ip a i n).
Proof. induction k as [|k IH]; intros; cbn [filewrite_loop]; bal_go. Qed.
#[export] Hint Resolve bal_fileread bal_filewrite_loop : lk.
Lemma bal_filewrite f a n : bal (filewrite f a n).
Proof.
  unfold filewrite. bal_go. by eapply bal_devsw_write.
Qed.
#[export] Hint Resolve bal_filewrite : lk.

(** ** proc.c, part 2 *)

Lemma bal_tf_get i f : bal (tf_get i f).
Proof. unfold tf_get. bal_go. Qed.
Lemma bal_tf_set i f v : bal (tf_set i f v).
Proof. unfold tf_set. bal_go. Qed.
Lemma bal_procinit : bal procinit.
Proof. apply bal_for_loop. auto with lk. Qed.
Lemma bal_allocpid : bal allocpid.
Proof. unfold allocpid. bal_go. Qed.
Lemma bal_proc_pagetable i : bal (proc_pagetable i).
Proof. unfold proc_pagetable. bal_go. Qed.
Lemma bal_proc_freepagetable p sz : bal (proc_freepagetable p sz).
Proof. unfold proc_freepagetable. bal_go. Qed.
#[export] Hint Resolve bal_tf_get bal_tf_set bal_procinit bal_allocpid bal_proc_pagetable bal_proc_freepagetable : lk.
Lemma bal_freeproc i : bal (freeproc i).
Proof. unfold freeproc. bal_go. Qed.
#[export] Hint Resolve bal_freeproc : lk.

(** The postcondition as a relation, for routines that return holding a lock. *)
Definition lkP {A} (h : list lockid) (m : K A) (Q : A -> list lockid -> Prop) : Prop :=
  forall w a w', k_held (w_k w) = h -> m w = Ok a w' -> Q a (k_held (w_k w')).

Lemma lkP_bind {A B} h (m : K A) (k : A -> K B) (Q : A -> list lockid -> Prop) q :
  lkP h m Q -> (forall a l, Q a l -> lk l (k a) q) -> lk h (bind m k) q.
Proof. intros Hm Hk w b w' Hh (a & w1 & H1 & H2)%bind_inv. eapply Hk; eauto. Qed.

Lemma lkP_bindP {A B} h (m : K A) (k : A -> K B) (Q : A -> list lockid -> Prop) R :
  lkP h m Q -> (forall a l, Q a l -> lkP l (k a) R) -> lkP h (bind m k) R.
Proof. intros Hm Hk w b w' Hh (a & w1 & H1 & H2)%bind_inv. eapply Hk; eauto. Qed.

Lemma lk_lkP {A} h (m : K A) q : lk h m q -> lkP h m (fun a l => l = q a).
Proof. intros H w a w' Hh E. by eapply H. Qed.

(** allocproc() returns with the lock of the new process held. *)
Definition plus_proc (h : list lockid) (r : option nat) (l : list lockid) : Prop :=
  match r with Some i => LkProc i ∉ h /\ l = LkProc i :: h | None => l = h end.

Lemma lkP_find_unused h i : lkP h (find_unused i) (plus_proc h).
Proof.
  intros w r w' Hh (u & w1 & H1 & H2)%bind_inv.
  destruct (decide (LkProc i ∈ k_held (w_k w))) as [?|Hn]; [by rewrite acquire_panic in H1|].
  rewrite acquire_ok in H1 by done. injection H1 as <- <-. rewrite Hh in Hn.
  assert (lk (LkProc i :: h) (let* p := get_proc i in
    if decide (p_state p = UNUSED) then ret (Some i) else release (LkProc i) ;; ret None)
    (fun r => match r with Some _ => LkProc i :: h | None => h end)) as L by lk_go.
  pose proof (fun E => L _ _ _ E H2) as L2. specialize (L2 (f_equal (cons (LkProc i)) Hh)). destruct r as [j|]; [|done].
  apply bind_inv in H2 as (p & w2 & H2 & H3). case_decide.
  - injection H3 as -> ->. done.
  - by apply bind_inv in H3 as (? & ? & ? & [=]).
Qed.

Lemma lkP_for_ret_unused h n : forall i, lkP h (for_ret n i find_unused) (plus_proc h).
Proof.
  induction n as [|n IH]; intros i; cbn [for_ret].
  - by intros w a w' Hh [= <- <-].
  - eapply lkP_bindP; [apply lkP_find_unused|]. intros [j|] l; cbn [plus_proc].
    + intros [Hn ->] w a w' Hh [= <- <-]. done.
    + intros ->. apply IH.
Qed.

Lemma lk_allocproc_found h i : LkProc i ∉ h ->
  lk (LkProc i :: h) (allocproc_found i) (fun ok : bool => if ok then LkProc i :: h else h).
Proof. intros. unfold allocproc_found. lk_go. Qed.

Lemma lkP_allocproc h : lkP h allocproc (plus_proc h).
Proof.
  eapply lkP_bindP; [apply lkP_for_ret_unused|]. intros [i|] l; cbn [plus_proc].
  - intros [Hn ->]. eapply lkP_bindP; [by apply lk_lkP, lk_allocproc_found|].
    intros [] ? ->; intros w a w' Hh [= <- <-]; done.
  - intros ->. by intros w a w' Hh [= <- <-].
Qed.

Lemma bal_userinit : bal userinit.
Proof.
  intros h. eapply lkP_bind; [apply lkP_allocproc|]. intros [i|] l; cbn [plus_proc].
  - intros [Hn ->]. lk_go.
  - intros ->. lk_go.
Qed.
Lemma bal_growproc n : bal (growproc n).
Proof. unfold growproc. bal_go. Qed.
Lemma bal_fork_file p np fd : bal (fork_file p np fd).
Proof. unfold fork_file. bal_go. Qed.
Lemma bal_fork_files p np : bal (for_loop NOFILE 0 (fork_file p np)).
Proof. apply bal_for_loop, bal_fork_file. Qed.
#[export] Hint Resolve bal_userinit bal_growproc bal_fork_files : lk.
Lemma bal_fork : bal fork.
Proof.
  intros h. unfold fork. lk_go. eapply lkP_bind; [apply lkP_allocproc|].
  intros [i|] l; cbn [plus_proc].
  - intros [Hn ->]. lk_go.
  - intros ->. lk_go.
Qed.
Lemma bal_exit {A} st : bal (exit st : K A).
Proof.
  intros h. apply lk_never. unfold exit. intros w a w' E.
  repeat (apply bind_inv in E as (? & ? & _ & E) || case_decide || done).
Qed.
Lemma lk_wait_scan h p addr n : LkWait ∉ h -> forall i hk,
  lk (LkWait :: h) (wait_scan n i p addr hk)
    (fun r => match r.1 with Some _ => h | None => LkWait :: h end).
Proof. intros Hl. induction n as [|n IH]; intros; cbn [wait_scan]; lk_go; apply IH. Qed.
Lemma lk_wait_loop h p addr n : LkWait ∉ h -> lk (LkWait :: h) (wait_loop n p addr) (fun _ => h).
Proof.
  intros Hl. induction n as [|n IH]; cbn [wait_loop]; lk_go.
  eapply lk_bind; [by apply lk_wait_scan|]. intros [[x|] hk]; cbn [fst]; lk_go; apply IH.
Qed.
Lemma bal_wait addr : bal (wait addr).
Proof. unfold wait. bal_go. apply lk_waiting. intros. by apply lk_wait_loop. Qed.
#[export] Hint Resolve bal_fork bal_exit bal_wait : lk.

(** ** exec.c, syscall.c, sysproc.c, sysfile.c *)

Lemma bal_loadseg_loop n : forall p va ip o sz i, bal (loadseg_loop n p va ip o sz i).
Proof. induction n as [|n IH]; intros; cbn [loadseg_loop]; bal_go. Qed.
Lemma bal_loadseg p va ip o sz : bal (loadseg p va ip o sz).
Proof. apply bal_loadseg_loop. Qed.
#[export] Hint Resolve bal_loadseg : lk.
Lemma bal_exec_segments n : forall ip p o sz, bal (exec_segments n ip p o sz).
Proof. induction n as [|n IH]; intros; cbn [exec_segments]; bal_go. Qed.
Lemma bal_exec_args l : forall p sp sb u, bal (exec_args l p sp sb u).
Proof. induction l as [|a l IH]; intros; cbn [exec_args]; bal_go. Qed.
Lemma bal_exec_bad p sz ip : bal (exec_bad p sz ip).
Proof. unfold exec_bad. bal_go. Qed.
#[export] Hint Resolve bal_exec_segments bal_exec_args bal_exec_bad : lk.
Lemma bal_exec_stack p path argv elf pt sz : bal (exec_stack p path argv elf pt sz).
Proof. unfold exec_stack. bal_go. Qed.
#[export] Hint Resolve bal_exec_stack : lk.
Lemma bal_exec path argv : bal (exec path argv).
Proof. unfold exec. bal_go. Qed.
#[export] Hint Resolve bal_exec : lk.

Lemma bal_fetchaddr a : bal (fetchaddr a).
Proof. unfold fetchaddr. bal_go. Qed.
Lemma bal_fetchstr a m : bal (fetchstr a m).
Proof. unfold fetchstr. bal_go. Qed.
Lemma bal_argraw n : bal (argraw n).
Proof. unfold argraw. bal_go. Qed.
#[export] Hint Resolve bal_fetchaddr bal_fetchstr bal_argraw : lk.
Lemma bal_argint n : bal (argint n).
Proof. unfold argint. bal_go. Qed.
Lemma bal_argaddr n : bal (argaddr n).
Proof. apply bal_argraw. Qed.
#[export] Hint Resolve bal_argint bal_argaddr : lk.
Lemma bal_argstr n m : bal (argstr n m).
Proof. unfold argstr. bal_go. Qed.
Lemma lk_sys_sleep_loop h fuel t n : LkTicks ∉ h -> lk (LkTicks :: h) (sys_sleep_loop fuel t n) (fun _ => h).
Proof. intros Hl. induction fuel as [|f IH]; cbn [sys_sleep_loop]; lk_go. apply IH. Qed.
Lemma bal_sys_sleep : bal sys_sleep.
Proof. unfold sys_sleep. bal_go. apply lk_waiting. intros. by apply lk_sys_sleep_loop. Qed.
Lemma bal_argfd n : bal (argfd n).
Proof. unfold argfd. bal_go. Qed.
Lemma bal_set_fd i fd o : bal (set_fd i fd o).
Proof. unfold set_fd. auto with lk. Qed.
#[export] Hint Resolve bal_argstr bal_sys_sleep bal_argfd bal_set_fd : lk.
Lemma bal_fdalloc f : bal (fdalloc f).
Proof. unfold fdalloc. bal_go. Qed.
Lemma bal_link_bad ip : bal (link_bad ip).
Proof. unfold link_bad. bal_go. Qed.
Lemma bal_isdirempty_loop n : forall d o, bal (isdirempty_loop n d o).
Proof. induction n as [|n IH]; intros; cbn [isdirempty_loop]; bal_go. Qed.
#[export] Hint Resolve bal_fdalloc bal_link_bad bal_isdirempty_loop : lk.
Lemma bal_isdirempty d : bal (isdirempty d).
Proof. unfold isdirempty. bal_go. Qed.
Lemma bal_unlink_bad d : bal (unlink_bad d).
Proof. unfold unlink_bad. bal_go. Qed.
Lemma bal_create_fail i d : bal (create_fail i d).
Proof. unfold create_fail. bal_go. Qed.
#[export] Hint Resolve bal_isdirempty bal_unlink_bad bal_create_fail : lk.
Lemma bal_create p t mj mn : bal (create p t mj mn).
Proof. unfold create. bal_go. Qed.
Lemma bal_open_inode ip om : bal (open_inode ip om).
Proof. unfold open_inode. bal_go. Qed.
Lemma bal_exec_fetch n : forall u i l, bal (exec_fetch n u i l).
Proof. induction n as [|n IH]; intros; cbn [exec_fetch]; bal_go. Qed.
Lemma bal_kfree_all l : bal (kfree_all l).
Proof. bal_loop l. Qed.
#[export] Hint Resolve bal_create bal_open_inode bal_exec_fetch bal_kfree_all : lk.

Lemma bal_sys_link : bal sys_link.
Proof. unfold sys_link. bal_go. Qed.
Lemma bal_sys_unlink : bal sys_unlink.
Proof. unfold sys_unlink. bal_go. Qed.
Lemma bal_sys_open : bal sys_open.
Proof. unfold sys_open. bal_go. Qed.
Lemma bal_sys_pipe : bal sys_pipe.
Proof. unfold sys_pipe. bal_go. Qed.
Lemma bal_sys_chdir : bal sys_chdir.
Proof. unfold sys_chdir. bal_go. Qed.
#[export] Hint Resolve bal_sys_link bal_sys_unlink bal_sys_open bal_sys_pipe bal_sys_chdir : lk.

Lemma bal_syscalls pad num f : syscalls pad num = Some f -> bal f.
Proof.
  unfold syscalls. intros E. repeat case_match; simplify_eq; auto with lk;
  unfold sys_exit, sys_wait, sys_read, sys_kill, sys_exec, sys_fstat, sys_dup, sys_sbrk, sys_uptime,
    sys_write, sys_mknod, sys_mkdir, sys_close, sys_fork, sys_getpid; auto with lk; bal_go.
Qed.

Lemma bal_syscall pad : bal (syscall pad).
Proof. unfold syscall. bal_go. eapply lk_bal; [by eapply bal_syscalls|]. intros. lk_go. Qed.
#[export] Hint Resolve bal_syscall : lk.

(** ** trap.c *)

Lemma bal_mod_csr f : bal (mod_csr f).
Proof. by apply bal_modify. Qed.
#[export] Hint Resolve bal_mod_csr : lk.
Lemma bal_trapinithart : bal trapinithart.
Proof. by apply bal_modify. Qed.
Lemma bal_plic_claim : bal plic_claim.
Proof. unfold plic_claim. bal_go. Qed.
Lemma bal_clockintr : bal clockintr.
Proof. unfold clockintr. bal_go. Qed.
Lemma bal_intr_on : bal intr_on.
Proof. by apply bal_modify. Qed.
Lemma bal_intr_off : bal intr_off.
Proof. by apply bal_modify. Qed.
Lemma bal_intr_get : bal intr_get.
Proof. apply bal_gets. Qed.
#[export] Hint Resolve bal_intr_get bal_trapinithart bal_plic_claim bal_clockintr bal_intr_on bal_intr_off : lk.

(** ** virtio_disk.c *)

Lemma bal_mod_vd f : bal (mod_vd f).
Proof. by apply bal_modify. Qed.
Lemma bal_vd_at {A} (g : vdisk -> list A) i : bal (vd_at g i).
Proof. unfold vd_at. bal_go. Qed.
#[export] Hint Resolve bal_mod_vd bal_vd_at : lk.
Lemma bal_mmio_read R r : bal (mmio_read R r).
Proof. unfold mmio_read. bal_go. Qed.
Lemma bal_mmio_write r v : bal (mmio_write r v).
Proof. apply bal_mod_vd. Qed.
Lemma bal_intr_one : bal intr_one.
Proof. unfold intr_one. bal_go. Qed.
#[export] Hint Resolve bal_mmio_read bal_mmio_write bal_intr_one : lk.
Lemma bal_intr_loop n : bal (intr_loop n).
Proof. induction n as [|n IH]; cbn; bal_go. Qed.
#[export] Hint Resolve bal_intr_loop : lk.
Lemma bal_virtio_disk_intr R : bal (virtio_disk_intr R).
Proof. unfold virtio_disk_intr. bal_go. Qed.
#[export] Hint Resolve bal_virtio_disk_intr : lk.

Lemma bal_devintr R : bal (devintr R).
Proof. unfold devintr, plic_complete. bal_go. Qed.
Lemma bal_usertrapret : bal usertrapret.
Proof. unfold usertrapret. bal_go. Qed.
#[export] Hint Resolve bal_devintr bal_usertrapret : lk.
Lemma bal_usertrap pad R : bal (usertrap pad R).
Proof. unfold usertrap. bal_go. Qed.
Lemma bal_kerneltrap R : bal (kerneltrap R).
Proof. unfold kerneltrap, myproc. bal_go. Qed.

(** ** The lock discipline *)

(** C13: a system call that returns does so holding exactly the spinlocks it was
    entered with, for every system call number, whatever its arguments and
    whatever the other processes do while it sleeps; a disk transfer is taken as
    one step. *)
Theorem syscall_locks_balanced pad num f w r w' :
  syscalls pad num = Some f -> f w = Ok r w' -> k_held (w_k w') = k_held (w_k w).
Proof. intros Hf E. by eapply (bal_syscalls pad num f Hf). Qed.

(** An instance of [syscall_locks_balanced]. *)
Lemma syscall_locks_balanced_witness :
  syscalls [] 14 = Some sys_uptime /\
  match sys_uptime (mkWorld one_proc []) with Ok r w' => r = 0 /\ k_held (w_k w') = [] | _ => False end.
Proof.
  split; [reflexivity|]. destruct (sys_uptime (mkWorld one_proc [])) as [r w'| | | |] eqn:E; try discriminate E.
  split; [by injection E|].
  exact (syscall_locks_balanced [] 14 sys_uptime (mkWorld one_proc []) r w' eq_refl E).
Defined.

(** Process 0 interrupted in user space by an external interrupt. *)
Definition trapped : kernel :=
  one_proc <| k_procs ::= alter (fun p => p <| p_trapframe := PHYSTOP - PGSIZE |>) 0%nat |>
    <| k_csr ::= fun c => c <| c_scause := 2 ^ 63 + 9 |> |>.

(** C36: a trap from user space that is entered with no spinlock held goes back
    to user space with no spinlock held, whatever the registers of the disk
    hold; a disk transfer is taken as one step. *)
Theorem usertrap_returns_unlocked pad R w satp w' :
  k_held (w_k w) = [] -> usertrap pad R w = Ok satp w' -> k_held (w_k w') = [].
Proof. intros Hh E. by eapply (bal_usertrap pad R). Qed.

(** An instance of [usertrap_returns_unlocked]. *)
Lemma usertrap_returns_unlocked_witness :
  match usertrap [] (fun _ _ => 0) (mkWorld trapped []) with Ok _ w' => k_held (w_k w') = [] | _ => False end.
Proof.
  assert (is_ok (usertrap [] (fun _ _ => 0) (mkWorld trapped [])) = true) as H by (vm_compute; reflexivity).
  destruct (usertrap [] (fun _ _ => 0) (mkWorld trapped [])) as [satp w'| | | |] eqn:E; try discriminate H.
  exact (usertrap_returns_unlocked [] (fun _ _ => 0) (mkWorld trapped []) satp w' eq_refl E).
Defined.

(** Exit() never returns to its caller. *)
Theorem exit_never_returns {A} status w (a : A) w' : exit status w <> Ok a w'.
Proof.
  unfold exit. intros E. repeat (apply bind_inv in E as (? & ? & _ & E) || case_decide || done).
Qed.
