(* ===== verification/Types.v ===== *)
(** Type safety of the kernel's variables: in every state the kernel can reach,
    also in the middle of a system call, the buffers of the kernel hold no more
    than they have room for, no store has run past the end of an array, and the
    counters are in the range of their types.

    [typed] says so of a state.  That the ring buffers of the pipes, of the
    console and of the UART and the log header never overflow rests on the
    checks before each store, and that the data of a block keeps its size on the
    bounds that writei(), bmap() and the inode code compute.  [tyq] carries
    [typed] through code by its structure alone; [tys] also uses what a check
    has found out about the state, for as long as [keeps] shows that nothing
    has changed it.

    The declarations are in kernel/proc.h, buf.h, file.h, fs.h and sleeplock.h,
    and those of static variables in the .c files. *)

From S2P Require Import Prelude Layout Strings Kernel Sched Printf Kalloc Vm Bio Virtio Log Fs Dir Console Pipe File Proc Exec Syscall Trap Locks.

(** ** Ranges of the C types *)

Definition cint (x : Z) : Prop := - 2 ^ 31 <= x < 2 ^ 31.
Definition cshort (x : Z) : Prop := - 2 ^ 15 <= x < 2 ^ 15.
Definition cuint (x : Z) : Prop := 0 <= x < 2 ^ 32.
Definition cuint64 (x : Z) : Prop := 0 <= x < 2 ^ 64.

Create HintDb ctype discriminated.
Lemma cint_i32 x : cint (i32 x).
Proof. apply i32_range. Qed.
Lemma cint_0 : cint 0.
Proof. unfold cint. lia. Qed.
Lemma cint_1 : cint 1.
Proof. unfold cint. lia. Qed.
Lemma cshort_i16 x : cshort (i16 x).
Proof. apply i16_range. Qed.
Lemma cshort_0 : cshort 0.
Proof. unfold cshort. lia. Qed.
Lemma cshort_1 : cshort 1.
Proof. unfold cshort. lia. Qed.
Lemma cuint_u32 x : cuint (u32 x).
Proof. apply u32_range. Qed.
Lemma cuint_0 : cuint 0.
Proof. unfold cuint. lia. Qed.
Lemma cuint_1 : cuint 1.
Proof. unfold cuint. lia. Qed.
Lemma cuint64_u64 x : cuint64 (u64 x).
Proof. apply u64_range. Qed.
Lemma cint_insert i x l : Forall cint l -> cint x -> Forall cint (<[i := x]> l).
Proof. intros. by apply Forall_insert. Qed.
Arguments lsafestrcpy : simpl never.
Lemma length_safe t : (length (lsafestrcpy t 16) <= 16)%nat.
Proof. unfold lsafestrcpy. rewrite length_take. lia. Qed.
#[export] Hint Resolve Nat.le_0_l length_safe : ctype.
#[export] Hint Resolve cint_insert : ctype.
#[export] Hint Resolve cint_i32 cint_0 cint_1 cshort_i16 cshort_0 cshort_1 cuint_u32 cuint_0 cuint_1 cuint64_u64 : ctype.

(** ** Structs *)

Record proc_typed (p : proc) : Prop := {
  pt_killed : cint (p_killed p);
  pt_xstate : cint (p_xstate p);
  pt_pid : cint (p_pid p);
  pt_ofile : length (p_ofile p) = NOFILE;
  pt_name : (length (p_name p) <= 16)%nat;
}.

Record inode_typed (i : inode) : Prop := {
  it_ref : cint (i_ref i);
  it_type : cshort (i_type i);
  it_major : cshort (i_major i);
  it_minor : cshort (i_minor i);
  it_nlink : cshort (i_nlink i);
  it_addrs : length (i_addrs i) = 13%nat;
}.

#[export] Hint Resolve it_major : ctype.

Record file_typed (f : file) : Prop := {
  ft_ref : cint (f_ref f);
  ft_off : cuint (f_off f);
  ft_major : cshort (f_major f);
}.

Record buf_typed (b : buf) : Prop := {
  bt_refcnt : cuint (b_refcnt b);
  bt_data : length (b_data b) = Z.to_nat BSIZE;
}.

Record pipe_typed (p : pipe) : Prop := {
  pp_data : length (pi_data p) = Z.to_nat PIPESIZE;
  pp_nread : cuint (pi_nread p);
  pp_nwrite : cuint (pi_nwrite p);
  pp_fits : u32 (pi_nwrite p - pi_nread p) <= PIPESIZE;
}.

Record log_typed (l : logst) : Prop := {
  lg_out : cint (log_outstanding l);
  lg_n : 0 <= lh_n l <= LOGSIZE;
  lg_block : length (lh_block l) = Z.to_nat LOGSIZE;
  lg_blocks : Forall cint (lh_block l);
}.

Record cons_typed (c : consst) : Prop := {
  ct_buf : length (cons_buf c) = Z.to_nat INPUT_BUF_SIZE;
  ct_r : cuint (cons_r c);
  ct_w : cuint (cons_w c);
  ct_e : cuint (cons_e c);
  ct_fits : u32 (cons_e c - cons_r c) <= INPUT_BUF_SIZE;
  ct_order : u32 (cons_w c - cons_r c) <= u32 (cons_e c - cons_r c);
}.

Record uart_typed (u : uartst) : Prop := {
  ua_buf : length (ut_buf u) = Z.to_nat UART_TX_BUF_SIZE;
  ua_w : cuint64 (ut_w u);
  ua_r : cuint64 (ut_r u);
  ua_fits : u64 (ut_w u - ut_r u) <= UART_TX_BUF_SIZE;
}.

Definition pipes_typed : gmap Z pipe -> Prop := map_Forall (fun _ => pipe_typed).

Lemma pipes_delete m i : pipes_typed m -> pipes_typed (delete i m).
Proof. apply map_Forall_delete. Qed.
Lemma pipes_insert m i p : pipes_typed m -> pipe_typed p -> pipes_typed (<[i := p]> m).
Proof. intros Hm Hp. by apply map_Forall_insert_2. Qed.
Lemma new_pipe_typed : pipe_typed new_pipe.
Proof. split; auto with ctype. discriminate. Qed.
#[export] Hint Resolve pipes_delete pipes_insert new_pipe_typed : ctype.

(** The kernel's variables. *)
Record typed (s : kernel) : Prop := {
  ty_procs : length (k_procs s) = NPROC /\ Forall proc_typed (k_procs s);
  ty_inodes : length (k_inodes s) = NINODE /\ Forall inode_typed (k_inodes s);
  ty_files : length (k_files s) = NFILE /\ Forall file_typed (k_files s);
  ty_bufs : length (k_bufs s) = S NBUF /\ Forall buf_typed (k_bufs s);
  ty_pipes : pipes_typed (k_pipes s);
  ty_log : log_typed (k_log s);
  ty_cons : cons_typed (k_cons s);
  ty_uart : uart_typed (k_uart s);
  ty_ticks : cuint (k_ticks s);
  ty_nextpid : cint (k_nextpid s);
  ty_disk b : length (k_disk s b) = Z.to_nat BSIZE;
}.

(** ** Rules *)

(** Also the other processes keep the types. *)
Definition world_typed (w : world) : Prop :=
  typed (w_k w) /\ Forall (fun f : kernel -> kernel => forall s, typed s -> typed (f s)) (w_env w).

(** However [m] ends, the types are kept; what it returns satisfies [Q]. *)
Definition tyq {A} (Q : A -> Prop) (m : K A) : Prop :=
  forall w, world_typed w -> world_typed (final (m w)) /\ forall a w', m w = Ok a w' -> Q a.
Abbreviation ty := (tyq (fun _ => True)).

Lemma tyq_bind {A B} (Q : A -> Prop) (R : B -> Prop) (m : K A) (k : A -> K B) :
  tyq Q m -> (forall a, Q a -> tyq R (k a)) -> tyq R (bind m k).
Proof.
  intros Hm Hk w Hw. destruct (Hm w Hw) as [H1 H2]. unfold bind. destruct (m w) as [a w1| | | |] eqn:E; cbn in *; try done.
  apply (Hk a); [by eapply H2|done].
Qed.

Lemma tyq_weaken {A} (Q R : A -> Prop) (m : K A) : tyq Q m -> (forall a, Q a -> R a) -> tyq R m.
Proof. intros H HQ w Hw. destruct (H w Hw) as [H1 H2]. split; eauto. Qed.

Lemma tyq_True {A} (Q : A -> Prop) (m : K A) : tyq Q m -> ty m.
Proof. intros H. by eapply tyq_weaken. Qed.

Lemma tyq_ret {A} (Q : A -> Prop) a : Q a -> tyq Q (ret a : K A).
Proof. intros H w Hw. split; [done|]. by intros ? ? [= <- <-]. Qed.

(** An outcome without a result, in the same state. *)
Lemma tyq_stop {A} (Q : A -> Prop) (m : K A) : (forall w, final (m w) = w /\ forall a w', m w <> Ok a w') -> tyq Q m.
Proof. intros H w Hw. destruct (H w) as [-> H2]. split; [done|]. intros a w' E. by apply H2 in E. Qed.

Lemma tyq_fault {A} (Q : A -> Prop) : tyq Q (fault : K A).
Proof. apply tyq_stop. intros w. by split. Qed.
Lemma tyq_panic {A} (Q : A -> Prop) msg : tyq Q (panic msg : K A).
Proof. apply tyq_stop. intros w. by split. Qed.
Lemma tyq_diverge {A} (Q : A -> Prop) : tyq Q (diverge : K A).
Proof. apply tyq_stop. intros w. by split. Qed.
Lemma tyq_blocked {A} (Q : A -> Prop) : tyq Q (fun w => Blocked w : outcome world A).
Proof. apply tyq_stop. intros w. by split. Qed.

Lemma tyq_gets {A} (Q : A -> Prop) (f : kernel -> A) : (forall s, typed s -> Q (f s)) -> tyq Q (gets f).
Proof. intros H w Hw. split; [done|]. intros a w' [= <- <-]. apply H, Hw. Qed.

Lemma ty_modify f : (forall s, typed s -> typed (f s)) -> ty (modify f).
Proof. intros H w [H1 H2]. split; [|done]. split; [by apply H|done]. Qed.

Lemma ty_waiting {A} (loop : nat -> K A) : (forall n, ty (loop n)) -> ty (waiting loop).
Proof. intros H w Hw. by apply H. Qed.
Lemma ty_waiting_for {A} n (loop : nat -> K A) : (forall n, ty (loop n)) -> ty (waiting_for n loop).
Proof. intros H w Hw. by apply H. Qed.

Lemma ty_for_loop n : forall i (body : nat -> K unit), (forall j, ty (body j)) -> ty (for_loop n i body).
Proof. induction n as [|n IH]; intros i body Hb; cbn [for_loop]; [by apply tyq_ret|]. eapply tyq_bind; [apply Hb|auto]. Qed.
Lemma ty_for_ret {R} n : forall i (body : nat -> K (option R)), (forall j, ty (body j)) -> ty (for_ret n i body).
Proof.
  induction n as [|n IH]; intros i body Hb; cbn [for_ret]; [by apply tyq_ret|]. eapply tyq_bind; [apply Hb|]. intros [x|] _; [by apply tyq_ret|auto].
Qed.

(** Tables *)

Lemma Forall_alter' {A} (P : A -> Prop) f i l : Forall P l -> (forall x, P x -> P (f x)) -> Forall P (alter f i l).
Proof. intros H Hf. apply Forall_alter; [done|]. intros x _ Hx. by apply Hf. Qed.

Lemma ty_index {A} (Q : A -> Prop) l i : Forall Q l -> tyq Q (index l i : K A).
Proof.
  intros H. unfold index. destruct (l !! i) as [x|] eqn:E; [|apply tyq_fault]. apply tyq_ret. by eapply Forall_lookup_1.
Qed.

(** Reading an entry of a table. *)
Lemma ty_get {A} (Q : A -> Prop) (f : kernel -> list A) i : (forall s, typed s -> Forall Q (f s)) -> tyq Q (let* l := gets f in index l i).
Proof. intros H. eapply tyq_bind; [by apply (tyq_gets (Forall Q))|]. intros l Hl. by apply ty_index. Qed.

Lemma ty_get_proc i : tyq proc_typed (get_proc i).
Proof. apply ty_get. intros s Hs. apply (ty_procs _ Hs). Qed.
Lemma ty_get_inode i : tyq inode_typed (get_inode i).
Proof. apply ty_get. intros s Hs. apply (ty_inodes _ Hs). Qed.
Lemma ty_get_file i : tyq file_typed (get_file i).
Proof. apply ty_get. intros s Hs. apply (ty_files _ Hs). Qed.
Lemma ty_get_buf i : tyq buf_typed (get_buf i).
Proof. apply ty_get. intros s Hs. apply (ty_bufs _ Hs). Qed.
Lemma ty_get_pipe i : tyq pipe_typed (get_pipe i).
Proof.
  eapply tyq_bind; [apply (tyq_gets pipes_typed); intros s Hs; apply Hs|]. intros m Hm.
  destruct (m !! i) as [p|] eqn:E; [|apply tyq_fault]. apply tyq_ret. by eapply Hm.
Qed.

Lemma ty_get_nextpid : tyq cint (gets k_nextpid).
Proof. apply tyq_gets. intros s Hs. apply Hs. Qed.

Lemma ty_get_disk : tyq (fun d : Z -> block => forall b, length (d b) = Z.to_nat BSIZE) (gets k_disk).
Proof. apply tyq_gets. intros s Hs. apply Hs. Qed.

Ltac ty_modify_tac := apply ty_modify; intros s []; split; cbn; auto.

Lemma ty_mod_proc i f : (forall p, proc_typed p -> proc_typed (f p)) -> ty (mod_proc i f).
Proof. intros H. eapply tyq_bind; [apply ty_get_proc|]. intros _ _. ty_modify_tac. rewrite length_alter. split; [tauto|]. apply Forall_alter'; tauto. Qed.
Lemma ty_mod_inode i f : (forall p, inode_typed p -> inode_typed (f p)) -> ty (mod_inode i f).
Proof. intros H. eapply tyq_bind; [apply ty_get_inode|]. intros _ _. ty_modify_tac. rewrite length_alter. split; [tauto|]. apply Forall_alter'; tauto. Qed.
Lemma ty_mod_file i f : (forall p, file_typed p -> file_typed (f p)) -> ty (mod_file i f).
Proof. intros H. eapply tyq_bind; [apply ty_get_file|]. intros _ _. ty_modify_tac. rewrite length_alter. split; [tauto|]. apply Forall_alter'; tauto. Qed.
Lemma ty_mod_buf i f : (forall p, buf_typed p -> buf_typed (f p)) -> ty (mod_buf i f).
Proof. intros H. eapply tyq_bind; [apply ty_get_buf|]. intros _ _. ty_modify_tac. rewrite length_alter. split; [tauto|]. apply Forall_alter'; tauto. Qed.
Lemma ty_mod_pipe i f : (forall p, pipe_typed p -> pipe_typed (f p)) -> ty (mod_pipe i f).
Proof.
  intros H. eapply tyq_bind; [apply ty_get_pipe|]. intros _ _. ty_modify_tac. intros j p Hp.
  apply lookup_alter_Some in Hp as [(-> & q & Hq & ->)|[_ Hp]]; eauto.
Qed.
Lemma ty_mod_log f : (forall l, log_typed l -> log_typed (f l)) -> ty (mod_log f).
Proof. intros H. ty_modify_tac. Qed.
Lemma ty_mod_cons f : (forall l, cons_typed l -> cons_typed (f l)) -> ty (mod_cons f).
Proof. intros H. ty_modify_tac. Qed.
Lemma ty_mod_uart f : (forall l, uart_typed l -> uart_typed (f l)) -> ty (mod_uart f).
Proof. intros H. ty_modify_tac. Qed.

Lemma ty_others_run : ty others_run.
Proof.
  intros [s [|f e]] [H1 H2]; cbn; [done|]. apply Forall_cons in H2 as [Hf He]. split; [|done]. split; [|done]. specialize (Hf s H1). cbn. destruct Hf. by split.
Qed.

(** ** What a check has found out *)

(** From a state that satisfies [P], the types are kept. *)
Definition tys (P : kernel -> Prop) {A} (R : A -> Prop) (m : K A) : Prop :=
  forall w, world_typed w -> P (w_k w) -> world_typed (final (m w)) /\ forall a w', m w = Ok a w' -> R a.

(** [m] does not change [f]. *)
Definition keeps {B} (f : kernel -> B) {A} (m : K A) : Prop := forall w, f (w_k (final (m w))) = f (w_k w).

Lemma tys_tyq P {A} (R : A -> Prop) (m : K A) : tyq R m -> tys P R m.
Proof. intros H w Hw _. by apply H. Qed.

Lemma tys_bind P {A B} (Q : A -> Prop) (R : B -> Prop) (m : K A) (k : A -> K B) :
  tys P Q m -> (forall a, Q a -> tyq R (k a)) -> tys P R (bind m k).
Proof.
  intros Hm Hk w Hw HP. destruct (Hm w Hw HP) as [H1 H2]. unfold bind. destruct (m w) as [a w1| | | |] eqn:E; cbn in *; try done.
  apply (Hk a); [by eapply H2|done].
Qed.

Lemma tys_ret P {A} (R : A -> Prop) a : R a -> tys P R (ret a : K A).
Proof. intros H. by apply tys_tyq, tyq_ret. Qed.

(** The state is looked at. *)
Lemma tyq_look {A B} (f : kernel -> A) (R : B -> Prop) (k : A -> K B) :
  (forall a, tys (fun s => f s = a) R (k a)) -> tyq R (let* a := gets f in k a).
Proof. intros H w Hw. by apply (H (f (w_k w)) w). Qed.

(** [m] leaves what is known of [f] as it is. *)
Lemma tys_keep {C} (f : kernel -> C) (P : C -> Prop) {A B} (Q : A -> Prop) (R : B -> Prop) (m : K A) (k : A -> K B) :
  keeps f m -> tyq Q m -> (forall a, Q a -> tys (fun s => P (f s)) R (k a)) -> tys (fun s => P (f s)) R (bind m k).
Proof.
  intros Hf Hm Hk w Hw HP. destruct (Hm w Hw) as [H1 H2]. specialize (Hf w). unfold bind. destruct (m w) as [a w1| | | |] eqn:E; cbn in *; try done.
  apply (Hk a); [by eapply H2|done|by rewrite Hf].
Qed.

(** After [m] returns, [P] holds. *)
Lemma tyq_post {A B} (P : A -> kernel -> Prop) (R : B -> Prop) (m : K A) (k : A -> K B) :
  ty m -> (forall w a w', m w = Ok a w' -> P a (w_k w')) -> (forall a, tys (P a) R (k a)) -> tyq R (bind m k).
Proof.
  intros Hm HP Hk w Hw. destruct (Hm w Hw) as [H1 _]. unfold bind. destruct (m w) as [a w1| | | |] eqn:E; cbn in *; try done.
  apply (Hk a); [done|by eapply HP].
Qed.

Lemma tys_modify P f : (forall s, typed s -> P s -> typed (f s)) -> tys P (fun _ => True) (modify f).
Proof. intros H w [H1 H2] HP. split; [|done]. split; [by apply H|done]. Qed.

Lemma tys_mod_uart P f : (forall s, uart_typed (k_uart s) -> P s -> uart_typed (f (k_uart s))) -> tys P (fun _ => True) (mod_uart f).
Proof. intros H. apply tys_modify. intros s [] HP. split; cbn; auto. Qed.
Lemma tys_mod_cons P f : (forall s, cons_typed (k_cons s) -> P s -> cons_typed (f (k_cons s))) -> tys P (fun _ => True) (mod_cons f).
Proof. intros H. apply tys_modify. intros s [] HP. split; cbn; auto. Qed.
Lemma tys_mod_log P f : (forall s, log_typed (k_log s) -> P s -> log_typed (f (k_log s))) -> tys P (fun _ => True) (mod_log f).
Proof. intros H. apply tys_modify. intros s [] HP. split; cbn; auto. Qed.

Lemma tys_mod_pipe pi p f : (pipe_typed p -> pipe_typed (f p)) -> tys (fun s => k_pipes s !! pi = Some p) (fun _ => True) (mod_pipe pi f).
Proof.
  intros H [s e] Hw HP. cbn in HP. unfold mod_pipe, get_pipe, gets, bind. cbn [w_k]. rewrite HP. unfold ret, modify. split; [|done].
  destruct Hw as [[] He]. cbn [final w_k w_env] in *. split; [|done]. split; cbn; auto. rewrite <- (insert_id (k_pipes s) pi p) by done.
  rewrite alter_insert_eq. apply pipes_insert; [done|]. apply H. by eapply ty_pipes0.
Qed.

Lemma tyq_look_pipe {B} pi (R : B -> Prop) (k : pipe -> K B) :
  (forall p, pipe_typed p -> tys (fun s => k_pipes s !! pi = Some p) R (k p)) -> tyq R (let* p := get_pipe pi in k p).
Proof.
  intros H w Hw. unfold get_pipe, gets, bind. destruct (k_pipes (w_k w) !! pi) as [p|] eqn:E; [|done].
  apply (H p); [|done|done]. destruct Hw as [[] _]. by eapply ty_pipes0.
Qed.

Section Keeps.
Context {C : Type} (f : kernel -> C).

Lemma kp_same {A} (m : K A) : (forall w, final (m w) = w) -> keeps f m.
Proof. intros H w. by rewrite H. Qed.
Lemma kp_bind {A B} (m : K A) (k : A -> K B) : keeps f m -> (forall a, keeps f (k a)) -> keeps f (bind m k).
Proof. intros Hm Hk w. specialize (Hm w). unfold bind. destruct (m w); cbn in *; try done. by rewrite Hk. Qed.
Lemma kp_modify g : (forall s, f (g s) = f s) -> keeps f (modify g).
Proof. intros H w. apply H. Qed.
End Keeps.

Create HintDb kp discriminated.
#[export] Hint Constants Opaque : kp.

Ltac kp_step :=
  match goal with
  | |- keeps _ (ret _) => by apply kp_same
  | |- keeps _ fault => by apply kp_same
  | |- keeps _ (panic _) => by apply kp_same
  | |- keeps _ diverge => by apply kp_same
  | |- keeps _ (gets _) => by apply kp_same
  | |- keeps _ (modify _) => by apply kp_modify
  | |- keeps _ (bind _ _) => apply kp_bind; [|intros ?]
  | |- keeps _ (if ?b then _ else _) => destruct b
  | |- keeps _ (match ?x with _ => _ end) => destruct x
  | |- keeps _ _ => solve [eauto 2 with kp]
  | |- keeps _ ?m => let h := head_of m in unfold h
  end.
Ltac kp_go := intros; repeat kp_step.

(** Lines and bytes only reach the UART. *)
Lemma kp_wait_tx n : keeps k_cons (wait_tx n).
Proof. induction n; cbn [wait_tx]; kp_go. Qed.
#[export] Hint Resolve kp_wait_tx : kp.
Lemma kp_uartputc_sync c : keeps k_cons (uartputc_sync c).
Proof. apply kp_bind; [intros w; apply kp_wait_tx|intros _; kp_go]. Qed.
#[export] Hint Resolve kp_uartputc_sync : kp.
Lemma kp_consputc c : keeps k_cons (consputc c).
Proof. kp_go. Qed.

(** copyin() only reads. *)
Lemma kp_walk_loop n : forall p va a, keeps k_pipes (walk_loop n p va a).
Proof. induction n; cbn [walk_loop]; kp_go. Qed.
#[export] Hint Resolve kp_walk_loop : kp.
Lemma kp_copyin_loop n : forall p va len d, keeps k_pipes (copyin_loop n p va len d).
Proof. induction n; intros p va [|len] d; cbn [copyin_loop]; kp_go. Qed.
#[export] Hint Resolve kp_copyin_loop : kp.

(** ** Rings *)

(** The counters of a ring buffer, after one more byte is taken or stored. *)
Lemma ring_take w r : cuint w -> cuint r -> w <> r -> u32 (w - u32 (r + 1)) = u32 (w - r) - 1.
Proof. unfold cuint, u32. intros. Z.to_euclidean_division_equations. lia. Qed.
Lemma ring_put w r : u32 (w - r) < 2 ^ 32 - 1 -> u32 (u32 (w + 1) - r) = u32 (w - r) + 1.
Proof. unfold u32. intros. Z.to_euclidean_division_equations. lia. Qed.
Lemma ring_unput w r : 0 < u32 (w - r) -> u32 (u32 (w - 1) - r) = u32 (w - r) - 1.
Proof. unfold u32. intros. Z.to_euclidean_division_equations. lia. Qed.
Lemma ring_full w r n : cuint w -> 0 <= n < 2 ^ 32 -> w <> u32 (r + n) -> u32 (w - r) <> n.
Proof. unfold cuint, u32. intros. Z.to_euclidean_division_equations. lia. Qed.
Lemma ring_empty w r : cuint w -> cuint r -> w <> r -> 0 < u32 (w - r).
Proof. unfold cuint, u32. intros. Z.to_euclidean_division_equations. lia. Qed.
Lemma ring_inj a b r : cuint a -> cuint b -> u32 (a - r) = u32 (b - r) -> a = b.
Proof.
  unfold cuint, u32. intros Ha Hb E. rewrite <- (Z.mod_small a (2 ^ 32)), <- (Z.mod_small b (2 ^ 32)) by done.
  replace a with (a - r + r) by lia. replace b with (b - r + r) by lia.
  rewrite <- Z.add_mod_idemp_l, E, Z.add_mod_idemp_l by lia. done.
Qed.
Lemma ring_take64 w r : cuint64 w -> cuint64 r -> w <> r -> u64 (w - u64 (r + 1)) = u64 (w - r) - 1.
Proof. unfold cuint64, u64. intros. Z.to_euclidean_division_equations. lia. Qed.
Lemma ring_put64 w r n : cuint64 w -> 0 <= n < 2 ^ 64 - 1 -> u64 (w - r) <= n -> w <> u64 (r + n) -> u64 (u64 (w + 1) - r) <= n.
Proof. unfold cuint64, u64. intros. Z.to_euclidean_division_equations. lia. Qed.

(** ** Automation *)

(** [ctypes] has the routines that return values of a type; [ty] the others. *)
Create HintDb ctypes discriminated.
Create HintDb ty discriminated.
#[export] Hint Constants Opaque : ctypes ty.
#[export] Hint Resolve ty_get_proc ty_get_inode ty_get_file ty_get_buf ty_get_pipe ty_get_nextpid ty_get_disk : ctypes.
#[export] Hint Resolve ty_others_run : ty.

(** Stores into the data of a block *)
#[local] Arguments dip_write : simpl never.
#[local] Arguments dip_init : simpl never.
#[local] Arguments bit_set : simpl never.
#[local] Arguments bit_clear : simpl never.
#[local] Arguments ind_set : simpl never.
#[local] Arguments hb_set_n : simpl never.
#[local] Arguments hb_set_block : simpl never.
Lemma fits_bit_set bi d : length d = Z.to_nat BSIZE -> length (bit_set bi d) = Z.to_nat BSIZE.
Proof. by rewrite length_bit_set. Qed.
Lemma fits_bit_clear bi d : length d = Z.to_nat BSIZE -> length (bit_clear bi d) = Z.to_nat BSIZE.
Proof. by rewrite length_bit_clear. Qed.
Lemma log_empty : 0 <= 0 <= LOGSIZE.
Proof. change LOGSIZE with 30. lia. Qed.
Lemma fits_zero : length zero_block = Z.to_nat BSIZE.
Proof. apply length_replicate. Qed.
Lemma fits_dip_write inum i d : inode_typed i -> length d = Z.to_nat BSIZE ->
  length (dip_write (dip_off inum) (dinode_of i) d) = Z.to_nat BSIZE.
Proof. intros [] H. by apply length_dip_write. Qed.
Lemma fits_dip_init inum t d : length d = Z.to_nat BSIZE -> length (dip_init (dip_off inum) t d) = Z.to_nat BSIZE.
Proof. apply length_dip_init. Qed.
Lemma fits_ind_set bn a d : (bn <? NINDIRECT) = true -> length d = Z.to_nat BSIZE -> length (ind_set bn a d) = Z.to_nat BSIZE.
Proof. apply length_ind_set. Qed.
Lemma fits_hb_set_n n d : length d = Z.to_nat BSIZE -> length (hb_set_n n d) = Z.to_nat BSIZE.
Proof. change (Z.to_nat BSIZE) with 1024%nat. intros H. unfold hb_set_n. rewrite length_wrn; lia. Qed.
Lemma fits_hb_set_block j v d : (j < 30)%nat -> length d = Z.to_nat BSIZE -> length (hb_set_block j v d) = Z.to_nat BSIZE.
Proof. change (Z.to_nat BSIZE) with 1024%nat. intros Hj H. unfold hb_set_block. rewrite length_wrn; lia. Qed.
#[export] Hint Resolve log_empty fits_bit_set fits_bit_clear fits_zero fits_dip_write fits_dip_init fits_ind_set fits_hb_set_n fits_hb_set_block bt_data : ctype.

(** A struct after an assignment to its fields. *)
Ltac ty_struct := intros ? []; split; cbn; rewrite ?length_insert; auto with ctype.

Ltac ty_step :=
  match goal with
  | |- tyq _ (ret _) => apply tyq_ret; auto with ctype
  | |- tyq _ fault => apply tyq_fault
  | |- tyq _ (panic _) => apply tyq_panic
  | |- tyq _ diverge => apply tyq_diverge
  | |- tyq _ (fun w => Blocked w) => apply tyq_blocked
  | |- tyq _ (gets _) => by apply tyq_gets
  | |- tyq _ (bind ?m _) =>
      first [eapply tyq_bind; [solve [eauto 2 with ctypes]|let H := fresh in intros ? H; cbv beta in H]
            |apply (tyq_bind (fun _ => True)); [|intros ? _]]
  | |- tyq _ (modify _) => apply ty_modify; ty_struct
  | |- tyq _ (mod_proc _ _) => apply ty_mod_proc; ty_struct
  | |- tyq _ (mod_inode _ _) => apply ty_mod_inode; ty_struct
  | |- tyq _ (mod_file _ _) => apply ty_mod_file; ty_struct
  | |- tyq _ (mod_buf _ _) => apply ty_mod_buf; ty_struct
  | |- tyq _ (mod_pipe _ _) => apply ty_mod_pipe; ty_struct
  | |- tyq _ (mod_log _) => apply ty_mod_log; ty_struct
  | |- tyq _ (mod_cons _) => apply ty_mod_cons; ty_struct
  | |- tyq _ (mod_uart _) => apply ty_mod_uart; ty_struct
  | |- tyq _ (for_loop _ _ _) => apply ty_for_loop; intros ?
  | |- tyq _ (for_ret _ _ _) => apply ty_for_ret; intros ?
  | |- tyq _ (waiting _) => apply ty_waiting; intros ?
  | |- tyq _ (waiting_for _ _) => apply ty_waiting_for; intros ?
  | |- tyq _ (if ?b then _ else _) => destruct b eqn:?
  | |- tyq _ (match ?x with _ => _ end) => destruct x eqn:?
  | |- tyq _ _ => solve [eauto 2 with ty ctype | eapply tyq_True; eauto 2 with ctypes | eauto 2 with ctypes]
  end.

(** What is not known yet is unfolded. *)
Ltac ty_unfold :=
  match goal with
  | |- tyq _ ?m => let h := head_of m in unfold h
  end.

Ltac ty_go := intros; repeat (ty_step || ty_unfold).

(** For a loop: induction on its fuel. *)
Ltac ty_loop n loop := induction n; intros; cbn [loop]; ty_go.

(** ** proc.c, part 1 *)

Lemma ty_sched : ty sched.
Proof. ty_go. Qed.
Lemma ty_sleep ch l : ty (sleep ch l).
Proof. ty_go. Qed.
Lemma ty_wakeup ch : ty (wakeup ch).
Proof. ty_go. Qed.
Lemma ty_kill pid : ty (kill pid).
Proof. ty_go. Qed.
#[export] Hint Resolve ty_sched ty_sleep ty_wakeup ty_kill : ty.

(** ** printf.c, uart.c *)

Lemma ty_wait_tx n : ty (wait_tx n).
Proof. ty_loop n wait_tx. Qed.
#[export] Hint Resolve ty_wait_tx : ty.
Lemma ty_uartputc_sync c : ty (uartputc_sync c).
Proof. apply (tyq_bind (fun _ => True)); [|ty_go]. intros w Hw. by apply ty_wait_tx. Qed.
#[export] Hint Resolve ty_uartputc_sync : ty.
Lemma ty_consputc c : ty (consputc c).
Proof. ty_go. Qed.
#[export] Hint Resolve ty_consputc : ty.
Lemma ty_consputs l : ty (consputs l).
Proof. ty_loop l consputs. Qed.
#[export] Hint Resolve ty_consputs : ty.
Lemma ty_printint x b s : ty (printint x b s).
Proof. ty_go. Qed.
#[export] Hint Resolve ty_printint : ty.
Lemma ty_printptr_loop n : forall x, ty (printptr_loop n x).
Proof. ty_loop n printptr_loop. Qed.
#[export] Hint Resolve ty_printptr_loop : ty.
Lemma ty_printptr x : ty (printptr x).
Proof. ty_go. Qed.
#[export] Hint Resolve ty_printptr : ty.
Lemma ty_printf_loop n : forall fmt ap, (length fmt <= n)%nat -> ty (printf_loop fmt ap).
Proof.
  induction n as [|n IH]; intros [|c [|c' fmt]] ap Hn; cbn in Hn; cbn [printf_loop]; try lia;
    try (assert (forall ap, ty (printf_loop fmt ap)) by (intros; apply IH; lia));
    try (assert (forall ap, ty (printf_loop (c' :: fmt) ap)) by (intros; apply IH; cbn; lia)); repeat ty_step; apply IH; cbn in *; lia.
Qed.
Lemma ty_printf fmt ap : ty (printf fmt ap).
Proof. unfold printf. pose proof (ty_printf_loop (length fmt) fmt ap (Nat.le_refl _)). ty_go. Qed.
#[export] Hint Resolve ty_printf : ty.
Lemma ty_procdump : ty procdump.
Proof. ty_go. Qed.
#[export] Hint Resolve ty_procdump : ty.

(** ** kalloc.c, vm.c *)

Lemma ty_kfree pa : ty (kfree pa).
Proof. ty_go. Qed.
Lemma ty_kalloc : ty kalloc.
Proof. ty_go. Qed.
#[export] Hint Resolve ty_kfree ty_kalloc : ty.
Lemma ty_freerange_loop n : forall p e, ty (freerange_loop n p e).
Proof. ty_loop n freerange_loop. Qed.
#[export] Hint Resolve ty_freerange_loop : ty.
Lemma ty_walk_loop n : forall p va a, ty (walk_loop n p va a).
Proof. ty_loop n walk_loop. Qed.
#[export] Hint Resolve ty_walk_loop : ty.
Lemma ty_walk p va a : ty (walk p va a).
Proof. ty_go. Qed.
Lemma ty_walkaddr p va : ty (walkaddr p va).
Proof. ty_go. Qed.
#[export] Hint Resolve ty_walk ty_walkaddr : ty.
Lemma ty_mappages_loop n : forall p a l pa pm, ty (mappages_loop n p a l pa pm).
Proof. ty_loop n mappages_loop. Qed.
#[export] Hint Resolve ty_mappages_loop : ty.
Lemma ty_mappages p va sz pa pm : ty (mappages p va sz pa pm).
Proof. ty_go. Qed.
#[export] Hint Resolve ty_mappages : ty.
Lemma ty_uvmunmap_loop n : forall p a l d, ty (uvmunmap_loop n p a l d).
Proof. ty_loop n uvmunmap_loop. Qed.
#[export] Hint Resolve ty_uvmunmap_loop : ty.
Lemma ty_uvmunmap p va n d : ty (uvmunmap p va n d).
Proof. ty_go. Qed.
Lemma ty_uvmdealloc p o n : ty (uvmdealloc p o n).
Proof. ty_go. Qed.
#[export] Hint Resolve ty_uvmunmap ty_uvmdealloc : ty.
Lemma ty_uvmalloc_loop n : forall p a o nw x, ty (uvmalloc_loop n p a o nw x).
Proof. ty_loop n uvmalloc_loop. Qed.
#[export] Hint Resolve ty_uvmalloc_loop : ty.
Lemma ty_uvmalloc p o n x : ty (uvmalloc p o n x).
Proof. ty_go. Qed.
#[export] Hint Resolve ty_uvmalloc : ty.
Lemma ty_freewalk d : forall p, ty (freewalk d p).
Proof. ty_loop d freewalk. Qed.
#[export] Hint Resolve ty_freewalk : ty.
Lemma ty_uvmfree p sz : ty (uvmfree p sz).
Proof. ty_go. Qed.
#[export] Hint Resolve ty_uvmfree : ty.
Lemma ty_uvmcopy_loop n : forall o nw i sz, ty (uvmcopy_loop n o nw i sz).
Proof. ty_loop n uvmcopy_loop. Qed.
#[export] Hint Resolve ty_uvmcopy_loop : ty.
Lemma ty_copyout_loop n : forall p va src, ty (copyout_loop n p va src).
Proof. ty_loop n copyout_loop. Qed.
#[export] Hint Resolve ty_copyout_loop : ty.
(** copyin() returns no more than was asked for. *)
Lemma ty_copyin_loop n : forall p va len d, tyq (fun r => (length r.2 <= length d + len)%nat) (copyin_loop n p va len d).
Proof.
  induction n as [|n IH]; intros p va [|len] d; cbn [copyin_loop]; try (apply tyq_ret; cbn; lia); [apply tyq_diverge|].
  apply (tyq_bind (fun _ => True)); [ty_go|]. intros pa _. destruct (pa =? 0); [apply tyq_ret; cbn; lia|].
  set (k := Z.to_nat (Z.min _ _)). assert (k <= S len)%nat by lia.
  eapply (tyq_bind (fun l => length l = k)); [apply tyq_gets; intros; apply length_mread|]. intros l Hl.
  eapply tyq_weaken; [apply IH|]. intros r. rewrite length_app. lia.
Qed.
#[export] Hint Resolve ty_copyin_loop : ctypes.
Lemma ty_copyinstr_loop n : forall p va len d, ty (copyinstr_loop n p va len d).
Proof. ty_loop n copyinstr_loop. Qed.
#[export] Hint Resolve ty_copyinstr_loop : ty.

(** ** sleeplock.c, bio.c, log.c *)

Lemma ty_mod_sl x f : ty (mod_sl x f).
Proof. ty_go. Qed.
#[export] Hint Resolve ty_mod_sl : ty.
Lemma ty_acquiresleep_loop n x : ty (acquiresleep_loop n x).
Proof. ty_loop n acquiresleep_loop. Qed.
#[export] Hint Resolve ty_acquiresleep_loop : ty.
Lemma ty_acquiresleep x : ty (acquiresleep x).
Proof. ty_go. Qed.
Lemma ty_releasesleep x : ty (releasesleep x).
Proof. ty_go. Qed.
#[export] Hint Resolve ty_acquiresleep ty_releasesleep : ty.
Lemma ty_bscan n : forall st te i, ty (bscan n st te i).
Proof. ty_loop n bscan. Qed.
#[export] Hint Resolve ty_bscan : ty.
Lemma ty_bget d b : ty (bget d b).
Proof. ty_go. Qed.
Lemma ty_disk_transfer i wr : ty (disk_transfer i wr).
Proof.
  eapply tyq_bind; [apply ty_get_buf|]. intros b Hb. destruct wr; [|ty_go].
  ty_modify_tac. intros x. destruct (_ =? _); [apply Hb|done].
Qed.
#[export] Hint Resolve ty_disk_transfer : ty.
Lemma ty_bread d b : ty (bread d b).
Proof. ty_go. Qed.
#[export] Hint Resolve ty_bget ty_bread : ty.
Lemma ty_bwrite i : ty (bwrite i).
Proof. ty_go. Qed.
Lemma ty_brelse i : ty (brelse i).
Proof. ty_go. Qed.
(** An index past the end of the array is a fault. *)
Lemma ty_lh_get i : tyq (fun _ => (i < 30)%nat) (lh_get i).
Proof.
  eapply tyq_bind; [apply (tyq_gets log_typed); intros s Hs; apply Hs|]. intros l Hl. unfold index.
  destruct (lh_block l !! i) eqn:E; [|apply tyq_fault]. apply tyq_ret. apply lookup_lt_Some in E. rewrite (lg_block _ Hl) in E. exact E.
Qed.
#[export] Hint Resolve ty_lh_get : ctypes.
Lemma ty_write_head : ty write_head.
Proof. ty_go. Qed.
#[export] Hint Resolve ty_bwrite ty_brelse ty_write_head : ty.
Lemma ty_begin_op_loop n : ty (begin_op_loop n).
Proof. ty_loop n begin_op_loop. Qed.
#[export] Hint Resolve ty_begin_op_loop : ty.
Lemma ty_begin_op : ty begin_op.
Proof. ty_go. Qed.
Lemma ty_commit : ty commit.
Proof. ty_go. Qed.
Lemma ty_end_op : ty end_op.
Proof. ty_go. Qed.
(** The block is added only when there is room in the header. *)
Lemma kp_lh_n_set i v : keeps (fun s => lh_n (k_log s)) (lh_set i v).
Proof. kp_go. Qed.
Lemma kp_lh_n_bpin i : keeps (fun s => lh_n (k_log s)) (bpin i).
Proof. kp_go. Qed.
Lemma ty_log_write b : ty (log_write b).
Proof.
  apply (tyq_bind (fun _ => True)); [ty_go|intros _ _]. apply tyq_look. intros lg.
  destruct ((_ <=? _) || _) eqn:Hn; [by apply tys_tyq, tyq_panic|]. apply orb_false_iff in Hn as [Hn _].
  destruct (_ <? 1); [by apply tys_tyq, tyq_panic|].
  intros w Hw HP. assert (lh_n (k_log (w_k w)) < LOGSIZE) as HP' by (rewrite HP; lia). clear HP. revert w Hw HP'.
  refine (tys_keep (fun s => lh_n (k_log s)) (fun n => n < LOGSIZE) (fun _ => True) _ _ _ _ _ _);
    [by apply kp_same; intros w; unfold get_buf, gets, index, bind; destruct (_ !! _)|ty_go|intros bf _].
  refine (tys_keep (fun s => lh_n (k_log s)) (fun n => n < LOGSIZE) (fun _ => True) _ _ _ _ _ _); [apply kp_lh_n_set|ty_go|intros _ _].
  apply (tys_bind _ (fun _ => True)); [|ty_go]. destruct (_ =? _); [|by apply tys_ret].
  refine (tys_keep (fun s => lh_n (k_log s)) (fun n => n < LOGSIZE) (fun _ => True) _ _ _ _ _ _); [apply kp_lh_n_bpin|ty_go|intros _ _].
  apply tys_mod_log. intros s [] HP. split; cbn; auto. change LOGSIZE with 30 in *. rewrite i32_small; lia.
Qed.
#[export] Hint Resolve ty_begin_op ty_commit ty_end_op ty_log_write : ty.

(** ** fs.c *)

Lemma ty_balloc_loop n : forall d b, ty (balloc_loop n d b).
Proof. ty_loop n balloc_loop. Qed.
#[export] Hint Resolve ty_balloc_loop : ty.
Lemma ty_balloc d : ty (balloc d).
Proof. ty_go. Qed.
Lemma ty_bfree d b : ty (bfree d b).
Proof. ty_go. Qed.
Lemma ty_iget d i : ty (iget d i).
Proof. ty_go. Qed.
#[export] Hint Resolve ty_balloc ty_bfree ty_iget : ty.
Lemma ty_ialloc_loop n : forall d t i, ty (ialloc_loop n d t i).
Proof. ty_loop n ialloc_loop. Qed.
#[export] Hint Resolve ty_ialloc_loop : ty.
Lemma ty_ialloc d t : ty (ialloc d t).
Proof. ty_go. Qed.
Lemma ty_iupdate ip : ty (iupdate ip).
Proof. ty_go. Qed.
Lemma ty_ilock ip : ty (ilock ip).
Proof. ty_go. Qed.
Lemma ty_iunlock ip : ty (iunlock ip).
Proof. ty_go. Qed.
#[export] Hint Resolve ty_ialloc ty_iupdate ty_ilock ty_iunlock : ty.
Lemma ty_bmap ip bn : ty (bmap ip bn).
Proof. ty_go. Qed.
Lemma ty_itrunc ip : ty (itrunc ip).
Proof. ty_go. Qed.
Lemma ty_iput ip : ty (iput ip).
Proof. ty_go. Qed.
#[export] Hint Resolve ty_bmap ty_itrunc ty_iput : ty.
Lemma ty_iunlockput ip : ty (iunlockput ip).
Proof. ty_go. Qed.
#[export] Hint Resolve ty_iunlockput : ty.
Lemma ty_readi_loop n : forall ip d o t m acc, ty (readi_loop n ip d o t m acc).
Proof. ty_loop n readi_loop. Qed.
#[export] Hint Resolve ty_readi_loop : ty.
Lemma ty_readi ip d o n : ty (readi ip d o n).
Proof. ty_go. Qed.
#[export] Hint Resolve ty_readi : ty.
Lemma ty_either_copyin src n : tyq (fun r => (length r.2 <= Z.to_nat n)%nat) (either_copyin src n).
Proof.
  destruct src as [va|pa|l]; cbn [either_copyin].
  - apply (tyq_bind (fun _ => True)); [ty_go|]. intros pt _. eapply tyq_weaken; [apply ty_copyin_loop|]. cbn. lia.
  - apply (tyq_bind (fun _ => True)); [by apply tyq_gets|]. intros m _. apply tyq_ret. cbn. by rewrite length_mread.
  - apply tyq_ret. cbn. rewrite length_take. lia.
Qed.
#[export] Hint Resolve ty_either_copyin : ctypes.

(** The bytes of a round stay within the block. *)
Lemma fits_chunk off n (l d : list Z) : (length l <= Z.to_nat (Z.min n (BSIZE - off mod BSIZE)))%nat -> length d = Z.to_nat BSIZE ->
  length (wrb d (Z.to_nat (off mod BSIZE)) l) = Z.to_nat BSIZE.
Proof.
  intros Hl Hd. pose proof (Z.mod_pos_bound off BSIZE ltac:(done)). change BSIZE with 1024 in *. rewrite length_wrb; lia.
Qed.
Lemma ty_writei_loop n : forall ip s o t m, ty (writei_loop n ip s o t m).
Proof. ty_loop n writei_loop. by eapply fits_chunk. Qed.
#[export] Hint Resolve ty_writei_loop : ty.
Lemma ty_writei ip s o n : ty (writei ip s o n).
Proof. ty_go. Qed.
#[export] Hint Resolve ty_writei : ty.
Lemma ty_dirlookup_loop n : forall d nm o, ty (dirlookup_loop n d nm o).
Proof. ty_loop n dirlookup_loop. Qed.
#[export] Hint Resolve ty_dirlookup_loop : ty.
Lemma ty_dirlookup d nm : ty (dirlookup d nm).
Proof. ty_go. Qed.
#[export] Hint Resolve ty_dirlookup : ty.
Lemma ty_dirlink_loop n : forall d o, ty (dirlink_loop n d o).
Proof. ty_loop n dirlink_loop. Qed.
#[export] Hint Resolve ty_dirlink_loop : ty.
Lemma ty_dirlink d nm i : ty (dirlink d nm i).
Proof. ty_go. Qed.
#[export] Hint Resolve ty_dirlink : ty.
Lemma ty_namex_loop n : forall p b nm ip, ty (namex_loop n p b nm ip).
Proof. ty_loop n namex_loop. Qed.
#[export] Hint Resolve ty_namex_loop : ty.
Lemma ty_namex p b : ty (namex p b).
Proof. ty_go. Qed.
#[export] Hint Resolve ty_namex : ty.

(** ** console.c, pipe.c, file.c *)

Abbreviation uart_ends := (fun s : kernel => (ut_w (k_uart s), ut_r (k_uart s))).

(** A byte is sent only when there is one. *)
Lemma ty_uartstart_loop n : ty (uartstart_loop n).
Proof.
  induction n as [|n IH]; cbn [uartstart_loop]; [apply tyq_diverge|]. apply tyq_look. intros u.
  destruct (Z.eqb_spec (ut_w u) (ut_r u)) as [|Hne]; [by apply tys_ret|].
  intros w Hw HP. assert ((uart_ends (w_k w)).1 <> (uart_ends (w_k w)).2) as HP' by (by rewrite HP). clear HP. revert w Hw HP'.
  refine (tys_keep uart_ends (fun x => x.1 <> x.2) (fun _ => True) _ _ _ _ _ _); [kp_go|ty_go|intros lsr _].
  destruct (_ =? 0); [by apply tys_ret|]. apply (tys_bind _ (fun _ => True)); [|ty_go].
  apply tys_mod_uart. intros s [B W R F] HP. cbn in HP. split; cbn; auto with ctype. rewrite ring_take64 by done. lia.
Qed.
#[export] Hint Resolve ty_uartstart_loop : ty.
Lemma ty_uartputc_wait n : ty (uartputc_wait n).
Proof. ty_loop n uartputc_wait. Qed.
#[export] Hint Resolve ty_uartputc_wait : ty.
Lemma uartputc_wait_room n : forall w a w', uartputc_wait n w = Ok a w' ->
  let u := k_uart (w_k w') in ut_w u <> u64 (ut_r u + UART_TX_BUF_SIZE).
Proof.
  induction n as [|n IH]; intros [s e] a w' E; [done|]. cbn [uartputc_wait] in E. rewrite bind_gets in E. cbn [w_k] in E.
  destruct (Z.eqb_spec (ut_w (k_uart s)) (u64 (ut_r (k_uart s) + UART_TX_BUF_SIZE))) as [|Hne].
  - apply bind_inv in E as (? & w1 & _ & E). by eapply IH.
  - by injection E as _ <-.
Qed.

(** A byte is stored only when there is room. *)
Lemma ty_uartputc c : ty (uartputc c).
Proof.
  apply (tyq_bind (fun _ => True)); [ty_go|intros _ _].
  apply (tyq_post (fun _ s => ut_w (k_uart s) <> u64 (ut_r (k_uart s) + UART_TX_BUF_SIZE)));
    [ty_go|intros w a w'; apply uartputc_wait_room|intros _].
  apply (tys_bind _ (fun _ => True)); [|ty_go]. apply tys_mod_uart. intros s [B W R F] HP.
  split; cbn; rewrite ?length_insert; auto with ctype. apply ring_put64; done.
Qed.
#[export] Hint Resolve ty_uartputc : ty.
Lemma ty_consolewrite_loop k : forall s i, ty (consolewrite_loop k s i).
Proof. ty_loop k consolewrite_loop. Qed.
#[export] Hint Resolve ty_consolewrite_loop : ty.
Lemma ty_consoleread_wait n : ty (consoleread_wait n).
Proof. ty_loop n consoleread_wait. Qed.
#[export] Hint Resolve ty_consoleread_wait : ty.
Lemma consoleread_wait_line n : forall w w', consoleread_wait n w = Ok true w' -> cons_r (k_cons (w_k w')) <> cons_w (k_cons (w_k w')).
Proof.
  induction n as [|n IH]; intros [s e] w' E; [done|]. cbn [consoleread_wait] in E. rewrite bind_gets in E. cbn [w_k] in E.
  destruct (Z.eqb_spec (cons_r (k_cons s)) (cons_w (k_cons s))) as [|Hne]; [|by injection E as <-].
  apply bind_inv in E as (i & w1 & _ & E). apply bind_inv in E as (kl & w2 & _ & E). destruct (negb _).
  - by apply bind_inv in E as (? & w3 & _ & [=]).
  - apply bind_inv in E as (? & w3 & _ & E). by eapply IH.
Qed.

(** A character of a line that is there is taken. *)
Lemma cons_take c : cons_typed c -> cons_r c <> cons_w c -> cons_typed (c <| cons_r ::= fun r => u32 (r + 1) |>).
Proof.
  intros [B R W E F O] Hne. pose proof (ring_empty _ _ W R (not_eq_sym Hne)).
  assert (cons_e c <> cons_r c) as Hn2 by (intros Eq; rewrite Eq, Z.sub_diag in O; change (u32 0) with 0 in O; lia).
  split; cbn; auto with ctype; rewrite !ring_take by done; lia.
Qed.

(** It is put back as it was. *)
Lemma cons_untake c : cons_typed c -> c <| cons_r ::= fun r => u32 (r + 1) |> <| cons_r ::= fun r => u32 (r - 1) |> = c.
Proof.
  intros [B R W E F O]. destruct c as [b r w e]. cbn in *. unfold upd, upd_cons_r. cbn. f_equal.
  unfold cuint, u32 in *. Z.to_euclidean_division_equations. lia.
Qed.

Lemma ty_consoleread_loop k : forall t d n, ty (consoleread_loop k t d n).
Proof.
  induction k as [|k IH]; intros t d n; cbn [consoleread_loop]; [by apply tyq_ret|].
  apply (tyq_post (fun ok s => ok = true -> cons_r (k_cons s) <> cons_w (k_cons s))); [ty_go|intros w ok w' E ->; by eapply consoleread_wait_line|].
  intros [|]; cbn [negb]; [|by apply tys_ret]. intros [s e] Hw HP. specialize (HP eq_refl). rewrite bind_gets. cbn [w_k] in *.
  set (c := nth _ _ _). unfold mod_cons at 1. rewrite bind_modify. set (w1 := mkWorld _ _).
  assert (cons_typed (k_cons s)) as Hc by apply Hw.
  assert (world_typed w1) as H1.
  { destruct Hw as [[] He]. split; [|done]. split; cbn [w1 w_k upd upd_k_cons k_cons]; auto. by apply cons_take. }
  destruct (c =? Ctrl "D"); [|by refine ((_ : ty _) w1 H1); ty_go].
  destruct (u32 n <? t); [|by apply tyq_ret].
  unfold mod_cons. rewrite bind_modify. apply tyq_ret; [done|].
  destruct Hw as [[] He]. split; [|done]. split; auto. cbn [w1 w_k upd upd_k_cons k_cons]. by rewrite cons_untake.
Qed.
#[export] Hint Resolve ty_consoleread_loop : ty.
Lemma ty_consoleread d n : ty (consoleread d n).
Proof. ty_go. Qed.
#[export] Hint Resolve ty_consoleread : ty.
(** The character before the end of the line being edited is dropped. *)
Lemma cons_erase c : cons_typed c -> cons_e c <> cons_w c -> cons_typed (c <| cons_e ::= fun e => u32 (e - 1) |>).
Proof.
  intros [B R W E F O] Hne.
  assert (u32 (cons_w c - cons_r c) <> u32 (cons_e c - cons_r c)) as Hd by (intros Eq; by apply Hne, (ring_inj _ _ (cons_r c))).
  pose proof (u32_range (cons_w c - cons_r c)).
  pose proof (ring_unput (cons_e c) (cons_r c) ltac:(lia)) as Eu.
  split; cbn [upd upd_cons_e cons_buf cons_r cons_w cons_e]; auto with ctype; rewrite Eu; lia.
Qed.

(** A character is added when there is room. *)
Lemma cons_add c x : cons_typed c -> u32 (cons_e c - cons_r c) < INPUT_BUF_SIZE ->
  cons_typed (c <| cons_buf ::= <[Z.to_nat (cons_e c mod INPUT_BUF_SIZE) := x]> |> <| cons_e ::= fun e => u32 (e + 1) |>).
Proof.
  intros [B R W E F O] Hlt. assert (INPUT_BUF_SIZE = 128) as Hi by done.
  pose proof (ring_put (cons_e c) (cons_r c) ltac:(lia)) as Eu.
  split; cbn [upd upd_cons_buf upd_cons_e cons_buf cons_r cons_w cons_e]; rewrite ?length_insert; auto with ctype; rewrite Eu; lia.
Qed.

(** The whole line is there. *)
Lemma cons_line c : cons_typed c -> cons_typed (c <| cons_w := cons_e c |>).
Proof. intros [B R W E F O]. split; cbn; auto with ctype. done. Qed.

Lemma ty_kill_line n : ty (kill_line n).
Proof.
  induction n as [|n IH]; cbn [kill_line]; [apply tyq_diverge|]. apply tyq_look. intros c.
  destruct (negb _ && _) eqn:Hb; [|by apply tys_ret]. apply andb_true_iff in Hb as [Hb%negb_true_iff%Z.eqb_neq _].
  apply (tys_bind _ (fun _ => True)); [|ty_go]. apply tys_mod_cons. intros s Hs <-. by apply cons_erase.
Qed.
#[export] Hint Resolve ty_kill_line : ty.
Lemma ty_consoleintr c : ty (consoleintr c).
Proof.
  apply (tyq_bind (fun _ => True)); [ty_go|intros _ _]. apply (tyq_bind (fun _ => True)); [|ty_go].
  destruct (_ =? Ctrl "P"); [ty_go|]. destruct (_ =? Ctrl "U"); [ty_go|]. destruct (_ || _).
  - apply tyq_look. intros cs. destruct (Z.eqb_spec (cons_e cs) (cons_w cs)) as [|Hne]; [by apply tys_ret|].
    apply (tys_bind _ (fun _ => True)); [|ty_go]. apply tys_mod_cons. intros s Hs <-. by apply cons_erase.
  - apply tyq_look. intros cs. destruct (negb _ && _) eqn:Hb; [|by apply tys_ret]. apply andb_true_iff in Hb as [_ Hb%Z.ltb_lt].
    refine (tys_keep k_cons (fun x => x = cs) (fun _ => True) _ _ _ _ _ _); [apply kp_consputc|ty_go|intros _ _].
    apply (tys_bind _ (fun _ => True)).
    { apply tys_mod_cons. intros s Hs Hcs. apply cons_add; [done|by rewrite Hcs]. }
    intros _ _. apply (tyq_bind (fun _ => True)); [by apply tyq_gets|]. intros cs' _. destruct (_ || _); [|by apply tyq_ret].
    apply (tyq_bind (fun _ => True)); [|ty_go]. apply ty_mod_cons. intros c'. apply cons_line.
Qed.
#[export] Hint Resolve ty_consoleintr : ty.
Lemma ty_uartintr_loop n : ty (uartintr_loop n).
Proof. ty_loop n uartintr_loop. Qed.
#[export] Hint Resolve ty_uartintr_loop : ty.
Lemma ty_uartintr : ty uartintr.
Proof. apply (tyq_bind (fun _ => True)); [|ty_go]. intros w Hw. by apply ty_uartintr_loop. Qed.
#[export] Hint Resolve ty_uartintr : ty.
Lemma ty_pipeclose pi wr : ty (pipeclose pi wr).
Proof. ty_go. Qed.
#[export] Hint Resolve ty_pipeclose : ty.
Lemma pipe_put_typed c p : pipe_full p = false -> pipe_typed p -> pipe_typed (pipe_put c p).
Proof.
  intros Hf%Z.eqb_neq [D R W F]. assert (PIPESIZE = 512) as Hi by done. pose proof (ring_full _ _ PIPESIZE W ltac:(lia) Hf).
  pose proof (ring_put (pi_nwrite p) (pi_nread p) ltac:(lia)) as Eu.
  split; cbn [pipe_put upd upd_pi_data upd_pi_nwrite pi_data pi_nread pi_nwrite]; rewrite ?length_insert; auto with ctype. rewrite Eu. lia.
Qed.
Lemma pipe_get_typed p : pipe_empty p = false -> pipe_typed p -> pipe_typed (pipe_get p).
Proof.
  intros He%Z.eqb_neq [D R W F]. split; cbn; auto with ctype. rewrite ring_take by done. lia.
Qed.

(** A byte is stored only when there is room. *)
Lemma ty_pipewrite_loop pi pr addr n f : forall i, ty (pipewrite_loop f pi pr addr i n).
Proof.
  induction f as [|f IH]; intros i; cbn [pipewrite_loop]; [apply tyq_diverge|]. destruct (i <? n); [|by apply tyq_ret].
  apply tyq_look_pipe. intros p Hp.
  refine (tys_keep k_pipes (fun x => x !! pi = Some p) (fun _ => True) _ _ _ _ _ _); [destruct (pi_readopen p); kp_go|ty_go|intros kl _].
  destruct (negb _); [apply tys_tyq; ty_go|]. destruct (pipe_full p) eqn:Hf; [apply tys_tyq; ty_go|].
  refine (tys_keep k_pipes (fun x => x !! pi = Some p) (fun _ => True) _ _ _ _ _ _); [kp_go|ty_go|intros q _].
  refine (tys_keep k_pipes (fun x => x !! pi = Some p) (fun _ => True) _ _ _ _ _ _); [kp_go|ty_go|intros r _].
  destruct (_ =? -1); [by apply tys_ret|]. apply (tys_bind _ (fun _ => True)); [|ty_go].
  apply tys_mod_pipe. by apply pipe_put_typed.
Qed.
#[export] Hint Resolve ty_pipewrite_loop : ty.
Lemma ty_pipewrite pi addr n : ty (pipewrite pi addr n).
Proof. ty_go. Qed.
#[export] Hint Resolve ty_pipewrite : ty.
Lemma ty_piperead_wait f pi pr : ty (piperead_wait f pi pr).
Proof. ty_loop f piperead_wait. Qed.
#[export] Hint Resolve ty_piperead_wait : ty.
Lemma ty_piperead_copy k : forall pi pr a i, ty (piperead_copy k pi pr a i).
Proof.
  induction k as [|k IH]; intros pi pr a i; cbn [piperead_copy]; [by apply tyq_ret|]. apply tyq_look_pipe. intros p Hp.
  destruct (pipe_empty p) eqn:He; [by apply tys_ret|]. apply (tys_bind _ (fun _ => True)); [|ty_go].
  apply tys_mod_pipe. by apply pipe_get_typed.
Qed.
#[export] Hint Resolve ty_piperead_copy : ty.
Lemma ty_piperead pi addr n : ty (piperead pi addr n).
Proof. ty_go. Qed.
Lemma ty_filealloc : ty filealloc.
Proof. ty_go. Qed.
Lemma ty_fileclose f : ty (fileclose f).
Proof. ty_go. Qed.
Lemma ty_pipealloc : ty pipealloc.
Proof. ty_go. Qed.
#[export] Hint Resolve ty_piperead ty_filealloc ty_fileclose ty_pipealloc : ty.
Lemma ty_devsw_read mj rd d n : devsw_read mj = Some rd -> ty (rd d n).
Proof. unfold devsw_read. destruct (_ =? _); intros; simplify_eq. auto with ty. Qed.
#[export] Hint Resolve ty_devsw_read : ty.
Lemma ty_devsw_write mj wr s n : devsw_write mj = Some wr -> ty (wr s n).
Proof. unfold devsw_write. destruct (_ =? _); intros; simplify_eq. ty_go. Qed.
#[export] Hint Resolve ty_devsw_write : ty.
Lemma ty_fileread f a n : ty (fileread f a n).
Proof. ty_go. Qed.
#[export] Hint Resolve ty_fileread : ty.
Lemma ty_filewrite_loop k : forall f ip a i n, ty (filewrite_loop k f ip a i n).
Proof. ty_loop k filewrite_loop. Qed.
#[export] Hint Resolve ty_filewrite_loop : ty.
Lemma ty_filewrite f a n : ty (filewrite f a n).
Proof. ty_go. Qed.
#[export] Hint Resolve ty_filewrite : ty.

(** ** proc.c, part 2 *)

Lemma ty_allocpid : tyq cint allocpid.
Proof. ty_go. Qed.
#[export] Hint Resolve ty_allocpid : ctypes.
Lemma ty_proc_pagetable i : ty (proc_pagetable i).
Proof. ty_go. Qed.
Lemma ty_freeproc i : ty (freeproc i).
Proof. ty_go. Qed.
Lemma ty_allocproc : ty allocproc.
Proof. ty_go. Qed.
Lemma ty_fork : ty fork.
Proof. ty_go. Qed.
#[export] Hint Resolve ty_proc_pagetable ty_freeproc ty_allocproc ty_fork : ty.
Lemma ty_exit {A} st : cint st -> ty (exit st : K A).
Proof. ty_go. Qed.
#[export] Hint Resolve ty_exit : ty.
Lemma ty_wait_scan p addr n : forall i hk, ty (wait_scan n i p addr hk).
Proof. ty_loop n wait_scan. Qed.
#[export] Hint Resolve ty_wait_scan : ty.
Lemma ty_wait_loop n p addr : ty (wait_loop n p addr).
Proof. ty_loop n wait_loop. Qed.
#[export] Hint Resolve ty_wait_loop : ty.
Lemma ty_wait addr : ty (wait addr).
Proof. ty_go. Qed.
#[export] Hint Resolve ty_wait : ty.

(** ** exec.c, syscall.c, sysproc.c, sysfile.c *)

Lemma ty_loadseg_loop n : forall p va ip o sz i, ty (loadseg_loop n p va ip o sz i).
Proof. ty_loop n loadseg_loop. Qed.
#[export] Hint Resolve ty_loadseg_loop : ty.
Lemma ty_exec_segments n : forall ip p o sz, ty (exec_segments n ip p o sz).
Proof. ty_loop n exec_segments. Qed.
#[export] Hint Resolve ty_exec_segments : ty.
Lemma ty_exec_args l : forall p sp sb u, ty (exec_args l p sp sb u).
Proof. ty_loop l exec_args. Qed.
#[export] Hint Resolve ty_exec_args : ty.
Lemma ty_exec_stack p path argv elf pt sz : ty (exec_stack p path argv elf pt sz).
Proof. ty_go. Qed.
Lemma ty_exec path argv : ty (exec path argv).
Proof. ty_go. Qed.
Lemma ty_argint n : tyq cint (argint n).
Proof. ty_go. Qed.
#[export] Hint Resolve ty_exec_stack ty_exec : ty.
#[export] Hint Resolve ty_argint : ctypes.
Lemma ty_argstr n m : ty (argstr n m).
Proof. ty_go. Qed.
#[export] Hint Resolve ty_argstr : ty.
Lemma ty_sys_sleep_loop f t n : ty (sys_sleep_loop f t n).
Proof. ty_loop f sys_sleep_loop. Qed.
#[export] Hint Resolve ty_sys_sleep_loop : ty.
Lemma ty_argfd n : ty (argfd n).
Proof. ty_go. Qed.
Lemma ty_fdalloc f : ty (fdalloc f).
Proof. ty_go. Qed.
#[export] Hint Resolve ty_argfd ty_fdalloc : ty.
Lemma ty_isdirempty_loop n : forall d o, ty (isdirempty_loop n d o).
Proof. ty_loop n isdirempty_loop. Qed.
#[export] Hint Resolve ty_isdirempty_loop : ty.
Lemma ty_create path type major minor : cshort major -> cshort minor -> ty (create path type major minor).
Proof. ty_go. Qed.
#[export] Hint Resolve ty_create : ty.
Lemma ty_open_inode ip om : ty (open_inode ip om).
Proof. ty_go. Qed.
#[export] Hint Resolve ty_open_inode : ty.
Lemma ty_exec_fetch n : forall u i l, ty (exec_fetch n u i l).
Proof. ty_loop n exec_fetch. Qed.
#[export] Hint Resolve ty_exec_fetch : ty.
Lemma ty_kfree_all l : ty (kfree_all l).
Proof. ty_loop l kfree_all. Qed.
#[export] Hint Resolve ty_kfree_all : ty.
Lemma ty_sys_link : ty sys_link.
Proof. ty_go. Qed.
Lemma ty_sys_unlink : ty sys_unlink.
Proof. ty_go. Qed.
Lemma ty_syscalls pad num f : syscalls pad num = Some f -> ty f.
Proof. unfold syscalls. intros E. repeat case_match; simplify_eq; ty_go. Qed.
#[export] Hint Resolve ty_sys_link ty_sys_unlink ty_syscalls : ty.
Lemma ty_syscall pad : ty (syscall pad).
Proof. ty_go. Qed.
#[export] Hint Resolve ty_syscall : ty.

(** ** trap.c *)


(** ** virtio_disk.c *)

Lemma ty_intr_loop n : ty (intr_loop n).
Proof. ty_loop n intr_loop. Qed.
#[export] Hint Resolve ty_intr_loop : ty.
Lemma ty_virtio_disk_intr R : ty (virtio_disk_intr R).
Proof. ty_go. Qed.
Lemma ty_devintr R : ty (devintr R).
Proof. ty_go. Qed.
Lemma ty_usertrap pad R : ty (usertrap pad R).
Proof. ty_go. Qed.
Lemma ty_kerneltrap R : ty (kerneltrap R).
Proof. ty_go. Qed.
#[export] Hint Resolve ty_virtio_disk_intr ty_devintr ty_usertrap ty_kerneltrap : ty.

(** ** The types are kept *)

(** A disk of blocks of BSIZE bytes. *)
Definition disk_typed (disk : Z -> block) : Prop := forall b, length (disk b) = Z.to_nat BSIZE.

Lemma power_on_typed end_ sy disk : disk_typed disk -> typed (power_on end_ sy disk).
Proof.
  intros Hd. split; cbn [power_on k_procs k_inodes k_files k_bufs k_pipes k_log k_cons k_uart k_ticks k_nextpid k_disk]; auto with ctype.
  all: try (split; [by rewrite length_replicate|]; apply Forall_replicate; split; auto with ctype).
  - apply map_Forall_empty.
  - split; auto with ctype. apply Forall_replicate. auto with ctype.
  - split; auto with ctype; done.
  - split; auto; cbn; unfold cuint64; lia || done.
Qed.

Lemma ty_main_boot R : ty (main_boot R).
Proof. ty_go. Qed.

(** C14: The kernel stores only where there is room.  In every state of a run
    the bytes in a pipe are at most PIPESIZE, those waiting to be sent by the
    UART at most UART_TX_BUF_SIZE, the characters typed and not yet read at most
    INPUT_BUF_SIZE, with the complete lines at their front, and the blocks of the
    log header at most LOGSIZE; every buffer and every disk block holds exactly
    BSIZE bytes; the tables of processes, inodes, files and buffers and the
    arrays ofile, addrs and data have their declared lengths and a process name
    at most 16 bytes; and the counters (reference counts of inodes, files and
    buffers, ring positions, file offsets, log.outstanding, ticks, nextpid), pid,
    killed, xstate, the logged block numbers, the type, major, minor and nlink of
    an inode and the major of a file are in the range of their C types.  The boot of a machine with a
    disk of BSIZE-byte blocks establishes this; and when the other processes keep
    it, a system call, a trap from user space and a trap from kernel space keep
    it, however they end (returning, sleeping, in a panic or in a fault).
    Recovery of the log is not part of these. *)
Theorem kernel_types pad R end_ sy disk w (Hd : disk_typed disk) (Hw : world_typed w) :
  typed (w_k (final (main_boot R (mkWorld (power_on end_ sy disk) [])))) /\ world_typed (final (syscall pad w)) /\
  world_typed (final (usertrap pad R w)) /\ world_typed (final (kerneltrap R w)).
Proof.
  split; [apply ty_main_boot; split; [by apply power_on_typed|constructor]|]. split_and!; [by apply (ty_syscall pad)|by apply (ty_usertrap pad R)|by apply (ty_kerneltrap R)].
Qed.

(** An instance of [kernel_types]: a process in the middle of a trap. *)
Lemma kernel_types_witness :
  world_typed (mkWorld trapped []) /\ world_typed (final (usertrap [] (fun _ _ => 0) (mkWorld trapped []))).
Proof.
  assert (world_typed (mkWorld trapped [])) as H.
  { split; [|constructor]. pose proof (power_on_typed (PHYSTOP - 16 * PGSIZE) (mkSymbols 0 0 0 0 0 0 0) (fun _ => replicate 1024 0) (fun _ => eq_refl)) as [[] ? ? ? ? ? ? ? ? ?].
    split; auto. split; [reflexivity|]. cbn [trapped one_proc k_procs upd upd_k_procs upd_k_csr upd_k_cur w_k]. apply Forall_alter'; [|ty_struct].
    apply Forall_insert; [done|]. split; auto with ctype. }
  split; [exact H|].
  apply (kernel_types [] (fun _ _ => 0) 0 (mkSymbols 0 0 0 0 0 0 0) (fun _ => replicate 1024 0) (mkWorld trapped []) (fun _ => eq_refl) H).
Defined.
