(* ===== verification/Ring.v ===== *)
(** The doubly linked ring of bio.c as a list.

    [chain nx pv x l y] says that following [nx] from [x] visits the elements
    of [l] and then reaches [y], and that [pv] goes back the same way.  The
    buffers, most recently used first, are the list [ord] for which
    [ring bufs ord] holds.  The pointer updates of brelse() and binit() are the
    list operations move-to-front and cons. *)

From S2P Require Import Prelude Layout Kernel Sched Bio.

Fixpoint chain (nx pv : nat -> nat) (x : nat) (l : list nat) (y : nat) : Prop :=
  match l with
  | [] => nx x = y /\ pv y = x
  | z :: l' => nx x = z /\ pv z = x /\ chain nx pv z l' y
  end.

Lemma chain_ext nx pv nx' pv' l : forall x y,
  (forall j, j ∈ x :: l -> nx' j = nx j) -> (forall j, j ∈ l ++ [y] -> pv' j = pv j) ->
  chain nx pv x l y -> chain nx' pv' x l y.
Proof.
  induction l as [|z l IH]; intros x y Hn Hp; simpl.
  - intros [H1 H2]. rewrite Hn, Hp by set_solver. done.
  - intros (H1 & H2 & H3). rewrite Hn, Hp by set_solver. split_and!; auto.
    apply IH; auto; set_solver.
Qed.

Lemma chain_app nx pv l1 i l2 : forall x y,
  chain nx pv x (l1 ++ i :: l2) y <-> chain nx pv x l1 i /\ chain nx pv i l2 y.
Proof.
  induction l1 as [|z l1 IH]; intros x y; simpl; [tauto|]. rewrite IH. tauto.
Qed.

Lemma chain_rev nx pv l : forall x y, chain nx pv x l y -> chain pv nx y (rev l) x.
Proof.
  induction l as [|z l IH]; intros x y; simpl; [tauto|]. intros (H1 & H2 & H3).
  apply chain_app. split; [by apply IH|]. simpl. done.
Qed.

(** Unlinking [i]: its neighbours point to each other. *)
Lemma chain_unlink nx pv i l2 y l1 : forall x,
  NoDup (x :: l1 ++ i :: l2) -> y ∉ l1 ++ i :: l2 ->
  chain nx pv x (l1 ++ i :: l2) y ->
  chain (fset nx (pv i) (nx i)) (fset pv (nx i) (pv i)) x (l1 ++ l2) y.
Proof.
  induction l1 as [|w l1 IH]; intros x Hd Hy.
  - simpl. intros (H1 & H2 & H3). rewrite H2. destruct l2 as [|z l2]; simpl in *.
    + destruct H3 as [-> H3]. rewrite !fset_eq. done.
    + destruct H3 as (-> & H4 & H5). rewrite !fset_eq. split_and!; auto.
      eapply chain_ext; [| |exact H5].
      * intros j Hj. apply fset_ne. intros ->. apply NoDup_cons in Hd as [Hd _]. set_solver.
      * intros j Hj. apply fset_ne. intros ->. apply elem_of_app in Hj as [Hj|Hj].
        -- do 2 (apply NoDup_cons in Hd as [_ Hd]). apply NoDup_cons in Hd as [Hd _]. done.
        -- set_solver.
  - simpl. intros (H1 & H2 & H3). apply NoDup_cons in Hd as [Hx Hd].
    assert (pv i ∈ w :: l1 /\ nx i ∈ y :: l2) as [Hpi Hni].
    { apply chain_app in H3 as [H4 H5]. split.
      - clear - H4. revert w H4. induction l1 as [|u l1 IH]; intros w; simpl.
        + intros [_ ->]. set_solver.
        + intros (_ & _ & H). apply IH in H. set_solver.
      - destruct l2; simpl in H5; [destruct H5 as [-> _]|destruct H5 as (-> & _)]; set_solver. }
    split_and!.
    + rewrite fset_ne; [done|]. intros ->. set_solver.
    + rewrite fset_ne; [done|]. intros ->. apply NoDup_cons in Hd as [Hw _]. set_solver.
    + apply IH; auto. set_solver.
Qed.

(** Linking [i] between the head [h] and its first element. *)
Lemma chain_push nx pv h i l :
  NoDup (h :: l) -> i ∉ h :: l -> chain nx pv h l h ->
  chain (fset (fset nx i (nx h)) h i) (fset (fset pv i h) (nx h) i) h (i :: l) h.
Proof.
  intros Hd Hi Hc. apply NoDup_cons in Hd as [Hh Hd].
  simpl. rewrite fset_eq. split; [done|].
  assert (nx h <> i) as Hne by (destruct l; simpl in Hc; [destruct Hc as [-> _]|destruct Hc as (-> & _)]; set_solver).
  split; [rewrite fset_ne, fset_eq by done; done|].
  destruct l as [|z l]; simpl in *.
  - destruct Hc as [-> Hc]. rewrite fset_eq. rewrite fset_ne by set_solver. by rewrite fset_eq.
  - destruct Hc as (-> & H1 & H2). rewrite fset_eq, fset_ne, fset_eq by set_solver. split_and!; auto.
    apply NoDup_cons in Hd as [Hz Hd]. eapply chain_ext; [| |exact H2].
    + intros j Hj. rewrite !fset_ne by set_solver. done.
    + intros j Hj. apply elem_of_app in Hj as [Hj|Hj].
      * rewrite !fset_ne by (intros ->; set_solver). done.
      * apply list_elem_of_singleton in Hj as ->. rewrite !fset_ne by set_solver. done.
Qed.

(** ** The ring in the buffer table *)

Definition nxt (bufs : list buf) (j : nat) : nat := match bufs !! j with Some b => b_next b | None => O end.
Definition prv (bufs : list buf) (j : nat) : nat := match bufs !! j with Some b => b_prev b | None => O end.

Record ring (bufs : list buf) (ord : list nat) : Prop := {
  ring_len : length bufs = S NBUF;
  ring_perm : ord ≡ₚ seq 0 NBUF;
  ring_chain : chain (nxt bufs) (prv bufs) bhead ord bhead;
}.

(** A buffer without its links. *)
Definition strip (b : buf) : buf := b <| b_prev := O |> <| b_next := O |>.

Definition set_next (a v : nat) (bufs : list buf) : list buf := alter (fun x => x <| b_next := v |>) a bufs.
Definition set_prev (a v : nat) (bufs : list buf) : list buf := alter (fun x => x <| b_prev := v |>) a bufs.

Lemma length_set_next a v bufs : length (set_next a v bufs) = length bufs.
Proof. apply length_alter. Qed.
Lemma length_set_prev a v bufs : length (set_prev a v bufs) = length bufs.
Proof. apply length_alter. Qed.

Lemma nxt_alter f (a : nat) bufs j :
  (forall b, b_next (f b) = b_next b) -> nxt (alter f a bufs) j = nxt bufs j.
Proof.
  intros H. unfold nxt. destruct (decide (j = a)) as [->|].
  - rewrite list_lookup_alter_eq. destruct (bufs !! a); simpl; auto.
  - by rewrite list_lookup_alter_ne.
Qed.
Lemma prv_alter f (a : nat) bufs j :
  (forall b, b_prev (f b) = b_prev b) -> prv (alter f a bufs) j = prv bufs j.
Proof.
  intros H. unfold prv. destruct (decide (j = a)) as [->|].
  - rewrite list_lookup_alter_eq. destruct (bufs !! a); simpl; auto.
  - by rewrite list_lookup_alter_ne.
Qed.

Lemma nxt_set_next a v bufs j : (a < length bufs)%nat -> nxt (set_next a v bufs) j = fset (nxt bufs) a v j.
Proof.
  intros Ha. unfold nxt, fset, set_next. destruct (decide (j = a)) as [->|].
  - rewrite list_lookup_alter_eq. by destruct (lookup_lt_is_Some_2 _ _ Ha) as [b ->].
  - by rewrite list_lookup_alter_ne.
Qed.
Lemma prv_set_prev a v bufs j : (a < length bufs)%nat -> prv (set_prev a v bufs) j = fset (prv bufs) a v j.
Proof.
  intros Ha. unfold prv, fset, set_prev. destruct (decide (j = a)) as [->|].
  - rewrite list_lookup_alter_eq. by destruct (lookup_lt_is_Some_2 _ _ Ha) as [b ->].
  - by rewrite list_lookup_alter_ne.
Qed.
Lemma nxt_set_prev a v bufs j : nxt (set_prev a v bufs) j = nxt bufs j.
Proof. by apply nxt_alter. Qed.
Lemma prv_set_next a v bufs j : prv (set_next a v bufs) j = prv bufs j.
Proof. by apply prv_alter. Qed.

Lemma strip_alter f (a : nat) (bufs : list buf) :
  (forall b, strip (f b) = strip b) -> strip <$> alter f a bufs = strip <$> bufs.
Proof.
  intros H. apply list_eq. intros j. rewrite !list_lookup_fmap.
  destruct (decide (j = a)) as [->|]; [|by rewrite list_lookup_alter_ne].
  rewrite list_lookup_alter_eq. destruct (bufs !! a); simpl; [|done]. by rewrite H.
Qed.

(** The two halves of the list surgery in brelse(). *)
Definition unlink_buf (i : nat) (bufs : list buf) : list buf :=
  set_next (prv bufs i) (nxt bufs i) (set_prev (nxt bufs i) (prv bufs i) bufs).
Definition push_buf (i : nat) (bufs : list buf) : list buf :=
  let h := nxt bufs bhead in
  set_next bhead i (set_prev h i (set_prev i bhead (set_next i h bufs))).

Lemma strip_unlink i bufs : strip <$> unlink_buf i bufs = strip <$> bufs.
Proof. unfold unlink_buf, set_next, set_prev. by rewrite !strip_alter. Qed.
Lemma strip_push i bufs : strip <$> push_buf i bufs = strip <$> bufs.
Proof. unfold push_buf, set_next, set_prev. by rewrite !strip_alter. Qed.

Lemma ring_elem bufs ord i : ring bufs ord -> i ∈ ord -> (i < NBUF)%nat.
Proof. intros [_ Hp _] Hi. rewrite Hp in Hi. apply elem_of_seq in Hi. lia. Qed.

Lemma ring_nodup bufs ord : ring bufs ord -> NoDup (bhead :: ord).
Proof.
  intros R. apply NoDup_cons. split.
  - intros Hi%(ring_elem _ _ _ R). unfold bhead in Hi. lia.
  - rewrite (ring_perm _ _ R). apply NoDup_seq.
Qed.

Lemma chain_bound nx pv l : forall x y n,
  chain nx pv x l y -> Forall (fun j => j < n)%nat (x :: l ++ [y]) -> forall i, i ∈ x :: l -> (nx i < n)%nat.
Proof.
  induction l as [|z l IH]; intros x y n Hc Hf i Hi; simpl in *.
  - assert (i = x) as -> by set_solver. destruct Hc as [-> _]. rewrite Forall_forall in Hf.
    apply Hf. set_solver.
  - destruct Hc as (H1 & H2 & H3). apply Forall_cons in Hf as [Hx Hf].
    apply elem_of_cons in Hi as [->|Hi]; [|by apply (IH z y n)].
    rewrite H1. by apply Forall_cons in Hf as [? _].
Qed.

Lemma ring_bounds bufs ord i :
  ring bufs ord -> i ∈ bhead :: ord -> (nxt bufs i < S NBUF /\ prv bufs i < S NBUF)%nat.
Proof.
  intros R Hi. assert (Forall (fun j => j < S NBUF)%nat (bhead :: ord)) as Hf.
  { apply Forall_forall. intros j [->|Hj]%elem_of_cons; [unfold bhead; lia|].
    apply (ring_elem _ _ _ R) in Hj. lia. }
  apply Forall_cons in Hf as [Hh Hf]. pose proof (ring_chain _ _ R) as Hc. split.
  - eapply chain_bound; [exact Hc| |done]. constructor; [done|]. apply Forall_app. auto.
  - eapply chain_bound; [apply chain_rev, Hc| |].
    + constructor; [done|]. apply Forall_app. split; [by apply Forall_rev|auto].
    + apply elem_of_cons in Hi as [->|Hi]; [set_solver|]. right. by rewrite <- Permutation_rev.
Qed.

Lemma unlink_chain bufs l1 i l2 :
  ring bufs (l1 ++ i :: l2) ->
  length (unlink_buf i bufs) = S NBUF /\
  chain (nxt (unlink_buf i bufs)) (prv (unlink_buf i bufs)) bhead (l1 ++ l2) bhead.
Proof.
  intros R. unfold unlink_buf. rewrite length_set_next, length_set_prev. split; [apply R|].
  destruct (ring_bounds bufs _ i R ltac:(set_solver)) as [B1 B2].
  pose proof (ring_len _ _ R) as Hl. pose proof (ring_nodup _ _ R) as Hd.
  eapply chain_ext; [| |apply (chain_unlink (nxt bufs) (prv bufs) i l2 bhead l1 bhead Hd)].
  - intros j _. rewrite nxt_set_next by (rewrite length_set_prev; lia).
    unfold fset. destruct (decide (j = prv bufs i)); [done|]. apply nxt_set_prev.
  - intros j _. rewrite prv_set_next, prv_set_prev by lia. done.
  - by apply NoDup_cons in Hd as [? _].
  - apply R.
Qed.

Lemma push_chain bufs i l :
  length bufs = S NBUF -> (i < NBUF)%nat -> (nxt bufs bhead < S NBUF)%nat ->
  NoDup (bhead :: l) -> i ∉ bhead :: l -> chain (nxt bufs) (prv bufs) bhead l bhead ->
  chain (nxt (push_buf i bufs)) (prv (push_buf i bufs)) bhead (i :: l) bhead.
Proof.
  intros Hl Hi Hh Hd Hni Hc. unfold push_buf.
  eapply chain_ext; [| |apply (chain_push (nxt bufs) (prv bufs) bhead i l Hd Hni Hc)].
  - intros j _. unfold bhead in *.
    rewrite nxt_set_next by (rewrite !length_set_prev, length_set_next; lia).
    unfold fset at 1 2. destruct (decide (j = NBUF)); [done|].
    rewrite !nxt_set_prev, nxt_set_next by lia. done.
  - intros j _. rewrite prv_set_next. rewrite prv_set_prev by (rewrite length_set_prev, length_set_next; lia).
    unfold fset at 1 2. destruct (decide (j = nxt bufs bhead)); [done|].
    rewrite prv_set_prev by (rewrite length_set_next; lia).
    unfold fset. destruct (decide (j = i)); [done|]. by rewrite prv_set_next.
Qed.

(** Releasing [i] moves it to the front. *)
Lemma move_front_ring bufs l1 i l2 :
  ring bufs (l1 ++ i :: l2) -> ring (push_buf i (unlink_buf i bufs)) (i :: l1 ++ l2).
Proof.
  intros R. destruct (unlink_chain _ _ _ _ R) as [U1 U2].
  pose proof (ring_nodup _ _ R) as Hd. pose proof (ring_elem _ _ i R ltac:(set_solver)) as Hi.
  assert (NoDup (bhead :: l1 ++ l2) /\ i ∉ bhead :: l1 ++ l2) as [Hd2 Hn].
  { rewrite app_comm_cons in Hd. rewrite <- Permutation_middle in Hd.
    apply NoDup_cons in Hd as [? ?]. done. }
  split.
  - unfold push_buf. rewrite length_set_next, !length_set_prev, length_set_next. done.
  - rewrite <- (ring_perm _ _ R). by rewrite Permutation_middle.
  - apply push_chain; auto. eapply (chain_bound (nxt (unlink_buf i bufs))); [exact U2| |set_solver].
    apply Forall_forall. intros j Hj. destruct (decide (j = bhead)) as [->|]; [unfold bhead; lia|].
    assert (j ∈ l1 ++ i :: l2) as Hj2 by set_solver. apply (ring_elem _ _ _ R) in Hj2. lia.
Qed.
