(* ===== verification/Cache.v ===== *)
(** The buffer cache as a map from block numbers to contents.

    First, what each routine of bio.c does to the buffer table when it does
    not have to wait; then [cache], the invariant that relates the table to
    the blocks the file system sees ([view]), to the references held on them
    ([pin]) and to the locks ([lck]), and the effect of bread(), bwrite(),
    brelse(), bpin() and bunpin() on that abstract state. *)

From S2P Require Import Prelude Layout Kernel Sched Bio Ring.

(** ** A process that runs without spinlocks *)

Record proc_ctx (s : kernel) (me : nat) (pid : Z) : Prop := {
  pc_cur : k_cur s = Some me;
  pc_held : k_held s = [];
  pc_len : length (k_procs s) = NPROC;
  pc_me : exists p, k_procs s !! me = Some p /\ p_pid p = pid;
}.

Definition woken (ch : chan) (me : nat) (ps : list proc) : list proc :=
  imap (fun i p => if decide (Some me = Some i) then p else wake ch p) ps.

Arguments woken : simpl never.

Lemma proc_ctx_woken s me pid ch bs :
  proc_ctx s me pid -> proc_ctx (s <| k_bufs := bs |> <| k_procs ::= woken ch me |>) me pid.
Proof.
  intros [H1 H2 H3 (p & H4 & H5)]. split; cbn; auto.
  - unfold woken. by rewrite length_imap.
  - exists p. split; [|done]. unfold woken. rewrite list_lookup_imap, H4. cbn.
    by rewrite decide_True.
Qed.

Lemma proc_ctx_bufs s me pid bs : proc_ctx s me pid -> proc_ctx (s <| k_bufs := bs |>) me pid.
Proof. by intros [H1 H2 H3 H4]. Qed.

Lemma get_buf_ok i b s e : k_bufs s !! i = Some b -> get_buf i (mkWorld s e) = Ok b (mkWorld s e).
Proof. intros H. unfold get_buf. rewrite bind_gets. by apply index_ok. Qed.

Lemma mod_buf_ok i f b s e :
  k_bufs s !! i = Some b ->
  mod_buf i f (mkWorld s e) = Ok tt (mkWorld (s <| k_bufs := <[i := f b]> (k_bufs s) |>) e).
Proof.
  intros H. unfold mod_buf. rewrite (bind_ok _ _ _ _ _ (get_buf_ok _ _ _ _ H)).
  unfold modify. cbn. do 2 f_equal. kstate. by apply list_alter_insert.
Qed.

Lemma mypid_ok s me pid e : k_cur s = Some me -> (exists p, k_procs s !! me = Some p /\ p_pid p = pid) ->
  mypid (mkWorld s e) = Ok pid (mkWorld s e).
Proof.
  intros Hc (p & Hp & <-). unfold mypid. rewrite (bind_ok _ _ _ _ _ (curproc_ok _ (mkWorld s e) Hc)).
  by rewrite (bind_ok _ _ _ _ _ (get_proc_ok _ _ (mkWorld s e) Hp)).
Qed.

Lemma wakeup_ok ch s me e :
  k_cur s = Some me -> length (k_procs s) = NPROC -> (forall i, i <> me -> LkProc i ∉ k_held s) ->
  wakeup ch (mkWorld s e) = Ok tt (mkWorld (s <| k_procs ::= woken ch me |>) e).
Proof.
  intros Hc Hl Hh. rewrite wakeup_run; [|done|].
  - f_equal. unfold kmod; cbn. f_equal. rewrite Hc. done.
  - intros i Hi. apply Hh. cbn in Hi. congruence.
Qed.

(** ** Sleep-locks of buffers, when they are free or ours *)

Section Steps.
Context (me : nat) (pid : Z) (e : list (kernel -> kernel)).

Lemma acquiresleep_free i b s :
  proc_ctx s me pid -> k_bufs s !! i = Some b -> sl_locked (b_lock b) = false ->
  acquiresleep (SlBuf i) (mkWorld s e) =
  Ok tt (mkWorld (s <| k_bufs := <[i := b <| b_lock := mkSleeplock true pid |>]> (k_bufs s) |>) e).
Proof.
  intros [Hc Hh Hl Hm] Hb Hf. unfold acquiresleep. kstep.
  eapply run_bind.
  { unfold waiting. cbn [w_env length kmod acquiresleep_loop get_sl]. apply run_assoc.
    eapply run_bind; [by apply get_buf_ok|]. kstep. rewrite Hf. reflexivity. }
  cbn [mod_sl sl_spin]. eapply run_bind; [by apply mod_buf_ok|].
  eapply run_bind; [by eapply mypid_ok|].
  eapply run_bind; [eapply mod_buf_ok; cbn; apply list_lookup_insert_eq, (lookup_lt_Some _ _ _ Hb)|].
  rewrite release_ok by held_side. f_equal. unfold kmod. f_equal. cbn -[filter].
  destruct b as [? ? ? ? [] ? ? ? ?]. kstate.
  - by apply filter_lock_cons; set_solver.
  - by rewrite list_insert_insert_eq.
Qed.

Lemma holdingsleep_mine i b s :
  proc_ctx s me pid -> k_bufs s !! i = Some b -> b_lock b = mkSleeplock true pid ->
  holdingsleep (SlBuf i) (mkWorld s e) = Ok true (mkWorld s e).
Proof.
  intros [Hc Hh Hl Hm] Hb Hk. unfold holdingsleep. kstep. cbn [get_sl sl_spin].
  kstep. eapply run_bind; [by apply get_buf_ok|]. kstep. rewrite Hk. cbn [sl_locked].
  kstep. eapply run_bind; [by eapply mypid_ok|]. kstep. cbn [sl_pid]. rewrite Z.eqb_refl.
  kstep. unfold ret. f_equal. kstate. by apply filter_lock_cons; set_solver.
Qed.

Lemma releasesleep_ok i b s :
  proc_ctx s me pid -> k_bufs s !! i = Some b ->
  releasesleep (SlBuf i) (mkWorld s e) =
  Ok tt (mkWorld (s <| k_bufs := <[i := b <| b_lock := mkSleeplock false 0 |>]> (k_bufs s) |>
    <| k_procs ::= woken (ChBufLock i) me |>) e).
Proof.
  intros [Hc Hh Hl Hm] Hb. unfold releasesleep. kstep. cbn [sl_spin sl_chan mod_sl].
  eapply run_bind; [by apply mod_buf_ok|].
  eapply run_bind; [apply (wakeup_ok _ _ me); cbn; rewrite ?Hh; auto; set_solver|].
  rewrite release_ok by held_side. f_equal. destruct b as [? ? ? ? [] ? ? ? ?]. kstate.
  by apply filter_lock_cons; set_solver.
Qed.
End Steps.

(** ** Scanning the ring *)

Fixpoint bfind (test : buf -> bool) (bufs : list buf) (l : list nat) : option nat :=
  match l with
  | [] => None
  | j :: l' =>
      match bufs !! j with
      | Some b => if test b then Some j else bfind test bufs l'
      | None => bfind test bufs l'
      end
  end.

Lemma bfind_Some test bufs l j :
  bfind test bufs l = Some j -> j ∈ l /\ exists b, bufs !! j = Some b /\ test b = true.
Proof.
  induction l as [|k l IH]; simpl; [done|]. destruct (bufs !! k) as [b|] eqn:E.
  - destruct (test b) eqn:T; [|set_solver]. intros [= ->]. split; [set_solver|eauto].
  - set_solver.
Qed.

Lemma bfind_None test bufs l j b :
  bfind test bufs l = None -> j ∈ l -> bufs !! j = Some b -> test b = false.
Proof.
  induction l as [|k l IH]; simpl; [set_solver|]. destruct (bufs !! k) as [c|] eqn:E.
  - destruct (test c) eqn:T; [done|]. intros Hn [->|Hj]%elem_of_cons Hb; [congruence|auto].
  - intros Hn [->|Hj]%elem_of_cons Hb; [congruence|auto].
Qed.

Lemma bscan_ok st test s e pv l : forall x fuel,
  let f j := match k_bufs s !! j with Some b => st b | None => O end in
  chain f pv x l bhead -> (length l <= fuel)%nat ->
  Forall (fun j => j < NBUF)%nat l -> length (k_bufs s) = S NBUF ->
  bscan fuel st test (f x) (mkWorld s e) = Ok (bfind test (k_bufs s) l) (mkWorld s e).
Proof.
  induction l as [|z l IH]; intros x fuel f Hc Hf Hb Hl; simpl in Hc.
  - destruct Hc as [Hc _]. fold (f x) in Hc. rewrite Hc. by destruct fuel.
  - destruct Hc as (H1 & H2 & H3). fold (f x) in H1. rewrite H1.
    apply Forall_cons in Hb as [Hz Hb]. destruct fuel as [|fuel]; simpl in Hf; [lia|].
    cbn [bscan]. destruct (Nat.eqb_spec z bhead) as [->|_]; [unfold bhead in Hz; lia|].
    destruct (lookup_lt_is_Some_2 (k_bufs s) z) as [b Eb]; [lia|].
    rewrite (bind_ok _ _ _ _ _ (get_buf_ok _ _ _ _ Eb)). cbn [bfind]. rewrite Eb.
    destruct (test b); [done|].
    assert (st b = f z) as -> by (unfold f; by rewrite Eb). apply IH; auto. lia.
Qed.

(** The two scans of bget(): from the most recently used buffer on, and from
    the least recently used one on. *)
Lemma bscan_recent test s e ord :
  ring (k_bufs s) ord ->
  bscan NBUF b_next test (nxt (k_bufs s) bhead) (mkWorld s e) = Ok (bfind test (k_bufs s) ord) (mkWorld s e).
Proof.
  intros R. apply (bscan_ok b_next test s e (prv (k_bufs s))).
  - apply R.
  - rewrite (ring_perm _ _ R), length_seq. done.
  - apply Forall_forall. intros j Hj. by eapply ring_elem.
  - apply R.
Qed.

Lemma bscan_oldest test s e ord :
  ring (k_bufs s) ord ->
  bscan NBUF b_prev test (prv (k_bufs s) bhead) (mkWorld s e)
    = Ok (bfind test (k_bufs s) (rev ord)) (mkWorld s e).
Proof.
  intros R. apply (bscan_ok b_prev test s e (nxt (k_bufs s))).
  - apply chain_rev, R.
  - rewrite length_rev, (ring_perm _ _ R), length_seq. done.
  - apply Forall_rev, Forall_forall. intros j Hj. by eapply ring_elem.
  - apply R.
Qed.

(** ** Updates that keep the links *)

Lemma ring_insert bufs ord i b b' :
  ring bufs ord -> bufs !! i = Some b -> b_next b' = b_next b -> b_prev b' = b_prev b ->
  ring (<[i := b']> bufs) ord.
Proof.
  intros [H1 H2 H3] Hb Hn Hp. split; [by rewrite length_insert|done|].
  eapply chain_ext; [| |exact H3]; intros j _; unfold nxt, prv;
    (destruct (decide (j = i)) as [->|]; [rewrite list_lookup_insert_eq, Hb by (by eapply lookup_lt_Some); done
      |by rewrite list_lookup_insert_ne]).
Qed.

Section Ops.
Context (me : nat) (pid : Z) (e : list (kernel -> kernel)).

Definition same_block (dev blockno : Z) (b : buf) : bool := (b_dev b =? dev) && (b_blockno b =? blockno).
Definition my_lock : sleeplock := mkSleeplock true pid.

Lemma bget_hit dev blockno s ord i b :
  proc_ctx s me pid -> ring (k_bufs s) ord ->
  bfind (same_block dev blockno) (k_bufs s) ord = Some i -> k_bufs s !! i = Some b ->
  sl_locked (b_lock b) = false ->
  bget dev blockno (mkWorld s e) =
  Ok i (mkWorld (s <| k_bufs := <[i := b <| b_refcnt := u32 (b_refcnt b + 1) |> <| b_lock := my_lock |>]> (k_bufs s) |>) e).
Proof.
  intros Hc R Hf Hb Hu. assert (k_held s = []) as Hh by apply Hc. unfold bget. kstep.
  destruct (lookup_lt_is_Some_2 (k_bufs s) bhead) as [h Hhd]; [rewrite (ring_len _ _ R); unfold bhead; lia|].
  eapply run_bind; [apply get_buf_ok; exact Hhd|].
  eapply (run_bind _ _ _ (Some i)).
  { rewrite <- Hf. replace (b_next h) with (nxt (k_bufs s) bhead) by (unfold nxt; by rewrite Hhd).
    match goal with |- _ (mkWorld ?s0 _) = _ => exact (bscan_recent _ s0 e ord R) end. }
  eapply run_bind; [by apply mod_buf_ok|]. kstep.
  eapply run_bind.
  { eapply (acquiresleep_free me pid); cbn.
    - destruct Hc as [H1 H2 H3 H4]. split; cbn -[filter]; auto. rewrite H2. by apply filter_lock_cons; set_solver.
    - apply list_lookup_insert_eq. by eapply lookup_lt_Some.
    - done. }
  unfold ret. f_equal. destruct b. kstate. by rewrite list_insert_insert_eq.
Qed.

Definition recycled (dev blockno : Z) (b : buf) : buf :=
  b <| b_dev := dev |> <| b_blockno := blockno |> <| b_valid := false |> <| b_refcnt := 1 |>.

Lemma bget_miss dev blockno s ord i b :
  proc_ctx s me pid -> ring (k_bufs s) ord ->
  bfind (same_block dev blockno) (k_bufs s) ord = None ->
  bfind (fun b => b_refcnt b =? 0) (k_bufs s) (rev ord) = Some i -> k_bufs s !! i = Some b ->
  sl_locked (b_lock b) = false ->
  bget dev blockno (mkWorld s e) =
  Ok i (mkWorld (s <| k_bufs := <[i := recycled dev blockno b <| b_lock := my_lock |>]> (k_bufs s) |>) e).
Proof.
  intros Hc R Hf Hf2 Hb Hu. assert (k_held s = []) as Hh by apply Hc. unfold bget. kstep.
  destruct (lookup_lt_is_Some_2 (k_bufs s) bhead) as [h Hhd]; [rewrite (ring_len _ _ R); unfold bhead; lia|].
  eapply run_bind; [apply get_buf_ok; exact Hhd|].
  eapply (run_bind _ _ _ None).
  { rewrite <- Hf. replace (b_next h) with (nxt (k_bufs s) bhead) by (unfold nxt; by rewrite Hhd).
    match goal with |- _ (mkWorld ?s0 _) = _ => exact (bscan_recent _ s0 e ord R) end. }
  eapply run_bind; [apply get_buf_ok; exact Hhd|].
  eapply (run_bind _ _ _ (Some i)).
  { rewrite <- Hf2. replace (b_prev h) with (prv (k_bufs s) bhead) by (unfold prv; by rewrite Hhd).
    match goal with |- _ (mkWorld ?s0 _) = _ => exact (bscan_oldest _ s0 e ord R) end. }
  eapply run_bind; [by apply mod_buf_ok|]. kstep.
  eapply run_bind.
  { eapply (acquiresleep_free me pid); cbn.
    - destruct Hc as [H1 H2 H3 H4]. split; cbn -[filter]; auto. rewrite H2. by apply filter_lock_cons; set_solver.
    - apply list_lookup_insert_eq. by eapply lookup_lt_Some.
    - done. }
  unfold ret. f_equal. destruct b. kstate. by rewrite list_insert_insert_eq.
Qed.

Lemma virtio_read i b s :
  proc_ctx s me pid -> k_bufs s !! i = Some b ->
  disk_rw i false (mkWorld s e) =
  Ok tt (mkWorld (s <| k_bufs := <[i := b <| b_data := k_disk s (b_blockno b) |>]> (k_bufs s) |>) e).
Proof.
  intros [Hc Hh Hl Hm] Hb. unfold disk_rw. kstep.
  eapply run_bind; [by apply curproc_ok|]. kstep. cbn [kmod w_k w_env k_held upd upd_k_held].
  rewrite Hh. cbn [length Nat.eqb negb].
  unfold disk_transfer. kstep. eapply run_bind; [by apply get_buf_ok|]. do 2 kstep.
  eapply run_bind; [by apply mod_buf_ok|]. rewrite release_ok by held_side. f_equal.
  by kstate.
Qed.

Definition disk_set (d : Z -> block) (n : Z) (x : block) : Z -> block :=
  fun m => if m =? n then x else d m.

Lemma virtio_write i b s :
  proc_ctx s me pid -> k_bufs s !! i = Some b ->
  disk_rw i true (mkWorld s e) =
  Ok tt (mkWorld (s <| k_disk ::= fun d => disk_set d (b_blockno b) (b_data b) |>
    <| k_writes ::= fun l => l ++ [(b_blockno b, b_data b)] |>) e).
Proof.
  intros [Hc Hh Hl Hm] Hb. unfold disk_rw. kstep.
  eapply run_bind; [by apply curproc_ok|]. kstep. cbn [kmod w_k w_env k_held upd upd_k_held].
  rewrite Hh. cbn [length Nat.eqb negb].
  unfold disk_transfer. kstep. eapply run_bind; [by apply get_buf_ok|]. kstep.
  rewrite release_ok by held_side. f_equal. by kstate.
Qed.

Lemma bwrite_ok i b s :
  proc_ctx s me pid -> k_bufs s !! i = Some b -> b_lock b = my_lock ->
  bwrite i (mkWorld s e) =
  Ok tt (mkWorld (s <| k_disk ::= fun d => disk_set d (b_blockno b) (b_data b) |>
    <| k_writes ::= fun l => l ++ [(b_blockno b, b_data b)] |>) e).
Proof.
  intros Hc Hb Hl. unfold bwrite. eapply run_bind; [by eapply (holdingsleep_mine me pid)|].
  by apply virtio_write.
Qed.

Lemma mod_buf_alter i f s :
  (i < length (k_bufs s))%nat ->
  mod_buf i f (mkWorld s e) = Ok tt (mkWorld (s <| k_bufs ::= alter f i |>) e).
Proof.
  intros [b Hb]%lookup_lt_is_Some_2. unfold mod_buf.
  by rewrite (bind_ok _ _ _ _ _ (get_buf_ok _ _ _ _ Hb)).
Qed.

(** The list surgery of brelse(). *)
Lemma relink_ok i b s (k : unit -> K unit) :
  length (k_bufs s) = S NBUF -> (i < NBUF)%nat -> k_bufs s !! i = Some b ->
  (b_next b < S NBUF)%nat -> (b_prev b < S NBUF)%nat ->
  (nxt (unlink_buf i (k_bufs s)) bhead < S NBUF)%nat ->
  bind (mod_buf (b_next b) (fun x => x <| b_prev := b_prev b |>) ;;
    mod_buf (b_prev b) (fun x => x <| b_next := b_next b |>) ;;
    let* h := get_buf bhead in
    mod_buf i (fun x => x <| b_next := b_next h |>) ;;
    mod_buf i (fun x => x <| b_prev := bhead |>) ;;
    mod_buf (b_next h) (fun x => x <| b_prev := i |>) ;;
    mod_buf bhead (fun x => x <| b_next := i |>)) k (mkWorld s e) =
  k tt (mkWorld (s <| k_bufs := push_buf i (unlink_buf i (k_bufs s)) |>) e).
Proof.
  intros Hl Hi Hb H1 H2 H3.
  assert (nxt (k_bufs s) i = b_next b) as E1 by (unfold nxt; by rewrite Hb).
  assert (prv (k_bufs s) i = b_prev b) as E2 by (unfold prv; by rewrite Hb).
  kstep. eapply run_bind; [apply mod_buf_alter; lia|].
  kstep. eapply run_bind; [apply mod_buf_alter; cbn; rewrite length_alter; lia|].
  assert (exists h, unlink_buf i (k_bufs s) !! bhead = Some h) as [h Hh].
  { apply lookup_lt_is_Some_2. unfold unlink_buf. rewrite length_set_next, length_set_prev, Hl. unfold bhead. lia. }
  kstep. eapply run_bind.
  { apply (get_buf_ok bhead h). cbn. rewrite <- Hh. unfold unlink_buf. by rewrite E1, E2. }
  assert (nxt (unlink_buf i (k_bufs s)) bhead = b_next h) as E3 by (unfold nxt; by rewrite Hh).
  rewrite E3 in H3.
  kstep. eapply run_bind; [apply mod_buf_alter; cbn; rewrite !length_alter; lia|].
  kstep. eapply run_bind; [apply mod_buf_alter; cbn; rewrite !length_alter; lia|].
  kstep. eapply run_bind; [apply mod_buf_alter; cbn; rewrite !length_alter; lia|].
  eapply run_bind; [apply mod_buf_alter; cbn; rewrite !length_alter; unfold bhead; lia|].
  f_equal. f_equal. unfold push_buf. rewrite E3. unfold unlink_buf. rewrite E1, E2. by destruct s.
Qed.

(** The table after brelse(i). *)
Definition released (i : nat) (b : buf) (bufs : list buf) : list buf :=
  let b' := b <| b_lock := mkSleeplock false 0 |> <| b_refcnt := u32 (b_refcnt b - 1) |> in
  let bufs' := <[i := b']> bufs in
  if u32 (b_refcnt b - 1) =? 0 then push_buf i (unlink_buf i bufs') else bufs'.

Lemma brelse_ok i b s ord :
  proc_ctx s me pid -> ring (k_bufs s) ord -> (i < NBUF)%nat ->
  k_bufs s !! i = Some b -> b_lock b = my_lock ->
  brelse i (mkWorld s e) =
  Ok tt (mkWorld (s <| k_bufs := released i b (k_bufs s) |> <| k_procs ::= woken (ChBufLock i) me |>) e).
Proof.
  intros Hc R Hi Hb Hl. pose proof (pc_held _ _ _ Hc) as Hh. unfold brelse.
  eapply run_bind; [by eapply (holdingsleep_mine me pid)|]. cbn [negb].
  eapply run_bind; [by apply (releasesleep_ok me pid)|]. kstep.
  assert (i < length (k_bufs s))%nat as Hlt by (by eapply lookup_lt_Some).
  eapply run_bind; [apply mod_buf_ok; cbn; by apply list_lookup_insert_eq|].
  cbn -[filter woken]. set (b' := b <| b_lock := _ |> <| b_refcnt ::= _ |>).
  eapply run_bind; [apply (get_buf_ok i b'); cbn; apply list_lookup_insert_eq; by rewrite length_insert|].
  set (s1 := _ <| k_bufs := _ |>).
  assert (k_bufs s1 = <[i := b']> (k_bufs s)) as Es1 by apply list_insert_insert_eq.
  assert (ring (<[i := b']> (k_bufs s)) ord) as R' by (by eapply ring_insert).
  change (b_refcnt b') with (u32 (b_refcnt b - 1)). unfold released.
  change (b <| b_lock := mkSleeplock false 0 |> <| b_refcnt := u32 (b_refcnt b - 1) |>) with b'.
  destruct (u32 (b_refcnt b - 1) =? 0) eqn:E0.
  - assert (k_bufs s1 !! i = Some b') as Hb' by (rewrite Es1; by apply list_lookup_insert_eq).
    assert (i ∈ ord) as Hio by (rewrite (ring_perm _ _ R); apply elem_of_seq; lia).
    destruct (ring_bounds _ _ i R' ltac:(set_solver)) as [B1 B2].
    unfold nxt in B1. unfold prv in B2. rewrite <- Es1, Hb' in B1, B2.
    eapply eq_trans; [apply relink_ok; auto|].
    + rewrite Es1, length_insert. apply R.
    + rewrite Es1. apply list_elem_of_split in Hio as (l1 & l2 & ->).
      destruct (unlink_chain _ _ _ _ R') as [_ U]. eapply chain_bound; [exact U| |set_solver].
      apply Forall_forall. intros j Hj. destruct (decide (j = bhead)) as [->|]; [unfold bhead; lia|].
      assert (j ∈ l1 ++ i :: l2) as Hj2 by set_solver. apply (ring_elem _ _ _ R) in Hj2. lia.
    + rewrite release_ok by held_side. f_equal. rewrite Es1. subst s1. clear - Hh. by kstate.
  - kstep. rewrite release_ok by held_side. f_equal. rewrite <- Es1. subst s1. clear - Hh. by kstate.
Qed.

Lemma bref_ok (g : Z -> Z) i b s :
  proc_ctx s me pid -> k_bufs s !! i = Some b ->
  (acquire LkBcache ;; mod_buf i (fun b => b <| b_refcnt ::= g |>) ;; release LkBcache) (mkWorld s e) =
  Ok tt (mkWorld (s <| k_bufs := <[i := b <| b_refcnt ::= g |>]> (k_bufs s) |>) e).
Proof.
  intros [Hc Hh Hl Hm] Hb. kstep. eapply run_bind; [by apply mod_buf_ok|].
  rewrite release_ok by held_side. f_equal. by kstate.
Qed.
End Ops.

(** ** The abstract cache *)

(** Buffer [i] caches block [blk] of [dev]. *)
Definition holds (bufs : list buf) (dev : Z) (i : nat) (blk : Z) : Prop :=
  (i < NBUF)%nat /\ exists b, bufs !! i = Some b /\ b_dev b = dev /\ b_blockno b = blk.

Definition unlocked (l : sleeplock) : Prop := sl_locked l = false.

(** The state of one buffer. *)
Definition buf_ok (dev pid : Z) (pin : Z -> Z) (lck : Z -> bool) (view : Z -> block) (b : buf) : Prop :=
  if decide (b_dev b = dev) then
    b_valid b = true /\ b_data b = view (b_blockno b) /\ b_refcnt b = pin (b_blockno b) /\
    (if lck (b_blockno b) then b_lock b = my_lock pid else unlocked (b_lock b))
  else b_refcnt b = 0 /\ unlocked (b_lock b).

Record cache (s : kernel) (me : nat) (pid dev : Z) (pin : Z -> Z) (lck : Z -> bool) (view : Z -> block) : Prop := {
  ca_ctx : proc_ctx s me pid;
  ca_ring : exists ord, ring (k_bufs s) ord;
  ca_uniq i j blk : holds (k_bufs s) dev i blk -> holds (k_bufs s) dev j blk -> i = j;
  ca_buf i b : (i < NBUF)%nat -> k_bufs s !! i = Some b -> buf_ok dev pid pin lck view b;
  ca_pinned blk : pin blk <> 0 -> exists i, holds (k_bufs s) dev i blk;
  ca_clean blk : pin blk = 0 -> view blk = k_disk s blk;
  ca_pin blk : 0 <= pin blk < 2 ^ 31 /\ (lck blk = true -> 1 <= pin blk);
}.

Lemma cache_ext s me pid dev pin lck view pin' lck' view' :
  cache s me pid dev pin lck view ->
  (forall x, pin' x = pin x) -> (forall x, lck' x = lck x) -> (forall x, view' x = view x) ->
  cache s me pid dev pin' lck' view'.
Proof.
  intros [C1 C2 C3 C4 C5 C6 C7] H1 H2 H3. split; auto.
  - intros i b Hi Hb. pose proof (C4 i b Hi Hb) as B. unfold buf_ok in *. by rewrite H1, H2, H3.
  - intros x. rewrite H1. auto.
  - intros x. rewrite H1, H3. auto.
  - intros x. rewrite H1, H2. auto.
Qed.

(** The page tables of the processes, which waking them does not change. *)
Definition ptables (s : kernel) : list Z := p_pagetable <$> k_procs s.

Lemma ptables_woken ch me ps : p_pagetable <$> woken ch me ps = p_pagetable <$> ps.
Proof.
  unfold woken. apply list_eq. intros i. rewrite !list_lookup_fmap, list_lookup_imap.
  destruct (ps !! i) as [p|]; [|done]. cbn. f_equal. case_decide; [done|]. unfold wake. by destruct (_ && _).
Qed.

(** What cache operations may change besides the abstract state. *)
Definition cframe (s s' : kernel) : Prop :=
  s' = s <| k_bufs := k_bufs s' |> <| k_procs := k_procs s' |> <| k_disk := k_disk s' |>
         <| k_writes := k_writes s' |> /\ ptables s' = ptables s.

Lemma cframe_refl s : cframe s s.
Proof. unfold cframe. by destruct s. Qed.
Lemma cframe_bufs s bs : cframe s (s <| k_bufs := bs |>).
Proof. unfold cframe. by destruct s. Qed.
Lemma cframe_bufs_procs s bs ch me : cframe s (s <| k_bufs := bs |> <| k_procs ::= woken ch me |>).
Proof. split; [by destruct s|]. apply ptables_woken. Qed.
Lemma cframe_write s f g : cframe s (s <| k_disk ::= f |> <| k_writes ::= g |>).
Proof. unfold cframe. by destruct s. Qed.
Lemma cframe_trans s1 s2 s3 : cframe s1 s2 -> cframe s2 s3 -> cframe s1 s3.
Proof. intros [E1 P1] [E2 P2]. split; [rewrite E2, E1; by destruct s1|congruence]. Qed.

(** Changing one entry of the table. *)
Section Insert.
Context (bufs : list buf) (dev : Z) (i : nat) (b' : buf).
Hypothesis Hi : (i < NBUF)%nat.
Hypothesis Hl : length bufs = S NBUF.

Lemma holds_insert j blk :
  holds (<[i := b']> bufs) dev j blk <->
  (j = i /\ b_dev b' = dev /\ b_blockno b' = blk) \/ (j <> i /\ holds bufs dev j blk).
Proof.
  unfold holds. destruct (decide (j = i)) as [->|].
  - rewrite list_lookup_insert_eq by lia. split.
    + intros (_ & b & [= <-] & H). auto.
    + intros [(_ & H)|[]]; [|done]. eauto 10.
  - rewrite list_lookup_insert_ne by done. naive_solver.
Qed.
End Insert.

Lemma holds_at bufs dev i blk b : holds bufs dev i blk -> bufs !! i = Some b -> b_dev b = dev /\ b_blockno b = blk.
Proof. intros (_ & c & Hc & H) Hb. simplify_eq. done. Qed.

Lemma cache_at s me pid dev pin lck view i blk :
  cache s me pid dev pin lck view -> holds (k_bufs s) dev i blk ->
  exists b, k_bufs s !! i = Some b /\ b_dev b = dev /\ b_blockno b = blk /\ b_valid b = true /\
    b_data b = view blk /\ b_refcnt b = pin blk /\
    (if lck blk then b_lock b = my_lock pid else unlocked (b_lock b)).
Proof.
  intros C (Hi & b & Hb & Hd & Hn). exists b. pose proof (ca_buf _ _ _ _ _ _ _ C i b Hi Hb) as B.
  unfold buf_ok in B. rewrite decide_True in B by done. rewrite Hn in B. naive_solver.
Qed.

Lemma strip_fields c c0 : strip c = strip c0 ->
  b_dev c = b_dev c0 /\ b_blockno c = b_blockno c0 /\ b_valid c = b_valid c0 /\ b_lock c = b_lock c0 /\
  b_refcnt c = b_refcnt c0 /\ b_data c = b_data c0.
Proof. destruct c, c0. intros [=]. cbn. by subst. Qed.

Lemma buf_ok_strip dev pid pin lck view c c0 :
  strip c = strip c0 -> buf_ok dev pid pin lck view c0 -> buf_ok dev pid pin lck view c.
Proof. intros (E1 & E2 & E3 & E4 & E5 & E6)%strip_fields. unfold buf_ok. by rewrite E1, E2, E3, E4, E5, E6. Qed.

(** Updating buffer [i], which caches [blk], and the abstract state of [blk]. *)
Lemma cache_update s me pid dev pin lck view i blk b bs' pin' lck' view' s' ord :
  cache s me pid dev pin lck view -> holds (k_bufs s) dev i blk -> k_bufs s !! i = Some b ->
  proc_ctx s' me pid -> k_bufs s' = bs' -> ring bs' ord ->
  (forall j c, (j < NBUF)%nat -> bs' !! j = Some c -> j <> i ->
     exists c0, k_bufs s !! j = Some c0 /\ strip c = strip c0) ->
  (forall c, bs' !! i = Some c -> b_dev c = dev /\ b_blockno c = blk /\ buf_ok dev pid pin' lck' view' c) ->
  (forall x, x <> blk -> pin' x = pin x /\ lck' x = lck x /\ view' x = view x /\ k_disk s' x = k_disk s x) ->
  (pin' blk = 0 -> view' blk = k_disk s' blk) ->
  0 <= pin' blk < 2 ^ 31 -> (lck' blk = true -> 1 <= pin' blk) ->
  cache s' me pid dev pin' lck' view' /\
  (forall j x, holds (k_bufs s') dev j x <-> holds (k_bufs s) dev j x).
Proof.
  intros C Hh Hb Hc <- Hr Hne Hi Hx Hz Hp Hlk. pose proof (proj1 Hh) as Hlt.
  assert (forall j x, holds (k_bufs s') dev j x <-> holds (k_bufs s) dev j x) as HH.
  { intros j x. destruct (decide (j = i)) as [->|Hj].
    - destruct (lookup_lt_is_Some_2 (k_bufs s') i) as [c Hc']; [rewrite (ring_len _ _ Hr); lia|].
      destruct (Hi c Hc') as (D1 & D2 & _). destruct (holds_at _ _ _ _ _ Hh Hb) as [D3 D4].
      unfold holds. split; intros (_ & c1 & E1 & E2 & E3); simplify_eq; eauto 10.
    - split; intros (Hjl & c & E1 & E2 & E3).
      + destruct (Hne j c Hjl E1 Hj) as (c0 & F1 & F2). split; [done|]. exists c0.
        apply strip_fields in F2 as (<- & <- & _). done.
      + destruct (lookup_lt_is_Some_2 (k_bufs s') j) as [c' Hc']; [rewrite (ring_len _ _ Hr); lia|].
        destruct (Hne j c' Hjl Hc' Hj) as (c0 & F1 & F2). assert (c0 = c) as -> by congruence.
        split; [done|]. exists c'.
        apply strip_fields in F2 as (-> & -> & _). done. }
  split; [|done]. split; auto.
  - eauto.
  - intros j k x. rewrite !HH. by apply (ca_uniq _ _ _ _ _ _ _ C).
  - intros j c Hj Hc'. destruct (decide (j = i)) as [->|Hji]; [by apply Hi|].
    destruct (Hne j c Hj Hc' Hji) as (c0 & F1 & F2).
    pose proof (ca_buf _ _ _ _ _ _ _ C j c0 Hj F1) as B.
    assert (b_dev c = dev -> b_blockno c <> blk) as Hnb.
    { intros Hd Hn. apply Hji. apply (ca_uniq _ _ _ _ _ _ _ C j i blk); [|done].
      apply HH. split; [done|]. eauto. }
    apply (buf_ok_strip _ _ _ _ _ _ _ F2) in B. unfold buf_ok in *.
    case_decide as Hd; [|done]. destruct (Hx _ (Hnb Hd)) as (-> & -> & -> & _). done.
  - intros x Hpx. destruct (decide (x = blk)) as [->|Hne']; [exists i; by apply HH|].
    destruct (Hx x Hne') as (E & _). rewrite E in Hpx.
    destruct (ca_pinned _ _ _ _ _ _ _ C x Hpx) as [j Hj]. exists j. by apply HH.
  - intros x. destruct (decide (x = blk)) as [->|Hne']; [done|].
    destruct (Hx x Hne') as (-> & _ & -> & ->). apply C.
  - intros x. destruct (decide (x = blk)) as [->|Hne']; [done|].
    destruct (Hx x Hne') as (-> & -> & _ & _). apply C.
Qed.

(** The table brelse() leaves, up to the links. *)
Lemma released_ring i b bufs ord :
  ring bufs ord -> (i < NBUF)%nat -> bufs !! i = Some b -> exists ord', ring (released i b bufs) ord'.
Proof.
  intros R Hi Hb. unfold released.
  assert (i ∈ ord) as Hio by (rewrite (ring_perm _ _ R); apply elem_of_seq; lia).
  assert (forall b', b_next b' = b_next b -> b_prev b' = b_prev b -> ring (<[i := b']> bufs) ord) as R'
    by (intros; by eapply ring_insert).
  destruct (_ =? 0); [|exists ord; by apply R'].
  apply list_elem_of_split in Hio as (l1 & l2 & ->). exists (i :: l1 ++ l2).
  by apply move_front_ring, R'.
Qed.

Lemma released_lookup i b bufs j c :
  released i b bufs !! j = Some c ->
  exists c0, <[i := b <| b_lock := mkSleeplock false 0 |> <| b_refcnt := u32 (b_refcnt b - 1) |>]> bufs !! j = Some c0
    /\ strip c = strip c0.
Proof.
  unfold released. destruct (_ =? 0); [|eauto]. intros Hc.
  assert (strip <$> push_buf i (unlink_buf i
    (<[i := b <| b_lock := mkSleeplock false 0 |> <| b_refcnt := u32 (b_refcnt b - 1) |>]> bufs)) !! j
    = Some (strip c)) as E by (by rewrite Hc).
  rewrite <- list_lookup_fmap, strip_push, strip_unlink, list_lookup_fmap in E.
  destruct (<[i := _]> bufs !! j) as [c0|]; [|done]. exists c0. split; [done|]. cbn in E. congruence.
Qed.

Section CacheOps.
Context (me : nat) (pid dev : Z) (e : list (kernel -> kernel)).

(** bread() of a block that is in the cache. *)
Lemma bread_hit blk s pin lck view i :
  cache s me pid dev pin lck view -> lck blk = false -> pin blk + 1 < 2 ^ 31 ->
  holds (k_bufs s) dev i blk ->
  exists s', bread dev blk (mkWorld s e) = Ok i (mkWorld s' e) /\
    cache s' me pid dev (zset pin blk (pin blk + 1)) (zset lck blk true) view /\ cframe s s' /\
    k_disk s' = k_disk s /\ k_writes s' = k_writes s /\
    (forall j x, holds (k_bufs s') dev j x <-> holds (k_bufs s) dev j x).
Proof.
  intros C Hl Hp Hh. destruct (ca_ring _ _ _ _ _ _ _ C) as [ord R].
  pose proof (ca_ctx _ _ _ _ _ _ _ C) as Hctx. pose proof (proj1 Hh) as Hi.
  assert (i ∈ ord) as Hio by (rewrite (ring_perm _ _ R); apply elem_of_seq; lia).
  destruct (cache_at _ _ _ _ _ _ _ _ _ C Hh) as (b & Hb & B1 & B2 & B3 & B4 & B5 & B6). rewrite Hl in B6.
  destruct (bfind (same_block dev blk) (k_bufs s) ord) as [j|] eqn:Hf.
  2: { exfalso. pose proof (bfind_None _ _ _ _ _ Hf Hio Hb) as T. unfold same_block in T.
       rewrite B1, B2, !Z.eqb_refl in T. done. }
  assert (j = i) as ->.
  { apply bfind_Some in Hf as (Hj & c & Hc & T). apply andb_true_iff in T as [T1 T2].
    apply Z.eqb_eq in T1, T2. apply (ca_uniq _ _ _ _ _ _ _ C j i blk); [|done].
    split; [by eapply ring_elem|eauto]. }
  pose proof (ca_pin _ _ _ _ _ _ _ C blk) as [Hpin _].
  set (b' := b <| b_refcnt := u32 (b_refcnt b + 1) |> <| b_lock := my_lock pid |>).
  set (s' := s <| k_bufs := <[i := b']> (k_bufs s) |>).
  assert (length (k_bufs s) = S NBUF) as Hlen by apply R.
  exists s'. split; [|split].
  - unfold bread. eapply run_bind; [by eapply (bget_hit me pid)|]. fold b'.
    eapply run_bind; [apply (get_buf_ok i b'); cbn; apply list_lookup_insert_eq; lia|].
    change (b_valid b') with (b_valid b). rewrite B3. done.
  - apply (cache_update s me pid dev pin lck view i blk b (k_bufs s') _ _ _ s' ord); auto.
    + by apply proc_ctx_bufs.
    + by eapply ring_insert.
    + intros j c Hj Hc Hne. cbn in Hc. rewrite list_lookup_insert_ne in Hc by done. eauto.
    + intros c Hc. cbn in Hc. rewrite list_lookup_insert_eq in Hc by lia. injection Hc as <-.
      split_and!; auto. unfold buf_ok. rewrite decide_True by done. cbn. rewrite B2, !zset_eq, B5.
      rewrite u32_small by lia. done.
    + intros x Hx. by rewrite !zset_ne.
    + rewrite zset_eq. intros. lia.
    + rewrite zset_eq. lia.
    + intros _. rewrite zset_eq. lia.
  - split_and!; [apply cframe_bufs|done|done|].
    intros j x. cbn. rewrite holds_insert by done. cbn. rewrite B1, B2. split.
    + intros [(-> & _ & <-)|[_ H]]; done.
    + intros H. destruct (decide (j = i)) as [->|]; [|auto]. left. split_and!; auto.
      destruct (holds_at _ _ _ _ _ H Hb). congruence.
Qed.

(** bread() of a block that is not. *)
Lemma bread_miss blk s pin lck view k kb :
  cache s me pid dev pin lck view -> (forall j, ~ holds (k_bufs s) dev j blk) ->
  (k < NBUF)%nat -> k_bufs s !! k = Some kb -> b_refcnt kb = 0 ->
  exists i s', bread dev blk (mkWorld s e) = Ok i (mkWorld s' e) /\
    cache s' me pid dev (zset pin blk (pin blk + 1)) (zset lck blk true) view /\ cframe s s' /\
    k_disk s' = k_disk s /\ k_writes s' = k_writes s /\ holds (k_bufs s') dev i blk /\
    (forall j x, pin x <> 0 -> holds (k_bufs s) dev j x -> holds (k_bufs s') dev j x).
Proof.
  intros C Hn Hk Hkb Hk0. destruct (ca_ring _ _ _ _ _ _ _ C) as [ord R].
  pose proof (ca_ctx _ _ _ _ _ _ _ C) as Hctx.
  destruct (bfind (same_block dev blk) (k_bufs s) ord) as [j|] eqn:Hf.
  { exfalso. apply bfind_Some in Hf as (Hj & c & Hc & T). apply andb_true_iff in T as [T1 T2].
    apply Z.eqb_eq in T1, T2. apply (Hn j). split; [by eapply ring_elem|eauto]. }
  assert (k ∈ rev ord) as Hkr by (rewrite <- Permutation_rev, (ring_perm _ _ R); apply elem_of_seq; lia).
  destruct (bfind (fun b => b_refcnt b =? 0) (k_bufs s) (rev ord)) as [i|] eqn:Hf2.
  2: { exfalso. pose proof (bfind_None _ _ _ _ _ Hf2 Hkr Hkb) as T. cbn in T. by rewrite Hk0 in T. }
  destruct (bfind_Some _ _ _ _ Hf2) as (Hio & b & Hb & T). apply Z.eqb_eq in T.
  rewrite <- Permutation_rev in Hio. pose proof (ring_elem _ _ _ R Hio) as Hi.
  pose proof (ca_buf _ _ _ _ _ _ _ C i b Hi Hb) as B.
  assert (unlocked (b_lock b)) as Hu.
  { unfold buf_ok in B. case_decide; [|tauto]. destruct B as (_ & _ & B5 & B6).
    destruct (lck (b_blockno b)) eqn:E; [|done]. apply (ca_pin _ _ _ _ _ _ _ C) in E. lia. }
  assert (pin blk = 0) as Hp0.
  { destruct (Z.eq_dec (pin blk) 0) as [|Hne]; [done|].
    destruct (ca_pinned _ _ _ _ _ _ _ C blk Hne) as [j Hj]. by destruct (Hn j). }
  assert (length (k_bufs s) = S NBUF) as Hlen by apply R.
  set (b' := (recycled dev blk b) <| b_lock := my_lock pid |> <| b_data := k_disk s blk |> <| b_valid := true |>).
  set (s' := s <| k_bufs := <[i := b']> (k_bufs s) |>).
  exists i, s'. split; [|split; [split|]].
  - unfold bread. eapply run_bind; [by eapply (bget_miss me pid)|].
    eapply run_bind; [apply get_buf_ok; cbn; apply list_lookup_insert_eq; lia|]. cbn [b_valid recycled upd upd_b_valid upd_b_lock upd_b_refcnt negb].
    kstep. eapply run_bind.
    { eapply (virtio_read me pid); [by apply proc_ctx_bufs|]. cbn. apply list_lookup_insert_eq. lia. }
    eapply run_bind; [apply mod_buf_ok; cbn; apply list_lookup_insert_eq; by rewrite length_insert; lia|].
    unfold ret. f_equal. subst s' b'. clear. destruct b. kstate. rewrite ?list_insert_insert_eq. reflexivity.
  - by apply proc_ctx_bufs.
  - exists ord. by eapply ring_insert.
  - intros j1 j2 x. cbn. rewrite !holds_insert by done. cbn. intros [(-> & _ & <-)|[Hj1 H1]] [(-> & _ & E)|[Hj2 H2]]; auto.
    + by destruct (Hn j2).
    + subst x. by destruct (Hn j1).
    + by eapply (ca_uniq _ _ _ _ _ _ _ C).
  - intros j c Hj Hc. cbn in Hc. destruct (decide (j = i)) as [->|Hne].
    + rewrite list_lookup_insert_eq in Hc by lia. injection Hc as <-. unfold buf_ok.
      rewrite decide_True by done. cbn. rewrite !zset_eq, Hp0. split_and!; auto.
      symmetry. by apply (ca_clean _ _ _ _ _ _ _ C).
    + rewrite list_lookup_insert_ne in Hc by done.
      pose proof (ca_buf _ _ _ _ _ _ _ C j c Hj Hc) as Bj. unfold buf_ok in *. case_decide; [|done].
      rewrite !zset_ne; [done| |]; intros E; apply (Hn j); split; eauto.
  - intros x Hx. cbn. destruct (decide (x = blk)) as [->|Hne].
    + exists i. apply holds_insert; auto.
    + rewrite zset_ne in Hx by done. destruct (ca_pinned _ _ _ _ _ _ _ C x Hx) as [j Hj].
      exists j. apply holds_insert; auto. right. split; [|done]. intros ->.
      destruct (cache_at _ _ _ _ _ _ _ _ _ C Hj) as (c & Hc & _ & _ & _ & _ & Hr & _). congruence.
  - intros x Hx. destruct (decide (x = blk)) as [->|Hne].
    + rewrite zset_eq in Hx. lia.
    + rewrite zset_ne in Hx by done. by apply (ca_clean _ _ _ _ _ _ _ C).
  - intros x. destruct (decide (x = blk)) as [->|Hne]; [rewrite !zset_eq; lia|].
    rewrite !zset_ne by done. apply C.
  - split_and!; [apply cframe_bufs|done|done| |].
    + cbn. apply holds_insert; auto.
    + intros j x Hx Hj. cbn. apply holds_insert; auto. right. split; [|done]. intros ->.
      destruct (cache_at _ _ _ _ _ _ _ _ _ C Hj) as (c & Hc & _ & _ & _ & _ & Hr & _). congruence.
Qed.

(** Fewer than NBUF blocks in use leave a buffer to recycle. *)
Definition in_use (pin : Z -> Z) (l : list Z) : Prop :=
  (length l < NBUF)%nat /\ forall x, pin x <> 0 -> x ∈ l.

Lemma free_buf s pin lck view l :
  cache s me pid dev pin lck view -> in_use pin l ->
  exists k b, (k < NBUF)%nat /\ k_bufs s !! k = Some b /\ b_refcnt b = 0.
Proof.
  intros C [Hl Hs]. destruct (ca_ring _ _ _ _ _ _ _ C) as [ord R].
  set (busy k := match k_bufs s !! k with Some b => b_refcnt b <> 0 | None => True end).
  assert (forall k, Decision (busy k)) as D by (intros k; unfold busy; destruct (_ !! _); apply _).
  destruct (decide (Forall busy (seq 0 NBUF))) as [A|A].
  2: { apply not_Forall_Exists in A; [|exact D]. apply Exists_exists in A as (k & Hk & Hb).
       apply elem_of_seq in Hk. change (~ busy k) in Hb. unfold busy in Hb.
       destruct (k_bufs s !! k) as [b|] eqn:E; [|by destruct Hb].
       exists k, b. split_and!; [lia|done|]. by apply dec_stable. }
  exfalso. set (blk k := match k_bufs s !! k with Some b => b_blockno b | None => 0 end).
  assert (forall k, (k < NBUF)%nat -> holds (k_bufs s) dev k (blk k) /\ pin (blk k) <> 0) as H.
  { intros k Hk. rewrite Forall_forall in A. specialize (A k ltac:(apply elem_of_seq; lia)).
    destruct (lookup_lt_is_Some_2 (k_bufs s) k) as [b Hb]; [rewrite (ring_len _ _ R); lia|].
    unfold busy, blk in *. rewrite Hb in *. pose proof (ca_buf _ _ _ _ _ _ _ C k b Hk Hb) as B.
    unfold buf_ok in B. case_decide as Hd; [|tauto]. destruct B as (_ & _ & B & _).
    split; [|congruence]. split; eauto. }
  assert (NBUF <= length l)%nat; [|lia]. rewrite <- (length_seq NBUF 0), <- (length_map blk (seq 0 NBUF)).
  apply submseteq_length, NoDup_submseteq.
  - apply NoDup_fmap_2_strong; [|apply NoDup_seq]. intros i j Hi%elem_of_seq Hj%elem_of_seq E.
    apply (ca_uniq _ _ _ _ _ _ _ C i j (blk i)); [|rewrite E]; apply H; lia.
  - intros x (k & -> & Hk%elem_of_seq)%list_elem_of_fmap. apply Hs, H. lia.
Qed.

(** bread() returns a locked buffer with the contents of the block. *)
Definition can_bread (pin : Z -> Z) (blk : Z) : Prop := pin blk <> 0 \/ exists l, in_use pin l.

Lemma bread_ok blk s pin lck view :
  cache s me pid dev pin lck view -> lck blk = false -> pin blk + 1 < 2 ^ 31 -> can_bread pin blk ->
  exists i s', bread dev blk (mkWorld s e) = Ok i (mkWorld s' e) /\
    cache s' me pid dev (zset pin blk (pin blk + 1)) (zset lck blk true) view /\ cframe s s' /\
    k_disk s' = k_disk s /\ k_writes s' = k_writes s /\ holds (k_bufs s') dev i blk /\
    (forall j x, pin x <> 0 -> holds (k_bufs s) dev j x -> holds (k_bufs s') dev j x).
Proof.
  intros C Hl Hp Hu.
  assert ((exists j, holds (k_bufs s) dev j blk) \/ (forall j, ~ holds (k_bufs s) dev j blk)) as [[j Hj]|Hn].
  { destruct (ca_ring _ _ _ _ _ _ _ C) as [ord R].
    destruct (bfind (same_block dev blk) (k_bufs s) ord) as [j|] eqn:Hf.
    - left. apply bfind_Some in Hf as (Hj & c & Hc & T). apply andb_true_iff in T as [T1 T2].
      apply Z.eqb_eq in T1, T2. exists j. split; [by eapply ring_elem|eauto].
    - right. intros j (Hj & b & Hb & B1 & B2).
      assert (j ∈ ord) as Hjo by (rewrite (ring_perm _ _ R); apply elem_of_seq; lia).
      pose proof (bfind_None _ _ _ _ _ Hf Hjo Hb) as T. unfold same_block in T.
      rewrite B1, B2, !Z.eqb_refl in T. done. }
  - destruct (bread_hit _ _ _ _ _ _ C Hl Hp Hj) as (s' & E & C' & F & D & W & H).
    exists j, s'. split_and!; auto; intros; by apply H.
  - destruct Hu as [Hpin|[l Hu]]; [destruct (ca_pinned _ _ _ _ _ _ _ C _ Hpin) as [j Hj]; by destruct (Hn j)|].
    destruct (free_buf _ _ _ _ _ C Hu) as (k & b & Hk & Hb & H0).
    destruct (bread_miss _ _ _ _ _ _ _ C Hn Hk Hb H0) as (i & s' & H). exists i, s'. done.
Qed.

(** Assigning to the data of a locked buffer. *)
Lemma mod_data_ok blk s pin lck view i f :
  cache s me pid dev pin lck view -> lck blk = true -> holds (k_bufs s) dev i blk ->
  exists s', mod_buf i (fun b => b <| b_data ::= f |>) (mkWorld s e) = Ok tt (mkWorld s' e) /\
    cache s' me pid dev pin lck (zset view blk (f (view blk))) /\ cframe s s' /\
    k_disk s' = k_disk s /\ k_writes s' = k_writes s /\
    (forall j x, holds (k_bufs s') dev j x <-> holds (k_bufs s) dev j x).
Proof.
  intros C Hl Hh. destruct (ca_ring _ _ _ _ _ _ _ C) as [ord R].
  destruct (cache_at _ _ _ _ _ _ _ _ _ C Hh) as (b & Hb & B1 & B2 & B3 & B4 & B5 & B6). rewrite Hl in B6.
  destruct (ca_pin _ _ _ _ _ _ _ C blk) as [P1 P2]. specialize (P2 Hl).
  set (b' := b <| b_data ::= f |>). set (s' := s <| k_bufs := <[i := b']> (k_bufs s) |>).
  assert (i < length (k_bufs s))%nat as Hlt by (by eapply lookup_lt_Some).
  exists s'. split; [by apply mod_buf_ok|].
  destruct (cache_update s me pid dev pin lck view i blk b (k_bufs s') pin lck
    (zset view blk (f (view blk))) s' ord) as [C' H']; auto.
  - apply proc_ctx_bufs, C.
  - by eapply ring_insert.
  - intros j c Hj Hc Hne. cbn in Hc. rewrite list_lookup_insert_ne in Hc by done. eauto.
  - intros c Hc. cbn in Hc. rewrite list_lookup_insert_eq in Hc by lia. injection Hc as <-.
    split_and!; auto. unfold buf_ok. rewrite decide_True by done. cbn. rewrite B2, zset_eq, Hl, B4. done.
  - intros x Hx. by rewrite zset_ne.
  - lia.
  - split_and!; [done|apply cframe_bufs|done|done|done].
Qed.

(** bwrite() puts the contents of the block on the disk. *)
Lemma bwrite_cache blk s pin lck view i :
  cache s me pid dev pin lck view -> lck blk = true -> holds (k_bufs s) dev i blk ->
  exists s', bwrite i (mkWorld s e) = Ok tt (mkWorld s' e) /\
    cache s' me pid dev pin lck view /\ cframe s s' /\ k_bufs s' = k_bufs s /\
    k_disk s' = disk_set (k_disk s) blk (view blk) /\ k_writes s' = k_writes s ++ [(blk, view blk)].
Proof.
  intros C Hl Hh.
  destruct (cache_at _ _ _ _ _ _ _ _ _ C Hh) as (b & Hb & B1 & B2 & B3 & B4 & B5 & B6). rewrite Hl in B6.
  destruct (ca_pin _ _ _ _ _ _ _ C blk) as [P1 P2]. specialize (P2 Hl).
  eexists. split; [by eapply (bwrite_ok me pid); [apply C| |]|].
  split_and!; [|apply cframe_write|done|cbn; by rewrite B2, B4|cbn; by rewrite B2, B4].
  destruct C as [C1 C2 C3 C4 C5 C6 C7]. split; auto.
  - by destruct C1.
  - intros x Hx. cbn. unfold disk_set. destruct (Z.eqb_spec x (b_blockno b)) as [->|]; [|by apply C6].
    rewrite B2 in Hx. lia.
Qed.

(** brelse() gives one reference and the lock back; the last reference may
    only go when the disk has the contents. *)
Lemma brelse_cache blk s pin lck view i :
  cache s me pid dev pin lck view -> lck blk = true -> holds (k_bufs s) dev i blk ->
  (pin blk = 1 -> view blk = k_disk s blk) ->
  exists s', brelse i (mkWorld s e) = Ok tt (mkWorld s' e) /\
    cache s' me pid dev (zset pin blk (pin blk - 1)) (zset lck blk false) view /\ cframe s s' /\
    k_disk s' = k_disk s /\ k_writes s' = k_writes s /\
    (forall j x, holds (k_bufs s') dev j x <-> holds (k_bufs s) dev j x).
Proof.
  intros C Hl Hh Hclean. destruct (ca_ring _ _ _ _ _ _ _ C) as [ord R].
  destruct (cache_at _ _ _ _ _ _ _ _ _ C Hh) as (b & Hb & B1 & B2 & B3 & B4 & B5 & B6). rewrite Hl in B6.
  destruct (ca_pin _ _ _ _ _ _ _ C blk) as [P1 P2]. specialize (P2 Hl). pose proof (proj1 Hh) as Hi.
  assert (i < length (k_bufs s))%nat as Hlt by (by eapply lookup_lt_Some).
  destruct (released_ring _ _ _ _ R Hi Hb) as [ord' R'].
  set (s' := s <| k_bufs := released i b (k_bufs s) |> <| k_procs ::= woken (ChBufLock i) me |>).
  exists s'. split; [by eapply (brelse_ok me pid); [apply C| | | |]|].
  destruct (cache_update s me pid dev pin lck view i blk b (k_bufs s') (zset pin blk (pin blk - 1))
    (zset lck blk false) view s' ord') as [C' H']; auto.
  - apply proc_ctx_woken, C.
  - intros j c Hj (c0 & Hc & E)%released_lookup Hne. rewrite list_lookup_insert_ne in Hc by done. eauto.
  - intros c (c0 & Hc & E)%released_lookup. rewrite list_lookup_insert_eq in Hc by lia. injection Hc as <-.
    pose proof (strip_fields _ _ E) as (F1 & F2 & _). rewrite F1, F2. split_and!; auto.
    eapply buf_ok_strip; [exact E|]. unfold buf_ok. rewrite decide_True by done. cbn.
    rewrite B2, !zset_eq, B5, u32_small by lia. done.
  - intros x Hx. by rewrite !zset_ne.
  - rewrite zset_eq. intros. apply Hclean. lia.
  - rewrite zset_eq. lia.
  - by rewrite zset_eq.
  - split_and!; [done|apply cframe_bufs_procs|done|done|done].
Qed.

(** bpin() and bunpin(): references without the lock. *)
Lemma bref_cache d blk s pin lck view i :
  cache s me pid dev pin lck view -> holds (k_bufs s) dev i blk ->
  0 <= pin blk + d < 2 ^ 31 -> (lck blk = true -> 1 <= pin blk + d) ->
  (pin blk + d = 0 -> view blk = k_disk s blk) ->
  exists s', (acquire LkBcache ;; mod_buf i (fun b => b <| b_refcnt ::= fun c => u32 (c + d) |>) ;;
      release LkBcache) (mkWorld s e) = Ok tt (mkWorld s' e) /\
    cache s' me pid dev (zset pin blk (pin blk + d)) lck view /\ cframe s s' /\
    k_disk s' = k_disk s /\ k_writes s' = k_writes s /\
    (forall j x, holds (k_bufs s') dev j x <-> holds (k_bufs s) dev j x).
Proof.
  intros C Hh P1 P2 Hclean. destruct (ca_ring _ _ _ _ _ _ _ C) as [ord R].
  destruct (cache_at _ _ _ _ _ _ _ _ _ C Hh) as (b & Hb & B1 & B2 & B3 & B4 & B5 & B6).
  assert (i < length (k_bufs s))%nat as Hlt by (by eapply lookup_lt_Some).
  set (b' := b <| b_refcnt ::= fun c => u32 (c + d) |>). set (s' := s <| k_bufs := <[i := b']> (k_bufs s) |>).
  exists s'. split; [by eapply (bref_ok me pid); [apply C|]|].
  destruct (cache_update s me pid dev pin lck view i blk b (k_bufs s') (zset pin blk (pin blk + d))
    lck view s' ord) as [C' H']; auto.
  - apply proc_ctx_bufs, C.
  - by eapply ring_insert.
  - intros j c Hj Hc Hne. cbn in Hc. rewrite list_lookup_insert_ne in Hc by done. eauto.
  - intros c Hc. cbn in Hc. rewrite list_lookup_insert_eq in Hc by lia. injection Hc as <-.
    split_and!; auto. unfold buf_ok. rewrite decide_True by done. cbn.
    rewrite B2, !zset_eq, B5, u32_small by lia. done.
  - intros x Hx. by rewrite !zset_ne.
  - rewrite zset_eq. auto.
  - rewrite zset_eq. lia.
  - rewrite zset_eq. auto.
  - split_and!; [done|apply cframe_bufs|done|done|done].
Qed.
End CacheOps.
