(* ===== verification/Crash.v ===== *)
(** The write-ahead log, as a sequence of block writes.

    What a crash can leave on the disk is a prefix of the writes that were
    issued.  This file has the writes of a commit, the recovery that runs at
    the next boot, and the proof that recovery makes a commit atomic; LogProof.v
    shows that log.c issues exactly these writes and performs exactly this
    recovery. *)

From S2P Require Import Prelude Layout Kernel Bio Log Cache.

(** ** Block writes *)

Definition apply_writes (d : Z -> block) (ws : list (Z * block)) : Z -> block :=
  foldl (fun d w => disk_set d w.1 w.2) d ws.

Lemma apply_writes_app d ws ws' : apply_writes d (ws ++ ws') = apply_writes (apply_writes d ws) ws'.
Proof. apply foldl_app. Qed.

Lemma disk_set_eq d b x : disk_set d b x b = x.
Proof. unfold disk_set. by rewrite Z.eqb_refl. Qed.
Lemma disk_set_ne d b x c : c <> b -> disk_set d b x c = d c.
Proof. intros. unfold disk_set. by destruct (Z.eqb_spec c b). Qed.

Lemma apply_writes_out ws : forall d x, x ∉ ws.*1 -> apply_writes d ws x = d x.
Proof.
  induction ws as [|[b v] ws IH]; intros d x Hx; [done|]. cbn in *.
  rewrite IH by set_solver. apply disk_set_ne. set_solver.
Qed.

(** When every write to [x] has the same contents, the order is immaterial. *)
Lemma apply_writes_in ws v : forall d x,
  (forall w, w ∈ ws -> w.1 = x -> w.2 = v) -> x ∈ ws.*1 -> apply_writes d ws x = v.
Proof.
  induction ws as [|[b y] ws IH]; intros d x Hw Hx; [set_solver|].
  change (apply_writes (disk_set d b y) ws x = v).
  destruct (decide (x ∈ ws.*1)) as [|Hn]; [apply IH; set_solver|].
  rewrite apply_writes_out by done. assert (x = b) as -> by set_solver.
  rewrite disk_set_eq. apply (Hw (b, y)); set_solver.
Qed.

Lemma apply_writes_ext ws : forall d d' x, d x = d' x -> apply_writes d ws x = apply_writes d' ws x.
Proof.
  induction ws as [|[b y] ws IH]; intros d d' x H; [done|]. cbn. apply IH. unfold disk_set.
  by destruct (_ =? _).
Qed.

(** ** The log header *)

Fixpoint hb_set_blocks (j : nat) (bs : list Z) (data : block) : block :=
  match bs with
  | [] => data
  | b :: bs' => hb_set_blocks (S j) bs' (hb_set_block j b data)
  end.

Definition put_header (bs : list Z) (data : block) : block :=
  hb_set_blocks 0 bs (hb_set_n (Z.of_nat (length bs)) data).

Lemma hb_set_blocks_app bs1 : forall j bs2 data,
  hb_set_blocks j (bs1 ++ bs2) data = hb_set_blocks (j + length bs1) bs2 (hb_set_blocks j bs1 data).
Proof.
  induction bs1 as [|b bs IH]; intros j bs2 data; simpl; [by rewrite Nat.add_0_r|].
  rewrite IH. f_equal. lia.
Qed.

Lemma length_hb_set_blocks bs : forall j data,
  (4 + 4 * (j + length bs) <= length data)%nat -> length (hb_set_blocks j bs data) = length data.
Proof.
  induction bs as [|b bs IH]; intros j data H; simpl in *; [done|].
  unfold hb_set_block. rewrite IH; rewrite length_wrn; lia.
Qed.

Lemma rdn_hb_set_blocks bs : forall j data off,
  (4 + 4 * (j + length bs) <= length data)%nat -> (off + 4 <= 4 + 4 * j)%nat ->
  rdn 4 (hb_set_blocks j bs data) off = rdn 4 data off.
Proof.
  induction bs as [|b bs IH]; intros j data off H Ho; simpl in *; [done|].
  unfold hb_set_block. rewrite IH; [apply rdn_wrn_disjoint; lia| |lia]. rewrite length_wrn; lia.
Qed.

Lemma hb_block_set_blocks bs : forall j data i b,
  (4 + 4 * (j + length bs) <= length data)%nat -> bs !! i = Some b -> 0 <= b < 2 ^ 31 ->
  hb_block (hb_set_blocks j bs data) (j + i) = b.
Proof.
  induction bs as [|c bs IH]; intros j data i b H Hi Hb; simpl in *; [done|].
  destruct i as [|i]; simpl in Hi.
  - simplify_eq. rewrite Nat.add_0_r. unfold hb_block. rewrite rdn_hb_set_blocks; unfold hb_set_block.
    + rewrite rdn_wrn_same by lia. change (8 * Z.of_nat 4) with 32.
      rewrite Z.mod_small by lia. apply i32_small. lia.
    + rewrite length_wrn; lia.
    + lia.
  - replace (j + S i)%nat with (S j + i)%nat by lia. apply IH; auto.
    unfold hb_set_block. rewrite length_wrn; lia.
Qed.

Section Header.
Context (bs : list Z) (data : block).
Hypothesis Hlen : (4 + 4 * length bs <= length data)%nat.

Lemma length_put_header : length (put_header bs data) = length data.
Proof. unfold put_header, hb_set_n. rewrite length_hb_set_blocks; rewrite length_wrn; lia. Qed.

Lemma hb_n_put_header : Z.of_nat (length bs) < 2 ^ 31 -> hb_n (put_header bs data) = Z.of_nat (length bs).
Proof.
  intros Hn. unfold hb_n, put_header. rewrite rdn_hb_set_blocks; unfold hb_set_n.
  - rewrite rdn_wrn_same by lia. change (8 * Z.of_nat 4) with 32. rewrite Z.mod_small by lia.
    apply i32_small. lia.
  - rewrite length_wrn; lia.
  - lia.
Qed.

Lemma hb_block_put_header i b :
  bs !! i = Some b -> 0 <= b < 2 ^ 31 -> hb_block (put_header bs data) i = b.
Proof.
  intros. apply (hb_block_set_blocks bs 0); auto. unfold hb_set_n. rewrite length_wrn; lia.
Qed.
End Header.

(** ** The writes of a commit and of a recovery *)

Definition log_writes (start : Z) (new : Z -> block) (bs : list Z) : list (Z * block) :=
  imap (fun i b => (start + 1 + Z.of_nat i, new b)) bs.
Definition install_writes (new : Z -> block) (bs : list Z) : list (Z * block) :=
  (fun b => (b, new b)) <$> bs.

(** commit(): the log, the header, the home locations, the empty header. *)
Definition commit_writes (start : Z) (hdr : block) (new : Z -> block) (bs : list Z) : list (Z * block) :=
  log_writes start new bs ++ [(start, put_header bs hdr)] ++
  install_writes new bs ++ [(start, put_header [] (put_header bs hdr))].

(** recover_from_log(): what the header of the disk says. *)
Definition logged (start : Z) (d : Z -> block) : list (Z * block) :=
  (fun i : nat => (hb_block (d start) i, d (start + 1 + Z.of_nat i))) <$> seq 0 (Z.to_nat (hb_n (d start))).
Definition recovered (start : Z) (d : Z -> block) : Z -> block :=
  apply_writes d (logged start d ++ [(start, hb_set_n 0 (d start))]).

(** A transaction: distinct blocks outside the log area [start, start+size),
    few enough to fit. *)
Record tx_ok (start size : Z) (hdr : block) (bs : list Z) : Prop := {
  tx_fit : Z.of_nat (length bs) < size <= LOGSIZE;
  tx_start : 0 <= start < 2 ^ 30;
  tx_hdr : length hdr = Z.to_nat BSIZE;
  tx_blk b : b ∈ bs -> 0 <= b < 2 ^ 31 /\ ~ (start <= b < start + size);
  tx_nodup : NoDup bs;
}.

Section Crash.
Context (start size : Z) (d : Z -> block) (new : Z -> block) (bs : list Z).
Hypothesis T : tx_ok start size (d start) bs.
Hypothesis Hn : hb_n (d start) = 0.

Lemma tx_len : (4 + 4 * length bs <= length (d start))%nat.
Proof.
  destruct T as [F _ H _ _]. rewrite H. change LOGSIZE with 30 in F. change (Z.to_nat BSIZE) with 1024%nat. lia.
Qed.

Lemma log_writes_elem w :
  w ∈ log_writes start new bs <-> exists i b, bs !! i = Some b /\ w = (start + 1 + Z.of_nat i, new b).
Proof. unfold log_writes. rewrite elem_of_lookup_imap. naive_solver. Qed.

Lemma log_writes_keys x : x ∈ (log_writes start new bs).*1 -> start < x <= start + Z.of_nat (length bs).
Proof.
  intros (w & -> & (i & b & Hb & ->)%log_writes_elem)%list_elem_of_fmap.
  apply lookup_lt_Some in Hb. cbn. lia.
Qed.

Lemma install_writes_keys x : x ∈ (install_writes new bs).*1 <-> x ∈ bs.
Proof. unfold install_writes. rewrite <- list_fmap_compose. cbn. by rewrite list_fmap_id. Qed.

Lemma install_writes_val w : w ∈ install_writes new bs -> w.2 = new w.1.
Proof. by intros (b & -> & _)%list_elem_of_fmap. Qed.

(** The disk once the header is written: the commit point. *)
Definition committed : Z -> block :=
  apply_writes d (log_writes start new bs ++ [(start, put_header bs (d start))]).

Lemma committed_start : committed start = put_header bs (d start).
Proof. unfold committed. rewrite apply_writes_app. apply disk_set_eq. Qed.

Lemma committed_log i b : bs !! i = Some b -> committed (start + 1 + Z.of_nat i) = new b.
Proof.
  intros Hb. unfold committed. rewrite apply_writes_app. cbn. rewrite disk_set_ne by lia.
  apply apply_writes_in.
  - intros w (j & c & Hc & ->)%log_writes_elem E. cbn in *. assert (j = i) as -> by lia. congruence.
  - apply list_elem_of_fmap. exists (start + 1 + Z.of_nat i, new b). split; [done|].
    apply log_writes_elem. eauto.
Qed.

Lemma committed_out x : ~ (start <= x < start + size) -> committed x = d x.
Proof.
  intros Hx. pose proof (tx_fit _ _ _ _ T) as F. unfold committed. apply apply_writes_out. rewrite fmap_app.
  intros [H%log_writes_keys|H]%elem_of_app; [lia|]. apply list_elem_of_singleton in H. cbn in H. lia.
Qed.

(** The final contents of the home locations. *)
Definition updated : Z -> block := apply_writes d (install_writes new bs).

Lemma updated_in x : x ∈ bs -> updated x = new x.
Proof.
  intros H. apply apply_writes_in; [|by apply install_writes_keys].
  by intros w ->%install_writes_val <-.
Qed.
Lemma updated_out x : x ∉ bs -> updated x = d x.
Proof. intros. apply apply_writes_out. by rewrite install_writes_keys. Qed.

(** Recovery with an empty header changes the header block only. *)
Lemma recovered_empty d' x : hb_n (d' start) = 0 -> x <> start -> recovered start d' x = d' x.
Proof.
  intros H Hx. unfold recovered, logged. rewrite H. cbn. by apply disk_set_ne.
Qed.

(** Recovery from a disk with the header in place, whatever part of the
    installation has happened. *)
Lemma recovered_full d' x :
  d' start = put_header bs (d start) ->
  (forall i b, bs !! i = Some b -> d' (start + 1 + Z.of_nat i) = new b) ->
  (forall y, y ∉ bs -> ~ (start <= y < start + size) -> d' y = d y) ->
  ~ (start <= x < start + size) -> recovered start d' x = updated x.
Proof.
  intros Hs Hl Ho Hx. pose proof tx_len as HL. pose proof (tx_fit _ _ _ _ T) as F. change LOGSIZE with 30 in F.
  unfold recovered. rewrite apply_writes_app. cbn. rewrite disk_set_ne by lia.
  assert (logged start d' = install_writes new bs) as ->.
  { unfold logged. rewrite Hs, hb_n_put_header, Nat2Z.id by (lia || done).
    apply list_eq. intros i. unfold install_writes. rewrite !list_lookup_fmap.
    destruct (bs !! i) as [b|] eqn:Hb.
    - rewrite lookup_seq_lt by (by eapply lookup_lt_Some). cbn. rewrite (Hl i b Hb).
      f_equal. f_equal. apply hb_block_put_header; auto. apply (tx_blk _ _ _ _ T). by eapply list_elem_of_lookup_2.
    - rewrite lookup_seq_ge by (by apply lookup_ge_None). done. }
  destruct (decide (x ∈ bs)) as [Hin|Hin].
  - rewrite updated_in by done. apply apply_writes_in; [|by apply install_writes_keys].
    by intros w ->%install_writes_val <-.
  - rewrite updated_out by done. rewrite apply_writes_out by (by rewrite install_writes_keys). by apply Ho.
Qed.

Lemma length_log_writes : length (log_writes start new bs) = length bs.
Proof. apply length_imap. Qed.

(** Before the commit point a crash leaves the old contents. *)
Lemma crash_before k x :
  (k <= length bs)%nat -> ~ (start <= x < start + size) ->
  recovered start (apply_writes d (take k (commit_writes start (d start) new bs))) x = d x.
Proof.
  intros Hk Hx. pose proof (tx_fit _ _ _ _ T) as F. unfold commit_writes.
  rewrite take_app_le by (rewrite length_log_writes; lia).
  assert (forall y, ~ (start < y < start + size) ->
    apply_writes d (take k (log_writes start new bs)) y = d y) as H.
  { intros y Hy. apply apply_writes_out. rewrite fmap_take. intros Hin%elem_of_take.
    destruct Hin as (i & Hin & _). apply list_elem_of_lookup_2, log_writes_keys in Hin. lia. }
  rewrite recovered_empty; [apply H; lia| |lia]. rewrite H by lia. done.
Qed.

(** From the commit point on, the new ones. *)
Lemma crash_after k x :
  (length bs < k)%nat -> ~ (start <= x < start + size) ->
  recovered start (apply_writes d (take k (commit_writes start (d start) new bs))) x = updated x.
Proof.
  intros Hk Hx. pose proof (tx_fit _ _ _ _ T) as F. change LOGSIZE with 30 in F. pose proof tx_len as HL.
  unfold commit_writes. rewrite (app_assoc (log_writes _ _ _)), take_app_ge.
  2: rewrite length_app, length_log_writes; cbn; lia.
  rewrite apply_writes_app. fold committed.
  set (m := (k - _)%nat). clearbody m. clear Hk.
  assert (forall y, y ∈ bs -> ~ (start <= y < start + size)) as Hb by (intros; by apply (tx_blk _ _ _ _ T)).
  destruct (decide (m <= length bs)%nat) as [Hm|Hm].
  - rewrite take_app_le by (unfold install_writes; rewrite length_fmap; lia).
    assert (forall y, y ∉ bs -> apply_writes committed (take m (install_writes new bs)) y = committed y) as H.
    { intros y Hy. apply apply_writes_out. rewrite fmap_take. intros Hin%elem_of_take.
      destruct Hin as (i & Hin & _). apply list_elem_of_lookup_2, install_writes_keys in Hin. done. }
    apply recovered_full; auto.
    + rewrite H, committed_start; [done|]. intros ?%Hb. lia.
    + intros i b Hi. rewrite H; [by apply committed_log|]. apply lookup_lt_Some in Hi.
      intros ?%Hb. lia.
    + intros y Hy Ho. rewrite H by done. by apply committed_out.
  - rewrite take_ge by (rewrite length_app; unfold install_writes; rewrite length_fmap; cbn; lia).
    rewrite apply_writes_app. cbn. rewrite recovered_empty; [| |lia].
    + rewrite disk_set_ne by lia. apply apply_writes_ext. by apply committed_out.
    + rewrite disk_set_eq. apply (hb_n_put_header []); [|done]. cbn. rewrite length_put_header by done. lia.
Qed.

(** What the header block can be after a crash. *)
Lemma crash_header k :
  let h := apply_writes d (take k (commit_writes start (d start) new bs)) start in
  h = d start \/ h = put_header bs (d start) \/ h = put_header [] (put_header bs (d start)).
Proof.
  cbn zeta. pose proof (tx_fit _ _ _ _ T) as F. unfold commit_writes. rewrite app_assoc.
  destruct (decide (k <= length bs)%nat) as [Hk|Hk].
  - left. rewrite <- app_assoc, take_app_le by (rewrite length_log_writes; lia).
    apply apply_writes_out. rewrite fmap_take. intros (i & Hi & _)%elem_of_take.
    apply list_elem_of_lookup_2, log_writes_keys in Hi. lia.
  - right. rewrite take_app_ge by (rewrite length_app, length_log_writes; cbn; lia).
    rewrite apply_writes_app. fold committed. set (m := (k - _)%nat). clearbody m.
    destruct (decide (m <= length bs)%nat) as [Hm|Hm].
    + left. rewrite take_app_le by (unfold install_writes; rewrite length_fmap; lia).
      rewrite apply_writes_out; [apply committed_start|]. rewrite fmap_take. intros (i & Hi & _)%elem_of_take.
      apply list_elem_of_lookup_2, install_writes_keys, (tx_blk _ _ _ _ T) in Hi. lia.
    + right. rewrite take_ge by (rewrite length_app; unfold install_writes; rewrite length_fmap; cbn; lia).
      rewrite apply_writes_app. apply disk_set_eq.
Qed.
End Crash.

(** ** Crashes during recovery *)

(** Recovery can itself be interrupted at any write and started again. *)
Lemma recovered_again start size d k x :
  (forall w, w ∈ logged start d -> ~ (start <= w.1 < start + size)) ->
  NoDup (logged start d).*1 -> 0 <= hb_n (d start) < size ->
  (4 <= length (d start))%nat -> ~ (start <= x < start + size) ->
  recovered start (apply_writes d (take k (logged start d ++ [(start, hb_set_n 0 (d start))]))) x
    = recovered start d x.
Proof.
  intros Hw Hnd Hn Hl Hx. assert (x <> start) as Hxs by lia.
  assert (length (logged start d) = Z.to_nat (hb_n (d start))) as HL
    by (unfold logged; by rewrite length_fmap, length_seq).
  destruct (decide (k <= length (logged start d))%nat) as [Hk|Hk].
  - rewrite take_app_le by done. set (d' := apply_writes d _).
    assert (forall y, start <= y < start + size -> d' y = d y) as Hd.
    { intros y Hy. apply apply_writes_out. rewrite fmap_take. intros (i & Hi & _)%elem_of_take.
      apply list_elem_of_lookup_2, list_elem_of_fmap in Hi as (w & -> & Hi). by apply Hw in Hi. }
    assert (logged start d' = logged start d) as E.
    { unfold logged. rewrite Hd by lia. apply list_fmap_ext. intros i j [-> Hj]%lookup_seq.
      rewrite Hd; [done|lia]. }
    unfold recovered. rewrite E, !apply_writes_app. cbn. rewrite !disk_set_ne by done.
    destruct (decide (x ∈ (logged start d).*1)) as [Hin|Hin].
    + apply list_elem_of_fmap in Hin as ([y v] & -> & Hin).
      assert (forall w, w ∈ logged start d -> w.1 = y -> w.2 = v) as Hv.
      { intros [y' v'] Hw' Hy. cbn in Hy. subst y'. apply list_elem_of_lookup in Hw' as [i Hi].
        apply list_elem_of_lookup in Hin as [j Hj]. assert (i = j) as ->.
        { apply (NoDup_lookup _ i j y Hnd); rewrite list_lookup_fmap; [by rewrite Hi|by rewrite Hj]. }
        by simplify_eq/=. }
      assert (y ∈ (logged start d).*1) by (apply list_elem_of_fmap; exists (y, v); done).
      by rewrite !(apply_writes_in _ v).
    + rewrite !apply_writes_out by done. apply apply_writes_out. rewrite fmap_take. intros (i & Hi & _)%elem_of_take.
      by apply list_elem_of_lookup_2 in Hi.
  - rewrite take_ge by (rewrite length_app; cbn; lia). fold (recovered start d).
    apply recovered_empty; [|done]. unfold recovered. rewrite apply_writes_app. cbn. rewrite disk_set_eq.
    apply (hb_n_put_header []); [cbn; lia|done].
Qed.
