(* ===== verification/LogProof.v ===== *)
(** log.c performs the writes of Crash.v.

    The commit of a transaction whose blocks are pinned in the cache issues
    [commit_writes]; recovery at boot leaves the disk [recovered] of Crash.v.
    Both run to completion: no buffer is missing, nothing blocks. *)

From S2P Require Import Prelude Layout Kernel Sched Bio Log Ring Cache Crash.

(** ** Zset *)

Lemma zset_disk_set d b x : zset d b x = disk_set d b x.
Proof. done. Qed.

Ltac zs := repeat first
  [ rewrite zset_eq | rewrite zset_ne by (done || congruence || lia) ].

(** Pointwise equality of updated functions. *)
Ltac zcase := let x := fresh "x" in intros x; unfold zset, disk_set;
  repeat match goal with |- context [?a =? ?b] => destruct (Z.eqb_spec a b) end;
  subst; (lia || done || congruence).

Definition none (x : Z) : bool := false.

(** The in-memory log lists [bs], whose copies go to the blocks after
    [start]. *)
Record log_at (s : kernel) (dev start : Z) (bs : list Z) : Prop := {
  la_dev : log_dev (k_log s) = dev;
  la_start : log_start (k_log s) = start;
  la_n : lh_n (k_log s) = Z.of_nat (length bs);
  la_blk i b : bs !! i = Some b -> lh_block (k_log s) !! i = Some b;
}.

(** What code inside a transaction may change. *)
Definition tframe (s s' : kernel) : Prop :=
  s' = s <| k_bufs := k_bufs s' |> <| k_procs := k_procs s' |> <| k_disk := k_disk s' |>
         <| k_writes := k_writes s' |> <| k_log := k_log s' |> /\ ptables s' = ptables s.

Lemma tframe_cframe s s' : cframe s s' -> tframe s s'.
Proof. intros [-> P]. split; [by destruct s|done]. Qed.
Lemma tframe_trans s1 s2 s3 : tframe s1 s2 -> tframe s2 s3 -> tframe s1 s3.
Proof. intros [E1 P1] [E2 P2]. split; [rewrite E2, E1; by destruct s1|congruence]. Qed.
Lemma tframe_log s f : tframe s (s <| k_log ::= f |>).
Proof. unfold tframe. by destruct s. Qed.
Lemma tframe_bufs_log s bs f : tframe s (s <| k_bufs := bs |> <| k_log ::= f |>).
Proof. unfold tframe. by destruct s. Qed.
Lemma tframe_sb s s' : tframe s s' -> k_sb s' = k_sb s.
Proof. intros [-> _]. done. Qed.

Lemma cframe_log s s' : cframe s s' -> k_log s' = k_log s.
Proof. intros [-> _]. done. Qed.

Lemma log_at_frame s s' dev start bs : cframe s s' -> log_at s dev start bs -> log_at s' dev start bs.
Proof. intros E%cframe_log [H1 H2 H3 H4]. split; by rewrite ?E. Qed.

Section Steps.
Context (me : nat) (pid dev start : Z) (bs : list Z) (e : list (kernel -> kernel)).
Hypothesis Hstart : 0 <= start < 2 ^ 30.
Hypothesis Hlen : (length bs <= 30)%nat.
Hypothesis Hbs : forall b, b ∈ bs -> 0 <= b < 2 ^ 31 /\ ~ (start <= b <= start + Z.of_nat (length bs)).

Lemma lh_get_ok s i b :
  log_at s dev start bs -> bs !! i = Some b -> lh_get i (mkWorld s e) = Ok b (mkWorld s e).
Proof. intros L Hb. unfold lh_get. rewrite bind_gets. apply index_ok. by apply (la_blk _ _ _ _ L). Qed.

Lemma get_data_ok s pin lck view i blk :
  cache s me pid dev pin lck view -> holds (k_bufs s) dev i blk ->
  exists b, get_buf i (mkWorld s e) = Ok b (mkWorld s e) /\ b_data b = view blk.
Proof.
  intros C H. destruct (cache_at _ _ _ _ _ _ _ _ _ C H) as (b & Hb & _ & _ & _ & Hd & _).
  exists b. split; [by apply get_buf_ok|done].
Qed.

Lemma write_log_one_ok s pin view i b l :
  cache s me pid dev pin none view -> log_at s dev start bs -> bs !! i = Some b ->
  pin b <> 0 -> (forall x, pin x < 2 ^ 30) -> in_use pin l ->
  let t := start + 1 + Z.of_nat i in
  exists s', write_log_one i (mkWorld s e) = Ok tt (mkWorld s' e) /\
    cache s' me pid dev pin none (zset view t (view b)) /\ cframe s s' /\
    k_disk s' = disk_set (k_disk s) t (view b) /\ k_writes s' = k_writes s ++ [(t, view b)].
Proof.
  intros C L Hb Hp Hpin Hu t. pose proof (lookup_lt_Some _ _ _ Hb) as Hi.
  destruct (Hbs b ltac:(by eapply list_elem_of_lookup_2)) as [B1 B2].
  assert (b <> t) as Hbt by (unfold t; lia).
  assert (forall x, 0 <= pin x) as Hpos by (intros x; apply (ca_pin _ _ _ _ _ _ _ C x)).
  destruct (conj (conj (Hpin t) (Hpin b)) (conj (Hpos t) (Hpos b))) as [[P1 P2] [P3 P4]].
  destruct (bread_ok me pid dev e t s pin none view C) as (i1 & s1 & E1 & C1 & F1 & D1 & W1 & H1 & K1);
    [done|lia|right; eauto|].
  pose proof (log_at_frame _ _ _ _ _ F1 L) as L1.
  destruct (bread_ok me pid dev e b s1 _ _ _ C1) as (i2 & s2 & E2 & C2 & F2 & D2 & W2 & H2 & K2);
    [by zs|zs; lia|left; by zs|].
  assert (holds (k_bufs s2) dev i1 t) as H1' by (apply K2; [zs; lia|done]).
  destruct (get_data_ok _ _ _ _ _ _ C2 H2) as (fb & E3 & V3).
  destruct (mod_data_ok me pid dev e t s2 _ _ _ i1 (fun _ => view b) C2) as (s3 & E4 & C3 & F3 & D3 & W3 & H3);
    [by zs|done|].
  destruct (bwrite_cache me pid dev e t s3 _ _ _ i1 C3) as (s4 & E5 & C4 & F4 & Q4 & D4 & W4);
    [by zs|by apply H3|].
  destruct (brelse_cache me pid dev e b s4 _ _ _ i2 C4) as (s5 & E6 & C5 & F5 & D5 & W5 & H5);
    [by zs|rewrite Q4; by apply H3|zs; lia|].
  destruct (brelse_cache me pid dev e t s5 _ _ _ i1 C5) as (s6 & E7 & C6 & F6 & D6 & W6 & H6);
    [by zs|apply H5; rewrite Q4; by apply H3| |].
  { intros _. rewrite D5, D4. zs. by rewrite disk_set_eq. }
  exists s6. split_and!.
  - unfold write_log_one. rewrite bind_gets. cbn [w_k]. rewrite (la_dev _ _ _ _ L), (la_start _ _ _ _ L).
    replace (u32 (start + Z.of_nat i + 1)) with t by (unfold t; rewrite u32_small; lia).
    eapply run_bind; [exact E1|]. rewrite bind_gets. cbn [w_k]. rewrite (la_dev _ _ _ _ L1).
    eapply run_bind; [by apply lh_get_ok|]. rewrite u32_small by lia.
    eapply run_bind; [exact E2|]. eapply run_bind; [exact E3|]. rewrite V3.
    eapply run_bind; [exact E4|]. eapply run_bind; [exact E5|]. eapply run_bind; [exact E6|exact E7].
  - eapply cache_ext; [exact C6| | |done]; unfold none; zcase.
  - eauto 10 using cframe_trans.
  - rewrite D6, D5, D4, D3, D2, D1. by zs.
  - rewrite W6, W5, W4, W3, W2, W1. by zs.
Qed.

(** The state after the writes [ws], with references [pin]; nothing is locked. *)
Definition wrote (s : kernel) (view : Z -> block) (pin : Z -> Z) (ws : list (Z * block)) (s' : kernel) : Prop :=
  cache s' me pid dev pin none (apply_writes view ws) /\ cframe s s' /\
  k_disk s' = apply_writes (k_disk s) ws /\ k_writes s' = k_writes s ++ ws.

Lemma wrote_nil s view pin : cache s me pid dev pin none view -> wrote s view pin [] s.
Proof. intros C. split_and!; [done|apply cframe_refl|done|by rewrite app_nil_r]. Qed.

Lemma wrote_app s view pin ws s1 pin' ws' s2 :
  wrote s view pin ws s1 -> wrote s1 (apply_writes view ws) pin' ws' s2 -> wrote s view pin' (ws ++ ws') s2.
Proof.
  intros (C1 & F1 & D1 & W1) (C2 & F2 & D2 & W2). unfold wrote. rewrite !apply_writes_app.
  split_and!; [done|by eapply cframe_trans|by rewrite D2, D1|by rewrite W2, W1, app_assoc].
Qed.

Lemma wrote_ext s view pin pin' ws s' :
  wrote s view pin ws s' -> (forall x, pin' x = pin x) -> wrote s view pin' ws s'.
Proof. intros (C & F) H. split; [|done]. by eapply cache_ext. Qed.

(** A loop that issues one write per iteration. *)
Lemma write_loop n body (ws : list (Z * block)) pins s view :
  length ws = n -> cache s me pid dev (pins O) none view ->
  (forall k w s1, ws !! k = Some w -> wrote s view (pins k) (take k ws) s1 ->
     exists s2, body k (mkWorld s1 e) = Ok tt (mkWorld s2 e) /\
       wrote s1 (apply_writes view (take k ws)) (pins (S k)) [w] s2) ->
  exists s', for_loop n 0 body (mkWorld s e) = Ok tt (mkWorld s' e) /\ wrote s view (pins n) ws s'.
Proof.
  intros Hn C Hb.
  destruct (for_loop_inv (fun k w => exists s1, w = mkWorld s1 e /\ wrote s view (pins k) (take k ws) s1)
    n 0 body (mkWorld s e)) as (w & E & s' & -> & W).
  - exists s. split; [done|]. by apply wrote_nil.
  - intros k w [_ Hk] (s1 & -> & W). destruct (lookup_lt_is_Some_2 ws k) as [x Hx]; [lia|].
    destruct (Hb k x s1 Hx W) as (s2 & E2 & W2). exists (mkWorld s2 e). split; [done|]. exists s2.
    split; [done|]. rewrite (take_S_r _ _ _ Hx). by eapply wrote_app.
  - exists s'. split; [done|]. by rewrite take_ge in W by lia.
Qed.

Lemma bs_not_log b i : b ∈ bs -> (i <= length bs)%nat -> b <> start + Z.of_nat i.
Proof. intros [_ H]%Hbs ? ->. lia. Qed.

Lemma write_log_ok s pin view l :
  cache s me pid dev pin none view -> log_at s dev start bs ->
  (forall b, b ∈ bs -> pin b <> 0) -> (forall x, pin x < 2 ^ 30) -> in_use pin l ->
  exists s', write_log (mkWorld s e) = Ok tt (mkWorld s' e) /\
    wrote s view pin (log_writes start view bs) s'.
Proof.
  intros C L Hp Hpin Hu. unfold write_log. rewrite bind_gets. cbn [w_k].
  rewrite (la_n _ _ _ _ L), Nat2Z.id.
  apply (write_loop _ _ _ (fun _ => pin)); [apply length_imap|done|].
  intros k w s1 Hw (C1 & F1 & D1 & W1). unfold log_writes in Hw. rewrite list_lookup_imap in Hw.
  destruct (bs !! k) as [b|] eqn:Hb; [|done]. cbn in Hw. injection Hw as <-.
  pose proof (list_elem_of_lookup_2 _ _ _ Hb) as Hin.
  destruct (write_log_one_ok s1 pin _ k b l C1) as (s2 & E2 & C2 & F2 & D2 & W2); auto.
  { by eapply log_at_frame. }
  exists s2. split; [done|].
  assert (apply_writes view (take k (log_writes start view bs)) b = view b) as E.
  { apply apply_writes_out. rewrite fmap_take. intros (i & Hi & _)%elem_of_take.
    apply list_elem_of_lookup_2, log_writes_keys in Hi. apply Hbs in Hin as [_ Hin]. lia. }
  rewrite E in *. split_and!; done.
Qed.

(** The loop that fills in the header. *)
Lemma header_loop s pin lck view i data :
  cache s me pid dev pin lck (zset view start data) -> lck start = true -> holds (k_bufs s) dev i start ->
  log_at s dev start bs ->
  exists s', for_loop (length bs) 0 (fun j => let* v := lh_get j in mod_data i (hb_set_block j v)) (mkWorld s e)
      = Ok tt (mkWorld s' e) /\
    cache s' me pid dev pin lck (zset view start (hb_set_blocks 0 bs data)) /\ cframe s s' /\
    k_disk s' = k_disk s /\ k_writes s' = k_writes s /\
    (forall j x, holds (k_bufs s') dev j x <-> holds (k_bufs s) dev j x).
Proof.
  intros C Hl Hh L.
  destruct (for_loop_inv (fun k w => exists s1, w = mkWorld s1 e /\
    cache s1 me pid dev pin lck (zset view start (hb_set_blocks 0 (take k bs) data)) /\ cframe s s1 /\
    k_disk s1 = k_disk s /\ k_writes s1 = k_writes s /\
    (forall j x, holds (k_bufs s1) dev j x <-> holds (k_bufs s) dev j x))
    (length bs) 0 (fun j => let* v := lh_get j in mod_data i (hb_set_block j v)) (mkWorld s e))
    as (w & E & s' & -> & H).
  - exists s. split_and!; auto using cframe_refl.
  - intros k w [_ Hk] (s1 & -> & C1 & F1 & D1 & W1 & H1).
    destruct (lookup_lt_is_Some_2 bs k) as [b Hb]; [lia|].
    destruct (mod_data_ok me pid dev e start s1 _ _ _ i (hb_set_block k b) C1)
      as (s2 & E2 & C2 & F2 & D2 & W2 & H2); [done|by apply H1|].
    exists (mkWorld s2 e). split.
    { eapply run_bind; [by apply lh_get_ok; [eapply log_at_frame|]|exact E2]. }
    exists s2. split; [done|]. split_and!; [|by eapply cframe_trans|congruence|congruence|].
    + eapply cache_ext; [exact C2|done|done|]. rewrite (take_S_r _ _ _ Hb), hb_set_blocks_app.
      rewrite length_take_le by lia. cbn [hb_set_blocks]. zs. zcase.
    + intros. by rewrite H2, H1.
  - exists s'. rewrite Nat.add_0_l, firstn_all in H. done.
Qed.

Lemma write_head_ok s pin view l :
  cache s me pid dev pin none view -> log_at s dev start bs -> pin start < 2 ^ 30 -> in_use pin l ->
  exists s', write_head (mkWorld s e) = Ok tt (mkWorld s' e) /\
    wrote s view pin [(start, put_header bs (view start))] s'.
Proof.
  intros C L Hp Hu. destruct (ca_pin _ _ _ _ _ _ _ C start) as [P1 _].
  destruct (bread_ok me pid dev e start s pin none view C) as (i & s1 & E1 & C1 & F1 & D1 & W1 & H1 & K1);
    [done|lia|right; eauto|].
  destruct (mod_data_ok me pid dev e start s1 _ _ _ i (hb_set_n (Z.of_nat (length bs))) C1)
    as (s2 & E2 & C2 & F2 & D2 & W2 & H2); [by zs|done|].
  destruct (header_loop s2 _ _ view i _ C2) as (s3 & E3 & C3 & F3 & D3 & W3 & H3);
    [by zs|by apply H2|eauto using log_at_frame|].
  fold (put_header bs (view start)) in C3.
  destruct (bwrite_cache me pid dev e start s3 _ _ _ i C3) as (s4 & E4 & C4 & F4 & Q4 & D4 & W4);
    [by zs|by apply H3, H2|].
  destruct (brelse_cache me pid dev e start s4 _ _ _ i C4) as (s5 & E5 & C5 & F5 & D5 & W5 & H5);
    [by zs|rewrite Q4; by apply H3, H2|intros _; rewrite D4; zs; by rewrite disk_set_eq|].
  exists s5. split; [|split_and!].
  - unfold write_head. rewrite bind_gets. cbn [w_k].
    rewrite (la_dev _ _ _ _ L), (la_start _ _ _ _ L), (la_n _ _ _ _ L), Nat2Z.id, u32_small by lia.
    eapply run_bind; [exact E1|]. eapply run_bind; [exact E2|]. eapply run_bind; [exact E3|].
    eapply run_bind; [exact E4|exact E5].
  - eapply cache_ext; [exact C5| | |done]; unfold none; zcase.
  - eauto 10 using cframe_trans.
  - rewrite D5, D4, D3, D2, D1. zs. done.
  - rewrite W5, W4, W3, W2, W1. zs. done.
Qed.

(** During a commit, the reference log_write() took is given back. *)
Lemma unpin_ok (r : bool) s pin lck view i b :
  cache s me pid dev pin lck view -> holds (k_bufs s) dev i b -> (r = false -> 2 <= pin b) ->
  exists s', (when negb r do bunpin i) (mkWorld s e) = Ok tt (mkWorld s' e) /\
    cache s' me pid dev (if r then pin else zset pin b (pin b - 1)) lck view /\ cframe s s' /\
    k_disk s' = k_disk s /\ k_writes s' = k_writes s /\
    (forall j x, holds (k_bufs s') dev j x <-> holds (k_bufs s) dev j x).
Proof.
  intros C H Hp. destruct r.
  - exists s. split_and!; auto using cframe_refl.
  - specialize (Hp eq_refl). destruct (ca_pin _ _ _ _ _ _ _ C b) as [P _].
    by destruct (bref_cache me pid dev e (-1) b s _ _ _ i C) as (s' & E & R); [done|lia|lia|lia|eauto].
Qed.

(** Copying a logged block to its home location. *)
Lemma install_one_ok (r : bool) s pin view i b l :
  cache s me pid dev pin none view -> log_at s dev start bs -> bs !! i = Some b ->
  (forall x, pin x < 2 ^ 30) -> in_use pin l ->
  (if r then (S (length l) < NBUF)%nat else pin b <> 0) ->
  let t := start + 1 + Z.of_nat i in
  exists s', install_one r i (mkWorld s e) = Ok tt (mkWorld s' e) /\
    wrote s view (if r then pin else zset pin b (pin b - 1)) [(b, view t)] s'.
Proof.
  intros C L Hb Hpin Hu Hr t. pose proof (lookup_lt_Some _ _ _ Hb) as Hi.
  destruct (Hbs b ltac:(by eapply list_elem_of_lookup_2)) as [B1 B2].
  assert (b <> t) as Hbt by (unfold t; lia).
  assert (forall x, 0 <= pin x) as Hpos by (intros x; apply (ca_pin _ _ _ _ _ _ _ C x)).
  destruct (conj (conj (Hpin t) (Hpin b)) (conj (Hpos t) (Hpos b))) as [[P1 P2] [P3 P4]].
  destruct (bread_ok me pid dev e t s pin none view C) as (i1 & s1 & E1 & C1 & F1 & D1 & W1 & H1 & K1);
    [done|lia|right; eauto|].
  pose proof (log_at_frame _ _ _ _ _ F1 L) as L1.
  destruct (bread_ok me pid dev e b s1 _ _ _ C1) as (i2 & s2 & E2 & C2 & F2 & D2 & W2 & H2 & K2);
    [by zs|zs; lia| |].
  { destruct r; [right; exists (t :: l); split; [cbn in *; lia|]|left; by zs].
    intros x Hx. unfold zset in Hx. destruct (Z.eqb_spec x t) as [Ex|]; [rewrite Ex; set_solver|].
    apply elem_of_cons. right. by apply Hu. }
  assert (holds (k_bufs s2) dev i1 t) as H1' by (apply K2; [zs; lia|done]).
  destruct (get_data_ok _ _ _ _ _ _ C2 H1') as (fb & E3 & V3).
  destruct (mod_data_ok me pid dev e b s2 _ _ _ i2 (fun _ => view t) C2) as (s3 & E4 & C3 & F3 & D3 & W3 & H3);
    [by zs|done|].
  destruct (bwrite_cache me pid dev e b s3 _ _ _ i2 C3) as (s4 & E5 & C4 & F4 & Q4 & D4 & W4);
    [by zs|by apply H3|].
  destruct (unpin_ok r s4 _ _ _ i2 b C4) as (s5 & E6 & C5 & F5 & D5 & W5 & H5);
    [rewrite Q4; by apply H3|intros ->; zs; lia|].
  destruct (brelse_cache me pid dev e t s5 _ _ _ i1 C5) as (s6 & E7 & C6 & F6 & D6 & W6 & H6);
    [by zs|apply H5; rewrite Q4; by apply H3| |].
  { intros Hz. assert (pin t = 0) as Hz' by (destruct r; revert Hz; zs; lia).
    rewrite D5, D4, D3, D2, D1. zs. rewrite disk_set_ne by done. by apply (ca_clean _ _ _ _ _ _ _ C). }
  destruct (brelse_cache me pid dev e b s6 _ _ _ i2 C6) as (s7 & E8 & C7 & F7 & D7 & W7 & H7);
    [by zs|apply H6, H5; rewrite Q4; by apply H3| |].
  { intros _. rewrite D6, D5, D4. zs. by rewrite disk_set_eq. }
  exists s7. split; [|split_and!].
  - unfold install_one. rewrite bind_gets. cbn [w_k]. rewrite (la_dev _ _ _ _ L), (la_start _ _ _ _ L).
    replace (u32 (start + Z.of_nat i + 1)) with t by (unfold t; rewrite u32_small; lia).
    eapply run_bind; [exact E1|]. rewrite bind_gets. cbn [w_k]. rewrite (la_dev _ _ _ _ L1).
    eapply run_bind; [by apply lh_get_ok|]. rewrite u32_small by lia.
    eapply run_bind; [exact E2|]. eapply run_bind; [exact E3|]. rewrite V3.
    eapply run_bind; [exact E4|]. eapply run_bind; [exact E5|]. eapply run_bind; [exact E6|].
    eapply run_bind; [exact E7|exact E8].
  - eapply cache_ext; [exact C7| | |done]; destruct r; unfold none; zcase.
  - eauto 10 using cframe_trans.
  - rewrite D7, D6, D5, D4, D3, D2, D1. by zs.
  - rewrite W7, W6, W5, W4, W3, W2, W1. by zs.
Qed.

Hypothesis Hnd : NoDup bs.

(** The writes of install_trans(), from the log to the home locations. *)
Definition from_log (view : Z -> block) : list (Z * block) :=
  imap (fun i b => (b, view (start + 1 + Z.of_nat i))) bs.

Definition unpinned (r : bool) (pin : Z -> Z) (k : nat) (x : Z) : Z :=
  if r then pin x else if decide (x ∈ take k bs) then pin x - 1 else pin x.

Lemma unpinned_next r pin k b x :
  bs !! k = Some b ->
  unpinned r pin (S k) x = (if r then unpinned r pin k else zset (unpinned r pin k) b (unpinned r pin k b - 1)) x.
Proof.
  intros Hb. unfold unpinned. destruct r; [done|]. rewrite (take_S_r _ _ _ Hb).
  assert (b ∉ take k bs) as Hn.
  { intros (i & Hi & Hlt)%elem_of_take. pose proof (NoDup_lookup _ _ _ _ Hnd Hi Hb). lia. }
  unfold zset. destruct (Z.eqb_spec x b) as [->|].
  - rewrite decide_True by set_solver. by rewrite decide_False.
  - destruct (decide (x ∈ take k bs)); [rewrite decide_True by set_solver|rewrite decide_False by set_solver]; done.
Qed.

Lemma install_trans_ok (r : bool) s pin view l :
  cache s me pid dev pin none view -> log_at s dev start bs ->
  (forall x, 0 <= pin x < 2 ^ 30) -> in_use pin l ->
  (if r then (S (length l) < NBUF)%nat else forall b, b ∈ bs -> pin b <> 0) ->
  exists s', install_trans r (mkWorld s e) = Ok tt (mkWorld s' e) /\
    wrote s view (unpinned r pin (length bs)) (from_log view) s'.
Proof.
  intros C L Hpin Hu Hr. unfold install_trans. rewrite bind_gets. cbn [w_k].
  rewrite (la_n _ _ _ _ L), Nat2Z.id.
  apply write_loop; [apply length_imap| |].
  { eapply cache_ext; [exact C| |done|done]. intros x. unfold unpinned. destruct r; [done|].
    by rewrite decide_False by (rewrite take_0; set_solver). }
  intros k w s1 Hw (C1 & F1 & D1 & W1). unfold from_log in Hw. rewrite list_lookup_imap in Hw.
  destruct (bs !! k) as [b|] eqn:Hb; [|done]. cbn in Hw. injection Hw as <-.
  destruct (install_one_ok r s1 (unpinned r pin k) _ k b l C1) as (s2 & E2 & W2); auto.
  - by eapply log_at_frame.
  - intros x. specialize (Hpin x). unfold unpinned. destruct r; [lia|]. case_decide; lia.
  - split; [apply Hu|]. intros x Hx. apply Hu. revert Hx. unfold unpinned. destruct r; [done|].
    case_decide as Hx; [|done]. intros _. apply Hr. apply elem_of_take in Hx as (i & Hx & _).
    by eapply list_elem_of_lookup_2.
  - destruct r; [done|]. unfold unpinned. rewrite decide_False; [by eapply Hr, list_elem_of_lookup_2|].
    intros (i & Hi & Hlt)%elem_of_take. pose proof (NoDup_lookup _ _ _ _ Hnd Hi Hb). lia.
  - exists s2. split; [done|]. eapply wrote_ext; [|intros x; by apply unpinned_next].
    rewrite apply_writes_out in W2; [done|]. rewrite fmap_take. intros (i & Hi & _)%elem_of_take.
    apply list_elem_of_lookup_2, list_elem_of_fmap in Hi as (w & E & Hw).
    apply elem_of_lookup_imap in Hw as (j & c & -> & Hc). cbn in E.
    apply (bs_not_log c (S k)); [by eapply list_elem_of_lookup_2|by eapply lookup_lt_Some|lia].
Qed.
End Steps.

(** ** commit() *)

Lemma cache_log s me pid dev pin lck view f :
  cache s me pid dev pin lck view -> cache (s <| k_log ::= f |>) me pid dev pin lck view.
Proof. intros [[] C2 C3 C4 C5 C6 C7]. split; auto. by split. Qed.

Lemma from_log_ext start bs view view' :
  (forall i b, bs !! i = Some b -> view (start + 1 + Z.of_nat i) = view' b) ->
  from_log start bs view = install_writes view' bs.
Proof.
  intros H. apply list_eq. intros i. unfold from_log, install_writes.
  rewrite list_lookup_imap, list_lookup_fmap. destruct (bs !! i) as [b|] eqn:E; [|done]. cbn. by rewrite (H i b E).
Qed.

Section Commit.
Context (me : nat) (pid dev start size : Z) (bs : list Z) (e : list (kernel -> kernel)).

(** The state in which end_op() calls commit(): the blocks of the transaction
    are pinned, nothing is locked, and there is a buffer left. *)
Record ready (s : kernel) (pin : Z -> Z) (view : Z -> block) : Prop := {
  rd_cache : cache s me pid dev pin none view;
  rd_log : log_at s dev start bs;
  rd_tx : tx_ok start size (view start) bs;
  rd_some : bs <> [];
  rd_pinned b : b ∈ bs -> pin b <> 0;
  rd_hdr : pin start = 0;
  rd_pin x : 0 <= pin x < 2 ^ 30;
  rd_use : exists l, in_use pin l;
}.

Lemma tx_blocks hdr : tx_ok start size hdr bs ->
  forall b, b ∈ bs -> 0 <= b < 2 ^ 31 /\ ~ (start <= b <= start + Z.of_nat (length bs)).
Proof. intros T b Hb. pose proof (tx_fit _ _ _ _ T). destruct (tx_blk _ _ _ _ T b Hb). lia. Qed.

Lemma in_use_unpinned pin l :
  in_use pin l -> (forall b, b ∈ bs -> pin b <> 0) -> in_use (unpinned bs false pin (length bs)) l.
Proof.
  intros [H1 H2] Hp. split; [done|]. intros x Hx. apply H2. revert Hx. unfold unpinned.
  case_decide as Hx; [|done]. intros _. apply Hp. rewrite firstn_all in Hx. done.
Qed.

(** Up to the last header: log, header, home locations. *)
Lemma commit_body_ok s pin view :
  ready s pin view ->
  exists s', (write_log ;; write_head ;; install_trans false) (mkWorld s e) = Ok tt (mkWorld s' e) /\
    wrote me pid dev s view (unpinned bs false pin (length bs))
      (log_writes start view bs ++ [(start, put_header bs (view start))] ++ install_writes view bs) s'.
Proof.
  intros [C L T _ Hp H0 Hpin [l Hu]]. pose proof (tx_blocks _ T) as Hbs. pose proof (tx_start _ _ _ _ T) as Hst.
  pose proof (tx_fit _ _ _ _ T) as F. change LOGSIZE with 30 in F.
  destruct (write_log_ok me pid dev start bs e Hst ltac:(lia) Hbs s pin view l C L Hp) as (s1 & E1 & W1);
    [intros; apply Hpin|done|].
  pose proof W1 as (C1 & F1 & _).
  assert (apply_writes view (log_writes start view bs) start = view start) as Hs.
  { apply apply_writes_out. intros H%log_writes_keys. lia. }
  destruct (write_head_ok me pid dev start bs e Hst ltac:(lia) s1 pin _ l C1) as (s2 & E2 & W2);
    [by eapply log_at_frame|apply Hpin|done|]. rewrite Hs in W2.
  pose proof (wrote_app _ _ _ _ _ _ _ _ _ _ _ W1 W2) as (C2 & F2 & _).
  destruct (install_trans_ok me pid dev start bs e Hst ltac:(lia) Hbs (tx_nodup _ _ _ _ T) false s2 pin _ l C2)
    as (s3 & E3 & W3); [by eapply log_at_frame|apply Hpin|done|done|].
  exists s3. split.
  - eapply run_bind; [exact E1|]. eapply run_bind; [exact E2|exact E3].
  - rewrite app_assoc. eapply wrote_app; [by eapply wrote_app|].
    rewrite (from_log_ext _ _ _ view) in W3; [exact W3|].
    intros i b Hb. rewrite apply_writes_app. cbn. rewrite disk_set_ne by lia. apply apply_writes_in.
    + intros w (j & c & Hc & ->)%log_writes_elem E. cbn in *. assert (j = i) as -> by lia. congruence.
    + apply list_elem_of_fmap. exists (start + 1 + Z.of_nat i, view b). split; [done|].
      apply log_writes_elem. eauto.
Qed.

(** The header while the home locations are being written. *)
Lemma body_header hdr view : tx_ok start size hdr bs ->
  apply_writes view (log_writes start view bs ++ [(start, hdr)] ++ install_writes view bs) start = hdr.
Proof.
  intros T. rewrite !apply_writes_app, apply_writes_out; [apply disk_set_eq|].
  rewrite install_writes_keys. intros H%(tx_blk _ _ _ _ T). pose proof (tx_fit _ _ _ _ T). lia.
Qed.

(** commit() issues [commit_writes] and gives the references back. *)
Lemma commit_ok s pin view :
  ready s pin view ->
  let ws := commit_writes start (view start) view bs in
  exists s', commit (mkWorld s e) = Ok tt (mkWorld s' e) /\
    cache s' me pid dev (unpinned bs false pin (length bs)) none (apply_writes view ws) /\
    k_disk s' = apply_writes (k_disk s) ws /\ k_writes s' = k_writes s ++ ws /\
    k_log s' = (k_log s) <| lh_n := 0 |>.
Proof.
  intros R ws. pose proof R as [C L T Hne Hp H0 Hpin [l Hu]].
  pose proof (tx_start _ _ _ _ T) as Hst. pose proof (tx_fit _ _ _ _ T) as F. change LOGSIZE with 30 in F.
  destruct (commit_body_ok s pin view R) as (s3 & E3 & C3 & F3 & D3 & W3).
  set (s4 := s3 <| k_log ::= fun l => l <| lh_n := 0 |> |>).
  pose proof (cache_log _ _ _ _ _ _ _ (fun l => l <| lh_n := 0 |>) C3) as C4. fold s4 in C4.
  destruct (write_head_ok me pid dev start [] e Hst ltac:(cbn; lia) s4 _ _ l C4) as (s5 & E5 & C5 & F5 & D5 & W5).
  - destruct (log_at_frame _ _ _ _ _ F3 L) as [L1 L2 L3 L4]. by split.
  - specialize (Hpin start). unfold unpinned. case_decide; lia.
  - by apply in_use_unpinned.
  - assert (apply_writes view ws = apply_writes (apply_writes view (log_writes start view bs ++
      [(start, put_header bs (view start))] ++ install_writes view bs)) [(start, put_header [] (put_header bs (view start)))]) as EV.
    { rewrite <- apply_writes_app. subst ws. unfold commit_writes. by rewrite <- !app_assoc. }
    rewrite body_header in C5, D5, W5.
    2-4: destruct T as [T1 T2 T3 T4 T5]; split; auto; rewrite length_put_header; [done|];
      rewrite T3; change (Z.to_nat BSIZE) with 1024%nat; lia.
    exists s5. split_and!.
    + unfold commit. rewrite bind_gets. cbn [w_k]. rewrite (la_n _ _ _ _ L).
      rewrite (proj2 (Z.ltb_lt 0 _)); [|destruct bs; [done|cbn; lia]].
      revert E3. unfold bind. destruct (write_log _) as [? w1| | | |]; try done.
      destruct (write_head w1) as [? w2| | | |]; try done. destruct (install_trans _ w2); try done.
      intros [= _ ->]. exact E5.
    + by rewrite EV.
    + rewrite D5. change (k_disk s4) with (k_disk s3). rewrite D3, <- apply_writes_app. subst ws. unfold commit_writes. by rewrite <- !app_assoc.
    + rewrite W5. change (k_writes s4) with (k_writes s3). rewrite W3. subst ws. unfold commit_writes. by rewrite <- !app_assoc.
    + rewrite (cframe_log _ _ F5). unfold s4. cbn. by rewrite (cframe_log _ _ F3).
Qed.
End Commit.

(** ** Recovery *)

(** The blocks a header lists. *)
Definition listed (h : block) : list Z := hb_block h <$> seq 0 (Z.to_nat (hb_n h)).

Lemma length_listed h : length (listed h) = Z.to_nat (hb_n h).
Proof. unfold listed. by rewrite length_fmap, length_seq. Qed.

Lemma lookup_listed h i b : listed h !! i = Some b -> b = hb_block h i.
Proof.
  unfold listed. rewrite list_lookup_fmap. intros (j & [-> _]%lookup_seq & ->)%fmap_Some_1. done.
Qed.

Lemma logged_from_log start d : logged start d = from_log start (listed (d start)) d.
Proof.
  apply list_eq. intros i. unfold logged, from_log, listed. rewrite list_lookup_imap, !list_lookup_fmap.
  destruct (seq 0 _ !! i) as [j|] eqn:E; [|done]. apply lookup_seq in E as [-> _]. done.
Qed.

Section Recovery.
Context (me : nat) (pid dev start size : Z) (e : list (kernel -> kernel)).

Lemma lh_set_ok s (j : nat) v :
  (j < length (lh_block (k_log s)))%nat ->
  lh_set j v (mkWorld s e) = Ok tt (mkWorld (s <| k_log ::= fun l => l <| lh_block ::= <[j := i32 v]> |> |>) e).
Proof.
  intros [x Hx]%lookup_lt_is_Some_2. unfold lh_set, lh_get. apply run_assoc. rewrite bind_gets.
  eapply run_bind; [by apply index_ok|]. done.
Qed.

(** Filling log.lh.block from the header block. *)
Lemma read_blocks_ok h n : forall s,
  length (lh_block (k_log s)) = 30%nat -> (n <= 30)%nat ->
  exists bl, for_loop n 0 (fun j => lh_set j (hb_block h j)) (mkWorld s e)
      = Ok tt (mkWorld (s <| k_log ::= fun l => l <| lh_block := bl |> |>) e) /\ length bl = 30%nat /\
    forall i, (i < n)%nat -> bl !! i = Some (hb_block h i).
Proof.
  intros s Hl Hn.
  destruct (for_loop_inv (fun k w => exists bl, w = mkWorld (s <| k_log ::= fun l => l <| lh_block := bl |> |>) e /\
    length bl = 30%nat /\ forall i, (i < k)%nat -> bl !! i = Some (hb_block h i))
    n 0 (fun j => lh_set j (hb_block h j)) (mkWorld s e)) as (w & E & bl & -> & H); [| |eauto].
  - exists (lh_block (k_log s)). split_and!; [|done|lia]. f_equal. destruct s as [? ? ? ? ? ? ? ? ? ? ? ? ? ? ? ? ? []]. done.
  - intros k w [_ Hk] (bl & -> & Hbl & H). eexists. split; [apply lh_set_ok; cbn; lia|].
    exists (<[k := hb_block h k]> bl). split_and!.
    + f_equal. cbn. assert (i32 (hb_block h k) = hb_block h k) as -> by apply i32_small, i32_range. kstate.
    + by rewrite length_insert.
    + intros i Hi. destruct (decide (i = k)) as [->|]; [apply list_lookup_insert_eq; lia|].
      rewrite list_lookup_insert_ne by done. apply H. lia.
Qed.

Lemma read_head_ok s pin view l :
  cache s me pid dev pin none view -> log_dev (k_log s) = dev -> log_start (k_log s) = start ->
  length (lh_block (k_log s)) = 30%nat -> 0 <= start < 2 ^ 30 -> 0 <= hb_n (view start) <= 30 ->
  pin start < 2 ^ 30 -> in_use pin l ->
  exists s', read_head (mkWorld s e) = Ok tt (mkWorld s' e) /\
    cache s' me pid dev pin none view /\ log_at s' dev start (listed (view start)) /\
    k_disk s' = k_disk s /\ k_writes s' = k_writes s /\ tframe s s' /\
    exists bl, length bl = 30%nat /\ k_log s' = (k_log s) <| lh_n := hb_n (view start) |> <| lh_block := bl |>.
Proof.
  intros C Ld Ls Hl Hst Hn Hp Hu. destruct (ca_pin _ _ _ _ _ _ _ C start) as [P1 _].
  destruct (bread_ok me pid dev e start s pin none view C) as (i & s1 & E1 & C1 & F1 & D1 & W1 & H1 & K1);
    [done|lia|right; eauto|].
  destruct (get_data_ok me pid dev e _ _ _ _ _ _ C1 H1) as (b & E2 & V2).
  set (s2 := s1 <| k_log ::= fun l => l <| lh_n := hb_n (view start) |> |>).
  destruct (read_blocks_ok (view start) (Z.to_nat (hb_n (view start))) s2) as (bl & E3 & Hbl & Hbi);
    [unfold s2; cbn; by rewrite (cframe_log _ _ F1)|lia|].
  set (s3 := s2 <| k_log ::= fun l => l <| lh_block := bl |> |>) in E3.
  assert (cache s3 me pid dev (zset pin start (pin start + 1)) (zset none start true) view) as C3
    by (by do 2 apply cache_log).
  destruct (brelse_cache me pid dev e start s3 _ _ _ i C3) as (s4 & E4 & C4 & F4 & D4 & W4 & H4);
    [by zs|done| |].
  { zs. intros ?. change (k_disk s3) with (k_disk s1). rewrite D1. apply (ca_clean _ _ _ _ _ _ _ C). lia. }
  exists s4. split_and!.
  - unfold read_head. rewrite bind_gets. cbn [w_k]. rewrite Ld, Ls, u32_small by lia.
    eapply run_bind; [exact E1|]. eapply run_bind; [exact E2|]. rewrite V2.
    eapply run_bind; [reflexivity|]. eapply run_bind; [exact E3|exact E4].
  - eapply cache_ext; [exact C4| | |done]; unfold none; zcase.
  - eapply log_at_frame; [exact F4|]. pose proof (cframe_log _ _ F1) as FL.
    split; cbn; rewrite ?FL, ?length_listed; auto; [lia|].
    intros j x Hx. pose proof (lookup_lt_Some _ _ _ Hx) as Hj. rewrite length_listed in Hj.
    rewrite (lookup_listed _ _ _ Hx). by apply Hbi.
  - by rewrite D4.
  - by rewrite W4.
  - eapply tframe_trans; [by apply tframe_cframe|]. eapply tframe_trans; [|by apply tframe_cframe].
    eapply tframe_trans; apply tframe_log.
  - exists bl. split; [done|]. rewrite (cframe_log _ _ F4). unfold s3, s2. cbn. by rewrite (cframe_log _ _ F1).
Qed.

(** recover_from_log() leaves the disk [recovered] describes. *)
Lemma recover_ok s pin :
  let d := k_disk s in
  cache s me pid dev pin none d -> (forall x, pin x = 0) ->
  log_dev (k_log s) = dev -> log_start (k_log s) = start -> length (lh_block (k_log s)) = 30%nat ->
  0 <= hb_n (d start) -> tx_ok start size (d start) (listed (d start)) ->
  exists s', recover_from_log (mkWorld s e) = Ok tt (mkWorld s' e) /\
    cache s' me pid dev pin none (recovered start d) /\ k_disk s' = recovered start d /\
    k_writes s' = k_writes s ++ logged start d ++ [(start, hb_set_n 0 (d start))] /\
    lh_n (k_log s') = 0 /\ tframe s s' /\ exists bl, length bl = 30%nat /\ k_log s' = (k_log s) <| lh_n := 0 |> <| lh_block := bl |>.
Proof.
  intros d C Hp Ld Ls Hl Hn T. pose proof (tx_start _ _ _ _ T) as Hst.
  pose proof (tx_fit _ _ _ _ T) as F. rewrite length_listed in F. change LOGSIZE with 30 in F.
  assert (in_use pin []) as Hu by (split; [unfold NBUF; cbn; lia|intros x Hx; by destruct Hx]).
  destruct (read_head_ok s pin d [] C Ld Ls Hl Hst) as (s1 & E1 & C1 & L1 & D1 & W1 & T1 & bl & Hbl & G1);
    [lia|rewrite Hp; lia|done|].
  set (bs := listed (d start)) in *.
  assert (length bs <= 30)%nat as Hb by (unfold bs; rewrite length_listed; lia).
  destruct (install_trans_ok me pid dev start bs e Hst Hb (tx_blocks _ _ _ _ T) (tx_nodup _ _ _ _ T) true s1 pin d [])
    as (s2 & E2 & C2 & F2 & D2 & W2); [done|done|intros x; rewrite Hp; lia|done|unfold NBUF; cbn; lia|].
  set (s3 := s2 <| k_log ::= fun l => l <| lh_n := 0 |> |>).
  pose proof (cache_log _ _ _ _ _ _ _ (fun l => l <| lh_n := 0 |>) C2) as C3. fold s3 in C3.
  destruct (write_head_ok me pid dev start [] e Hst ltac:(cbn; lia) s3 _ _ [] C3) as (s4 & E4 & C4 & F4 & D4 & W4).
  - destruct (log_at_frame _ _ _ _ _ F2 L1) as [L2 L3 L4 L5]. by split.
  - cbn. rewrite Hp. lia.
  - done.
  - assert (apply_writes d (from_log start bs d) start = d start) as Hs.
    { apply apply_writes_out. intros (w & Ew & (j & c & -> & Hc)%elem_of_lookup_imap)%list_elem_of_fmap.
      cbn in Ew. destruct (tx_blk _ _ _ _ T c ltac:(by eapply list_elem_of_lookup_2)). subst c. lia. }
    rewrite Hs in C4, D4, W4. exists s4. unfold recovered. rewrite logged_from_log. fold bs. split_and!.
    + unfold recover_from_log. eapply run_bind; [exact E1|]. eapply run_bind; [exact E2|].
      eapply run_bind; [reflexivity|exact E4].
    + rewrite apply_writes_app. exact C4.
    + rewrite D4. change (k_disk s3) with (k_disk s2). by rewrite D2, D1, apply_writes_app.
    + rewrite W4. change (k_writes s3) with (k_writes s2). by rewrite W2, W1, <- app_assoc.
    + by rewrite (cframe_log _ _ F4).
    + eapply tframe_trans; [exact T1|]. eapply tframe_trans; [by apply tframe_cframe|]. eapply tframe_trans; [apply tframe_log|by apply tframe_cframe].
    + exists bl. split; [done|]. rewrite (cframe_log _ _ F4). unfold s3. cbn. by rewrite (cframe_log _ _ F2), G1.
Qed.

Lemma initlog_ok s pin sb :
  let d := k_disk s in
  cache s me pid dev pin none d -> (forall x, pin x = 0) -> length (lh_block (k_log s)) = 30%nat ->
  sb_logstart sb = start -> 0 <= sb_nlog sb < 2 ^ 31 -> 0 <= dev < 2 ^ 31 ->
  0 <= hb_n (d start) -> tx_ok start size (d start) (listed (d start)) ->
  exists s', initlog dev sb (mkWorld s e) = Ok tt (mkWorld s' e) /\
    cache s' me pid dev pin none (recovered start d) /\ k_disk s' = recovered start d /\
    k_writes s' = k_writes s ++ logged start d ++ [(start, hb_set_n 0 (d start))] /\
    lh_n (k_log s') = 0 /\ tframe s s' /\ exists bl, length bl = 30%nat /\
      k_log s' = (k_log s) <| log_start := start |> <| log_size := sb_nlog sb |> <| log_dev := dev |> <| lh_n := 0 |> <| lh_block := bl |>.
Proof.
  intros d C Hp Hl Hs Hz Hd Hn T. pose proof (tx_start _ _ _ _ T) as Hst.
  set (s1 := s <| k_log ::= fun l => l <| log_start := i32 (sb_logstart sb) |>
      <| log_size := i32 (sb_nlog sb) |> <| log_dev := i32 dev |> |>).
  destruct (recover_ok s1 pin) as (s' & E & H1 & H2 & H3 & H4 & H5 & bl & Hbl & H6); auto.
  - by apply cache_log.
  - cbn. apply i32_small. lia.
  - cbn. rewrite Hs. apply i32_small. lia.
  - exists s'. split_and!; auto.
    exists bl. split; [done|]. rewrite H6. unfold s1. cbn [k_log upd upd_k_log]. by rewrite Hs, !i32_small by lia.
Qed.
End Recovery.

(** ** Crash safety of log.c *)

Lemma listed_put_header bs h :
  (4 + 4 * length bs <= length h)%nat -> (forall b, b ∈ bs -> 0 <= b < 2 ^ 31) ->
  Z.of_nat (length bs) < 2 ^ 31 -> listed (put_header bs h) = bs.
Proof.
  intros Hl Hb Hn. unfold listed. rewrite hb_n_put_header, Nat2Z.id by done.
  apply list_eq. intros i. rewrite list_lookup_fmap. destruct (bs !! i) as [b|] eqn:E.
  - rewrite lookup_seq_lt by (by eapply lookup_lt_Some). cbn. f_equal.
    apply hb_block_put_header; auto. eapply Hb, list_elem_of_lookup_2, E.
  - by rewrite lookup_seq_ge by (by apply lookup_ge_None).
Qed.

Lemma listed_empty h : hb_n h = 0 -> listed h = [].
Proof. intros H. unfold listed. by rewrite H. Qed.

Lemma tx_ok_nil start size h h' bs :
  tx_ok start size h bs -> length h' = length h -> hb_n h' = 0 -> tx_ok start size h' (listed h').
Proof.
  intros [[] ? ? ? ?] Hl Hn. rewrite listed_empty by done. split; auto; cbn; try lia.
  - set_solver.
  - constructor.
Qed.

(** Every crash of a commit leaves a header recovery can read. *)
Lemma crash_tx start size d new bs k :
  tx_ok start size (d start) bs -> hb_n (d start) = 0 ->
  let h := apply_writes d (take k (commit_writes start (d start) new bs)) start in
  0 <= hb_n h /\ tx_ok start size h (listed h).
Proof.
  intros T Hn h. pose proof (tx_len _ _ _ _ T) as HL. pose proof (tx_fit _ _ _ _ T) as F. change LOGSIZE with 30 in F.
  destruct (crash_header start size d new bs T k) as [E|[E|E]]; fold h in E; rewrite E.
  - split; [lia|]. by eapply tx_ok_nil.
  - rewrite hb_n_put_header, listed_put_header by (done || lia || (intros; by apply (tx_blk _ _ _ _ T))).
    split; [lia|]. destruct T as [T1 T2 T3 T4 T5]. split; auto. by rewrite length_put_header.
  - assert (4 <= length (put_header bs (d start)))%nat as HL' by (rewrite length_put_header by done; lia).
    assert (hb_n (put_header [] (put_header bs (d start))) = 0) as E0 by (apply (hb_n_put_header []); [cbn; lia|done]).
    split; [lia|]. eapply tx_ok_nil; [exact T| |done]. rewrite !length_put_header by (cbn; lia || done). done.
Qed.

Lemma logged_keys start d : (logged start d).*1 = listed (d start).
Proof. unfold logged, listed. by rewrite <- list_fmap_compose. Qed.

(** The same for a crash of a recovery. *)
Lemma recovery_tx start size d k :
  0 <= hb_n (d start) -> tx_ok start size (d start) (listed (d start)) ->
  let h := apply_writes d (take k (logged start d ++ [(start, hb_set_n 0 (d start))])) start in
  0 <= hb_n h /\ tx_ok start size h (listed h).
Proof.
  intros Hn T h. pose proof (tx_hdr _ _ _ _ T) as HL. change (Z.to_nat BSIZE) with 1024%nat in HL.
  assert (start ∉ (logged start d).*1) as Hs.
  { rewrite logged_keys. intros H%(tx_blk _ _ _ _ T). pose proof (tx_fit _ _ _ _ T). lia. }
  assert (h = d start \/ h = hb_set_n 0 (d start)) as [->| ->]; [|done|].
  - unfold h. destruct (decide (k <= length (logged start d))%nat).
    + left. rewrite take_app_le by done. apply apply_writes_out. rewrite fmap_take.
      intros (i & Hi & _)%elem_of_take. by apply list_elem_of_lookup_2 in Hi.
    + right. rewrite take_ge by (rewrite length_app; cbn; lia). rewrite apply_writes_app. apply disk_set_eq.
  - assert (hb_n (hb_set_n 0 (d start)) = 0) as E0 by (apply (hb_n_put_header []); [cbn; lia|done]).
    split; [lia|]. eapply tx_ok_nil; [exact T| |done]. unfold hb_set_n. rewrite length_wrn; lia.
Qed.

(** A machine that boots: the cache holds no block of the disk yet. *)
Record booted (me : nat) (pid dev : Z) (sb : superblock) (s : kernel) (d : Z -> block) : Prop := {
  bt_disk : k_disk s = d;
  bt_cache : cache s me pid dev (fun _ => 0) none d;
  bt_log : length (lh_block (k_log s)) = 30%nat;
  bt_nlog : 0 <= sb_nlog sb < 2 ^ 31;
  bt_dev : 0 <= dev < 2 ^ 31;
}.

(** Booting after [k] of the writes of a commit. *)
Lemma crash_recovers start size bs d new k me pid dev sb e r :
  tx_ok start size (d start) bs -> hb_n (d start) = 0 ->
  booted me pid dev sb r (apply_writes d (take k (commit_writes start (d start) new bs))) ->
  sb_logstart sb = start ->
  exists r', initlog dev sb (mkWorld r e) = Ok tt (mkWorld r' e) /\
    forall x, ~ (start <= x < start + size) ->
      k_disk r' x = if (k <=? length bs)%nat then d x else if decide (x ∈ bs) then new x else d x.
Proof.
  intros T Hn [B1 B2 B3 B4 B5] Hs. destruct (crash_tx start size d new bs k T Hn) as [Hn' T'].
  destruct (initlog_ok me pid dev start size e r (fun _ => 0) sb) as (r' & E' & _ & D & _); auto; rewrite ?B1; auto.
  exists r'. split; [done|]. intros x Hx. rewrite D, B1. destruct (Nat.leb_spec k (length bs)).
  - by eapply crash_before.
  - rewrite (crash_after start size) by done. case_decide; [by apply updated_in|by apply updated_out].
Qed.

(** C2: commit() is atomic with respect to crashes.  From a state in which the
    blocks [bs] of a transaction are pinned in the cache and the log on disk is
    empty, commit() runs to completion and issues some writes [ws]; if the
    machine stops after any number [k] of them and boots again, initlog()
    runs to completion and leaves every block outside the log as it was before
    the commit when [k <= length bs], and with the contents of the whole
    transaction otherwise. *)
Theorem commit_crash_atomic me pid dev start size bs e s pin view :
  ready me pid dev start size bs s pin view -> hb_n (k_disk s start) = 0 ->
  exists s' ws, commit (mkWorld s e) = Ok tt (mkWorld s' e) /\ k_writes s' = k_writes s ++ ws /\
    forall k me' pid' sb e' r,
      booted me' pid' dev sb r (apply_writes (k_disk s) (take k ws)) -> sb_logstart sb = start ->
      exists r', initlog dev sb (mkWorld r e') = Ok tt (mkWorld r' e') /\
        forall x, ~ (start <= x < start + size) ->
          k_disk r' x = if (k <=? length bs)%nat then k_disk s x
                        else if decide (x ∈ bs) then view x else k_disk s x.
Proof.
  intros R Hn. destruct (commit_ok me pid dev start size bs e s pin view R) as (s' & E & _ & _ & W & _).
  assert (view start = k_disk s start) as Hv by (apply (ca_clean _ _ _ _ _ _ _ (rd_cache _ _ _ _ _ _ _ _ _ R)), R).
  pose proof (rd_tx _ _ _ _ _ _ _ _ _ R) as T. rewrite Hv in *.
  eexists s', _. split_and!; [exact E|exact W|]. intros. by eapply crash_recovers.
Qed.

(** C3: Recovery is idempotent.  If initlog() itself is interrupted after any
    number [k] of its writes and the machine boots again, the second
    initlog() leaves every block outside the log as an uninterrupted one
    would have. *)
Theorem recovery_idempotent me pid dev start size e sb s :
  booted me pid dev sb s (k_disk s) -> sb_logstart sb = start ->
  0 <= hb_n (k_disk s start) -> tx_ok start size (k_disk s start) (listed (k_disk s start)) ->
  exists s' ws, initlog dev sb (mkWorld s e) = Ok tt (mkWorld s' e) /\ k_writes s' = k_writes s ++ ws /\
    forall k me' pid' e' r,
      booted me' pid' dev sb r (apply_writes (k_disk s) (take k ws)) ->
      exists r', initlog dev sb (mkWorld r e') = Ok tt (mkWorld r' e') /\
        forall x, ~ (start <= x < start + size) -> k_disk r' x = k_disk s' x.
Proof.
  intros B Hs Hn T. pose proof B as [_ B2 B3 B4 B5].
  destruct (initlog_ok me pid dev start size e s (fun _ => 0) sb) as (s' & E & _ & D & W & _); auto.
  exists s', (logged start (k_disk s) ++ [(start, hb_set_n 0 (k_disk s start))]). split_and!; [exact E|exact W|].
  intros k me' pid' e' r [R1 R2 R3 _ _].
  destruct (recovery_tx start size (k_disk s) k Hn T) as [Hn' T'].
  destruct (initlog_ok me' pid' dev start size e' r (fun _ => 0) sb) as (r' & E' & _ & D' & _); auto; rewrite ?R1; auto.
  exists r'. split; [done|]. intros x Hx. rewrite D', R1, D.
  pose proof (tx_fit _ _ _ _ T) as F. rewrite length_listed in F.
  apply (recovered_again start size); auto.
  - intros w Hw. apply (tx_blk _ _ _ _ T). rewrite <- logged_keys. by apply list_elem_of_fmap_2.
  - rewrite logged_keys. apply T.
  - lia.
  - rewrite (tx_hdr _ _ _ _ T). change (Z.to_nat BSIZE) with 1024%nat. lia.
Qed.
