(* ===== verification/Transaction.v ===== *)
(** A whole transaction: begin_op(), updates of blocks through the cache and
    log_write(), end_op().

    The invariant [tx_st] describes the kernel inside the transaction: the
    blocks logged so far are pinned in the cache, the disk has the old
    contents.  The theorem at the end composes it with the crash safety of
    commit(). *)

From S2P Require Import Prelude Layout Kernel Sched Bio Log Ring Cache Crash LogProof.

(** ** log_write() *)

(** The blocks of the transaction after log_write() of [blk]. *)
Definition absorb (bs : list Z) (blk : Z) : list Z := if decide (blk ∈ bs) then bs else bs ++ [blk].

Lemma log_absorb_ok blocks blk bs : forall n i,
  (forall j b, bs !! j = Some b -> blocks !! (i + j)%nat = Some b) -> length bs = n ->
  (forall b, b ∈ bs -> 0 <= b < 2 ^ 32) ->
  (blk ∈ bs -> bs !! (log_absorb n i blocks blk - i)%nat = Some blk /\ (i <= log_absorb n i blocks blk)%nat) /\
  (blk ∉ bs -> log_absorb n i blocks blk = (i + n)%nat).
Proof.
  induction bs as [|c bs IH]; intros n i Hb Hn Hr; simpl in Hn; subst n; cbn [log_absorb].
  { split; [set_solver|lia]. }
  assert (nth i blocks 0 = c) as ->.
  { apply nth_lookup_Some. specialize (Hb O c eq_refl). by rewrite Nat.add_0_r in Hb. }
  rewrite u32_small by (apply Hr; set_solver).
  destruct (IH (length bs) (S i)) as [IH1 IH2]; auto.
  { intros j b Hj. specialize (Hb (S j) b Hj). by replace (S i + j)%nat with (i + S j)%nat by lia. }
  { intros. apply Hr. set_solver. }
  destruct (Z.eqb_spec c blk) as [->|Hc].
  - split; [|set_solver]. intros _. rewrite Nat.sub_diag. done.
  - split.
    + intros Hin. destruct IH1 as [H1 H2]; [set_solver|].
      split; [|lia]. replace (_ - i)%nat with (S (log_absorb (length bs) (S i) blocks blk - S i)) by lia. done.
    + intros Hin. rewrite IH2 by set_solver. lia.
Qed.

Section Tx.
Context (me : nat) (pid dev start size : Z) (e : list (kernel -> kernel)).

(** log_write(), run: which entry it writes, and whether the block is new. *)
Lemma log_write_run s i b n :
  proc_ctx s me pid -> k_bufs s !! i = Some b -> 0 <= b_blockno b < 2 ^ 31 ->
  lh_n (k_log s) = Z.of_nat n -> Z.of_nat n < LOGSIZE -> Z.of_nat n < log_size (k_log s) - 1 ->
  1 <= log_outstanding (k_log s) -> length (lh_block (k_log s)) = 30%nat ->
  let a := log_absorb n 0 (lh_block (k_log s)) (b_blockno b) in (a <= n)%nat ->
  log_write i (mkWorld s e) = Ok tt (mkWorld
    (if (a =? n)%nat
     then s <| k_bufs := <[i := b <| b_refcnt ::= fun c => u32 (c + 1) |>]> (k_bufs s) |>
            <| k_log ::= fun l => l <| lh_block ::= <[a := b_blockno b]> |> <| lh_n := Z.of_nat (S n) |> |>
     else s <| k_log ::= fun l => l <| lh_block ::= <[a := b_blockno b]> |> |>) e).
Proof.
  intros Hc Hb Hr Hn Hn1 Hn2 Ho Hl a Ha. pose proof (pc_held _ _ _ Hc) as Hh. change LOGSIZE with 30 in *.
  unfold log_write. kstep. kstep. cbn [k_log upd upd_k_held kmod w_k w_env].  rewrite Hn.
  destruct (Z.leb_spec LOGSIZE (Z.of_nat n)) as [H1|_]; [change LOGSIZE with 30 in H1; lia|].
  destruct (Z.leb_spec (log_size (k_log s) - 1) (Z.of_nat n)); [lia|]. cbn [orb].
  destruct (Z.ltb_spec (log_outstanding (k_log s)) 1); [lia|].
  eapply run_bind; [by apply get_buf_ok|]. rewrite Nat2Z.id. fold a.
  eapply run_bind; [apply lh_set_ok; cbn; lia|]. rewrite i32_small by lia.
  replace (Z.of_nat a =? Z.of_nat n) with (a =? n)%nat
    by (destruct (Nat.eqb_spec a n), (Z.eqb_spec (Z.of_nat a) (Z.of_nat n)); lia || done).
  destruct (a =? n)%nat.
  - kstep. unfold bpin. apply run_assoc. kstep. apply run_assoc. eapply run_bind; [by apply mod_buf_ok|].
    eapply run_bind; [apply release_ok; held_side|]. unfold mod_log. kstep.
    rewrite release_ok by held_side. f_equal. clear - Hh Hn Hn1. destruct s, k_log. cbn in *. subst. kstate.
    unfold upd_lh_n. f_equal. cbn. rewrite i32_small; lia.
  - kstep. rewrite release_ok by held_side. f_equal. clear - Hh. by kstate.
Qed.

(** ** Inside a transaction *)

Definition pins (bs : list Z) (x : Z) : Z := if decide (x ∈ bs) then 1 else 0.

(** The blocks a process has locked, and their buffers. *)
Definition hpin (H : list (Z * nat)) (bs : list Z) (x : Z) : Z := pins bs x + (if decide (x ∈ H.*1) then 1 else 0).
Definition hlck (H : list (Z * nat)) (x : Z) : bool := bool_decide (x ∈ H.*1).

(** Inside a transaction that has changed the blocks [bs] of the disk [d] to
    [view], with the buffers [H] locked. *)
Record tx_in (H : list (Z * nat)) (s : kernel) (d : Z -> block) (bs : list Z) (view : Z -> block) : Prop := {
  ts_cache : cache s me pid dev (hpin H bs) (hlck H) view;
  ts_held blk i : (blk, i) ∈ H -> holds (k_bufs s) dev i blk;
  ts_nodup : NoDup H.*1;
  ts_log : log_at s dev start bs;
  ts_tx : tx_ok start size (d start) bs;
  ts_disk : k_disk s = d;
  ts_size : log_size (k_log s) = size;
  ts_out : log_outstanding (k_log s) = 1;
  ts_com : log_committing (k_log s) = false;
  ts_len : length (lh_block (k_log s)) = 30%nat;
}.
Abbreviation tx_st := (tx_in []).

Lemma tx_st_cache s d bs view : tx_st s d bs view -> cache s me pid dev (pins bs) none view.
Proof.
  intros S. eapply cache_ext; [apply S| |done|done]. intros x. unfold hpin. cbn. rewrite decide_False by set_solver. lia.
Qed.

Lemma hpin_cons blk i H bs x : blk ∉ H.*1 ->
  hpin ((blk, i) :: H) bs x = zset (hpin H bs) blk (hpin H bs blk + 1) x.
Proof.
  intros Hn. unfold hpin, zset. cbn. destruct (Z.eqb_spec x blk) as [->|].
  - rewrite decide_True by set_solver. rewrite decide_False by done. lia.
  - destruct (decide (x ∈ H.*1)); [rewrite decide_True by set_solver|rewrite decide_False by set_solver]; done.
Qed.

Lemma hlck_cons blk i H x : hlck ((blk, i) :: H) x = zset (hlck H) blk true x.
Proof.
  unfold hlck, zset. cbn. destruct (Z.eqb_spec x blk) as [->|].
  - apply bool_decide_eq_true. set_solver.
  - apply bool_decide_ext. set_solver.
Qed.

Lemma in_use_pins bs : (length bs < 30)%nat -> in_use (pins bs) bs.
Proof. intros H. split; [done|]. intros x. unfold pins. by case_decide. Qed.

Lemma pins_range bs x : 0 <= pins bs x <= 1.
Proof. unfold pins. case_decide; lia. Qed.

(** The effect of log_write() on a locked buffer. *)
Lemma log_write_ok s d bs pin lck view i blk :
  cache s me pid dev pin lck view -> log_at s dev start bs -> tx_ok start size (d start) bs ->
  log_size (k_log s) = size -> log_outstanding (k_log s) = 1 -> log_committing (k_log s) = false ->
  length (lh_block (k_log s)) = 30%nat ->
  holds (k_bufs s) dev i blk -> lck blk = true -> pin blk < 2 ^ 30 ->
  0 <= blk < 2 ^ 31 -> Z.of_nat (length bs) < size - 1 ->
  exists s', log_write i (mkWorld s e) = Ok tt (mkWorld s' e) /\
    cache s' me pid dev (if decide (blk ∈ bs) then pin else zset pin blk (pin blk + 1)) lck view /\
    log_at s' dev start (absorb bs blk) /\ k_disk s' = k_disk s /\ k_writes s' = k_writes s /\
    log_size (k_log s') = size /\ log_outstanding (k_log s') = 1 /\ log_committing (k_log s') = false /\
    length (lh_block (k_log s')) = 30%nat /\ tframe s s' /\
    (forall j x, holds (k_bufs s') dev j x <-> holds (k_bufs s) dev j x).
Proof.
  intros C L T Hsz Ho Hcm Hl Hh Hlk Hp Hr Hlen. pose proof (tx_fit _ _ _ _ T) as F. change LOGSIZE with 30 in F.
  destruct (cache_at _ _ _ _ _ _ _ _ _ C Hh) as (b & Hb & B1 & B2 & B3 & B4 & B5 & B6).
  pose proof (log_absorb_ok (lh_block (k_log s)) blk bs (length bs) 0 (la_blk _ _ _ _ L) eq_refl) as [A1 A2].
  { intros c Hc. apply (tx_blk _ _ _ _ T) in Hc. lia. }
  pose proof (log_write_run s i b (length bs) (ca_ctx _ _ _ _ _ _ _ C) Hb) as Run. cbn zeta in Run.
  rewrite B2 in Run. unfold absorb in *. destruct (decide (blk ∈ bs)) as [Hin|Hin].
  - destruct (A1 Hin) as [A _]. rewrite Nat.sub_0_r in A. pose proof (lookup_lt_Some _ _ _ A) as Alt.
    eexists. split; [apply Run; rewrite ?Hsz, ?Ho; auto; [apply L|change LOGSIZE with 30|..]; lia|].
    destruct (Nat.eqb_spec (log_absorb (length bs) 0 (lh_block (k_log s)) blk) (length bs)); [lia|].
    assert (<[log_absorb (length bs) 0 (lh_block (k_log s)) blk := blk]> (lh_block (k_log s)) = lh_block (k_log s)) as E
      by (apply list_insert_id, (la_blk _ _ _ _ L), A).
    split_and!; auto using tframe_log, tframe_bufs_log; [by apply cache_log| |cbn; by rewrite length_insert].
    destruct L as [L1 L2 L3 L4]. split; cbn; rewrite ?E; auto.
  - rewrite (A2 Hin) in Run. cbn [plus] in Run. rewrite Nat.eqb_refl in Run.
    destruct (bref_cache me pid dev e 1 blk s pin lck view i C Hh) as (s1 & E1 & C1 & F1 & D1 & W1 & H1);
      [destruct (ca_pin _ _ _ _ _ _ _ C blk); lia..|].
    rewrite (bref_ok me pid e _ i b s (ca_ctx _ _ _ _ _ _ _ C) Hb) in E1. injection E1 as <-.
    eexists. split; [apply Run; rewrite ?Hsz, ?Ho; auto; [apply L|change LOGSIZE with 30|..]; lia|].
    split_and!; auto using tframe_log, tframe_bufs_log; [by apply cache_log| |cbn; by rewrite length_insert].
    destruct L as [L1 L2 L3 L4]. split; cbn; auto; [rewrite length_app; cbn; lia|].
    intros j c [Hj|[Hj Hc]]%lookup_app_Some.
    + rewrite list_lookup_insert_ne; [auto|]. apply lookup_lt_Some in Hj. lia.
    + apply list_lookup_singleton_Some in Hc as [Hj' <-]. replace j with (length bs) by lia.
      apply list_lookup_insert_eq. lia.
Qed.

(** The way the file system updates a block:
    b = bread(dev, blk); change b->data; log_write(b); brelse(b). *)
Definition update_block (blk : Z) (f : block -> block) : K unit :=
  let* i := bread dev blk in
  mod_data i f ;;
  log_write i ;;
  brelse i.

Lemma pins_absorb bs blk x :
  pins (absorb bs blk) x = (if decide (blk ∈ bs) then pins bs else zset (pins bs) blk (pins bs blk + 1)) x.
Proof.
  unfold absorb, pins. destruct (decide (blk ∈ bs)) as [H|H]; [done|].
  unfold zset. destruct (Z.eqb_spec x blk) as [->|].
  - rewrite decide_True by set_solver. done.
  - destruct (decide (x ∈ bs)); [rewrite decide_True by set_solver|rewrite decide_False by set_solver]; done.
Qed.

Lemma tx_absorb h bs blk :
  tx_ok start size h bs -> 0 <= blk < 2 ^ 31 -> ~ (start <= blk < start + size) ->
  Z.of_nat (length bs) < size - 1 -> tx_ok start size h (absorb bs blk).
Proof.
  intros [T1 T2 T3 T4 T5] Hr Ho Hl. unfold absorb. destruct (decide (blk ∈ bs)) as [|Hin]; [done|]. split; auto.
  - rewrite length_app. cbn. lia.
  - intros b [Hb|Hb]%elem_of_app; [auto|]. apply list_elem_of_singleton in Hb as ->. done.
  - apply NoDup_app. split_and!; [done| |apply NoDup_singleton]. intros x Hx ->%list_elem_of_singleton. done.
Qed.

Lemma hpin_absorb H bs blk x :
  hpin H (absorb bs blk) x = (if decide (blk ∈ bs) then hpin H bs else zset (hpin H bs) blk (hpin H bs blk + 1)) x.
Proof.
  unfold hpin. rewrite pins_absorb. destruct (decide (blk ∈ bs)); [done|]. unfold zset.
  destruct (Z.eqb_spec x blk) as [->|]; lia.
Qed.

Lemma hpin_range H bs x : pins bs x <= hpin H bs x <= 2.
Proof. unfold hpin. pose proof (pins_range bs x). destruct (decide _); lia. Qed.

Lemma hpin_in H bs x : x ∈ bs ++ H.*1 <-> hpin H bs x <> 0.
Proof. unfold hpin, pins. repeat case_decide; set_solver by lia. Qed.

(** A block that is not locked and not logged is as on the disk. *)
Lemma tx_clean H s d bs view blk : tx_in H s d bs view -> blk ∉ H.*1 -> blk ∈ bs \/ view blk = d blk.
Proof.
  intros S Hn. destruct (decide (blk ∈ bs)); [by left|right]. rewrite <- (ts_disk _ _ _ _ _ S).
  apply (ca_clean _ _ _ _ _ _ _ (ts_cache _ _ _ _ _ S)). unfold hpin, pins. by rewrite !decide_False.
Qed.

Lemma tx_bread H s d bs view blk :
  tx_in H s d bs view -> blk ∉ H.*1 -> (length bs + length H < 30)%nat ->
  exists i s', bread dev blk (mkWorld s e) = Ok i (mkWorld s' e) /\ tx_in ((blk, i) :: H) s' d bs view /\
    tframe s s' /\ k_writes s' = k_writes s.
Proof.
  intros [C Hh Hnd L T D Hsz Ho Hcm Hl] Hn Hb. pose proof (hpin_range H bs blk) as P.
  destruct (bread_ok me pid dev e blk s _ _ _ C) as (i & s1 & E1 & C1 & F1 & D1 & W1 & H1 & K1).
  { by apply bool_decide_eq_false. }
  { lia. }
  { right. exists (bs ++ H.*1). split; [rewrite length_app, length_fmap; exact Hb|]. intros x. apply hpin_in. }
  pose proof (cframe_log _ _ F1) as EL. exists i, s1. split_and!; auto using tframe_cframe.
  split; rewrite ?EL; auto; [| | |by eapply log_at_frame|congruence].
  - eapply cache_ext; [exact C1| | |done]; intros x; [by rewrite hpin_cons|by rewrite hlck_cons].
  - intros b j [[= -> ->]|Hin]%elem_of_cons; [done|]. apply K1; [|by apply Hh]. apply hpin_in, elem_of_app. right.
    apply list_elem_of_fmap. by exists (b, j).
  - by constructor.
Qed.

Lemma tx_data H s d bs view blk i :
  tx_in ((blk, i) :: H) s d bs view ->
  exists b, get_buf i (mkWorld s e) = Ok b (mkWorld s e) /\ b_data b = view blk.
Proof. intros K. eapply get_data_ok; [apply K|]. apply K. set_solver. Qed.

Lemma tx_brelse H s d bs view blk i :
  tx_in ((blk, i) :: H) s d bs view -> (blk ∈ bs \/ view blk = d blk) ->
  exists s', brelse i (mkWorld s e) = Ok tt (mkWorld s' e) /\ tx_in H s' d bs view /\
    tframe s s' /\ k_writes s' = k_writes s.
Proof.
  intros [C Hh Hnd L T D Hsz Ho Hcm Hl] Hv. inversion_clear Hnd as [|? ? Hn Hnd'].
  destruct (brelse_cache me pid dev e blk s _ _ _ i C) as (s1 & E1 & C1 & F1 & D1 & W1 & H1).
  { rewrite hlck_cons. apply zset_eq. }
  { apply Hh. set_solver. }
  { rewrite hpin_cons, zset_eq by done. unfold hpin, pins. rewrite (decide_False (P := blk ∈ H.*1)) by done.
    destruct Hv as [Hv|Hv]; [rewrite decide_True by done; lia|]. intros _. congruence. }
  pose proof (cframe_log _ _ F1) as EL. exists s1. split_and!; auto using tframe_cframe.
  split; rewrite ?EL; auto; [| |by eapply log_at_frame|congruence].
  - eapply cache_ext; [exact C1| | |done]; intros x.
    + rewrite (hpin_cons blk i H bs blk), zset_eq by done. unfold zset at 1.
      destruct (Z.eqb_spec x blk) as [->|]; [lia|]. rewrite hpin_cons, zset_ne by done. done.
    + unfold zset at 1. destruct (Z.eqb_spec x blk) as [->|]; [by apply bool_decide_eq_false|].
      by rewrite hlck_cons, zset_ne.
  - intros b j Hin. apply H1, Hh. set_solver.
Qed.

Lemma tx_write H s d bs view blk i f :
  tx_in ((blk, i) :: H) s d bs view -> 0 <= blk < 2 ^ 31 -> ~ (start <= blk < start + size) ->
  Z.of_nat (length bs) < size - 1 ->
  exists s', (mod_data i f ;; log_write i) (mkWorld s e) = Ok tt (mkWorld s' e) /\
    tx_in ((blk, i) :: H) s' d (absorb bs blk) (zset view blk (f (view blk))) /\
    tframe s s' /\ k_writes s' = k_writes s.
Proof.
  intros [C Hh Hnd L T D Hsz Ho Hcm Hl] Hr Hout Hlen. pose proof (hpin_range ((blk, i) :: H) bs blk) as P.
  assert (holds (k_bufs s) dev i blk) as Hhb by (apply Hh; set_solver).
  assert (hlck ((blk, i) :: H) blk = true) as Hlk by (rewrite hlck_cons; apply zset_eq).
  destruct (mod_data_ok me pid dev e blk s _ _ _ i f C) as (s2 & E2 & C2 & F2 & D2 & W2 & H2); [done..|].
  pose proof (cframe_log _ _ F2) as EL.
  destruct (log_write_ok s2 d bs _ _ _ i blk C2) as (s3 & E3 & C3 & L3 & D3 & W3 & Z3 & O3 & M3 & N3 & F3 & H3);
    rewrite ?EL; auto; [by eapply log_at_frame|by apply H2|lia|].
  exists s3. split_and!; [eapply run_bind; [exact E2|exact E3]| |eauto using tframe_trans, tframe_cframe|congruence].
  split; auto; [| |by apply tx_absorb|congruence].
  - eapply cache_ext; [exact C3| |done|done]. intros x. by rewrite hpin_absorb.
  - intros b j Hin. apply H3, H2, Hh, Hin.
Qed.

Lemma elem_of_absorb bs blk : blk ∈ absorb bs blk.
Proof. unfold absorb. case_decide; set_solver. Qed.

Lemma tx_update H s d bs view blk i f :
  tx_in ((blk, i) :: H) s d bs view -> 0 <= blk < 2 ^ 31 -> ~ (start <= blk < start + size) ->
  Z.of_nat (length bs) < size - 1 ->
  exists s', (forall (A : Type) (k : unit -> K A),
      (let* _ := mod_data i f in let* _ := log_write i in let* r := brelse i in k r) (mkWorld s e) = k tt (mkWorld s' e)) /\
    tx_in H s' d (absorb bs blk) (zset view blk (f (view blk))) /\
    tframe s s' /\ k_writes s' = k_writes s.
Proof.
  intros K Hr Hout Hlen. destruct (tx_write H s d bs view blk i f K Hr Hout Hlen) as (s1 & E1 & K1 & F1 & W1).
  destruct (tx_brelse H s1 d _ _ blk i K1) as (s2 & E2 & S2 & F2 & W2).
  { left. apply elem_of_absorb. }
  exists s2. split_and!; [|done|by eapply tframe_trans|congruence]. intros A k.
  unfold bind in *. destruct (mod_data i f _) as [[] w| | | |]; try done. rewrite E1. by rewrite E2.
Qed.

Lemma update_block_ok H s d bs view blk f :
  tx_in H s d bs view -> blk ∉ H.*1 -> (length bs + length H < 30)%nat -> 0 <= blk < 2 ^ 31 -> ~ (start <= blk < start + size) ->
  Z.of_nat (length bs) < size - 1 ->
  exists s', update_block blk f (mkWorld s e) = Ok tt (mkWorld s' e) /\
    tx_in H s' d (absorb bs blk) (zset view blk (f (view blk))) /\ tframe s s' /\ k_writes s' = k_writes s.
Proof.
  intros S Hn Hb Hr Hout Hlen. destruct (tx_bread H s d bs view blk S Hn Hb) as (i & s1 & E1 & K1 & F1 & W1).
  destruct (tx_update H s1 d bs view blk i f K1 Hr Hout Hlen) as (s2 & E2 & S2 & F2 & W2).
  exists s2. split_and!; [|done|eauto using tframe_trans|congruence].
  unfold update_block. eapply run_bind; [exact E1|]. specialize (E2 unit ret). unfold bind in *.
  destruct (mod_data i f _) as [[] w| | | |]; try done. destruct (log_write i w) as [? w2| | | |]; try done.
  destruct (brelse i w2) as [[] w3| | | |]; done.
Qed.

(** A sequence of updates. *)
Fixpoint update_blocks (us : list (Z * (block -> block))) : K unit :=
  match us with
  | [] => ret tt
  | (blk, f) :: us' => update_block blk f ;; update_blocks us'
  end.

Definition updates (us : list (Z * (block -> block))) (d : Z -> block) : Z -> block :=
  foldl (fun d u => zset d u.1 (u.2 (d u.1))) d us.

Lemma length_absorb bs blk : (length bs <= length (absorb bs blk) <= S (length bs))%nat.
Proof. unfold absorb. case_decide; rewrite ?length_app; cbn; lia. Qed.

Lemma update_blocks_ok us : forall s d bs view,
  tx_st s d bs view ->
  (forall u, u ∈ us -> 0 <= u.1 < 2 ^ 31 /\ ~ (start <= u.1 < start + size)) ->
  Z.of_nat (length bs + length us) < size ->
  exists s', update_blocks us (mkWorld s e) = Ok tt (mkWorld s' e) /\
    tx_st s' d (foldl absorb bs us.*1) (updates us view) /\ k_writes s' = k_writes s.
Proof.
  induction us as [|[blk f] us IH]; intros s d bs view S Hu Hl; [by exists s|].
  destruct (Hu (blk, f)) as [U1 U2]; [set_solver|]. cbn [length] in Hl.
  pose proof (tx_fit _ _ _ _ (ts_tx _ _ _ _ _ S)) as F. change LOGSIZE with 30 in F.
  destruct (update_block_ok [] s d bs view blk f S) as (s1 & E1 & S1 & _ & W1); [set_solver|cbn; lia|done|done|lia|].
  pose proof (length_absorb bs blk).
  destruct (IH s1 d (absorb bs blk) _ S1) as (s2 & E2 & S2 & W2); [set_solver|lia|].
  exists s2. split_and!; [|done|congruence]. cbn [update_blocks]. eapply run_bind; [exact E1|exact E2].
Qed.

(** ** begin_op() and end_op() *)

(** Between transactions: nothing pinned, nothing logged. *)
Record idle (s : kernel) (d : Z -> block) : Prop := {
  id_cache : cache s me pid dev (fun _ => 0) none d;
  id_disk : k_disk s = d;
  id_log : log_at s dev start [];
  id_size : log_size (k_log s) = size;
  id_out : log_outstanding (k_log s) = 0;
  id_com : log_committing (k_log s) = false;
  id_len : length (lh_block (k_log s)) = 30%nat;
  id_tx : tx_ok start size (d start) [];
  id_hdr : hb_n (d start) = 0;
}.

Lemma idle_begin s d : idle s d -> tx_st (s <| k_log ::= fun l => l <| log_outstanding := 1 |> |>) d [] d.
Proof.
  intros [C D L Hsz Ho Hcm Hl T Hn].
  split; auto; [|set_solver|constructor|destruct L as [L1 L2 L3 L4]; by split]. by apply cache_log.
Qed.

Lemma begin_op_ok s d :
  idle s d ->
  exists s', begin_op (mkWorld s e) = Ok tt (mkWorld s' e) /\ tx_st s' d [] d /\ k_writes s' = k_writes s /\ tframe s s'.
Proof.
  intros I. pose proof (idle_begin s d I) as S1. destruct I as [C D L Hsz Ho Hcm Hl T Hn].
  pose proof (pc_held _ _ _ (ca_ctx _ _ _ _ _ _ _ C)) as Hh. exists (s <| k_log ::= fun l => l <| log_outstanding := 1 |> |>). split_and!; [|exact S1|done|apply tframe_log].
  unfold begin_op. kstep. unfold waiting. cbn [w_env kmod begin_op_loop]. kstep.
    cbn [k_log upd upd_k_held kmod w_k]. rewrite Hcm, Ho, (la_n _ _ _ _ L).
    change (LOGSIZE <? _) with false. cbn iota.
    unfold mod_log. kstep. rewrite release_ok by held_side. f_equal. clear - Hh Ho.
    destruct s, k_log. cbn in *. subst. by kstate.
Qed.

Lemma cache_procs s pin lck view ch :
  cache s me pid dev pin lck view -> cache (s <| k_procs ::= woken ch me |>) me pid dev pin lck view.
Proof.
  intros [C1 C2 C3 C4 C5 C6 C7]. split; auto. pose proof (proc_ctx_woken s me pid ch (k_bufs s) C1) as [].
  by split.
Qed.

Lemma end_op_ok s d bs view :
  tx_st s d bs view -> bs <> [] ->
  let ws := commit_writes start (d start) view bs in
  exists s1 s', end_op (mkWorld s e) = Ok tt (mkWorld s' e) /\
    ready me pid dev start size bs s1 (pins bs) view /\
    cache s' me pid dev (fun _ => 0) none (apply_writes view ws) /\
    k_disk s' = apply_writes d ws /\ k_writes s' = k_writes s ++ ws /\
    k_log s' = (k_log s) <| lh_n := 0 |> <| log_outstanding := 0 |>.
Proof.
  intros S Hne ws. pose proof (tx_st_cache _ _ _ _ S) as C. destruct S as [_ _ _ L T D Hsz Ho Hcm Hl].
  pose proof (pc_held _ _ _ (ca_ctx _ _ _ _ _ _ _ C)) as Hh.
  pose proof (tx_fit _ _ _ _ T) as F. change LOGSIZE with 30 in F.
  assert (pins bs start = 0) as Hp0.
  { unfold pins. rewrite decide_False; [done|]. intros H%(tx_blk _ _ _ _ T). lia. }
  assert (view start = d start) as Hv by (rewrite <- D; by apply (ca_clean _ _ _ _ _ _ _ C)).
  set (s1 := s <| k_log ::= fun l => l <| log_outstanding := 0 |> <| log_committing := true |> |>).
  assert (ready me pid dev start size bs s1 (pins bs) view) as R.
  { split; auto; rewrite ?Hv; auto.
    - by apply cache_log.
    - destruct L as [L1 L2 L3 L4]. by split.
    - intros b Hb. unfold pins. by rewrite decide_True.
    - intros x. pose proof (pins_range bs x). lia.
    - exists bs. apply in_use_pins. lia. }
  destruct (commit_ok me pid dev start size bs e s1 _ view R) as (s2 & E2 & C2 & D2 & W2 & L2).
  rewrite Hv in *. fold ws in C2, D2, W2. pose proof (ca_ctx _ _ _ _ _ _ _ C2) as [P1 P2 P3 P4].
  exists s1, (s2 <| k_log ::= fun l => l <| log_committing := false |> |> <| k_procs ::= woken ChLog me |>).
  split_and!; auto.
  - unfold end_op. kstep. unfold mod_log. kstep. kstep. cbn [k_log upd upd_k_held upd_k_log kmod w_k].
    cbn [log_committing log_outstanding upd upd_log_outstanding]. rewrite Hcm, Ho. cbn [Z.sub i32 Z.eqb].
    change (i32 (1 - 1) =? 0) with true. cbn iota. kstep. kstep.
    eapply run_bind. { eapply eq_trans; [|exact E2]. f_equal. subst s1. clear - Hh Ho. destruct s, k_log. cbn in *. subst. by kstate. }
    kstep. kstep. eapply run_bind; [apply (wakeup_ok _ _ me); cbn; rewrite ?P2; auto; set_solver|].
    rewrite release_ok by held_side. f_equal. clear - P2. by kstate.
  - apply cache_procs, cache_log. eapply cache_ext; [exact C2| |done|done].
    intros x. unfold unpinned, pins. rewrite firstn_all. by case_decide.
  - cbn. by rewrite D2, <- D.
  - cbn. rewrite L2. clear - Hcm. destruct s, k_log. cbn in *. by subst.
Qed.
(** A transaction that wrote nothing. *)
Lemma end_op_empty s d view : tx_st s d [] view -> hb_n (d start) = 0 ->
  exists s', end_op (mkWorld s e) = Ok tt (mkWorld s' e) /\ idle s' d /\ k_inodes s' = k_inodes s /\ k_sb s' = k_sb s.
Proof.
  intros S Hn. pose proof (tx_st_cache _ _ _ _ S) as C. destruct S as [_ _ _ L T D Hsz Ho Hcm Hl].
  pose proof (ca_ctx _ _ _ _ _ _ _ C) as [P1 P2 P3 P4]. pose proof (la_n _ _ _ _ L) as Hn0. cbn in Hn0.
  exists (s <| k_log ::= fun l => l <| log_outstanding := 0 |> <| log_committing := false |> |> <| k_procs ::= woken ChLog me |>). split_and!; [|split|done|done].
  - unfold end_op. kstep. unfold mod_log. kstep. kstep. cbn [k_log upd upd_k_held upd_k_log kmod w_k].
    cbn [log_committing log_outstanding upd upd_log_outstanding]. rewrite Hcm, Ho. change (i32 (1 - 1) =? 0) with true. cbn iota. kstep. kstep.
    eapply run_bind. { unfold commit, bind, gets. cbn. rewrite Hn0. reflexivity. }
    kstep. kstep. eapply run_bind; [apply (wakeup_ok _ _ me); cbn; rewrite ?P2; auto; set_solver|].
    rewrite release_ok by held_side. f_equal. clear - P2 Ho. destruct s, k_log. cbn in *. subst. by kstate.
  - apply cache_procs, cache_log. eapply cache_ext; [exact C|done|done|]. intros x. rewrite <- D. symmetry. by apply (ca_clean _ _ _ _ _ _ _ C).
  - done.
  - destruct L as [L1 L2 L3 L4]. by split.
  - done.
  - done.
  - done.
  - done.
  - done.
  - done.
Qed.
End Tx.

Abbreviation tx_st me pid dev start size := (tx_in me pid dev start size []).

(** ** Atomicity of a transaction *)

Lemma absorb_some us : us <> [] -> foldl absorb [] (us : list (Z * (block -> block))).*1 <> [].
Proof.
  assert (forall l bs, bs <> [] -> foldl absorb bs l <> []) as H.
  { induction l as [|b l IH]; intros bs Hb; [done|]. cbn. apply IH. unfold absorb. case_decide; [done|].
    by destruct bs. }
  destruct us as [|[b f] us]; [done|]. intros _. cbn. apply H. unfold absorb. by rewrite decide_False by set_solver.
Qed.

(** The disk when all the writes are done. *)
Lemma commit_result start size d new bs x :
  tx_ok start size (d start) bs -> ~ (start <= x < start + size) ->
  apply_writes d (commit_writes start (d start) new bs) x = if decide (x ∈ bs) then new x else d x.
Proof.
  intros T Hx. pose proof (tx_fit _ _ _ _ T) as F. unfold commit_writes.
  rewrite app_assoc, !apply_writes_app. cbn. rewrite disk_set_ne by lia.
  assert (disk_set (apply_writes d (log_writes start new bs)) start (put_header bs (d start)) x = d x) as E.
  { rewrite disk_set_ne by lia. apply apply_writes_out. intros H%log_writes_keys. lia. }
  rewrite (apply_writes_ext _ _ d) by done. case_decide; [by apply updated_in|by apply updated_out].
Qed.

Lemma idle_after me pid dev start size s2 s3 d bs view :
  tx_st me pid dev start size s2 d bs view ->
  cache s3 me pid dev (fun _ => 0) none (apply_writes view (commit_writes start (d start) view bs)) ->
  k_disk s3 = apply_writes d (commit_writes start (d start) view bs) ->
  k_log s3 = (k_log s2) <| lh_n := 0 |> <| log_outstanding := 0 |> ->
  idle me pid dev start size s3 (k_disk s3).
Proof.
  intros [C _ _ L T D Hsz Ho Hcm Hl] C3 D3 L3. pose proof (tx_len _ _ _ _ T) as HL.
  assert (k_disk s3 start = put_header [] (put_header bs (d start))) as Es.
  { rewrite D3. unfold commit_writes. rewrite !app_assoc, apply_writes_app. apply disk_set_eq. }
  assert (4 <= length (put_header bs (d start)))%nat as HL' by (rewrite length_put_header by done; lia).
  split; rewrite ?L3, ?Es; auto.
  - eapply cache_ext; [exact C3|done|done|]. intros x. symmetry. by apply (ca_clean _ _ _ _ _ _ _ C3).
  - destruct L as [L1 L2 _ _]. split; rewrite ?L3; auto. done.
  - pose proof (tx_fit _ _ _ _ T). destruct T as [[] T2 T3 T4 T5]. split; auto; try (cbn; lia).
    + by rewrite !length_put_header by (done || cbn; lia).
    + set_solver.
    + constructor.
Qed.

(** C1: A transaction is atomic and durable.  From an idle file system,
    begin_op(), any updates [us] of blocks through bread/log_write/brelse (fewer
    than the log holds) and end_op() run to completion, leave the disk with all
    the updates outside the log area and the system idle again; and if the
    machine stops after any number [k] of the block writes [ws] this issued and
    boots, initlog() runs to completion and leaves, outside the log, the old
    disk for [k <= c] and the disk with all the updates for larger [k], for a
    commit point [c] before the last write. *)
Theorem transaction_atomic me pid dev start size e s d us :
  idle me pid dev start size s d -> us <> [] ->
  (forall u, u ∈ us -> 0 <= u.1 < 2 ^ 31 /\ ~ (start <= u.1 < start + size)) ->
  Z.of_nat (length us) < size ->
  exists s' ws c, (begin_op ;; update_blocks dev us ;; end_op) (mkWorld s e) = Ok tt (mkWorld s' e) /\
    idle me pid dev start size s' (k_disk s') /\
    (forall x, ~ (start <= x < start + size) -> k_disk s' x = updates us d x) /\
    k_writes s' = k_writes s ++ ws /\ (c < length ws)%nat /\
    forall k me' pid' sb e' r,
      booted me' pid' dev sb r (apply_writes d (take k ws)) -> sb_logstart sb = start ->
      exists r', initlog dev sb (mkWorld r e') = Ok tt (mkWorld r' e') /\
        forall x, ~ (start <= x < start + size) ->
          k_disk r' x = if (k <=? c)%nat then d x else updates us d x.
Proof.
  intros I Hne Hu Hl. destruct (begin_op_ok me pid dev start size e s d I) as (s1 & E1 & S1 & W1 & _).
  destruct (update_blocks_ok me pid dev start size e us s1 d [] d S1 Hu) as (s2 & E2 & S2 & W2); [done|].
  set (bs := foldl absorb [] us.*1) in *. set (view := updates us d) in *.
  assert (bs <> []) as Hbs by (by apply absorb_some).
  destruct (end_op_ok me pid dev start size e s2 d bs view S2 Hbs) as (_ & s3 & E3 & _ & C3 & D3 & W3 & L3).
  set (ws := commit_writes start (d start) view bs) in *.
  pose proof (ts_tx _ _ _ _ _ _ _ _ _ _ S2) as T. pose proof (id_hdr _ _ _ _ _ _ _ I) as Hn.
  assert (forall x, (if decide (x ∈ bs) then view x else d x) = view x) as Hvw.
  { intros x. case_decide as Hx; [done|]. by destruct (tx_clean _ _ _ _ _ _ _ _ _ _ x S2 ltac:(set_solver)). }
  exists s3, ws, (length bs). split_and!.
  - eapply run_bind; [exact E1|]. eapply run_bind; [exact E2|exact E3].
  - eapply idle_after; eauto.
  - intros x Hx. rewrite D3. unfold ws. rewrite (commit_result start size) by done. apply Hvw.
  - congruence.
  - unfold ws, commit_writes. rewrite !length_app, length_log_writes. cbn. lia.
  - intros k me' pid' sb e' r B Hs.
    destruct (crash_recovers start size bs d view k me' pid' dev sb e' r T Hn B Hs) as (r' & E' & H').
    exists r'. split; [done|]. intros x Hx. rewrite H' by done. by rewrite Hvw.
Qed.
