(* ===== verification/CacheInit.v ===== *)
(** binit() and the replacement policy of the buffer cache.

    binit() builds the ring out of whatever the table contained; from then on
    brelse() keeps it ordered by last release and bget() recycles the buffer
    that was released longest ago. *)

From S2P Require Import Prelude Layout Kernel Sched Bio Log Ring Cache Crash LogProof Transaction.

(** ** binit() *)

Definition init_lock (b : buf) : buf :=
  b <| b_lock ::= fun l => l <| sl_locked := false |> <| sl_pid := 0 |> |>.

(** One iteration of the loop of binit(), on the table. *)
Definition link_first (i : nat) (bufs : list buf) : list buf :=
  let h := nxt bufs bhead in
  set_next bhead i (set_prev h i (alter init_lock i (set_prev i bhead (set_next i h bufs)))).

Lemma binit_step i s e :
  length (k_bufs s) = S NBUF -> (i < NBUF)%nat -> (nxt (k_bufs s) bhead < S NBUF)%nat ->
  (let* h := get_buf bhead in
    mod_buf i (fun b => b <| b_next := b_next h |>) ;;
    mod_buf i (fun b => b <| b_prev := bhead |>) ;;
    initsleeplock (SlBuf i) ;;
    let* h := get_buf bhead in
    mod_buf (b_next h) (fun b => b <| b_prev := i |>) ;;
    mod_buf bhead (fun b => b <| b_next := i |>)) (mkWorld s e)
  = Ok tt (mkWorld (s <| k_bufs ::= link_first i |>) e).
Proof.
  intros Hl Hi Hn. destruct (lookup_lt_is_Some_2 (k_bufs s) bhead) as [h Hh]; [rewrite Hl; unfold bhead; lia|].
  assert (nxt (k_bufs s) bhead = b_next h) as E by (unfold nxt; by rewrite Hh). rewrite E in Hn.
  assert (i <> bhead) as Hib by (unfold bhead; lia).
  eapply run_bind; [by apply get_buf_ok|].
  eapply run_bind; [apply mod_buf_alter; lia|].
  eapply run_bind; [apply mod_buf_alter; cbn; rewrite length_alter; lia|].
  unfold initsleeplock, mod_sl. eapply run_bind; [apply mod_buf_alter; cbn; rewrite !length_alter; lia|].
  eapply run_bind; [apply (get_buf_ok bhead h); cbn; by rewrite !list_lookup_alter_ne|].
  eapply run_bind; [apply mod_buf_alter; cbn; rewrite !length_alter; lia|].
  rewrite mod_buf_alter by (cbn; rewrite !length_alter; unfold bhead; lia).
  rewrite <- E. by destruct s.
Qed.

Lemma length_link i bufs : length (link_first i bufs) = length bufs.
Proof. unfold link_first. by rewrite length_set_next, length_set_prev, length_alter, length_set_prev, length_set_next. Qed.

Lemma link_first_chain bufs i l :
  length bufs = S NBUF -> (i < NBUF)%nat -> (nxt bufs bhead < S NBUF)%nat ->
  NoDup (bhead :: l) -> i ∉ bhead :: l -> chain (nxt bufs) (prv bufs) bhead l bhead ->
  chain (nxt (link_first i bufs)) (prv (link_first i bufs)) bhead (i :: l) bhead.
Proof.
  intros Hl Hi Hn Hd Hni Hc. eapply chain_ext; [| |by apply (push_chain bufs i l)]; intros j _;
    unfold link_first, push_buf.
  - rewrite !nxt_set_next by (rewrite ?length_set_prev, ?length_alter, ?length_set_prev, ?length_set_next; unfold bhead; lia).
    unfold fset. destruct (decide (j = bhead)); [done|]. rewrite nxt_set_prev, nxt_alter by done. by rewrite !nxt_set_prev.
  - rewrite !prv_set_next, !prv_set_prev
      by (rewrite ?length_alter, ?length_set_prev, ?length_set_next; lia).
    unfold fset. destruct (decide (j = nxt bufs bhead)); [done|]. rewrite prv_alter by done.
    by rewrite prv_set_prev by (rewrite length_set_next; lia).
Qed.

(** The lock, identity and reference count of every buffer the loop has
    passed. *)
Lemma link_first_lookup bufs i j b :
  link_first i bufs !! j = Some b ->
  exists b0, bufs !! j = Some b0 /\ strip b = strip (if decide (j = i) then init_lock b0 else b0).
Proof.
  unfold link_first, set_next, set_prev. intros H.
  assert (forall (f : buf -> buf) (a : nat) (l : list buf) c, (forall x, strip (f x) = strip x) ->
    alter f a l !! j = Some c -> exists c0, l !! j = Some c0 /\ strip c = strip c0) as A.
  { intros f a l c Hf Hc. destruct (decide (j = a)) as [->|].
    - rewrite list_lookup_alter_eq in Hc. destruct (l !! a) as [c0|]; [|done]. cbn in Hc. simplify_eq. eauto.
    - rewrite list_lookup_alter_ne in Hc by done. eauto. }
  apply A in H as (b1 & H & E1); [|done]. apply A in H as (b2 & H & E2); [|done].
  assert (exists b3, alter (fun x => x <| b_prev := bhead |>) i (alter (fun x => x <| b_next := nxt bufs bhead |>) i bufs) !! j = Some b3
    /\ b2 = if decide (j = i) then init_lock b3 else b3) as (b3 & H3 & ->).
  { destruct (decide (j = i)) as [->|].
    - rewrite list_lookup_alter_eq in H. destruct (_ !! i) as [c|] eqn:Hc; [|done]. cbn in H. simplify_eq. eauto.
    - rewrite list_lookup_alter_ne in H by done. eauto. }
  apply A in H3 as (b4 & H4 & E4); [|done]. apply A in H4 as (b5 & H5 & E5); [|done].
  exists b5. split; [done|]. rewrite E1, E2. case_decide; [|congruence].
  rewrite E5 in E4. clear - E4. destruct b3, b5. unfold strip, init_lock in *. cbn in *. by simplify_eq/=.
Qed.

Definition binit_inv (s : kernel) (k : nat) (bs : list buf) : Prop :=
  length bs = S NBUF /\ chain (nxt bs) (prv bs) bhead (rev (seq 0 k)) bhead /\
  forall j b, (j < NBUF)%nat -> bs !! j = Some b ->
    exists b0, k_bufs s !! j = Some b0 /\ strip b = strip (if decide (j < k)%nat then init_lock b0 else b0).

Lemma binit_inv_step s k bs : (k < NBUF)%nat -> binit_inv s k bs -> binit_inv s (S k) (link_first k bs).
Proof.
  intros Hk (Hl & Hc & Hb). assert (NoDup (bhead :: rev (seq 0 k))) as Hd.
  { apply NoDup_cons. split; [|rewrite <- Permutation_rev; apply NoDup_seq].
    rewrite <- Permutation_rev. intros H%elem_of_seq. unfold bhead in H. lia. }
  assert (forall j, j ∈ rev (seq 0 k) -> (j < k)%nat) as Hr.
  { intros j Hj. rewrite <- Permutation_rev in Hj. apply elem_of_seq in Hj. lia. }
  split_and!; [by rewrite length_link| |].
  - rewrite seq_S, rev_app_distr. cbn [rev app plus]. apply link_first_chain; auto.
    + eapply chain_bound; [exact Hc| |set_solver]. apply Forall_forall. intros j Hj.
      rewrite elem_of_cons, elem_of_app, list_elem_of_singleton in Hj. unfold bhead in Hj.
      destruct Hj as [->|[Hj| ->]]; [lia| |lia]. apply Hr in Hj. lia.
    + intros [->|Hj]%elem_of_cons; [unfold bhead in Hk; lia|]. apply Hr in Hj. lia.
  - intros j b Hj (b1 & H1 & E1)%link_first_lookup. destruct (Hb j b1 Hj H1) as (b0 & H0 & E0).
    exists b0. split; [done|]. rewrite E1. destruct (decide (j = k)) as [->|].
    + rewrite decide_False in E0 by lia. rewrite decide_True by lia. clear - E0. destruct b0, b1.
      unfold strip, init_lock in *. cbn in *. by simplify_eq/=.
    + rewrite E0. destruct (decide (j < k)%nat); [rewrite decide_True by lia|rewrite decide_False by lia]; done.
Qed.

Lemma binit_ok s e :
  length (k_bufs s) = S NBUF ->
  exists bs, binit (mkWorld s e) = Ok tt (mkWorld (s <| k_bufs := bs |>) e) /\
    ring bs (rev (seq 0 NBUF)) /\
    forall j b, (j < NBUF)%nat -> bs !! j = Some b ->
      exists b0, k_bufs s !! j = Some b0 /\ strip b = strip (init_lock b0).
Proof.
  intros Hl. unfold binit.
  set (s1 := s <| k_bufs ::= set_prev bhead bhead |> <| k_bufs ::= set_next bhead bhead |>).
  assert (binit_inv s 0 (k_bufs s1)) as I0.
  { change (k_bufs s1) with (set_next bhead bhead (set_prev bhead bhead (k_bufs s))). split_and!.
    - by rewrite length_set_next, length_set_prev.
    - cbn [chain seq rev]. rewrite nxt_set_next by (rewrite length_set_prev, Hl; unfold bhead; lia). rewrite fset_eq.
      rewrite prv_set_next, prv_set_prev, fset_eq by (rewrite Hl; unfold bhead; lia). done.
    - intros j b Hj Hb. exists b. unfold set_next, set_prev in Hb.
      rewrite !list_lookup_alter_ne in Hb by (unfold bhead; lia). by rewrite decide_False by lia. }
  destruct (for_loop_inv (fun k w => exists bs, w = mkWorld (s <| k_bufs := bs |>) e /\ binit_inv s k bs)
    NBUF 0 (fun i =>
    let* h := get_buf bhead in
    mod_buf i (fun b => b <| b_next := b_next h |>) ;;
    mod_buf i (fun b => b <| b_prev := bhead |>) ;;
    initsleeplock (SlBuf i) ;;
    let* h := get_buf bhead in
    mod_buf (b_next h) (fun b => b <| b_prev := i |>) ;;
    mod_buf bhead (fun b => b <| b_next := i |>)) (mkWorld s1 e)) as (w & E & bs & -> & (B1 & B2 & B3)).
  - exists (k_bufs s1). split; [by destruct s|done].
  - intros k w [_ Hk] (bs & -> & I). pose proof I as (Hlb & Hc & _). eexists. split.
    { apply binit_step; cbn; [done|lia|]. eapply chain_bound; [exact Hc| |set_solver].
      apply Forall_forall. intros j Hj. rewrite elem_of_cons, elem_of_app, list_elem_of_singleton in Hj.
      unfold bhead in Hj. destruct Hj as [->|[Hj| ->]]; [lia| |lia].
      rewrite <- Permutation_rev in Hj. apply elem_of_seq in Hj. lia. }
    exists (link_first k bs). split; [by destruct s|]. apply binit_inv_step; [lia|done].
  - exists bs. split_and!.
    + eapply run_bind; [apply mod_buf_alter; rewrite Hl; unfold bhead; lia|].
      eapply run_bind; [apply mod_buf_alter; cbn; rewrite length_alter, Hl; unfold bhead; lia|]. exact E.
    + split; [done|by rewrite <- Permutation_rev|done].
    + intros j b Hj Hb. destruct (B3 j b Hj Hb) as (b0 & H0 & E0). exists b0. by rewrite decide_True in E0 by lia.
Qed.

(** ** The boot *)

(** A table no buffer of which is in use caches nothing. *)
Lemma cache_empty s me pid dev ord :
  proc_ctx s me pid -> ring (k_bufs s) ord ->
  (forall j b, (j < NBUF)%nat -> k_bufs s !! j = Some b -> b_dev b <> dev /\ b_refcnt b = 0 /\ unlocked (b_lock b)) ->
  cache s me pid dev (fun _ => 0) none (k_disk s).
Proof.
  intros C R H. split; auto.
  - eauto.
  - intros i j blk (Hi & b & Hb & Hd & _). by destruct (H i b Hi Hb).
  - intros i b Hi Hb. destruct (H i b Hi Hb) as (H1 & H2 & H3). unfold buf_ok. by rewrite decide_False.
  - done.
  - intros blk. split; [lia|done].
Qed.

(** Binit() turns a zeroed table into an empty cache: whatever state the
    kernel reaches before it first uses the cache, a process can start
    recovery from it. *)
Theorem binit_booted s e :
  length (k_bufs s) = S NBUF ->
  (forall j b, k_bufs s !! j = Some b -> b_dev b = 0 /\ b_refcnt b = 0) ->
  exists s', binit (mkWorld s e) = Ok tt (mkWorld s' e) /\
    forall r me pid dev sb, k_bufs r = k_bufs s' -> proc_ctx r me pid -> length (lh_block (k_log r)) = 30%nat ->
      0 < dev < 2 ^ 31 -> 0 <= sb_nlog sb < 2 ^ 31 -> booted me pid dev sb r (k_disk r).
Proof.
  intros Hl Hz. destruct (binit_ok s e Hl) as (bs & E & R & B). eexists. split; [exact E|].
  intros r me pid dev sb Eb C Hlog Hd Hn. split; auto; [|lia].
  apply (cache_empty _ _ _ _ (rev (seq 0 NBUF))); rewrite ?Eb; auto. cbn.
  intros j b Hj Hb. destruct (B j b Hj Hb) as (b0 & H0 & E0). destruct (Hz j b0 H0) as [Z1 Z2].
  apply strip_fields in E0 as (-> & _ & _ & -> & -> & _). cbn. split_and!; [lia|done|done].
Qed.

(** ** Replacement *)

(** Giving back the last reference to a buffer makes it the most recently
    used one and keeps the order of the others. *)
Theorem brelse_to_front me pid e i b s l1 l2 :
  proc_ctx s me pid -> ring (k_bufs s) (l1 ++ i :: l2) -> k_bufs s !! i = Some b ->
  b_lock b = my_lock pid -> b_refcnt b = 1 ->
  exists s', brelse i (mkWorld s e) = Ok tt (mkWorld s' e) /\ ring (k_bufs s') (i :: l1 ++ l2) /\
    exists b', k_bufs s' !! i = Some b' /\ b_refcnt b' = 0 /\ unlocked (b_lock b') /\ b_data b' = b_data b.
Proof.
  intros C R Hb Hl Hr. assert (i < NBUF)%nat as Hi by (eapply ring_elem; [exact R|set_solver]).
  eexists. split; [by eapply (brelse_ok me pid)|]. cbn. unfold released. rewrite Hr.
  change (u32 (1 - 1)) with 0. cbn [Z.eqb].
  set (b1 := b <| b_lock := _ |> <| b_refcnt := _ |>).
  split; [apply move_front_ring; by eapply ring_insert|].
  destruct (lookup_lt_is_Some_2 (released i b (k_bufs s)) i) as [b' Hb'].
  { destruct (released_ring i b (k_bufs s) _ R Hi Hb) as [ord' R']. rewrite (ring_len _ _ R'). lia. }
  unfold released in Hb'. rewrite Hr in Hb'. exists b'. split; [exact Hb'|].
  pose proof (released_lookup i b (k_bufs s) i b') as HR. unfold released in HR. rewrite Hr in HR.
  destruct (HR Hb') as (c0 & H0 & E). rewrite list_lookup_insert_eq in H0 by (rewrite (ring_len _ _ R); lia).
  injection H0 as <-. apply strip_fields in E as (_ & _ & _ & -> & -> & ->). done.
Qed.

Lemma bfind_first test bufs l i :
  bfind test bufs l = Some i ->
  exists l1 l2, l = l1 ++ i :: l2 /\ forall j b, j ∈ l1 -> bufs !! j = Some b -> test b = false.
Proof.
  induction l as [|k l IH]; simpl; [done|]. destruct (bufs !! k) as [b|] eqn:E.
  - destruct (test b) eqn:T.
    + intros [= ->]. exists [], l. split; [done|]. set_solver.
    + intros (l1 & l2 & -> & H)%IH. exists (k :: l1), l2. split; [done|].
      intros j c [->|Hj]%elem_of_cons Hc; [congruence|eauto].
  - intros (l1 & l2 & -> & H)%IH. exists (k :: l1), l2. split; [done|].
    intros j c [->|Hj]%elem_of_cons Hc; [congruence|eauto].
Qed.

(** A miss recycles the least recently used buffer that has no reference:
    every buffer used less recently is still referenced. *)
Theorem bget_evicts_lru me pid e dev blk s ord k kb :
  proc_ctx s me pid -> ring (k_bufs s) ord ->
  (forall j b, j ∈ ord -> k_bufs s !! j = Some b -> same_block dev blk b = false) ->
  (forall j b, j ∈ ord -> k_bufs s !! j = Some b -> b_refcnt b = 0 -> sl_locked (b_lock b) = false) ->
  k ∈ ord -> k_bufs s !! k = Some kb -> b_refcnt kb = 0 ->
  exists i l1 l2 s', bget dev blk (mkWorld s e) = Ok i (mkWorld s' e) /\ ord = l1 ++ i :: l2 /\
    ring (k_bufs s') ord /\
    (forall b, k_bufs s' !! i = Some b -> b_dev b = dev /\ b_blockno b = blk /\ b_refcnt b = 1 /\ b_valid b = false) /\
    (forall j b, j ∈ l2 -> k_bufs s !! j = Some b -> b_refcnt b <> 0).
Proof.
  intros C R Hn Hu Hk Hkb H0. destruct (bfind (same_block dev blk) (k_bufs s) ord) as [j|] eqn:Hf.
  { apply bfind_Some in Hf as (Hj & b & Hb & T). by rewrite (Hn j b Hj Hb) in T. }
  assert (k ∈ rev ord) as Hkr by (by rewrite <- Permutation_rev).
  destruct (bfind (fun b => b_refcnt b =? 0) (k_bufs s) (rev ord)) as [i|] eqn:Hf2.
  2: { pose proof (bfind_None _ _ _ _ _ Hf2 Hkr Hkb) as T. cbn in T. by rewrite H0 in T. }
  destruct (bfind_first _ _ _ _ Hf2) as (r1 & r2 & Er & Hr).
  destruct (bfind_Some _ _ _ _ Hf2) as (Hi & b & Hb & T). apply Z.eqb_eq in T. rewrite <- Permutation_rev in Hi.
  assert (ord = rev r2 ++ i :: rev r1) as Eo.
  { rewrite <- (rev_involutive ord), Er, rev_app_distr. cbn. by rewrite <- app_assoc. }
  exists i, (rev r2), (rev r1). eexists. split_and!; [by eapply (bget_miss me pid); eauto|done| | |].
  - by eapply ring_insert.
  - cbn. intros b' Hb'. rewrite list_lookup_insert_eq in Hb' by (by eapply lookup_lt_Some).
    injection Hb' as <-. done.
  - intros j c Hj Hc. rewrite <- Permutation_rev in Hj. specialize (Hr j c Hj Hc). by apply Z.eqb_neq.
Qed.
