(* ===== verification/Circ.v ===== *)
(** Circular buffers with free-running indices.

    Pipes, the console input and the rings of the disk driver all keep a queue
    in an array of [n] elements between two counters that only grow, modulo
    the width [W] of their C type, and index the array modulo [n].  [circ] says
    which queue such a buffer holds. *)

From S2P Require Import Prelude.

Record circ {A} (n W : Z) (ring : list A) (lo hi : Z) (q : list A) : Prop := {
  ci_len : Z.of_nat (length ring) = n;
  ci_cap : Z.of_nat (length q) <= n;
  ci_lo : 0 <= lo < W;
  ci_hi : hi = (lo + Z.of_nat (length q)) mod W;
  ci_data i x : q !! i = Some x -> ring !! Z.to_nat ((lo + Z.of_nat i) mod n) = Some x;
}.

Section Circ.
Context {A : Type} (n W : Z).
Hypothesis Hn : 0 < n < W.
Hypothesis Hdiv : (n | W).
Implicit Types (ring q : list A) (lo hi : Z).

Lemma wrap_mod x : (x mod W) mod n = x mod n.
Proof.
  destruct Hdiv as [k Hk]. rewrite (Z.div_mod x W) at 2 by lia.
  rewrite Hk at 2. replace (k * n * (x / W) + x mod W) with (x mod W + k * (x / W) * n) by ring.
  by rewrite Z.mod_add by lia.
Qed.

(** Offsets of less than the size do not come round again. *)
Lemma mod_offset_inj m a i j :
  0 < m -> 0 <= i < m -> 0 <= j < m -> (a + i) mod m = (a + j) mod m -> i = j.
Proof.
  intros Hm Hi Hj E. pose proof (Z.div_mod (a + i) m ltac:(lia)). pose proof (Z.div_mod (a + j) m ltac:(lia)).
  rewrite E in *. assert (m * ((a + i) / m - (a + j) / m) = i - j) as D by lia.
  generalize dependent ((a + i) / m - (a + j) / m). intros z D. destruct (Z.eq_dec z 0); [subst; lia|]. exfalso. nia.
Qed.

Lemma circ_count ring lo hi q : circ n W ring lo hi q -> (hi - lo) mod W = Z.of_nat (length q).
Proof.
  intros [H1 H2 H3 H4 H5]. rewrite H4, Zminus_mod_idemp_l.
  replace (lo + Z.of_nat (length q) - lo) with (Z.of_nat (length q)) by lia. apply Z.mod_small. lia.
Qed.

Lemma circ_full ring lo hi q :
  circ n W ring lo hi q -> (hi =? (lo + n) mod W) = bool_decide (Z.of_nat (length q) = n).
Proof.
  intros [H1 H2 H3 H4 H5]. rewrite H4. case_bool_decide as E; [rewrite E; apply Z.eqb_refl|].
  apply Z.eqb_neq. intros Eq. apply mod_offset_inj in Eq; lia.
Qed.

Lemma circ_empty ring lo hi q : circ n W ring lo hi q -> (lo =? hi) = bool_decide (q = []).
Proof.
  intros [H1 H2 H3 H4 H5]. rewrite H4. destruct q as [|x q].
  - cbn. rewrite Z.add_0_r, Z.mod_small by lia. by rewrite Z.eqb_refl.
  - rewrite bool_decide_false by done. apply Z.eqb_neq. intros Eq.
    rewrite <- (Z.mod_small lo W) in Eq at 1 by lia. rewrite <- (Z.add_0_r lo) in Eq at 1.
    apply mod_offset_inj in Eq; cbn in *; lia.
Qed.

Lemma circ_push ring lo hi q c :
  circ n W ring lo hi q -> Z.of_nat (length q) < n ->
  circ n W (<[Z.to_nat (hi mod n) := c]> ring) lo ((hi + 1) mod W) (q ++ [c]).
Proof.
  intros [H1 H2 H3 H4 H5] Hl. rewrite H4, wrap_mod. split.
  - by rewrite length_insert.
  - rewrite length_app. cbn. lia.
  - done.
  - rewrite Zplus_mod_idemp_l, length_app. cbn. f_equal. lia.
  - intros i x [Hi|[Hi Hx]]%lookup_app_Some.
    + pose proof (lookup_lt_Some _ _ _ Hi). rewrite list_lookup_insert_ne; [by apply H5|].
      intros E. apply Z2Nat.inj in E; [|apply Z.mod_pos_bound; lia..]. apply mod_offset_inj in E; lia.
    + apply list_lookup_singleton_Some in Hx as [Hx <-]. replace i with (length q) by lia.
      apply list_lookup_insert_eq. pose proof (Z.mod_pos_bound (lo + Z.of_nat (length q)) n ltac:(lia)). lia.
Qed.

Lemma circ_pop ring lo hi c q :
  circ n W ring lo hi (c :: q) ->
  ring !! Z.to_nat (lo mod n) = Some c /\ circ n W ring ((lo + 1) mod W) hi q.
Proof.
  intros [H1 H2 H3 H4 H5]. cbn [length] in *. split.
  - specialize (H5 0%nat c eq_refl). by rewrite Z.add_0_r in H5.
  - split; auto; [lia|apply Z.mod_pos_bound; lia| |].
    + rewrite H4, Zplus_mod_idemp_l. f_equal. lia.
    + intros i x Hi. specialize (H5 (S i) x Hi).
      rewrite <- Zplus_mod_idemp_l, wrap_mod, Zplus_mod_idemp_l. rewrite <- H5. do 3 f_equal. lia.
Qed.

Lemma circ_unpush ring lo hi q c :
  circ n W ring lo hi (q ++ [c]) ->
  ring !! Z.to_nat ((hi - 1) mod W mod n) = Some c /\ circ n W ring lo ((hi - 1) mod W) q.
Proof.
  intros [H1 H2 H3 H4 H5]. rewrite length_app in *. cbn [length] in *.
  assert ((hi - 1) mod W = (lo + Z.of_nat (length q)) mod W) as E.
  { rewrite H4, Zminus_mod_idemp_l. f_equal. lia. }
  rewrite E, wrap_mod. split.
  - apply H5. rewrite lookup_app_r, Nat.sub_diag by lia. done.
  - split; auto; [lia|]. intros i x Hi. by apply H5, lookup_app_l_Some.
Qed.
End Circ.
