(* ===== verification/VirtioSpec.v ===== *)
(** The disk driver and the device: what the driver's operations do to its
    tables, and the invariant that holds of them while any number of requests
    is in flight. *)

From S2P Require Import Prelude Layout Kernel Sched Kalloc Bio Virtio Circ.

(** ** The operations *)

(** Equality of two driver states written as field updates of a third. *)
Ltac vdeq :=
  repeat match goal with d : vdisk |- _ => destruct d end;
  cbv [upd upd_vd_desc upd_vd_avail_idx upd_vd_avail upd_vd_dev_idx upd_vd_used upd_vd_free upd_vd_used_idx upd_vd_info upd_vd_ops upd_vd_last upd_vd_taken upd_vd_regs
    vd_desc vd_avail_idx vd_avail vd_dev_idx vd_used vd_free vd_used_idx vd_info vd_ops vd_last vd_taken vd_regs] in *;
  try match goal with |- @eq vdisk _ _ => f_equal end.

Section Ops.
Context (s : kernel) (e : list (kernel -> kernel)).
Hypothesis Hheld : k_held s = [LkVdisk].

(** [s] with the parts the driver changes. *)
Definition V (d : vdisk) (bufs : list buf) (ps : list proc) : world :=
  mkWorld (s <| k_bufs := bufs |> <| k_vdisk := d |> <| k_procs := ps |>) e.

Implicit Types (d : vdisk) (bufs : list buf) (ps : list proc).

Lemma mod_vd_ok f d bufs ps : mod_vd f (V d bufs ps) = Ok tt (V (f d) bufs ps).
Proof. done. Qed.

Lemma vd_at_ok {A} (g : vdisk -> list A) (i : nat) x d bufs ps :
  g d !! i = Some x -> vd_at g (Z.of_nat i) (V d bufs ps) = Ok x (V d bufs ps).
Proof.
  intros H. unfold vd_at. eapply run_bind; [reflexivity|]. cbn [w_k V].
  destruct (Z.ltb_spec (Z.of_nat i) 0); [lia|]. rewrite Nat2Z.id. by apply index_ok.
Qed.

Lemma mod_desc_ok (i : nat) f x d bufs ps :
  vd_desc d !! i = Some x ->
  mod_desc (Z.of_nat i) f (V d bufs ps) = Ok tt (V (d <| vd_desc ::= <[i := f x]> |>) bufs ps).
Proof.
  intros H. unfold mod_desc. eapply run_bind; [by apply vd_at_ok|]. rewrite Nat2Z.id, mod_vd_ok.
  unfold upd, upd_vd_desc. by erewrite list_alter_insert.
Qed.

Lemma mod_info_ok (i : nat) f x d bufs ps :
  vd_info d !! i = Some x ->
  mod_info (Z.of_nat i) f (V d bufs ps) = Ok tt (V (d <| vd_info ::= <[i := f x]> |>) bufs ps).
Proof.
  intros H. unfold mod_info. eapply run_bind; [by apply vd_at_ok|]. rewrite Nat2Z.id, mod_vd_ok.
  unfold upd, upd_vd_info. by erewrite list_alter_insert.
Qed.

Lemma mod_ops_ok (i : nat) f x d bufs ps :
  vd_ops d !! i = Some x ->
  mod_ops (Z.of_nat i) f (V d bufs ps) = Ok tt (V (d <| vd_ops ::= <[i := f x]> |>) bufs ps).
Proof.
  intros H. unfold mod_ops. eapply run_bind; [by apply vd_at_ok|]. rewrite Nat2Z.id, mod_vd_ok.
  unfold upd, upd_vd_ops. by erewrite list_alter_insert.
Qed.

Lemma mod_vbuf_ok b f x d bufs ps :
  bufs !! b = Some x -> mod_buf b f (V d bufs ps) = Ok tt (V d (<[b := f x]> bufs) ps).
Proof.
  intros H. unfold mod_buf, get_buf. apply run_assoc. eapply run_bind; [reflexivity|].
  eapply run_bind; [by apply index_ok|]. unfold modify. f_equal. unfold V. cbn [w_k w_env]. f_equal.
  rewrite <- (list_alter_insert f b _ x) by done. by destruct s.
Qed.

Lemma wakeup_vd ch d bufs ps :
  length ps = NPROC -> exists ps', length ps' = NPROC /\ wakeup ch (V d bufs ps) = Ok tt (V d bufs ps').
Proof.
  intros Hl. eexists. split; [|rewrite wakeup_run; [reflexivity|done|]].
  - by rewrite length_imap.
  - intros i _. change (k_held (w_k (V d bufs ps))) with (k_held s). rewrite Hheld. set_solver.
Qed.

Definition freed (i : nat) (d : vdisk) : vdisk :=
  d <| vd_desc ::= <[i := mkDesc VNull 0 0 0]> |> <| vd_free ::= <[i := true]> |>.

Lemma free_desc_ok (i : nat) d bufs ps x :
  (i < NUM)%nat -> vd_free d !! i = Some false -> vd_desc d !! i = Some x -> length ps = NPROC ->
  exists ps', length ps' = NPROC /\ free_desc (Z.of_nat i) (V d bufs ps) = Ok tt (V (freed i d) bufs ps').
Proof.
  intros Hi Hf Hd Hl. destruct (wakeup_vd ChDiskFree (freed i d) bufs ps Hl) as (ps' & Hl' & E).
  exists ps'. split; [done|]. unfold free_desc. destruct (Z.leb_spec (Z.of_nat NUM) (Z.of_nat i)); [lia|].
  eapply run_bind; [by apply vd_at_ok|]. cbn iota. eapply run_bind; [by apply mod_desc_ok|].
  eapply run_bind; [rewrite Nat2Z.id; apply mod_vd_ok|]. exact E.
Qed.

Lemma alloc_desc_ok d bufs ps :
  length (vd_free d) = NUM ->
  (exists i, (i < NUM)%nat /\ vd_free d !! i = Some true /\
     alloc_desc (V d bufs ps) = Ok (Z.of_nat i) (V (d <| vd_free ::= <[i := false]> |>) bufs ps)) \/
  ((forall i, vd_free d !! i <> Some true) /\ alloc_desc (V d bufs ps) = Ok (-1) (V d bufs ps)).
Proof.
  intros Hl. unfold alloc_desc.
  destruct (for_ret_inv (fun j w => w = V d bufs ps /\ forall k, (k < j)%nat -> vd_free d !! k = Some false)
    (fun r w => exists i, (i < NUM)%nat /\ vd_free d !! i = Some true /\ r = Z.of_nat i /\
      w = V (d <| vd_free ::= <[i := false]> |>) bufs ps) NUM 0 (fun i =>
    let* fr := vd_at vd_free (Z.of_nat i) in
    if fr : bool then
      mod_vd (fun d => d <| vd_free ::= <[i := false]> |>) ;; ret (Some (Z.of_nat i))
    else ret None) (V d bufs ps)) as (r & w & E & H).
  - split; [done|lia].
  - intros j w [_ Hj] [-> Hk]. destruct (lookup_lt_is_Some_2 (vd_free d) j) as [fr Hfr]; [lia|].
    destruct fr.
    + exists (Some (Z.of_nat j)). eexists. split; [eapply run_bind; [by apply vd_at_ok|]; reflexivity|].
      exists j. split_and!; [lia|done|done|done].
    + exists None. eexists. split; [eapply run_bind; [by apply vd_at_ok|]; reflexivity|].
      split; [done|]. intros k Hk'. destruct (decide (k = j)) as [->|]; [done|]. apply Hk. lia.
  - destruct r as [r|].
    + destruct H as (i & Hi & Hf & -> & ->). left. exists i. split_and!; [done|done|].
      eapply run_bind; [exact E|]. done.
    + destruct H as [-> Hk]. right. split; [|eapply run_bind; [exact E|]; done].
      intros i Hi. pose proof (lookup_lt_Some _ _ _ Hi). rewrite Hk in Hi by lia. done.
Qed.

(** The free table without the descriptors [l], and the descriptor table with
    those descriptors cleared. *)
Definition claim (l : list nat) (fr : list bool) : list bool :=
  imap (fun i b => if decide (i ∈ l) then false else b) fr.
Definition wipe (l : list nat) (ds : list virtq_desc) : list virtq_desc :=
  imap (fun i x => if decide (i ∈ l) then mkDesc VNull 0 0 0 else x) ds.

Arguments claim : simpl never.
Arguments wipe : simpl never.

Lemma claim_nil fr : claim [] fr = fr.
Proof. apply list_eq. intros i. unfold claim. rewrite list_lookup_imap. by destruct (fr !! i). Qed.
Lemma wipe_nil ds : wipe [] ds = ds.
Proof. apply list_eq. intros i. unfold wipe. rewrite list_lookup_imap. by destruct (ds !! i). Qed.

Lemma claim_lookup l fr i : claim l fr !! i = (fun b => if decide (i ∈ l) then false else b) <$> fr !! i.
Proof. unfold claim. by rewrite list_lookup_imap. Qed.

Lemma insert_claim i l fr b :
  (i < length fr)%nat -> (b = false \/ fr !! i = Some b) ->
  <[i := b]> (claim l fr) = claim (if b then filter (fun j => j <> i) l else l ++ [i]) fr.
Proof.
  intros Hi Hb. apply list_eq. intros j. destruct (decide (i = j)) as [->|N].
  - rewrite list_lookup_insert_eq by (unfold claim; by rewrite length_imap). rewrite claim_lookup.
    destruct b.
    + destruct Hb as [|Hb]; [done|]. rewrite Hb. cbn. rewrite decide_False; [done|].
      rewrite list_elem_of_filter. naive_solver.
    + destruct (lookup_lt_is_Some_2 fr j Hi) as [x ->]. cbn. rewrite decide_True; [done|set_solver].
  - rewrite list_lookup_insert_ne, !claim_lookup by done. destruct (fr !! j); [|done]. cbn. f_equal.
    apply decide_ext. destruct b; [rewrite list_elem_of_filter; naive_solver|set_solver].
Qed.

Lemma wipe_insert i l ds : wipe l (<[i := mkDesc VNull 0 0 0]> ds) = wipe (i :: l) ds.
Proof.
  apply list_eq. intros j. unfold wipe. rewrite !list_lookup_imap. destruct (decide (i = j)) as [->|N].
  - destruct (decide (j < length ds)%nat).
    + rewrite list_lookup_insert_eq by done. destruct (lookup_lt_is_Some_2 ds j) as [x ->]; [done|]. cbn.
      rewrite (decide_True (P := j ∈ j :: l)) by set_solver. by case_decide.
    + by rewrite list_insert_ge, (lookup_ge_None_2 ds) by lia.
  - rewrite list_lookup_insert_ne by done. destruct (ds !! j); [|done]. cbn. f_equal. apply decide_ext. set_solver.
Qed.

Lemma free_descs_ok l : forall d bufs ps,
  NoDup l -> Forall (fun i => (i < NUM)%nat /\ vd_free d !! i = Some true) l ->
  length (vd_desc d) = NUM -> length ps = NPROC ->
  exists ps', length ps' = NPROC /\
    free_descs (Z.of_nat <$> l) (V (d <| vd_free ::= claim l |>) bufs ps) =
    Ok tt (V (d <| vd_desc ::= wipe l |>) bufs ps').
Proof.
  induction l as [|i l IH]; intros d bufs ps Hn Hf Hd Hl; cbn [free_descs fmap list_fmap].
  { exists ps. split; [done|]. unfold ret. do 2 f_equal. vdeq; [by rewrite wipe_nil|by rewrite claim_nil]. }
  apply NoDup_cons in Hn as [Hi Hn]. apply Forall_cons in Hf as [[Li Fi] Hf].
  destruct (lookup_lt_is_Some_2 (vd_desc d) i) as [x Hx]; [lia|].
  destruct (free_desc_ok i (d <| vd_free ::= claim (i :: l) |>) bufs ps x) as (ps1 & Hp1 & E1); [done| |done|done|].
  { cbn. rewrite claim_lookup, Fi. cbn. rewrite decide_True; [done|set_solver]. }
  destruct (IH (d <| vd_desc ::= <[i := mkDesc VNull 0 0 0]> |>) bufs ps1) as (ps2 & Hp2 & E2);
    [done|done|cbn; by rewrite length_insert|done|].
  exists ps2. split; [done|]. eapply run_bind; [exact E1|]. etrans; [|etrans; [exact E2|]]; do 2 f_equal.
  - unfold freed. vdeq. rewrite insert_claim; [|by eapply lookup_lt_Some|by right].
    rewrite filter_cons_False by naive_solver. by rewrite filter_ne_notin.
  - vdeq. by rewrite wipe_insert.
Qed.

(** A failed alloc3_desc() has only touched free descriptors. *)
Lemma alloc3_loop_ok n : forall got d bufs ps,
  NoDup got -> Forall (fun i => (i < NUM)%nat /\ vd_free d !! i = Some true) got ->
  length (vd_free d) = NUM -> length (vd_desc d) = NUM -> length ps = NPROC ->
  (exists more, length more = n /\ NoDup (got ++ more) /\
     Forall (fun i => (i < NUM)%nat /\ vd_free d !! i = Some true) (got ++ more) /\
     alloc3_loop n (Z.of_nat <$> got) (V (d <| vd_free ::= claim got |>) bufs ps) =
       Ok (Some (Z.of_nat <$> (got ++ more))) (V (d <| vd_free ::= claim (got ++ more) |>) bufs ps)) \/
  (exists l ps', length ps' = NPROC /\ Forall (fun i => vd_free d !! i = Some true) l /\
     alloc3_loop n (Z.of_nat <$> got) (V (d <| vd_free ::= claim got |>) bufs ps) =
       Ok None (V (d <| vd_desc ::= wipe l |>) bufs ps')).
Proof.
  induction n as [|n IH]; intros got d bufs ps Hn Hg Hf Hd Hl; cbn [alloc3_loop].
  { left. exists []. rewrite app_nil_r. done. }
  destruct (alloc_desc_ok (d <| vd_free ::= claim got |>) bufs ps) as [(i & Li & Fi & E)|[_ E]].
  { cbn. unfold claim. by rewrite length_imap. }
  - cbn in Fi. rewrite claim_lookup in Fi. apply fmap_Some in Fi as (b & Fb & Eb).
    destruct (decide (i ∈ got)) as [|Hni]; [done|]. subst b.
    destruct (IH (got ++ [i]) d bufs ps) as [(more & H1 & H2 & H3 & H4)|(l & ps' & H1 & H2 & H3)]; auto.
    + apply NoDup_app. split_and!; [done|set_solver|apply NoDup_singleton].
    + apply Forall_app. split; [done|]. by constructor.
    + left. exists (i :: more). rewrite <- app_assoc in *. split_and!; [cbn; lia|done|done|].
      eapply run_bind; [exact E|]. destruct (Z.ltb_spec (Z.of_nat i) 0); [lia|].
      rewrite fmap_app in H4. etrans; [|exact H4]. do 2 f_equal. vdeq.
      by rewrite insert_claim by (lia || by left).
    + right. exists l, ps'. split_and!; [done|done|].
      eapply run_bind; [exact E|]. destruct (Z.ltb_spec (Z.of_nat i) 0); [lia|].
      rewrite fmap_app in H3. etrans; [|exact H3]. do 2 f_equal. vdeq.
      by rewrite insert_claim by (lia || by left).
  - right. destruct (free_descs_ok got d bufs ps) as (ps' & Hp & E'); auto. exists got, ps'. split_and!; [done| |].
    + eapply Forall_impl; [exact Hg|]. naive_solver.
    + eapply run_bind; [exact E|]. cbn [Z.ltb Z.compare]. eapply run_bind; [exact E'|done].
Qed.

Lemma alloc3_ok d bufs ps :
  length (vd_free d) = NUM -> length (vd_desc d) = NUM -> length ps = NPROC ->
  (exists i0 i1 i2, NoDup [i0; i1; i2] /\ Forall (fun i => (i < NUM)%nat /\ vd_free d !! i = Some true) [i0; i1; i2] /\
     alloc3_desc (V d bufs ps) = Ok (Some [Z.of_nat i0; Z.of_nat i1; Z.of_nat i2])
       (V (d <| vd_free ::= claim [i0; i1; i2] |>) bufs ps)) \/
  (exists l ps', length ps' = NPROC /\ Forall (fun i => vd_free d !! i = Some true) l /\
     alloc3_desc (V d bufs ps) = Ok None (V (d <| vd_desc ::= wipe l |>) bufs ps')).
Proof.
  intros Hf Hd Hl. replace (V d bufs ps) with (V (d <| vd_free ::= claim [] |>) bufs ps)
    by (f_equal; vdeq; by rewrite claim_nil).
  destruct (alloc3_loop_ok 3 [] d bufs ps) as [(more & H1 & H2)|H]; auto using NoDup_nil_2.
  destruct more as [|i0 [|i1 [|i2 [|]]]]; try done. left. by exists i0, i1, i2.
Qed.

(** The descriptors of a request, as rw_post() fills them in. *)
Definition head_desc (i0 i1 : nat) : virtq_desc := mkDesc (VOps i0) sizeof_virtio_blk_req VRING_DESC_F_NEXT (Z.of_nat i1).
Definition data_desc (b : nat) (w : bool) (i2 : nat) : virtq_desc :=
  mkDesc (VData b) BSIZE (if w then 1 else 3) (Z.of_nat i2).
Definition status_desc (i0 : nat) : virtq_desc := mkDesc (VStatus i0) 1 VRING_DESC_F_WRITE 0.

Definition posted (b : nat) (w : bool) (sector : Z) (i0 i1 i2 : nat) (d : vdisk) : vdisk :=
  d <| vd_ops ::= <[i0 := mkReq (if w then VIRTIO_BLK_T_OUT else VIRTIO_BLK_T_IN) 0 sector]> |>
    <| vd_desc ::= fun l => <[i2 := status_desc i0]> (<[i1 := data_desc b w i2]> (<[i0 := head_desc i0 i1]> l)) |>
    <| vd_info ::= <[i0 := mkInfo (Some b) 255]> |>
    <| vd_avail := <[Z.to_nat (vd_avail_idx d mod 8) := Z.of_nat i0]> (vd_avail d) |>
    <| vd_avail_idx ::= fun x => u16 (x + 1) |>
    <| vd_regs ::= fun l => l ++ [(VIRTIO_MMIO_QUEUE_NOTIFY, 0)] |>.

Lemma desc_num (i : nat) : (i < NUM)%nat -> u16 (Z.of_nat i) = Z.of_nat i.
Proof. intros H. apply u16_small. unfold NUM in H. lia. Qed.

Lemma rw_post_ok b w sector (i0 i1 i2 : nat) bf d bufs ps :
  NoDup [i0; i1; i2] -> Forall (fun i => (i < NUM)%nat) [i0; i1; i2] ->
  length (vd_desc d) = NUM -> length (vd_info d) = NUM -> length (vd_ops d) = NUM -> bufs !! b = Some bf ->
  rw_post b w sector (Z.of_nat i0) (Z.of_nat i1) (Z.of_nat i2) (V d bufs ps) =
  Ok tt (V (posted b w sector i0 i1 i2 d) (<[b := bf <| b_disk := true |>]> bufs) ps).
Proof.
  intros Hn Hlt Hd Hi Ho Hb. rewrite !Forall_cons in Hlt. destruct Hlt as (L0 & L1 & L2 & _).
  assert (i0 <> i1 /\ i0 <> i2 /\ i1 <> i2) as (N01 & N02 & N12).
  { rewrite !NoDup_cons in Hn. set_solver. }
  destruct (lookup_lt_is_Some_2 (vd_desc d) i0) as [x0 X0]; [lia|].
  destruct (lookup_lt_is_Some_2 (vd_desc d) i1) as [x1 X1]; [lia|].
  destruct (lookup_lt_is_Some_2 (vd_desc d) i2) as [x2 X2]; [lia|].
  destruct (lookup_lt_is_Some_2 (vd_ops d) i0) as [o O]; [lia|].
  destruct (lookup_lt_is_Some_2 (vd_info d) i0) as [y Y]; [lia|].
  unfold rw_post.
  eapply run_bind; [by apply (mod_ops_ok i0)|]. eapply run_bind; [by apply (mod_desc_ok i0)|].
  eapply run_bind; [eapply (mod_desc_ok i1); cbn; by rewrite list_lookup_insert_ne|].
  eapply run_bind; [by apply (mod_info_ok i0)|].
  eapply run_bind; [eapply (mod_desc_ok i2); cbn; by rewrite !list_lookup_insert_ne|].
  eapply run_bind; [by apply mod_vbuf_ok|].
  eapply run_bind; [eapply (mod_info_ok i0); cbn; apply list_lookup_insert_eq; lia|].
  eapply run_bind; [apply mod_vd_ok|]. eapply run_bind; [apply mod_vd_ok|].
  unfold mmio_write. rewrite mod_vd_ok. do 2 f_equal. rewrite !Nat2Z.id, !desc_num by done.
  unfold posted. vdeq; [by destruct w|]. by rewrite list_insert_insert_eq.
Qed.

Lemma free_chain_ok b w (i0 i1 i2 : nat) d bufs ps :
  NoDup [i0; i1; i2] -> Forall (fun i => (i < NUM)%nat /\ vd_free d !! i = Some false) [i0; i1; i2] ->
  vd_desc d !! i0 = Some (head_desc i0 i1) -> vd_desc d !! i1 = Some (data_desc b w i2) ->
  vd_desc d !! i2 = Some (status_desc i0) -> length ps = NPROC ->
  exists ps', length ps' = NPROC /\
    free_chain (Z.of_nat i0) (V d bufs ps) = Ok tt (V (freed i2 (freed i1 (freed i0 d))) bufs ps').
Proof.
  intros Hn Hf D0 D1 D2 Hl. rewrite !Forall_cons in Hf. destruct Hf as ((L0 & F0) & (L1 & F1) & (L2 & F2) & _).
  assert (i0 <> i1 /\ i0 <> i2 /\ i1 <> i2) as (N01 & N02 & N12) by (rewrite !NoDup_cons in Hn; set_solver).
  destruct (free_desc_ok i0 d bufs ps _ L0 F0 D0 Hl) as (ps0 & Hl0 & E0).
  assert (vd_desc (freed i0 d) !! i1 = Some (data_desc b w i2)) as D1' by (cbn; by rewrite list_lookup_insert_ne).
  destruct (free_desc_ok i1 (freed i0 d) bufs ps0 (data_desc b w i2) L1) as (ps1 & Hl1 & E1);
    [cbn; by rewrite list_lookup_insert_ne|done|done|].
  assert (vd_desc (freed i1 (freed i0 d)) !! i2 = Some (status_desc i0)) as D2' by (cbn; by rewrite !list_lookup_insert_ne).
  destruct (free_desc_ok i2 (freed i1 (freed i0 d)) bufs ps1 (status_desc i0) L2) as (ps2 & Hl2 & E2);
    [cbn; by rewrite !list_lookup_insert_ne|done|done|].
  exists ps2. split; [done|]. unfold free_chain. cbn [free_chain_loop NUM].
  eapply run_bind; [by apply (vd_at_ok vd_desc i0)|]. eapply run_bind; [exact E0|]. cbn [d_flags d_next head_desc].
  change (negb (Z.land VRING_DESC_F_NEXT VRING_DESC_F_NEXT =? 0)) with true. cbn iota.
  eapply run_bind; [by apply (vd_at_ok vd_desc i1)|]. eapply run_bind; [exact E1|]. cbn [d_flags d_next data_desc].
  replace (negb (Z.land (if w then 1 else 3) VRING_DESC_F_NEXT =? 0)) with true by (by destruct w). cbn iota.
  eapply run_bind; [by apply (vd_at_ok vd_desc i2)|]. eapply run_bind; [exact E2|]. done.
Qed.

Lemma intr_one_ok (h b : nat) bf inf d bufs ps :
  0 <= vd_used_idx d -> vd_used d !! Z.to_nat (vd_used_idx d mod 8) = Some (Z.of_nat h) ->
  vd_info d !! h = Some inf -> in_status inf = 0 -> in_b inf = Some b -> bufs !! b = Some bf -> length ps = NPROC ->
  exists ps', length ps' = NPROC /\
    intr_one (V d bufs ps) =
    Ok tt (V (d <| vd_used_idx ::= fun x => u16 (x + 1) |>) (<[b := bf <| b_disk := false |>]> bufs) ps').
Proof.
  intros H0 Hu Hi Hs Hb Hbf Hl.
  destruct (wakeup_vd (ChBuf b) d (<[b := bf <| b_disk := false |>]> bufs) ps Hl) as (ps' & Hl' & Ew).
  exists ps'. split; [done|]. unfold intr_one. eapply run_bind; [reflexivity|]. cbn [w_k V].
  change (k_vdisk _) with d. pose proof (Z.mod_pos_bound (vd_used_idx d) 8 ltac:(lia)).
  eapply run_bind; [rewrite <- (Z2Nat.id (_ mod _)) by (unfold NUM; lia); by apply (vd_at_ok vd_used)|].
  eapply run_bind; [by apply (vd_at_ok vd_info h)|]. rewrite Hs, Hb. cbn [Z.eqb negb].
  eapply run_bind; [by apply mod_vbuf_ok|]. eapply run_bind; [exact Ew|]. apply mod_vd_ok.
Qed.
End Ops.
