(* ===== verification/VirtioProof.v ===== *)
(** The invariant of the disk driver and the device.

    Every request in flight (a [frame]) owns three descriptors that describe
    it, and its head descriptor is in exactly one of four places: on the
    available ring ([A]), in the hands of the device ([vd_taken]), on the used
    ring ([U]), or done ([D]: virtio_disk_intr() has seen it). *)

From S2P Require Import Prelude Layout Kernel Sched Kalloc Bio Virtio Circ VirtioSpec.

Record frame : Type := mkFrame {
  f_b : nat;
  f_w : bool;
  f_i0 : nat;
  f_i1 : nat;
  f_i2 : nat;
}.

#[export] Instance frame_eq_dec : EqDecision frame.
Proof. solve_decision. Defined.

Definition idxs (f : frame) : list nat := [f_i0 f; f_i1 f; f_i2 f].

(** The descriptors of all requests in flight. *)
Definition owned (fs : list frame) : list nat := fs ≫= idxs.
Arguments owned : simpl never.

Lemma owned_cons f fs : owned (f :: fs) = idxs f ++ owned fs.
Proof. apply bind_cons. Qed.
Lemma owned_app fs gs : owned (fs ++ gs) = owned fs ++ owned gs.
Proof. apply bind_app. Qed.
Lemma elem_of_owned i fs : i ∈ owned fs <-> exists f, i ∈ idxs f /\ f ∈ fs.
Proof. apply list_elem_of_bind. Qed.

(** The three descriptors, the command and the table entry of a request. *)
Record filled (d : vdisk) (bufs : list buf) (status : Z) (busy : bool) (f : frame) : Prop := {
  fi_d0 : vd_desc d !! f_i0 f = Some (head_desc (f_i0 f) (f_i1 f));
  fi_d1 : vd_desc d !! f_i1 f = Some (data_desc (f_b f) (f_w f) (f_i2 f));
  fi_d2 : vd_desc d !! f_i2 f = Some (status_desc (f_i0 f));
  fi_info : vd_info d !! f_i0 f = Some (mkInfo (Some (f_b f)) status);
  fi_buf : exists bf, bufs !! f_b f = Some bf /\ 0 <= b_blockno bf < 2 ^ 31 /\ b_disk bf = busy /\
    vd_ops d !! f_i0 f = Some (mkReq (if f_w f then VIRTIO_BLK_T_OUT else VIRTIO_BLK_T_IN) 0 (2 * b_blockno bf));
}.

Record vinv (d : vdisk) (bufs : list buf) (fs : list frame) (A U D : list nat) : Prop := {
  vi_desc : length (vd_desc d) = NUM;
  vi_free : length (vd_free d) = NUM;
  vi_info : length (vd_info d) = NUM;
  vi_ops : length (vd_ops d) = NUM;
  vi_nodup : NoDup (owned fs);
  vi_lt i : i ∈ owned fs -> (i < NUM)%nat;
  vi_isfree i : (i < NUM)%nat -> vd_free d !! i = Some (bool_decide (i ∉ owned fs));
  vi_bufs : NoDup (f_b <$> fs);
  vi_heads : f_i0 <$> fs ≡ₚ A ++ vd_taken d ++ U ++ D;
  vi_avail : circ 8 (2 ^ 16) (vd_avail d) (vd_last d) (vd_avail_idx d) (Z.of_nat <$> A);
  vi_used : circ 8 (2 ^ 16) (vd_used d) (vd_used_idx d) (vd_dev_idx d) (Z.of_nat <$> U);
  vi_frame f : f ∈ fs ->
    filled d bufs (if decide (f_i0 f ∈ A ++ vd_taken d) then 255 else 0) (bool_decide (f_i0 f ∉ D)) f;
}.

Lemma div_8 : (8 | 2 ^ 16).
Proof. by exists 8192. Qed.

Section Facts.
Context (d : vdisk) (bufs : list buf) (fs : list frame) (A U D : list nat).
Hypothesis I : vinv d bufs fs A U D.

Lemma elem_idxs f i : f ∈ fs -> i ∈ idxs f -> i ∈ owned fs.
Proof. intros Hf Hi. apply elem_of_owned. eauto. Qed.

Lemma frame_idxs f : f ∈ fs -> NoDup (idxs f).
Proof.
  intros Hf. pose proof (vi_nodup _ _ _ _ _ _ I) as Hn. apply list_elem_of_split in Hf as (l1 & l2 & ->).
  rewrite owned_app in Hn. apply NoDup_app in Hn as (_ & _ & Hn). rewrite owned_cons in Hn.
  by apply NoDup_app in Hn as (Hn & _).
Qed.

Lemma frame_free f : f ∈ fs -> Forall (fun i => (i < NUM)%nat /\ vd_free d !! i = Some false) (idxs f).
Proof.
  intros Hf. apply Forall_forall. intros i Hi. pose proof (elem_idxs f i Hf Hi) as H.
  pose proof (vi_lt _ _ _ _ _ _ I i H) as Hl. split; [done|].
  rewrite (vi_isfree _ _ _ _ _ _ I) by done. by rewrite bool_decide_false by tauto.
Qed.

Lemma head_elem f : f ∈ fs -> f_i0 f ∈ owned fs.
Proof. intros Hf. apply (elem_idxs f); [done|]. unfold idxs. set_solver. Qed.

(** At most two requests are in flight, so no ring ever overflows. *)
Lemma few_frames : (length fs <= 2)%nat.
Proof.
  assert (length (owned fs) <= NUM)%nat as H.
  { rewrite <- (length_seq NUM 0). apply submseteq_length, NoDup_submseteq; [apply I|].
    intros i Hi. apply elem_of_seq. pose proof (vi_lt _ _ _ _ _ _ I i Hi). lia. }
  assert (length (owned fs) = 3 * length fs)%nat as E.
  { clear. induction fs as [|f l IH]; [done|]. rewrite owned_cons, length_app. cbn [length idxs]. rewrite IH. lia. }
  unfold NUM in H. lia.
Qed.

Lemma few_heads : (length A + length (vd_taken d) + length U + length D <= 2)%nat.
Proof.
  pose proof few_frames. pose proof (Permutation_length (vi_heads _ _ _ _ _ _ I)) as E.
  rewrite length_fmap, !length_app in E. lia.
Qed.

Lemma heads_nodup : NoDup (A ++ vd_taken d ++ U ++ D).
Proof.
  rewrite <- (vi_heads _ _ _ _ _ _ I). pose proof (vi_nodup _ _ _ _ _ _ I) as Hn. clear - Hn.
  induction fs as [|f l IH]; cbn; [by apply NoDup_nil|]. rewrite owned_cons in Hn.
  apply NoDup_app in Hn as (_ & Hd & Hn). apply NoDup_cons. split; [|by apply IH].
  intros (g & E & Hg)%list_elem_of_fmap. apply (Hd (f_i0 f)); [unfold idxs; set_solver|].
  apply elem_of_owned. exists g. split; [unfold idxs; rewrite E; set_solver|done].
Qed.

Lemma head_frame h : h ∈ A ++ vd_taken d ++ U ++ D -> exists f, f ∈ fs /\ f_i0 f = h.
Proof.
  intros H. rewrite <- (vi_heads _ _ _ _ _ _ I) in H. apply list_elem_of_fmap in H as (f & -> & Hf). eauto.
Qed.

Lemma head_inj f g : f ∈ fs -> g ∈ fs -> f_i0 f = f_i0 g -> f = g.
Proof.
  intros Hf Hg E. pose proof (vi_nodup _ _ _ _ _ _ I) as Hn. clear I. revert Hf Hg Hn.
  induction fs as [|x l IH]; intros Hf Hg; [set_solver|]. rewrite owned_cons. intros (_ & Hd & Hn)%NoDup_app.
  assert (forall y, y ∈ l -> f_i0 y <> f_i0 x) as Hx.
  { intros y Hy Exy. apply (Hd (f_i0 x)); [unfold idxs; set_solver|]. apply elem_of_owned.
    exists y. split; [unfold idxs; rewrite Exy; set_solver|done]. }
  apply elem_of_cons in Hf as [->|Hf], Hg as [->|Hg]; auto.
  - by destruct (Hx g Hg).
  - by destruct (Hx f Hf).
Qed.

Lemma buf_inj f g : f ∈ fs -> g ∈ fs -> f_b f = f_b g -> f = g.
Proof.
  intros Hf Hg E. pose proof (vi_bufs _ _ _ _ _ _ I) as Hn.
  apply list_elem_of_lookup in Hf as [i Hi], Hg as [j Hj].
  assert (i = j) as ->; [|congruence]. eapply NoDup_lookup; [exact Hn| |]; rewrite list_lookup_fmap.
  - by rewrite Hi.
  - rewrite Hj. cbn. by rewrite E.
Qed.
End Facts.

(** ** The driver's and the device's steps keep it *)

(** A request's facts depend only on its own entries. *)
Lemma filled_ext d d' bufs bufs' st busy f :
  (forall i, i ∈ idxs f -> vd_desc d' !! i = vd_desc d !! i) ->
  vd_info d' !! f_i0 f = vd_info d !! f_i0 f -> vd_ops d' !! f_i0 f = vd_ops d !! f_i0 f ->
  bufs' !! f_b f = bufs !! f_b f -> filled d bufs st busy f -> filled d' bufs' st busy f.
Proof.
  intros Hd Hi Ho Hb [F0 F1 F2 F3 F4].
  split; rewrite ?Hi, ?Ho, ?Hb, ?Hd by (unfold idxs; set_solver); auto.
Qed.

Lemma posted_filled d bufs b w bf i0 i1 i2 :
  length (vd_desc d) = NUM -> length (vd_info d) = NUM -> length (vd_ops d) = NUM ->
  NoDup [i0; i1; i2] -> Forall (fun i => (i < NUM)%nat) [i0; i1; i2] -> bufs !! b = Some bf -> 0 <= b_blockno bf < 2 ^ 31 ->
  filled (posted b w (2 * b_blockno bf) i0 i1 i2 d) (<[b := bf <| b_disk := true |>]> bufs) 255 true (mkFrame b w i0 i1 i2).
Proof.
  intros J1 J3 J4 Hn Hlt Hb Hblk. rewrite !Forall_cons in Hlt. destruct Hlt as (L0 & L1 & L2 & _).
  assert (i0 <> i1 /\ i0 <> i2 /\ i1 <> i2) as (N01 & N02 & N12) by (rewrite !NoDup_cons in Hn; set_solver).
  split; cbn [f_i0 f_b f_w f_i1 f_i2 posted vd_desc vd_info vd_ops upd upd_vd_desc upd_vd_info upd_vd_ops upd_vd_avail
    upd_vd_avail_idx upd_vd_regs].
  - rewrite !list_lookup_insert_ne by done. apply list_lookup_insert_eq. lia.
  - rewrite list_lookup_insert_ne by done. apply list_lookup_insert_eq. rewrite length_insert. lia.
  - apply list_lookup_insert_eq. rewrite !length_insert. lia.
  - apply list_lookup_insert_eq. lia.
  - exists (bf <| b_disk := true |>). split; [|split; [exact Hblk|split; [done|]]].
    + apply list_lookup_insert_eq. by eapply lookup_lt_Some.
    + apply list_lookup_insert_eq. lia.
Qed.

Lemma vinv_submit d bufs fs A U D b w bf i0 i1 i2 :
  vinv d bufs fs A U D -> NoDup [i0; i1; i2] ->
  Forall (fun i => (i < NUM)%nat /\ vd_free d !! i = Some true) [i0; i1; i2] ->
  bufs !! b = Some bf -> 0 <= b_blockno bf < 2 ^ 31 -> b ∉ f_b <$> fs ->
  vinv (posted b w (2 * b_blockno bf) i0 i1 i2 (d <| vd_free ::= claim [i0; i1; i2] |>))
    (<[b := bf <| b_disk := true |>]> bufs) (mkFrame b w i0 i1 i2 :: fs) (A ++ [i0]) U D.
Proof.
  intros I Hn Hf Hb Hblk Hnb. pose proof (few_heads _ _ _ _ _ _ I) as Hfew.
  assert (forall i, i ∈ [i0; i1; i2] -> (i < NUM)%nat /\ i ∉ owned fs) as Hnew.
  { intros i Hi. rewrite Forall_forall in Hf. destruct (Hf i Hi) as [Hl Ht]. split; [done|].
    rewrite (vi_isfree _ _ _ _ _ _ I) in Ht by done. injection Ht as Ht. by apply bool_decide_eq_true in Ht. }
  assert (forall f i, f ∈ fs -> i ∈ idxs f -> i <> i0 /\ i <> i1 /\ i <> i2) as Hold.
  { intros f i Hfs Hi. pose proof (elem_idxs fs f i Hfs Hi) as H.
    split_and!; intros ->; [destruct (Hnew i0)|destruct (Hnew i1)|destruct (Hnew i2)]; set_solver. }
  assert (Forall (fun i => (i < NUM)%nat) [i0; i1; i2]) as Hlt by (apply Forall_forall; intros i Hi; by apply Hnew).
  assert (i0 ∉ A ++ vd_taken d ++ U ++ D) as Hh.
  { intros (f & Hfs & E)%(head_frame _ _ _ _ _ _ I). destruct (Hold f (f_i0 f) Hfs); [unfold idxs; set_solver|]. lia. }
  pose proof I as [J1 J2 J3 J4 J5 J6 J7 J8 J9 J10 J11 J12].
  split; cbn -[claim bool_decide decide elem_of]; rewrite ?length_insert; auto.
  - unfold claim. by rewrite length_imap.
  - rewrite owned_cons. apply NoDup_app. split_and!; [done| |done]. intros i Hi. by apply Hnew.
  - intros i. rewrite owned_cons, elem_of_app. intros [Hi|Hi]; [|by apply J6]. by apply Hnew.
  - intros i Hi. rewrite claim_lookup, J7 by done. cbn [fmap option_fmap option_map]. f_equal.
    rewrite owned_cons. change (idxs (mkFrame b w i0 i1 i2)) with [i0; i1; i2].
    case_decide as Hin.
    + symmetry. apply bool_decide_eq_false. rewrite elem_of_app. tauto.
    + apply bool_decide_ext. rewrite elem_of_app. tauto.
  - by apply NoDup_cons.
  - rewrite J9. by rewrite <- app_assoc, Permutation_middle.
  - rewrite fmap_app. apply (circ_push 8 (2 ^ 16)); [lia|apply div_8|done|]. rewrite length_fmap. lia.
  - intros f [->|Hfs]%elem_of_cons.
    + cbn [f_i0 f_b f_w f_i1 f_i2]. rewrite decide_True by set_solver. rewrite bool_decide_true by set_solver.
      by apply posted_filled.
    + assert (f_b f <> b) as Nb by (intros <-; apply Hnb; by apply list_elem_of_fmap_2).
      destruct (Hold f (f_i0 f) Hfs) as (M0 & M1 & M2); [unfold idxs; set_solver|].
      rewrite (decide_ext _ (f_i0 f ∈ A ++ vd_taken d)) by set_solver.
      eapply filled_ext; [| | | |by apply J12].
      * intros i Hi. destruct (Hold f i Hfs Hi) as (Q0 & Q1 & Q2). cbn. by rewrite !list_lookup_insert_ne.
      * cbn. by rewrite list_lookup_insert_ne.
      * cbn. by rewrite list_lookup_insert_ne.
      * by rewrite list_lookup_insert_ne.
Qed.

Lemma filter_out_perm (h : nat) l : NoDup l -> h ∈ l -> l ≡ₚ h :: filter (fun x => x <> h) l.
Proof.
  induction l as [|x l IH]; [set_solver|]. intros [Hx Hn]%NoDup_cons Hh. destruct (decide (x = h)) as [->|N].
  - rewrite filter_cons_False by naive_solver. by rewrite filter_ne_notin.
  - rewrite filter_cons_True by done. rewrite Permutation_swap. f_equiv. apply IH; [done|set_solver].
Qed.

(** The device takes the oldest head from the available ring. *)
Lemma vinv_take d bufs fs h A U D :
  vinv d bufs fs (h :: A) U D ->
  vinv (d <| vd_last ::= fun x => u16 (x + 1) |> <| vd_taken ::= fun l => l ++ [h] |>) bufs fs A U D.
Proof.
  intros [J1 J2 J3 J4 J5 J6 J7 J8 J9 J10 J11 J12]. split; cbn -[decide bool_decide elem_of]; auto.
  - rewrite J9. cbn. rewrite <- app_assoc. by rewrite Permutation_middle, (Permutation_middle _ _ h).
  - by apply circ_pop in J10 as [_ J10]; [|lia|apply div_8].
  - intros f Hf. rewrite (decide_ext _ (f_i0 f ∈ (h :: A) ++ vd_taken d)) by set_solver.
    eapply filled_ext; [..|by apply J12]; done.
Qed.

(** The device completes a request: its data may have been read in. *)
Lemma vinv_complete d bufs fs A U D f bufs' :
  vinv d bufs fs A U D -> f ∈ fs -> f_i0 f ∈ vd_taken d ->
  (forall j, j <> f_b f -> bufs' !! j = bufs !! j) ->
  (forall bf, bufs !! f_b f = Some bf -> exists dat, bufs' !! f_b f = Some (bf <| b_data := dat |>)) ->
  vinv (d <| vd_info ::= alter (fun x => x <| in_status := 0 |>) (f_i0 f) |>
      <| vd_used := <[Z.to_nat (vd_dev_idx d mod 8) := Z.of_nat (f_i0 f)]> (vd_used d) |>
      <| vd_dev_idx ::= fun x => u16 (x + 1) |> <| vd_taken ::= filter (fun x => x <> f_i0 f) |>)
    bufs' fs A (U ++ [f_i0 f]) D.
Proof.
  intros I Hf Ht Hb1 Hb2. pose proof (few_heads _ _ _ _ _ _ I) as Hfew. pose proof (heads_nodup _ _ _ _ _ _ I) as Hnd.
  pose proof I as [J1 J2 J3 J4 J5 J6 J7 J8 J9 J10 J11 J12].
  assert (f_i0 f ∉ A /\ f_i0 f ∉ U /\ f_i0 f ∉ D) as (HA & HU & HD).
  { apply NoDup_app in Hnd as (_ & H1 & Hnd). apply NoDup_app in Hnd as (_ & H2 & _). set_solver. }
  assert (NoDup (vd_taken d)) as HT.
  { apply NoDup_app in Hnd as (_ & _ & Hnd). by apply NoDup_app in Hnd as (H & _). }
  split; cbn -[decide bool_decide elem_of filter alter]; rewrite ?length_alter; auto.
  - rewrite J9, (filter_out_perm (f_i0 f) (vd_taken d)) at 1 by done. rewrite <- !app_assoc.
    apply Permutation_app_head. cbn. rewrite !app_assoc. apply Permutation_middle.
  - rewrite fmap_app. apply (circ_push 8 (2 ^ 16)); [lia|apply div_8|done|]. rewrite length_fmap. lia.
  - intros g Hg. pose proof (J12 g Hg) as F. destruct (decide (g = f)) as [->|Ngf].
    + rewrite decide_True in F by set_solver.
      rewrite decide_False by (rewrite elem_of_app, list_elem_of_filter; tauto).
      destruct F as [F0 F1 F2 F3 (bf & F4 & F5 & F6 & F7)]. split; auto.
      * cbn. by rewrite list_lookup_alter_eq, F3.
      * destruct (Hb2 bf F4) as [dat Hd]. exists (bf <| b_data := dat |>). done.
    + assert (f_i0 g <> f_i0 f) as Nh by (intros E; by apply Ngf, (head_inj _ _ _ _ _ _ I)).
      rewrite (decide_ext _ (f_i0 g ∈ A ++ vd_taken d)) by (rewrite !elem_of_app, list_elem_of_filter; tauto).
      eapply filled_ext; [..|exact F]; try done.
      * cbn. by rewrite list_lookup_alter_ne.
      * apply Hb1. intros E. by apply Ngf, (buf_inj _ _ _ _ _ _ I).
Qed.

(** virtio_disk_intr() sees the oldest entry of the used ring. *)
Lemma vinv_intr d bufs fs A h U D f bf :
  vinv d bufs fs A (h :: U) D -> f ∈ fs -> f_i0 f = h -> bufs !! f_b f = Some bf ->
  vinv (d <| vd_used_idx ::= fun x => u16 (x + 1) |>) (<[f_b f := bf <| b_disk := false |>]> bufs) fs A U (D ++ [h]).
Proof.
  intros I Hf Hh Hb. pose proof (heads_nodup _ _ _ _ _ _ I) as Hnd.
  pose proof I as [J1 J2 J3 J4 J5 J6 J7 J8 J9 J10 J11 J12].
  assert (h ∉ A ++ vd_taken d) as HA.
  { rewrite app_assoc in Hnd. apply NoDup_app in Hnd as (_ & Hnd & _). intros H. apply (Hnd h H). set_solver. }
  split; cbn -[decide bool_decide elem_of]; auto.
  - rewrite J9. do 2 apply Permutation_app_head. cbn. by rewrite app_assoc, <- Permutation_cons_append.
  - by apply circ_pop in J11 as [_ J11]; [|lia|apply div_8].
  - intros g Hg. pose proof (J12 g Hg) as F. destruct (decide (g = f)) as [->|Ngf].
    + rewrite Hh in *. rewrite bool_decide_false by set_solver.
      destruct F as [F0 F1 F2 F3 (bf' & F4 & F5 & F6 & F7)]. rewrite Hh in *. split; rewrite ?Hh; auto.
      rewrite Hb in F4. injection F4 as <-. exists (bf <| b_disk := false |>). split_and!; [|apply F5..|done|done].
      apply list_lookup_insert_eq. by eapply lookup_lt_Some.
    + assert (f_i0 g <> h) as Nh by (intros E; apply Ngf, (head_inj _ _ _ _ _ _ I); congruence).
      rewrite (bool_decide_ext (f_i0 g ∉ D ++ [h]) (f_i0 g ∉ D)) by set_solver.
      eapply filled_ext; [..|exact F]; try done.
      rewrite list_lookup_insert_ne; [done|]. intros E. by apply Ngf, (buf_inj _ _ _ _ _ _ I).
Qed.

(** A process whose request is done frees the descriptors. *)
Lemma vinv_finish d bufs fs1 f fs2 A U D x :
  vinv d bufs (fs1 ++ f :: fs2) A U D -> f_i0 f ∈ D ->
  vinv (freed (f_i2 f) (freed (f_i1 f) (freed (f_i0 f) (d <| vd_info ::= <[f_i0 f := x]> |>)))) bufs (fs1 ++ fs2)
    A U (filter (fun h => h <> f_i0 f) D).
Proof.
  intros I HD. pose proof (heads_nodup _ _ _ _ _ _ I) as Hnd. pose proof I as [J1 J2 J3 J4 J5 J6 J7 J8 J9 J10 J11 J12].
  assert (NoDup D) as HnD by (by rewrite !app_assoc in Hnd; apply NoDup_app in Hnd as (_ & _ & Hnd)).
  assert (fs1 ++ f :: fs2 ≡ₚ f :: fs1 ++ fs2) as P by (symmetry; apply Permutation_middle).
  assert (owned (fs1 ++ f :: fs2) ≡ₚ idxs f ++ owned (fs1 ++ fs2)) as PO.
  { rewrite !owned_app, owned_cons. rewrite !app_assoc. apply Permutation_app_tail, Permutation_app_comm. }
  rewrite PO in J5. apply NoDup_app in J5 as (Hni & Hdis & Hno).
  assert (forall i, i ∈ owned (fs1 ++ f :: fs2) <-> i ∈ idxs f \/ i ∈ owned (fs1 ++ fs2)) as HO.
  { intros i. by rewrite PO, elem_of_app. }
  assert (forall i, i ∈ idxs f -> (i < NUM)%nat) as Hlt by (intros i Hi; apply J6, HO; by left).
  split; cbn -[decide bool_decide elem_of filter]; rewrite ?length_insert; auto.
  - intros i Hi. apply J6, HO. by right.
  - intros i Hi. assert (i ∈ idxs f \/ i ∉ idxs f) as [Hf|Hf] by (destruct (decide (i ∈ idxs f)); tauto).
    + rewrite bool_decide_true by (by apply Hdis). unfold idxs in Hf.
      destruct (decide (i = f_i2 f)) as [->|N2]; [apply list_lookup_insert_eq; by rewrite !length_insert, J2|].
      rewrite list_lookup_insert_ne by done.
      destruct (decide (i = f_i1 f)) as [->|N1]; [apply list_lookup_insert_eq; by rewrite !length_insert, J2|].
      rewrite list_lookup_insert_ne by done.
      assert (i = f_i0 f) as -> by set_solver. apply list_lookup_insert_eq. by rewrite J2.
    + rewrite !list_lookup_insert_ne by (intros <-; apply Hf; unfold idxs; set_solver).
      rewrite J7 by done. f_equal. apply bool_decide_ext. rewrite HO. tauto.
  - rewrite P in J8. cbn in J8. by apply NoDup_cons in J8 as [_ J8].
  - rewrite P in J9. cbn in J9. rewrite (filter_out_perm (f_i0 f) D) in J9 by done.
    apply (Permutation_cons_inv (a := f_i0 f)). rewrite J9. rewrite !app_assoc. symmetry. apply Permutation_middle.
  - intros g Hg. assert (g ∈ fs1 ++ f :: fs2) as Hg' by (rewrite P; set_solver).
    assert (forall i, i ∈ idxs g -> i ∉ idxs f) as Hgf.
    { intros i Hi Hi'. apply (Hdis i Hi'), elem_of_owned. eauto. }
    assert (f_i0 g <> f_i0 f) as Nh by (intros E; apply (Hgf (f_i0 g)); unfold idxs; rewrite ?E; set_solver).
    rewrite (bool_decide_ext _ (f_i0 g ∉ D)) by (rewrite list_elem_of_filter; tauto).
    eapply filled_ext; [..|by apply J12]; try done.
    + intros i Hi. cbn. by rewrite !list_lookup_insert_ne by (intros <-; apply (Hgf _ Hi); unfold idxs; set_solver).
    + cbn. by rewrite list_lookup_insert_ne.
Qed.
