(* ===== verification/VirtioSys.v ===== *)
(** Processes, the device and the interrupt handler on the disk driver.

    [step] interleaves the critical sections of virtio_disk_rw(), the interrupt
    handler, the device and the rest of the kernel; a configuration is the
    kernel state and the processes waiting inside virtio_disk_rw().  The driver
    refines [astep], a disk on which a request is carried out, once, by the
    step [Bio.disk_transfer], at some time between its submission and the
    return of virtio_disk_rw(). *)

From S2P Require Import Prelude Layout Kernel Sched Kalloc Bio Cache Virtio Circ VirtioSpec VirtioProof.

(** ** Critical sections *)

Definition locked {A} (m : K A) : K A :=
  acquire LkVdisk ;; let* r := m in release LkVdisk ;; ret r.

(** virtio_disk_rw() up to its wait for the interrupt: [None] if it has to
    wait for descriptors first. *)
Definition try_submit (b : nat) (w : bool) : K (option frame) :=
  let* bf := get_buf b in
  let sector := u32 (b_blockno bf * (BSIZE / 512)) in
  locked (
    let* r := alloc3_desc in
    match r with
    | Some [i0; i1; i2] =>
        rw_post b w sector i0 i1 i2 ;;
        ret (Some (mkFrame b w (Z.to_nat i0) (Z.to_nat i1) (Z.to_nat i2)))
    | _ => ret None
    end).

(** ... and from there on. *)
Definition finish (f : frame) : K unit := locked (rw_finish (Z.of_nat (f_i0 f))).

Definition config : Type := kernel * list frame.

Inductive label : Type :=
| Submit (f : frame)
| Finish (f : frame)
| Device
| Tau.

Section System.
Variable R : list (Z * Z) -> Z -> Z.
Variable device : kernel -> kernel -> Prop.

Inductive step : config -> label -> config -> Prop :=
| st_submit s fs b w bf f s' e :
    k_bufs s !! b = Some bf -> 0 <= b_blockno bf < 2 ^ 31 -> b ∉ f_b <$> fs ->
    try_submit b w (mkWorld s e) = Ok (Some f) (mkWorld s' e) ->
    step (s, fs) (Submit f) (s', f :: fs)
| st_full s fs b w bf s' e :
    k_bufs s !! b = Some bf -> 0 <= b_blockno bf < 2 ^ 31 -> b ∉ f_b <$> fs ->
    try_submit b w (mkWorld s e) = Ok None (mkWorld s' e) ->
    step (s, fs) Tau (s', fs)
| st_device s fs s' :
    device s s' -> step (s, fs) Device (s', fs)
| st_intr s fs s' e :
    virtio_disk_intr R (mkWorld s e) = Ok tt (mkWorld s' e) -> step (s, fs) Tau (s', fs)
| st_finish s fs1 f fs2 bf s' e :
    k_bufs s !! f_b f = Some bf -> b_disk bf = false ->
    finish f (mkWorld s e) = Ok tt (mkWorld s' e) ->
    step (s, fs1 ++ f :: fs2) (Finish f) (s', fs1 ++ fs2)
| st_other s fs s' :
    (** other kernel code: it owns neither the driver's tables nor the buffers
        in flight *)
    k_vdisk s' = k_vdisk s -> k_disk s' = k_disk s -> k_writes s' = k_writes s ->
    (forall f, f ∈ fs -> k_bufs s' !! f_b f = k_bufs s !! f_b f) ->
    k_held s' = [] -> length (k_procs s') = NPROC ->
    step (s, fs) Tau (s', fs).

(** At boot virtio_disk_init() has returned, and no request has been made. *)
Definition initial (c : config) : Prop :=
  c.2 = [] /\ exists s0 e, k_vdisk s0 = zero_vdisk /\ k_held s0 = [] /\ length (k_procs s0) = NPROC /\
    virtio_disk_init R (mkWorld s0 e) = Ok tt (mkWorld c.1 e).

Definition reached (c : config) : Prop :=
  exists c0, initial c0 /\ rtc (fun a b => exists l, step a l b) c0 c.
End System.

(** The device does what the virtio specification documents. *)
Definition documented (device : kernel -> kernel -> Prop) : Prop :=
  forall s s', device s s' -> dev_take s = Some s' \/ exists h, dev_complete h s = Some s'.

(** ** The abstract disk *)

(** What a client of the driver sees. *)
Definition vis (s : kernel) : (Z -> block) * list (Z * block) * list (Z * block) :=
  (k_disk s, k_writes s, (fun b => (b_blockno b, b_data b)) <$> k_bufs s).

(** The requests in flight, and whether their transfer has happened. *)
Inductive astep : kernel * list (frame * bool) -> label -> kernel * list (frame * bool) -> Prop :=
| as_submit s s' rs f :
    vis s' = vis s -> f_b f ∉ (fun r => f_b r.1) <$> rs ->
    astep (s, rs) (Submit f) (s', (f, false) :: rs)
| as_stutter s s' rs : vis s' = vis s -> astep (s, rs) Device (s', rs)
| as_transfer s s1 s' r1 f r2 :
    disk_transfer (f_b f) (f_w f) (mkWorld s []) = Ok tt (mkWorld s1 []) -> vis s' = vis s1 ->
    astep (s, r1 ++ (f, false) :: r2) Device (s', r1 ++ (f, true) :: r2)
| as_finish s s' r1 f r2 :
    vis s' = vis s -> astep (s, r1 ++ (f, true) :: r2) (Finish f) (s', r1 ++ r2)
| as_tau s s' rs :
    k_disk s' = k_disk s -> k_writes s' = k_writes s ->
    (forall r, r ∈ rs -> (vis s').2 !! f_b r.1 = (vis s).2 !! f_b r.1) ->
    astep (s, rs) Tau (s', rs).

(** The device has written the status byte of [f]. *)
Definition transferred (s : kernel) (f : frame) : bool :=
  match vd_info (k_vdisk s) !! f_i0 f with Some x => in_status x =? 0 | None => false end.
Definition abs (c : config) : kernel * list (frame * bool) :=
  (c.1, (fun f => (f, transferred c.1 f)) <$> c.2).

(** ** The invariant of the system *)

Definition sysinv (c : config) : Prop :=
  k_held c.1 = [] /\ length (k_procs c.1) = NPROC /\
  exists A U D, vinv (k_vdisk c.1) (k_bufs c.1) c.2 A U D.

(** *** virtio_disk_init() *)

(** No request: empty rings and clear descriptors. *)
Record quiet (w : world) : Prop := {
  qu_held : k_held (w_k w) = [];
  qu_procs : length (k_procs (w_k w)) = NPROC;
  qu_desc : vd_desc (k_vdisk (w_k w)) = replicate NUM (mkDesc VNull 0 0 0);
  qu_info : length (vd_info (k_vdisk (w_k w))) = NUM;
  qu_ops : length (vd_ops (k_vdisk (w_k w))) = NUM;
  qu_avail : vd_avail (k_vdisk (w_k w)) = replicate NUM 0;
  qu_used : vd_used (k_vdisk (w_k w)) = replicate NUM 0;
  qu_idx : vd_avail_idx (k_vdisk (w_k w)) = 0 /\ vd_last (k_vdisk (w_k w)) = 0 /\
    vd_dev_idx (k_vdisk (w_k w)) = 0 /\ vd_used_idx (k_vdisk (w_k w)) = 0;
  qu_taken : vd_taken (k_vdisk (w_k w)) = [];
}.

Definition keeps_quiet {A} (m : K A) : Prop := hoare quiet m (fun _ => quiet).

Lemma kq_bind {A B} (m : K A) (k : A -> K B) : keeps_quiet m -> (forall a, keeps_quiet (k a)) -> keeps_quiet (bind m k).
Proof. intros Hm Hk w Hw b w' (a & w1 & H1 & H2)%bind_inv. eapply Hk; [|exact H2]. by eapply Hm. Qed.
Lemma kq_if {A} (b : bool) (m1 m2 : K A) : keeps_quiet m1 -> keeps_quiet m2 -> keeps_quiet (if b then m1 else m2).
Proof. by destruct b. Qed.
Lemma kq_panic {A} msg : keeps_quiet (panic (A := A) msg).
Proof. by intros w Hw a w' [=]. Qed.
Lemma kq_read R r : keeps_quiet (mmio_read R r).
Proof. intros w Hw a w' [= _ <-]. done. Qed.
Lemma kq_write r v : keeps_quiet (mmio_write r v).
Proof. intros w [? ? ? ? ? ? ? ? ?] a w' [= _ <-]. by split. Qed.
Lemma kq_mem f : keeps_quiet (mod_mem f).
Proof. intros w [? ? ? ? ? ? ? ? ?] a w' [= _ <-]. by split. Qed.
Lemma kq_kalloc : keeps_quiet kalloc.
Proof.
  intros w Hw a w'. rewrite kalloc_ok by (rewrite (qu_held w Hw); set_solver). case_match; intros [= _ <-]; [done|].
  destruct Hw. by split.
Qed.
Lemma kq_rings : keeps_quiet (mod_vd (fun d => d <| vd_desc := replicate NUM (mkDesc VNull 0 0 0) |>
      <| vd_avail_idx := 0 |> <| vd_avail := replicate NUM 0 |>
      <| vd_dev_idx := 0 |> <| vd_used := replicate NUM 0 |>)).
Proof. intros w [? ? ? ? ? ? ? (? & ? & ? & ?) ?] a w' [= _ <-]. by split. Qed.
Lemma kq_free : keeps_quiet (mod_vd (fun d => d <| vd_free := replicate NUM true |>)).
Proof. intros w [? ? ? ? ? ? ? ? ?] a w' [= _ <-]. by split. Qed.

Create HintDb quiet.
#[export] Hint Resolve kq_panic kq_read kq_write kq_mem kq_kalloc kq_rings kq_free : quiet.
Ltac kq := repeat first [solve [eauto with quiet] | apply kq_bind; [|intros ?] | apply kq_if].

Lemma kq_queues : keeps_quiet init_queues.
Proof. unfold init_queues. kq. Qed.
#[export] Hint Resolve kq_queues : quiet.

Lemma virtio_disk_init_quiet R : keeps_quiet (virtio_disk_init R).
Proof. unfold virtio_disk_init. kq. Qed.

Lemma virtio_disk_init_free R w w' : virtio_disk_init R w = Ok tt w' -> vd_free (k_vdisk (w_k w')) = replicate NUM true.
Proof.
  unfold virtio_disk_init. intros H.
  repeat first
    [ apply bind_inv in H; destruct H as (? & ? & ? & H)
    | match type of H with (if ?b then panic _ else _) _ = _ => destruct b; [discriminate H|] end ].
  injection H as <-. match goal with H : mod_vd _ _ = Ok _ _ |- _ => by injection H as _ <- end.
Qed.

Lemma initial_inv R c : initial R c -> sysinv c.
Proof.
  intros (E & s0 & e & Ez & Eh & El & H). assert (quiet (mkWorld s0 e)) as Q by (split; cbn; by rewrite ?Ez).
  apply virtio_disk_init_free in H as Ef. eapply virtio_disk_init_quiet in H; [|done]. cbn [w_k] in Ef.
  destruct H as [Hh Hl Ed Hi Ho Ea Eu (E1 & E2 & E3 & E4) Et]. cbn [w_k] in *. split_and!; auto.
  exists [], [], []. rewrite E. split; rewrite ?Ed, ?Ef, ?Et; auto.
  - apply NoDup_nil_2.
  - intros i Hi'%elem_of_nil. done.
  - intros i Hl'. rewrite lookup_replicate_2, bool_decide_true; [done|apply not_elem_of_nil|done].
  - apply NoDup_nil_2.
  - rewrite Ea, E1, E2. by split.
  - rewrite Eu, E3, E4. by split.
  - intros f Hf%elem_of_nil. done.
Qed.

(** [s] with the parts the driver changes. *)
Definition vput (s : kernel) (d : vdisk) (bufs : list buf) (ps : list proc) : kernel :=
  s <| k_bufs := bufs |> <| k_vdisk := d |> <| k_procs := ps |>.

(** Running a critical section, with the driver's view of the state. *)
Lemma locked_run {A} (m : K A) s e a d' bufs' ps' :
  k_held s = [] ->
  m (V (s <| k_held := [LkVdisk] |>) e (k_vdisk s) (k_bufs s) (k_procs s)) =
    Ok a (V (s <| k_held := [LkVdisk] |>) e d' bufs' ps') ->
  locked m (mkWorld s e) = Ok a (mkWorld (vput s d' bufs' ps') e).
Proof.
  intros Hh E. unfold locked. kstep. eapply run_bind.
  { etrans; [|exact E]. f_equal. unfold V, kmod. cbn [w_k w_env]. f_equal. destruct s; cbn in *. by subst. }
  eapply run_bind; [apply release_ok; cbn; set_solver|]. unfold ret. f_equal. unfold kmod, V. cbn [w_k w_env]. f_equal.
  destruct s; cbn in *. by subst.
Qed.

Lemma transferred_spec s fs A U D f :
  vinv (k_vdisk s) (k_bufs s) fs A U D -> f ∈ fs ->
  transferred s f = bool_decide (f_i0 f ∉ A ++ vd_taken (k_vdisk s)).
Proof.
  intros I Hf. pose proof (vi_frame _ _ _ _ _ _ I f Hf) as F. unfold transferred. rewrite (fi_info _ _ _ _ _ F). cbn [in_status].
  case_decide; [by rewrite bool_decide_false by tauto|by rewrite bool_decide_true].
Qed.

Lemma vis_bufs (b : nat) bf bf' (bufs : list buf) :
  bufs !! b = Some bf -> b_blockno bf' = b_blockno bf -> b_data bf' = b_data bf ->
  (fun x => (b_blockno x, b_data x)) <$> <[b := bf']> bufs = (fun x => (b_blockno x, b_data x)) <$> bufs.
Proof.
  intros Hb E1 E2. rewrite list_fmap_insert. apply list_insert_id. rewrite list_lookup_fmap, Hb. cbn. by rewrite E1, E2.
Qed.

Lemma vinv_wipe d bufs fs A U D l :
  vinv d bufs fs A U D -> Forall (fun i => vd_free d !! i = Some true) l -> vinv (d <| vd_desc ::= wipe l |>) bufs fs A U D.
Proof.
  intros I Hl. rewrite Forall_forall in Hl. pose proof I as [J1 J2 J3 J4 J5 J6 J7 J8 J9 J10 J11 J12].
  split; cbn -[wipe decide bool_decide]; auto; [by unfold wipe; rewrite length_imap|].
  intros f Hf. eapply filled_ext; [..|by apply J12]; try done. intros i Hi. cbn -[wipe].
  unfold wipe. rewrite list_lookup_imap. destruct (vd_desc d !! i) as [x|]; [|done]. cbn. rewrite decide_False; [done|].
  intros Hin. specialize (Hl i Hin). pose proof (frame_free _ _ _ _ _ _ I f Hf) as Hfr. rewrite Forall_forall in Hfr.
  destruct (Hfr i Hi). congruence.
Qed.

(** The driver's own steps and the device's never change what clients see of
    another request. *)
Definition same_done (s s' : kernel) (fs : list frame) : Prop :=
  forall g, g ∈ fs -> transferred s' g = transferred s g.

Lemma try_submit_run s fs e b w bf :
  sysinv (s, fs) -> k_bufs s !! b = Some bf -> 0 <= b_blockno bf < 2 ^ 31 -> b ∉ f_b <$> fs ->
  (exists f s', try_submit b w (mkWorld s e) = Ok (Some f) (mkWorld s' e) /\ sysinv (s', f :: fs) /\
     vis s' = vis s /\ f_b f = b /\ f_w f = w /\ transferred s' f = false /\ same_done s s' fs) \/
  (exists s', try_submit b w (mkWorld s e) = Ok None (mkWorld s' e) /\ sysinv (s', fs) /\
     vis s' = vis s /\ same_done s s' fs).
Proof.
  intros (Hh & Hp & A & U & D & I) Hb Hblk Hnb. cbn [fst snd] in *.
  assert (u32 (b_blockno bf * (BSIZE / 512)) = 2 * b_blockno bf) as Es.
  { change (BSIZE / 512) with 2. rewrite u32_small by lia. lia. }
  set (s0 := s <| k_held := [LkVdisk] |>). unfold try_submit.
  destruct (alloc3_ok s0 e eq_refl (k_vdisk s) (k_bufs s) (k_procs s)) as
    [(i0 & i1 & i2 & Hn & Hf & E)|(l & ps' & Hl & Hf & E)]; [apply I|apply I|done| |].
  - left. assert (Forall (fun i => (i < NUM)%nat) [i0; i1; i2]) as Hlt.
    { eapply Forall_impl; [exact Hf|]. naive_solver. }
    set (s' := vput s (posted b w (2 * b_blockno bf) i0 i1 i2 ((k_vdisk s) <| vd_free ::= claim [i0; i1; i2] |>))
      (<[b := bf <| b_disk := true |>]> (k_bufs s)) (k_procs s)).
    assert (vinv (k_vdisk s') (k_bufs s') (mkFrame b w i0 i1 i2 :: fs) (A ++ [i0]) U D) as I'
      by exact (vinv_submit _ _ _ _ _ _ b w bf i0 i1 i2 I Hn Hf Hb Hblk Hnb).
    exists (mkFrame b w i0 i1 i2), s'. split; [|split_and!].
    + eapply run_bind; [by apply get_buf_ok|]. apply locked_run; [done|]. eapply run_bind; [exact E|]. cbn iota.
      eapply run_bind; [eapply rw_post_ok; [done..|apply I|apply I|apply I|exact Hb]|].
      rewrite !Nat2Z.id, Es. reflexivity.
    + split_and!; [done|done|]. exists (A ++ [i0]), U, D. exact I'.
    + unfold vis. cbn. f_equal. by apply (vis_bufs b bf).
    + done.
    + done.
    + rewrite (transferred_spec _ _ _ _ _ _ I') by set_solver. apply bool_decide_eq_false. cbn. set_solver.
    + intros g Hg. rewrite (transferred_spec _ _ _ _ _ _ I'), (transferred_spec _ _ _ _ _ _ I) by set_solver.
      apply bool_decide_ext. cbn. assert (f_i0 g <> i0); [|set_solver]. intros Eg.
      assert (g = mkFrame b w i0 i1 i2) as -> by (apply (head_inj _ _ _ _ _ _ I'); set_solver).
      apply Hnb. apply (list_elem_of_fmap_2 f_b _ _ Hg).
  - right. pose proof (vinv_wipe _ _ _ _ _ _ l I Hf) as I'. eexists. split; [|split_and!].
    + eapply run_bind; [by apply get_buf_ok|]. apply locked_run; [done|]. eapply run_bind; [exact E|]. reflexivity.
    + split_and!; [done|done|]. exists A, U, D. exact I'.
    + done.
    + done.
Qed.

(** The interrupt handler's loop empties the used ring. *)
Lemma intr_loop_run s0 e fs A (Hh : k_held s0 = [LkVdisk]) : forall U D d bufs ps,
  vinv d bufs fs A U D -> length ps = NPROC ->
  exists d' bufs' ps', intr_loop (length U) (V s0 e d bufs ps) = Ok tt (V s0 e d' bufs' ps') /\
    length ps' = NPROC /\ vinv d' bufs' fs A [] (D ++ U) /\ vd_info d' = vd_info d /\
    (fun x => (b_blockno x, b_data x)) <$> bufs' = (fun x => (b_blockno x, b_data x)) <$> bufs.
Proof.
  induction U as [|h U IH]; intros D d bufs ps I Hl.
  - exists d, bufs, ps. rewrite app_nil_r. split_and!; try done. cbn [length intr_loop].
    eapply run_bind; [reflexivity|]. change (k_vdisk _) with d.
    by rewrite (circ_empty 8 (2 ^ 16) ltac:(lia) _ _ _ _ (vi_used _ _ _ _ _ _ I)).
  - destruct (head_frame _ _ _ _ _ _ I h) as (f & Hf & Eh); [set_solver|].
    pose proof (vi_frame _ _ _ _ _ _ I f Hf) as [_ _ _ F3 (bf & F4 & _)].
    pose proof (vi_used _ _ _ _ _ _ I) as C. cbn [fmap list_fmap] in C.
    assert (f_i0 f ∉ A ++ vd_taken d) as Hn.
    { pose proof (heads_nodup _ _ _ _ _ _ I) as Hnd. rewrite app_assoc in Hnd. apply NoDup_app in Hnd as (_ & Hnd & _).
      rewrite Eh. intros H. apply (Hnd h H). set_solver. }
    rewrite decide_False, Eh in F3 by done.
    pose proof (circ_pop 8 (2 ^ 16) ltac:(lia) ltac:(apply div_8) _ _ _ _ _ C) as [Hu _].
    destruct (intr_one_ok s0 e Hh h (f_b f) bf _ d bufs ps (proj1 (ci_lo _ _ _ _ _ _ C)) Hu F3 eq_refl eq_refl F4 Hl)
      as (ps1 & Hl1 & E1).
    destruct (IH _ _ _ _ (vinv_intr _ _ _ _ _ _ _ f bf I Hf Eh F4) Hl1) as (d' & bufs' & ps' & E2 & Hl2 & I2 & Ei & Eb).
    exists d', bufs', ps'. rewrite <- app_assoc in I2. split_and!; [|done|exact I2|done|].
    + cbn [length intr_loop]. eapply run_bind; [reflexivity|]. change (k_vdisk _) with d.
      rewrite (circ_empty 8 (2 ^ 16) ltac:(lia) _ _ _ _ C).
      rewrite bool_decide_false by done. eapply run_bind; [exact E1|exact E2].
    + rewrite Eb. by apply (vis_bufs (f_b f) bf).
Qed.

Lemma vinv_regs d bufs fs A U D g : vinv d bufs fs A U D -> vinv (d <| vd_regs ::= g |>) bufs fs A U D.
Proof.
  intros [J1 J2 J3 J4 J5 J6 J7 J8 J9 J10 J11 J12]. split; auto. intros f Hf. eapply filled_ext; [..|by apply J12]; done.
Qed.

Lemma virtio_disk_intr_run R s fs e :
  sysinv (s, fs) ->
  exists s', virtio_disk_intr R (mkWorld s e) = Ok tt (mkWorld s' e) /\ sysinv (s', fs) /\ vis s' = vis s /\
    same_done s s' fs /\
    forall f bf, f ∈ fs -> transferred s f = true -> k_bufs s' !! f_b f = Some bf -> b_disk bf = false.
Proof.
  intros (Hh & Hp & A & U & D & I). cbn [fst snd] in *.
  set (g := fun l : list (Z * Z) => l ++ [(VIRTIO_MMIO_INTERRUPT_ACK,
    u32 (Z.land (u32 (R (vd_regs (k_vdisk s)) VIRTIO_MMIO_INTERRUPT_STATUS)) 3))]).
  assert (k_held (s <| k_held := [LkVdisk] |>) = [LkVdisk]) as H0 by done.
  destruct (intr_loop_run (s <| k_held := [LkVdisk] |>) e fs A H0 U D _ _ _ (vinv_regs _ _ _ _ _ _ g I) Hp)
    as (d' & bufs' & ps' & E & Hl & I' & Ei & Eb).
  exists (vput s d' bufs' ps'). split; [|split; [split_and!; [done|done|]|split_and!]].
  - assert (locked (
      let* st := mmio_read R VIRTIO_MMIO_INTERRUPT_STATUS in
      mmio_write VIRTIO_MMIO_INTERRUPT_ACK (Z.land st 0x3) ;;
      let* d := gets k_vdisk in
      intr_loop (Z.to_nat (u16 (vd_dev_idx d - vd_used_idx d)))) (mkWorld s e) = Ok tt (mkWorld (vput s d' bufs' ps') e)) as H.
    { apply locked_run; [done|]. eapply run_bind; [reflexivity|]. eapply run_bind; [reflexivity|].
      eapply run_bind; [reflexivity|]. etrans; [|exact E].
      pose proof (circ_count 8 (2 ^ 16) ltac:(lia) _ _ _ _ (vi_used _ _ _ _ _ _ I)) as C. rewrite length_fmap in C.
      change (vd_dev_idx _) with (vd_dev_idx (k_vdisk s)). change (vd_used_idx _) with (vd_used_idx (k_vdisk s)).
      unfold u16. rewrite C, Nat2Z.id. reflexivity. }
    clear E. revert H. unfold virtio_disk_intr, locked, bind. destruct (acquire LkVdisk _) as [[] w1| | | |]; try done.
    destruct (mmio_read _ _ _) as [st w2| | | |]; try done. destruct (mmio_write _ _ _) as [[] w3| | | |]; try done.
    destruct (gets k_vdisk w3) as [dd w4| | | |]; try done.
    destruct (intr_loop (Z.to_nat (u16 (vd_dev_idx dd - vd_used_idx dd))) w4) as [[] w5| | | |]; try done.
    by destruct (release LkVdisk w5) as [[] w6| | | |].
  - exists A, [], (D ++ U). exact I'.
  - unfold vis. cbn. by rewrite Eb.
  - intros f Hf. unfold transferred. cbn. by rewrite Ei.
  - intros f bf Hf Ht Hb. rewrite (transferred_spec _ _ _ _ _ _ I Hf) in Ht. apply bool_decide_eq_true in Ht.
    pose proof (vi_frame _ _ _ _ _ _ I' f Hf) as [_ _ _ _ (bf' & F4 & _ & F6 & _)]. cbn in Hb. rewrite Hb in F4.
    injection F4 as <-. rewrite F6. apply bool_decide_eq_false. intros Hn. apply Hn.
    pose proof (list_elem_of_fmap_2 f_i0 _ _ Hf) as Hin. rewrite (vi_heads _ _ _ _ _ _ I) in Hin. set_solver.
Qed.

Lemma filled_busy s fs A U D f bf :
  vinv (k_vdisk s) (k_bufs s) fs A U D -> f ∈ fs -> k_bufs s !! f_b f = Some bf -> b_disk bf = bool_decide (f_i0 f ∉ D).
Proof.
  intros I Hf Hb. pose proof (vi_frame _ _ _ _ _ _ I f Hf) as [_ _ _ _ (bf' & F4 & _ & F6 & _)].
  rewrite Hb in F4. by injection F4 as <-.
Qed.

Lemma finish_run s fs1 f fs2 e bf :
  sysinv (s, fs1 ++ f :: fs2) -> k_bufs s !! f_b f = Some bf -> b_disk bf = false ->
  transferred s f = true /\
  exists s', finish f (mkWorld s e) = Ok tt (mkWorld s' e) /\ sysinv (s', fs1 ++ fs2) /\ vis s' = vis s /\
    same_done s s' (fs1 ++ fs2).
Proof.
  intros (Hh & Hp & A & U & D & I) Hb Hd. cbn [fst snd] in *.
  assert (f ∈ fs1 ++ f :: fs2) as Hf by set_solver.
  assert (f_i0 f ∈ D) as HD.
  { rewrite (filled_busy _ _ _ _ _ _ _ I Hf Hb) in Hd. apply bool_decide_eq_false in Hd.
    destruct (decide (f_i0 f ∈ D)); tauto. }
  pose proof (heads_nodup _ _ _ _ _ _ I) as Hnd. rewrite app_assoc in Hnd. apply NoDup_app in Hnd as (_ & Hnd & _).
  split.
  { rewrite (transferred_spec _ _ _ _ _ _ I Hf). apply bool_decide_eq_true. intros H. apply (Hnd _ H). set_solver. }
  pose proof (vi_frame _ _ _ _ _ _ I f Hf) as [F0 F1 F2 F3 _].
  set (s0 := s <| k_held := [LkVdisk] |>).
  set (x := mkInfo None (if decide (f_i0 f ∈ A ++ vd_taken (k_vdisk s)) then 255 else 0)).
  destruct (free_chain_ok s0 e eq_refl (f_b f) (f_w f) (f_i0 f) (f_i1 f) (f_i2 f)
    ((k_vdisk s) <| vd_info ::= <[f_i0 f := x]> |>) (k_bufs s) (k_procs s)) as (ps' & Hl & E); auto.
  { by apply (frame_idxs _ _ _ _ _ _ I). }
  { by apply (frame_free _ _ _ _ _ _ I f). }
  set (s' := vput s (freed (f_i2 f) (freed (f_i1 f) (freed (f_i0 f) ((k_vdisk s) <| vd_info ::= <[f_i0 f := x]> |>))))
    (k_bufs s) ps').
  assert (vinv (k_vdisk s') (k_bufs s') (fs1 ++ fs2) A U (filter (fun h => h <> f_i0 f) D)) as I'
    by exact (vinv_finish _ _ _ _ _ _ _ _ x I HD).
  exists s'. split; [|split; [split_and!; [done|done|by eauto]|split; [done|]]].
  - apply locked_run; [done|]. eapply run_bind; [by apply mod_info_ok|]. exact E.
  - intros g Hg. rewrite (transferred_spec _ _ _ _ _ _ I' Hg), (transferred_spec _ _ _ _ _ _ I) by set_solver. done.
Qed.

Lemma dev_take_run s fs s' :
  sysinv (s, fs) -> dev_take s = Some s' -> sysinv (s', fs) /\ vis s' = vis s /\ same_done s s' fs.
Proof.
  intros (Hh & Hp & A & U & D & I) E. cbn [fst snd] in *. unfold dev_take in E.
  pose proof (vi_avail _ _ _ _ _ _ I) as C.
  rewrite (circ_empty 8 (2 ^ 16) ltac:(lia) _ _ _ _ C) in E. destruct A as [|h A]; [done|].
  cbn [fmap list_fmap] in C, E. rewrite bool_decide_false in E by done.
  destruct (circ_pop 8 (2 ^ 16) ltac:(lia) ltac:(apply div_8) _ _ _ _ _ C) as [Hu _].
  change (Z.of_nat NUM) with 8 in E. rewrite Hu in E. cbn [mbind option_bind] in E. injection E as <-. rewrite Nat2Z.id.
  pose proof (vinv_take _ _ _ _ _ _ _ I) as I'. split_and!; [|done|done].
  split_and!; [done|done|]. exists A, U, D. exact I'.
Qed.

(** The chain of a request in flight, as the device reads it. *)
Lemma dev_chain_ok d bufs st busy f bf :
  filled d bufs st busy f -> bufs !! f_b f = Some bf ->
  dev_chain d (f_i0 f) = Some (mkReq (if f_w f then VIRTIO_BLK_T_OUT else VIRTIO_BLK_T_IN) 0
    (b_blockno bf * 2), f_b f, negb (f_w f), f_i0 f).
Proof.
  intros [F0 F1 F2 F3 (bf' & F4 & F5 & F6 & F7)] Hb. rewrite Hb in F4. injection F4 as <-. rewrite Z.mul_comm.
  unfold dev_chain. rewrite F0. cbn -[Z.land Z.mul]. rewrite Nat2Z.id, F1. cbn -[Z.land Z.mul].
  rewrite Nat2Z.id, F2. cbn -[Z.land Z.mul]. rewrite F7. by destruct (f_w f).
Qed.

(** What the completion of [f] does to the driver's tables. *)
Definition completed (f : frame) (d : vdisk) : vdisk :=
  d <| vd_info ::= alter (fun x => x <| in_status := 0 |>) (f_i0 f) |>
    <| vd_used := <[Z.to_nat (vd_dev_idx d mod 8) := Z.of_nat (f_i0 f)]> (vd_used d) |>
    <| vd_dev_idx ::= fun x => u16 (x + 1) |> <| vd_taken ::= filter (fun x => x <> f_i0 f) |>.

(** The device carries out the request it was given: the transfer that
    [Bio.disk_transfer] describes. *)
Lemma dev_complete_ok s fs A U D f :
  vinv (k_vdisk s) (k_bufs s) fs A U D -> f ∈ fs -> f_i0 f ∈ vd_taken (k_vdisk s) ->
  exists s1, disk_transfer (f_b f) (f_w f) (mkWorld s []) = Ok tt (mkWorld s1 []) /\
    dev_complete (f_i0 f) s = Some (s1 <| k_vdisk := completed f (k_vdisk s) |>) /\
    k_held s1 = k_held s /\ k_procs s1 = k_procs s /\
    vinv (completed f (k_vdisk s)) (k_bufs s1) fs A (U ++ [f_i0 f]) D.
Proof.
  intros I Hf Ht. pose proof (vi_frame _ _ _ _ _ _ I f Hf) as F. pose proof F as [_ _ _ _ (bf & F4 & _)].
  unfold dev_complete, disk_transfer. rewrite decide_True by done.
  rewrite (dev_chain_ok _ _ _ _ _ _ F F4). cbn [mbind option_bind]. rewrite F4.
  cbn [mbind option_bind rq_sector rq_type]. unfold sector_writes, sectors.
  rewrite Z.even_mul, orb_true_r, Z.div_mul by lia. destruct (f_w f); cbn -[disk_transfer completed].
  - eexists. split; [eapply run_bind; [by apply get_buf_ok|reflexivity]|]. split_and!; [done|done|done|].
    apply (vinv_complete _ _ _ _ _ _ _ _ I Hf Ht); [done|]. intros bf' Hb. exists (b_data bf'). cbn. rewrite Hb. by destruct bf'.
  - eexists. split; [eapply run_bind; [by apply get_buf_ok|]; eapply run_bind; [reflexivity|by apply mod_buf_ok]|].
    split_and!; [|done|done|].
    + f_equal. rewrite <- (list_alter_insert (fun x => x <| b_data := k_disk s (b_blockno bf) |>) _ _ _ F4). reflexivity.
    + apply (vinv_complete _ _ _ _ _ _ _ _ I Hf Ht); cbn.
      * intros j Hj. by rewrite list_lookup_insert_ne.
      * intros bf' Hb. rewrite F4 in Hb. injection Hb as <-. eexists. apply list_lookup_insert_eq. by eapply lookup_lt_Some.
Qed.

Lemma dev_complete_run s fs h s' :
  sysinv (s, fs) -> dev_complete h s = Some s' ->
  sysinv (s', fs) /\
  exists f s1, f ∈ fs /\ transferred s f = false /\ transferred s' f = true /\
    disk_transfer (f_b f) (f_w f) (mkWorld s []) = Ok tt (mkWorld s1 []) /\ vis s' = vis s1 /\
    forall g, g ∈ fs -> g <> f -> transferred s' g = transferred s g.
Proof.
  intros (Hh & Hp & A & U & D & I) E. cbn [fst snd] in *.
  assert (h ∈ vd_taken (k_vdisk s)) as Ht by (unfold dev_complete in E; by case_decide).
  destruct (head_frame _ _ _ _ _ _ I h) as (f & Hf & <-); [set_solver|].
  destruct (dev_complete_ok s fs A U D f I Hf Ht) as (s1 & Et & Ec & Eh & Ep & I').
  rewrite E in Ec. injection Ec as ->. set (s' := s1 <| k_vdisk := completed f (k_vdisk s) |>).
  change (vinv (k_vdisk s') (k_bufs s') fs A (U ++ [f_i0 f]) D) in I'.
  pose proof (heads_nodup _ _ _ _ _ _ I) as Hnd. apply NoDup_app in Hnd as (_ & HA & _).
  split; [split_and!; [by cbn; rewrite Eh|by cbn; rewrite Ep|by eauto]|].
  exists f, s1. split_and!; [done| | |done|done|].
  - rewrite (transferred_spec _ _ _ _ _ _ I Hf). apply bool_decide_eq_false. set_solver.
  - rewrite (transferred_spec _ _ _ _ _ _ I' Hf). apply bool_decide_eq_true. cbn.
    rewrite elem_of_app, list_elem_of_filter. intros [H|[H _]]; [|done]. apply (HA _ H). set_solver.
  - intros g Hg Ngf. rewrite (transferred_spec _ _ _ _ _ _ I' Hg), (transferred_spec _ _ _ _ _ _ I Hg).
    apply bool_decide_ext. cbn. rewrite !elem_of_app, list_elem_of_filter.
    assert (f_i0 g <> f_i0 f) by (intros Eg; by apply Ngf, (head_inj _ _ _ _ _ _ I)). tauto.
Qed.

(** ** Every step keeps the invariant and refines the abstract disk *)

Lemma abs_cons s s' f fs :
  transferred s' f = false -> same_done s s' fs -> (abs (s', f :: fs)).2 = (f, false) :: (abs (s, fs)).2.
Proof.
  intros Hf Hs. cbn. rewrite Hf. f_equal. apply list_fmap_ext. intros i g Hg. f_equal. apply Hs.
  by eapply list_elem_of_lookup_2.
Qed.

Lemma abs_same s s' fs : same_done s s' fs -> (abs (s', fs)).2 = (abs (s, fs)).2.
Proof.
  intros Hs. cbn. apply list_fmap_ext. intros i g Hg. f_equal. apply Hs. by eapply list_elem_of_lookup_2.
Qed.

(** A request in the middle of those in flight: it occurs once. *)
Lemma in_flight_split s fs f :
  sysinv (s, fs) -> f ∈ fs -> exists fs1 fs2, fs = fs1 ++ f :: fs2 /\ f ∉ fs1 /\ f ∉ fs2.
Proof.
  intros (_ & _ & A & U & D & I) Hf. apply list_elem_of_split in Hf as (fs1 & fs2 & E). exists fs1, fs2. split; [done|].
  pose proof (NoDup_fmap_1 _ _ (vi_bufs _ _ _ _ _ _ I)) as Hn. cbn in Hn. rewrite E in Hn.
  apply NoDup_app in Hn as (_ & H1 & [H2 _]%NoDup_cons). split; [|done]. intros H. apply (H1 _ H). set_solver.
Qed.

Lemma sysinv_other s s' fs :
  sysinv (s, fs) -> k_vdisk s' = k_vdisk s -> (forall f, f ∈ fs -> k_bufs s' !! f_b f = k_bufs s !! f_b f) ->
  k_held s' = [] -> length (k_procs s') = NPROC -> sysinv (s', fs).
Proof.
  intros (_ & _ & A & U & D & I) Ev Eb Hh Hp. split_and!; [done|done|]. exists A, U, D. cbn. rewrite Ev.
  destruct I as [J1 J2 J3 J4 J5 J6 J7 J8 J9 J10 J11 J12]. split; auto. cbn in *.
  intros f Hf. eapply filled_ext; [..|by apply J12]; auto.
Qed.

Lemma tau_step s s' fs : vis s' = vis s -> same_done s s' fs -> astep (abs (s, fs)) Tau (abs (s', fs)).
Proof.
  intros Hv Hs. pose proof (abs_same s s' fs Hs) as Ea. unfold abs in *. cbn [fst snd] in *. rewrite Ea.
  apply as_tau; [by injection Hv|by injection Hv|]. by rewrite Hv.
Qed.

(** The device's completion of [f] is the transfer of the abstract disk. *)
Lemma device_step s fs s' :
  sysinv (s, fs) -> dev_take s = Some s' \/ (exists h, dev_complete h s = Some s') ->
  sysinv (s', fs) /\ astep (abs (s, fs)) Device (abs (s', fs)).
Proof.
  intros Hc [E|[h E]].
  - destruct (dev_take_run s fs s' Hc E) as (Hi & Hv & Hs). split; [done|].
    pose proof (abs_same s s' fs Hs) as Ea. unfold abs in *. cbn [fst snd] in *. rewrite Ea. by apply as_stutter.
  - destruct (dev_complete_run s fs h s' Hc E) as (Hi & f & s1 & Hf & T1 & T2 & Et & Hv & Hs). split; [done|].
    destruct (in_flight_split s fs f Hc Hf) as (fs1 & fs2 & -> & N1 & N2). unfold abs. cbn [fst snd].
    rewrite !fmap_app, !fmap_cons, T1, T2.
    pose proof (abs_same s s' fs1) as E1. pose proof (abs_same s s' fs2) as E2. cbn in E1, E2.
    rewrite E1, E2 by (intros g Hg; apply Hs; [set_solver|by intros ->]). by apply (as_transfer s s1).
Qed.

(** A step from a state satisfying the invariant. *)
Lemma step_sound R device c l c' :
  documented device -> sysinv c -> step R device c l c' -> sysinv c' /\ astep (abs c) l (abs c').
Proof.
  intros Hdev Hc Hstep. destruct Hstep as
    [s fs b w bf f s' e Hb Hblk Hn E|s fs b w bf s' e Hb Hblk Hn E|s fs s' Hd|s fs s' e E|s fs1 f fs2 bf s' e Hb Hdk E
    |s fs s' Ev Ed Ew Eb Hh Hp].
  - destruct (try_submit_run s fs e b w bf Hc Hb Hblk Hn) as [(f' & s1 & E1 & Hi & Hv & Hfb & _ & Ht & Hs)|(s1 & E1 & _)];
      rewrite E in E1; [|discriminate]. injection E1 as <- <-. split; [done|].
    pose proof (abs_cons s s' f fs Ht Hs) as Ea. unfold abs in *. cbn [fst snd] in *. rewrite Ea. apply as_submit; [done|].
    rewrite <- list_fmap_compose, Hfb. exact Hn.
  - destruct (try_submit_run s fs e b w bf Hc Hb Hblk Hn) as [(f' & s1 & E1 & _)|(s1 & E1 & Hi & Hv & Hs)];
      rewrite E in E1; [discriminate|]. injection E1 as <-. split; [done|].
    by apply tau_step.
  - by apply device_step, Hdev.
  - destruct (virtio_disk_intr_run R s fs e Hc) as (s1 & E1 & Hi & Hv & Hs & _). rewrite E in E1. injection E1 as <-.
    split; [done|]. by apply tau_step.
  - destruct (finish_run s fs1 f fs2 e bf Hc Hb Hdk) as (T & s1 & E1 & Hi & Hv & Hs). rewrite E in E1. injection E1 as <-.
    split; [done|]. pose proof (abs_same s s' _ Hs) as Ea. unfold abs in *. cbn [fst snd] in *. rewrite Ea.
    rewrite !fmap_app, fmap_cons, T. by apply as_finish.
  - split; [by eapply sysinv_other|]. unfold abs. cbn [fst snd].
    pose proof (abs_same s s' fs) as Ea. cbn in Ea. rewrite Ea by (intros g _; unfold transferred; by rewrite Ev).
    apply as_tau; [done|done|]. intros r (f & -> & Hf)%list_elem_of_fmap. unfold vis. cbn.
    by rewrite !list_lookup_fmap, Eb.
Qed.

Lemma reached_inv R device c : documented device -> reached R device c -> sysinv c.
Proof.
  intros Hdev (c0 & H0 & Hr). apply initial_inv in H0.
  induction Hr as [c|c1 c2 c3 [l Hs] _ IH]; [done|]. apply IH. by eapply step_sound.
Qed.

(** ** No request is lost *)

Abbreviation device_works := (fun s s' : kernel => dev_take s = Some s' \/ exists h, dev_complete h s = Some s').

Lemma dev_take_enabled s fs h A U D :
  vinv (k_vdisk s) (k_bufs s) fs (h :: A) U D ->
  exists s', dev_take s = Some s' /\ vd_taken (k_vdisk s') = vd_taken (k_vdisk s) ++ [h] /\
    k_held s' = k_held s /\ k_procs s' = k_procs s /\ vinv (k_vdisk s') (k_bufs s') fs A U D.
Proof.
  intros I. pose proof (vi_avail _ _ _ _ _ _ I) as C. unfold dev_take.
  rewrite (circ_empty 8 (2 ^ 16) ltac:(lia) _ _ _ _ C). cbn [fmap list_fmap] in *. rewrite bool_decide_false by done.
  destruct (circ_pop 8 (2 ^ 16) ltac:(lia) ltac:(apply div_8) _ _ _ _ _ C) as [Hu _].
  change (Z.of_nat NUM) with 8. rewrite Hu. eexists. split; [reflexivity|]. rewrite Nat2Z.id.
  split_and!; [done|done|done|]. exact (vinv_take _ _ _ _ _ _ _ I).
Qed.

(** A device that keeps working empties the available ring. *)
Lemma drained n : forall s fs A U D,
  (2 * length A + length (vd_taken (k_vdisk s)) <= n)%nat ->
  k_held s = [] -> length (k_procs s) = NPROC -> vinv (k_vdisk s) (k_bufs s) fs A U D ->
  exists s1, rtc device_works s s1 /\ sysinv (s1, fs) /\ forall f, f ∈ fs -> transferred s1 f = true.
Proof.
  induction n as [|n IH]; intros s fs A U D Hn Hh Hp I.
  all: assert (A = [] /\ vd_taken (k_vdisk s) = [] ->
    exists s1, rtc device_works s s1 /\ sysinv (s1, fs) /\ forall f, f ∈ fs -> transferred s1 f = true) as Hend
    by (intros [-> Et]; exists s; split; [done|]; split; [split_and!; [done|done|by eauto]|]; intros f Hf;
        rewrite (transferred_spec _ _ _ _ _ _ I Hf), Et; by apply bool_decide_eq_true, not_elem_of_nil).
  { apply Hend. destruct A; [|cbn in Hn; lia]. destruct (vd_taken _); [done|cbn in Hn; lia]. }
  destruct A as [|h A].
  - destruct (vd_taken (k_vdisk s)) as [|h l] eqn:Et; [by apply Hend|].
    destruct (head_frame _ _ _ _ _ _ I h) as (f & Hf & <-); [rewrite Et; set_solver|].
    destruct (dev_complete_ok s fs [] U D f I Hf) as (s1 & _ & Ec & Eh & Ep & I'); [rewrite Et; set_solver|].
    destruct (IH (s1 <| k_vdisk := completed f (k_vdisk s) |>) fs [] (U ++ [f_i0 f]) D) as (s2 & Hr & H).
    + cbn in *. rewrite Et, filter_cons_False by naive_solver. pose proof (length_filter (fun x => x <> f_i0 f) l). lia.
    + cbn. by rewrite Eh.
    + cbn. by rewrite Ep.
    + done.
    + exists s2. split; [|done]. eapply rtc_l; [|exact Hr]. right. eauto.
  - destruct (dev_take_enabled s fs h A U D I) as (s1 & E & Et & Eh & Ep & I').
    destruct (IH s1 fs A U D) as (s2 & Hr & H); [|by rewrite Eh|by rewrite Ep|done|].
    + rewrite Et, length_app. cbn in *. lia.
    + exists s2. split; [|done]. eapply rtc_l; [|exact Hr]. by left.
Qed.

(** ** virtio_disk_rw() as a whole *)

(** The kernel state in which the process sleeps for the interrupt. *)
Lemma submitted_run s fs e b w bf f s1 :
  sysinv (s, fs) -> k_bufs s !! b = Some bf -> try_submit b w (mkWorld s e) = Ok (Some f) (mkWorld s1 e) ->
  k_cur s1 = k_cur s /\ k_procs s1 = k_procs s /\ f_b f = b /\
  (exists bf1, k_bufs s1 !! b = Some bf1 /\ b_disk bf1 = true) /\
  virtio_disk_rw b w (mkWorld s e) =
  (waiting (fun fuel => rw_wait_loop fuel b) ;; rw_finish (Z.of_nat (f_i0 f)) ;; release LkVdisk)
    (mkWorld (s1 <| k_held := [LkVdisk] |>) e).
Proof.
  intros (Hh & Hp & A & U & D & I) Hb. cbn [fst snd] in *. set (s0 := s <| k_held := [LkVdisk] |>).
  unfold try_submit, virtio_disk_rw.
  rewrite (bind_ok _ _ _ _ _ (get_buf_ok _ _ _ _ Hb)).
  destruct (alloc3_ok s0 e eq_refl (k_vdisk s) (k_bufs s) (k_procs s)) as
    [(i0 & i1 & i2 & Hn & Hf & E)|(l & ps' & Hl & Hf & E)]; [apply I|apply I|done| |].
  - assert (Forall (fun i => (i < NUM)%nat) [i0; i1; i2]) as Hlt by (eapply Forall_impl; [exact Hf|]; naive_solver).
    pose proof (fun H1 H2 H3 => rw_post_ok s0 e eq_refl b w (u32 (b_blockno bf * (BSIZE / 512))) i0 i1 i2 bf
      ((k_vdisk s) <| vd_free ::= claim [i0; i1; i2] |>) (k_bufs s) (k_procs s) Hn Hlt H1 H2 H3 Hb) as Ep.
    specialize (Ep (vi_desc _ _ _ _ _ _ I) (vi_info _ _ _ _ _ _ I) (vi_ops _ _ _ _ _ _ I)).
    erewrite locked_run; [|done|eapply run_bind; [exact E|]; cbn iota; eapply run_bind; [exact Ep|]; reflexivity].
    intros [= <- <-]. rewrite !Nat2Z.id. cbn [f_b f_i0]. split_and!; [done|done|done| |].
    + exists (bf <| b_disk := true |>). split; [|done]. cbn. apply list_lookup_insert_eq. by eapply lookup_lt_Some.
    + eapply run_bind; [by apply get_buf_ok|].
      eapply run_bind; [rewrite acquire_ok by (cbn; rewrite Hh; set_solver); reflexivity|].
      replace (kmod _ _) with (V s0 e (k_vdisk s) (k_bufs s) (k_procs s))
        by (unfold V, kmod, s0; cbn [w_k w_env]; f_equal; destruct s; cbn in *; by subst).
      eapply run_bind; [unfold waiting; cbn [rw_alloc_loop]; eapply run_bind; [exact E|reflexivity]|]. cbn iota.
      eapply run_bind; [exact Ep|]. reflexivity.
  - erewrite locked_run; [|done|eapply run_bind; [exact E|]; reflexivity]. discriminate.
Qed.

(** Leaving the critical section the process is in. *)
Lemma finish_inside f s2 e s' :
  k_held s2 = [] -> finish f (mkWorld s2 e) = Ok tt (mkWorld s' e) ->
  (rw_finish (Z.of_nat (f_i0 f)) ;; release LkVdisk) (mkWorld (s2 <| k_held := [LkVdisk] |>) e) = Ok tt (mkWorld s' e).
Proof.
  intros Hh. unfold finish, locked. rewrite (bind_ok _ _ _ _ _ (acquire_ok LkVdisk (mkWorld s2 e) ltac:(cbn; rewrite Hh; set_solver))).
  replace (kmod _ _) with (mkWorld (s2 <| k_held := [LkVdisk] |>) e)
    by (unfold kmod; cbn [w_k w_env]; f_equal; destruct s2; cbn in *; by subst).
  intros ([] & w1 & H1 & H2)%bind_inv. eapply run_bind; [exact H1|]. apply bind_inv in H2 as ([] & w2 & H2 & H3).
  rewrite H2. exact H3.
Qed.

Lemma sysinv_keep s s' fs :
  sysinv (s, fs) -> k_vdisk s' = k_vdisk s -> k_bufs s' = k_bufs s -> k_held s' = [] ->
  length (k_procs s') = length (k_procs s) -> sysinv (s', fs).
Proof. intros Hi Ev Eb Hh Hp. eapply sysinv_other; [exact Hi|done|by rewrite Eb|done|]. rewrite Hp. by destruct Hi as (_ & ? & _). Qed.

(** From the sleep for the interrupt to the return. *)
Lemma woken_run s me f k g e fs1 fs2 p q bf bf' :
  k_cur s = Some me -> k_procs s !! me = Some p -> k_bufs s !! f_b f = Some bf -> b_disk bf = true ->
  k = asleep me (ChBuf (f_b f)) s -> sysinv (g k, fs1 ++ f :: fs2) ->
  k_procs (g k) !! me = Some q -> p_state q = RUNNABLE -> k_bufs (g k) !! f_b f = Some bf' -> b_disk bf' = false ->
  exists s', (waiting (fun fuel => rw_wait_loop fuel (f_b f)) ;; rw_finish (Z.of_nat (f_i0 f)) ;; release LkVdisk)
      (mkWorld (s <| k_held := [LkVdisk] |>) (g :: e)) = Ok tt (mkWorld s' e) /\
    transferred (g k) f = true /\ vis s' = vis (g k) /\ sysinv (s', fs1 ++ fs2).
Proof.
  intros Hc Hp Hb Hd Ek Hi Hq Hr Hb' Hd'. set (s0 := s <| k_held := [LkVdisk] |>).
  assert (asleep me (ChBuf (f_b f)) s0 = k) as Ek0 by (subst k; by destruct s).
  pose proof (sleep_run me (ChBuf (f_b f)) LkVdisk p s0 g e Hc eq_refl ltac:(done) Hp) as Es. cbn zeta in Es.
  rewrite Ek0 in Es. change (k_procs _) with (k_procs (g k)) in Es. rewrite Hq, decide_True in Es by done.
  set (s2 := (awake me LkVdisk (k_sie s0) ((g k) <| k_held := [] |>)) <| k_held := [] |>).
  assert (sysinv (s2, fs1 ++ f :: fs2)) as Hi2 by (eapply sysinv_keep; [exact Hi|done..|cbn; by rewrite length_alter]).
  destruct (finish_run s2 fs1 f fs2 e bf' Hi2 Hb' Hd') as (T & s' & Ef & Hi' & Hv & _).
  exists s'. split_and!; [|exact T|exact Hv|exact Hi'].
  eapply run_bind; [|eapply (finish_inside f s2); [done|exact Ef]].
  unfold waiting. cbn [length w_env rw_wait_loop]. eapply run_bind; [by apply get_buf_ok|]. rewrite Hd. cbn iota.
  eapply run_bind; [exact Es|]. eapply run_bind; [apply get_buf_ok; exact Hb'|]. rewrite Hd'. reflexivity.
Qed.

(** ** Properties *)

(** C18: refinement of the disk driver.  Every step of the system (a process
    entering or leaving virtio_disk_rw(), the interrupt handler, the device,
    other kernel code) from a state reached from virtio_disk_init() is a step
    of the abstract disk: a request is transferred exactly once, between its
    submission and the return of its process, exactly as
    [disk_transfer] does it, and no other step changes the disk or a buffer
    in flight. *)
Theorem virtio_refines R device c l c' :
  documented device -> reached R device c -> step R device c l c' -> astep (abs c) l (abs c').
Proof. intros Hd Hr Hs. eapply step_sound; eauto using reached_inv. Qed.


(** C19: no request is lost.  From every reached state, once the device has
    worked off its rings, one interrupt makes every process waiting in
    virtio_disk_rw() find its buffer no longer owned by the disk. *)
Theorem virtio_served R device s fs e :
  documented device -> reached R device (s, fs) ->
  exists s1 s2, rtc device_works s s1 /\ virtio_disk_intr R (mkWorld s1 e) = Ok tt (mkWorld s2 e) /\
    forall f, f ∈ fs -> exists bf, k_bufs s2 !! f_b f = Some bf /\ b_disk bf = false.
Proof.
  intros Hd (Hh & Hp & A & U & D & I)%reached_inv; [|done].
  destruct (drained _ s fs A U D (le_n _) Hh Hp I) as (s1 & Hr & Hi & Ht).
  destruct (virtio_disk_intr_run R s1 fs e Hi) as (s2 & E & (_ & _ & A' & U' & D' & I') & _ & _ & Hdone).
  exists s1, s2. split_and!; [done|done|]. intros f Hf.
  pose proof (vi_frame _ _ _ _ _ _ I' f Hf) as [_ _ _ _ (bf & F4 & _)]. exists bf. split; [done|]. apply (Hdone f bf); auto.
Qed.

(** Virtio_disk_rw() as a whole.  A process that finds descriptors posts its
    request and sleeps; whatever the device, the interrupt handler and the
    other processes then do, once they have made it runnable and its buffer is
    no longer owned by the disk, the call returns, its transfer has happened,
    and it leaves what clients see as it found it. *)
Theorem virtio_disk_rw_returns R device s fs me p b w bf f s1 g e fs1 fs2 q bf' :
  documented device -> reached R device (s, fs) -> k_cur s = Some me -> k_procs s !! me = Some p ->
  k_bufs s !! b = Some bf -> 0 <= b_blockno bf < 2 ^ 31 -> b ∉ f_b <$> fs ->
  try_submit b w (mkWorld s (g :: e)) = Ok (Some f) (mkWorld s1 (g :: e)) ->
  let k := asleep me (ChBuf b) s1 in
  rtc (fun x y => exists l, step R device x l y) (k, f :: fs) (g k, fs1 ++ f :: fs2) ->
  k_procs (g k) !! me = Some q -> p_state q = RUNNABLE -> k_bufs (g k) !! b = Some bf' -> b_disk bf' = false ->
  exists s', virtio_disk_rw b w (mkWorld s (g :: e)) = Ok tt (mkWorld s' e) /\
    transferred (g k) f = true /\ vis s' = vis (g k) /\ k_held s' = [].
Proof.
  intros Hdev Hr Hc Hp Hb Hblk Hn E k Hk Hq Hrun Hb' Hd'. apply reached_inv in Hr; [|done].
  destruct (submitted_run s fs (g :: e) b w bf f s1 Hr Hb E) as (Ec & Ep & <- & (bf1 & Hb1 & Hd1) & Erw).
  destruct (try_submit_run s fs (g :: e) (f_b f) w bf Hr Hb Hblk Hn) as [(f' & s1' & E' & Hi1 & _)|(s1' & E' & _)];
    rewrite E in E'; [|discriminate]. injection E' as <- <-.
  assert (sysinv (k, f :: fs)) as Hik by (eapply sysinv_keep; [exact Hi1|done..|cbn; by rewrite length_alter]).
  assert (sysinv (g k, fs1 ++ f :: fs2)) as Hig.
  { revert Hik Hk. generalize (k, f :: fs), (g k, fs1 ++ f :: fs2). intros x y Hx Hxy.
    induction Hxy as [|x y z [l Hs] _ IH]; [done|]. apply IH. by eapply step_sound. }
  rewrite Erw. rewrite <- Ec in Hc. rewrite <- Ep in Hp.
  destruct (woken_run s1 me f k g e fs1 fs2 p q bf1 bf' Hc Hp Hb1 Hd1 eq_refl Hig Hq Hrun Hb' Hd') as (s' & E' & T & Hv & Hi').
  exists s'. split_and!; [exact E'|done|done|]. by destruct Hi' as (? & _).
Qed.

(** ** A concrete machine *)

(** The registers of QEMU's device before the driver writes them. *)
Definition qemu_regs (_ : list (Z * Z)) (r : Z) : Z :=
  if r =? VIRTIO_MMIO_MAGIC_VALUE then 0x74726976
  else if r =? VIRTIO_MMIO_VERSION then 2
  else if r =? VIRTIO_MMIO_DEVICE_ID then 2
  else if r =? VIRTIO_MMIO_VENDOR_ID then 0x554d4551
  else if r =? VIRTIO_MMIO_STATUS then 11
  else if r =? VIRTIO_MMIO_QUEUE_NUM_MAX then 1024
  else 0.

Definition machine0 : kernel := w_k (final (kinit (mkWorld one_proc []))).
Definition machine1 : kernel := w_k (final (virtio_disk_init qemu_regs (mkWorld machine0 []))).

Lemma machine1_reached device : reached qemu_regs device (machine1, []).
Proof.
  exists (machine1, []). split; [|done]. split; [done|]. exists machine0, []. split_and!.
  - vm_compute. reflexivity.
  - vm_compute. reflexivity.
  - vm_compute. reflexivity.
  - apply run_final; vm_compute; reflexivity.
Qed.

Lemma machine1_buf : k_bufs machine1 !! 0%nat = Some zero_buf.
Proof. vm_compute. reflexivity. Qed.

Lemma works_documented : documented device_works.
Proof. intros s s' H. exact H. Qed.

(** ... and with a write of buffer 0 in flight. *)
Lemma machine1_submit :
  exists f s', try_submit 0 true (mkWorld machine1 []) = Ok (Some f) (mkWorld s' []) /\
    step qemu_regs device_works (machine1, []) (Submit f) (s', [f]).
Proof.
  assert (0 <= b_blockno zero_buf < 2 ^ 31) as Hz by (cbn; lia).
  pose proof (reached_inv qemu_regs device_works _ works_documented (machine1_reached _)) as Hi.
  pose proof machine1_buf as Hb. pose proof (not_elem_of_nil (A := nat) 0%nat) as Hn.
  destruct (try_submit_run machine1 [] [] 0 true zero_buf Hi Hb Hz Hn) as [(f & s' & E & _)|(s' & E & _)].
  - exists f, s'. split; [exact E|]. exact (st_submit _ _ machine1 [] 0%nat true zero_buf f s' [] Hb Hz Hn E).
  - assert (match try_submit 0 true (mkWorld machine1 []) with Ok None _ => false | _ => true end = true) as H
      by (vm_compute; reflexivity).
    rewrite E in H. discriminate H.
Qed.

Lemma virtio_refines_witness :
  exists f s', step qemu_regs device_works (machine1, []) (Submit f) (s', [f]) /\
    astep (abs (machine1, [])) (Submit f) (abs (s', [f])).
Proof.
  destruct machine1_submit as (f & s' & _ & Hs). exists f, s'. split; [exact Hs|].
  exact (virtio_refines qemu_regs device_works _ _ _ works_documented (machine1_reached _) Hs).
Defined.


Lemma virtio_served_witness :
  exists f s0 s1 s2, rtc device_works s0 s1 /\ virtio_disk_intr qemu_regs (mkWorld s1 []) = Ok tt (mkWorld s2 []) /\
    exists bf, k_bufs s2 !! f_b f = Some bf /\ b_disk bf = false.
Proof.
  destruct machine1_submit as (f & s' & _ & Hs). exists f, s'.
  assert (reached qemu_regs device_works (s', [f])) as Hr.
  { destruct (machine1_reached device_works) as (c0 & H0 & Hr). exists c0. split; [exact H0|]. eapply rtc_r; [exact Hr|].
    exists (Submit f). exact Hs. }
  destruct (virtio_served qemu_regs device_works s' [f] [] works_documented Hr) as (s1 & s2 & Hd & Hi & Hf).
  exists s1, s2. split; [exact Hd|]. split; [exact Hi|]. apply Hf. left.
Defined.

(** The device serves the chain 0, and interrupts. *)
Definition serve (k : kernel) : kernel :=
  let k1 := default k (dev_take k) in
  let k2 := default k1 (dev_complete 0 k1) in
  w_k (final (virtio_disk_intr qemu_regs (mkWorld k2 []))).

Definition machine2 : kernel := w_k (final (try_submit 0 true (mkWorld machine1 [serve]))).
Definition machine3 : kernel := asleep 0 (ChBuf 0) machine2.
Definition frame0 : frame := mkFrame 0 true 0 1 2.

Lemma some_default {A} (d : A) o : match o with Some _ => true | None => false end = true -> o = Some (default d o).
Proof. by destruct o. Qed.

Lemma machine2_submit : try_submit 0 true (mkWorld machine1 [serve]) = Ok (Some frame0) (mkWorld machine2 [serve]).
Proof.
  assert (0 <= b_blockno zero_buf < 2 ^ 31) as Hz by (cbn; lia).
  pose proof (reached_inv qemu_regs device_works _ works_documented (machine1_reached _)) as Hi.
  pose proof (not_elem_of_nil (A := nat) 0%nat) as Hn.
  assert (match try_submit 0 true (mkWorld machine1 [serve]) with Ok (Some f) _ => bool_decide (f = frame0) | _ => false end = true)
    as H by (vm_compute; reflexivity).
  unfold machine2. destruct (try_submit_run machine1 [] [serve] 0 true zero_buf Hi machine1_buf Hz Hn) as [(f & s' & E & _)|(s' & E & _)];
    rewrite E in H |- *; [|discriminate H]. apply bool_decide_eq_true in H. rewrite H. reflexivity.
Qed.

Lemma machine3_served :
  rtc (fun x y => exists l, step qemu_regs device_works x l y) (machine3, [frame0]) (serve machine3, [frame0]).
Proof.
  assert (dev_take machine3 = Some (default machine3 (dev_take machine3))) as E1
    by (apply some_default; vm_compute; reflexivity).
  set (k1 := default machine3 (dev_take machine3)) in E1.
  assert (dev_complete 0 k1 = Some (default k1 (dev_complete 0 k1))) as E2 by (apply some_default; vm_compute; reflexivity).
  set (k2 := default k1 (dev_complete 0 k1)) in E2.
  eapply rtc_l; [exists Device; apply st_device; left; exact E1|].
  eapply rtc_l; [exists Device; apply st_device; right; exists 0%nat; exact E2|].
  apply rtc_once. exists Tau. apply (st_intr _ _ _ _ _ []).
  exact (run_final (virtio_disk_intr qemu_regs) k2 [] ltac:(vm_compute; reflexivity) ltac:(vm_compute; reflexivity)).
Qed.

Lemma virtio_disk_rw_returns_witness :
  exists s', virtio_disk_rw 0 true (mkWorld machine1 [serve]) = Ok tt (mkWorld s' []) /\ k_held s' = [].
Proof.
  assert (k_procs (serve machine3) !! 0%nat = Some (default zero_proc (k_procs (serve machine3) !! 0%nat))) as Hq
    by (apply some_default; vm_compute; reflexivity).
  assert (p_state (default zero_proc (k_procs (serve machine3) !! 0%nat)) = RUNNABLE) as Hr by (vm_compute; reflexivity).
  assert (k_bufs (serve machine3) !! 0%nat = Some (default zero_buf (k_bufs (serve machine3) !! 0%nat))) as Hb
    by (apply some_default; vm_compute; reflexivity).
  assert (b_disk (default zero_buf (k_bufs (serve machine3) !! 0%nat)) = false) as Hd by (vm_compute; reflexivity).
  assert (k_cur machine1 = Some 0%nat) as Hc by (vm_compute; reflexivity).
  assert (k_procs machine1 !! 0%nat = Some (default zero_proc (k_procs machine1 !! 0%nat))) as Hp
    by (apply some_default; vm_compute; reflexivity).
  assert (0 <= b_blockno zero_buf < 2 ^ 31) as Hz by (cbn; lia).
  destruct (virtio_disk_rw_returns qemu_regs device_works machine1 [] 0 _ 0 true zero_buf frame0 machine2 serve [] [] [] _ _
    works_documented (machine1_reached _) Hc Hp machine1_buf Hz (not_elem_of_nil (A := nat) 0%nat) machine2_submit
    machine3_served Hq Hr Hb Hd) as (s' & E & _ & _ & Hh).
  exists s'. split; [exact E|exact Hh].
Defined.
