(* ===== verification/PipeSpec.v ===== *)
(** A pipe is a queue of at most PIPESIZE bytes.

    [queue p q]: the ring buffer [p] holds the bytes [q], oldest first.  The
    primitive accesses of pipe.c refine the operations of a bounded queue, also
    when the 32-bit counters wrap around, and pipewrite() and piperead() move
    bytes between it and user memory in order. *)

From S2P Require Import Prelude Layout Kernel Sched Kalloc Vm PageTable VmSpec VmProps Bio Fs Pipe Cache Circ.

Definition queue (p : pipe) (q : list Z) : Prop :=
  circ 512 (2 ^ 32) (pi_data p) (pi_nread p) (pi_nwrite p) q.

Lemma div_512 : (512 | 2 ^ 32).
Proof. by exists 8388608. Qed.

Lemma qu_cap p q : queue p q -> (length q <= 512)%nat.
Proof. intros Q. pose proof (ci_cap _ _ _ _ _ _ Q). lia. Qed.

Lemma pipe_full_spec p q : queue p q -> pipe_full p = bool_decide (length q = 512%nat).
Proof. intros Q. etrans; [exact (circ_full 512 (2 ^ 32) ltac:(lia) _ _ _ _ Q)|]. apply bool_decide_ext. lia. Qed.

Lemma pipe_empty_spec p q : queue p q -> pipe_empty p = bool_decide (q = []).
Proof. intros Q. exact (circ_empty 512 (2 ^ 32) ltac:(lia) _ _ _ _ Q). Qed.

Lemma pipe_put_queue p q c : queue p q -> (length q < 512)%nat -> queue (pipe_put c p) (q ++ [c]).
Proof. intros Q Hl. apply (circ_push 512 (2 ^ 32)); [lia|apply div_512|done|lia]. Qed.

Lemma pipe_get_queue p c q : queue p (c :: q) -> pipe_peek p = c /\ queue (pipe_get p) q.
Proof.
  intros [H1 H2]%circ_pop; [|lia|apply div_512]. split; [|exact H2]. by apply nth_lookup_Some.
Qed.

(** C33: The ring buffer of a pipe refines a bounded FIFO queue: it is full
    exactly when it holds PIPESIZE bytes and empty exactly when it holds none,
    a write to a pipe that is not full appends a byte, and a read from one that
    is not empty returns and removes the oldest byte. *)
Theorem pipe_refines_queue p q :
  queue p q ->
  pipe_full p = bool_decide (length q = 512%nat) /\
  pipe_empty p = bool_decide (q = []) /\
  (forall c, pipe_full p = false -> queue (pipe_put c p) (q ++ [c])) /\
  (pipe_empty p = false -> exists c q', q = c :: q' /\ pipe_peek p = c /\ queue (pipe_get p) q').
Proof.
  intros Q. rewrite (pipe_full_spec p q), (pipe_empty_spec p q) by done. split_and!; auto.
  - intros c Hc%bool_decide_eq_false. apply pipe_put_queue; [done|]. pose proof (qu_cap _ _ Q). lia.
  - intros Hc%bool_decide_eq_false. destruct q as [|c q]; [done|]. exists c, q.
    destruct (pipe_get_queue p c q Q). done.
Qed.

(** An instance of [pipe_refines_queue]. *)
Lemma pipe_refines_queue_witness :
  let p := mkPipe (<[0%nat := 8]> (<[511%nat := 7]> (replicate 512 0))) (2 ^ 32 - 1) 1 true true in
  queue p [7; 8] /\ pipe_full p = false /\ queue (pipe_put 9 p) [7; 8; 9] /\ pipe_peek p = 7 /\ queue (pipe_get p) [8].
Proof.
  intros p. assert (queue p [7; 8]) as Q.
  { split; [vm_compute; reflexivity|cbn; lia|cbn; lia|reflexivity|].
    intros [|[|i]] x H; cbn in H; simplify_eq; vm_compute; reflexivity. }
  destruct (pipe_refines_queue p [7; 8] Q) as (F & E & P & G). split; [exact Q|].
  rewrite bool_decide_false in F by discriminate. split; [exact F|]. split; [exact (P 9 F)|].
  rewrite bool_decide_false in E by discriminate. destruct (G E) as (c & q' & H & Hp & Hq).
  injection H as <- <-. split; [exact Hp|exact Hq].
Defined.

(** ** pipewrite() and piperead() *)

Lemma copyin_byte root va s l e :
  uspace s l root -> 0 <= va < 2 ^ 64 -> umapped (k_mem s) root va ->
  copyin root va 1 (mkWorld s e) = Ok (0, [uload (k_mem s) root va]) (mkWorld s e).
Proof.
  intros U Hva Hm. unfold copyin. change (Z.to_nat 1) with 1%nat.
  destruct (copyin_loop_ok root l s e 1 va 1 []) as [[_ ->]|[(y & Hy%in_range_spec & Hn) _]]; auto.
  - cbn. by rewrite Z.add_0_r.
  - exfalso. apply Hn. by replace y with va by lia.
Qed.

Lemma killed_ok pr p s e :
  k_procs s !! pr = Some p -> LkProc pr ∉ k_held s ->
  killed pr (mkWorld s e) = Ok (p_killed p) (mkWorld s e).
Proof.
  intros Hp Hl. unfold killed. kstep. eapply run_bind; [by apply get_proc_ok|]. kstep.
  unfold ret. f_equal. destruct s. cbn in *. unfold kmod. cbn. f_equal. cbv [upd upd_k_held]. cbn.
  f_equal. by apply filter_lock_cons.
Qed.

Lemma get_pipe_ok pi p s e : k_pipes s !! pi = Some p -> get_pipe pi (mkWorld s e) = Ok p (mkWorld s e).
Proof. intros H. unfold get_pipe. rewrite bind_gets. by rewrite H. Qed.

Lemma gmap_alter_insert {A} (f : A -> A) (k : Z) (m : gmap Z A) x :
  m !! k = Some x -> alter f k m = <[k := f x]> m.
Proof.
  intros H. apply map_eq. intros j. destruct (decide (j = k)) as [->|].
  - by rewrite lookup_alter_eq, lookup_insert_eq, H.
  - by rewrite lookup_alter_ne, lookup_insert_ne.
Qed.

Lemma mod_pipe_ok pi f p s e :
  k_pipes s !! pi = Some p ->
  mod_pipe pi f (mkWorld s e) = Ok tt (mkWorld (s <| k_pipes := <[pi := f p]> (k_pipes s) |>) e).
Proof.
  intros H. unfold mod_pipe. eapply run_bind; [by apply get_pipe_ok|]. unfold modify. do 2 f_equal.
  rewrite <- (gmap_alter_insert f pi _ p H). by destruct s.
Qed.

Section Transfer.
Context (pi : Z) (pr : nat) (root : Z) (l : list Z) (e : list (kernel -> kernel)).

(** The process, its page table, and the pipe. *)
Record at_pipe (s : kernel) (p : pipe) (q : list Z) : Prop := {
  ap_proc : exists pp, k_procs s !! pr = Some pp /\ p_killed pp = 0 /\ p_pagetable pp = root;
  ap_lock : LkProc pr ∉ k_held s;
  ap_space : uspace s l root;
  ap_pipe : k_pipes s !! pi = Some p;
  ap_queue : queue p q;
}.

Lemma at_pipe_put s p q p' q' :
  at_pipe s p q -> queue p' q' -> at_pipe (s <| k_pipes := <[pi := p']> (k_pipes s) |>) p' q'.
Proof.
  intros [A1 A2 A3 A4 A5] Q. split; auto; cbn; [|by rewrite lookup_insert_eq].
  eapply uspace_ext; eauto. apply A3.
Qed.

Lemma uread_S m va n : uread m root va (S n) = uload m root va :: uread m root (va + 1) n.
Proof.
  change (S n) with (1 + n)%nat. rewrite uread_app. unfold uread at 1. cbn. by rewrite Z.add_0_r.
Qed.

Lemma pipewrite_loop_ok (n : Z) addr m : forall s i p q fuel,
  at_pipe s p q -> pi_readopen p = true -> n = i + Z.of_nat m -> (m < fuel)%nat ->
  (length q + m <= 512)%nat -> 0 <= i -> 0 <= addr -> addr + n < 2 ^ 64 ->
  (forall y, addr + i <= y < addr + n -> umapped (k_mem s) root y) ->
  exists p', pipewrite_loop fuel pi pr addr i n (mkWorld s e) =
      Ok (Some n) (mkWorld (s <| k_pipes := <[pi := p']> (k_pipes s) |>) e) /\
    queue p' (q ++ uread (k_mem s) root (addr + i) m) /\
    pi_readopen p' = true /\ pi_writeopen p' = pi_writeopen p.
Proof.
  induction m as [|m IH]; intros s i p q fuel A Hro Hn Hf Hcap Hi Ha Hlt Hm;
    (destruct fuel as [|fuel]; [lia|]); cbn [pipewrite_loop]; destruct (Z.ltb_spec i n); try lia.
  { exists p. split_and!; auto.
    - unfold ret. replace i with n by lia. do 2 f_equal. rewrite (insert_id _ _ _ (ap_pipe s p q A)). by destruct s.
    - change (uread _ _ _ 0) with (@nil Z). rewrite app_nil_r. apply A. }
  destruct A as [(pp & P1 & P2 & P3) A2 A3 A4 A5].
  pose proof (u64_small (addr + i) ltac:(lia)) as Eu.
  set (c := uload (k_mem s) root (addr + i)).
  assert (queue (pipe_put c p) (q ++ [c])) as Q1 by (apply pipe_put_queue; [done|lia]).
  destruct (IH (s <| k_pipes := <[pi := pipe_put c p]> (k_pipes s) |>) (i + 1) (pipe_put c p) (q ++ [c]) fuel)
    as (p' & E & Q' & R1 & R2); auto; try lia.
  - eapply at_pipe_put; [|exact Q1]. split; eauto.
  - rewrite length_app. cbn. lia.
  - cbn. intros y Hy. apply Hm. lia.
  - exists p'. split_and!; auto.
    + eapply run_bind; [by apply get_pipe_ok|]. rewrite Hro.
      eapply run_bind; [by eapply killed_ok|]. rewrite P2. cbn [negb Z.eqb].
      rewrite (pipe_full_spec p q A5), bool_decide_false by lia.
      eapply run_bind; [by apply get_proc_ok|]. rewrite P3, Eu.
      eapply run_bind; [eapply copyin_byte; [exact A3|lia|apply Hm; lia]|]. cbn [fst snd hd Z.eqb].
      eapply run_bind; [by apply mod_pipe_ok|]. fold c. rewrite E. do 2 f_equal.
      match goal with |- context [insert pi p' (k_pipes ?s1)] => change (k_pipes s1) with (<[pi := pipe_put c p]> (k_pipes s)) end.
      rewrite insert_insert_eq. by destruct s.
    + cbn in Q'. rewrite <- app_assoc in Q'. cbn [app] in Q'. rewrite uread_S. fold c.
      by replace (addr + i + 1) with (addr + (i + 1)) by lia.
Qed.

(** One byte to user memory. *)
Lemma copyout_byte s va c :
  uspace s l root -> 0 <= va < 2 ^ 64 -> umapped (k_mem s) root va ->
  exists s', copyout root va [c] (mkWorld s e) = Ok 0 (mkWorld s' e) /\ uspace s' l root /\
    s' = s <| k_mem := k_mem s' |> /\
    (forall y, is_va y -> upage (k_mem s') root y = upage (k_mem s) root y) /\
    (forall y, umapped (k_mem s) root y -> uload (k_mem s') root y = if y =? va then c else uload (k_mem s) root y).
Proof.
  intros U Hva Hm. unfold copyout.
  destruct (copyout_loop_ok root l e (length [c]) va [c] s) as (r & s' & E & C);
    [done|exact Hva|exact U|]. exists s'. pose proof (fun y => cp_upage _ _ _ _ _ _ _ y C) as C3. destruct C as [C1 C2 _ _ C4 C5].
  destruct C4 as [[-> _]|[_ (y & Hy%in_range_spec & Hn)]].
  2: { exfalso. apply Hn. cbn in Hy. by replace y with va by lia. }
  split_and!; auto. intros y Hy. destruct (C5 y Hy) as (D1 & D2 & _). destruct (Z.eqb_spec y va) as [->|Hne].
  - rewrite D2; [by rewrite Z.sub_diag|done|]. apply in_range_spec. cbn. lia.
  - apply D1, in_range_false. cbn. lia.
Qed.

(** What reading the first [m] bytes of the queue to [a] leaves. *)
Record took (s : kernel) (q : list Z) (a : Z) (m : nat) (s' : kernel) (p' : pipe) : Prop := {
  tk_at : at_pipe s' p' (drop m q);
  tk_state : s' = s <| k_pipes := <[pi := p']> (k_pipes s) |> <| k_mem := k_mem s' |>;
  tk_upage y : is_va y -> upage (k_mem s') root y = upage (k_mem s) root y;
  tk_data y : umapped (k_mem s) root y -> uload (k_mem s') root y =
    if in_range a m y then nth (Z.to_nat (y - a)) q 0 else uload (k_mem s) root y;
}.

Lemma piperead_copy_ok addr k : forall s i p q,
  let m := Nat.min k (length q) in
  at_pipe s p q -> 0 <= i -> 0 <= addr -> addr + i + Z.of_nat m < 2 ^ 64 ->
  (forall y, addr + i <= y < addr + i + Z.of_nat m -> umapped (k_mem s) root y) ->
  exists s' p', piperead_copy k pi pr addr i (mkWorld s e) = Ok (i + Z.of_nat m) (mkWorld s' e) /\
    took s q (addr + i) m s' p' /\ pi_writeopen p' = pi_writeopen p.
Proof.
  assert (forall s i p q, at_pipe s p q -> exists s' p', ret i (mkWorld s e) = Ok (i + Z.of_nat 0) (mkWorld s' e) /\
    took s q (addr + i) 0 s' p' /\ pi_writeopen p' = pi_writeopen p) as Stop.
  { intros s i p q A. exists s, p. rewrite Z.add_0_r. split_and!; auto. split; auto.
    - rewrite (insert_id _ _ _ (ap_pipe s p q A)). by destruct s.
    - intros y Hy. by rewrite in_range_0. }
  induction k as [|k IH]; intros s i p q m A Hi Ha Hlt Hm; cbn [piperead_copy]; [by apply Stop|].
  pose proof A as [(pp & P1 & P2 & P3) A2 A3 A4 A5].
  destruct q as [|c q].
  { eapply Stop in A as (s' & p' & E & R). exists s', p'. split; [|exact R].
    eapply run_bind; [by apply get_pipe_ok|]. by rewrite (pipe_empty_spec _ _ A5), bool_decide_true. }
  destruct (pipe_get_queue p c q A5) as [Hpk Q1]. cbn [length Nat.min] in m. subst m.
  pose proof (u64_small (addr + i) ltac:(lia)) as Eu.
  set (s1 := s <| k_pipes := <[pi := pipe_get p]> (k_pipes s) |>).
  assert (at_pipe s1 (pipe_get p) q) as A1 by (by eapply at_pipe_put).
  destruct (copyout_byte s1 (addr + i) c (ap_space _ _ _ A1)) as (s2 & E2 & U2 & S2 & G2 & D2); [lia|apply Hm; lia|].
  assert (at_pipe s2 (pipe_get p) q) as B2.
  { destruct A1 as [B1 B2 B3 B4 B5]. split; auto; rewrite S2; cbn; auto. }
  destruct (IH s2 (i + 1) (pipe_get p) q B2) as (s3 & p3 & E3 & [T1 T2 T3 T4] & W3); try lia.
  { intros y Hy. destruct (Hm y ltac:(lia)) as [V1 V2]. split; [done|]. rewrite G2 by done. exact V2. }
  exists s3, p3. split_and!; [| |done].
  - eapply run_bind; [by apply get_pipe_ok|]. rewrite (pipe_empty_spec _ _ A5), bool_decide_false by done.
    eapply run_bind; [by apply mod_pipe_ok|]. fold s1. eapply run_bind; [apply get_proc_ok; exact P1|].
    rewrite P3, Eu, Hpk. eapply run_bind; [exact E2|]. cbn [Z.eqb]. rewrite E3. f_equal. lia.
  - split; auto.
    + rewrite T2. rewrite S2 at 1. unfold s1. rewrite S2. cbn. destruct s. cbv [upd upd_k_pipes upd_k_mem]. cbn.
      f_equal. by rewrite insert_insert_eq.
    + intros y Hy. by rewrite T3, G2.
    + intros y Hy. assert (umapped (k_mem s2) root y) as Hy2 by (destruct Hy; split; [done|]; by rewrite G2).
      rewrite T4 by done. destruct (in_range (addr + i) (S (Nat.min k (length q))) y) eqn:R.
      * apply in_range_spec in R. destruct (in_range (addr + (i + 1)) _ y) eqn:R2.
        -- apply in_range_spec in R2. replace (Z.to_nat (y - (addr + i))) with (S (Z.to_nat (y - (addr + (i + 1))))) by lia. done.
        -- apply in_range_false in R2. rewrite D2 by done. assert (y = addr + i) as -> by lia.
           by rewrite Z.eqb_refl, Z.sub_diag.
      * apply in_range_false in R. rewrite (proj2 (in_range_false _ _ _)) by lia. rewrite D2 by done.
        by destruct (Z.eqb_spec y (addr + i)); [lia|].
Qed.

(** The calling process, outside the pipe code. *)
Record user_pipe (s : kernel) (p : pipe) (q : list Z) : Prop := {
  up_at : at_pipe s p q;
  up_cur : k_cur s = Some pr;
  up_held : k_held s = [];
  up_len : length (k_procs s) = NPROC;
}.

Lemma at_pipe_locked s p q :
  user_pipe s p q -> at_pipe (s <| k_held ::= cons (LkPipe pi) |>) p q.
Proof.
  intros [[A1 A2 A3 A4 A5] Hc Hh Hl]. split; auto; cbn; [rewrite Hh; set_solver|].
  eapply uspace_ext; eauto. cbn. rewrite Hh. set_solver.
Qed.

Lemma at_pipe_woken s p q ch :
  at_pipe s p q -> at_pipe (s <| k_procs ::= woken ch pr |>) p q.
Proof.
  intros [(pp & P1 & P2) A2 A3 A4 A5]. split; auto; cbn.
  - exists pp. split; [|done]. unfold woken. rewrite list_lookup_imap, P1. cbn. by rewrite decide_True.
  - eapply uspace_ext; eauto. apply A3.
Qed.

Lemma pipewrite_ok s p q addr (n : nat) :
  user_pipe s p q -> pi_readopen p = true -> (length q + n <= 512)%nat ->
  0 <= addr -> addr + Z.of_nat n < 2 ^ 64 ->
  (forall y, addr <= y < addr + Z.of_nat n -> umapped (k_mem s) root y) ->
  exists s' p', pipewrite pi addr (Z.of_nat n) (mkWorld s e) = Ok (Z.of_nat n) (mkWorld s' e) /\
    user_pipe s' p' (q ++ uread (k_mem s) root addr n) /\ k_mem s' = k_mem s /\
    pi_readopen p' = true /\ pi_writeopen p' = pi_writeopen p.
Proof.
  intros U Hro Hcap Ha Hlt Hm. pose proof (at_pipe_locked s p q U) as A. destruct U as [U Hc Hh Hl].
  destruct (pipewrite_loop_ok (Z.of_nat n) addr n _ 0 p q (S (Z.to_nat (Z.of_nat n) + length e)) A Hro)
    as (p' & E & Q & R1 & R2); try lia.
  { intros y Hy. apply Hm. lia. }
  rewrite Z.add_0_r in Q. cbn in Q.
  set (s' := s <| k_pipes := <[pi := p']> (k_pipes s) |> <| k_procs ::= woken (ChPipeRead pi) pr |>).
  exists s', p'. split_and!; auto.
  - unfold pipewrite. eapply run_bind; [by apply curproc_ok|]. kstep.
    eapply run_bind; [exact E|].
    eapply run_bind; [apply (wakeup_ok _ _ pr); cbn; rewrite ?Hh; auto; set_solver|].
    kstep. unfold ret. f_equal. unfold s'. clear - Hh. kstate. by apply filter_lock_cons; set_solver.
  - split; auto; cbn; [|by unfold woken; rewrite length_imap].
    apply at_pipe_woken. by eapply at_pipe_put.
Qed.

Lemma piperead_ok s p q addr (n : nat) :
  let m := Nat.min n (length q) in
  user_pipe s p q -> q <> [] -> 0 <= addr -> addr + Z.of_nat m < 2 ^ 64 ->
  (forall y, addr <= y < addr + Z.of_nat m -> umapped (k_mem s) root y) ->
  exists s' p', piperead pi addr (Z.of_nat n) (mkWorld s e) = Ok (Z.of_nat m) (mkWorld s' e) /\
    user_pipe s' p' (drop m q) /\
    (forall y, is_va y -> upage (k_mem s') root y = upage (k_mem s) root y) /\
    (forall y, umapped (k_mem s) root y -> uload (k_mem s') root y =
       if in_range addr m y then nth (Z.to_nat (y - addr)) q 0 else uload (k_mem s) root y).
Proof.
  intros m U Hq Ha Hlt Hm. pose proof (at_pipe_locked s p q U) as A. destruct U as [U Hc Hh Hl].
  destruct (piperead_copy_ok addr n _ 0 p q A) as (s1 & p' & E & [T1 T2 T3 T4] & W); try lia.
  { intros y Hy. apply Hm. lia. }
  rewrite Z.add_0_r in *. cbn in T2, T3, T4.
  set (s' := s <| k_pipes := <[pi := p']> (k_pipes s) |> <| k_mem := k_mem s1 |>
    <| k_procs ::= woken (ChPipeWrite pi) pr |>).
  exists s', p'. split_and!; auto.
  - unfold piperead. eapply run_bind; [by apply curproc_ok|]. kstep.
    eapply run_bind.
    { unfold waiting. cbn [piperead_wait]. eapply run_bind; [apply get_pipe_ok, A|].
      rewrite (pipe_empty_spec _ _ (ap_queue _ _ _ U)), bool_decide_false by done. reflexivity. }
    cbn [negb]. rewrite Nat2Z.id. eapply run_bind; [exact E|]. rewrite T2.
    eapply run_bind; [apply (wakeup_ok _ _ pr); cbn; rewrite ?Hh; auto; set_solver|].
    kstep. unfold ret, s'. rewrite Z.add_0_l. f_equal. clear - Hh. kstate. by apply filter_lock_cons; set_solver.
  - split; auto; cbn; [|by unfold woken; rewrite length_imap].
    apply at_pipe_woken. destruct T1 as [B1 B2 B3 B4 B5]. destruct U as [U1 U2 U3 U4 U5]. split; auto; cbn.
    + eapply uspace_ext; [exact B3|done|by rewrite T2|by rewrite T2|cbn; rewrite Hh; set_solver].
    + by rewrite lookup_insert_eq.
Qed.
End Transfer.

(** A pipe of a process with one page of memory. *)
Definition empty_pipe : pipe := mkPipe (replicate 512 0) 0 0 true true.

Lemma space_pipe s l root :
  uspace s l root -> k_procs s = k_procs blank_space -> k_held s = [] -> k_cur s = Some 0%nat -> root = nth_page 1 ->
  user_pipe 0 0 root l (s <| k_pipes := {[ 0 := empty_pipe ]} |>) empty_pipe [].
Proof.
  intros U Hp Hh Hc ->. split; cbn; [|exact Hc|exact Hh|by rewrite Hp]. split; cbn.
  - eexists. rewrite Hp. split_and!; reflexivity.
  - rewrite Hh. apply not_elem_of_nil.
  - eapply uspace_ext; [exact U|reflexivity..|]. cbn. rewrite Hh. apply not_elem_of_nil.
  - apply lookup_singleton_eq.
  - split; [reflexivity|cbn; lia|cbn; lia|reflexivity|done].
Qed.

Lemma user_space_pipe : exists s l,
  user_pipe 0 0 (nth_page 1) l s empty_pipe [] /\ forall y, 0 <= y < 4096 -> umapped (k_mem s) (nth_page 1) y.
Proof.
  destruct user_space_ok as (l & U & Es & Hm). pose proof (mem_fields blank_space (k_mem user_space) (k_freelist user_space)) as F.
  rewrite <- Es in F. destruct F as (F1 & F2 & F3). clear Es. generalize dependent user_space. intros s U Hm F1 F2 F3.
  exists (s <| k_pipes := {[ 0 := empty_pipe ]} |>), l. split; [by apply space_pipe|exact Hm].
Qed.

(** C32: A pipe delivers the bytes written to it, in order.  If there is room,
    pipewrite() of [n] bytes from [src] returns [n], and a piperead() of the
    whole contents to [dst] then returns the number of bytes and stores at
    [dst] what the pipe held before followed by the bytes that were at
    [src]; the pipe is then empty and no other user byte has changed. *)
Theorem pipe_transfer pi pr root l e s p q src dst n :
  user_pipe pi pr root l s p q -> pi_readopen p = true -> (0 < n)%nat -> (length q + n <= 512)%nat ->
  0 <= src -> src + Z.of_nat n < 2 ^ 64 -> 0 <= dst -> dst + Z.of_nat (length q + n) < 2 ^ 64 ->
  (forall y, src <= y < src + Z.of_nat n -> umapped (k_mem s) root y) ->
  (forall y, dst <= y < dst + Z.of_nat (length q + n) -> umapped (k_mem s) root y) ->
  exists s1 s2 p2, pipewrite pi src (Z.of_nat n) (mkWorld s e) = Ok (Z.of_nat n) (mkWorld s1 e) /\
    piperead pi dst (Z.of_nat (length q + n)) (mkWorld s1 e) = Ok (Z.of_nat (length q + n)) (mkWorld s2 e) /\
    uread (k_mem s2) root dst (length q + n) = q ++ uread (k_mem s) root src n /\
    user_pipe pi pr root l s2 p2 [] /\
    (forall y, umapped (k_mem s) root y -> in_range dst (length q + n) y = false ->
       uload (k_mem s2) root y = uload (k_mem s) root y).
Proof.
  intros U Hro Hn Hcap Hs1 Hs2 Hd1 Hd2 Hms Hmd.
  destruct (pipewrite_ok pi pr root l e s p q src n U Hro Hcap Hs1 Hs2 Hms) as (s1 & p1 & E1 & U1 & M1 & R1 & _).
  set (bytes := q ++ uread (k_mem s) root src n) in *.
  assert (length bytes = (length q + n)%nat) as Hlen.
  { unfold bytes, uread. by rewrite length_app, length_fmap, length_seq. }
  destruct (piperead_ok pi pr root l e s1 p1 bytes dst (length q + n) U1) as (s2 & p2 & E2 & U2 & G2 & D2);
    rewrite ?Hlen, ?Nat.min_id; auto.
  { intros Hb. rewrite Hb in Hlen. cbn in Hlen. lia. }
  { rewrite M1. done. }
  rewrite Hlen, Nat.min_id, M1 in *. rewrite drop_ge in U2 by lia.
  exists s1, s2, p2. split_and!; auto.
  - apply list_eq_same_length with (n := (length q + n)%nat); [done|by unfold uread; rewrite length_fmap, length_seq|].
    intros i x y Hi. unfold uread at 1. rewrite list_lookup_fmap, lookup_seq_lt by done. cbn.
    rewrite D2 by (apply Hmd; lia). rewrite (proj2 (in_range_spec _ _ _)) by lia.
    intros [= <-] Hy. replace (dst + Z.of_nat i - dst) with (Z.of_nat i) by lia. rewrite Nat2Z.id.
    by apply nth_lookup_Some.
  - intros y Hy Ho. rewrite D2 by done. by rewrite Ho.
Qed.

(** An instance of [pipe_transfer]. *)
Lemma pipe_transfer_witness : exists s l s1 s2, user_pipe 0 0 (nth_page 1) l s empty_pipe [] /\
  pipewrite 0 8 4 (mkWorld s []) = Ok 4 (mkWorld s1 []) /\
  piperead 0 100 4 (mkWorld s1 []) = Ok 4 (mkWorld s2 []) /\
  uread (k_mem s2) (nth_page 1) 100 4 = uread (k_mem s) (nth_page 1) 8 4.
Proof.
  destruct user_space_pipe as (s & l & U & Hm).
  destruct (pipe_transfer 0 0 (nth_page 1) l [] s empty_pipe [] 8 100 4)
    as (s1 & s2 & p2 & E1 & E2 & R & _).
  - exact U.
  - reflexivity.
  - lia.
  - cbn. lia.
  - lia.
  - reflexivity.
  - lia.
  - reflexivity.
  - intros y Hy. apply Hm. lia.
  - intros y Hy. apply Hm. cbn in Hy. lia.
  - exists s, l, s1, s2. split; [exact U|]. split; [exact E1|]. split; [exact E2|exact R].
Defined.
