(* ===== verification/FsAlloc.v ===== *)
(** The free-block bitmap of fs.c, inside a transaction.

    [used view sb b]: the bitmap, as the transaction sees it, marks block [b]
    in use.  balloc() finds and marks the first free block and zeroes it,
    bfree() clears the mark; both only through the log. *)

From S2P Require Import Prelude Layout Kernel Sched Bio Log Fs Ring Cache Crash LogProof Transaction.

(** ** Bits of a block *)

Definition bit_test (data : list Z) (bi : Z) : bool := negb (Z.land (bit_byte data bi) (bit_mask bi) =? 0).

Lemma bit_test_testbit data bi : bit_test data bi = Z.testbit (bit_byte data bi) (bi mod 8).
Proof.
  pose proof (Z.mod_pos_bound bi 8 ltac:(lia)). unfold bit_test, bit_mask.
  rewrite Z.shiftl_1_l. destruct (Z.testbit (bit_byte data bi) (bi mod 8)) eqn:E.
  - destruct (Z.eqb_spec (Z.land (bit_byte data bi) (2 ^ (bi mod 8))) 0) as [E0|]; [|done].
    assert (Z.testbit (Z.land (bit_byte data bi) (2 ^ (bi mod 8))) (bi mod 8) = true) as T
      by (rewrite Z.land_spec, E, Z.pow2_bits_true by lia; done).
    by rewrite E0, Z.bits_0 in T.
  - destruct (Z.eqb_spec (Z.land (bit_byte data bi) (2 ^ (bi mod 8))) 0) as [|N]; [done|]. destruct N.
    apply Z.bits_inj'. intros n Hn. rewrite Z.land_spec, Z.bits_0, Z.pow2_bits_eqb by lia.
    destruct (Z.eqb_spec (bi mod 8) n) as [<-|]; [by rewrite E|apply andb_false_r].
Qed.

Lemma byte_index (data : list Z) bi : 0 <= bi < 8 * Z.of_nat (length data) -> (Z.to_nat (bi / 8) < length data)%nat.
Proof. intros. Z.to_euclidean_division_equations. lia. Qed.

Lemma same_bit bi bj : 0 <= bi -> 0 <= bj -> bi / 8 = bj / 8 -> bi mod 8 = bj mod 8 -> bi = bj.
Proof. intros. Z.to_euclidean_division_equations. lia. Qed.

(** Writing one byte changes the bits of that byte only. *)
Lemma bit_byte_insert data bi bj v :
  0 <= bi < 8 * Z.of_nat (length data) -> 0 <= bj ->
  bit_byte (<[Z.to_nat (bi / 8) := v]> data) bj = if bj / 8 =? bi / 8 then v else bit_byte data bj.
Proof.
  intros Hi Hj. unfold bit_byte. pose proof (byte_index data bi Hi) as Hb.
  assert (0 <= bi / 8 /\ 0 <= bj / 8) as [D1 D2] by (split; apply Z.div_pos; lia).
  rewrite !nth_lookup. destruct (Z.eqb_spec (bj / 8) (bi / 8)) as [->|].
  - by rewrite list_lookup_insert_eq.
  - rewrite list_lookup_insert_ne by lia. done.
Qed.

Lemma bit_test_set data bi bj :
  0 <= bi < 8 * Z.of_nat (length data) -> 0 <= bj ->
  bit_test (bit_set bi data) bj = if bj =? bi then true else bit_test data bj.
Proof.
  intros Hi Hj. rewrite !bit_test_testbit. unfold bit_set. rewrite bit_byte_insert by done.
  pose proof (Z.mod_pos_bound bi 8 ltac:(lia)). pose proof (Z.mod_pos_bound bj 8 ltac:(lia)).
  destruct (Z.eqb_spec (bj / 8) (bi / 8)) as [E|E].
  - unfold bit_mask. rewrite Z.lor_spec, Z.shiftl_1_l, Z.pow2_bits_eqb by lia.
    destruct (Z.eqb_spec bj bi) as [->|N]; [by rewrite Z.eqb_refl, orb_true_r|].
    destruct (Z.eqb_spec (bi mod 8) (bj mod 8)) as [E2|]; [destruct N; apply same_bit; lia|].
    rewrite orb_false_r. unfold bit_byte. by rewrite E.
  - destruct (Z.eqb_spec bj bi) as [->|]; [done|done].
Qed.

Lemma bit_test_clear data bi bj :
  0 <= bi < 8 * Z.of_nat (length data) -> 0 <= bj ->
  bit_test (bit_clear bi data) bj = if bj =? bi then false else bit_test data bj.
Proof.
  intros Hi Hj. rewrite !bit_test_testbit. unfold bit_clear. rewrite bit_byte_insert by done.
  pose proof (Z.mod_pos_bound bi 8 ltac:(lia)). pose proof (Z.mod_pos_bound bj 8 ltac:(lia)).
  destruct (Z.eqb_spec (bj / 8) (bi / 8)) as [E|E].
  - unfold bit_mask, u8. change 256 with (2 ^ 8).
    rewrite Z.land_spec, Z.mod_pow2_bits_low, Z.lnot_spec, Z.shiftl_1_l, Z.pow2_bits_eqb by lia.
    destruct (Z.eqb_spec bj bi) as [->|N]; [by rewrite Z.eqb_refl, andb_false_r|].
    destruct (Z.eqb_spec (bi mod 8) (bj mod 8)) as [E2|]; [destruct N; apply same_bit; lia|].
    cbn [negb]. rewrite andb_true_r. unfold bit_byte. by rewrite E.
  - destruct (Z.eqb_spec bj bi) as [->|]; [done|done].
Qed.

(** The search of balloc() finds the first clear bit. *)
Lemma balloc_scan_spec n b size data : forall bi,
  match balloc_scan n bi b size data with
  | Some x => bi <= x < bi + Z.of_nat n /\ b + x < size /\ bit_test data x = false /\
      forall y, bi <= y < x -> bit_test data y = true
  | None => forall y, bi <= y < bi + Z.of_nat n -> b + y < size -> bit_test data y = true
  end.
Proof.
  induction n as [|n IH]; intros bi; cbn [balloc_scan]; [lia|].
  destruct (Z.ltb_spec (b + bi) size); [|lia].

  destruct (Z.land (bit_byte data bi) (bit_mask bi) =? 0) eqn:E.
  - split_and!; [lia|lia|lia| |lia]. unfold bit_test. by rewrite E.
  - assert (bit_test data bi = true) as Hbi by (unfold bit_test; by rewrite E).
    specialize (IH (bi + 1)). destruct (balloc_scan n (bi + 1) b size data) as [x|].
    + destruct IH as (H1 & H2 & H3 & H4). split_and!; [lia|lia|done|done|].
      intros y Hy. destruct (Z.eq_dec y bi) as [->|]; [done|]. apply H4. lia.
    + intros y Hy Hs. destruct (Z.eq_dec y bi) as [->|]; [done|]. apply IH; lia.
Qed.

(** ** balloc() and bfree() *)

Definition used (view : Z -> block) (sb : superblock) (b : Z) : bool :=
  bit_test (view (BBLOCK b sb)) (b mod BPB).

Lemma BBLOCK_same sb b x :
  b mod BPB = 0 -> b <= x < b + BPB -> BBLOCK x sb = BBLOCK b sb /\ x mod BPB = x - b.
Proof.
  intros Hb Hx. unfold BBLOCK. assert (BPB = 8192) as E by done. rewrite E in *.
  assert (x / 8192 = b / 8192) as -> by (Z.to_euclidean_division_equations; lia).
  split; [done|]. Z.to_euclidean_division_equations. lia.
Qed.

Lemma BBLOCK_inj sb x r :
  0 <= x < 2 ^ 31 -> 0 <= r < 2 ^ 31 -> BBLOCK x sb = BBLOCK r sb -> x mod BPB = r mod BPB -> x = r.
Proof.
  unfold BBLOCK, u32. assert (BPB = 8192) as E by done. rewrite E. intros Hx Hr E1 E2.
  assert (x / 8192 = r / 8192) as E3; [|Z.to_euclidean_division_equations; lia].
  assert (0 <= x / 8192 < 2 ^ 31) by (Z.to_euclidean_division_equations; lia).
  assert (0 <= r / 8192 < 2 ^ 31) by (Z.to_euclidean_division_equations; lia).
  pose proof (Z.div_mod (x / 8192 + sb_bmapstart sb) (2 ^ 32) ltac:(lia)) as D1.
  pose proof (Z.div_mod (r / 8192 + sb_bmapstart sb) (2 ^ 32) ltac:(lia)) as D2. rewrite E1 in D1. clear E1 E2.
  generalize dependent (x / 8192). generalize dependent (r / 8192). intros a Ha D2 b Hb D1. lia.
Qed.

Section Alloc.
Context (me : nat) (pid dev start lsize : Z) (e : list (kernel -> kernel)) (sb : superblock).
Hypothesis Hdev : 0 <= dev < 2 ^ 31.

(** The bitmap lies outside the log, and marks the log in use. *)
Record bitmap_ok (view : Z -> block) : Prop := {
  bm_size : 0 <= sb_size sb < 2 ^ 31;
  bm_range b : 0 <= b < sb_size sb -> 0 <= BBLOCK b sb < 2 ^ 31 /\ ~ (start <= BBLOCK b sb < start + lsize);
  bm_log b : 0 <= b < sb_size sb -> used view sb b = false -> ~ (start <= b < start + lsize);
  bm_len b : 0 <= b < sb_size sb -> length (view (BBLOCK b sb)) = 1024%nat;
}.

Definition allocated (view : Z -> block) (r : Z) : Z -> block :=
  zset (zset view (BBLOCK r sb) (bit_set (r mod BPB) (view (BBLOCK r sb)))) r zero_block.

(** The branch that takes the free bit [bi] of the bitmap block for [b]. *)
Lemma balloc_found H d bs view b bi i s :
  tx_in me pid dev start lsize ((BBLOCK b sb, i) :: H) s d bs view -> bitmap_ok view ->
  Z.of_nat (length bs) < lsize - 2 -> (length bs + length H < 29)%nat -> 0 <= b < sb_size sb -> b mod BPB = 0 ->
  0 <= bi < BPB -> b + bi < sb_size sb -> used view sb (b + bi) = false -> b + bi ∉ H.*1 ->
  exists s', (let* _ := mod_data i (bit_set bi) in let* _ := log_write i in let* _ := brelse i in
      let* _ := bzero dev (b + bi) in ret (b + bi)) (mkWorld s e) = Ok (b + bi) (mkWorld s' e) /\
    tx_in me pid dev start lsize H s' d (absorb (absorb bs (BBLOCK (b + bi) sb)) (b + bi)) (allocated view (b + bi)) /\
    tframe s s' /\ k_writes s' = k_writes s.
Proof.
  intros K B Hl Hh Hb Hmod Hbi Hsz Hfree Hn. destruct (bm_range _ B b Hb) as [R1 R2].
  destruct (tx_update _ _ _ _ _ e H s d bs view _ i (bit_set bi) K R1 R2 ltac:(lia)) as (s2 & E3 & S2 & F2 & W2).
  destruct (BBLOCK_same sb b (b + bi) Hmod ltac:(lia)) as [Q1 Q2].
  pose proof (bm_size _ B) as Bz. pose proof (length_absorb bs (BBLOCK b sb)) as La.
  destruct (update_block_ok _ _ dev start lsize e H s2 d _ _ (b + bi) (fun _ => zero_block) S2 Hn) as (s3 & E4 & S3 & F3 & W3);
    [lia|lia|apply (bm_log _ B); [lia|done]|lia|].
  exists s3. split_and!; [| |eauto using tframe_trans|congruence].
  - rewrite E3. unfold bzero. rewrite (u32_small dev), (u32_small (b + bi)) by lia. by eapply run_bind; [exact E4|].
  - unfold allocated. rewrite Q1, Q2. by replace (b + bi - b) with bi by lia.
Qed.

(** The locked blocks are in use, and not of the bitmap. *)
Definition held_data (view : Z -> block) (H : list (Z * nat)) : Prop :=
  forall x, x ∈ H.*1 -> 0 <= x < sb_size sb /\ used view sb x = true /\ forall b, 0 <= b < sb_size sb -> BBLOCK b sb <> x.

Lemma balloc_loop_ok H d bs view b0 fuel : forall b s,
  tx_in me pid dev start lsize H s d bs view -> k_sb s = sb -> bitmap_ok view -> held_data view H ->
  Z.of_nat (length bs) < lsize - 2 -> (length bs + length H < 29)%nat -> 0 <= b -> b mod BPB = 0 ->
  b <= b0 < sb_size sb -> used view sb b0 = false ->
  (forall x, 0 <= x < b -> used view sb x = true) -> (Z.to_nat ((sb_size sb - b) / BPB) < fuel)%nat ->
  exists r s', balloc_loop fuel dev b (mkWorld s e) = Ok r (mkWorld s' e) /\
    0 <= r < sb_size sb /\ used view sb r = false /\ (forall x, 0 <= x < r -> used view sb x = true) /\
    tx_in me pid dev start lsize H s' d (absorb (absorb bs (BBLOCK r sb)) r) (allocated view r) /\
    tframe s s' /\ k_writes s' = k_writes s.
Proof.
  assert (BPB = 8192) as EB by done.
  induction fuel as [|fuel IH]; intros b s S Esb B Hd Hl Hh Hb Hmod Hb0 Hf Hu Hfuel; [lia|].
  assert (BBLOCK b sb ∉ H.*1) as Hnb by (intros Hin; by apply (proj2 (proj2 (Hd _ Hin)) b ltac:(lia))).
  destruct (tx_bread _ _ _ _ _ e H s d bs view (BBLOCK b sb) S Hnb ltac:(lia)) as (i & s1 & E1 & K1 & F1 & W1).
  destruct (tx_data _ _ _ _ _ e _ _ _ _ _ _ _ K1) as (bf & E2 & V2).
  pose proof (balloc_scan_spec (Z.to_nat BPB) b (sb_size sb) (view (BBLOCK b sb)) 0) as Sc.
  assert (Z.of_nat (Z.to_nat BPB) = BPB) as EN by done. rewrite EN in Sc.
  assert (forall x, 0 <= x < BPB -> used view sb (b + x) = bit_test (view (BBLOCK b sb)) x) as HU.
  { intros x Hx. unfold used. destruct (BBLOCK_same sb b (b + x) Hmod ltac:(lia)) as [-> ->]. f_equal. lia. }
  assert (forall x y, (forall z, 0 <= z < y -> bit_test (view (BBLOCK b sb)) z = true) -> y <= BPB ->
    0 <= x < b + y -> used view sb x = true) as Hlow.
  { intros x y Hz Hy Hx. destruct (Z.lt_ge_cases x b); [apply Hu; lia|]. replace x with (b + (x - b)) by lia.
    rewrite HU by lia. apply Hz. lia. }
  cbn [balloc_loop]. rewrite bind_gets. rewrite Esb. destruct (Z.ltb_spec b (sb_size sb)); [|lia].
  destruct (balloc_scan (Z.to_nat BPB) 0 b (sb_size sb) (view (BBLOCK b sb))) as [bi|] eqn:Es.
  - destruct Sc as (S1 & S2 & S3 & S4).
    assert (used view sb (b + bi) = false) as Hfree by (rewrite HU by lia; done).
    destruct (balloc_found H d bs view b bi i s1 K1 B Hl Hh) as (s' & E3 & S' & F' & W');
      [lia..|done|intros Hin; destruct (Hd _ Hin) as (_ & ? & _); congruence|].
    exists (b + bi), s'. split_and!; [|lia|lia|done| |done|eauto using tframe_trans|congruence].
    + eapply run_bind; [exact E1|]. eapply run_bind; [exact E2|]. rewrite V2, Es. exact E3.
    + intros x Hx. apply (Hlow x bi); [exact S4|lia|done].
  - assert (b + BPB <= b0) as Hb1.
    { destruct (Z.lt_ge_cases b0 (b + BPB)); [|done]. exfalso.
      assert (used view sb b0 = true); [|congruence]. replace b0 with (b + (b0 - b)) by lia.
      rewrite HU by lia. apply Sc; lia. }
    destruct (tx_brelse _ _ _ _ _ e H s1 d bs view _ i K1 (tx_clean _ _ _ _ _ _ _ _ _ _ _ S Hnb)) as (s2 & E3 & S2 & F2 & W2).
    destruct (IH (b + BPB) s2 S2) as (r & s' & E4 & R3 & R4 & R5 & R6 & R7 & R8); auto; try lia.
    + rewrite (tframe_sb _ _ F2), (tframe_sb _ _ F1). done.
    + rewrite <- Z.add_mod_idemp_l, Hmod by lia. done.
    + intros x Hx. apply (Hlow x BPB); [intros; apply Sc; lia|lia|done].
    + rewrite EB in *. Z.to_euclidean_division_equations. lia.
    + exists r, s'. split_and!; [|lia|lia|done|done|done|eauto using tframe_trans|congruence].
      eapply run_bind; [exact E1|]. eapply run_bind; [exact E2|]. rewrite V2, Es.
      eapply run_bind; [exact E3|exact E4].
Qed.
End Alloc.

(** balloc() when a block in use is locked, as bmap() calls it. *)
Lemma balloc_ok me pid dev start lsize e sb H d bs view s b0 :
  0 <= dev < 2 ^ 31 -> tx_in me pid dev start lsize H s d bs view -> k_sb s = sb ->
  bitmap_ok start lsize sb view -> held_data sb view H -> Z.of_nat (length bs) < lsize - 2 -> (length H <= 1)%nat ->
  0 <= b0 < sb_size sb -> used view sb b0 = false ->
  exists r s', balloc dev (mkWorld s e) = Ok r (mkWorld s' e) /\
    0 <= r < sb_size sb /\ used view sb r = false /\ (forall x, 0 <= x < r -> used view sb x = true) /\
    tx_in me pid dev start lsize H s' d (absorb (absorb bs (BBLOCK r sb)) r) (allocated sb view r) /\
    tframe s s' /\ k_writes s' = k_writes s.
Proof.
  intros Hd S Esb B Hh Hl Hlen Hb0 Hf.
  pose proof (tx_fit _ _ _ _ (ts_tx _ _ _ _ _ _ _ _ _ _ S)) as Fit. change LOGSIZE with 30 in Fit.
  destruct (balloc_loop_ok me pid dev start lsize e sb Hd H d bs view b0 (Datatypes.S (Datatypes.S (Z.to_nat (sb_size sb / BPB)))) 0 s)
    as (r & s' & E & R); auto; try lia.
  { rewrite Z.sub_0_r. lia. }
  exists r, s'. split; [|exact R]. unfold balloc. rewrite bind_gets. cbn [w_k]. rewrite Esb. exact E.
Qed.

Lemma used_allocated start lsize sb view r x :
  bitmap_ok start lsize sb view -> 0 <= r < sb_size sb -> BBLOCK r sb <> r -> 0 <= x < sb_size sb -> BBLOCK x sb <> r ->
  used (allocated sb view r) sb x = if x =? r then true else used view sb x.
Proof.
  intros B Hr Hne Hx Hxr. unfold used, allocated. rewrite zset_ne by done.
  assert (BPB = 8192) as EB by done. pose proof (Z.mod_pos_bound r BPB ltac:(lia)). pose proof (Z.mod_pos_bound x BPB ltac:(lia)).
  unfold zset. destruct (Z.eqb_spec (BBLOCK x sb) (BBLOCK r sb)) as [Eb|Eb].
  - rewrite bit_test_set by (rewrite ?(bm_len _ _ _ _ B) by done; lia). rewrite Eb.
    destruct (Z.eqb_spec (x mod BPB) (r mod BPB)) as [Em|Em], (Z.eqb_spec x r) as [->|N]; try done.
    destruct N. pose proof (bm_size _ _ _ _ B). eapply BBLOCK_inj; eauto; lia.
  - destruct (Z.eqb_spec x r) as [->|]; done.
Qed.

(** C34: balloc() in a transaction that has room in the log for two more blocks,
    when some block is free and no block of the bitmap is marked free, returns
    the first block the bitmap marks free, marks it, and only it, in use, zeroes
    it, and changes no block but it and its block of the bitmap; it does not
    panic and writes nothing to the disk before the commit. *)
Theorem balloc_spec me pid dev start lsize e sb d bs view s b0 :
  0 <= dev < 2 ^ 31 -> tx_st me pid dev start lsize s d bs view -> k_sb s = sb ->
  bitmap_ok start lsize sb view -> Z.of_nat (length bs) < lsize - 2 ->
  (forall b x, 0 <= b < sb_size sb -> used view sb b = false -> 0 <= x < sb_size sb -> BBLOCK x sb <> b) ->
  0 <= b0 < sb_size sb -> used view sb b0 = false ->
  exists r s' bs' view', balloc dev (mkWorld s e) = Ok r (mkWorld s' e) /\
    0 <= r < sb_size sb /\ used view sb r = false /\ (forall x, 0 <= x < r -> used view sb x = true) /\
    tx_st me pid dev start lsize s' d bs' view' /\ k_writes s' = k_writes s /\
    view' r = zero_block /\
    (forall x, x <> r -> x <> BBLOCK r sb -> view' x = view x) /\
    (forall x, 0 <= x < sb_size sb -> used view' sb x = if x =? r then true else used view sb x).
Proof.
  intros Hd S Esb B Hl Hbm Hb0 Hf.
  destruct (balloc_ok me pid dev start lsize e sb [] d bs view s b0) as (r & s' & E & R1 & R2 & R3 & R4 & R5 & R6); auto.
  { intros x Hx. set_solver. }
  exists r, s'. eexists _, (allocated sb view r). split_and!; [done|lia|lia|done|done|exact R4|done|apply zset_eq| |].
  - intros x H1 H2. unfold allocated. by rewrite !zset_ne.
  - intros x Hx. eapply used_allocated; eauto.
Qed.

(** Bfree() of a block in use marks it free and changes nothing else; of a
    block that is free already, it panics. *)
Theorem bfree_spec me pid dev start lsize e sb d bs view s b :
  0 <= dev < 2 ^ 31 -> tx_st me pid dev start lsize s d bs view -> k_sb s = sb ->
  bitmap_ok start lsize sb view -> Z.of_nat (length bs) < lsize - 1 -> 0 <= b < sb_size sb ->
  if used view sb b then
    exists s' view', bfree dev b (mkWorld s e) = Ok tt (mkWorld s' e) /\
      tx_st me pid dev start lsize s' d (absorb bs (BBLOCK b sb)) view' /\ k_writes s' = k_writes s /\
      (forall x, x <> BBLOCK b sb -> view' x = view x) /\
      (forall x, 0 <= x < sb_size sb -> used view' sb x = if x =? b then false else used view sb x)
  else exists w, bfree dev b (mkWorld s e) = Panic "freeing free block" w.
Proof.
  intros Hd S Esb B Hl Hb. destruct (bm_range _ _ _ _ B b Hb) as [R1 R2].
  pose proof (tx_fit _ _ _ _ (ts_tx _ _ _ _ _ _ _ _ _ _ S)) as Fit. change LOGSIZE with 30 in Fit.
  destruct (tx_bread _ _ _ _ _ e [] s d bs view (BBLOCK b sb) S ltac:(set_solver) ltac:(cbn; lia)) as (i & s1 & E1 & K1 & F1 & W1).
  destruct (tx_data _ _ _ _ _ e _ _ _ _ _ _ _ K1) as (bf & E2 & V2).
  assert (forall r, (if Z.land (bit_byte (view (BBLOCK b sb)) (b mod BPB)) (bit_mask (b mod BPB)) =? 0
      then panic "freeing free block"
      else mod_data i (bit_clear (b mod BPB)) ;; log_write i ;; brelse i) (mkWorld s1 e) = r ->
    bfree dev b (mkWorld s e) = r) as Run.
  { intros r Hr. unfold bfree. rewrite bind_gets. cbn [w_k]. rewrite Esb, u32_small by lia.
    eapply run_bind; [exact E1|]. eapply run_bind; [exact E2|]. by rewrite V2. }
  unfold used at 1, bit_test. destruct (_ =? 0); cbn [negb].
  - eexists. apply Run. done.
  - destruct (tx_update _ _ _ _ _ e [] s1 d bs view _ i (bit_clear (b mod BPB)) K1 R1 R2 Hl) as (s2 & E3 & S2 & F2 & W2).
    exists s2. eexists. split_and!; [|exact S2|congruence| |].
    + apply Run. specialize (E3 unit (fun _ => ret tt)). unfold bind in *.
      destruct (mod_data i _ _) as [? w1| | | |]; try done. destruct (log_write i w1) as [? w2| | | |]; try done.
      destruct (brelse i w2) as [[] w3| | | |]; done.
    + intros x Hx. by rewrite zset_ne.
    + intros x Hx. assert (BPB = 8192) as EB by done.
      pose proof (Z.mod_pos_bound b BPB ltac:(lia)). pose proof (Z.mod_pos_bound x BPB ltac:(lia)).
      unfold used, zset. destruct (Z.eqb_spec (BBLOCK x sb) (BBLOCK b sb)) as [Eb|Eb].
      * rewrite bit_test_clear by (rewrite ?(bm_len _ _ _ _ B) by done; lia). rewrite Eb.
        destruct (Z.eqb_spec (x mod BPB) (b mod BPB)) as [Em|Em], (Z.eqb_spec x b) as [->|N]; try done.
        destruct N. pose proof (bm_size _ _ _ _ B). eapply BBLOCK_inj; eauto; lia.
      * destruct (Z.eqb_spec x b) as [->|]; done.
Qed.

(** ** On-disk inodes *)

Lemma rdn_wr_addrs_out n addrs : forall d off off',
  (off + 4 * length addrs <= length d)%nat -> (off' + n <= off \/ off + 4 * length addrs <= off')%nat ->
  rdn n (wr_addrs d off addrs) off' = rdn n d off'.
Proof.
  induction addrs as [|a addrs IH]; intros d off off' H Ho; cbn [wr_addrs length] in *; [done|].
  rewrite IH by (rewrite ?length_wrn; lia). apply rdn_wrn_disjoint; lia.
Qed.

Lemma rdn_wr_addrs_in addrs : forall d off i a,
  (off + 4 * length addrs <= length d)%nat -> addrs !! i = Some a ->
  rdn 4 (wr_addrs d off addrs) (off + 4 * i) = a mod 2 ^ 32.
Proof.
  induction addrs as [|b addrs IH]; intros d off i a H Hi; [done|]. cbn [wr_addrs length] in *.
  destruct i as [|i]; cbn in Hi.
  - simplify_eq. rewrite Nat.mul_0_r, Nat.add_0_r.
    rewrite rdn_wr_addrs_out by (rewrite ?length_wrn; lia). by rewrite rdn_wrn_same by lia.
  - replace (off + 4 * S i)%nat with (off + 4 + 4 * i)%nat by lia. apply IH; [rewrite length_wrn; lia|done].
Qed.

Lemma i16_mod x : - 2 ^ 15 <= x < 2 ^ 15 -> i16 (x mod 2 ^ 16) = x.
Proof. intros H. rewrite <- (i16_small x H) at 2. unfold i16, signed. by rewrite Z.mod_mod. Qed.

(** Lengths of blocks with several fields written. *)
Ltac wlen := repeat (rewrite length_wrn; [|solve [wlen]]); lia.

Section Slot.
Context (d : list Z) (off : nat) (di : dinode).
Hypothesis Hl : (off + 64 <= length d)%nat.
Hypothesis Ha : length (di_addrs di) = 13%nat.

Lemma rdn_dip_write_out n off' :
  (off' + n <= off \/ off + 64 <= off')%nat -> rdn n (dip_write off di d) off' = rdn n d off'.
Proof.
  intros Ho. unfold dip_write. rewrite rdn_wr_addrs_out by (rewrite ?Ha; wlen).
  repeat (rewrite rdn_wrn_disjoint; [|wlen|lia]). done.
Qed.

Lemma dip_read_write :
  - 2 ^ 15 <= di_type di < 2 ^ 15 -> - 2 ^ 15 <= di_major di < 2 ^ 15 -> - 2 ^ 15 <= di_minor di < 2 ^ 15 ->
  - 2 ^ 15 <= di_nlink di < 2 ^ 15 -> 0 <= di_size di < 2 ^ 32 -> Forall (fun a => 0 <= a < 2 ^ 32) (di_addrs di) ->
  dip_read (dip_write off di d) off = di.
Proof.
  intros H1 H2 H3 H4 H5 HF. destruct di as [ty ma mi nl sz ad]. cbn in *. unfold dip_read. f_equal.
  1-5: unfold dip_write; cbn [di_type di_major di_minor di_nlink di_size di_addrs];
    rewrite rdn_wr_addrs_out by (rewrite ?Ha; wlen);
    repeat (rewrite rdn_wrn_disjoint; [|wlen|lia]);
    rewrite rdn_wrn_same by wlen.
  1-4: by apply i16_mod.
  - by apply Z.mod_small.
  - change (Z.to_nat (NDIRECT + 1)) with 13%nat. apply list_eq. intros i. rewrite list_lookup_fmap.
    destruct (ad !! i) as [a|] eqn:E.
    + pose proof (lookup_lt_Some _ _ _ E) as Hi. rewrite lookup_seq_lt by lia. cbn [fmap option_fmap option_map plus].
      unfold dip_write. cbn [di_type di_major di_minor di_nlink di_size di_addrs].
      rewrite (rdn_wr_addrs_in _ _ _ _ a) by (done || (rewrite ?Ha; wlen)).
      f_equal. apply Z.mod_small. rewrite Forall_forall in HF. apply HF. by eapply list_elem_of_lookup_2.
    + apply lookup_ge_None in E. rewrite lookup_seq_ge by lia. done.
Qed.
End Slot.

(** What iupdate() writes, ilock() reads back: encoding an inode into its
    slot of an inode block and decoding it is the identity for field values in
    range, and leaves the other slots of the block alone. *)
Theorem dinode_roundtrip d inum di :
  length d = 1024%nat -> 0 <= inum ->
  - 2 ^ 15 <= di_type di < 2 ^ 15 -> - 2 ^ 15 <= di_major di < 2 ^ 15 -> - 2 ^ 15 <= di_minor di < 2 ^ 15 ->
  - 2 ^ 15 <= di_nlink di < 2 ^ 15 -> 0 <= di_size di < 2 ^ 32 ->
  length (di_addrs di) = 13%nat -> Forall (fun a => 0 <= a < 2 ^ 32) (di_addrs di) ->
  dip_read (dip_write (dip_off inum) di d) (dip_off inum) = di /\
  (forall j, 0 <= j -> j mod IPB <> inum mod IPB ->
     dip_read (dip_write (dip_off inum) di d) (dip_off j) = dip_read d (dip_off j)).
Proof.
  intros Hl Hi H1 H2 H3 H4 H5 Ha HF. assert (IPB = 16) as EI by done.
  assert (forall j, 0 <= j -> (dip_off j + 64 <= 1024)%nat /\ dip_off j = (64 * Z.to_nat (j mod IPB))%nat) as Hoff.
  { intros j Hj. unfold dip_off, sizeof_dinode. rewrite EI. pose proof (Z.mod_pos_bound j 16 ltac:(lia)). lia. }
  destruct (Hoff inum Hi) as [O1 O2]. split; [apply dip_read_write; auto; lia|].
  intros j Hj Hne. destruct (Hoff j Hj) as [O3 O4].
  pose proof (Z.mod_pos_bound j IPB ltac:(lia)). pose proof (Z.mod_pos_bound inum IPB ltac:(lia)).
  unfold dip_read. f_equal; [rewrite rdn_dip_write_out by lia; done..|].
  apply list_fmap_ext. intros i k [-> Hk]%lookup_seq. change (Z.to_nat (NDIRECT + 1)) with 13%nat in Hk. apply rdn_dip_write_out; auto; lia.
Qed.

(** An instance of [dinode_roundtrip]. *)
Lemma dinode_roundtrip_witness :
  let di := mkDinode 2 0 0 1 300 (replicate 13 0) in
  dip_read (dip_write (dip_off 17) di (replicate 1024 9)) (dip_off 17) = di.
Proof.
  intros di. apply (dinode_roundtrip (replicate 1024 9) 17 di).
  - reflexivity.
  - lia.
  - cbn. lia.
  - cbn. lia.
  - cbn. lia.
  - cbn. lia.
  - cbn. lia.
  - reflexivity.
  - apply Forall_replicate. lia.
Defined.
