(* ===== verification/FsExample.v ===== *)
(** A small disk on which the theorems about the buffer cache, the log and the
    block bitmap can be run: block 2 is the log header, 45 the bitmap, and
    blocks 0 to 47 are in use. *)

From S2P Require Import Prelude Layout Kernel Sched Bio Log Fs Ring Cache Crash LogProof Transaction CacheInit FsAlloc.

Definition sb0 : superblock := mkSuperblock FSMAGIC 1000 954 200 30 2 32 45.

Definition disk0 (x : Z) : block :=
  if x =? 45 then replicate 6 255 ++ replicate 1018 0 else replicate 1024 0.

Definition formatted : kernel :=
  one_proc <| k_disk := disk0 |> <| k_sb := sb0 |> <| k_log := mkLog 2 30 0 false 1 0 (replicate 30 0) |>.

Lemma formatted_bufs j b : k_bufs formatted !! j = Some b -> b = zero_buf.
Proof. intros H%list_elem_of_lookup_2. by apply elem_of_replicate_inv in H. Qed.

(** What binit() makes of the zeroed buffers. *)
Lemma formatted_binit : exists bs,
  binit (mkWorld formatted []) = Ok tt (mkWorld (formatted <| k_bufs := bs |>) []) /\
  ring bs (rev (seq 0 NBUF)) /\
  forall j b, (j < NBUF)%nat -> bs !! j = Some b -> b_dev b = 0 /\ b_refcnt b = 0 /\ unlocked (b_lock b).
Proof.
  destruct (binit_ok formatted []) as (bs & E & R & B); [reflexivity|]. exists bs. split; [exact E|]. split; [exact R|].
  intros j b Hj Hb. destruct (B j b Hj Hb) as (b0 & H0 & E0). apply formatted_bufs in H0. subst.
  apply strip_fields in E0 as (-> & _ & _ & -> & -> & _). split; [reflexivity|split; reflexivity].
Qed.

Lemma formatted_ctx bs : proc_ctx (formatted <| k_bufs := bs |>) 0 1.
Proof. split; [reflexivity..|]. eexists. split; reflexivity. Qed.

Lemma formatted_hdr : length (disk0 2) = 1024%nat /\ hb_n (disk0 2) = 0.
Proof. split; vm_compute; reflexivity. Qed.

Lemma formatted_tx bs : bs ≡ₚ [] -> tx_ok 2 30 (disk0 2) bs.
Proof.
  intros ->%Permutation_nil_r. split; [done|lia|apply formatted_hdr|set_solver|apply NoDup_nil_2].
Qed.

(** The file system is idle, and could as well be about to recover. *)
Lemma formatted_idle : exists s, idle 0 1 1 2 30 s disk0 /\ booted 0 1 1 sb0 s disk0 /\ k_sb s = sb0.
Proof.
  destruct formatted_binit as (bs & _ & R & B). exists (formatted <| k_bufs := bs |>).
  assert (cache (formatted <| k_bufs := bs |>) 0 1 1 (fun _ => 0) none disk0) as C.
  { apply (cache_empty _ _ _ _ _ (formatted_ctx bs) R). intros j b Hj Hb.
    destruct (B j b Hj Hb) as (-> & ? & ?). split_and!; [lia|done|done]. }
  split_and!; [| |reflexivity].
  - split; [exact C|reflexivity| |reflexivity..|by apply formatted_tx|apply formatted_hdr].
    split; [reflexivity..|]. intros i b H. done.
  - split; [reflexivity|exact C|reflexivity|cbn; lia..].
Qed.

(** After begin_op(). *)
Lemma formatted_in_tx : exists s, tx_st 0 1 1 2 30 s disk0 [] disk0 /\ k_sb s = sb0.
Proof.
  destruct formatted_idle as (s & I & _ & Hsb).
  exists (s <| k_log ::= fun l => l <| log_outstanding := 1 |> |>). split; [|exact Hsb].
  by apply idle_begin.
Qed.

Definition mark (d : block) : block := <[0%nat := 7]> d.

(** After a transaction that wrote block 50, when end_op() calls commit(). *)
Lemma formatted_ready : exists s pin view,
  ready 0 1 1 2 30 [50] s pin view /\ hb_n (k_disk s 2) = 0.
Proof.
  destruct formatted_in_tx as (s & S & _).
  destruct (update_block_ok 0 1 1 2 30 [] [] s disk0 [] disk0 50 mark S) as (s1 & _ & S1 & _);
    [set_solver|cbn; lia|lia|lia|cbn; lia|].
  change (absorb [] 50) with [50] in S1.
  destruct (end_op_ok 0 1 1 2 30 [] s1 disk0 [50] _ S1) as (s2 & s3 & _ & R & _); [done|].
  exists s2, (pins [50]), (zset disk0 50 (mark (disk0 50))). split; [exact R|].
  pose proof (ca_clean _ _ _ _ _ _ _ (rd_cache _ _ _ _ _ _ _ _ _ R) 2 (rd_hdr _ _ _ _ _ _ _ _ _ R)) as <-.
  apply formatted_hdr.
Qed.

(** ** Instances of the theorems *)

(** An instance of [transaction_atomic]: a transaction that writes block 50. *)
Lemma transaction_atomic_witness : exists s s' ws,
  idle 0 1 1 2 30 s disk0 /\
  (begin_op ;; update_blocks 1 [(50, mark)] ;; end_op) (mkWorld s []) = Ok tt (mkWorld s' []) /\
  k_disk s' 50 = mark (disk0 50) /\ k_writes s' = k_writes s ++ ws /\ (0 < length ws)%nat.
Proof.
  destruct formatted_idle as (s & I & _).
  destruct (transaction_atomic 0 1 1 2 30 [] s disk0 [(50, mark)] I) as (s' & ws & c & E & _ & D & W & Hc & _).
  - discriminate.
  - intros u ->%list_elem_of_singleton. cbn. lia.
  - reflexivity.
  - exists s, s', ws. split; [exact I|]. split; [exact E|]. split; [|split; [exact W|lia]].
    rewrite D by lia. reflexivity.
Defined.

(** An instance of [commit_crash_atomic]: the commit of block 50. *)
Lemma commit_crash_atomic_witness : exists s pin view s' ws,
  ready 0 1 1 2 30 [50] s pin view /\ commit (mkWorld s []) = Ok tt (mkWorld s' []) /\
  k_writes s' = k_writes s ++ ws.
Proof.
  destruct formatted_ready as (s & pin & view & R & Hn).
  destruct (commit_crash_atomic 0 1 1 2 30 [50] [] s pin view R Hn) as (s' & ws & E & W & _).
  exists s, pin, view, s', ws. split; [exact R|split; [exact E|exact W]].
Defined.

(** The disk after a crash that followed the commit of block 50: the header
    lists it and the log has its contents. *)
Definition disk1 (x : Z) : block :=
  if x =? 2 then hb_set_block 0 50 (hb_set_n 1 (disk0 2)) else if x =? 3 then mark (disk0 50) else disk0 x.

Lemma crashed_hdr : length (disk1 2) = 1024%nat /\ hb_n (disk1 2) = 1 /\ listed (disk1 2) = [50].
Proof. split_and!; vm_compute; reflexivity. Qed.

Lemma crashed_booted : exists s, booted 0 1 1 sb0 s disk1.
Proof.
  destruct formatted_binit as (bs & _ & R & B). exists (formatted <| k_disk := disk1 |> <| k_bufs := bs |>).
  split; [reflexivity| |reflexivity|cbn; lia..].
  assert (proc_ctx (formatted <| k_disk := disk1 |> <| k_bufs := bs |>) 0 1) as P by (split; [reflexivity..|]; eexists; split; reflexivity).
  apply (cache_empty _ _ _ _ _ P R). intros j b Hj Hb. destruct (B j b Hj Hb) as (-> & ? & ?). split_and!; [lia|done|done].
Qed.

(** An instance of [recovery_idempotent]: a log with one committed block. *)
Lemma recovery_idempotent_witness : exists s s' ws,
  booted 0 1 1 sb0 s (k_disk s) /\ listed (k_disk s 2) = [50] /\ initlog 1 sb0 (mkWorld s []) = Ok tt (mkWorld s' []) /\
  k_writes s' = k_writes s ++ ws.
Proof.
  destruct crashed_booted as (s & B). pose proof (bt_disk _ _ _ _ _ _ B) as D. rewrite <- D in B.
  destruct (recovery_idempotent 0 1 1 2 30 [] sb0 s B) as (s' & ws & E & W & _).
  - reflexivity.
  - rewrite D. discriminate.
  - rewrite D, (proj2 (proj2 crashed_hdr)). split; [done|lia|apply crashed_hdr| |apply NoDup_singleton].
    intros b ->%list_elem_of_singleton. lia.
  - exists s, s', ws. split; [exact B|]. rewrite D. split; [apply crashed_hdr|]. split; [exact E|exact W].
Defined.

(** An instance of [binit_booted]. *)
Lemma binit_booted_witness : exists s',
  binit (mkWorld formatted []) = Ok tt (mkWorld s' []) /\
  booted 0 1 1 sb0 (formatted <| k_bufs := k_bufs s' |>) disk0.
Proof.
  destruct (binit_booted formatted []) as (s' & E & H).
  - reflexivity.
  - intros j b ->%formatted_bufs. split; reflexivity.
  - exists s'. split; [exact E|].
    change disk0 with (k_disk (formatted <| k_bufs := k_bufs s' |>)).
    apply (H (formatted <| k_bufs := k_bufs s' |>) 0%nat 1 1 sb0).
    + reflexivity.
    + apply formatted_ctx.
    + reflexivity.
    + lia.
    + cbn. lia.
Defined.

(** An instance of [brelse_to_front]: releasing the buffer used longest ago. *)
Lemma brelse_to_front_witness : exists s s',
  ring (k_bufs s) (rev (seq 1 29) ++ [0%nat]) /\ brelse 0 (mkWorld s []) = Ok tt (mkWorld s' []) /\
  ring (k_bufs s') (0%nat :: rev (seq 1 29) ++ []).
Proof.
  destruct formatted_binit as (bs & _ & R & _). change (rev (seq 0 NBUF)) with (rev (seq 1 29) ++ [0%nat]) in R.
  destruct (lookup_lt_is_Some_2 bs 0) as [b Hb]; [rewrite (ring_len _ _ R); lia|].
  pose (b1 := b <| b_lock := my_lock 1 |> <| b_refcnt := 1 |>).
  assert (ring (<[0%nat := b1]> bs) (rev (seq 1 29) ++ [0%nat])) as R1 by (eapply ring_insert; [exact R|exact Hb|reflexivity..]).
  destruct (brelse_to_front 0 1 [] 0 b1 (formatted <| k_bufs := <[0%nat := b1]> bs |>) (rev (seq 1 29)) [])
    as (s' & E & R' & _).
  - apply formatted_ctx.
  - exact R1.
  - cbn. rewrite list_lookup_insert_eq; [reflexivity|]. rewrite (ring_len _ _ R). lia.
  - reflexivity.
  - reflexivity.
  - exists (formatted <| k_bufs := <[0%nat := b1]> bs |>), s'. split; [exact R1|]. split; [exact E|exact R'].
Defined.

(** An instance of [bget_evicts_lru]: the first miss after boot. *)
Lemma bget_evicts_lru_witness : exists s i s',
  ring (k_bufs s) (rev (seq 0 NBUF)) /\ bget 1 50 (mkWorld s []) = Ok i (mkWorld s' []) /\
  ring (k_bufs s') (rev (seq 0 NBUF)).
Proof.
  destruct formatted_binit as (bs & _ & R & B).
  assert (forall j, j ∈ rev (seq 0 NBUF) -> (j < NBUF)%nat) as Hj.
  { intros j H. rewrite <- Permutation_rev in H. apply elem_of_seq in H. lia. }
  destruct (lookup_lt_is_Some_2 bs 0) as [b Hb]; [rewrite (ring_len _ _ R); lia|].
  destruct (bget_evicts_lru 0 1 [] 1 50 (formatted <| k_bufs := bs |>) (rev (seq 0 NBUF)) 0 b)
    as (i & l1 & l2 & s' & E & _ & R' & _).
  - apply formatted_ctx.
  - exact R.
  - intros j c Hin Hc. destruct (B j c (Hj j Hin) Hc) as (D & _). unfold same_block. by rewrite D.
  - intros j c Hin Hc _. apply (B j c (Hj j Hin) Hc).
  - rewrite <- Permutation_rev. apply elem_of_seq. unfold NBUF. lia.
  - exact Hb.
  - apply (B 0%nat b); [unfold NBUF; lia|exact Hb].
  - exists (formatted <| k_bufs := bs |>), i, s'. split; [exact R|]. split; [exact E|exact R'].
Defined.

(** The blocks the bitmap of [disk0] marks in use. *)
Lemma used0 b : 0 <= b < 1000 -> used disk0 sb0 b = (b <? 48).
Proof.
  intros Hb. rewrite <- (Z2Nat.id b) by lia. assert (Z.to_nat b < 1000)%nat as Hn by lia.
  generalize dependent (Z.to_nat b). clear b Hb. intros n Hn.
  assert (forallb (fun n => bool_decide (used disk0 sb0 (Z.of_nat n) = (Z.of_nat n <? 48))) (seq 0 1000) = true) as H
    by (vm_compute; reflexivity).
  rewrite forallb_forall in H. specialize (H n ltac:(apply in_seq; lia)). by apply bool_decide_eq_true in H.
Qed.

Lemma bitmap0 : bitmap_ok 2 30 sb0 disk0.
Proof.
  assert (forall b, 0 <= b < 1000 -> BBLOCK b sb0 = 45) as HB.
  { intros b Hb. unfold BBLOCK. change BPB with 8192. rewrite Z.div_small by lia. reflexivity. }
  split; [cbn; lia|..]; intros b Hb; cbn in Hb; rewrite ?HB by done; [lia| |vm_compute; reflexivity].
  rewrite used0 by done. intros H%Z.ltb_ge. lia.
Qed.

(** An instance of [balloc_spec]: the first allocation returns block 48. *)
Lemma balloc_spec_witness : exists s s',
  tx_st 0 1 1 2 30 s disk0 [] disk0 /\ balloc 1 (mkWorld s []) = Ok 48 (mkWorld s' []).
Proof.
  destruct formatted_in_tx as (s & S & Hsb).
  destruct (balloc_spec 0 1 1 2 30 [] sb0 disk0 [] disk0 s 48) as (r & s' & bs' & view' & E & Hr & U & Hlow & _).
  - lia.
  - exact S.
  - exact Hsb.
  - apply bitmap0.
  - reflexivity.
  - intros b x Hb Hf Hx. rewrite used0 in Hf by exact Hb. apply Z.ltb_ge in Hf. unfold BBLOCK. change BPB with 8192.
    cbn in Hx. rewrite Z.div_small by lia. change (u32 (0 + sb_bmapstart sb0)) with 45. lia.
  - cbn. lia.
  - reflexivity.
  - cbn in Hr. rewrite used0 in U by exact Hr. apply Z.ltb_ge in U.
    assert (r = 48) as ->; [|exists s, s'; split; [exact S|exact E]].
    destruct (Z.eq_dec r 48) as [|N]; [done|]. specialize (Hlow 48 ltac:(lia)). discriminate Hlow.
Defined.

(** An instance of [bfree_spec]: freeing a block in use, and one that is free. *)
Lemma bfree_spec_witness : exists s s' w,
  tx_st 0 1 1 2 30 s disk0 [] disk0 /\ bfree 1 47 (mkWorld s []) = Ok tt (mkWorld s' []) /\
  bfree 1 48 (mkWorld s []) = Panic "freeing free block" w.
Proof.
  destruct formatted_in_tx as (s & S & Hsb).
  pose proof (bfree_spec 0 1 1 2 30 [] sb0 disk0 [] disk0 s 47 ltac:(lia) S Hsb bitmap0 eq_refl ltac:(cbn; lia)) as H47.
  pose proof (bfree_spec 0 1 1 2 30 [] sb0 disk0 [] disk0 s 48 ltac:(lia) S Hsb bitmap0 eq_refl ltac:(cbn; lia)) as H48.
  rewrite used0 in H47, H48 by lia. destruct H47 as (s' & view' & E & _). destruct H48 as [w P].
  exists s, s', w. split; [exact S|split; [exact E|exact P]].
Defined.
