(* ===== verification/FsFile.v ===== *)
(** The contents of files: bmap(), readi() and writei() of kernel/fs.c.

    [fblock] is the block that holds the [k]-th block of a file, directly or
    through the indirect block, and [fbyte] a byte of the file.  Within a
    transaction readi() returns the bytes of the file; writei() changes the
    bytes it was given and the size, allocates the blocks it needs, and leaves
    every other block in use alone. *)

From S2P Require Import Prelude Layout Kernel Sched Bio Log Fs Ring Cache Crash LogProof Transaction FsAlloc.

(** ** Files *)

Definition fblock (view : Z -> block) (addrs : list Z) (k : Z) : Z :=
  if k <? NDIRECT then nth (Z.to_nat k) addrs 0
  else
    let a := nth (Z.to_nat NDIRECT) addrs 0 in
    if a =? 0 then 0 else ind_get (view a) (k - NDIRECT).

Definition fbyte (view : Z -> block) (addrs : list Z) (off : Z) : Z :=
  nth (Z.to_nat (off mod BSIZE)) (view (fblock view addrs (off / BSIZE))) 0.

(** The [n] bytes of the file from [off] on. *)
Definition fbytes (view : Z -> block) (addrs : list Z) (off : Z) (n : nat) : list Z :=
  (fun i => fbyte view addrs (off + Z.of_nat i)) <$> seq 0 n.

(** The blocks of a file, data and indirect. *)
Definition owns (view : Z -> block) (addrs : list Z) (b : Z) : Prop :=
  b <> 0 /\ ((exists k, 0 <= k < MAXFILE /\ fblock view addrs k = b) \/ nth (Z.to_nat NDIRECT) addrs 0 = b).

Lemma fbytes_app view addrs off a b :
  fbytes view addrs off (a + b) = fbytes view addrs off a ++ fbytes view addrs (off + Z.of_nat a) b.
Proof.
  unfold fbytes. rewrite seq_app, fmap_app. f_equal.
  replace (seq (0 + a) b) with (Nat.add a <$> seq 0 b) by (rewrite fmap_add_seq; f_equal; lia). rewrite <- list_fmap_compose.
  apply list_fmap_ext. intros ? x ?. cbn. f_equal. lia.
Qed.

Lemma length_fbytes view addrs off n : length (fbytes view addrs off n) = n.
Proof. unfold fbytes. by rewrite length_fmap, length_seq. Qed.

(** The bytes within one block. *)
Lemma chunk_fbytes view addrs off m : 0 <= off -> length (view (fblock view addrs (off / BSIZE))) = 1024%nat ->
  off mod BSIZE + Z.of_nat m <= BSIZE ->
  rdb (view (fblock view addrs (off / BSIZE))) (Z.to_nat (off mod BSIZE)) m = fbytes view addrs off m.
Proof.
  intros Ho Hl Hm. change BSIZE with 1024 in *. pose proof (Z.mod_pos_bound off 1024 ltac:(lia)) as Hb.
  apply (list_eq_same_length _ _ m); [by rewrite length_fbytes| |].
  { unfold rdb. rewrite length_take, length_drop. lia. }
  intros i x y Hi Hx Hy. unfold rdb in Hx. apply lookup_take_Some in Hx as [Hx _]. rewrite lookup_drop in Hx.
  unfold fbytes in Hy. rewrite list_lookup_fmap, lookup_seq_lt in Hy by done. cbn in Hy. injection Hy as <-.
  unfold fbyte. change BSIZE with 1024.
  replace ((off + Z.of_nat i) / 1024) with (off / 1024) by (Z.to_euclidean_division_equations; lia).
  replace ((off + Z.of_nat i) mod 1024) with (off mod 1024 + Z.of_nat i) by (Z.to_euclidean_division_equations; lia).
  replace (Z.to_nat (off mod 1024 + Z.of_nat i)) with (Z.to_nat (off mod 1024) + i)%nat by lia.
  symmetry. by apply nth_lookup_Some.
Qed.

Lemma tframe_inodes s s' : tframe s s' -> k_inodes s' = k_inodes s.
Proof. intros [-> _]. done. Qed.

Lemma get_inode_ok ip i s e : k_inodes s !! ip = Some i -> get_inode ip (mkWorld s e) = Ok i (mkWorld s e).
Proof. intros H. unfold get_inode. rewrite bind_gets. cbn [w_k]. unfold index. by rewrite H. Qed.

Lemma addr_get_ok ip i s e n : k_inodes s !! ip = Some i -> (Z.to_nat n < length (i_addrs i))%nat ->
  addr_get ip n (mkWorld s e) = Ok (nth (Z.to_nat n) (i_addrs i) 0) (mkWorld s e).
Proof.
  intros H Hn. unfold addr_get. eapply run_bind; [by apply get_inode_ok|]. unfold index.
  destruct (lookup_lt_is_Some_2 _ _ Hn) as [x Hx]. by rewrite Hx, (nth_lookup_Some _ _ _ _ Hx).
Qed.

Lemma mod_inode_ok ip f i s e : k_inodes s !! ip = Some i ->
  mod_inode ip f (mkWorld s e) = Ok tt (mkWorld (s <| k_inodes ::= alter f ip |>) e).
Proof. intros H. unfold mod_inode. by eapply run_bind; [apply get_inode_ok|]. Qed.

Lemma addr_set_ok ip i s e n a : k_inodes s !! ip = Some i ->
  addr_set ip n a (mkWorld s e) =
    Ok tt (mkWorld (s <| k_inodes ::= alter (fun i => i <| i_addrs ::= <[Z.to_nat n := a]> |>) ip |>) e).
Proof. intros H. by eapply mod_inode_ok. Qed.

(** Enough rounds of the loops of readi() and writei(). *)
Definition rounds (f : nat) (off left : Z) : Prop :=
  (1 <= f)%nat /\ (0 < left -> off mod BSIZE + left <= BSIZE * (Z.of_nat f - 1)).

Lemma rounds_init off n : 0 <= off -> 0 <= n -> rounds (S (S (Z.to_nat (n / BSIZE + 1)))) off n.
Proof.
  intros Ho Hn. unfold rounds. change BSIZE with 1024. split; [lia|]. intros _. pose proof (Z.mod_pos_bound off 1024 ltac:(lia)).
  pose proof (Z.div_mod n 1024 ltac:(lia)). pose proof (Z.mod_pos_bound n 1024 ltac:(lia)).
  rewrite !Nat2Z.inj_succ, Z2Nat.id by lia. lia.
Qed.

(** The next round is at a block boundary, or the last. *)
Lemma rounds_step f off left : 0 <= off -> 0 < left -> rounds (S f) off left ->
  let m := Z.min left (BSIZE - off mod BSIZE) in
  0 < m <= left /\ off mod BSIZE + m <= BSIZE /\ rounds f (off + m) (left - m).
Proof.
  unfold rounds. intros Ho Hl [_ H]. specialize (H Hl). change BSIZE with 1024 in *. pose proof (Z.mod_pos_bound off 1024 ltac:(lia)).
  set (m := Z.min left (1024 - off mod 1024)). split; [lia|]. split; [lia|]. split; [lia|]. intros Hr.
  assert (m = 1024 - off mod 1024) as -> by lia.
  replace ((off + (1024 - off mod 1024)) mod 1024) with 0 by (Z.to_euclidean_division_equations; lia). lia.
Qed.

(** ** Where readi() puts the bytes *)

(** Nothing changes but what a transaction changes, and the memory. *)
Definition mframe (s s' : kernel) : Prop := tframe (s <| k_mem := k_mem s' |>) s'.

Lemma mframe_refl s : mframe s s.
Proof. by destruct s. Qed.
Lemma mframe_tframe s s1 s2 : mframe s s1 -> tframe s1 s2 -> mframe s s2.
Proof. intros [E1 P1] [E2 P2]. split; [rewrite E2, E1; by destruct s|etransitivity; [exact P2|exact P1]]. Qed.
Lemma mframe_mem s s1 m : mframe s s1 -> mframe s (s1 <| k_mem := m |>).
Proof. intros [E P]. split; [rewrite E; by destruct s|exact P]. Qed.
Lemma mframe_same s s' : mframe s s' -> k_mem s' = k_mem s -> tframe s s'.
Proof. unfold mframe. intros H E. rewrite E in H. by destruct s. Qed.
Lemma tframe_mem s s' : tframe s s' -> k_mem s' = k_mem s.
Proof. intros [-> _]. done. Qed.

(** The destination is an address, or the start of a local variable. *)
Definition starts (dst : dest) : Prop :=
  match dst with DUser a | DKern a => 0 <= a < 2 ^ 64 | DLocal pos => pos = 0 end.

(** What readi() returns of the bytes [l] it has copied. *)
Definition local_bytes (dst : dest) (l : list Z) : list Z :=
  match dst with DLocal _ => l | _ => [] end.

Lemma dest_add_0 dst : starts dst -> dest_add dst 0 = dst.
Proof. destruct dst; cbn; intros H; rewrite Z.add_0_r, ?u64_small by done; done. Qed.

Lemma dest_add_add dst a b : dest_add (dest_add dst a) b = dest_add dst (a + b).
Proof.
  destruct dst as [va|pa|pos]; cbn; f_equal; [..|lia]; unfold u64; rewrite Z.add_mod_idemp_l by lia; f_equal; lia.
Qed.

Lemma local_store_next dst d1 d2 : starts dst ->
  local_store (dest_add dst (Z.of_nat (length d1))) d2 (local_bytes dst d1) = local_bytes dst (d1 ++ d2).
Proof.
  destruct dst; cbn; [done..|]. intros ->. unfold wrb. rewrite Z.add_0_l, Nat2Z.id, take_ge, drop_ge by lia. by rewrite app_nil_r.
Qed.

(** From [s] on, either_copyout() takes [n] bytes for [dst], in pieces; [R] is
    the memory when some of them have arrived. *)
Definition takes (e : list (kernel -> kernel)) (s : kernel) (dst : dest) (n : nat) (R : list Z -> mem -> Prop) : Prop :=
  starts dst /\ R [] (k_mem s) /\
  forall s1 d1 d2, mframe s s1 -> R d1 (k_mem s1) -> (length d1 + length d2 <= n)%nat ->
    exists m, either_copyout (dest_add dst (Z.of_nat (length d1))) d2 (mkWorld s1 e) =
        Ok 0 (mkWorld (s1 <| k_mem := m |>) e) /\ R (d1 ++ d2) m.

Lemma takes_local e s n : takes e s (DLocal 0) n (fun _ m => m = k_mem s).
Proof. split_and!; [done..|]. intros s1 d1 d2 _ H _. exists (k_mem s1). split; [|done]. cbn. by destruct s1. Qed.

Section Files.
Context (me : nat) (pid dev start lsize : Z) (e : list (kernel -> kernel)) (sb : superblock).

Abbreviation tx := (tx_in me pid dev start lsize).

(** A block of the data area: in use, outside the log and not of the bitmap. *)
Definition data_block (view : Z -> block) (b : Z) : Prop :=
  0 < b < sb_size sb /\ used view sb b = true /\ ~ (start <= b < start + lsize) /\
  forall x, 0 <= x < sb_size sb -> BBLOCK x sb <> b.

(** The bitmap marks everything in use that is not free for files. *)
Record fs_ok (view : Z -> block) : Prop := {
  fs_bitmap : bitmap_ok start lsize sb view;
  fs_free b : 0 <= b < sb_size sb -> used view sb b = false ->
    b <> 0 /\ forall x, 0 <= x < sb_size sb -> BBLOCK x sb <> b;
}.

Record file_ok (view : Z -> block) (addrs : list Z) : Prop := {
  fo_len : length addrs = 13%nat;
  fo_data b : owns view addrs b -> data_block view b /\ length (view b) = 1024%nat;
  fo_inj k k' : 0 <= k < MAXFILE -> 0 <= k' < MAXFILE ->
    fblock view addrs k = fblock view addrs k' -> fblock view addrs k <> 0 -> k = k';
  fo_ind k : 0 <= k < MAXFILE -> fblock view addrs k <> 0 ->
    fblock view addrs k <> nth (Z.to_nat NDIRECT) addrs 0;
}.

(** The inode [ip] of the table is a file of this device. *)
Definition inode_is (s : kernel) (ip : nat) (i : inode) : Prop :=
  k_inodes s !! ip = Some i /\ i_dev i = dev.

Lemma inode_is_frame s s' ip i : inode_is s ip i -> tframe s s' -> inode_is s' ip i.
Proof. intros [H1 H2] F. split; [by rewrite (tframe_inodes _ _ F)|done]. Qed.

Lemma tx_room H s d bs view : tx H s d bs view -> (length bs < 30)%nat.
Proof. intros S. pose proof (tx_fit _ _ _ _ (ts_tx _ _ _ _ _ _ _ _ _ _ S)) as F. change LOGSIZE with 30 in F. lia. Qed.

Lemma tx_mem H s d bs view m : tx H s d bs view -> tx H (s <| k_mem := m |>) d bs view.
Proof.
  intros [[[] C2 C3 C4 C5 C6 C7] T2 T3 [] T5 T6 T7 T8 T9 T10]. split; auto; [split; auto; by split|by split].
Qed.

(** Reading a block: it is locked, looked at, and released when the bytes have
    been copied. *)
Lemma tx_look_copy s d bs view blk : tx [] s d bs view ->
  exists i s1 bf, bread dev blk (mkWorld s e) = Ok i (mkWorld s1 e) /\
    get_buf i (mkWorld s1 e) = Ok bf (mkWorld s1 e) /\ b_data bf = view blk /\ tframe s s1 /\ k_writes s1 = k_writes s /\
    forall m, exists s2, brelse i (mkWorld (s1 <| k_mem := m |>) e) = Ok tt (mkWorld s2 e) /\ tx [] s2 d bs view /\
      tframe (s1 <| k_mem := m |>) s2 /\ k_writes s2 = k_writes s.
Proof.
  intros S. pose proof (tx_room _ _ _ _ _ S) as R.
  destruct (tx_bread _ _ _ _ _ e [] s d bs view blk S) as (i & s1 & E1 & K1 & F1 & W1); [set_solver|cbn; lia|].
  destruct (tx_data _ _ _ _ _ e _ _ _ _ _ _ _ K1) as (bf & E2 & V2).
  exists i, s1, bf. split_and!; [done..|]. intros m.
  destruct (tx_brelse _ _ _ _ _ e [] (s1 <| k_mem := m |>) d bs view blk i (tx_mem _ _ _ _ _ m K1)) as (s2 & E3 & S2 & F2 & W2).
  { by eapply tx_clean; [exact S|set_solver]. }
  exists s2. split_and!; [done..|]. rewrite W2. exact W1.
Qed.

Lemma tx_look s d bs view blk : tx [] s d bs view ->
  exists i s1 bf s2, bread dev blk (mkWorld s e) = Ok i (mkWorld s1 e) /\
    get_buf i (mkWorld s1 e) = Ok bf (mkWorld s1 e) /\ b_data bf = view blk /\
    brelse i (mkWorld s1 e) = Ok tt (mkWorld s2 e) /\ tx [] s2 d bs view /\
    tframe s s1 /\ tframe s s2 /\ k_writes s2 = k_writes s.
Proof.
  intros S. destruct (tx_look_copy s d bs view blk S) as (i & s1 & bf & E1 & E2 & V & F1 & W1 & H).
  destruct (H (k_mem s1)) as (s2 & E3 & S2 & F2 & W2).
  replace (s1 <| k_mem := k_mem s1 |>) with s1 in * by (by destruct s1).
  exists i, s1, bf, s2. split_and!; eauto using tframe_trans.
Qed.

(** bmap() of a block that is there. *)
Lemma bmap_there s d bs view ip i k : tx [] s d bs view -> inode_is s ip i -> length (i_addrs i) = 13%nat ->
  0 <= k < MAXFILE -> fblock view (i_addrs i) k <> 0 ->
  exists s', bmap ip k (mkWorld s e) = Ok (fblock view (i_addrs i) k) (mkWorld s' e) /\ tx [] s' d bs view /\
    tframe s s' /\ k_writes s' = k_writes s.
Proof.
  intros S [Hi Hd] Hlen Hk Hb. unfold bmap. rewrite (bind_ok _ _ _ _ _ (get_inode_ok _ _ _ e Hi)).
  change MAXFILE with 268 in Hk. unfold fblock in *. change NDIRECT with 12 in *.
  destruct (Z.ltb_spec k 12) as [Hlt|Hge].
  - exists s. split_and!; [|done|by destruct s|done]. rewrite (bind_ok _ _ _ _ _ (addr_get_ok _ _ _ e k Hi ltac:(lia))).
    apply Z.eqb_neq in Hb. by rewrite Hb.
  - change NINDIRECT with 256. destruct (Z.ltb_spec (k - 12) 256); [|lia].
    set (a := nth (Z.to_nat 12) (i_addrs i) 0) in *. destruct (a =? 0) eqn:Ea; [done|].
    destruct (tx_look s d bs view a S) as (j & s1 & bf & s2 & E1 & E2 & V & E3 & S2 & F1 & F2 & W).
    exists s2. split_and!; auto.
    rewrite (bind_ok _ _ _ _ _ (addr_get_ok _ _ _ e 12 Hi ltac:(lia))). fold a. rewrite Ea.
    rewrite (bind_ok (ret a) _ _ _ _ eq_refl). rewrite Ea, Hd.
    rewrite (bind_ok _ _ _ _ _ E1), (bind_ok _ _ _ _ _ E2). cbn zeta. rewrite V.
    apply Z.eqb_neq in Hb. rewrite Hb. rewrite (bind_ok (ret _) _ _ _ _ eq_refl). by run E3.
Qed.

(** The blocks of the bytes from [off] to [en] are there. *)
Definition mapped_to (view : Z -> block) (addrs : list Z) (off en : Z) : Prop :=
  forall x, off <= x < en -> fblock view addrs (x / BSIZE) <> 0 /\ length (view (fblock view addrs (x / BSIZE))) = 1024%nat.

(** A round of readi(): a piece of one block reaches the destination. *)
Lemma readi_round view i ip d bs n s0 dst R f s off d1 :
  file_ok view (i_addrs i) -> takes e s0 dst (Z.to_nat n) R ->
  let tot := Z.of_nat (length d1) in
  let m := Z.min (n - tot) (BSIZE - off mod BSIZE) in
  let d2 := fbytes view (i_addrs i) off (Z.to_nat m) in
  tx [] s d bs view -> mframe s0 s -> R d1 (k_mem s) -> inode_is s ip i ->
  0 <= off < MAXFILE * BSIZE -> tot < n < 2 ^ 31 -> off mod BSIZE + m <= BSIZE -> 0 < m ->
  mapped_to view (i_addrs i) off (off + (n - tot)) ->
  exists s', readi_loop (S f) ip (dest_add dst tot) off tot n (local_bytes dst d1) (mkWorld s e) =
      readi_loop f ip (dest_add dst (tot + m)) (off + m) (tot + m) n (local_bytes dst (d1 ++ d2)) (mkWorld s' e) /\
    tx [] s' d bs view /\ mframe s0 s' /\ R (d1 ++ d2) (k_mem s') /\ inode_is s' ip i /\ k_writes s' = k_writes s.
Proof.
  intros Hfo (Hst & _ & HR) tot m d2 S F HRd Hi Ho Ht Hm2 Hm1 Hmap. change (MAXFILE * BSIZE) with 274432 in Ho.
  pose proof (length_fbytes view (i_addrs i) off (Z.to_nat m)) as L2. fold d2 in L2.
  destruct (Hmap off ltac:(lia)) as [Hb Hl].
  assert (0 <= off / BSIZE < MAXFILE) as Hk by (change BSIZE with 1024; change MAXFILE with 268; Z.to_euclidean_division_equations; lia).
  destruct (bmap_there s d bs view ip i (off / BSIZE) S Hi (fo_len _ _ Hfo) Hk Hb) as (s1 & E1 & S1 & F1 & W1).
  pose proof (inode_is_frame _ _ _ _ Hi F1) as Hi1.
  destruct (tx_look_copy s1 d bs view (fblock view (i_addrs i) (off / BSIZE)) S1) as (j & s2 & bf & E2 & E3 & V & F2 & W2 & Hrel).
  pose proof (mframe_tframe _ _ _ F (tframe_trans _ _ _ F1 F2)) as Fm.
  destruct (HR s2 d1 d2 Fm) as (mm & E4 & HRm); [by rewrite (tframe_mem _ _ F2), (tframe_mem _ _ F1)|lia|].
  destruct (Hrel mm) as (s3 & E5 & S3 & F3 & W3). exists s3. split_and!; [|done|..].
  - cbn [readi_loop]. replace (tot <? n) with true by lia. apply Z.eqb_neq in Hb. run E1. rewrite Hb.
    rewrite (bind_ok _ _ _ _ _ (get_inode_ok _ _ _ e (proj1 Hi1))), (proj2 Hi1), (bind_ok _ _ _ _ _ E2), (bind_ok _ _ _ _ _ E3).
    cbn zeta. fold m. rewrite V, chunk_fbytes by (lia || done || rewrite Z2Nat.id; lia). fold d2. run E4. change (0 =? -1) with false.
    cbn iota. run E5. rewrite dest_add_add. unfold tot at 3. rewrite local_store_next by done.
    by rewrite (u32_small (off + m)), (u32_small (tot + m)) by lia.
  - exact (mframe_tframe _ _ _ (mframe_mem _ _ mm Fm) F3).
  - by rewrite (tframe_mem _ _ F3).
  - eapply inode_is_frame; [|exact F3]. apply (inode_is_frame _ _ _ _ Hi1 F2).
  - congruence.
Qed.

Lemma readi_loop_ok view i ip d bs n s0 dst R : file_ok view (i_addrs i) -> takes e s0 dst (Z.to_nat n) R ->
  forall f s off d1, let tot := Z.of_nat (length d1) in
  tx [] s d bs view -> mframe s0 s -> R d1 (k_mem s) -> inode_is s ip i -> 0 <= off -> tot <= n ->
  off + (n - tot) <= MAXFILE * BSIZE -> n < 2 ^ 31 -> mapped_to view (i_addrs i) off (off + (n - tot)) -> rounds f off (n - tot) ->
  let all := d1 ++ fbytes view (i_addrs i) off (Z.to_nat (n - tot)) in
  exists s', readi_loop f ip (dest_add dst tot) off tot n (local_bytes dst d1) (mkWorld s e) =
      Ok (n, local_bytes dst all) (mkWorld s' e) /\
    tx [] s' d bs view /\ mframe s0 s' /\ R all (k_mem s') /\ k_writes s' = k_writes s.
Proof.
  intros Hfo HT. induction f as [|f IH]; intros s off d1 tot S F HRd Hi Ho Ht Hmax Hn Hmap Hr; [destruct Hr; lia|].
  destruct (Z.lt_ge_cases tot n) as [Hlt|Hge].
  2: { exists s. cbn [readi_loop]. replace (tot <? n) with false by lia. replace (n - tot) with 0 by lia. cbn.
       rewrite app_nil_r, i32_small by lia. replace tot with n by lia. split_and!; done. }
  destruct (rounds_step f off (n - tot) Ho ltac:(lia) Hr) as (Hm1 & Hm2 & Hr').
  destruct (readi_round view i ip d bs n s0 dst R f s off d1 Hfo HT S F HRd Hi) as (s3 & E3 & S3 & F3 & R3 & Hi3 & W3);
    [lia|done|done|lia|done|].
  fold tot in E3, R3. rewrite E3. set (m := Z.min (n - tot) (BSIZE - off mod BSIZE)) in *. set (d2 := fbytes view (i_addrs i) off (Z.to_nat m)) in *.
  assert (Z.of_nat (length (d1 ++ d2)) = tot + m) as Htot by (unfold d2; rewrite length_app, length_fbytes; lia).
  destruct (IH s3 (off + m) (d1 ++ d2)) as (s' & E6 & S' & F6 & HR' & W'); rewrite ?Htot; auto; try lia.
  { intros x Hx. apply Hmap. lia. }
  { by replace (n - (tot + m)) with (n - tot - m) by lia. }
  assert (d1 ++ fbytes view (i_addrs i) off (Z.to_nat (n - tot)) =
    (d1 ++ d2) ++ fbytes view (i_addrs i) (off + m) (Z.to_nat (n - (tot + m)))) as ->.
  { rewrite <- app_assoc. f_equal.
    replace (Z.to_nat (n - tot)) with (Z.to_nat m + Z.to_nat (n - (tot + m)))%nat by lia.
    rewrite fbytes_app. by replace (off + Z.of_nat (Z.to_nat m)) with (off + m) by lia. }
  rewrite Htot in E6, HR'. exists s'. split_and!; [exact E6|done..|congruence].
Qed.

(** The blocks up to the size of the file are there. *)
Definition file_at (s : kernel) (view : Z -> block) (ip : nat) (i : inode) : Prop :=
  inode_is s ip i /\ file_ok view (i_addrs i) /\ 0 <= i_size i <= MAXFILE * BSIZE /\
  mapped_to view (i_addrs i) 0 (i_size i).

Lemma readi_to s d bs view ip i dst R off n : tx [] s d bs view -> file_at s view ip i ->
  0 <= off -> 0 <= n < 2 ^ 31 -> off + n < 2 ^ 32 ->
  let len := Z.max 0 (Z.min n (i_size i - off)) in
  let data := fbytes view (i_addrs i) off (Z.to_nat len) in
  takes e s dst (Z.to_nat len) R ->
  exists s', readi ip dst off n (mkWorld s e) = Ok (len, local_bytes dst data) (mkWorld s' e) /\
    tx [] s' d bs view /\ mframe s s' /\ R data (k_mem s') /\ k_writes s' = k_writes s.
Proof.
  intros S (Hi & Hfo & Hsz & Hmap) Ho Hn Hon len data T. change (MAXFILE * BSIZE) with 274432 in Hsz.
  unfold readi. rewrite (bind_ok _ _ _ _ _ (get_inode_ok _ _ _ e (proj1 Hi))). rewrite u32_small by lia.
  pose proof T as (Hst & HR0 & _).
  destruct (Z.ltb_spec (i_size i) off) as [Hlt|Hge]; cbn [orb].
  { exists s. unfold data. replace len with 0 by lia. split_and!; [|done|apply mframe_refl|done..]. by destruct dst. }
  replace (off + n <? off) with false by lia.
  replace (if i_size i <? off + n then i_size i - off else n) with len by (unfold len; destruct (Z.ltb_spec (i_size i) (off + n)); lia).
  destruct (readi_loop_ok view i ip d bs len s dst R Hfo T (Datatypes.S (Datatypes.S (Z.to_nat (len / BSIZE + 1)))) s off [])
    as (s' & E & S' & F & HR & W); cbn [length Z.of_nat]; rewrite ?Z.sub_0_r; auto using mframe_refl; try lia.
  { change (MAXFILE * BSIZE) with 274432. lia. }
  { intros x Hx. apply Hmap. lia. }
  { apply rounds_init; lia. }
  cbn [length Z.of_nat app] in E, HR. rewrite Z.sub_0_r, dest_add_0 in E by done. rewrite Z.sub_0_r in HR.
  exists s'. split_and!; auto. replace (local_bytes dst []) with (@nil Z) in E by (by destruct dst). exact E.
Qed.

(** Into a local variable. *)
Lemma readi_ok s d bs view ip i off n : tx [] s d bs view -> file_at s view ip i ->
  0 <= off -> 0 <= n < 2 ^ 31 -> off + n < 2 ^ 32 ->
  let len := Z.min n (i_size i - off) in
  exists s', readi ip (DLocal 0) off n (mkWorld s e) =
      (if i_size i <? off then Ok (0, []) (mkWorld s' e)
       else Ok (len, fbytes view (i_addrs i) off (Z.to_nat len)) (mkWorld s' e)) /\
    tx [] s' d bs view /\ tframe s s' /\ k_writes s' = k_writes s.
Proof.
  intros S Hf Ho Hn Hon len.
  destruct (readi_to s d bs view ip i (DLocal 0) (fun _ m => m = k_mem s) off n S Hf Ho Hn Hon (takes_local _ _ _)) as (s' & E & S' & F & Em & W).
  exists s'. split_and!; [|done|by apply mframe_same|done]. rewrite E. destruct (Z.ltb_spec (i_size i) off); fold len.
  - by replace (Z.max 0 len) with 0 by (unfold len; lia).
  - by replace (Z.max 0 len) with len by (unfold len; lia).
Qed.
End Files.
