(* ===== verification/FsWrite.v ===== *)
(** Growing a file: what the allocations of bmap() do to the blocks of the
    file, and writei(). *)

From S2P Require Import Prelude Layout Kernel Sched Bio Log Fs Ring Cache Crash LogProof Transaction FsAlloc FsFile.

(** ** Allocating a block for a file *)

Lemma fblock_indirect v addrs r k (a := nth (Z.to_nat NDIRECT) addrs 0) : NDIRECT <= k < MAXFILE -> a <> 0 -> 0 <= r < 2 ^ 32 -> length (v a) = 1024%nat ->
  fblock (zset v a (ind_set (k - NDIRECT) r (v a))) addrs k = r.
Proof.
  intros Hk Ha Hr32 Hla. change (12 <= k < 268) in Hk. unfold fblock. fold a.
  replace (k <? NDIRECT) with false by (change NDIRECT with 12; lia). destruct (Z.eqb_spec a 0); [done|].
  unfold ind_get, ind_set. rewrite zset_eq, rdn_wrn_same by (rewrite Hla; change NDIRECT with 12; lia).
  apply Z.mod_small. cbn. lia.
Qed.

Section Grow.
Context (start lsize : Z) (sb : superblock).

Abbreviation data_block := (data_block start lsize sb).
Abbreviation fs_ok := (fs_ok start lsize sb).
Abbreviation file_ok := (file_ok start lsize sb).
Abbreviation allocated := (allocated sb).

(** At least [n] blocks are free. *)
Definition room (view : Z -> block) (n : nat) : Prop :=
  exists l, NoDup l /\ (n <= length l)%nat /\ forall b, b ∈ l -> 0 <= b < sb_size sb /\ used view sb b = false.

Section Fresh.
Context (view : Z -> block) (r : Z).
Hypothesis Hfs : fs_ok view.
Hypothesis Hr : 0 <= r < sb_size sb.
Hypothesis Hfree : used view sb r = false.

Lemma fresh_bitmap x : 0 <= x < sb_size sb -> BBLOCK x sb <> r.
Proof. apply (fs_free _ _ _ _ Hfs r Hr Hfree). Qed.

Lemma fresh_used x : 0 <= x < sb_size sb -> used (allocated view r) sb x = if x =? r then true else used view sb x.
Proof.
  intros Hx. eapply used_allocated; [apply Hfs|done|by apply fresh_bitmap|done|by apply fresh_bitmap].
Qed.

Lemma fresh_other b : b <> r -> (forall x, 0 <= x < sb_size sb -> BBLOCK x sb <> b) -> allocated view r b = view b.
Proof. intros H1 H2. unfold FsAlloc.allocated. rewrite !zset_ne; [done| |done]. intros ->. by apply (H2 r). Qed.

Lemma fresh_zero : allocated view r r = zero_block.
Proof. apply zset_eq. Qed.

Lemma fresh_fs_ok : fs_ok (allocated view r).
Proof.
  destruct Hfs as [[B1 B2 B3 B4] Hf]. split; [split; auto|].
  - intros b Hb Hu. apply B3; [done|]. rewrite fresh_used in Hu by done. by destruct (b =? r).
  - intros b Hb. unfold FsAlloc.allocated. rewrite zset_ne by (by apply fresh_bitmap).
    unfold zset. destruct (Z.eqb_spec (BBLOCK b sb) (BBLOCK r sb)) as [E|]; [rewrite length_bit_set|]; auto.
  - intros b Hb Hu. apply Hf; [done|]. rewrite fresh_used in Hu by done. by destruct (b =? r).
Qed.

Lemma fresh_data : data_block (allocated view r) r.
Proof.
  destruct (fs_free _ _ _ _ Hfs r Hr Hfree) as [H0 Hb]. split; [lia|]. split; [rewrite fresh_used, Z.eqb_refl; done|].
  split; [|done]. by apply (bm_log _ _ _ _ (fs_bitmap _ _ _ _ Hfs)).
Qed.

Lemma fresh_keep b : data_block view b -> data_block (allocated view r) b /\ allocated view r b = view b /\ b <> r.
Proof.
  intros (H1 & H2 & H3 & H4). assert (b <> r) as Hn by congruence. split; [|split; [|done]].
  - split; [done|]. split; [|done]. rewrite fresh_used by lia. by destruct (b =? r).
  - by apply fresh_other.
Qed.

Lemma fresh_room n : room view (S n) -> room (allocated view r) n.
Proof.
  intros (l & Hnd & Hlen & Hl). exists (filter (fun x => x <> r) l). split; [by apply NoDup_filter|]. split.
  - assert (l ⊆+ r :: filter (fun x => x <> r) l) as Hsub.
    { apply NoDup_submseteq; [done|]. intros x Hx. destruct (decide (x = r)) as [->|]; [set_solver|].
      apply list_elem_of_further, list_elem_of_filter. done. }
    apply submseteq_length in Hsub. cbn in Hsub. lia.
  - intros b [Hb Hin]%list_elem_of_filter. destruct (Hl b Hin) as [H1 H2]. split; [done|].
    rewrite fresh_used by done. by destruct (Z.eqb_spec b r).
Qed.
End Fresh.

(** What an allocation for the block [k] of a file may do. *)
Record grew (view : Z -> block) (addrs : list Z) (view' : Z -> block) (addrs' : list Z) (k : Z) : Prop := {
  gr_file : file_ok view' addrs';
  gr_fs : fs_ok view';
  gr_new : fblock view' addrs' k <> 0;
  gr_same j : 0 <= j < MAXFILE -> fblock view addrs j <> 0 ->
    fblock view' addrs' j = fblock view addrs j /\ view' (fblock view addrs j) = view (fblock view addrs j);
  gr_none j : 0 <= j < MAXFILE -> j <> k -> fblock view addrs j = 0 -> fblock view' addrs' j = 0;
  gr_frame b : data_block view b -> ~ owns view addrs b -> view' b = view b /\ data_block view' b /\ ~ owns view' addrs' b;
  gr_used b : data_block view b -> data_block view' b;
}.

Section Add.
Context (view view' : Z -> block) (addrs addrs' : list Z) (r k : Z).
Hypothesis Hfo : file_ok view addrs.
Hypothesis Hfs : fs_ok view.
Hypothesis Hr : 0 <= r < sb_size sb.
Hypothesis Hfree : used view sb r = false.
Hypothesis Hk0 : fblock view addrs k = 0.
Hypothesis Hfs' : fs_ok view'.
Hypothesis Hlen : length addrs' = 13%nat.
Hypothesis Hind : nth (Z.to_nat NDIRECT) addrs' 0 = nth (Z.to_nat NDIRECT) addrs 0.
Hypothesis Hnew : fblock view' addrs' k = r.
Hypothesis Hold : forall j, 0 <= j < MAXFILE -> j <> k -> fblock view' addrs' j = fblock view addrs j.
Hypothesis Hdr : data_block view' r.
Hypothesis Hlr : length (view' r) = 1024%nat.
Hypothesis Hdata : forall b, data_block view b -> data_block view' b.
Hypothesis Hview : forall b, data_block view b -> b <> nth (Z.to_nat NDIRECT) addrs 0 -> view' b = view b.
Hypothesis Hlind : nth (Z.to_nat NDIRECT) addrs 0 <> 0 -> length (view' (nth (Z.to_nat NDIRECT) addrs 0)) = 1024%nat.

Lemma add_owns b : owns view' addrs' b -> b = r \/ owns view addrs b.
Proof.
  intros [H0 [(j & Hj & E)|E]].
  - destruct (decide (j = k)) as [->|Hn]; [left; congruence|]. right. split; [done|]. left. exists j.
    by rewrite <- Hold.
  - right. split; [done|]. right. by rewrite <- Hind.
Qed.

Lemma add_fresh b : data_block view b -> b <> r.
Proof. intros (_ & H & _) ->. congruence. Qed.

Lemma owned_block j : 0 <= j < MAXFILE -> fblock view addrs j <> 0 -> owns view addrs (fblock view addrs j).
Proof. intros Hj H. split; [done|]. left. by exists j. Qed.

Lemma add_file_ok : file_ok view' addrs'.
Proof.
  split; [done|..].
  - intros b [->|Ho]%add_owns; [done|]. destruct (fo_data _ _ _ _ _ Hfo b Ho) as [Hd Hl]. split; [by apply Hdata|].
    destruct (decide (b = nth (Z.to_nat NDIRECT) addrs 0)) as [->|Hn]; [|by rewrite Hview]. apply Hlind, Ho.
  - assert (forall j, 0 <= j < MAXFILE -> j <> k -> fblock view' addrs' j <> 0 -> fblock view' addrs' j <> r) as Hx.
    { intros j Hj Hn H0. rewrite Hold in * by done. apply add_fresh, (fo_data _ _ _ _ _ Hfo). by apply owned_block. }
    intros j j' Hj Hj' E H0. destruct (decide (j = k)) as [->|Hn], (decide (j' = k)) as [->|Hn']; [done|..].
    + rewrite E in H0. destruct (Hx j'); congruence.
    + destruct (Hx j); congruence.
    + rewrite !Hold in * by done. by apply (fo_inj _ _ _ _ _ Hfo).
  - intros j Hj H0. rewrite Hind. destruct (decide (j = k)) as [->|Hn].
    + rewrite Hnew. intros E. assert (data_block view r) as Hd; [|by destruct (add_fresh r Hd)].
      apply (fo_data _ _ _ _ _ Hfo). split; [by rewrite Hnew in H0|]. by right.
    + rewrite Hold in * by done. by apply (fo_ind _ _ _ _ _ Hfo).
Qed.

Lemma add_grew : grew view addrs view' addrs' k.
Proof.
  split; auto using add_file_ok.
  - rewrite Hnew. destruct Hdr. lia.
  - intros j Hj H0. assert (j <> k) as Hn by congruence. split; [by apply Hold|].
    apply Hview; [|by apply (fo_ind _ _ _ _ _ Hfo)]. apply (fo_data _ _ _ _ _ Hfo). by apply owned_block.
  - intros j Hj Hn H0. by rewrite Hold.
  - intros b Hb Ho. split_and!; [|by apply Hdata|].
    + apply Hview; [done|]. intros ->. apply Ho. split; [|by right]. destruct Hb. lia.
    + intros [->|Ho']%add_owns; [|done]. by destruct (add_fresh r Hb).
Qed.
End Add.

Lemma nth_insert_eq (l : list Z) n x : (n < length l)%nat -> nth n (<[n := x]> l) 0 = x.
Proof. intros H. apply nth_lookup_Some. by apply list_lookup_insert_eq. Qed.

Lemma nth_insert_ne (l : list Z) n m x : n <> m -> nth m (<[n := x]> l) 0 = nth m l 0.
Proof. intros H. rewrite !nth_lookup. by rewrite list_lookup_insert_ne. Qed.

Section Cases.
Context (view : Z -> block) (addrs : list Z) (r k : Z).
Hypothesis Hfo : file_ok view addrs.
Hypothesis Hfs : fs_ok view.
Hypothesis Hr : 0 <= r < sb_size sb.
Hypothesis Hfree : used view sb r = false.

Abbreviation a := (nth (Z.to_nat NDIRECT) addrs 0).

Lemma ind_data : a <> 0 -> data_block view a /\ length (view a) = 1024%nat.
Proof. intros H. apply (fo_data _ _ _ _ _ Hfo). split; [done|]. by right. Qed.

Lemma length_zero_block : length zero_block = 1024%nat.
Proof. apply length_replicate. Qed.

(** A direct block. *)
Lemma grew_direct : 0 <= k < NDIRECT -> fblock view addrs k = 0 ->
  grew view addrs (allocated view r) (<[Z.to_nat k := r]> addrs) k.
Proof.
  intros Hk H0. pose proof (fo_len _ _ _ _ _ Hfo) as Hlen. change NDIRECT with 12 in Hk.
  assert (nth (Z.to_nat NDIRECT) (<[Z.to_nat k := r]> addrs) 0 = a) as Hind.
  { apply nth_insert_ne. change NDIRECT with 12. lia. }
  apply (add_grew view (allocated view r) addrs _ r k); auto.
  - by apply fresh_fs_ok.
  - by rewrite length_insert.
  - unfold fblock. change NDIRECT with 12. destruct (Z.ltb_spec k 12); [|lia]. apply nth_insert_eq. lia.
  - intros j Hj Hn. unfold fblock. rewrite Hind. destruct (j <? NDIRECT) eqn:Hjd; [apply nth_insert_ne; lia|].
    destruct (Z.eqb_spec a 0) as [|Ha]; [done|]. f_equal. apply fresh_keep; [done..|]. by apply ind_data.
  - by apply fresh_data.
  - rewrite fresh_zero. apply length_zero_block.
  - intros b Hb. by apply fresh_keep.
  - intros b Hb _. by apply fresh_keep.
  - intros Ha. rewrite (proj1 (proj2 (fresh_keep view r Hfs Hr Hfree a (proj1 (ind_data Ha))))). by apply ind_data.
Qed.

(** An entry of the indirect block. *)
Lemma grew_indirect : NDIRECT <= k < MAXFILE -> fblock view addrs k = 0 -> a <> 0 -> r < 2 ^ 32 ->
  grew view addrs (zset (allocated view r) a (ind_set (k - NDIRECT) r (view a))) addrs k.
Proof.
  intros Hk H0 Ha Hr32. destruct (ind_data Ha) as [Hda Hla]. destruct (fresh_keep view r Hfs Hr Hfree a Hda) as (Hda' & Hva & Hne).
  set (v := zset (allocated view r) a _). change (12 <= k < 268) in Hk.
  assert (forall b, (forall x, 0 <= x < sb_size sb -> BBLOCK x sb <> a) -> 0 <= b < sb_size sb -> used v sb b = used (allocated view r) sb b) as Hu.
  { intros b Hba Hb. unfold used, v. rewrite zset_ne; [done|]. by apply Hba. }
  assert (forall x, 0 <= x < sb_size sb -> BBLOCK x sb <> a) as Hba by apply Hda.
  assert (forall b, data_block (allocated view r) b -> data_block v b) as Hdv.
  { intros b (D1 & D2 & D3 & D4). split_and!; auto; [lia..|]. rewrite Hu by (done || lia). done. }
  assert (length (v a) = 1024%nat) as Hlv.
  { unfold v, ind_set. rewrite zset_eq, length_wrn; [done|]. change NDIRECT with 12 in *. lia. }
  apply (add_grew view v addrs addrs r k); auto.
  - pose proof (fresh_fs_ok view r Hfs Hr Hfree) as [[B1 B2 B3 B4] Hf]. split; [split; auto|].
    + intros b Hb. rewrite Hu by done. auto.
    + intros b Hb. unfold v. rewrite zset_ne; [auto|]. by apply Hba.
    + intros b Hb. rewrite Hu by done. auto.
  - apply (fo_len _ _ _ _ _ Hfo).
  - unfold v. rewrite <- Hva. apply fblock_indirect; [done..|lia|by rewrite Hva].
  - intros j Hj Hn. change (0 <= j < 268) in Hj. unfold fblock. destruct (Z.ltb_spec j NDIRECT) as [|Hj']; [done|].
    destruct (Z.eqb_spec a 0); [done|]. unfold v, ind_get, ind_set. rewrite zset_eq.
    apply rdn_wrn_disjoint; rewrite ?Hla; change NDIRECT with 12 in *; lia.
  - apply Hdv. by apply fresh_data.
  - unfold v. rewrite zset_ne by done. rewrite fresh_zero. apply length_zero_block.
  - intros b Hb. apply Hdv. by apply fresh_keep.
  - intros b Hb Hn. unfold v. rewrite zset_ne by done. by apply fresh_keep.
Qed.

(** The indirect block itself: no block of the file changes. *)
Record kept (view : Z -> block) (addrs : list Z) (view' : Z -> block) (addrs' : list Z) : Prop := {
  ke_file : file_ok view' addrs';
  ke_fs : fs_ok view';
  ke_same j : 0 <= j < MAXFILE -> fblock view' addrs' j = fblock view addrs j;
  ke_view b : data_block view b -> view' b = view b /\ data_block view' b;
  ke_owns b : data_block view b -> owns view' addrs' b -> owns view addrs b;
}.

Lemma zero_entry j : 0 <= j < NINDIRECT -> ind_get zero_block j = 0.
Proof.
  change NINDIRECT with 256. intros Hj. unfold ind_get, rdn, rdb, zero_block. change (Z.to_nat BSIZE) with 1024%nat.
  rewrite drop_replicate, take_replicate. replace (4 `min` (1024 - 4 * Z.to_nat j))%nat with 4%nat by lia. reflexivity.
Qed.

Lemma kept_table : a = 0 -> kept view addrs (allocated view r) (<[Z.to_nat NDIRECT := r]> addrs).
Proof.
  intros Ha. pose proof (fo_len _ _ _ _ _ Hfo) as Hlen. set (addrs' := <[_ := r]> addrs).
  assert (nth (Z.to_nat NDIRECT) addrs' 0 = r) as Hind by (apply nth_insert_eq; rewrite Hlen; change NDIRECT with 12; lia).
  destruct (fs_free _ _ _ _ Hfs r Hr Hfree) as [Hr0 _].
  assert (forall j, 0 <= j < MAXFILE -> fblock (allocated view r) addrs' j = fblock view addrs j) as Hsame.
  { intros j Hj. unfold fblock. rewrite Hind. change NDIRECT with 12 in *. change MAXFILE with 268 in Hj.
    destruct (Z.ltb_spec j 12) as [Hlt|Hge]; [apply nth_insert_ne; change NDIRECT with 12; lia|].
    rewrite Ha, Z.eqb_refl. destruct (Z.eqb_spec r 0); [done|]. rewrite fresh_zero. apply zero_entry. change NINDIRECT with 256. lia. }
  assert (forall b, owns (allocated view r) addrs' b -> b = r \/ owns view addrs b) as Ho.
  { intros b [H0 [(j & Hj & E)|E]]; [|left; congruence]. right. split; [done|]. left. exists j. by rewrite <- Hsame. }
  split; [split|..]; auto using fresh_fs_ok.
  - unfold addrs'. by rewrite length_insert.
  - intros b [->|Hb]%Ho; [split; [by apply fresh_data|rewrite fresh_zero; apply length_zero_block]|].
    destruct (fo_data _ _ _ _ _ Hfo b Hb) as [Hd Hl]. destruct (fresh_keep view r Hfs Hr Hfree b Hd) as (? & -> & _). done.
  - intros j j' Hj Hj'. rewrite !Hsame by done. by apply (fo_inj _ _ _ _ _ Hfo).
  - intros j Hj. rewrite Hsame, Hind by done. intros H0 E.
    assert (data_block view r) as (_ & Hu & _); [|congruence]. rewrite <- E. apply (fo_data _ _ _ _ _ Hfo). split; [done|]. left. by exists j.
  - intros b Hb. destruct (fresh_keep view r Hfs Hr Hfree b Hb) as (? & ? & _). done.
  - intros b Hb [->|H]%Ho; [|done]. destruct Hb as (_ & Hu & _). congruence.
Qed.
End Cases.

Lemma kept_grew view addrs view1 addrs1 view2 addrs2 k : file_ok view addrs ->
  kept view addrs view1 addrs1 -> grew view1 addrs1 view2 addrs2 k -> grew view addrs view2 addrs2 k.
Proof.
  intros Hfo [K1 K2 K3 K4 K5] [G1 G2 G3 G4 G5 G6 G7]. split; auto.
  - intros j Hj H0. rewrite <- K3 in * by done. destruct (G4 j Hj H0) as [-> ->]. split; [done|].
    rewrite K3 in * by done. apply K4, (fo_data _ _ _ _ _ Hfo). split; [done|]. left. by exists j.
  - intros j Hj Hn H0. apply G5; auto. by rewrite K3.
  - intros b Hb Ho. destruct (K4 b Hb) as [E Hb']. destruct (G6 b Hb') as (-> & ? & ?); [|done]. intros H. by apply Ho, K5.
  - intros b Hb. apply G7, K4, Hb.
Qed.
End Grow.

(** ** bmap() *)

(** What writing the file of the inode [ip] may change in the kernel. *)
Definition fframe (ip : nat) (s s' : kernel) : Prop :=
  s' = s <| k_bufs := k_bufs s' |> <| k_procs := k_procs s' |> <| k_disk := k_disk s' |>
         <| k_writes := k_writes s' |> <| k_log := k_log s' |> <| k_inodes := k_inodes s' |> /\
  ptables s' = ptables s /\ forall j, j <> ip -> k_inodes s' !! j = k_inodes s !! j.

Lemma fframe_tframe ip s s' : tframe s s' -> fframe ip s s'.
Proof. intros [-> P]. split_and!; [by destruct s|done|done]. Qed.
Lemma fframe_refl ip s : fframe ip s s.
Proof. unfold fframe. by destruct s. Qed.
Lemma fframe_trans ip s1 s2 s3 : fframe ip s1 s2 -> fframe ip s2 s3 -> fframe ip s1 s3.
Proof.
  intros (E1 & P1 & H1) (E2 & P2 & H2). split_and!; [rewrite E2, E1; by destruct s1|congruence|]. intros j Hj. by rewrite H2, H1.
Qed.
Lemma fframe_inode ip s g : fframe ip s (s <| k_inodes ::= alter g ip |>).
Proof. split_and!; [by destruct s|done|]. intros j Hj. cbn. by rewrite list_lookup_alter_ne. Qed.
Lemma fframe_sb ip s s' : fframe ip s s' -> k_sb s' = k_sb s.
Proof. intros [-> _]. done. Qed.

Section Bmap.
Context (me : nat) (pid dev start lsize : Z) (e : list (kernel -> kernel)) (sb : superblock).
Hypothesis Hdev : 0 <= dev < 2 ^ 31.

Abbreviation tx := (tx_in me pid dev start lsize).
Abbreviation fs_ok := (fs_ok start lsize sb).
Abbreviation file_ok := (file_ok start lsize sb).
Abbreviation grew := (grew start lsize sb).
Abbreviation room := (room sb).
Abbreviation inode_is := (inode_is dev).

Lemma tx_inodes H s d bs view g : tx H s d bs view -> tx H (s <| k_inodes ::= g |>) d bs view.
Proof.
  intros [[[] C2 C3 C4 C5 C6 C7] T2 T3 [] T5 T6 T7 T8 T9 T10]. split; auto; [split; auto; by split|by split].
Qed.

Lemma grew_refl view addrs k : file_ok view addrs -> fs_ok view -> fblock view addrs k <> 0 -> grew view addrs view addrs k.
Proof. intros H1 H2 H3. split; auto. Qed.

Lemma room_some view n : room view (S n) -> exists b, 0 <= b < sb_size sb /\ used view sb b = false.
Proof. intros ([|b l] & _ & Hlen & H); cbn in Hlen; [lia|]. exists b. apply H. set_solver. Qed.

Lemma room_weaken view n m : (m <= n)%nat -> room view n -> room view m.
Proof. intros H (l & H1 & H2 & H3). exists l. split_and!; [done|lia|done]. Qed.

Lemma room_zset view b x n : (forall y, 0 <= y < sb_size sb -> BBLOCK y sb <> b) -> room view n -> room (zset view b x) n.
Proof.
  intros Hb (l & H1 & H2 & H3). exists l. split_and!; [done..|]. intros y Hy. destruct (H3 y Hy). split; [done|].
  unfold used. rewrite zset_ne; [done|]. by apply Hb.
Qed.

(** balloc() on a file system with a free block. *)
Lemma balloc_fresh H s d bs view n : tx H s d bs view -> k_sb s = sb -> fs_ok view -> held_data sb view H ->
  (length H <= 1)%nat -> Z.of_nat (length bs) < lsize - 2 -> room view (S n) ->
  exists r s' bs', balloc dev (mkWorld s e) = Ok r (mkWorld s' e) /\ tx H s' d bs' (allocated sb view r) /\
    0 <= r < sb_size sb /\ used view sb r = false /\ (r =? 0) = false /\ r < 2 ^ 31 /\ room (allocated sb view r) n /\
    (length bs' <= length bs + 2)%nat /\ tframe s s' /\ k_writes s' = k_writes s.
Proof.
  intros X Esb Hfs Hh HH Hl Hr. destruct (room_some _ _ Hr) as (b0 & Hb0 & Hu0).
  destruct (balloc_ok me pid dev start lsize e sb H d bs view s b0) as (r & s' & E & R1 & R2 & R3 & R4 & R5 & R6); auto; [apply Hfs|].
  exists r, s', (absorb (absorb bs (BBLOCK r sb)) r). destruct (fs_free _ _ _ _ Hfs r R1 R2) as [R0 _].
  pose proof (bm_size _ _ _ _ (fs_bitmap _ _ _ _ Hfs)) as Hsz.
  pose proof (length_absorb bs (BBLOCK r sb)). pose proof (length_absorb (absorb bs (BBLOCK r sb)) r).
  split_and!; auto; try lia. eapply fresh_room; eauto.
Qed.

Lemma inode_set s ip i g : inode_is s ip i -> i_dev (g i) = dev -> inode_is (s <| k_inodes ::= alter g ip |>) ip (g i).
Proof. intros [Hi _] Hd. split; [|done]. cbn. by rewrite list_lookup_alter_eq, Hi. Qed.

(** bmap() from the indirect block [a] on. *)
Lemma bmap_entry s d bs view addrs k n : tx [] s d bs view -> k_sb s = sb -> file_ok view addrs -> fs_ok view ->
  NDIRECT <= k < MAXFILE -> nth (Z.to_nat NDIRECT) addrs 0 <> 0 -> room view (S n) -> Z.of_nat (length bs) + 3 < lsize ->
  exists s' bs' view',
    (let* bp := bread dev (nth (Z.to_nat NDIRECT) addrs 0) in
     let* bf := get_buf bp in
     let addr := ind_get (b_data bf) (k - NDIRECT) in
     let* addr := (if addr =? 0 then
                     let* addr := balloc dev in
                     (when negb (addr =? 0) do (mod_data bp (ind_set (k - NDIRECT) addr) ;; log_write bp)) ;;
                     ret addr
                   else ret addr) in
     brelse bp ;;
     ret addr)%M (mkWorld s e) = Ok (fblock view' addrs k) (mkWorld s' e) /\
    tx [] s' d bs' view' /\ (length bs' <= length bs + 3)%nat /\ grew view addrs view' addrs k /\ room view' n /\
    tframe s s' /\ k_writes s' = k_writes s.
Proof.
  intros X Esb Hfo Hfs Hk Ha Hroom Hl. set (a := nth (Z.to_nat NDIRECT) addrs 0) in *.
  destruct (ind_data _ _ _ _ _ Hfo Ha) as [Hda Hla]. fold a in Hda, Hla.
  pose proof (tx_room _ _ _ _ _ _ _ _ _ _ X) as Hroom30. pose proof (tx_fit _ _ _ _ (ts_tx _ _ _ _ _ _ _ _ _ _ X)) as Fit.
  change LOGSIZE with 30 in Fit.
  destruct (tx_bread _ _ _ _ _ e [] s d bs view a X) as (j & s1 & E1 & K1 & F1 & W1); [set_solver|cbn; lia|].
  destruct (tx_data _ _ _ _ _ e _ _ _ _ _ _ _ K1) as (bf & E2 & V2).
  assert (fblock view addrs k = ind_get (view a) (k - NDIRECT)) as Efb.
  { unfold fblock. fold a. replace (k <? NDIRECT) with false by lia. by destruct (Z.eqb_spec a 0). }
  destruct (ind_get (view a) (k - NDIRECT) =? 0) eqn:E0.
  - destruct (balloc_fresh [(a, j)] s1 d bs view n K1) as (r & s2 & bs2 & E3 & K2 & R1 & R2 & R0 & R31 & Rm & Rl & F2 & W2); auto; try lia.
    { by rewrite (tframe_sb _ _ F1). }
    { intros x Hx. cbn in Hx. apply list_elem_of_singleton in Hx as ->. destruct Hda as (D1 & D2 & D3 & D4). split_and!; auto; lia. }
    destruct (fresh_keep _ _ _ view r Hfs R1 R2 a Hda) as (Hda' & Hva & Hne).
    destruct (tx_write _ _ _ _ _ e [] s2 d bs2 _ a j (ind_set (k - NDIRECT) r) K2) as (s3 & E4 & K3 & F3 & W3).
    { destruct Hda. pose proof (bm_size _ _ _ _ (fs_bitmap _ _ _ _ Hfs)). lia. }
    { apply Hda. }
    { lia. }
    destruct (tx_brelse _ _ _ _ _ e [] s3 d _ _ a j K3) as (s4 & E5 & X4 & F4 & W4); [left; apply elem_of_absorb|].
    rewrite Hva in X4. apply Z.eqb_eq in E0.
    assert (grew view addrs (zset (allocated sb view r) a (ind_set (k - NDIRECT) r (view a))) addrs k) as G.
    { apply grew_indirect; auto; [by rewrite Efb|lia]. }
    eexists s4, _, _. split; [|split; [exact X4|]].
    + rewrite (bind_ok _ _ _ _ _ E1), (bind_ok _ _ _ _ _ E2). cbn zeta. rewrite V2, E0. cbn [Z.eqb].
      rewrite bind_assoc, (bind_ok _ _ _ _ _ E3). rewrite R0. cbn [negb].
      rewrite bind_assoc, (bind_ok _ _ _ _ _ E4), (bind_ok (ret r) _ _ _ _ eq_refl), (bind_ok _ _ _ _ _ E5). unfold ret. f_equal.
      rewrite <- Hva. symmetry. apply fblock_indirect; [done..|lia|fold a; by rewrite Hva].
    + split_and!; [pose proof (length_absorb bs2 a); lia|exact G| |eauto using tframe_trans|congruence].
      apply room_zset; [apply Hda|done].
  - apply Z.eqb_neq in E0.
    destruct (tx_brelse _ _ _ _ _ e [] s1 d bs view a j K1) as (s2 & E3 & X2 & F2 & W2).
    { by eapply tx_clean; [exact X|set_solver]. }
    exists s2, bs, view. split; [|split; [done|]].
    + rewrite (bind_ok _ _ _ _ _ E1), (bind_ok _ _ _ _ _ E2). cbn zeta. rewrite V2. apply Z.eqb_neq in E0. rewrite E0.
      rewrite (bind_ok (ret _) _ _ _ _ eq_refl), (bind_ok _ _ _ _ _ E3). by rewrite Efb.
    + split_and!; [lia|apply grew_refl; auto; by rewrite Efb|by eapply room_weaken; [|exact Hroom]; lia|eauto using tframe_trans|congruence].
Qed.

(** The result of a bmap() for the block [k]. *)
Definition bmap_result (s : kernel) (d : Z -> block) (bs : list Z) (view : Z -> block) (ip : nat) (i : inode) (k : Z) (n : nat)
    (o : outcome world Z) : Prop :=
  exists s' bs' view' addrs',
    o = Ok (fblock view' addrs' k) (mkWorld s' e) /\ tx [] s' d bs' view' /\
    inode_is s' ip (i <| i_addrs := addrs' |>) /\ (length bs' <= length bs + 5)%nat /\
    grew view (i_addrs i) view' addrs' k /\ room view' n /\ fframe ip s s' /\ k_writes s' = k_writes s.

Lemma same_addrs i : i <| i_addrs := i_addrs i |> = i.
Proof. by destruct i. Qed.

Lemma bmap_direct s d bs view ip i k n : tx [] s d bs view -> k_sb s = sb -> inode_is s ip i ->
  file_ok view (i_addrs i) -> fs_ok view -> 0 <= k < NDIRECT -> room view (S n) -> Z.of_nat (length bs) < lsize - 2 ->
  bmap_result s d bs view ip i k n (bmap ip k (mkWorld s e)).
Proof.
  intros X Esb Hi Hfo Hfs Hk Hroom Hl. pose proof (fo_len _ _ _ _ _ Hfo) as Hlen. change NDIRECT with 12 in Hk.
  assert (fblock view (i_addrs i) k = nth (Z.to_nat k) (i_addrs i) 0) as Efb.
  { unfold fblock. by replace (k <? NDIRECT) with true by (change NDIRECT with 12; lia). }
  unfold bmap. rewrite (bind_ok _ _ _ _ _ (get_inode_ok _ _ _ e (proj1 Hi))), (proj2 Hi).
  replace (k <? NDIRECT) with true by (change NDIRECT with 12; lia).
  rewrite (bind_ok _ _ _ _ _ (addr_get_ok _ _ _ e k (proj1 Hi) ltac:(lia))), <- Efb.
  destruct (Z.eqb_spec (fblock view (i_addrs i) k) 0) as [E0|E0].
  - destruct (balloc_fresh [] s d bs view n X Esb Hfs) as (r & s1 & bs1 & E1 & X1 & R1 & R2 & R0 & R31 & Rm & Rl & F1 & W1);
      [intros x Hx; set_solver|cbn; lia|done|done|].
    pose proof (inode_is_frame dev _ _ _ _ Hi F1) as Hi1.
    set (g := fun i : inode => i <| i_addrs ::= <[Z.to_nat k := r]> |>).
    assert (grew view (i_addrs i) (allocated sb view r) (<[Z.to_nat k := r]> (i_addrs i)) k) as G by (apply grew_direct; auto).
    exists (s1 <| k_inodes ::= alter g ip |>), bs1, (allocated sb view r), (<[Z.to_nat k := r]> (i_addrs i)).
    split_and!; auto; [|by apply tx_inodes| |lia| ].
    + rewrite (bind_ok _ _ _ _ _ E1), R0, (bind_ok _ _ _ _ _ (addr_set_ok _ _ _ e k r (proj1 Hi1))). unfold ret. f_equal.
      unfold fblock. replace (k <? NDIRECT) with true by (change NDIRECT with 12; lia). symmetry. apply nth_insert_eq. lia.
    + apply (inode_set s1 ip i g Hi1). apply Hi.
    + eapply fframe_trans; [by apply fframe_tframe|apply fframe_inode].
  - exists s, bs, view, (i_addrs i). rewrite same_addrs.
    split_and!; auto; [lia|by apply grew_refl|by eapply room_weaken; [|exact Hroom]; lia|apply fframe_refl].
Qed.

Lemma bmap_ok s d bs view ip i k n : tx [] s d bs view -> k_sb s = sb -> inode_is s ip i ->
  file_ok view (i_addrs i) -> fs_ok view -> 0 <= k < MAXFILE -> room view (S (S n)) -> Z.of_nat (length bs) + 5 < lsize ->
  bmap_result s d bs view ip i k n (bmap ip k (mkWorld s e)).
Proof.
  intros X Esb Hi Hfo Hfs Hk Hroom Hl. pose proof Hk as Hk268. change MAXFILE with 268 in Hk268.
  destruct (Z.ltb_spec k NDIRECT) as [Hd|Hd].
  { apply bmap_direct; auto; [lia|by eapply room_weaken; [|exact Hroom]; lia|lia]. }
  pose proof (fo_len _ _ _ _ _ Hfo) as Hlen. set (a := nth (Z.to_nat NDIRECT) (i_addrs i) 0).
  unfold bmap. rewrite (bind_ok _ _ _ _ _ (get_inode_ok _ _ _ e (proj1 Hi))), (proj2 Hi).
  replace (k <? NDIRECT) with false by lia. cbn zeta.
  replace (k - NDIRECT <? NINDIRECT) with true by (change NINDIRECT with 256; change NDIRECT with 12 in *; lia).
  rewrite (bind_ok _ _ _ _ _ (addr_get_ok _ _ _ e NDIRECT (proj1 Hi) ltac:(rewrite Hlen; change NDIRECT with 12; lia))). fold a.
  destruct (Z.eqb_spec a 0) as [E0|E0].
  - destruct (balloc_fresh [] s d bs view (S n) X Esb Hfs) as (r & s1 & bs1 & E1 & X1 & R1 & R2 & R0 & R31 & Rm & Rl & F1 & W1);
      [intros x Hx; set_solver|cbn; lia|lia|done|].
    pose proof (inode_is_frame dev _ _ _ _ Hi F1) as Hi1.
    set (g := fun i : inode => i <| i_addrs ::= <[Z.to_nat NDIRECT := r]> |>). set (addrs1 := <[Z.to_nat NDIRECT := r]> (i_addrs i)).
    pose proof (kept_table start lsize sb view (i_addrs i) r Hfo Hfs R1 R2 E0) as K. fold addrs1 in K.
    assert (nth (Z.to_nat NDIRECT) addrs1 0 = r) as Er by (apply nth_insert_eq; rewrite Hlen; change NDIRECT with 12; lia).
    destruct (bmap_entry (s1 <| k_inodes ::= alter g ip |>) d bs1 (allocated sb view r) addrs1 k n)
      as (s2 & bs2 & view2 & E2 & X2 & L2 & G2 & Rm2 & F2 & W2); rewrite ?Er; auto using tx_inodes; try lia.
    { cbn. by rewrite (tframe_sb _ _ F1). }
    { apply K. }
    { apply K. }
    exists s2, bs2, view2, addrs1. split_and!; auto; [| |lia|by eapply kept_grew| |by rewrite W2].
    + rewrite bind_assoc, (bind_ok _ _ _ _ _ E1), R0, bind_assoc, (bind_ok _ _ _ _ _ (addr_set_ok _ _ _ e NDIRECT r (proj1 Hi1))).
      rewrite (bind_ok (ret r) _ _ _ _ eq_refl), R0. rewrite Er in E2. exact E2.
    + eapply inode_is_frame; [|exact F2]. apply (inode_set s1 ip i g Hi1). apply Hi.
    + eapply fframe_trans; [by apply fframe_tframe|]. eapply fframe_trans; [apply fframe_inode|by apply fframe_tframe].
  - destruct (bmap_entry s d bs view (i_addrs i) k n) as (s2 & bs2 & view2 & E2 & X2 & L2 & G2 & Rm2 & F2 & W2);
      auto; try lia; [by eapply room_weaken; [|exact Hroom]; lia|].
    exists s2, bs2, view2, (i_addrs i). rewrite same_addrs.
    split_and!; auto; [|by eapply inode_is_frame|lia|by apply fframe_tframe].
    rewrite (bind_ok (ret a) _ _ _ _ eq_refl). apply Z.eqb_neq in E0. rewrite E0. exact E2.
Qed.
End Bmap.
