(* ===== verification/FsContent.v ===== *)
(** writei() and readi() on the contents of a file. *)

From S2P Require Import Prelude Layout Kernel Sched Bio Log Fs Ring Cache Crash LogProof Transaction FsAlloc FsFile FsWrite.

(** ** Writing into a block of the file *)

Section Content.
Context (start lsize : Z) (sb : superblock).

Abbreviation data_block := (data_block start lsize sb).
Abbreviation fs_ok := (fs_ok start lsize sb).
Abbreviation file_ok := (file_ok start lsize sb).
Abbreviation grew := (grew start lsize sb).

(** The file has [data] at [off], and is otherwise as it was; so are the blocks
    of others. *)
Record wrote (view : Z -> block) (addrs : list Z) (view' : Z -> block) (addrs' : list Z) (off : Z) (data : list Z) : Prop := {
  wr_file : file_ok view' addrs';
  wr_fs : fs_ok view';
  wr_map j : 0 <= j < MAXFILE -> fblock view addrs j <> 0 -> fblock view' addrs' j <> 0;
  wr_there x : off <= x < off + Z.of_nat (length data) -> fblock view' addrs' (x / BSIZE) <> 0;
  wr_in n c : data !! n = Some c -> fbyte view' addrs' (off + Z.of_nat n) = c;
  wr_out x : 0 <= x < MAXFILE * BSIZE -> fblock view addrs (x / BSIZE) <> 0 ->
    ~ (off <= x < off + Z.of_nat (length data)) -> fbyte view' addrs' x = fbyte view addrs x;
  wr_frame b : data_block view b -> ~ owns view addrs b -> view' b = view b /\ data_block view' b /\ ~ owns view' addrs' b;
}.

Lemma wrote_nothing view addrs off : file_ok view addrs -> fs_ok view -> wrote view addrs view addrs off [].
Proof. intros H1 H2. split; auto; cbn; [lia|done]. Qed.

Lemma wrote_then view addrs view1 addrs1 view2 addrs2 off d1 d2 :
  0 <= off -> off + Z.of_nat (length d1) + Z.of_nat (length d2) <= MAXFILE * BSIZE ->
  wrote view addrs view1 addrs1 off d1 -> wrote view1 addrs1 view2 addrs2 (off + Z.of_nat (length d1)) d2 ->
  wrote view addrs view2 addrs2 off (d1 ++ d2).
Proof.
  intros Ho Hm W1 W2. change (MAXFILE * BSIZE) with 274432 in Hm.
  assert (forall x, 0 <= x < 274432 -> 0 <= x / BSIZE < MAXFILE) as Hdiv.
  { intros x Hx. change BSIZE with 1024. change MAXFILE with 268. Z.to_euclidean_division_equations. lia. }
  destruct W1 as [A1 A2 A3 A4 A5 A6 A7], W2 as [B1 B2 B3 B4 B5 B6 B7]. split; auto.
  - intros x Hx. rewrite length_app in Hx. destruct (Z.lt_ge_cases x (off + Z.of_nat (length d1))); [|apply B4; lia].
    apply B3; [apply Hdiv; lia|apply A4; lia].
  - intros n c [Hn|[Hn Hc]]%lookup_app_Some.
    + pose proof (lookup_lt_Some _ _ _ Hn). rewrite B6; [by apply A5|change (MAXFILE * BSIZE) with 274432; lia|apply A4; lia|lia].
    + rewrite <- (B5 _ _ Hc). f_equal. lia.
  - intros x Hx H0 Hn. rewrite length_app in Hn. rewrite B6; [apply A6; [done..|lia]|done| |lia].
    apply A3; [apply Hdiv; exact Hx|done].
  - intros b Hb Hob. destruct (A7 b Hb Hob) as (<- & Hb1 & Ho1). by apply B7.
Qed.

Lemma nth_wrb l o w n : (o + length w <= length l)%nat ->
  nth n (wrb l o w) 0 = if decide (o <= n < o + length w)%nat then nth (n - o) w 0 else nth n l 0.
Proof. intros H. rewrite !nth_lookup, lookup_wrb by done. by case_decide; rewrite ?nth_lookup. Qed.

(** Changing a data block of a file. *)
Section SetBlock.
Context (view : Z -> block) (addrs : list Z) (k : Z) (x : block).
Hypothesis Hfo : file_ok view addrs.
Hypothesis Hfs : fs_ok view.
Hypothesis Hk : 0 <= k < MAXFILE.
Hypothesis H0 : fblock view addrs k <> 0.
Hypothesis Hx : length x = 1024%nat.
Abbreviation b := (fblock view addrs k).
Abbreviation v := (zset view b x).

Lemma set_owned : owns view addrs b.
Proof. split; [done|]. left. by exists k. Qed.

Lemma set_fblock j : fblock v addrs j = fblock view addrs j.
Proof. unfold fblock. rewrite zset_ne; [done|]. intros E. by apply (fo_ind _ _ _ _ _ Hfo k Hk H0). Qed.

Lemma set_owns c : owns v addrs c <-> owns view addrs c.
Proof. unfold owns. by setoid_rewrite set_fblock. Qed.

Lemma set_used y : 0 <= y < sb_size sb -> used v sb y = used view sb y.
Proof. intros Hy. unfold used. rewrite zset_ne; [done|]. by apply (fo_data _ _ _ _ _ Hfo b set_owned). Qed.

Lemma set_data c : data_block view c -> data_block v c.
Proof. intros (D1 & D2 & D3). split; [done|]. split; [|done]. rewrite set_used by lia. done. Qed.

Lemma set_fs_ok : fs_ok v.
Proof.
  destruct Hfs as [[B1 B2 B3 B4] Hf]. destruct (fo_data _ _ _ _ _ Hfo b set_owned) as [(_ & _ & _ & Hb) _].
  split; [split; auto|]; intros y Hy; rewrite ?set_used by done; auto. rewrite zset_ne; auto.
Qed.

Lemma set_file_ok : file_ok v addrs.
Proof.
  split; [apply (fo_len _ _ _ _ _ Hfo)|..].
  - intros c Hc%set_owns. destruct (fo_data _ _ _ _ _ Hfo c Hc) as [Hd Hl]. split; [by apply set_data|].
    unfold zset. by destruct (Z.eqb_spec c b).
  - intros j j' Hj Hj'. rewrite !set_fblock. by apply (fo_inj _ _ _ _ _ Hfo).
  - intros j Hj. rewrite set_fblock. by apply (fo_ind _ _ _ _ _ Hfo).
Qed.

Lemma set_fbyte_in y : y / BSIZE = k -> fbyte v addrs y = nth (Z.to_nat (y mod BSIZE)) x 0.
Proof. intros E. unfold fbyte. by rewrite set_fblock, E, zset_eq. Qed.

Lemma set_fbyte_out y : 0 <= y / BSIZE < MAXFILE -> y / BSIZE <> k -> fblock view addrs (y / BSIZE) <> 0 ->
  fbyte v addrs y = fbyte view addrs y.
Proof.
  intros Hy Hn Hy0. unfold fbyte. rewrite set_fblock, zset_ne; [done|]. intros E. apply Hn.
  by apply (fo_inj _ _ _ _ _ Hfo).
Qed.
End SetBlock.

Lemma within off n : 0 <= off -> 0 <= n -> off mod 1024 + n < 1024 ->
  (off + n) / 1024 = off / 1024 /\ (off + n) mod 1024 = off mod 1024 + n.
Proof. intros. Z.to_euclidean_division_equations. lia. Qed.

(** One round of writei(): bmap() and the change of the block. *)
Lemma wrote_block view addrs view1 addrs1 off w :
  0 <= off -> off mod BSIZE + Z.of_nat (length w) <= BSIZE -> off / BSIZE < MAXFILE ->
  grew view addrs view1 addrs1 (off / BSIZE) ->
  let b := fblock view1 addrs1 (off / BSIZE) in
  wrote view addrs (zset view1 b (wrb (view1 b) (Z.to_nat (off mod BSIZE)) w)) addrs1 off w.
Proof.
  intros Ho Hw Hk [Gf Gs Gn Gsame Gnone Gfr Gu] b. set (k := off / BSIZE) in *. change BSIZE with 1024 in *.
  pose proof (Z.mod_pos_bound off 1024 ltac:(lia)) as Hmod.
  assert (0 <= k < MAXFILE) as Hk0 by (split; [unfold k; Z.to_euclidean_division_equations; lia|done]).
  destruct (fo_data _ _ _ _ _ Gf b (set_owned _ _ _ Hk0 Gn)) as [Hdb Hlb].
  set (x := wrb (view1 b) (Z.to_nat (off mod 1024)) w).
  assert (length x = 1024%nat) as Hx by (unfold x; rewrite length_wrb; lia).
  pose proof (set_fblock view1 addrs1 k x Gf Hk0 Gn) as Hfb.
  assert (forall n, 0 <= n < Z.of_nat (length w) -> (off + n) / 1024 = k /\ (off + n) mod 1024 = off mod 1024 + n) as Hin.
  { intros n Hn. apply within; lia. }
  split.
  - by apply set_file_ok.
  - by apply set_fs_ok.
  - intros j Hj Hj0. rewrite Hfb. by destruct (Gsame j Hj Hj0) as [-> _].
  - intros y Hy. rewrite Hfb. change BSIZE with 1024. replace y with (off + (y - off)) by lia.
    destruct (Hin (y - off) ltac:(lia)) as [-> _]. done.
  - intros n c Hc. pose proof (lookup_lt_Some _ _ _ Hc). destruct (Hin (Z.of_nat n) ltac:(lia)) as [D M].
    rewrite (set_fbyte_in view1 addrs1 k x Gf Hk0 Gn) by exact D. change BSIZE with 1024. rewrite M.
    unfold x. rewrite nth_wrb by lia. rewrite decide_True by lia. apply nth_lookup_Some. rewrite <- Hc. f_equal. lia.
  - intros y Hy Hy0 Hn. change (0 <= y < 274432) in Hy. change BSIZE with 1024 in *.
    assert (0 <= y / 1024 < MAXFILE) as Hyk by (change MAXFILE with 268; Z.to_euclidean_division_equations; lia).
    destruct (Gsame (y / 1024) Hyk Hy0) as [Ga Gb].
    assert (fbyte view1 addrs1 y = fbyte view addrs y) as <- by (unfold fbyte; change BSIZE with 1024; by rewrite Ga, Gb).
    destruct (decide (y / 1024 = k)) as [E|E].
    + rewrite (set_fbyte_in view1 addrs1 k x Gf Hk0 Gn) by exact E. unfold fbyte. change BSIZE with 1024. rewrite E.
      unfold x. rewrite nth_wrb by lia. rewrite decide_False; [done|]. clear - E Hn Hmod Hy Ho. unfold k in E.
      Z.to_euclidean_division_equations. lia.
    + apply set_fbyte_out; [done..|]. change BSIZE with 1024. by rewrite Ga.
  - intros c Hc Hoc. destruct (Gfr c Hc Hoc) as (E & Hc1 & Ho1). split_and!; [|by apply set_data|intros H2; by apply Ho1, (set_owns view1 addrs1 k x Gf Hk0 Gn)].
    rewrite zset_ne; [done|]. intros ->. by apply Ho1, set_owned.
Qed.
End Content.

(** ** writei() *)

Section Writei.
Context (me : nat) (pid dev start lsize : Z) (e : list (kernel -> kernel)) (sb : superblock).
Hypothesis Hdev : 0 <= dev < 2 ^ 31.

Abbreviation tx := (tx_in me pid dev start lsize).
Abbreviation fs_ok := (fs_ok start lsize sb).
Abbreviation file_ok := (file_ok start lsize sb).
Abbreviation wrote := (wrote start lsize sb).
Abbreviation inode_is := (inode_is dev).

(** either_copyin() from [src] gives the bytes [data], also while the file of
    [ip] is being written. *)
Definition supplies (ip : nat) (s : kernel) (src : source) (data : list Z) : Prop :=
  source_add src 0 = src /\
  forall s', fframe ip s s' -> forall k m, (k + m <= length data)%nat ->
  either_copyin (source_add src (Z.of_nat k)) (Z.of_nat m) (mkWorld s' e) = Ok (0, take m (drop k data)) (mkWorld s' e).

Lemma supplies_local ip s data : supplies ip s (SLocal data) data.
Proof. split; [done|]. intros s' F k m Hk. cbn. by rewrite !Nat2Z.id. Qed.

Lemma source_add_add src k m : source_add (source_add src (Z.of_nat k)) (Z.of_nat m) = source_add src (Z.of_nat (k + m)).
Proof.
  destruct src as [va|pa|l]; cbn.
  - f_equal. unfold u64. rewrite Z.add_mod_idemp_l by lia. f_equal. lia.
  - f_equal. unfold u64. rewrite Z.add_mod_idemp_l by lia. f_equal. lia.
  - rewrite drop_drop. f_equal. f_equal. lia.
Qed.

Lemma supplies_next ip s s' src data m : supplies ip s src data -> fframe ip s s' -> (m <= length data)%nat ->
  supplies ip s' (source_add src (Z.of_nat m)) (drop m data).
Proof.
  intros [_ H] F Hm. split.
  { pose proof (source_add_add src m 0) as E. change (Z.of_nat 0) with 0 in E. rewrite E. do 2 f_equal. lia. }
  intros s2 F2 k n Hk. rewrite length_drop in Hk. rewrite source_add_add, drop_drop.
  apply H; [by eapply fframe_trans|lia].
Qed.

Lemma supplies_frame ip s s' src data : supplies ip s src data -> fframe ip s s' -> supplies ip s' src data.
Proof. intros [H0 H] F. split; [done|]. intros s2 F2. apply H. by eapply fframe_trans. Qed.

(** A round of the loop after bmap(): the bytes are copied into the block and
    the block is logged. *)
Lemma writei_round (A : Type) (k0 k : K A) s d bs view ip i src data m b o :
  tx [] s d bs view -> inode_is s ip i -> supplies ip s src data -> (m <= length data)%nat ->
  0 <= b < 2 ^ 31 -> ~ (start <= b < start + lsize) -> Z.of_nat (length bs) < lsize - 1 ->
  exists s', (let* i := get_inode ip in
      let* bp := bread (i_dev i) b in
      let* r := either_copyin src (Z.of_nat m) in
      mod_data bp (fun d => wrb d o r.2) ;;
      if r.1 =? -1 then brelse bp ;; k0 else log_write bp ;; brelse bp ;; k)%M (mkWorld s e) = k (mkWorld s' e) /\
    tx [] s' d (absorb bs b) (zset view b (wrb (view b) o (take m data))) /\ tframe s s' /\ k_writes s' = k_writes s.
Proof.
  intros X Hi [Hs0 Hsrc] Hm Hb Hlog Hl. pose proof (tx_room _ _ _ _ _ _ _ _ _ _ X) as R.
  destruct (tx_bread _ _ _ _ _ e [] s d bs view b X) as (bp & s1 & E1 & X1 & F1 & W1); [set_solver|cbn; lia|].
  pose proof (Hsrc s1 (fframe_tframe ip _ _ F1) O m Hm) as E2. rewrite drop_0 in E2.
  destruct (tx_update _ _ _ _ _ e [] s1 d bs view b bp (fun d => wrb d o (take m data)) X1 Hb Hlog Hl) as (s2 & E3 & X2 & F2 & W2).
  exists s2. split_and!; [|exact X2|by eapply tframe_trans|congruence].
  rewrite (bind_ok _ _ _ _ _ (get_inode_ok _ _ _ e (proj1 Hi))), (proj2 Hi), (bind_ok _ _ _ _ _ E1).
  change (Z.of_nat 0) with 0 in E2. rewrite Hs0 in E2. run E2. cbn [fst snd]. change (0 =? -1) with false. cbn iota. apply (E3 A (fun _ => k)).
Qed.

Lemma writei_loop_done f ip src off n s i data d bs view q :
  tx [] s d bs view -> inode_is s ip i -> file_ok view (i_addrs i) -> fs_ok view -> Z.of_nat (length data) = n - n ->
  exists s' bs' view' addrs', writei_loop (S f) ip src off n n (mkWorld s e) = Ok (n, off + (n - n)) (mkWorld s' e) /\
    tx [] s' d bs' view' /\ inode_is s' ip (i <| i_addrs := addrs' |>) /\
    wrote view (i_addrs i) view' addrs' off data /\ (length bs' <= length bs + 6 * q)%nat /\
    fframe ip s s' /\ k_writes s' = k_writes s.
Proof.
  intros X Hi Hfo Hfs Hlen. exists s, bs, view, (i_addrs i). cbn [writei_loop]. replace (n <? n) with false by lia.
  rewrite same_addrs, Z.sub_diag, Z.add_0_r in *. destruct data; [|cbn in Hlen; lia].
  split_and!; auto; [by apply wrote_nothing|lia|apply fframe_refl].
Qed.

Lemma writei_loop_ok ip d n : forall q f s i src data bs view off tot,
  tx [] s d bs view -> k_sb s = sb -> inode_is s ip i -> file_ok view (i_addrs i) -> fs_ok view ->
  supplies ip s src data -> Z.of_nat (length data) = n - tot -> 0 <= tot <= n -> 0 <= off ->
  off + (n - tot) <= MAXFILE * BSIZE -> n < 2 ^ 31 -> rounds f off (n - tot) -> rounds (S q) off (n - tot) ->
  room sb view (2 * q) -> Z.of_nat (length bs) + 6 * Z.of_nat q < lsize ->
  exists s' bs' view' addrs', writei_loop f ip src off tot n (mkWorld s e) = Ok (n, off + (n - tot)) (mkWorld s' e) /\
    tx [] s' d bs' view' /\ inode_is s' ip (i <| i_addrs := addrs' |>) /\
    wrote view (i_addrs i) view' addrs' off data /\ (length bs' <= length bs + 6 * q)%nat /\
    fframe ip s s' /\ k_writes s' = k_writes s.
Proof.
  change (MAXFILE * BSIZE) with 274432.
  induction q as [|q IH]; intros [|f] s i src data bs view off tot X Esb Hi Hfo Hfs Hsrc Hlen Ht Ho Hmax Hn Hr Hq Hroom Hl;
    try (destruct Hr; lia).
  { assert (tot = n) as ->; [|by eapply writei_loop_done]. destruct Hq as [_ Hq]. change BSIZE with 1024 in Hq.
    pose proof (Z.mod_pos_bound off 1024 ltac:(lia)). lia. }
  destruct (decide (tot = n)) as [->|Hne]; [by eapply writei_loop_done|]. cbn [writei_loop].
  replace (tot <? n) with true by lia.
  destruct (rounds_step f off (n - tot) Ho ltac:(lia) Hr) as (Hm1 & Hm2 & Hr').
  destruct (rounds_step (S q) off (n - tot) Ho ltac:(lia) Hq) as (_ & _ & Hq').
  set (m := Z.min (n - tot) (BSIZE - off mod BSIZE)) in *. set (w := take (Z.to_nat m) data).
  assert (length w = Z.to_nat m) as Hw by (unfold w; rewrite length_take; lia).
  assert (0 <= off / BSIZE < MAXFILE) as Hk by (change BSIZE with 1024; change MAXFILE with 268; Z.to_euclidean_division_equations; lia).
  destruct (bmap_ok me pid dev start lsize e sb Hdev s d bs view ip i (off / BSIZE) (2 * q) X Esb Hi Hfo Hfs Hk)
    as (s1 & bs1 & view1 & addrs1 & E1 & X1 & Hi1 & L1 & G1 & Rm1 & F1 & W1); [by replace (S (S (2 * q))) with (2 * S q)%nat by lia|lia|].
  pose proof (wrote_block start lsize sb view (i_addrs i) view1 addrs1 off w Ho ltac:(lia) ltac:(lia) G1) as Wb. cbn zeta in Wb.
  set (b := fblock view1 addrs1 (off / BSIZE)) in *.
  destruct (fo_data _ _ _ _ _ (gr_file _ _ _ _ _ _ _ _ G1) b (set_owned _ _ _ Hk (gr_new _ _ _ _ _ _ _ _ G1))) as [(D1 & _ & D3 & D4) _].
  pose proof (bm_size _ _ _ _ (fs_bitmap _ _ _ _ Hfs)) as Hsz.
  destruct (writei_round _ (ret (tot, off)) (writei_loop f ip (source_add src m) (u32 (off + m)) (u32 (tot + m)) n) s1 d bs1 view1 ip
    (i <| i_addrs := addrs1 |>) src data (Z.to_nat m) b (Z.to_nat (off mod BSIZE)) X1 Hi1)
    as (s2 & E2 & X2 & F2 & W2); [|lia|lia|done|lia|].
  { by eapply supplies_frame. }
  rewrite Z2Nat.id in E2 by lia.
  pose proof (length_absorb bs1 b) as La.
  destruct (IH f s2 (i <| i_addrs := addrs1 |>) (source_add src m) (drop (Z.to_nat m) data) (absorb bs1 b)
    (zset view1 b (wrb (view1 b) (Z.to_nat (off mod BSIZE)) w)) (off + m) (tot + m))
    as (s3 & bs3 & view3 & addrs3 & E3 & X3 & Hi3 & W3 & L3 & F3 & Wr3); auto; try lia.
  - rewrite (tframe_sb _ _ F2), (fframe_sb _ _ _ F1). done.
  - by eapply inode_is_frame.
  - apply Wb.
  - apply Wb.
  - replace (source_add src m) with (source_add src (Z.of_nat (Z.to_nat m))) by (f_equal; lia).
    eapply supplies_next; [done|by eapply fframe_trans, fframe_tframe|lia].
  - rewrite length_drop. lia.
  - by replace (n - (tot + m)) with (n - tot - m) by lia.
  - by replace (n - (tot + m)) with (n - tot - m) by lia.
  - by apply room_zset.
  - exists s3, bs3, view3, addrs3. split_and!; auto; [| |lia|eauto using fframe_trans, fframe_tframe|congruence].
    + run E1. fold b. rewrite (u32_small (off + m)), (u32_small (tot + m)) in E2 by lia.
      pose proof (gr_new _ _ _ _ _ _ _ _ G1) as Hb0%Z.eqb_neq. fold b in Hb0. rewrite Hb0. fold m.
      rewrite (u32_small (off + m)), (u32_small (tot + m)) by lia. rewrite E2, E3. do 2 f_equal. lia.
    + rewrite <- (take_drop (Z.to_nat m) data). fold w. eapply wrote_then; [done| |exact Wb|].
      * rewrite Hw, length_drop. change (MAXFILE * BSIZE) with 274432. lia.
      * rewrite Hw, Z2Nat.id by lia. exact W3.
Qed.

(** Changing a block that is neither of the file nor of the bitmap. *)
Section Other.
Context (view : Z -> block) (addrs : list Z) (c : Z) (x : block).
Hypothesis Hfo : file_ok view addrs.
Hypothesis Hfs : fs_ok view.
Hypothesis Hc : data_block start lsize sb view c.
Hypothesis Hno : ~ owns view addrs c.
Abbreviation v := (zset view c x).

Lemma other_owned b : owns view addrs b -> v b = view b.
Proof. intros Hb. apply zset_ne. by intros ->. Qed.

Lemma other_fblock j : fblock v addrs j = fblock view addrs j.
Proof.
  unfold fblock. destruct (j <? NDIRECT); [done|]. destruct (Z.eqb_spec (nth (Z.to_nat NDIRECT) addrs 0) 0) as [|Ha]; [done|].
  rewrite other_owned; [done|]. split; [done|]. by right.
Qed.

Lemma other_used b : 0 <= b < sb_size sb -> used v sb b = used view sb b.
Proof. intros Hb. unfold used. rewrite zset_ne; [done|]. by apply Hc. Qed.

Lemma other_data b : data_block start lsize sb view b -> data_block start lsize sb v b.
Proof. intros (D1 & D2 & D3). split; [done|]. split; [|done]. rewrite other_used by lia. done. Qed.

Lemma other_fs_ok : fs_ok v.
Proof.
  destruct Hfs as [[B1 B2 B3 B4] Hf]. destruct Hc as (_ & _ & _ & Hb).
  split; [split; auto|]; intros y Hy; rewrite ?other_used by done; auto. rewrite zset_ne; auto.
Qed.

Lemma other_owns b : owns v addrs b <-> owns view addrs b.
Proof. unfold owns. by setoid_rewrite other_fblock. Qed.

Lemma other_file_ok : file_ok v addrs.
Proof.
  split; [apply (fo_len _ _ _ _ _ Hfo)|..].
  - intros b Hb%other_owns. destruct (fo_data _ _ _ _ _ Hfo b Hb) as [Hd Hl]. rewrite other_owned by done. split; [by apply other_data|done].
  - intros j j' Hj Hj'. rewrite !other_fblock. by apply (fo_inj _ _ _ _ _ Hfo).
  - intros j Hj. rewrite other_fblock. by apply (fo_ind _ _ _ _ _ Hfo).
Qed.

Lemma other_fbyte y : 0 <= y / BSIZE < MAXFILE -> fblock view addrs (y / BSIZE) <> 0 -> fbyte v addrs y = fbyte view addrs y.
Proof. intros Hy H0. unfold fbyte. rewrite other_fblock, other_owned; [done|]. split; [done|]. left. by exists (y / BSIZE). Qed.

Lemma other_fbytes n : mapped_to v addrs 0 (Z.of_nat n) -> Z.of_nat n <= MAXFILE * BSIZE ->
  fbytes v addrs 0 n = fbytes view addrs 0 n.
Proof.
  intros Hm Hn. change (MAXFILE * BSIZE) with 274432 in Hn. apply list_fmap_ext. intros j y [-> Hj]%lookup_seq. apply other_fbyte.
  - change BSIZE with 1024. change MAXFILE with 268. Z.to_euclidean_division_equations. lia.
  - destruct (Hm (0 + Z.of_nat (0 + j))) as [H0 _]; [lia|]. by rewrite other_fblock in H0.
Qed.
End Other.

Lemma iupdate_ok s d bs view ip i : tx [] s d bs view -> k_sb s = sb -> inode_is s ip i ->
  0 <= IBLOCK (i_inum i) sb < 2 ^ 31 -> ~ (start <= IBLOCK (i_inum i) sb < start + lsize) -> Z.of_nat (length bs) < lsize - 1 ->
  exists s', iupdate ip (mkWorld s e) = Ok tt (mkWorld s' e) /\
    tx [] s' d (absorb bs (IBLOCK (i_inum i) sb))
      (zset view (IBLOCK (i_inum i) sb) (dip_write (dip_off (i_inum i)) (dinode_of i) (view (IBLOCK (i_inum i) sb)))) /\
    tframe s s' /\ k_writes s' = k_writes s.
Proof.
  intros X Esb Hi Hb Hlog Hl. pose proof (tx_room _ _ _ _ _ _ _ _ _ _ X) as R.
  destruct (tx_bread _ _ _ _ _ e [] s d bs view (IBLOCK (i_inum i) sb) X) as (bp & s1 & E1 & X1 & F1 & W1); [set_solver|cbn; lia|].
  destruct (tx_update _ _ _ _ _ e [] s1 d bs view _ bp (dip_write (dip_off (i_inum i)) (dinode_of i)) X1 Hb Hlog Hl)
    as (s2 & E2 & X2 & F2 & W2).
  exists s2. split_and!; [|exact X2|by eapply tframe_trans|congruence].
  unfold iupdate. rewrite bind_gets. cbn [w_k]. rewrite Esb. rewrite (bind_ok _ _ _ _ _ (get_inode_ok _ _ _ e (proj1 Hi))), (proj2 Hi).
  run E1.
  rewrite (bind_ok _ _ _ _ _ (get_inode_ok _ _ _ e (proj1 (inode_is_frame dev _ _ _ _ Hi F1)))).
  specialize (E2 unit ret). unfold bind in *. destruct (mod_data bp _ _) as [[] w| | | |]; try done.
  destruct (log_write bp w) as [? w2| | | |]; try done. destruct (brelse bp w2) as [[] w3| | | |]; done.
Qed.

(** The bytes of the file of the inode [i]. *)
Definition contents (view : Z -> block) (i : inode) : list Z := fbytes view (i_addrs i) 0 (Z.to_nat (i_size i)).

(** [data] written over the list [c] at [off]. *)
Definition overlay (c : list Z) (off : nat) (data : list Z) : list Z := take off c ++ data ++ drop (off + length data) c.

Lemma lookup_fbytes view addrs off n j : (j < n)%nat -> fbytes view addrs off n !! j = Some (fbyte view addrs (off + Z.of_nat j)).
Proof. intros H. unfold fbytes. by rewrite list_lookup_fmap, lookup_seq_lt. Qed.

Lemma fbytes_slice view addrs size off n : 0 <= off -> off + Z.of_nat n <= Z.of_nat size ->
  fbytes view addrs off n = take n (drop (Z.to_nat off) (fbytes view addrs 0 size)).
Proof.
  intros Ho Hn. apply (list_eq_same_length _ _ n); [|by rewrite length_fbytes|].
  { rewrite length_take, length_drop, length_fbytes. lia. }
  intros j x y Hj Hx Hy. rewrite lookup_fbytes in Hx by done. apply lookup_take_Some in Hy as [Hy _].
  rewrite lookup_drop, lookup_fbytes in Hy by lia. replace (0 + Z.of_nat (Z.to_nat off + j)) with (off + Z.of_nat j) in Hy by lia. congruence.
Qed.

Lemma overlay_fbytes view addrs view' addrs' size off data : 0 <= off <= Z.of_nat size ->
  wrote view addrs view' addrs' off data -> mapped_to view addrs 0 (Z.of_nat size) -> Z.of_nat size <= MAXFILE * BSIZE ->
  fbytes view' addrs' 0 (Z.to_nat (Z.max (Z.of_nat size) (off + Z.of_nat (length data)))) =
  overlay (fbytes view addrs 0 size) (Z.to_nat off) data.
Proof.
  intros Ho W Hmap Hsz. unfold overlay. set (c := fbytes view addrs 0 size).
  assert (length c = size) as Hc by apply length_fbytes.
  apply (list_eq_same_length _ _ (Z.to_nat (Z.max (Z.of_nat size) (off + Z.of_nat (length data))))); [|by rewrite length_fbytes|].
  { rewrite !length_app, length_take, length_drop. lia. }
  intros j x y Hj Hx Hy. rewrite lookup_fbytes in Hx by done. injection Hx as <-. rewrite Z.add_0_l.
  assert (forall y, c !! j = Some y -> ~ (off <= Z.of_nat j < off + Z.of_nat (length data)) -> fbyte view' addrs' (Z.of_nat j) = y) as Hout.
  { intros z Hz Hn. pose proof (lookup_lt_Some _ _ _ Hz) as Hlt. unfold c in Hz. rewrite lookup_fbytes in Hz by lia. injection Hz as <-.
    rewrite Z.add_0_l. apply (wr_out _ _ _ _ _ _ _ _ _ W); [lia|apply Hmap; lia|done]. }
  apply lookup_app_Some in Hy as [Hy|[Hj1 Hy]].
  - apply lookup_take_Some in Hy as [Hy Hlt]. apply Hout; [done|lia].
  - rewrite length_take in Hj1, Hy. apply lookup_app_Some in Hy as [Hy|[Hj2 Hy]].
    + rewrite <- (wr_in _ _ _ _ _ _ _ _ _ W _ _ Hy). f_equal. lia.
    + rewrite lookup_drop in Hy. apply Hout; [|lia]. rewrite <- Hy. f_equal. lia.
Qed.

(** The end of writei(): the size, and the inode on the disk. *)
Lemma writei_finish (A : Type) (k : K A) s d bs view ip i en :
  tx [] s d bs view -> k_sb s = sb -> inode_is s ip i -> file_ok view (i_addrs i) -> fs_ok view ->
  data_block start lsize sb view (IBLOCK (i_inum i) sb) -> ~ owns view (i_addrs i) (IBLOCK (i_inum i) sb) ->
  Z.of_nat (length bs) < lsize - 1 ->
  let i' := i <| i_size := Z.max (i_size i) en |> in
  let ib := IBLOCK (i_inum i) sb in
  exists s', (let* i := get_inode ip in
      (when i_size i <? en do mod_inode ip (fun i => i <| i_size := en |>)) ;; iupdate ip ;; k)%M (mkWorld s e) = k (mkWorld s' e) /\
    tx [] s' d (absorb bs ib) (zset view ib (dip_write (dip_off (i_inum i)) (dinode_of i') (view ib))) /\
    inode_is s' ip i' /\ fframe ip s s' /\ k_writes s' = k_writes s.
Proof.
  intros X Esb Hi Hfo Hfs Hib Hno Hl i' ib.
  assert (exists s1, (when i_size i <? en do mod_inode ip (fun i => i <| i_size := en |>)) (mkWorld s e) = Ok tt (mkWorld s1 e) /\
    tx [] s1 d bs view /\ inode_is s1 ip i' /\ fframe ip s s1 /\ k_writes s1 = k_writes s) as (s1 & E1 & X1 & Hi1 & F1 & W1).
  { destruct (Z.ltb_spec (i_size i) en) as [Hlt|Hge].
    - eexists. split; [by eapply mod_inode_ok, Hi|]. split; [by apply tx_inodes|]. split; [|split; [apply fframe_inode|done]].
      assert (i' = i <| i_size := en |>) as -> by (unfold i'; f_equal; by rewrite Z.max_r by lia).
      apply (inode_set dev s ip i _ Hi). apply Hi.
    - exists s. split; [done|]. split; [done|]. split; [|split; [apply fframe_refl|done]].
      assert (i' = i) as -> by (unfold i'; rewrite Z.max_l by lia; by destruct i). done. }
  destruct Hib as (D1 & D2 & D3 & D4). pose proof (bm_size _ _ _ _ (fs_bitmap _ _ _ _ Hfs)) as Hsz.
  destruct (iupdate_ok s1 d bs view ip i' X1) as (s2 & E2 & X2 & F2 & W2);
    [by rewrite (fframe_sb _ _ _ F1)|done|change (IBLOCK (i_inum i') sb) with ib; fold ib in D1; lia|exact D3|done|].
  exists s2. split_and!; [|exact X2|by eapply inode_is_frame|by eapply fframe_trans, fframe_tframe|congruence].
  rewrite (bind_ok _ _ _ _ _ (get_inode_ok _ _ _ e (proj1 Hi))), (bind_ok _ _ _ _ _ E1). by run E2.
Qed.

Lemma mapped_file_ok view addrs en : file_ok view addrs -> en <= MAXFILE * BSIZE ->
  (forall x, 0 <= x < en -> fblock view addrs (x / BSIZE) <> 0) -> mapped_to view addrs 0 en.
Proof.
  intros Hfo Hen H x Hx. specialize (H x Hx). split; [done|]. apply (fo_data _ _ _ _ _ Hfo). split; [done|]. left.
  exists (x / BSIZE). split; [|done]. change (MAXFILE * BSIZE) with 274432 in Hen. change BSIZE with 1024. change MAXFILE with 268.
  Z.to_euclidean_division_equations. lia.
Qed.

(** The inode [ip] is that of a file, its blocks are in order, and its block
    of the inode area is a block of its own. *)
Record file (s : kernel) (view : Z -> block) (ip : nat) (i : inode) : Prop := {
  fi_fs : fs_ok view;
  fi_at : file_at dev start lsize sb s view ip i;
  fi_iblock : data_block start lsize sb view (IBLOCK (i_inum i) sb);
  fi_own : ~ owns view (i_addrs i) (IBLOCK (i_inum i) sb);
}.

Lemma writei_ok s d bs view ip i src data off q :
  tx [] s d bs view -> k_sb s = sb -> file s view ip i -> supplies ip s src data ->
  0 <= off <= i_size i -> off + Z.of_nat (length data) <= MAXFILE * BSIZE ->
  off mod BSIZE + Z.of_nat (length data) <= BSIZE * Z.of_nat q -> room sb view (2 * q) ->
  Z.of_nat (length bs) + 6 * Z.of_nat q + 1 < lsize ->
  exists s' bs' view' i', writei ip src off (Z.of_nat (length data)) (mkWorld s e) = Ok (Z.of_nat (length data)) (mkWorld s' e) /\
    tx [] s' d bs' view' /\ file s' view' ip i' /\
    contents view' i' = overlay (contents view i) (Z.to_nat off) data /\
    view' (IBLOCK (i_inum i) sb) = dip_write (dip_off (i_inum i)) (dinode_of i') (view (IBLOCK (i_inum i) sb)) /\
    i' = i <| i_addrs := i_addrs i' |> <| i_size := i_size i' |> /\
    (forall b, data_block start lsize sb view b -> ~ owns view (i_addrs i) b -> b <> IBLOCK (i_inum i) sb -> view' b = view b) /\
    fframe ip s s' /\ k_writes s' = k_writes s.
Proof.
  intros X Esb [Hfs (Hi & Hfo & Hsz & Hmap) Hib Hno] Hsrc Ho Hmax Hq Hroom Hl. set (n := Z.of_nat (length data)) in *.
  change (MAXFILE * BSIZE) with 274432 in Hmax, Hsz.
  destruct (writei_loop_ok ip d n q (S (S (Z.to_nat (n / BSIZE + 1)))) s i src data bs view off 0)
    as (s1 & bs1 & view1 & addrs1 & E1 & X1 & Hi1 & W1 & L1 & F1 & Wr1); auto; try lia.
  { change (MAXFILE * BSIZE) with 274432. lia. }
  { rewrite Z.sub_0_r. apply rounds_init; lia. }
  { rewrite Z.sub_0_r. split; [lia|]. intros _. lia. }
  rewrite Z.sub_0_r in E1. destruct (wr_frame _ _ _ _ _ _ _ _ _ W1 _ Hib Hno) as (Vib & Hib1 & Hno1).
  destruct (writei_finish _ (ret (i32 n)) s1 d bs1 view1 ip (i <| i_addrs := addrs1 |>) (off + n) X1)
    as (s2 & E2 & X2 & Hi2 & F2 & Wr2); [by rewrite (fframe_sb _ _ _ F1)|done|apply W1|apply W1|done|done|lia|].
  cbn [i_inum i_size i_addrs upd upd_i_addrs upd_i_size] in *.
  set (ib := IBLOCK (i_inum i) sb) in *. set (i' := i <| i_addrs := addrs1 |> <| i_size := Z.max (i_size i) (off + n) |>) in *.
  set (x2 := dip_write _ _ _) in X2.
  assert (mapped_to (zset view1 ib x2) addrs1 0 (i_size i')) as Hmap2.
  { apply mapped_file_ok; [apply other_file_ok; solve [apply W1|done]|cbn; change (MAXFILE * BSIZE) with 274432; lia|].
    intros x Hx. rewrite other_fblock by done. cbn in Hx. destruct (Z.lt_ge_cases x (i_size i)) as [Hlt|Hge].
    - apply (wr_map _ _ _ _ _ _ _ _ _ W1); [|exact (proj1 (Hmap x ltac:(lia)))]. change BSIZE with 1024. change MAXFILE with 268.
      Z.to_euclidean_division_equations. lia.
    - apply (wr_there _ _ _ _ _ _ _ _ _ W1). lia. }
  exists s2, (absorb bs1 ib), (zset view1 ib x2), i'.
  split_and!; [|exact X2| | |by rewrite zset_eq; unfold x2; rewrite Vib|by destruct i| |by eapply fframe_trans|congruence].
  - unfold writei. rewrite (bind_ok _ _ _ _ _ (get_inode_ok _ _ _ e (proj1 Hi))). rewrite u32_small by lia.
    replace ((i_size i <? off) || (off + n <? off)) with false by lia.
    replace (MAXFILE * BSIZE <? off + n) with false by (change (MAXFILE * BSIZE) with 274432; lia).
    run E1. cbn [fst snd]. rewrite E2. unfold ret. by rewrite i32_small by lia.
  - split; [apply other_fs_ok; solve [apply W1|done]| |by apply other_data|by rewrite other_owns]. split; [done|].
    split; [apply other_file_ok; solve [apply W1|done]|]. split; [|done]. cbn. change (MAXFILE * BSIZE) with 274432. lia.
  - unfold contents. cbn [i_addrs i_size upd upd_i_addrs upd_i_size].
    rewrite <- (overlay_fbytes view (i_addrs i) view1 addrs1 (Z.to_nat (i_size i)) off data);
      rewrite ?Z2Nat.id by lia; auto; [|change (MAXFILE * BSIZE) with 274432; lia].
    apply other_fbytes; [done..| |change (MAXFILE * BSIZE) with 274432; lia]. rewrite Z2Nat.id by lia. exact Hmap2.
  - intros b Hb Hob Hne. rewrite zset_ne by done. by apply (wr_frame _ _ _ _ _ _ _ _ _ W1).
Qed.
End Writei.
