(* ===== verification/FsProps.v ===== *)
(** Files as lists of bytes: readi() is a part of the list, and writei()
    overlays it. *)

From S2P Require Import Prelude Layout Kernel Sched Kalloc Vm PageTable VmSpec Bio Log Fs Ring Cache Crash LogProof Transaction CacheInit FsAlloc FsExample FsFile FsWrite FsContent.

(** ** Where the bytes come from *)

Lemma fframe_mem ip s s' : fframe ip s s' -> k_mem s' = k_mem s.
Proof. intros [-> _]. done. Qed.

Lemma take_drop_fmap_seq {A} (f : nat -> A) n k m : (k + m <= n)%nat ->
  take m (drop k (f <$> seq 0 n)) = (fun i => f (k + i)%nat) <$> seq 0 m.
Proof.
  intros H. apply (list_eq_same_length _ _ m); [by rewrite length_fmap, length_seq| |].
  { rewrite length_take, length_drop, length_fmap, length_seq. lia. }
  intros i x y Hi Hx Hy. apply lookup_take_Some in Hx as [Hx _]. rewrite lookup_drop in Hx.
  rewrite list_lookup_fmap, lookup_seq_lt in Hx, Hy by lia. cbn in *. congruence.
Qed.

Lemma supplies_kernel ip s e pa n : 0 <= pa -> pa + Z.of_nat n < 2 ^ 64 ->
  supplies e ip s (SKern pa) (mread (k_mem s) pa n).
Proof.
  intros H0 Hn. split; [cbn; rewrite u64_small by lia; f_equal; lia|].
  intros s' F k m Hk. rewrite length_mread in Hk. cbn [either_copyin source_add]. rewrite bind_gets. cbn [w_k].
  rewrite (fframe_mem _ _ _ F), u64_small, Nat2Z.id by lia. unfold ret, mread. do 2 f_equal.
  rewrite take_drop_fmap_seq by lia. apply list_fmap_ext. intros ? i ?. cbn. f_equal. lia.
Qed.

Lemma uspace_frame ip s s' l root : fframe ip s s' -> uspace s l root -> uspace s' l root.
Proof.
  intros [-> _] [[[K1 K2 K3 K4] W Us L] Hl Hi]. split; [split; [split|..]|..]; auto.
Qed.

Lemma fframe_table ip s s' me p : fframe ip s s' -> k_procs s !! me = Some p ->
  exists p', k_procs s' !! me = Some p' /\ p_pagetable p' = p_pagetable p.
Proof.
  intros (_ & P & _) H. unfold ptables in P. apply (f_equal (fun l => l !! me)) in P. rewrite !list_lookup_fmap, H in P.
  destruct (k_procs s' !! me) as [p'|]; [|done]. exists p'. split; [done|]. cbn in P. congruence.
Qed.

(** A buffer of the calling process, all of whose pages are mapped. *)
Lemma supplies_user ip s e me p l va n : k_cur s = Some me -> k_procs s !! me = Some p ->
  uspace s l (p_pagetable p) -> 0 <= va -> va + Z.of_nat n < 2 ^ 64 ->
  (forall y, in_range va n y = true -> umapped (k_mem s) (p_pagetable p) y) ->
  supplies e ip s (SUser va) (uread (k_mem s) (p_pagetable p) va n).
Proof.
  intros Hc Hp U H0 Hn Hm. split; [cbn; rewrite u64_small by lia; f_equal; lia|]. intros s' F k m Hk.
  unfold uread in Hk. rewrite length_fmap, length_seq in Hk. destruct (fframe_table _ _ _ _ _ F Hp) as (p' & Hp' & Ept).
  assert (k_cur s' = Some me) as Hc' by (destruct F as [-> _]; done).
  cbn [either_copyin source_add]. rewrite u64_small by lia. unfold mypagetable.
  rewrite bind_assoc, (bind_ok _ _ _ _ _ (curproc_ok me (mkWorld s' e) Hc')), bind_assoc, (bind_ok _ _ _ _ _ (get_proc_ok me p' (mkWorld s' e) Hp')), bind_ret.
  rewrite Ept. unfold copyin. rewrite Nat2Z.id.
  destruct (copyin_loop_ok (p_pagetable p) l s' e m (va + Z.of_nat k) m []) as [[_ ->]|[(y & Hy & Hn') _]]; auto; [lia|by eapply uspace_frame|..].
  - cbn [app]. rewrite (fframe_mem _ _ _ F). do 2 f_equal. unfold uread. rewrite take_drop_fmap_seq by lia.
    apply list_fmap_ext. intros ? i ?. cbn. f_equal. lia.
  - destruct Hn'. rewrite (fframe_mem _ _ _ F). apply Hm. unfold in_range in *. lia.
Qed.

(** ** Where the bytes go *)

(** [dst] takes [n] bytes: the start of a local variable, an address of the
    kernel, or a buffer of the calling process all of whose pages are mapped. *)
Definition ready (s : kernel) (dst : dest) (n : nat) : Prop :=
  match dst with
  | DLocal pos => pos = 0
  | DKern pa => 0 <= pa /\ pa + Z.of_nat n < 2 ^ 64
  | DUser va => exists me p l, k_cur s = Some me /\ k_procs s !! me = Some p /\ uspace s l (p_pagetable p) /\
      0 <= va /\ va + Z.of_nat n < 2 ^ 64 /\ forall y, in_range va n y = true -> umapped (k_mem s) (p_pagetable p) y
  end.

(** The memory [m] has [data] at [dst], and is otherwise as it was in [s]. *)
Definition lands (s : kernel) (dst : dest) (data : list Z) (m : mem) : Prop :=
  match dst with
  | DLocal _ => m = k_mem s
  | DKern pa => forall x, m x = mwrite (k_mem s) pa data x
  | DUser va => forall me p, k_cur s = Some me -> k_procs s !! me = Some p ->
      exists l, copied (p_pagetable p) va data l s (s <| k_mem := m |>) 0
  end.

Lemma takes_kernel e s pa n : ready s (DKern pa) n -> takes e s (DKern pa) n (lands s (DKern pa)).
Proof.
  intros [H0 Hn]. split_and!; [cbn; lia|intros x; symmetry; apply mwrite_out; cbn; lia|].
  intros s1 d1 d2 F H Hl. eexists. split; [cbn; rewrite u64_small by lia; reflexivity|].
  intros x. unfold mwrite. rewrite H, length_app. unfold mwrite.
  destruct (Z.leb_spec pa x), (Z.leb_spec (pa + Z.of_nat (length d1)) x), (Z.ltb_spec x (pa + Z.of_nat (length d1))),
    (Z.ltb_spec x (pa + Z.of_nat (length d1) + Z.of_nat (length d2))),
    (Z.ltb_spec x (pa + Z.of_nat (length d1 + length d2))); cbn [andb]; try lia; try done.
  - rewrite app_nth2 by lia. f_equal. lia.
  - by rewrite app_nth1 by lia.
Qed.

Lemma takes_user e s va n : ready s (DUser va) n -> takes e s (DUser va) n (lands s (DUser va)).
Proof.
  intros (me & p & l0 & Hc & Hp & U & H0 & Hn & Hm). split_and!; [cbn; lia| |].
  { intros me' p' Hc' Hp'. rewrite Hc in Hc'. injection Hc' as <-. rewrite Hp in Hp'. injection Hp' as <-. exists l0.
    replace (s <| k_mem := k_mem s |>) with s by (by destruct s). by apply copied_nil. }
  intros s1 d1 d2 F H Hl. destruct (H me p Hc Hp) as (l & C). pose proof F as [E P].
  assert (k_cur s1 = Some me) as Hc1 by (rewrite E; done).
  assert (exists p1, k_procs s1 !! me = Some p1 /\ p_pagetable p1 = p_pagetable p) as (p1 & Hp1 & Ept).
  { apply (fframe_table 0 (s <| k_mem := k_mem s1 |>)); [by apply fframe_tframe|done]. }
  pose proof (cp_space _ _ _ _ _ _ _ C) as U1.
  assert (LkKmem ∉ k_held s) as Hk by apply (us_vm _ _ _ U).
  assert (uspace s1 l (p_pagetable p)) as U2 by (eapply uspace_ext; [exact U1|rewrite E; done..]).
  destruct (copyout_loop_ok (p_pagetable p) l e (length d2) (va + Z.of_nat (length d1)) d2 s1) as (r & s2 & E2 & C2); [done|lia|done|].
  pose proof (cp_state _ _ _ _ _ _ _ C2) as E2s.
  assert (r = 0) as ->.
  { destruct (cp_ret _ _ _ _ _ _ _ C2) as [[-> _]|[_ (y & Hy & Hny)]]; [done|]. destruct Hny.
    apply (umapped_pte (k_mem s)); [exact (cp_pte _ _ _ _ _ _ _ C)|]. apply Hm. apply in_range_spec in Hy. apply in_range_spec. lia. }
  exists (k_mem s2). split.
  - cbn [either_copyout dest_add]. rewrite u64_small by lia. unfold mypagetable.
    rewrite bind_assoc, (bind_ok _ _ _ _ _ (curproc_ok me (mkWorld s1 e) Hc1)), bind_assoc, (bind_ok _ _ _ _ _ (get_proc_ok me p1 (mkWorld s1 e) Hp1)), bind_ret.
    rewrite Ept. unfold copyout. rewrite E2, <- E2s. reflexivity.
  - intros me' p' Hc' Hp'. rewrite Hc in Hc'. injection Hc' as <-. rewrite Hp in Hp'. injection Hp' as <-. exists l.
    eapply copied_app; [exact C|]. apply (copied_ext _ _ _ _ _ _ (s <| k_mem := k_mem s1 |>)) in C2; [exact C2|done|].
    eapply uspace_ext; [exact (cp_space _ _ _ _ _ _ _ C2)|reflexivity|..|exact Hk].
    + rewrite E2s, E. reflexivity.
    + rewrite E2s, E. reflexivity.
Qed.

Lemma ready_takes e s dst n : ready s dst n -> takes e s dst n (lands s dst).
Proof. destruct dst; [apply takes_user|apply takes_kernel|intros ->; apply takes_local]. Qed.

(** ** The properties *)

(** C5: readi() copies the bytes of the file to where they are to go: within a
    transaction, for a file whose blocks are mapped up to its size and a
    destination that can take them (a buffer of the calling process with all its
    pages mapped, kernel memory, or a local variable), readi() at [off], with
    [n] below 2^31 and [off] + [n] below 2^32, copies the next [n] bytes of the
    contents, fewer at the end of the file and none past it, to consecutive
    addresses and returns their number; no other byte of memory, no page table
    entry and nothing of the file system changes. *)
Theorem readi_spec me pid dev start lsize e sb d bs view s ip i dst off n
  (X : tx_st me pid dev start lsize s d bs view) (Hf : file_at dev start lsize sb s view ip i)
  (Ho : 0 <= off) (Hn : 0 <= n < 2 ^ 31) (Hon : off + n < 2 ^ 32) :
  let data := take (Z.to_nat n) (drop (Z.to_nat off) (contents view i)) in
  ready s dst (length data) ->
  exists s', readi ip dst off n (mkWorld s e) = Ok (Z.of_nat (length data), local_bytes dst data) (mkWorld s' e) /\
    lands s dst data (k_mem s') /\ mframe s s' /\
    tx_st me pid dev start lsize s' d bs view /\ file_at dev start lsize sb s' view ip i /\ k_writes s' = k_writes s.
Proof.
  intros data Hr. pose proof Hf as (Hi & Hfo & Hsz & Hmap). set (len := Z.max 0 (Z.min n (i_size i - off))).
  pose proof (length_fbytes view (i_addrs i) 0 (Z.to_nat (i_size i))) as Hl. fold (contents view i) in Hl.
  assert (length data = Z.to_nat len) as Hlen by (unfold data, len; rewrite length_take, length_drop; lia).
  assert (fbytes view (i_addrs i) off (Z.to_nat len) = data) as Ed.
  { destruct (Z.lt_ge_cases (i_size i) off).
    - unfold data, len. rewrite drop_ge, take_nil by lia. by replace (Z.to_nat _) with 0%nat by lia.
    - rewrite (fbytes_slice view (i_addrs i) (Z.to_nat (i_size i))) by (unfold len; lia). fold (contents view i).
      unfold data. destruct (Z.le_ge_cases n (i_size i - off)); [f_equal; unfold len; lia|].
      rewrite !take_ge; [done|rewrite length_drop; unfold len; lia..]. }
  destruct (readi_to me pid dev start lsize e sb s d bs view ip i dst (lands s dst) off n X Hf Ho Hn Hon) as (s' & E & X' & F & HL & W).
  { rewrite Hlen in Hr. by apply ready_takes. }
  fold len in E, HL. rewrite Ed in E, HL. exists s'. split_and!; try done.
  - rewrite E, Hlen, Z2Nat.id by lia. done.
  - split; [|done]. destruct Hi as [Hi Hd]. split; [|done]. by rewrite (tframe_inodes _ _ F).
Qed.

(** C4: writei() overlays the contents of the file: inside a transaction with
    room in the log and free blocks, writing the bytes [data] that the source
    supplies at an offset up to the end of the file makes the contents those
    with [data] in their place, longer if need be; it allocates what is missing,
    puts the new inode in its block, keeps the file and the bitmap in order and
    changes no other block in use. *)
Theorem writei_spec me pid dev start lsize e sb d bs view s ip i src data off q
  (Hdev : 0 <= dev < 2 ^ 31) (X : tx_st me pid dev start lsize s d bs view) (Esb : k_sb s = sb)
  (Hf : file dev start lsize sb s view ip i) (Hsrc : supplies e ip s src data)
  (Ho : 0 <= off <= i_size i) (Hmax : off + Z.of_nat (length data) <= MAXFILE * BSIZE)
  (Hq : off mod BSIZE + Z.of_nat (length data) <= BSIZE * Z.of_nat q) (Hroom : room sb view (2 * q))
  (Hl : Z.of_nat (length bs) + 6 * Z.of_nat q + 1 < lsize) :
  exists s' bs' view' i',
    writei ip src off (Z.of_nat (length data)) (mkWorld s e) = Ok (Z.of_nat (length data)) (mkWorld s' e) /\
    tx_st me pid dev start lsize s' d bs' view' /\ file dev start lsize sb s' view' ip i' /\
    contents view' i' = overlay (contents view i) (Z.to_nat off) data /\
    view' (IBLOCK (i_inum i) sb) = dip_write (dip_off (i_inum i)) (dinode_of i') (view (IBLOCK (i_inum i) sb)) /\
    i' = i <| i_addrs := i_addrs i' |> <| i_size := i_size i' |> /\
    (forall b, data_block start lsize sb view b -> ~ owns view (i_addrs i) b -> b <> IBLOCK (i_inum i) sb -> view' b = view b) /\
    k_writes s' = k_writes s.
Proof.
  destruct (writei_ok me pid dev start lsize e sb Hdev s d bs view ip i src data off q X Esb Hf Hsrc Ho Hmax Hq Hroom Hl)
    as (s' & bs' & view' & i' & E & X' & Hf' & Hc & Hv & Hi & Hb & _ & W).
  exists s', bs', view', i'. done.
Qed.

(** ** An empty file on the example disk *)

Definition file0 : inode := mkInode 1 1 1 (mkSleeplock false 0) true T_FILE 0 0 1 0 (replicate 13 0).

Lemma bblock0 b : 0 <= b < 1000 -> BBLOCK b sb0 = 45.
Proof. intros Hb. unfold BBLOCK. change BPB with 8192. rewrite Z.div_small by lia. reflexivity. Qed.

Lemma fs0 : fs_ok 2 30 sb0 disk0.
Proof.
  split; [apply bitmap0|]. intros b Hb. cbn in Hb. rewrite used0 by done. intros H%Z.ltb_ge. split; [lia|].
  intros x Hx. cbn in Hx. rewrite bblock0 by done. lia.
Qed.

Lemma fblock0 k : fblock disk0 (i_addrs file0) k = 0.
Proof.
  unfold fblock. assert (forall n, nth n (i_addrs file0) 0 = 0) as ->; [|by destruct (k <? NDIRECT)].
  intros n. destruct (decide (n < 13)%nat); [|by rewrite nth_overflow by (cbn; lia)]. do 13 (destruct n as [|n]; [done|]). lia.
Qed.

Lemma owns0 b : ~ owns disk0 (i_addrs file0) b.
Proof. intros [H0 [(k & _ & E)|E]]; destruct H0; [by rewrite fblock0 in E|symmetry; exact E]. Qed.

Lemma file_ok0 s : inode_is 1 s 0 file0 -> file 1 2 30 sb0 s disk0 0 file0.
Proof.
  intros Hi. split; [apply fs0| | |apply owns0].
  - split; [done|]. split; [split; [done|..]|split; [cbn; change (MAXFILE * BSIZE) with 274432; lia|]].
    + intros b Hb. by destruct (owns0 b).
    + intros k k' _ _ _ H. by rewrite fblock0 in H.
    + intros k _ H. by rewrite fblock0 in H.
    + intros x Hx. cbn in Hx. lia.
  - change (IBLOCK (i_inum file0) sb0) with 32. split; [cbn; lia|]. split; [by rewrite used0 by lia|]. split; [lia|].
    intros x Hx. cbn in Hx. rewrite bblock0 by done. lia.
Qed.

Lemma room0 : room sb0 disk0 2.
Proof.
  exists [48; 49]. split; [by apply (bool_decide_unpack _)|]. split; [done|].
  intros b Hb. assert (b = 48 \/ b = 49) as H by set_solver. split; [cbn; lia|]. rewrite used0 by lia. lia.
Qed.

(** A transaction with the empty file in the inode table. *)
Lemma file0_in_tx : exists s, tx_st 0 1 1 2 30 s disk0 [] disk0 /\ k_sb s = sb0 /\ file 1 2 30 sb0 s disk0 0 file0.
Proof.
  destruct formatted_in_tx as (s & X & Hsb). exists (s <| k_inodes ::= fun _ => [file0] |>).
  split; [by apply tx_inodes|]. split; [done|]. apply file_ok0. done.
Qed.

(** An instance of [writei_spec]. *)
Lemma writei_spec_witness : exists s s' view' i',
  writei 0 (SLocal [104; 105]) 0 2 (mkWorld s []) = Ok 2 (mkWorld s' []) /\ contents view' i' = [104; 105].
Proof.
  destruct file0_in_tx as (s & X & Hsb & Hf).
  destruct (writei_spec 0 1 1 2 30 [] sb0 disk0 [] disk0 s 0 file0 (SLocal [104; 105]) [104; 105] 0 1)
    as (s' & bs' & view' & i' & E & _ & _ & Hc & _).
  - lia.
  - exact X.
  - exact Hsb.
  - exact Hf.
  - apply supplies_local.
  - cbn. lia.
  - discriminate.
  - discriminate.
  - exact room0.
  - reflexivity.
  - exists s, s', view', i'. split; [exact E|]. rewrite Hc. reflexivity.
Defined.

(** An instance of [readi_spec]: one byte of what was written, to an address of
    the kernel. *)
Lemma readi_spec_witness : exists s s', readi 0 (DKern 4096) 1 100 (mkWorld s []) = Ok (1, []) (mkWorld s' []) /\
  k_mem s' 4096 = 105 /\ k_mem s' 4097 = k_mem s 4097.
Proof.
  destruct file0_in_tx as (s0 & X0 & Hsb & Hf0).
  destruct (writei_ok 0 1 1 2 30 [] sb0 ltac:(lia) s0 disk0 [] disk0 0 file0 (SLocal [104; 105]) [104; 105] 0 1 X0 Hsb Hf0)
    as (s & bs & view & i & _ & X & Hf & Hc & _); [apply supplies_local|cbn; lia|discriminate|discriminate|exact room0|reflexivity|].
  destruct (readi_spec 0 1 1 2 30 [] sb0 disk0 bs view s 0 i (DKern 4096) 1 100) as (s' & E & L & _).
  - exact X.
  - apply Hf.
  - lia.
  - lia.
  - lia.
  - rewrite Hc. split; [discriminate|reflexivity].
  - exists s, s'. rewrite E, !L, Hc. split; [reflexivity|]. split; reflexivity.
Defined.
