(* ===== verification/DirSpec.v ===== *)
(** Path names and directory entries: what skipelem(), namecmp() and struct
    dirent mean for names as lists of bytes. *)

From S2P Require Import Prelude Layout Kernel Bio Log Fs Dir.

(** ** Paths *)

(** The pieces of a path between slashes, empty ones included. *)
Fixpoint split_path (path : list Z) : list (list Z) :=
  match path with
  | [] => [[]]
  | c :: p =>
      if c =? SLASH then [] :: split_path p
      else match split_path p with x :: l => (c :: x) :: l | [] => [[c]] end
  end.

Definition nonempty (x : list Z) : bool := negb (bool_decide (x = [])).

(** The names namex() sees, one skipelem() after the other. *)
Fixpoint path_names (fuel : nat) (path : list Z) : list (list Z) :=
  match skipelem path with
  | None => []
  | Some (name, rest) => match fuel with O => [] | S f => name :: path_names f rest end
  end.

Lemma split_skip path : List.filter nonempty (split_path (skip_slashes path)) = List.filter nonempty (split_path path).
Proof.
  induction path as [|c p IH]; [done|]. cbn [skip_slashes]. destruct (c =? SLASH) eqn:E; [|done].
  rewrite IH. cbn [split_path]. by rewrite E.
Qed.

Lemma split_elem path x rest :
  path_elem path = (x, rest) ->
  split_path path = match rest with [] => [x] | _ :: r => x :: split_path r end /\
  (length x + length rest = length path)%nat /\
  match rest with [] => True | c :: _ => c = SLASH end.
Proof.
  revert x rest; induction path as [|c p IH]; intros x rest; cbn [path_elem split_path].
  - intros [= <- <-]. done.
  - destruct (Z.eqb_spec c SLASH) as [->|Hc].
    + intros [= <- <-]. done.
    + destruct (path_elem p) as [x' r'] eqn:E. cbn. intros [= <- <-].
      destruct (IH x' r' eq_refl) as (IH1 & IH2 & IH3). rewrite IH1. split_and!; [by destruct r'|cbn; lia|done].
Qed.

Lemma skip_slashes_head path c p : skip_slashes path = c :: p -> c <> SLASH.
Proof.
  induction path as [|d q IH]; cbn; [done|]. destruct (Z.eqb_spec d SLASH); [auto|]. congruence.
Qed.

Lemma length_skip path : (length (skip_slashes path) <= length path)%nat.
Proof. induction path as [|c p IH]; cbn; [done|]. destruct (c =? SLASH); cbn; lia. Qed.

(** One step: the first name, and a rest that is shorter and has the others. *)
Lemma skipelem_spec path :
  match skipelem path with
  | None => List.filter nonempty (split_path path) = []
  | Some (name, rest) =>
      exists x, name = take 14 x /\ x <> [] /\
        List.filter nonempty (split_path path) = x :: List.filter nonempty (split_path rest) /\
        (length rest < length path)%nat
  end.
Proof.
  unfold skipelem. rewrite <- (split_skip path). pose proof (length_skip path) as HL.
  destruct (skip_slashes path) as [|c p] eqn:E; [done|]. pose proof (skip_slashes_head _ _ _ E) as Hc.
  destruct (path_elem (c :: p)) as [x r] eqn:Ex. destruct (split_elem _ _ _ Ex) as (S1 & S2 & S3).
  assert (x <> []) as Hx.
  { cbn in Ex. destruct (Z.eqb_spec c SLASH); [done|]. destruct (path_elem p). by simplify_eq/=. }
  assert (length x <> 0)%nat as Hx0 by (by destruct x).
  exists x. split_and!; [done|done| |].
  - rewrite S1. destruct r as [|d r]; cbn [List.filter].
    + unfold nonempty at 1. rewrite bool_decide_false by done. done.
    + subst d. unfold nonempty at 1. rewrite bool_decide_false by done. cbn [negb]. f_equal.
      cbn [snd skip_slashes]. rewrite Z.eqb_refl. by rewrite split_skip.
  - cbn [snd]. pose proof (length_skip r). lia.
Qed.

(** Walking a path with skipelem() visits exactly its non-empty components
    in order, each cut to DIRSIZ bytes, however many slashes separate, precede
    or follow them; the walk ends within as many steps as the path has
    bytes. *)
Theorem skipelem_components path :
  path_names (length path) path = (take 14) <$> List.filter nonempty (split_path path).
Proof.
  assert (forall n path, (length path <= n)%nat ->
    path_names n path = (take 14) <$> List.filter nonempty (split_path path)) as H; [|by apply H].
  induction n as [|n IH]; intros q Hq; pose proof (skipelem_spec q) as S.
  - destruct q; [done|cbn in Hq; lia].
  - cbn [path_names]. destruct (skipelem q) as [[name rest]|]; [|by rewrite S].
    destruct S as (x & -> & _ & -> & Hr). cbn. f_equal. apply IH. lia.
Qed.

(** ** Directory entries *)

Definition no_nul (x : list Z) : Prop := Forall (fun c => c <> 0) x.

Lemma lstrncpy_spec n : forall x, no_nul x -> lstrncpy n x = take n x ++ replicate (n - length x) 0.
Proof.
  induction n as [|n IH]; intros x Hx; [done|]. cbn [lstrncpy]. destruct x as [|c x]; [done|].
  apply Forall_cons in Hx as [Hc Hx]. destruct (Z.eqb_spec c 0); [done|]. cbn. f_equal. by apply IH.
Qed.

Lemma length_lstrncpy n : forall x, length (lstrncpy n x) = n.
Proof.
  induction n as [|n IH]; intros x; [done|]. cbn [lstrncpy]. destruct x as [|c x]; [apply length_replicate|].
  destruct (c =? 0); [apply length_replicate|]. cbn. by rewrite IH.
Qed.

Lemma lstrncmp_field n : forall x y, no_nul x -> no_nul y ->
  lstrncmp n x (lstrncpy n y) = 0 <-> take n x = take n y.
Proof.
  induction n as [|n IH]; intros x y Hx Hy; [done|]. cbn [lstrncmp lstrncpy].
  destruct x as [|a x], y as [|b y]; cbn [hd tail take].
  - done.
  - apply Forall_cons in Hy as [Hb Hy]. destruct (Z.eqb_spec b 0); [done|]. cbn. split; [lia|done].
  - apply Forall_cons in Hx as [Ha Hx]. cbn [hd]. destruct (Z.eqb_spec a 0); [done|]. cbn.
    destruct (Z.eqb_spec a 0); [done|]. split; [lia|done].
  - apply Forall_cons in Hx as [Ha Hx]. apply Forall_cons in Hy as [Hb Hy].
    destruct (Z.eqb_spec b 0); [done|]. cbn [hd tail]. destruct (Z.eqb_spec a 0); [done|]. cbn [negb andb].
    destruct (Z.eqb_spec a b) as [->|].
    + rewrite IH by done. split; [by intros ->|]. by intros [= ->].
    + split; [lia|]. by intros [= ? ?].
Qed.

(** An entry is 16 bytes and is read back as it was written. *)
Lemma dirent_bytes inum name : let de := mkDirent (u16 inum) (lstrncpy (Z.to_nat DIRSIZ) name) in
  length (de_bytes de) = Z.to_nat sizeof_dirent /\ de_of_bytes (de_bytes de) = de.
Proof.
  intros de. change (Z.to_nat DIRSIZ) with 14%nat in *.
  assert (length (lstrncpy 14 name) = 14%nat) as HL by apply length_lstrncpy.
  assert (length (le_bytes 2 (u16 inum)) = 2%nat) as HB by apply length_le_bytes. split.
  - unfold de_bytes, de. cbn [de_inum de_name]. rewrite length_app, HB, HL. done.
  - unfold de_of_bytes, de_bytes, de. cbn [de_inum de_name]. f_equal.
    + unfold rdn, rdb. rewrite drop_0, take_app_length' by done. rewrite le_val_le_bytes.
      apply Z.mod_small. change (2 ^ (8 * Z.of_nat 2)) with (2 ^ 16). apply u16_range.
    + unfold rdb. rewrite drop_app_length' by done. change (Z.to_nat DIRSIZ) with 14%nat. by rewrite take_ge by lia.
Qed.

(** A directory entry written by dirlink() is read back unchanged by
    dirlookup(), and the name in it compares equal to exactly the names that
    agree with it in the first DIRSIZ bytes. *)
Theorem dirent_roundtrip inum name other :
  no_nul name -> no_nul other ->
  let de := mkDirent (u16 inum) (lstrncpy (Z.to_nat DIRSIZ) name) in
  length (de_bytes de) = Z.to_nat sizeof_dirent /\ de_of_bytes (de_bytes de) = de /\
  (namecmp other (de_name (de_of_bytes (de_bytes de))) = 0 <-> take 14 other = take 14 name).
Proof.
  intros Hn Ho de. destruct (dirent_bytes inum name) as [Hl E]. fold de in Hl, E. split_and!; [done..|].
  rewrite E. unfold namecmp, de. cbn [de_name]. by apply lstrncmp_field.
Qed.

(** An instance of [dirent_roundtrip]. *)
Lemma dirent_roundtrip_witness :
  let de := mkDirent (u16 7) (lstrncpy (Z.to_nat DIRSIZ) [82; 77]) in
  de_of_bytes (de_bytes de) = de /\ namecmp [82; 77] (de_name (de_of_bytes (de_bytes de))) = 0.
Proof.
  intros de. destruct (dirent_roundtrip 7 [82; 77] [82; 77]) as (_ & R & C).
  - repeat (constructor; [discriminate|]). constructor.
  - repeat (constructor; [discriminate|]). constructor.
  - split; [exact R|]. apply C. reflexivity.
Defined.
