(* ===== verification/Inodes.v ===== *)
(** The table of inodes in memory: iget(), idup(), ilock(), iunlock() and iput()
    of kernel/fs.c.

    [inodes] relates the table to an abstract state: how many references there
    are to each inode number ([ref]), which inodes are locked ([lck]), and that
    what the table caches of an inode is what the disk blocks hold of it.  Each
    operation is then a change of that state. *)

From S2P Require Import Prelude Layout Kernel Sched Bio Log Fs Ring Cache Crash LogProof Transaction FsAlloc FsFile FsWrite.

(** ** One entry of the table *)

Lemma mod_inode_at ip f i s e : k_inodes s !! ip = Some i ->
  mod_inode ip f (mkWorld s e) = Ok tt (mkWorld (s <| k_inodes := <[ip := f i]> (k_inodes s) |>) e).
Proof.
  intros H. rewrite (mod_inode_ok _ _ _ _ _ H). do 2 f_equal. unfold upd, upd_k_inodes. f_equal. by apply list_alter_insert.
Qed.

Section Steps.
Context (me : nat) (pid : Z) (e : list (kernel -> kernel)).

Lemma iacquiresleep_free ip i s : proc_ctx s me pid -> k_inodes s !! ip = Some i -> sl_locked (i_lock i) = false ->
  acquiresleep (SlInode ip) (mkWorld s e) =
  Ok tt (mkWorld (s <| k_inodes := <[ip := i <| i_lock := mkSleeplock true pid |>]> (k_inodes s) |>) e).
Proof.
  intros [Hc Hh Hl Hm] Hi Hf. unfold acquiresleep. kstep. eapply run_bind.
  { unfold waiting. cbn [w_env length kmod acquiresleep_loop get_sl]. apply run_assoc.
    eapply run_bind; [by apply get_inode_ok|]. kstep. rewrite Hf. reflexivity. }
  cbn [mod_sl sl_spin]. eapply run_bind; [by apply mod_inode_at|]. eapply run_bind; [by eapply mypid_ok|].
  eapply run_bind; [eapply mod_inode_at; cbn; apply list_lookup_insert_eq, (lookup_lt_Some _ _ _ Hi)|].
  rewrite release_ok by held_side. f_equal. unfold kmod. f_equal. cbn -[filter].
  destruct i as [? ? ? [] ? ? ? ? ? ? ?]. kstate.
  - by apply filter_lock_cons; set_solver.
  - by rewrite list_insert_insert_eq.
Qed.

Lemma iholdingsleep_mine ip i s : proc_ctx s me pid -> k_inodes s !! ip = Some i -> i_lock i = mkSleeplock true pid ->
  holdingsleep (SlInode ip) (mkWorld s e) = Ok true (mkWorld s e).
Proof.
  intros [Hc Hh Hl Hm] Hi Hk. unfold holdingsleep. kstep. cbn [get_sl sl_spin].
  kstep. eapply run_bind; [by apply get_inode_ok|]. kstep. rewrite Hk. cbn [sl_locked].
  kstep. eapply run_bind; [by eapply mypid_ok|]. kstep. cbn [sl_pid]. rewrite Z.eqb_refl.
  kstep. unfold ret. f_equal. kstate. by apply filter_lock_cons; set_solver.
Qed.

Lemma ireleasesleep_ok ip i s : proc_ctx s me pid -> k_inodes s !! ip = Some i ->
  releasesleep (SlInode ip) (mkWorld s e) =
  Ok tt (mkWorld (s <| k_inodes := <[ip := i <| i_lock := mkSleeplock false 0 |>]> (k_inodes s) |>
    <| k_procs ::= woken (ChInodeLock ip) me |>) e).
Proof.
  intros [Hc Hh Hl Hm] Hi. unfold releasesleep. kstep. cbn [sl_spin sl_chan mod_sl].
  eapply run_bind; [by apply mod_inode_at|].
  eapply run_bind; [apply (wakeup_ok _ _ me); cbn; rewrite ?Hh; auto; set_solver|].
  rewrite release_ok by held_side. f_equal. destruct i as [? ? ? [] ? ? ? ? ? ? ?]. kstate.
  by apply filter_lock_cons; set_solver.
Qed.
End Steps.

(** ** Scanning the table *)

Definition imatch (dev inum : Z) (i : inode) : bool := (0 <? i_ref i) && (i_dev i =? dev) && (i_inum i =? inum).

Lemma iget_scan_hit dev inum l : forall n empty k i, l !! k = Some i -> imatch dev inum i = true ->
  (forall j i', l !! j = Some i' -> imatch dev inum i' = true -> j = k) ->
  exists x, iget_scan l n dev inum empty = (Some (n + k)%nat, x).
Proof.
  induction l as [|h l IH]; intros n empty k i Hk Hm Hu; [done|]. cbn [iget_scan]. fold (imatch dev inum h).
  destruct (imatch dev inum h) eqn:E.
  - rewrite <- (Hu O h eq_refl E), Nat.add_0_r. eauto.
  - destruct k as [|k]; [injection Hk as ->; congruence|]. rewrite Nat.add_succ_r, <- Nat.add_succ_l. eapply IH; eauto.
    intros j i' Hj Hj'. specialize (Hu (S j) i' Hj Hj'). lia.
Qed.

Lemma iget_scan_miss dev inum l : forall n empty, (forall j i', l !! j = Some i' -> imatch dev inum i' = false) ->
  iget_scan l n dev inum empty = (None, match empty with Some k => Some k | None => (fun p => (n + p.1)%nat) <$> list_find (fun i => i_ref i = 0) l end).
Proof.
  induction l as [|h l IH]; intros n empty Hn; [by destruct empty|]. cbn [iget_scan]. fold (imatch dev inum h).
  rewrite (Hn O h eq_refl), IH by (intros j i' Hj; apply (Hn (S j) i' Hj)). f_equal. destruct empty as [k|]; [done|].
  cbn [list_find]. destruct (Z.eqb_spec (i_ref h) 0) as [E|E].
  - rewrite decide_True by done. cbn. f_equal. lia.
  - rewrite decide_False by done. destruct (list_find _ l) as [[k i]|]; cbn; [f_equal; lia|done].
Qed.

(** ** The table as a whole *)

(** The inode on the disk. *)
Definition ondisk (sb : superblock) (view : Z -> block) (inum : Z) : dinode := dip_read (view (IBLOCK inum sb)) (dip_off inum).

Section Table.
Context (pid dev : Z) (sb : superblock) (view : Z -> block).

(** An entry, when there are [ref] references to each inode and those in [lck]
    are locked. *)
Definition ient_ok (ref : Z -> Z) (lck : Z -> bool) (i : inode) : Prop :=
  if decide (i_ref i = 0) then sl_locked (i_lock i) = false
  else i_dev i = dev /\ i_ref i = ref (i_inum i) /\ (i_valid i = true -> dinode_of i = ondisk sb view (i_inum i)) /\
    if lck (i_inum i) then i_lock i = mkSleeplock true pid /\ i_valid i = true else sl_locked (i_lock i) = false.

Record inodes (t : list inode) (ref : Z -> Z) (lck : Z -> bool) : Prop := {
  nt_len : length t = NINODE;
  nt_ent k i : t !! k = Some i -> ient_ok ref lck i;
  nt_uniq j k i i' : t !! j = Some i -> t !! k = Some i' -> i_ref i <> 0 -> i_ref i' <> 0 -> i_inum i = i_inum i' -> j = k;
  nt_ref inum : ref inum <> 0 -> exists k i, t !! k = Some i /\ i_ref i <> 0 /\ i_inum i = inum;
  nt_range inum : 0 <= ref inum < 2 ^ 31 - 1;
  nt_lck inum : lck inum = true -> ref inum <> 0;
}.

Lemma inodes_ext t ref lck ref' lck' : inodes t ref lck -> (forall x, ref' x = ref x) -> (forall x, lck' x = lck x) -> inodes t ref' lck'.
Proof.
  intros [N1 N2 N3 N4 N5 N6] Hr Hl. split; auto.
  - intros k i Hk. specialize (N2 k i Hk). unfold ient_ok in *. by rewrite Hr, Hl.
  - intros inum. rewrite Hr. auto.
  - intros inum. by rewrite Hr.
  - intros inum. rewrite Hl, Hr. auto.
Qed.

(** The entry [k] is or becomes the one of [inum]. *)
Lemma inodes_insert t ref lck k i i' inum r b : inodes t ref lck -> t !! k = Some i ->
  (i_ref i <> 0 /\ i_inum i = inum \/ i_ref i = 0 /\ ref inum = 0) ->
  i_inum i' = inum -> i_ref i' = r -> 0 <= r < 2 ^ 31 - 1 -> (b = true -> r <> 0) ->
  ient_ok (zset ref inum r) (zset lck inum b) i' ->
  inodes (<[k := i']> t) (zset ref inum r) (zset lck inum b).
Proof.
  intros [N1 N2 N3 N4 N5 N6] Hk Hc Hi Hr Hrange Hb Hok.
  assert (forall j i'', t !! j = Some i'' -> j <> k -> i_ref i'' <> 0 -> i_inum i'' <> inum) as Hoth.
  { intros j i'' Hj Hne H0 He. destruct Hc as [[C1 C2]|[C1 C2]]; [apply Hne; eapply N3; eauto; congruence|].
    specialize (N2 j i'' Hj). unfold ient_ok in N2. rewrite decide_False in N2 by done. destruct N2 as (_ & E & _). congruence. }
  assert (forall j i'', <[k := i']> t !! j = Some i'' -> j = k /\ i'' = i' \/ j <> k /\ t !! j = Some i'') as Hin.
  { intros j i'' [(-> & <- & _)|[? ?]]%list_lookup_insert_Some; auto. }
  split.
  - by rewrite length_insert.
  - intros j i'' [[-> ->]|[Hne Hj]]%Hin; [done|]. pose proof (N2 j i'' Hj) as Hj'. unfold ient_ok in *.
    case_decide as E0; [done|]. rewrite !zset_ne by eauto. done.
  - intros j j' a a' [[-> ->]|[Hne Hj]]%Hin [[-> ->]|[Hne' Hj']]%Hin Ha Ha' E; [done|..|by eapply N3].
    + exfalso. eapply (Hoth j' a'); eauto. congruence.
    + exfalso. eapply (Hoth j a); eauto. congruence.
  - intros x Hx. destruct (decide (x = inum)) as [->|Hne].
    + rewrite zset_eq in Hx. exists k, i'. rewrite list_lookup_insert_eq by (by eapply lookup_lt_Some). split_and!; congruence.
    + rewrite zset_ne in Hx by done. destruct (N4 x Hx) as (j & a & Ha & Ha0 & Hax). exists j, a. split_and!; [|done|done].
      rewrite list_lookup_insert_ne; [done|]. intros <-. destruct Hc as [[C1 C2]|[C1 C2]]; congruence.
  - intros x. unfold zset. destruct (x =? inum); auto.
  - intros x. unfold zset. destruct (x =? inum); auto.
Qed.

(** The entry of a referenced inode. *)
Definition cached (t : list inode) (k : nat) (inum : Z) : Prop := exists i, t !! k = Some i /\ i_ref i <> 0 /\ i_inum i = inum.

Lemma cached_ent t ref lck k inum : inodes t ref lck -> cached t k inum -> exists i, t !! k = Some i /\ i_inum i = inum /\ i_dev i = dev /\
  i_ref i = ref inum /\ 0 < i_ref i < 2 ^ 31 - 1 /\ (i_valid i = true -> dinode_of i = ondisk sb view inum) /\
  if lck inum then i_lock i = mkSleeplock true pid /\ i_valid i = true else sl_locked (i_lock i) = false.
Proof.
  intros N (i & Hk & H0 & Hi). exists i. pose proof (nt_ent _ _ _ N k i Hk) as Hok. unfold ient_ok in Hok. rewrite decide_False, Hi in Hok by done.
  destruct Hok as (D1 & D2 & D3 & D4). pose proof (nt_range _ _ _ N inum). split_and!; auto; lia.
Qed.

(** With few inodes in use there is a free entry. *)
Lemma inodes_free t ref lck l : inodes t ref lck -> (forall inum, ref inum <> 0 -> inum ∈ l) -> (length l < NINODE)%nat ->
  exists k i, list_find (fun i => i_ref i = 0) t = Some (k, i).
Proof.
  intros N Hl Hlen. destruct (list_find (fun i => i_ref i = 0) t) as [[k i]|] eqn:E; [eauto|exfalso].
  apply list_find_None in E. assert (i_inum <$> t ⊆+ l) as Hs%submseteq_length.
  { apply NoDup_submseteq.
    - apply NoDup_alt. intros j k x Hj Hk. apply list_lookup_fmap_Some in Hj as (i & -> & Hj), Hk as (i' & E' & Hk).
      rewrite Forall_lookup in E. eapply (nt_uniq _ _ _ N); eauto.
    - intros x Hx. apply list_elem_of_fmap in Hx as (i & -> & Hi). apply list_elem_of_lookup in Hi as [k Hk]. apply Hl.
      rewrite Forall_lookup in E. specialize (E k i Hk). pose proof (nt_ent _ _ _ N k i Hk) as Hok. unfold ient_ok in Hok.
      rewrite decide_False in Hok by done. destruct Hok as (_ & <- & _). done. }
  rewrite length_fmap, (nt_len _ _ _ N) in Hs. lia.
Qed.
End Table.

(** ** The operations *)

Section Ops.
Context (me : nat) (pid dev start lsize : Z) (e : list (kernel -> kernel)) (sb : superblock).

Abbreviation tx := (tx_in me pid dev start lsize).
Abbreviation inodes := (inodes pid dev sb).
Abbreviation ondisk := (ondisk sb).

(** Inside a transaction, with the inode table. *)
Record fsys (s : kernel) (d : Z -> block) (bs : list Z) (view : Z -> block) (ref : Z -> Z) (lck : Z -> bool) : Prop := {
  fy_tx : tx [] s d bs view;
  fy_sb : k_sb s = sb;
  fy_in : inodes view (k_inodes s) ref lck;
}.

Lemma fsys_ctx s d bs view ref lck : fsys s d bs view ref lck -> proc_ctx s me pid.
Proof. intros [T _ _]. apply (ca_ctx _ _ _ _ _ _ _ (ts_cache _ _ _ _ _ _ _ _ _ _ T)). Qed.

Lemma fsys_ext s d bs view ref lck ref' lck' : fsys s d bs view ref lck -> (forall x, ref' x = ref x) -> (forall x, lck' x = lck x) ->
  fsys s d bs view ref' lck'.
Proof. intros [F1 F2 F3] Hr Hl. split; auto. by eapply inodes_ext. Qed.

Lemma fsys_tframe s s' d bs view ref lck : fsys s d bs view ref lck -> tx [] s' d bs view -> tframe s s' -> fsys s' d bs view ref lck.
Proof. intros [F1 F2 F3] T F. split; [done|by rewrite (tframe_sb _ _ F)|by rewrite (tframe_inodes _ _ F)]. Qed.

(** Another table. *)
Lemma fsys_table s d bs view ref lck t ref' lck' : fsys s d bs view ref lck -> inodes view t ref' lck' ->
  fsys (s <| k_inodes := t |>) d bs view ref' lck'.
Proof. intros [F1 F2 F3] N. split; [|done..]. by apply (tx_inodes _ _ _ _ _ _ _ _ _ _ (fun _ => t)). Qed.

Lemma tx_woken H s d bs view ch : tx H s d bs view -> tx H (s <| k_procs ::= woken ch me |>) d bs view.
Proof.
  intros [[C1 C2 C3 C4 C5 C6 C7] T2 T3 [] T5 T6 T7 T8 T9 T10]. split; auto; [|by split]. split; auto.
  exact (proc_ctx_woken s me pid ch (k_bufs s) C1).
Qed.

Lemma zset_same {A} (f : Z -> A) x y : zset f x (f x) y = f y.
Proof. unfold zset. by destruct (Z.eqb_spec y x) as [->|]. Qed.

(** The entry [k] changes; its inode then has [r] references and is locked or
    not. *)
Lemma fsys_put s d bs view ref lck k i i' inum r b : fsys s d bs view ref lck -> k_inodes s !! k = Some i ->
  (i_ref i <> 0 /\ i_inum i = inum \/ i_ref i = 0 /\ ref inum = 0) ->
  i_inum i' = inum -> i_ref i' = r -> 0 <= r < 2 ^ 31 - 1 -> (b = true -> r <> 0) -> ient_ok pid dev sb view (zset ref inum r) (zset lck inum b) i' ->
  fsys (s <| k_inodes := <[k := i']> (k_inodes s) |>) d bs view (zset ref inum r) (zset lck inum b).
Proof. intros F Hk Hc E1 E2 Hr Hb Hok. eapply fsys_table; [exact F|]. eapply inodes_insert; eauto. apply F. Qed.

Lemma cached_put t k i i' inum : t !! k = Some i -> i_ref i' <> 0 -> i_inum i' = inum -> cached (<[k := i']> t) k inum.
Proof. intros Hk H0 Hi. exists i'. rewrite list_lookup_insert_eq by (by eapply lookup_lt_Some). done. Qed.

(** The references that were there are still good. *)
Definition keeps (t t' : list inode) : Prop := forall k inum, cached t k inum -> cached t' k inum.

Lemma keeps_put t k i i' : t !! k = Some i -> (i_ref i = 0 \/ i_inum i' = i_inum i) -> i_ref i' <> 0 -> keeps t (<[k := i']> t).
Proof.
  intros Hk Hc H0 j inum (a & Ha & Ha0 & Hai). destruct (decide (j = k)) as [->|Hne].
  - simplify_eq. destruct Hc as [?|Hc]; [done|]. by eapply cached_put.
  - exists a. by rewrite list_lookup_insert_ne.
Qed.

(** The critical sections of itable.lock. *)
Lemma itable_acquire s : k_held s = [] -> acquire LkItable (mkWorld s e) = Ok tt (mkWorld (s <| k_held := [LkItable] |>) e).
Proof. intros Hh. rewrite acquire_ok by (cbn; rewrite Hh; set_solver). unfold kmod. cbn. do 2 f_equal. unfold upd, upd_k_held. by rewrite Hh. Qed.

Lemma itable_update {A} s k f i (r : A) : k_held s = [] -> k_inodes s !! k = Some i ->
  (mod_inode k f ;; release LkItable ;; ret r) (mkWorld (s <| k_held := [LkItable] |>) e) =
  Ok r (mkWorld (s <| k_inodes := <[k := f i]> (k_inodes s) |>) e).
Proof.
  intros Hh Hk. eapply run_bind; [by apply mod_inode_at|]. eapply run_bind; [apply release_ok; held_side|]. unfold ret. do 2 f_equal.
  kstate.
Qed.

(** iget() of an inode in the table, and of one that is not. *)
Lemma iget_hit s d bs view ref lck inum : fsys s d bs view ref lck -> ref inum <> 0 -> ref inum + 1 < 2 ^ 31 - 1 ->
  exists ip s', iget dev inum (mkWorld s e) = Ok ip (mkWorld s' e) /\
    fsys s' d bs view (zset ref inum (ref inum + 1)) (zset lck inum (lck inum)) /\ cached (k_inodes s') ip inum /\ keeps (k_inodes s) (k_inodes s').
Proof.
  intros F H0 Hr. pose proof (fy_in _ _ _ _ _ _ F) as N. pose proof (pc_held _ _ _ (fsys_ctx _ _ _ _ _ _ F)) as Hh.
  destruct (nt_ref _ _ _ _ _ _ _ N inum H0) as (k & i & Hk & Hi0 & Hin).
  destruct (cached_ent _ _ _ _ _ _ _ k inum N) as (i2 & Hi2 & D1 & D2 & D3 & D4 & D5 & D6); [by exists i|]. simplify_eq.
  destruct (iget_scan_hit dev (i_inum i) (k_inodes s) 0 None k i Hk) as [x Hx].
  { unfold imatch. rewrite !andb_true_iff. split_and!; lia. }
  { intros j i' Hj E. unfold imatch in E. apply andb_prop in E as [[E1 E2]%andb_prop E3]. eapply (nt_uniq _ _ _ _ _ _ _ N); eauto; lia. }
  set (i' := i <| i_ref ::= fun r => i32 (r + 1) |>).
  assert (i_ref i' = ref (i_inum i) + 1) as Er by (rewrite <- D3; cbn; apply i32_small; lia).
  exists k, (s <| k_inodes := <[k := i']> (k_inodes s) |>). split_and!.
  - unfold iget. run (itable_acquire s Hh). rewrite bind_gets. cbn [k_inodes upd upd_k_held]. rewrite Hx. by apply itable_update.
  - eapply fsys_put; eauto; [lia|lia|]. unfold ient_ok. rewrite decide_False by lia. change (i_inum i') with (i_inum i). rewrite !zset_eq. split_and!; auto.
  - eapply cached_put; eauto. lia.
  - eapply keeps_put; eauto. lia.
Qed.

Lemma iget_miss s d bs view ref lck inum l : fsys s d bs view ref lck -> ref inum = 0 ->
  (forall x, ref x <> 0 -> x ∈ l) -> (length l < NINODE)%nat ->
  exists ip s', iget dev inum (mkWorld s e) = Ok ip (mkWorld s' e) /\
    fsys s' d bs view (zset ref inum (ref inum + 1)) (zset lck inum (lck inum)) /\ cached (k_inodes s') ip inum /\ keeps (k_inodes s) (k_inodes s').
Proof.
  intros F H0 Hl Hlen. pose proof (fy_in _ _ _ _ _ _ F) as N. pose proof (pc_held _ _ _ (fsys_ctx _ _ _ _ _ _ F)) as Hh.
  assert (lck inum = false) as El by (destruct (lck inum) eqn:El; [by apply (nt_lck _ _ _ _ _ _ _ N) in El|done]).
  destruct (inodes_free _ _ _ _ _ _ _ l N Hl Hlen) as (k & i & Hf). pose proof Hf as (Hk & Hz & _)%list_find_Some.
  set (i' := i <| i_dev := dev |> <| i_inum := inum |> <| i_ref := 1 |> <| i_valid := false |>).
  exists k, (s <| k_inodes := <[k := i']> (k_inodes s) |>). split_and!.
  - unfold iget. run (itable_acquire s Hh). rewrite bind_gets. cbn [k_inodes upd upd_k_held]. rewrite iget_scan_miss.
    + rewrite Hf. cbn [fmap option_fmap option_map fst Nat.add].
      by apply (itable_update s k (fun ip => ip <| i_dev := dev |> <| i_inum := inum |> <| i_ref := 1 |> <| i_valid := false |>) i).
    + intros j a Hj. apply not_true_iff_false. intros E. unfold imatch in E. apply andb_prop in E as [[E1 E2]%andb_prop E3].
      destruct (cached_ent _ _ _ _ _ _ _ j inum N) as (i2 & Hi2 & _ & _ & E4 & E5 & _); [exists a; split_and!; auto; lia|]. lia.
  - eapply fsys_put; eauto; [cbn; lia|lia|lia|]. unfold ient_ok. cbn. rewrite !zset_eq, El, H0. split_and!; auto; [done|].
    pose proof (nt_ent _ _ _ _ _ _ _ N k i Hk) as Hok. unfold ient_ok in Hok. by rewrite decide_True in Hok.
  - eapply cached_put; eauto.
  - eapply keeps_put; eauto.
Qed.

(** iget() finds the inode or takes a free entry. *)
Lemma iget_ok s d bs view ref lck inum l : fsys s d bs view ref lck -> ref inum + 1 < 2 ^ 31 - 1 ->
  (forall x, ref x <> 0 -> x ∈ l) -> (length l < NINODE)%nat ->
  exists ip s', iget dev inum (mkWorld s e) = Ok ip (mkWorld s' e) /\
    fsys s' d bs view (zset ref inum (ref inum + 1)) lck /\ cached (k_inodes s') ip inum /\ keeps (k_inodes s) (k_inodes s').
Proof.
  intros F Hr Hl Hlen. assert (exists ip s', iget dev inum (mkWorld s e) = Ok ip (mkWorld s' e) /\
    fsys s' d bs view (zset ref inum (ref inum + 1)) (zset lck inum (lck inum)) /\ cached (k_inodes s') ip inum /\ keeps (k_inodes s) (k_inodes s')) as (ip & s' & E & F' & C & Kp).
  { destruct (decide (ref inum = 0)) as [H0|H0]; [by eapply iget_miss|by eapply iget_hit]. }
  exists ip, s'. split_and!; [done| |done|done]. eapply fsys_ext; [exact F'|done|]. intros x. by rewrite zset_same.
Qed.

(** idup(). *)
Lemma idup_ok s d bs view ref lck ip inum : fsys s d bs view ref lck -> cached (k_inodes s) ip inum -> ref inum + 1 < 2 ^ 31 - 1 ->
  exists s', idup ip (mkWorld s e) = Ok ip (mkWorld s' e) /\ fsys s' d bs view (zset ref inum (ref inum + 1)) lck /\ keeps (k_inodes s) (k_inodes s').
Proof.
  intros F C Hr. pose proof (fy_in _ _ _ _ _ _ F) as N. pose proof (pc_held _ _ _ (fsys_ctx _ _ _ _ _ _ F)) as Hh.
  destruct (cached_ent _ _ _ _ _ _ _ ip inum N C) as (i & Hk & D1 & D2 & D3 & D4 & D5 & D6).
  set (i1 := i <| i_ref ::= fun r => i32 (r + 1) |>). assert (i_ref i1 = ref inum + 1) as Er by (rewrite <- D3; cbn; apply i32_small; lia).
  exists (s <| k_inodes := <[ip := i1]> (k_inodes s) |>). split_and!.
  - unfold idup. run (itable_acquire s Hh). by apply (itable_update s ip (fun i => i <| i_ref ::= fun r => i32 (r + 1) |>) i).
  - eapply fsys_ext with (lck := zset lck inum (lck inum)); [|done|intros x; by rewrite zset_same].
    eapply fsys_put; eauto; [left; split; [lia|done]|lia|lia|]. unfold ient_ok. rewrite decide_False by lia.
    change (i_inum i1) with (i_inum i). rewrite D1, !zset_eq. split_and!; auto.
  - eapply keeps_put; eauto. lia.
Qed.

(** ilock() locks the inode and has it read from the disk. *)
Definition loaded (t : list inode) (ip : nat) (inum : Z) (di : dinode) : Prop :=
  exists i, t !! ip = Some i /\ i_dev i = dev /\ i_inum i = inum /\ dinode_of i = di.

(** Reading a block while the table changes. *)
Lemma tx_look_table s d bs view blk : tx [] s d bs view ->
  exists j s1 bf, bread dev blk (mkWorld s e) = Ok j (mkWorld s1 e) /\ get_buf j (mkWorld s1 e) = Ok bf (mkWorld s1 e) /\
    b_data bf = view blk /\ tframe s s1 /\ forall t, exists s2, brelse j (mkWorld (s1 <| k_inodes := t |>) e) = Ok tt (mkWorld s2 e) /\
    tx [] s2 d bs view /\ tframe (s1 <| k_inodes := t |>) s2.
Proof.
  intros X. pose proof (tx_room _ _ _ _ _ _ _ _ _ _ X) as R.
  destruct (tx_bread _ _ _ _ _ e [] s d bs view blk X) as (j & s1 & E1 & X1 & F1 & W1); [set_solver|cbn; lia|].
  destruct (tx_data _ _ _ _ _ e _ _ _ _ _ _ _ X1) as (bf & E2 & V2). exists j, s1, bf. split_and!; auto. intros t.
  pose proof (tx_inodes _ _ _ _ _ _ _ _ _ _ (fun _ => t) X1) as X2.
  destruct (tx_brelse _ _ _ _ _ e [] _ d bs view blk j X2) as (s2 & E3 & X3 & F3 & W3).
  { by eapply tx_clean; [exact X|set_solver]. }
  exists s2. split_and!; auto.
Qed.

(** What ilock() reads. *)
Lemma ilock_read s d bs view ip i : tx [] s d bs view -> k_sb s = sb -> k_inodes s !! ip = Some i -> i_dev i = dev ->
  di_type (ondisk view (i_inum i)) <> 0 -> let i' := (load_dinode (ondisk view (i_inum i)) i) <| i_valid := true |> in
  exists s', (let* sb := gets k_sb in
     let* bp := bread (i_dev i) (IBLOCK (i_inum i) sb) in
     let* bf := get_buf bp in
     mod_inode ip (load_dinode (dip_read (b_data bf) (dip_off (i_inum i)))) ;;
     brelse bp ;;
     mod_inode ip (fun i => i <| i_valid := true |>) ;;
     let* i := get_inode ip in
     if i_type i =? 0 then panic "ilock: no type" else ret tt)%M (mkWorld s e) = Ok tt (mkWorld s' e) /\
    tx [] s' d bs view /\ k_sb s' = sb /\ k_inodes s' = <[ip := i']> (k_inodes s).
Proof.
  intros X Hsb Hk Hd Ht i'. destruct (tx_look_table s d bs view (IBLOCK (i_inum i) sb) X) as (j & s1 & bf & E1 & E2 & V & F1 & E3).
  pose proof (tframe_inodes _ _ F1) as Et1. set (i2 := load_dinode (ondisk view (i_inum i)) i) in *.
  destruct (E3 (<[ip := i2]> (k_inodes s1))) as (s2 & E4 & X2 & F2). pose proof (tframe_inodes _ _ F2) as Et2. cbn [k_inodes upd upd_k_inodes] in Et2.
  assert (k_inodes s2 !! ip = Some i2) as Hk2 by (rewrite Et2, Et1, list_lookup_insert_eq; [done|by eapply lookup_lt_Some]).
  exists (s2 <| k_inodes := <[ip := i']> (k_inodes s2) |>). split_and!.
  - rewrite bind_gets, Hsb, Hd. run E1. run E2. rewrite V. fold (ondisk view (i_inum i)).
    run (mod_inode_at ip (load_dinode (ondisk view (i_inum i))) i s1 e ltac:(by rewrite Et1)). fold i2. run E4.
    run (mod_inode_at ip (fun i => i <| i_valid := true |>) i2 s2 e Hk2). fold i'.
    eapply run_bind; [apply get_inode_ok; cbn; apply list_lookup_insert_eq; by eapply lookup_lt_Some|].
    change (i_type i') with (di_type (ondisk view (i_inum i))). by replace (di_type (ondisk view (i_inum i)) =? 0) with false by lia.
  - by apply (tx_inodes _ _ _ _ _ _ _ _ _ _ (fun _ => <[ip := i']> (k_inodes s2))).
  - change (k_sb s2 = sb). rewrite (tframe_sb _ _ F2). change (k_sb s1 = sb). by rewrite (tframe_sb _ _ F1).
  - cbn [k_inodes upd upd_k_inodes]. by rewrite Et2, Et1, list_insert_insert_eq.
Qed.

Lemma dinode_of_load di i : dinode_of ((load_dinode di i) <| i_valid := true |>) = di.
Proof. by destruct di. Qed.

Lemma ilock_ok s d bs view ref lck ip inum : fsys s d bs view ref lck -> cached (k_inodes s) ip inum -> lck inum = false ->
  di_type (ondisk view inum) <> 0 ->
  exists s', ilock (Some ip) (mkWorld s e) = Ok tt (mkWorld s' e) /\ fsys s' d bs view ref (zset lck inum true) /\
    keeps (k_inodes s) (k_inodes s') /\ loaded (k_inodes s') ip inum (ondisk view inum).
Proof.
  intros F C Hl Ht. pose proof (fy_in _ _ _ _ _ _ F) as N. pose proof (fy_tx _ _ _ _ _ _ F) as X.
  destruct (cached_ent _ _ _ _ _ _ _ ip inum N C) as (i & Hk & D1 & D2 & D3 & D4 & D5 & D6). rewrite Hl in D6.
  set (i1 := i <| i_lock := mkSleeplock true pid |>). pose proof (lookup_lt_Some _ _ _ Hk) as Hlt.
  pose proof (iacquiresleep_free me pid e ip i s (fsys_ctx _ _ _ _ _ _ F) Hk D6) as E1. fold i1 in E1.
  pose (s1 := s <| k_inodes := <[ip := i1]> (k_inodes s) |>). change (s <| k_inodes := <[ip := i1]> (k_inodes s) |>) with s1 in E1.
  assert (k_inodes s1 !! ip = Some i1) as Hk1 by (by apply list_lookup_insert_eq).
  assert (forall s' i', tx [] s' d bs view -> k_sb s' = sb -> k_inodes s' = <[ip := i']> (k_inodes s) -> i_inum i' = inum -> i_ref i' = i_ref i ->
    i_dev i' = dev -> dinode_of i' = ondisk view inum -> i_valid i' = true -> i_lock i' = mkSleeplock true pid ->
    fsys s' d bs view ref (zset lck inum true) /\ keeps (k_inodes s) (k_inodes s') /\ loaded (k_inodes s') ip inum (ondisk view inum)) as Hend.
  { intros s' i' X' Hsb' Et P1 P2 P3 P4 P5 P6. split_and!.
    - split; [done|done|]. rewrite Et. eapply inodes_ext with (ref := zset ref inum (ref inum)); [|intros x; by rewrite zset_same|done].
      eapply inodes_insert; eauto; [left; split; [lia|done]|lia..|]. unfold ient_ok. rewrite decide_False by lia. rewrite P1, !zset_eq. split_and!; congruence.
    - rewrite Et. eapply keeps_put; eauto; [right; congruence|lia].
    - exists i'. rewrite Et, list_lookup_insert_eq by done. done. }
  unfold ilock. run (get_inode_ok _ _ _ e Hk). replace (i_ref i <? 1) with false by lia. run E1. run (get_inode_ok _ _ _ e Hk1).
  change (i_valid i1) with (i_valid i). destruct (i_valid i) eqn:Ev; cbn [negb].
  - exists s1. split; [done|]. apply (Hend s1 i1); auto; [|apply F]. by apply (tx_inodes _ _ _ _ _ _ _ _ _ _ (fun _ => <[ip := i1]> (k_inodes s))).
  - destruct (ilock_read s1 d bs view ip i1) as (s' & E2 & X' & Hsb' & Et); auto.
    1: by apply (tx_inodes _ _ _ _ _ _ _ _ _ _ (fun _ => <[ip := i1]> (k_inodes s))).
    1: apply F.
    1: change (i_inum i1) with (i_inum i); by rewrite D1.
    exists s'. split; [exact E2|]. change (i_inum i1) with (i_inum i) in Et. rewrite D1 in Et.
    apply (Hend s' ((load_dinode (ondisk view inum) i1) <| i_valid := true |>)); auto using dinode_of_load. rewrite Et. unfold s1. cbn [k_inodes upd upd_k_inodes]. by rewrite list_insert_insert_eq.
Qed.

(** iunlock(). *)
Lemma iunlock_ok s d bs view ref lck ip inum : fsys s d bs view ref lck -> cached (k_inodes s) ip inum -> lck inum = true ->
  exists s', iunlock (Some ip) (mkWorld s e) = Ok tt (mkWorld s' e) /\ fsys s' d bs view ref (zset lck inum false) /\
    keeps (k_inodes s) (k_inodes s').
Proof.
  intros F C Hl. pose proof (fy_in _ _ _ _ _ _ F) as N. pose proof (fsys_ctx _ _ _ _ _ _ F) as Hc.
  destruct (cached_ent _ _ _ _ _ _ _ ip inum N C) as (i & Hk & D1 & D2 & D3 & D4 & D5 & D6). rewrite Hl in D6. destruct D6 as [D6 D7].
  set (i1 := i <| i_lock := mkSleeplock false 0 |>).
  exists (s <| k_inodes := <[ip := i1]> (k_inodes s) |> <| k_procs ::= woken (ChInodeLock ip) me |>). split_and!.
  - unfold iunlock. run (iholdingsleep_mine me pid e ip i s Hc Hk D6). cbn [negb]. run (get_inode_ok _ _ _ e Hk).
    replace (i_ref i <? 1) with false by lia. by apply (ireleasesleep_ok me pid).
  - assert (fsys (s <| k_inodes := <[ip := i1]> (k_inodes s) |>) d bs view (zset ref inum (ref inum)) (zset lck inum false)) as F1.
    { eapply fsys_put; eauto; [left; split; [lia|done]|lia|]. unfold ient_ok. change (i_inum i1) with (i_inum i). change (i_ref i1) with (i_ref i).
      rewrite decide_False by lia. rewrite D1, !zset_eq. split_and!; auto. }
    apply (fsys_ext _ _ _ _ _ _ ref (zset lck inum false)) in F1; [|intros x; by rewrite zset_same|done].
    destruct F1 as [G1 G2 G3]. split; [by apply tx_woken|exact G2|exact G3].
  - change (keeps (k_inodes s) (<[ip := i1]> (k_inodes s))). eapply keeps_put; eauto. change (i_ref i1) with (i_ref i). lia.
Qed.

(** iput() of an inode that stays linked, or has other references. *)
Lemma iput_ok s d bs view ref lck ip inum : fsys s d bs view ref lck -> cached (k_inodes s) ip inum -> (lck inum = true -> 1 < ref inum) ->
  di_nlink (ondisk view inum) <> 0 ->
  exists s', iput ip (mkWorld s e) = Ok tt (mkWorld s' e) /\ fsys s' d bs view (zset ref inum (ref inum - 1)) lck /\
    forall j x, cached (k_inodes s) j x -> x <> inum \/ 1 < ref inum -> cached (k_inodes s') j x.
Proof.
  intros F C Hl Hn. pose proof (fy_in _ _ _ _ _ _ F) as N. pose proof (pc_held _ _ _ (fsys_ctx _ _ _ _ _ _ F)) as Hh.
  destruct (cached_ent _ _ _ _ _ _ _ ip inum N C) as (i & Hk & D1 & D2 & D3 & D4 & D5 & D6).
  set (i1 := i <| i_ref ::= fun r => i32 (r - 1) |>). assert (i_ref i1 = ref inum - 1) as Er by (rewrite <- D3; cbn; apply i32_small; lia).
  exists (s <| k_inodes := <[ip := i1]> (k_inodes s) |>). split_and!.
  - unfold iput. run (itable_acquire s Hh). eapply run_bind; [by apply get_inode_ok|].
    replace ((i_ref i =? 1) && i_valid i && (i_nlink i =? 0)) with false.
    2: { destruct (i_valid i) eqn:Ev; [|by rewrite andb_false_r]. specialize (D5 eq_refl).
         change (i_nlink i) with (di_nlink (dinode_of i)). rewrite D5. replace (di_nlink (ondisk view inum) =? 0) with false by lia. by rewrite andb_false_r. }
    rewrite (bind_ok (ret tt) _ _ _ _ eq_refl). eapply run_bind; [by apply mod_inode_at|]. rewrite release_ok by held_side. do 2 f_equal. kstate.
  - eapply fsys_ext with (lck := zset lck inum (lck inum)); [|done|intros x; by rewrite zset_same].
    eapply fsys_put; eauto; [left; split; [lia|done]|lia|intros Hb; specialize (Hl Hb); lia|]. unfold ient_ok. change (i_inum i1) with (i_inum i). rewrite D1, !zset_eq, Er.
    case_decide as Hz; [|split_and!; auto]. destruct (lck inum); [specialize (Hl eq_refl); lia|done].
  - intros j x Hj [Hx|Hx]; [|by apply (keeps_put _ ip i i1 Hk (or_intror eq_refl) ltac:(lia))].
    destruct Hj as (a & Ha & Ha0 & Hax). exists a. split; [|done]. cbn [k_inodes upd upd_k_inodes]. rewrite list_lookup_insert_ne; [done|]. congruence.
Qed.
End Ops.
