(* ===== verification/Lookup.v ===== *)
(** Directories and path names on the disk: dirlookup(), namex() and namei() of
    kernel/fs.c.

    [dir_find] looks a name up in the bytes of a directory, and [resolve] walks
    a list of names from an inode; the theorem at the end says that namei() of
    an absolute path is [resolve] of its components. *)

From S2P Require Import Prelude Layout Kernel Sched Bio Log Fs Dir DirSpec Ring Cache Crash LogProof Transaction FsAlloc FsFile FsWrite FsContent Inodes.

(** ** Directories as bytes *)

(** The first of [n] entries that is in use and called [name]: where it is, and
    its inode. *)
Fixpoint dir_scan (n : nat) (data name : list Z) (off : Z) : option (Z * Z) :=
  match n with
  | O => None
  | S n' =>
      let de := de_of_bytes (take 16 data) in
      if (de_inum de =? 0) || negb (namecmp name (de_name de) =? 0) then dir_scan n' (drop 16 data) name (off + 16)
      else Some (off, de_inum de)
  end.

Definition dir_find (data name : list Z) : option (Z * Z) := dir_scan (length data / 16) data name 0.

(** The bytes of the file of an inode. *)
Definition dcontents (view : Z -> block) (di : dinode) : list Z := fbytes view (di_addrs di) 0 (Z.to_nat (di_size di)).

(** The inode reached from [inum] by a list of names. *)
Fixpoint resolve (sb : superblock) (view : Z -> block) (inum : Z) (names : list (list Z)) : option Z :=
  match names with
  | [] => Some inum
  | name :: names' =>
      let di := ondisk sb view inum in
      if di_type di =? T_DIR then
        match dir_find (dcontents view di) name with
        | Some (_, inum') => resolve sb view inum' names'
        | None => None
        end
      else None
  end.

Section Lookup.
Context (me : nat) (pid dev start lsize : Z) (e : list (kernel -> kernel)) (sb : superblock).

Abbreviation tx := (tx_in me pid dev start lsize).
Abbreviation fsys := (fsys me pid dev start lsize sb).
Abbreviation loaded := (loaded dev).
Abbreviation ondisk := (ondisk sb).
Abbreviation resolve := (resolve sb).

(** The file of an inode is all there. *)
Definition whole (view : Z -> block) (di : dinode) : Prop :=
  FsFile.file_ok start lsize sb view (di_addrs di) /\ 0 <= di_size di <= MAXFILE * BSIZE /\ mapped_to view (di_addrs di) 0 (di_size di).

Lemma loaded_file s view ip inum di : loaded (k_inodes s) ip inum di -> whole view di ->
  exists i, k_inodes s !! ip = Some i /\ dinode_of i = di /\ i_inum i = inum /\ file_at dev start lsize sb s view ip i.
Proof.
  intros (i & Hi & Hd & Hn & E) (W1 & W2 & W3). exists i. split_and!; auto. subst di. exact (conj (conj Hi Hd) (conj W1 (conj W2 W3))).
Qed.

Lemma file_at_frame s s' view ip i : tframe s s' -> file_at dev start lsize sb s view ip i -> file_at dev start lsize sb s' view ip i.
Proof. intros F (H1 & H2). split; [by eapply inode_is_frame|done]. Qed.

(** A round of the loop: the entry at [off]. *)
Lemma readi_entry s d bs view ip i off : tx [] s d bs view -> file_at dev start lsize sb s view ip i -> 0 <= off -> off + 16 <= i_size i ->
  exists s', readi ip (DLocal 0) off sizeof_dirent (mkWorld s e) = Ok (16, fbytes view (i_addrs i) off 16) (mkWorld s' e) /\ tx [] s' d bs view /\ tframe s s'.
Proof.
  intros X Hf Ho Hs. pose proof Hf as (_ & _ & Hsz & _). change (MAXFILE * BSIZE) with 274432 in Hsz.
  destruct (readi_ok me pid dev start lsize e sb s d bs view ip i off sizeof_dirent X Hf Ho) as (s' & E & X' & F & _); [done|unfold sizeof_dirent; lia|].
  exists s'. split_and!; auto. rewrite E. replace (i_size i <? off) with false by lia. change sizeof_dirent with 16. by replace (Z.min 16 (i_size i - off)) with 16 by lia.
Qed.

Lemma fbytes_cut view addrs off n : fbytes view addrs off (16 + n) = fbytes view addrs off 16 ++ fbytes view addrs (off + 16) n.
Proof. apply fbytes_app. Qed.

Lemma dirlookup_loop_ok d bs view ip i name n : forall f s off, tx [] s d bs view -> file_at dev start lsize sb s view ip i -> 0 <= off ->
  i_size i = off + 16 * Z.of_nat n -> (n < f)%nat ->
  exists s', dirlookup_loop f ip name off (mkWorld s e) =
      Ok (dir_scan n (fbytes view (i_addrs i) off (16 * n)) name off) (mkWorld s' e) /\ tx [] s' d bs view /\ tframe s s'.
Proof.
  induction n as [|n IH]; intros f s off X Hf Ho Hs Hn; (destruct f as [|f]; [lia|]); cbn [dirlookup_loop].
  { exists s. split_and!; [|done|by destruct s]. run (get_inode_ok _ _ _ e (proj1 (proj1 Hf))). by replace (off <? i_size i) with false by lia. }
  pose proof Hf as (_ & _ & Hsz & _). change (MAXFILE * BSIZE) with 274432 in Hsz.
  destruct (readi_entry s d bs view ip i off X Hf Ho ltac:(lia)) as (s1 & E1 & X1 & F1).
  run (get_inode_ok _ _ _ e (proj1 (proj1 Hf))). replace (off <? i_size i) with true by lia. run E1. change (negb (16 =? sizeof_dirent)) with false. cbn iota. cbn [snd].
  replace (16 * S n)%nat with (16 + 16 * n)%nat by lia. rewrite fbytes_cut. cbn [dir_scan].
  rewrite take_app_length', drop_app_length' by (by rewrite length_fbytes). cbv zeta. set (de := de_of_bytes _).
  destruct (IH f s1 (off + 16) X1 (file_at_frame _ _ _ _ _ F1 Hf) ltac:(lia) ltac:(lia) ltac:(lia)) as (s2 & E2 & X2 & F2).
  change sizeof_dirent with 16. rewrite u32_small by lia.
  destruct (de_inum de =? 0); cbn [orb]; [exists s2; eauto using tframe_trans|].
  destruct (namecmp name (de_name de) =? 0); cbn [negb]; [exists s1|exists s2]; eauto using tframe_trans.
Qed.

Definition dir_ok (view : Z -> block) (di : dinode) : Prop := whole view di /\ di_size di mod 16 = 0.

(** dirlookup() of a locked directory. *)
Lemma dirlookup_ok s d bs view ref lck ip inum name l : fsys s d bs view ref lck -> loaded (k_inodes s) ip inum (ondisk view inum) ->
  di_type (ondisk view inum) = T_DIR -> dir_ok view (ondisk view inum) ->
  (forall x, ref x + 1 < 2 ^ 31 - 1) -> (forall x, ref x <> 0 -> x ∈ l) -> (length l < NINODE)%nat ->
  exists s', match dir_find (dcontents view (ondisk view inum)) name with
    | None => dirlookup ip name (mkWorld s e) = Ok None (mkWorld s' e) /\ fsys s' d bs view ref lck /\ keeps (k_inodes s) (k_inodes s')
    | Some (off, inum') => exists ip', dirlookup ip name (mkWorld s e) = Ok (Some (ip', off)) (mkWorld s' e) /\
        fsys s' d bs view (zset ref inum' (ref inum' + 1)) lck /\ cached (k_inodes s') ip' inum' /\ keeps (k_inodes s) (k_inodes s')
    end.
Proof.
  intros F Hld Ht [Hw Hm] Hr Hl Hlen. destruct (loaded_file _ _ _ _ _ Hld Hw) as (i & Hi & Ed & En & Hf).
  assert (i_type i = T_DIR) as Ety by (change (i_type i) with (di_type (dinode_of i)); by rewrite Ed).
  assert (di_size (ondisk view inum) = i_size i) as Esz by (by rewrite <- Ed). assert (di_addrs (ondisk view inum) = i_addrs i) as Ead by (by rewrite <- Ed).
  destruct Hw as (_ & Hsz & _). rewrite Esz in Hsz, Hm.
  set (n := Z.to_nat (i_size i / 16)). assert (i_size i = 16 * Z.of_nat n) as Hn by (unfold n; Z.to_euclidean_division_equations; lia).
  destruct (dirlookup_loop_ok d bs view ip i name n (S (S n)) s 0 (fy_tx _ _ _ _ _ _ _ _ _ _ _ _ F) Hf ltac:(lia) ltac:(lia) ltac:(lia)) as (s1 & E1 & X1 & F1).
  pose proof (fsys_tframe _ _ _ _ _ _ _ _ _ _ _ _ _ F X1 F1) as G1. unfold dir_find, dcontents. rewrite Esz, Ead, length_fbytes.
  replace (Z.to_nat (i_size i) / 16)%nat with n by (rewrite Hn, Z2Nat.inj_mul, Nat2Z.id by lia; change (Z.to_nat 16) with 16%nat; by rewrite Nat.mul_comm, Nat.div_mul).
  replace (Z.to_nat (i_size i)) with (16 * n)%nat by lia.
  unfold dirlookup. assert (forall s, k_inodes s !! ip = Some i -> get_inode ip (mkWorld s e) = Ok i (mkWorld s e)) as Hg by (intros; by apply get_inode_ok).
  destruct (dir_scan n _ name 0) as [[off inum']|] eqn:Es.
  - destruct (iget_ok _ _ _ _ _ e _ s1 d bs view ref lck inum' l G1 (Hr inum') Hl Hlen) as (ip' & s2 & E2 & G2 & C2 & K2).
    exists s2, ip'. split_and!; [|done|done|by rewrite <- (tframe_inodes _ _ F1)]. run (Hg s Hi). rewrite Ety. change (negb (T_DIR =? T_DIR)) with false. cbn iota.
    change sizeof_dirent with 16. fold n. run E1. rewrite (proj2 (proj1 Hf)). by run E2.
  - exists s1. split_and!; [|done|intros k x; by rewrite (tframe_inodes _ _ F1)]. run (Hg s Hi). rewrite Ety. change (negb (T_DIR =? T_DIR)) with false. cbn iota.
    change sizeof_dirent with 16. fold n. by run E1.
Qed.

(** ** Path names *)

(** A set of inodes that directories do not lead out of: each is in use and
    linked, and the directories are whole. *)
Record tree (view : Z -> block) (P : Z -> Prop) : Prop := {
  tr_type inum : P inum -> di_type (ondisk view inum) <> 0;
  tr_link inum : P inum -> di_nlink (ondisk view inum) <> 0;
  tr_dir inum : P inum -> di_type (ondisk view inum) = T_DIR -> dir_ok view (ondisk view inum);
  tr_entry inum name off inum' : P inum -> di_type (ondisk view inum) = T_DIR ->
    dir_find (dcontents view (ondisk view inum)) name = Some (off, inum') -> P inum';
}.

(** One more reference. *)
Definition plus (ref : Z -> Z) (inum x : Z) : Z := ref x + if x =? inum then 1 else 0.

Lemma plus_zset ref inum x : plus ref inum x = zset ref inum (ref inum + 1) x.
Proof. unfold plus, zset. destruct (Z.eqb_spec x inum) as [->|]; lia. Qed.

Section Walk.
Context (d : Z -> block) (bs : list Z) (view : Z -> block) (P : Z -> Prop) (ref : Z -> Z) (lck : Z -> bool) (l : list Z).
Hypothesis Htree : tree view P.
Hypothesis Hlck : forall x, lck x = false.
Hypothesis Href : forall x, ref x + 2 < 2 ^ 31 - 1.
Hypothesis Hl : forall x, ref x <> 0 -> x ∈ l.
Hypothesis Hlen : (length l < NINODE - 1)%nat.

(** The kernel has a reference to [inum] of its own, through [ip]. *)
Definition at_inode (s : kernel) (ip : nat) (inum : Z) : Prop :=
  fsys s d bs view (plus ref inum) lck /\ cached (k_inodes s) ip inum /\ P inum.

Lemma unlock_put s ip inum ref' : fsys s d bs view ref' (zset lck inum true) -> cached (k_inodes s) ip inum -> P inum ->
  exists s', iunlockput ip (mkWorld s e) = Ok tt (mkWorld s' e) /\ fsys s' d bs view (zset ref' inum (ref' inum - 1)) lck /\
    forall j x, cached (k_inodes s) j x -> x <> inum \/ 1 < ref' inum -> cached (k_inodes s') j x.
Proof.
  intros F C HP. destruct (iunlock_ok _ _ _ _ _ e _ _ _ _ _ _ _ _ _ F C (zset_eq _ _ _)) as (s1 & E1 & F1 & K1).
  assert (fsys s1 d bs view ref' lck) as G1.
  { eapply fsys_ext; [exact F1|done|]. intros x. unfold zset. destruct (Z.eqb_spec x inum) as [->|]; [apply Hlck|done]. }
  destruct (iput_ok _ _ _ _ _ e _ _ _ _ _ _ _ _ _ G1 (K1 _ _ C) ltac:(by rewrite Hlck) (tr_link _ _ Htree _ HP)) as (s2 & E2 & F2 & K2).
  exists s2. split_and!; [|done|]. { unfold iunlockput. by run E1. } intros j x Hj. apply K2. by apply K1.
Qed.

(** One step of the walk, from the inode [inum] to that of [name] in it. *)
Lemma walk_step s ip inum name : at_inode s ip inum ->
  exists s1, ilock (Some ip) (mkWorld s e) = Ok tt (mkWorld s1 e) /\
    exists i, get_inode ip (mkWorld s1 e) = Ok i (mkWorld s1 e) /\ i_type i = di_type (ondisk view inum) /\
    if di_type (ondisk view inum) =? T_DIR then
      match dir_find (dcontents view (ondisk view inum)) name with
      | Some (off, inum') => exists ip' s2 s3, dirlookup ip name (mkWorld s1 e) = Ok (Some (ip', off)) (mkWorld s2 e) /\
          iunlockput ip (mkWorld s2 e) = Ok tt (mkWorld s3 e) /\ at_inode s3 ip' inum'
      | None => exists s2 s3, dirlookup ip name (mkWorld s1 e) = Ok None (mkWorld s2 e) /\
          iunlockput ip (mkWorld s2 e) = Ok tt (mkWorld s3 e) /\ fsys s3 d bs view ref lck
      end
    else exists s3, iunlockput ip (mkWorld s1 e) = Ok tt (mkWorld s3 e) /\ fsys s3 d bs view ref lck.
Proof.
  intros (F & C & HP). destruct (ilock_ok _ _ _ _ _ e _ _ _ _ _ _ _ _ _ F C (Hlck inum) (tr_type _ _ Htree _ HP)) as (s1 & E1 & F1 & K1 & Ld).
  exists s1. split; [done|]. pose proof Ld as (i & Hi & _ & _ & Ed). exists i. split; [by apply get_inode_ok|].
  split; [by rewrite <- Ed|]. pose proof (nt_range _ _ _ _ _ _ _ (fy_in _ _ _ _ _ _ _ _ _ _ _ _ F)) as Hpos.
  assert (forall s3, fsys s3 d bs view (zset (plus ref inum) inum (plus ref inum inum - 1)) lck -> fsys s3 d bs view ref lck) as Hback.
  { intros s3 F3. eapply fsys_ext; [exact F3| |done]. intros x. unfold zset, plus. rewrite Z.eqb_refl. destruct (Z.eqb_spec x inum) as [->|]; lia. }
  destruct (Z.eqb_spec (di_type (ondisk view inum)) T_DIR) as [Ht|Ht].
  2: { destruct (unlock_put s1 ip inum _ F1 (K1 _ _ C) HP) as (s3 & E3 & F3 & _). exists s3. auto. }
  destruct (dirlookup_ok s1 d bs view (plus ref inum) _ ip inum name (inum :: l) F1 Ld Ht (tr_dir _ _ Htree _ HP Ht)) as (s2 & H2).
  { intros x. unfold plus. specialize (Href x). destruct (x =? inum); lia. }
  { intros x. unfold plus. destruct (Z.eqb_spec x inum) as [->|]; [set_solver|]. intros Hx. apply list_elem_of_further, Hl. lia. }
  { cbn [length]. lia. }
  destruct (dir_find _ name) as [[off inum']|] eqn:Ef.
  - destruct H2 as (ip' & E2 & F2 & C2 & K2). destruct (unlock_put s2 ip inum _ F2 (K2 _ _ (K1 _ _ C)) HP) as (s3 & E3 & F3 & K3).
    exists ip', s2, s3. split_and!; [done|done|]. split_and!; [| |by eapply tr_entry].
    + eapply fsys_ext; [exact F3| |done]. intros x. unfold zset, plus.
      repeat match goal with |- context [?a =? ?b] => destruct (Z.eqb_spec a b) end; subst; lia || congruence.
    + apply K3; [done|]. destruct (decide (inum' = inum)) as [->|]; [right|by left]. unfold zset, plus. rewrite !Z.eqb_refl.
      specialize (Hpos inum). unfold plus in Hpos. rewrite Z.eqb_refl in Hpos. pose proof (cached_ent _ _ _ _ _ _ _ _ _ (fy_in _ _ _ _ _ _ _ _ _ _ _ _ F) C) as (j & _ & _ & _ & Ej & Ej' & _).
      unfold plus in Ej. rewrite Z.eqb_refl in Ej. lia.
  - destruct H2 as (E2 & F2 & K2). destruct (unlock_put s2 ip inum _ F2 (K2 _ _ (K1 _ _ C)) HP) as (s3 & E3 & F3 & _).
    exists s2, s3. auto.
Qed.

(** The components of a path, each cut to DIRSIZ bytes. *)
Definition components (path : list Z) : list (list Z) := take 14 <$> List.filter nonempty (split_path path).

Lemma namex_loop_ok fuel : forall path s ip inum nm, (length path <= fuel)%nat -> at_inode s ip inum ->
  exists s' nm', match resolve view inum (components path) with
    | Some inum' => exists ip', namex_loop fuel path false nm ip (mkWorld s e) = Ok (Some ip', nm') (mkWorld s' e) /\ at_inode s' ip' inum'
    | None => namex_loop fuel path false nm ip (mkWorld s e) = Ok (None, nm') (mkWorld s' e) /\ fsys s' d bs view ref lck
    end.
Proof.
  induction fuel as [|f IH]; intros path s ip inum nm Hf Ha.
  { destruct path; [|cbn in Hf; lia]. exists s, nm. cbn. eauto. }
  pose proof (skipelem_spec path) as Hs. cbn [namex_loop]. unfold components. destruct (skipelem path) as [[name rest]|].
  2: { rewrite Hs. exists s, nm. cbn. eauto. }
  destruct Hs as (x & -> & _ & -> & Hlt). rewrite fmap_cons. fold (components rest). cbn [Lookup.resolve].
  destruct (walk_step s ip inum (take 14 x) Ha) as (s1 & E1 & i & E2 & Et & H). run E1. run E2. rewrite Et.
  destruct (di_type (ondisk view inum) =? T_DIR); cbn [negb andb].
  2: { destruct H as (s3 & E3 & F3). exists s3, (take 14 x). split; [by run E3|done]. }
  destruct (dir_find _ (take 14 x)) as [[off inum']|].
  - destruct H as (ip' & s2 & s3 & E3 & E4 & A3). run E3. run E4. apply IH; [lia|done].
  - destruct H as (s2 & s3 & E3 & E4 & F3). exists s3, (take 14 x). split; [by run E3; run E4|done].
Qed.
End Walk.
End Lookup.

(** ** The property *)

(** Where a path starts: at the root, or at the current directory. *)
Definition path_start (s : kernel) (me : nat) (path : list Z) (inum : Z) : Prop :=
  hd 0 path = SLASH /\ inum = ROOTINO \/
  hd 0 path <> SLASH /\ exists p c, k_procs s !! me = Some p /\ p_cwd p = Some c /\ cached (k_inodes s) c inum.

Lemma namex_start me pid start lsize e sb s d bs view ref lck l path inum0 :
  fsys me pid ROOTDEV start lsize sb s d bs view ref lck -> path_start s me path inum0 ->
  (forall x, ref x + 2 < 2 ^ 31 - 1) -> (forall x, ref x <> 0 -> x ∈ l) -> (length l < NINODE - 1)%nat ->
  exists ip s', (if hd 0 path =? SLASH then iget ROOTDEV ROOTINO
     else
       let* i := curproc in
       let* p := get_proc i in
       match p_cwd p with Some c => idup c | None => fault end)%M (mkWorld s e) = Ok ip (mkWorld s' e) /\
    fsys me pid ROOTDEV start lsize sb s' d bs view (plus ref inum0) lck /\ cached (k_inodes s') ip inum0.
Proof.
  intros F [[-> ->]|(Hp & p & c & Hp1 & Hp2 & Hc)] Hr Hl Hlen; [|apply Z.eqb_neq in Hp; rewrite Hp].
  - destruct (iget_ok _ _ _ _ _ e _ _ _ _ _ _ _ ROOTINO l F ltac:(specialize (Hr ROOTINO); lia) Hl ltac:(lia)) as (ip & s' & E & G & C & _).
    exists ip, s'. split_and!; [done| |done]. eapply fsys_ext; [exact G| |done]. intros x. apply plus_zset.
  - destruct (idup_ok _ _ _ _ _ e _ _ _ _ _ _ _ c inum0 F Hc ltac:(specialize (Hr inum0); lia)) as (s' & E & G & K).
    exists c, s'. split_and!; [|eapply fsys_ext; [exact G| |done]; intros x; apply plus_zset|by apply K].
    run (curproc_ok me (mkWorld s e) (pc_cur _ _ _ (fsys_ctx _ _ _ _ _ _ _ _ _ _ _ _ F))). run (get_proc_ok me p (mkWorld s e) Hp1). by rewrite Hp2.
Qed.

(** namei() of a path is [resolve] of its components. *)
Lemma namei_ok me pid start lsize e sb s d bs view ref lck l P path inum0
  (F : fsys me pid ROOTDEV start lsize sb s d bs view ref lck) (Hs : path_start s me path inum0)
  (Ht : tree start lsize sb view P) (HP : P inum0) (Hlck : forall x, lck x = false) (Hr : forall x, ref x + 2 < 2 ^ 31 - 1)
  (Hl : forall x, ref x <> 0 -> x ∈ l) (Hlen : (length l < NINODE - 1)%nat) :
  exists s', match resolve sb view inum0 (components path) with
    | Some inum => exists ip, namei path (mkWorld s e) = Ok (Some ip) (mkWorld s' e) /\ cached (k_inodes s') ip inum /\
        fsys me pid ROOTDEV start lsize sb s' d bs view (plus ref inum) lck
    | None => namei path (mkWorld s e) = Ok None (mkWorld s' e) /\ fsys me pid ROOTDEV start lsize sb s' d bs view ref lck
    end.
Proof.
  destruct (namex_start me pid start lsize e sb s d bs view ref lck l path inum0 F Hs Hr Hl Hlen) as (ip & s1 & E1 & G1 & C1).
  destruct (namex_loop_ok me pid ROOTDEV start lsize e sb d bs view P ref lck l Ht Hlck Hr Hl Hlen (length path) path s1 ip inum0 [] ltac:(lia)) as (s2 & nm & H2).
  { by split_and!. }
  exists s2. unfold namei, namex. destruct (resolve sb view inum0 (components path)) as [inum|].
  - destruct H2 as (ip2 & E2 & A2 & C2 & _). exists ip2. split_and!; [|done|done]. rewrite bind_assoc. run E1. by run E2.
  - destruct H2 as (E2 & G2). split; [|done]. rewrite bind_assoc. run E1. by run E2.
Qed.

(** C7: Path names mean what they say: when the directories that can be reached are
    well-formed, namei() follows the components of the path, from the root or
    from the current directory, and returns a reference to the inode that
    looking each up in the directory before it leads to, or nothing when one is
    missing or is looked up in a file; the references to the inodes passed
    through are given back and their locks released.  The inode table has two
    free slots, no inode is locked, and the reference counts are below
    2^31 - 3. *)
Theorem namei_spec me pid start lsize e sb s d bs view ref lck l P path inum0
  (F : fsys me pid ROOTDEV start lsize sb s d bs view ref lck) (Hs : path_start s me path inum0)
  (Ht : tree start lsize sb view P) (HP : P inum0) (Hlck : forall x, lck x = false) (Hr : forall x, ref x + 2 < 2 ^ 31 - 1)
  (Hl : forall x, ref x <> 0 -> x ∈ l) (Hlen : (length l < NINODE - 1)%nat) :
  exists s', match resolve sb view inum0 (components path) with
    | Some inum => exists ip, namei path (mkWorld s e) = Ok (Some ip) (mkWorld s' e) /\ cached (k_inodes s') ip inum /\
        fsys me pid ROOTDEV start lsize sb s' d bs view (plus ref inum) lck
    | None => namei path (mkWorld s e) = Ok None (mkWorld s' e) /\ fsys me pid ROOTDEV start lsize sb s' d bs view ref lck
    end.
Proof. by eapply namei_ok. Qed.
