(* ===== verification/MkfsSpec.v ===== *)
(** The image that mkfs builds is a file system.

    While mkfs runs, its image is read with the bitmap it will write at the end
    ([shown]): then allocating a block by counting [freeblock] up is the
    allocation of the kernel, and the lemmas about the blocks of files in
    FsWrite.v and FsContent.v apply. *)

From Stdlib Require Import FunctionalExtensionality.
From S2P Require Import Prelude Layout Kernel Fs Dir FsAlloc FsFile FsWrite FsContent Mkfs.

(** ** Constants *)

Lemma xint_small x : 0 <= x < 2 ^ 32 -> xint x = x.
Proof.
  intros H. unfold xint, u8. rewrite !Z.shiftr_div_pow2 by lia. cbn [le_val].
  change (2 ^ 8) with 256. change (2 ^ 16) with 65536. change (2 ^ 24) with 16777216. change (2 ^ 32) with 4294967296 in H.
  Z.to_euclidean_division_equations. lia.
Qed.

Lemma xshort_small x : 0 <= x < 2 ^ 16 -> xshort x = x.
Proof.
  intros H. unfold xshort, u8. rewrite !Z.shiftr_div_pow2 by lia. cbn [le_val].
  change (2 ^ 8) with 256. change (2 ^ 16) with 65536 in H. Z.to_euclidean_division_equations. lia.
Qed.

Lemma mkfs_sb_eq : mkfs_sb = mkSuperblock FSMAGIC 2000 1954 200 30 2 32 45.
Proof. vm_compute. reflexivity. Qed.

Notation sb := mkfs_sb.

Lemma sb_size_eq : sb_size sb = 2000.
Proof. by rewrite mkfs_sb_eq. Qed.

Lemma BBLOCK_mkfs b : 0 <= b < 8192 -> BBLOCK b sb = 45.
Proof. intros H. rewrite mkfs_sb_eq. unfold BBLOCK. change BPB with 8192. rewrite Z.div_small by lia. done. Qed.

Lemma IBLOCK_mkfs i : 0 <= i < 208 -> IBLOCK i sb = i / 16 + 32 /\ 32 <= IBLOCK i sb < 45.
Proof.
  intros H. rewrite mkfs_sb_eq. unfold IBLOCK. change IPB with 16. cbn [sb_inodestart].
  rewrite u32_small by (Z.to_euclidean_division_equations; lia). split; [done|]. Z.to_euclidean_division_equations. lia.
Qed.

(** ** The bitmap *)

Lemma length_mark_used n : length (mark_used n zeroes) = 1024%nat.
Proof. induction n as [|n IH]; [done|]. cbn [mark_used]. by rewrite length_bit_set. Qed.

Lemma bit_test_zeroes b : bit_test zeroes b = false.
Proof.
  unfold bit_test, bit_byte, zeroes. rewrite nth_lookup. destruct (replicate _ 0 !! _) as [x|] eqn:E; [|done].
  apply lookup_replicate in E as [-> _]. done.
Qed.

Lemma bit_test_mark n b : Z.of_nat n <= 8192 -> 0 <= b < 8192 -> bit_test (mark_used n zeroes) b = (b <? Z.of_nat n).
Proof.
  intros Hn Hb. induction n as [|n IH]; cbn [mark_used]; [rewrite bit_test_zeroes; symmetry; apply Z.ltb_ge; lia|].
  rewrite bit_test_set by (rewrite ?length_mark_used; lia). rewrite IH by lia. destruct (Z.eqb_spec b (Z.of_nat n)), (Z.ltb_spec b (Z.of_nat n)), (Z.ltb_spec b (Z.of_nat (S n))); done || lia.
Qed.

(** ** The image while it is built *)

(** The image with the bitmap of the blocks allocated so far. *)
Definition shown (st : img) : Z -> block := zset (im_disk st) 45 (mark_used (Z.to_nat (im_freeblock st)) zeroes).

Record building (st : img) : Prop := {
  bd_sb : im_sb st = sb;
  bd_nsect : 2000 <= im_nsect st;
  bd_fb : 46 <= im_freeblock st <= 2000;
  bd_zero b : im_freeblock st <= b < 2000 -> im_disk st b = zero_block;
  bd_len b : 0 <= b < 2000 -> length (im_disk st b) = 1024%nat;
}.

Abbreviation data_block := (data_block 2 30 sb).
Abbreviation fs_ok := (fs_ok 2 30 sb).
Abbreviation file_ok := (file_ok 2 30 sb).
Abbreviation grew := (grew 2 30 sb).
Abbreviation wrote := (wrote 2 30 sb).

Lemma shown_ne st b : b <> 45 -> shown st b = im_disk st b.
Proof. apply zset_ne. Qed.

Lemma used_shown st b : building st -> 0 <= b < 2000 -> used (shown st) sb b = (b <? im_freeblock st).
Proof.
  intros B Hb. pose proof (bd_fb _ B). unfold used. rewrite BBLOCK_mkfs by lia. unfold shown. rewrite zset_eq.
  change BPB with 8192. rewrite Z.mod_small by lia. rewrite bit_test_mark by lia. by rewrite Z2Nat.id by lia.
Qed.

Lemma building_fs_ok st : building st -> fs_ok (shown st).
Proof.
  intros B. pose proof (bd_fb _ B). split; [split|]; rewrite ?sb_size_eq; [lia|..].
  - intros b Hb. rewrite BBLOCK_mkfs by lia. lia.
  - intros b Hb. rewrite used_shown by done. lia.
  - intros b Hb. rewrite BBLOCK_mkfs by lia. unfold shown. rewrite zset_eq. apply length_mark_used.
  - intros b Hb. rewrite used_shown by done. intros Hu. split; [lia|]. intros x Hx. rewrite BBLOCK_mkfs by lia. lia.
Qed.

(** The blocks files can have, and those that hold inodes. *)
Lemma data_block_shown st b : building st -> data_block (shown st) b -> 32 <= b < im_freeblock st /\ b <> 45 \/ b = 1.
Proof.
  intros B (H1 & H2 & H3 & H4). rewrite sb_size_eq in *. rewrite used_shown in H2 by (done || lia).
  specialize (H4 0 ltac:(lia)). rewrite BBLOCK_mkfs in H4 by lia. lia.
Qed.

Lemma inode_block_data st b : building st -> 32 <= b < 45 -> data_block (shown st) b.
Proof.
  intros B Hb. pose proof (bd_fb _ B). split; [rewrite sb_size_eq; lia|]. split; [rewrite used_shown by (done || lia); lia|].
  split; [lia|]. rewrite sb_size_eq. intros x Hx. rewrite BBLOCK_mkfs by lia. lia.
Qed.

(** freeblock++ is balloc(). *)
Lemma shown_next st : building st -> im_freeblock st < 2000 ->
  next_block st = Ok (im_freeblock st) (st <| im_freeblock := im_freeblock st + 1 |>) /\
  building (st <| im_freeblock := im_freeblock st + 1 |>) /\
  shown (st <| im_freeblock := im_freeblock st + 1 |>) = allocated sb (shown st) (im_freeblock st).
Proof.
  intros B Hf. pose proof (bd_fb _ B) as Hfb. split_and!.
  - unfold next_block, upd, upd_im_freeblock. by rewrite u32_small by lia.
  - destruct B. split; cbn; auto; [lia|]. intros b Hb. apply bd_zero0. lia.
  - apply functional_extensionality. intros b. unfold allocated, shown. cbn [im_disk im_freeblock upd upd_im_freeblock].
    rewrite BBLOCK_mkfs by lia. change BPB with 8192. rewrite Z.mod_small by lia. rewrite zset_eq.
    replace (Z.to_nat (im_freeblock st + 1)) with (S (Z.to_nat (im_freeblock st))) by lia. cbn [mark_used]. rewrite Z2Nat.id by lia.
    unfold zset. destruct (Z.eqb_spec b 45) as [Hb|Hb], (Z.eqb_spec b (im_freeblock st)) as [Hn|Hn]; try done; [lia|].
    rewrite Hn. apply (bd_zero _ B). lia.
Qed.

(** Sectors. *)
Lemma sector sec : 0 <= sec < 2000 -> u32 (sec * BSIZE) / BSIZE = sec.
Proof. intros H. change BSIZE with 1024. rewrite u32_small by lia. apply Z.div_mul. lia. Qed.

Lemma rsect_ok st b : building st -> 0 <= b < 2000 -> b <> 45 -> rsect b st = Ok (shown st b) st.
Proof.
  intros B Hb Hn. unfold rsect. rewrite sector by done. pose proof (bd_nsect _ B).
  replace (b <? im_nsect st) with true by lia. by rewrite shown_ne.
Qed.

Lemma wsect_ok st b x : building st -> 0 <= b < im_freeblock st -> b <> 45 -> length x = 1024%nat ->
  exists st', wsect b x st = Ok tt st' /\ building st' /\ shown st' = zset (shown st) b x /\
    im_freeblock st' = im_freeblock st /\ im_freeinode st' = im_freeinode st.
Proof.
  intros B Hb Hn Hx. pose proof (bd_fb _ B). eexists. split; [reflexivity|]. rewrite sector by lia. split_and!; [|..|done|done].
  - destruct B as [B1 B2 B3 B4 B5]. split; cbn; auto; [lia|..].
    + intros c Hc. rewrite zset_ne by lia. auto.
    + intros c Hc. unfold zset. destruct (c =? b); auto.
  - apply functional_extensionality. intros c. unfold shown. cbn [im_disk im_freeblock upd upd_im_disk upd_im_nsect].
    unfold zset. destruct (Z.eqb_spec c 45), (Z.eqb_spec c b); congruence.
Qed.

(** ** Blocks for a file *)

Lemma addr_small st addrs n : building st -> file_ok (shown st) addrs -> 0 <= n <= NDIRECT ->
  0 <= nth (Z.to_nat n) addrs 0 < 2000.
Proof.
  intros B F Hn. change NDIRECT with 12 in Hn. destruct (decide (nth (Z.to_nat n) addrs 0 = 0)) as [->|H0]; [lia|].
  assert (owns (shown st) addrs (nth (Z.to_nat n) addrs 0)) as O.
  { split; [done|]. destruct (decide (n = 12)) as [->|]; [by right|]. left. exists n. change MAXFILE with 268.
    split; [lia|]. unfold fblock. change NDIRECT with 12. by replace (n <? 12) with true by lia. }
  destruct (fo_data _ _ _ _ _ F _ O) as [(D & _) _]. rewrite sb_size_eq in D. lia.
Qed.

Lemma fblock_small st addrs k : building st -> file_ok (shown st) addrs -> 0 <= k < MAXFILE ->
  0 <= fblock (shown st) addrs k < im_freeblock st /\ fblock (shown st) addrs k <> 45.
Proof.
  intros B F Hk. pose proof (bd_fb _ B). destruct (decide (fblock (shown st) addrs k = 0)) as [->|H0]; [lia|].
  destruct (fo_data _ _ _ _ _ F _ (owned_block _ _ _ Hk H0)) as [D _]. apply (data_block_shown _ _ B) in D. lia.
Qed.

Definition with_addrs (din : dinode) (addrs : list Z) : dinode :=
  mkDinode (di_type din) (di_major din) (di_minor din) (di_nlink din) (di_size din) addrs.

(** The blocks that are new in [k]-th place: the block, and the table for it. *)
Definition need (view : Z -> block) (addrs : list Z) (k : Z) : Z :=
  (if fblock view addrs k =? 0 then 1 else 0) +
  (if (NDIRECT <=? k) && (nth (Z.to_nat NDIRECT) addrs 0 =? 0) then 1 else 0).

(** A round of the allocation, from [st] to [st']. *)
Record gave (st : img) (addrs : list Z) (st' : img) (addrs' : list Z) (k : Z) : Prop := {
  gv_building : building st';
  gv_grew : grew (shown st) addrs (shown st') addrs' k;
  gv_fb : im_freeblock st' = im_freeblock st + need (shown st) addrs k;
  gv_fi : im_freeinode st' = im_freeinode st;
  gv_zero : fblock (shown st) addrs k = 0 -> shown st' (fblock (shown st') addrs' k) = zero_block;
  gv_table : nth (Z.to_nat NDIRECT) addrs' 0 = 0 <-> k < NDIRECT /\ nth (Z.to_nat NDIRECT) addrs 0 = 0;
  gv_log b : 2 <= b < 32 -> shown st' b = shown st b;
}.

(** The log stays as it is. *)
Lemma log_next st b : building st -> 2 <= b < 32 -> allocated sb (shown st) (im_freeblock st) b = shown st b.
Proof. intros B Hb. pose proof (bd_fb _ B). unfold allocated. rewrite BBLOCK_mkfs, !zset_ne by lia. done. Qed.

Lemma free_next st : building st -> im_freeblock st < 2000 ->
  0 <= im_freeblock st < sb_size sb /\ used (shown st) sb (im_freeblock st) = false.
Proof.
  intros B Hf. pose proof (bd_fb _ B). rewrite sb_size_eq, used_shown by (done || lia). split; [lia|]. apply Z.ltb_irrefl.
Qed.

Lemma direct_block v addrs k : 0 <= k < NDIRECT -> fblock v addrs k = nth (Z.to_nat k) addrs 0.
Proof. intros Hk. unfold fblock. by replace (k <? NDIRECT) with true by lia. Qed.

Lemma need_direct v addrs k : 0 <= k < NDIRECT -> need v addrs k = if nth (Z.to_nat k) addrs 0 =? 0 then 1 else 0.
Proof. intros Hk. unfold need. rewrite direct_block by done. replace (NDIRECT <=? k) with false by lia. cbn. lia. Qed.

(** Nothing new is needed. *)
Lemma gave_nothing st addrs k : building st -> file_ok (shown st) addrs -> fblock (shown st) addrs k <> 0 ->
  k < NDIRECT \/ nth (Z.to_nat NDIRECT) addrs 0 <> 0 -> gave st addrs st addrs k.
Proof.
  intros B F H0 Hk. split; [done|..|done| | |done].
  - apply grew_refl; auto. by apply building_fs_ok.
  - unfold need. destruct (Z.eqb_spec (fblock (shown st) addrs k) 0); [done|].
    destruct (Z.leb_spec NDIRECT k), (Z.eqb_spec (nth (Z.to_nat NDIRECT) addrs 0) 0); cbn; lia.
  - done.
  - intuition lia.
Qed.

(** A direct block. *)
Lemma gave_direct st addrs k (b := im_freeblock st) (st' := st <| im_freeblock := b + 1 |>) :
  building st -> file_ok (shown st) addrs -> 0 <= k < NDIRECT -> b < 2000 -> nth (Z.to_nat k) addrs 0 = 0 ->
  next_block st = Ok b st' /\ gave st addrs st' (<[Z.to_nat k := b]> addrs) k.
Proof.
  intros B F Hk Hb H0. destruct (shown_next st B Hb) as (E & B' & V). destruct (free_next st B Hb) as [R1 R2]. fold b st' in E, B', V.
  split; [exact E|]. split; [done|..]; rewrite ?V.
  - apply grew_direct; auto; [by apply building_fs_ok|by rewrite direct_block].
  - rewrite need_direct, H0 by done. done.
  - done.
  - intros _. rewrite direct_block by done. change NDIRECT with 12 in Hk. rewrite nth_insert_eq by (rewrite (fo_len _ _ _ _ _ F); lia). apply zset_eq.
  - rewrite nth_insert_ne by lia. intuition lia.
  - intros x Hx. by apply log_next.
Qed.

Lemma iappend_direct st din k : building st -> file_ok (shown st) (di_addrs din) -> 0 <= k < NDIRECT ->
  im_freeblock st + need (shown st) (di_addrs din) k <= 2000 ->
  exists st' addrs', iappend_block din k st = Ok (with_addrs din addrs', fblock (shown st') addrs' k) st' /\
    gave st (di_addrs din) st' addrs' k.
Proof.
  intros B F Hk Hroom. pose proof (bd_fb _ B) as Hfb. pose proof (addr_small _ _ k B F ltac:(lia)) as Hs.
  unfold iappend_block. replace (k <? NDIRECT) with true by lia. unfold get_addr at 1. rewrite xint_small by lia.
  rewrite need_direct in Hroom by done. destruct (Z.eqb_spec (nth (Z.to_nat k) (di_addrs din) 0) 0) as [H0|H0].
  - destruct (gave_direct st (di_addrs din) k B F Hk ltac:(lia) H0) as [E G]. eexists _, _. split; [|exact G].
    rewrite bind_assoc. run E. rewrite xint_small by lia. unfold bind, ret, set_addr, get_addr, with_addrs. cbn [di_addrs].
    rewrite direct_block by done. change NDIRECT with 12 in Hk. rewrite nth_insert_eq, xint_small by (rewrite ?(fo_len _ _ _ _ _ F); lia). done.
  - exists st, (di_addrs din). split; [|apply gave_nothing; rewrite ?direct_block by done; auto; lia].
    unfold bind, ret, get_addr, with_addrs. rewrite direct_block, xint_small by (done || lia). by destruct din.
Qed.

(** A block of the table. *)
Lemma gave_new_entry st addrs k (a := nth (Z.to_nat NDIRECT) addrs 0) (b := im_freeblock st) :
  building st -> file_ok (shown st) addrs -> NDIRECT <= k < MAXFILE -> a <> 0 -> b < 2000 -> ind_get (shown st a) (k - NDIRECT) = 0 ->
  exists st1 st', next_block st = Ok b st1 /\ wsect a (ind_set (k - NDIRECT) b (shown st a)) st1 = Ok tt st' /\
    fblock (shown st') addrs k = b /\ gave st addrs st' addrs k.
Proof.
  intros B F Hk Ha Hb H0. pose proof (bd_fb _ B) as Hfb. fold b in Hfb. change (NDIRECT <= k < 268) in Hk.
  destruct (ind_data _ _ _ _ _ F Ha) as [Hda Hla]. fold a in Hda, Hla.
  destruct (shown_next st B Hb) as (E & B' & V). destruct (free_next st B Hb) as [R1 R2]. fold b in E, B', V, R1, R2.
  set (st1 := st <| im_freeblock := b + 1 |>) in *. pose proof (data_block_shown _ _ B Hda) as Ha2. fold b in Ha2.
  destruct (wsect_ok st1 a (ind_set (k - NDIRECT) b (shown st a)) B') as (st' & E' & B2 & V' & Eb & Ei).
  { change (im_freeblock st1) with (b + 1). lia. }
  { lia. }
  { unfold ind_set. change NDIRECT with 12 in *. rewrite length_wrn; lia. }
  assert (fblock (shown st) addrs k = 0) as Hfk.
  { unfold fblock. fold a. replace (k <? NDIRECT) with false by lia. by destruct (Z.eqb_spec a 0). }
  assert (shown st1 a = shown st a) as Hv1 by (rewrite V; by apply fresh_keep with (start := 2) (lsize := 30); [apply building_fs_ok|..]).
  assert (fblock (shown st') addrs k = b) as Hnew.
  { rewrite V', <- Hv1. apply fblock_indirect; [done|done|lia|fold a; by rewrite Hv1]. }
  exists st1, st'. split_and!; [done..|]. split; auto.
  - rewrite V', V. by apply grew_indirect; [|apply building_fs_ok|..|lia].
  - rewrite Eb. unfold need. rewrite Hfk. fold a. replace (a =? 0) with false by lia. rewrite andb_false_r. done.
  - intros _. rewrite Hnew, V', zset_ne, V by lia. apply zset_eq.
  - fold a. intuition lia.
  - intros x Hx. rewrite V', zset_ne, V by lia. by apply log_next.
Qed.

Lemma iappend_entry st din k (addrs := di_addrs din) (a := nth (Z.to_nat NDIRECT) addrs 0) :
  building st -> file_ok (shown st) addrs -> NDIRECT <= k < MAXFILE -> a <> 0 -> im_freeblock st + need (shown st) addrs k <= 2000 ->
  exists st', (let* indirect := rsect (xint (get_addr din NDIRECT)) in
    let* indirect :=
      (if ind_get indirect (k - NDIRECT) =? 0 then
         let* b := next_block in
         let indirect := ind_set (k - NDIRECT) (xint b) indirect in
         wsect (xint (get_addr din NDIRECT)) indirect ;; ret indirect
       else ret indirect) in
    ret (din, xint (ind_get indirect (k - NDIRECT))))%M st = Ok (din, fblock (shown st') addrs k) st' /\ gave st addrs st' addrs k.
Proof.
  intros B F Hk Ha Hroom. pose proof (bd_fb _ B) as Hfb. change (NDIRECT <= k < 268) in Hk.
  pose proof (addr_small _ _ NDIRECT B F ltac:(change NDIRECT with 12; lia)) as Hs. fold a in Hs.
  destruct (ind_data _ _ _ _ _ F Ha) as [Hda Hla]. fold a in Hda, Hla. pose proof (data_block_shown _ _ B Hda) as Ha2.
  unfold get_addr. fold addrs a. rewrite !xint_small by lia. run (rsect_ok st a B ltac:(lia) ltac:(lia)).
  assert (fblock (shown st) addrs k = ind_get (shown st a) (k - NDIRECT)) as Hfk.
  { unfold fblock. fold a. replace (k <? NDIRECT) with false by lia. by destruct (Z.eqb_spec a 0). }
  unfold need in Hroom. rewrite Hfk in Hroom. destruct (Z.eqb_spec (ind_get (shown st a) (k - NDIRECT)) 0) as [H0|H0].
  - destruct (gave_new_entry st addrs k B F Hk Ha ltac:(destruct (_ && _); lia) H0) as (st1 & st' & E1 & E2 & Hb & G). fold a in E2.
    exists st'. split; [|exact G]. rewrite bind_assoc. run E1. rewrite xint_small by lia. rewrite bind_assoc. run E2.
    unfold bind, ret. rewrite Hb. unfold ind_get, ind_set. change NDIRECT with 12 in *. rewrite rdn_wrn_same by lia.
    rewrite xint_small; rewrite Z.mod_small; cbn; done || lia.
  - exists st. split; [|apply gave_nothing; auto; by rewrite Hfk].
    unfold bind, ret. rewrite Hfk. pose proof (fblock_small st addrs k B F ltac:(change NDIRECT with 12 in *; change MAXFILE with 268; lia)). rewrite Hfk in *. rewrite xint_small by lia. done.
Qed.

(** The table comes first. *)
Lemma gave_table st addrs k (b := im_freeblock st) (st1 := st <| im_freeblock := b + 1 |>) (addrs1 := <[Z.to_nat NDIRECT := b]> addrs) :
  building st -> file_ok (shown st) addrs -> NDIRECT <= k < MAXFILE -> nth (Z.to_nat NDIRECT) addrs 0 = 0 -> b < 2000 ->
  next_block st = Ok b st1 /\ building st1 /\ file_ok (shown st1) addrs1 /\ nth (Z.to_nat NDIRECT) addrs1 0 = b /\
  need (shown st) addrs k = need (shown st1) addrs1 k + 1 /\
  forall st' addrs', gave st1 addrs1 st' addrs' k -> gave st addrs st' addrs' k.
Proof.
  intros B F Hk Ha Hb. pose proof (bd_fb _ B) as Hfb. destruct (shown_next st B Hb) as (E & B' & V). destruct (free_next st B Hb) as [R1 R2].
  fold b st1 in E, B', V, R1, R2. pose proof (kept_table 2 30 sb (shown st) addrs b F (building_fs_ok _ B) R1 R2 Ha) as K.
  rewrite <- V in K. fold addrs1 in K.
  assert (nth (Z.to_nat NDIRECT) addrs1 0 = b) as Hn by (apply nth_insert_eq; rewrite (fo_len _ _ _ _ _ F); change NDIRECT with 12; lia).
  assert (need (shown st) addrs k = need (shown st1) addrs1 k + 1) as Hneed.
  { unfold need. rewrite (ke_same _ _ _ _ _ _ _ K), Ha, Hn by (change NDIRECT with 12 in Hk; lia). replace (NDIRECT <=? k) with true by lia.
    replace (b =? 0) with false by lia. cbn. lia. }
  split_and!; [done|done|apply K|done|done|]. intros st' addrs' [G1 G2 G3 G4 G5 G6 G7]. split; auto.
  - by eapply kept_grew.
  - rewrite G3, Hneed. change (im_freeblock st1) with (b + 1). fold b. lia.
  - intros H0. apply G5. rewrite (ke_same _ _ _ _ _ _ _ K); [done|]. change NDIRECT with 12 in Hk. lia.
  - rewrite G6. intuition lia.
  - intros x Hx. rewrite G7, V by done. by apply log_next.
Qed.

(** A block of a file, with those allocated for it. *)
Lemma iappend_block_ok st din k (addrs := di_addrs din) : building st -> file_ok (shown st) addrs -> 0 <= k < MAXFILE ->
  im_freeblock st + need (shown st) addrs k <= 2000 ->
  exists st' addrs', iappend_block din k st = Ok (with_addrs din addrs', fblock (shown st') addrs' k) st' /\ gave st addrs st' addrs' k.
Proof.
  intros B F Hk Hroom. destruct (Z.lt_ge_cases k NDIRECT) as [Hd|Hd]; [apply iappend_direct; auto; lia|].
  pose proof (bd_fb _ B) as Hfb. pose proof (addr_small _ _ NDIRECT B F ltac:(change NDIRECT with 12; lia)) as Hs.
  unfold iappend_block. replace (k <? NDIRECT) with false by lia. unfold get_addr at 1. fold addrs. rewrite xint_small by lia.
  destruct (Z.eqb_spec (nth (Z.to_nat NDIRECT) addrs 0) 0) as [Ha|Ha].
  - assert (1 <= need (shown st) addrs k) as Hn1.
    { unfold need. rewrite Ha. replace (NDIRECT <=? k) with true by lia. destruct (_ =? 0); cbn; lia. }
    destruct (gave_table st addrs k B F ltac:(lia) Ha ltac:(lia)) as (E & B1 & F1 & Hn & Hneed & G).
    set (st1 := st <| im_freeblock := im_freeblock st + 1 |>) in *. set (addrs1 := <[Z.to_nat NDIRECT := im_freeblock st]> addrs) in *.
    destruct (iappend_entry st1 (with_addrs din addrs1) k B1 F1 ltac:(lia)) as (st' & E' & G'); [cbn [di_addrs with_addrs]; lia|..].
    { cbn [di_addrs with_addrs]. change (im_freeblock st1) with (im_freeblock st + 1). lia. }
    exists st', addrs1. split; [|by apply G]. rewrite bind_assoc. run E. rewrite xint_small by lia. exact E'.
  - destruct (iappend_entry st din k B F ltac:(lia) Ha Hroom) as (st' & E' & G'). exists st', addrs. split; [|exact G'].
    rewrite (bind_ok (ret din) _ _ _ _ eq_refl). etrans; [exact E'|]. by destruct din.
Qed.

(** ** Appending to a file *)

(** The blocks a file of [s] bytes has, with its table. *)
Definition nblk (s : Z) : Z := (s + 1023) / 1024 + (if 12288 <? s then 1 else 0).

(** The file has the blocks for [size] bytes, filled up with zeroes. *)
Record dense (view : Z -> block) (addrs : list Z) (size : Z) : Prop := {
  dn_blocks k : 0 <= k < MAXFILE -> fblock view addrs k <> 0 <-> k * 1024 < size;
  dn_table : nth (Z.to_nat NDIRECT) addrs 0 <> 0 <-> 12288 < size;
  dn_tail x : size <= x < (size + 1023) / 1024 * 1024 -> fbyte view addrs x = 0;
}.

Section Round.
Context (off m : Z).
Hypothesis Hoff : 0 <= off.
Hypothesis Hm : 0 < m /\ off mod 1024 + m <= 1024.
Hypothesis Hmax : off / 1024 < MAXFILE.

Lemma round_k : 0 <= off / 1024 < MAXFILE.
Proof. split; [|done]. apply Z.div_pos; lia. Qed.

Lemma need_dense view addrs : dense view addrs off -> need view addrs (off / 1024) = nblk (off + m) - nblk off.
Proof.
  intros [D1 D2 _]. specialize (D1 _ round_k). unfold need, nblk. change NDIRECT with 12 in *. change MAXFILE with 268 in Hmax.
  destruct (Z.eqb_spec (fblock view addrs (off / 1024)) 0), (Z.eqb_spec (nth (Z.to_nat 12) addrs 0) 0),
    (Z.leb_spec 12 (off / 1024)), (Z.ltb_spec 12288 (off + m)), (Z.ltb_spec 12288 off); cbn [andb]; Z.to_euclidean_division_equations; lia.
Qed.

Lemma round_block k : (k * 1024 < off \/ k = off / 1024) <-> k * 1024 < off + m.
Proof. Z.to_euclidean_division_equations. lia. Qed.

Lemma round_tail x : off + m <= x < (off + m + 1023) / 1024 * 1024 ->
  x / 1024 = off / 1024 /\ off mod 1024 + m <= x mod 1024 /\ (off mod 1024 <> 0 -> off <= x < (off + 1023) / 1024 * 1024).
Proof. intros Hx. Z.to_euclidean_division_equations. lia. Qed.

Lemma dense_block st addrs st1 addrs1 w (b := fblock (shown st1) addrs1 (off / 1024)) : gave st addrs st1 addrs1 (off / 1024) -> dense (shown st) addrs off ->
  Z.of_nat (length w) = m ->
  dense (zset (shown st1) b (wrb (shown st1 b) (Z.to_nat (off mod 1024)) w)) addrs1 (off + m).
Proof.
  intros [_ [Gf Gs Gn Gsame Gnone _ _] _ _ Gz Gt _] [D1 D2 D3] Hw. set (x := wrb _ _ _). pose proof round_k as Hk.
  pose proof (set_fblock 2 30 sb (shown st1) addrs1 (off / 1024) x Gf Hk Gn) as Hfb. fold b in Hfb.
  pose proof (Z.mod_pos_bound off 1024 ltac:(lia)) as Hmod.
  destruct (fo_data _ _ _ _ _ Gf b (set_owned _ _ _ Hk Gn)) as [Hdb Hlb].
  split.
  - intros k Hk'. rewrite Hfb, <- round_block, <- D1 by done. destruct (decide (k = off / 1024)) as [->|Hne]; [intuition|].
    destruct (decide (fblock (shown st) addrs k = 0)) as [E|E]; [rewrite Gnone by done; intuition|]. destruct (Gsame k Hk' E) as [-> _]. intuition.
  - change NDIRECT with 12 in *. rewrite Gt. specialize (D1 _ Hk). clear - D2 Hm Hoff. Z.to_euclidean_division_equations. lia.
  - intros y Hy. destruct (round_tail y Hy) as (E & Hge & Ht).
    pose proof (set_fbyte_in 2 30 sb (shown st1) addrs1 (off / 1024) x Gf Hk Gn y E) as Hin. fold b in Hin. rewrite Hin. unfold x. change BSIZE with 1024.
    rewrite nth_wrb by lia. rewrite decide_False by lia.
    destruct (decide (fblock (shown st) addrs (off / 1024) = 0)) as [E0|E0].
    + unfold b. rewrite Gz by done. unfold zero_block. rewrite nth_lookup. destruct (replicate _ _ !! _) eqn:L; [|done].
      by apply lookup_replicate in L as [-> _].
    + destruct (Gsame _ Hk E0) as [Ea Eb]. transitivity (fbyte (shown st) addrs y).
      * unfold fbyte, b. change BSIZE with 1024. by rewrite E, Ea, Eb.
      * apply D3, Ht. apply D1 in E0; [|done]. Z.to_euclidean_division_equations. lia.
Qed.
End Round.

Lemma nblk_mono a b : a <= b -> nblk a <= nblk b.
Proof. intros H. unfold nblk. destruct (Z.ltb_spec 12288 a), (Z.ltb_spec 12288 b); Z.to_euclidean_division_equations; lia. Qed.

(** [p] was appended to the file of [off] bytes. *)
Record appended (st : img) (addrs : list Z) (st' : img) (addrs' : list Z) (off : Z) (p : list Z) : Prop := {
  ap_building : building st';
  ap_wrote : wrote (shown st) addrs (shown st') addrs' off p;
  ap_dense : dense (shown st') addrs' (off + Z.of_nat (length p));
  ap_fb : im_freeblock st' = im_freeblock st + (nblk (off + Z.of_nat (length p)) - nblk off);
  ap_fi : im_freeinode st' = im_freeinode st;
  ap_log b : 2 <= b < 32 -> shown st' b = shown st b;
}.

Lemma appended_nil st addrs off : building st -> file_ok (shown st) addrs -> dense (shown st) addrs off -> appended st addrs st addrs off [].
Proof.
  intros B F D. split; cbn; rewrite ?Z.add_0_r; auto; [|lia]. by apply wrote_nothing; [|apply building_fs_ok].
Qed.

Lemma appended_app st addrs st1 addrs1 st2 addrs2 off p q : 0 <= off ->
  off + Z.of_nat (length p) + Z.of_nat (length q) <= MAXFILE * BSIZE ->
  appended st addrs st1 addrs1 off p -> appended st1 addrs1 st2 addrs2 (off + Z.of_nat (length p)) q ->
  appended st addrs st2 addrs2 off (p ++ q).
Proof.
  intros Ho Hm [A1 A2 A3 A4 A5 A6] [B1 B2 B3 B4 B5 B6].
  split; rewrite ?length_app, ?Nat2Z.inj_add, ?Z.add_assoc; auto; [by eapply wrote_then|lia|congruence|].
  intros b Hb. by rewrite B6, A6.
Qed.

(** A round of the loop. *)
Lemma iappend_round st din off w (addrs := di_addrs din) (o := Z.to_nat (off - off / BSIZE * BSIZE)) :
  building st -> file_ok (shown st) addrs -> dense (shown st) addrs off -> 0 <= off ->
  0 < Z.of_nat (length w) -> off mod BSIZE + Z.of_nat (length w) <= BSIZE -> off / BSIZE < MAXFILE ->
  im_freeblock st + (nblk (off + Z.of_nat (length w)) - nblk off) <= 2000 ->
  exists st' addrs', (forall A (k : dinode -> H A),
    (let* r := iappend_block din (off / BSIZE) in let* buf := rsect r.2 in wsect r.2 (wrb buf o w) ;; k r.1)%M st = k (with_addrs din addrs') st') /\
    appended st addrs st' addrs' off w.
Proof.
  intros B F D Ho Hw Hmod Hmax Hroom. change BSIZE with 1024 in *. pose proof (bd_fb _ B) as Hfb.
  assert (Z.to_nat (off - off / 1024 * 1024) = Z.to_nat (off mod 1024)) as Eo by (f_equal; Z.to_euclidean_division_equations; lia).
  unfold o. rewrite Eo. clear o Eo. pose proof (round_k off Ho Hmax) as Hk.
  pose proof (need_dense off _ Ho (conj Hw Hmod) Hmax _ _ D) as Hneed.
  destruct (iappend_block_ok st din (off / 1024) B F Hk ltac:(fold addrs; lia)) as (st1 & addrs1 & E1 & G). fold addrs in G.
  pose proof (gv_grew _ _ _ _ _ G) as Gr. pose proof (gv_building _ _ _ _ _ G) as B1.
  set (b := fblock (shown st1) addrs1 (off / 1024)) in *.
  destruct (fblock_small st1 addrs1 (off / 1024) B1 (gr_file _ _ _ _ _ _ _ _ Gr) Hk) as [Hb1 Hb2]. fold b in Hb1, Hb2.
  pose proof (bd_fb _ B1) as Hfb1. destruct (fo_data _ _ _ _ _ (gr_file _ _ _ _ _ _ _ _ Gr) b (set_owned _ _ _ Hk (gr_new _ _ _ _ _ _ _ _ Gr))) as [Hdb Hlb].
  set (x := wrb (shown st1 b) (Z.to_nat (off mod 1024)) w).
  pose proof (Z.mod_pos_bound off 1024 ltac:(lia)) as Hpos.
  destruct (wsect_ok st1 b x B1 Hb1 Hb2) as (st' & E2 & B' & V & Eb & Ei); [unfold x; rewrite length_wrb; lia|].
  exists st', addrs1. split.
  - intros A k. run E1. cbn [fst snd]. run (rsect_ok st1 b B1 ltac:(lia) Hb2). fold x. by run E2.
  - split; rewrite ?V; auto.
    + apply wrote_block; [done..|exact Gr].
    + by apply (dense_block off _ Ho (conj Hw Hmod) Hmax st addrs).
    + rewrite Eb, (gv_fb _ _ _ _ _ G). lia.
    + rewrite Ei. exact (gv_fi _ _ _ _ _ G).
    + intros c Hc. pose proof (data_block_shown _ _ B1 Hdb). rewrite zset_ne by lia. by apply (gv_log _ _ _ _ _ G).
Qed.

Lemma iappend_loop_ok f : forall st din off p (addrs := di_addrs din) (n := Z.of_nat (length p)),
  building st -> file_ok (shown st) addrs -> dense (shown st) addrs off -> 0 <= off -> off + n <= MAXFILE * BSIZE ->
  im_freeblock st + (nblk (off + n) - nblk off) <= 2000 -> rounds f off n ->
  exists st' addrs', iappend_loop f din off p st = Ok (with_addrs din addrs', off + n) st' /\ appended st addrs st' addrs' off p.
Proof.
  change (MAXFILE * BSIZE) with 274432. induction f as [|f IH]; intros st din off p addrs n B F D Ho Hmax Hroom Hr; [destruct Hr; lia|].
  cbn [iappend_loop]. destruct p as [|c p'].
  { exists st, addrs. split; [|by apply appended_nil]. cbn. rewrite Z.add_0_r. by destruct din. }
  assert (0 < n) as Hn by (unfold n; cbn; lia). remember (c :: p') as p eqn:Ep. clear Ep.
  destruct (rounds_step f off n Ho Hn Hr) as (Hm1 & Hm2 & Hr'). set (m := Z.min n (BSIZE - off mod BSIZE)) in *.
  assert (off / BSIZE < MAXFILE) as Hk by (change BSIZE with 1024; change MAXFILE with 268; Z.to_euclidean_division_equations; lia).
  replace (off / BSIZE <? MAXFILE) with true by lia. cbn [negb].
  replace (Z.min (Z.of_nat (length p)) ((off / BSIZE + 1) * BSIZE - off)) with m
    by (unfold m, n; change BSIZE with 1024; clear; Z.to_euclidean_division_equations; lia).
  assert (Z.of_nat (length (take (Z.to_nat m) p)) = m) as Hw by (rewrite length_take; unfold n in *; lia).
  assert (Z.of_nat (length (drop (Z.to_nat m) p)) = n - m) as Hd by (rewrite length_drop; unfold n in *; lia).
  pose proof (nblk_mono (off + m) (off + n) ltac:(lia)) as Hmono.
  destruct (iappend_round st din off (take (Z.to_nat m) p)) as (st1 & addrs1 & E1 & A1); rewrite ?Hw; auto; try lia.
  pose proof A1 as [B1 W1 D1 F1 _ _]. rewrite Hw in D1, F1.
  destruct (IH st1 (with_addrs din addrs1) (off + m) (drop (Z.to_nat m) p)) as (st' & addrs' & E2 & A'); rewrite ?Hd; cbn [di_addrs with_addrs]; auto; try lia.
  { apply W1. }
  { rewrite F1. replace (off + m + (n - m)) with (off + n) by lia. lia. }
  exists st', addrs'. rewrite u32_small by lia. split.
  - rewrite (E1 _ (fun d => iappend_loop f d (off + m) (drop (Z.to_nat m) p))). etrans; [exact E2|]. cbn. rewrite Hd. do 2 f_equal. lia.
  - rewrite <- (take_drop (Z.to_nat m) p). eapply appended_app; [lia|rewrite Hw, Hd; change (MAXFILE * BSIZE) with 274432; lia|exact A1|].
    rewrite Hw. exact A'.
Qed.
