(* ===== verification/MkfsImage.v ===== *)
(** The files of the image that mkfs builds: inodes, directory entries and
    contents, and what the finished image holds. *)

From S2P Require Import Prelude Layout Kernel Fs Dir FsAlloc FsFile FsWrite FsContent Mkfs MkfsSpec.

(** ** Files of an image *)

(** The file with inode number [inum]: its inode, its blocks and its bytes. *)
Record mfile : Type := mkMfile { mf_type : Z; mf_bytes : list Z; mf_addrs : list Z }.

Abbreviation mf_size f := (Z.of_nat (length (mf_bytes f))).

Definition file_inode (f : mfile) : dinode := mkDinode (mf_type f) 0 0 1 (mf_size f) (mf_addrs f).
Definition slot (view : Z -> block) (inum : Z) : dinode := dip_read (view (IBLOCK inum sb)) (dip_off inum).

(** The blocks that are no file's: the superblock and the inodes. *)
Definition meta (b : Z) : Prop := b = 1 \/ 32 <= b < 45.

Record is_file (view : Z -> block) (f : mfile) : Prop := {
  if_type : 0 <= mf_type f < 2 ^ 15;
  if_max : mf_size f <= MAXFILE * BSIZE;
  if_ok : file_ok view (mf_addrs f);
  if_dense : dense view (mf_addrs f) (mf_size f);
  if_bytes : fbytes view (mf_addrs f) 0 (length (mf_bytes f)) = mf_bytes f;
  if_meta b : meta b -> ~ owns view (mf_addrs f) b;
}.

(** The block holds what it held. *)
Section Agree.
Context (view view' : Z -> block) (addrs : list Z).
Hypothesis Hag : forall b, owns view addrs b -> view' b = view b.

Lemma agree_fblock j : fblock view' addrs j = fblock view addrs j.
Proof.
  unfold fblock. destruct (j <? NDIRECT); [done|]. destruct (Z.eqb_spec (nth (Z.to_nat NDIRECT) addrs 0) 0) as [|Ha]; [done|].
  rewrite Hag; [done|]. split; [done|]. by right.
Qed.

Lemma agree_owns b : owns view' addrs b <-> owns view addrs b.
Proof. unfold owns. by setoid_rewrite agree_fblock. Qed.

Lemma agree_fbyte y : 0 <= y / BSIZE < MAXFILE -> fblock view addrs (y / BSIZE) <> 0 -> fbyte view' addrs y = fbyte view addrs y.
Proof. intros Hy H0. unfold fbyte. rewrite agree_fblock, Hag; [done|]. by apply owned_block. Qed.

Lemma agree_file_ok : file_ok view addrs -> (forall b, owns view addrs b -> data_block view' b) -> file_ok view' addrs.
Proof.
  intros [F1 F2 F3 F4] Hd. split; [done|..].
  - intros b Hb%agree_owns. rewrite Hag by done. split; [by apply Hd|]. by apply F2.
  - intros j j'. rewrite !agree_fblock. apply F3.
  - intros j. rewrite agree_fblock. apply F4.
Qed.
End Agree.

Lemma file_pos x n : 0 <= x < n -> n <= 274432 -> 0 <= x / 1024 < MAXFILE /\ x / 1024 * 1024 < n.
Proof. intros H1 H2. change MAXFILE with 268. Z.to_euclidean_division_equations. lia. Qed.

Lemma tail_pos x n : 0 <= n -> n <= x < (n + 1023) / 1024 * 1024 -> n <= 274432 -> 0 <= x / 1024 < MAXFILE /\ x / 1024 * 1024 < n.
Proof. intros H0 H1 H2. change MAXFILE with 268. Z.to_euclidean_division_equations. lia. Qed.

Lemma is_file_agree view view' f : is_file view f ->
  (forall b, owns view (mf_addrs f) b -> view' b = view b /\ data_block view' b) -> is_file view' f.
Proof.
  intros [I1 I2 I3 [D1 D2 D3] I5 I6] H. set (addrs := mf_addrs f) in *. change (MAXFILE * BSIZE) with 274432 in *.
  assert (forall b, owns view addrs b -> view' b = view b) as Hag by (intros b Hb; by apply H).
  split; auto.
  - apply (agree_file_ok view); auto. intros b Hb. by apply H.
  - split; [intros k; rewrite (agree_fblock view) by done; apply D1|done|]. intros x Hx.
    destruct (tail_pos x (mf_size f) ltac:(lia) Hx I2) as [P1 P2]. rewrite (agree_fbyte view) by (auto; by apply D1).
    by apply D3.
  - rewrite <- I5 at 2. apply list_fmap_ext. intros i y [-> Hi]%lookup_seq. destruct (file_pos (Z.of_nat i) (mf_size f) ltac:(lia) I2) as [P1 P2].
    apply (agree_fbyte view); auto. by apply D1.
  - intros b Hb Ho. apply (I6 b Hb). by apply (agree_owns view view').
Qed.

(** ** The layout *)

Definition total (fs : list mfile) : Z := foldr (fun f a => nblk (mf_size f) + a) 0 fs.

Lemma total_cons f fs : total (f :: fs) = nblk (mf_size f) + total fs.
Proof. done. Qed.

Lemma total_app fs gs : total (fs ++ gs) = total fs + total gs.
Proof. induction fs as [|f fs IH]; [done|]. cbn [app]. rewrite !total_cons. lia. Qed.

Lemma total_insert fs i f g : fs !! i = Some f -> total (<[i := g]> fs) = total fs - nblk (mf_size f) + nblk (mf_size g).
Proof.
  revert i. induction fs as [|h fs IH]; intros [|i] Hi; [done..| |].
  - injection Hi as ->. change (<[O := g]> (f :: fs)) with (g :: fs). rewrite !total_cons. lia.
  - change (<[S i := g]> (h :: fs)) with (h :: <[i := g]> fs). rewrite !total_cons, (IH i Hi). lia.
Qed.

(** The image has the files [fs], with the inode numbers from 1 on; the inode of
    [skip] is still to be written. *)
Record layout_but (skip : option nat) (st : img) (fs : list mfile) : Prop := {
  ly_building : building st;
  ly_count : im_freeinode st = 1 + Z.of_nat (length fs);
  ly_few : (length fs < 200)%nat;
  ly_slot i f : fs !! i = Some f -> skip <> Some i -> slot (shown st) (1 + Z.of_nat i) = file_inode f;
  ly_file i f : fs !! i = Some f -> is_file (shown st) f;
  ly_apart i j f g b : fs !! i = Some f -> fs !! j = Some g -> i <> j ->
    owns (shown st) (mf_addrs f) b -> ~ owns (shown st) (mf_addrs g) b;
  ly_blocks : im_freeblock st = 46 + total fs;
  ly_free inum : 1 + Z.of_nat (length fs) <= inum < 200 -> di_type (slot (shown st) inum) = 0;
  ly_sb : shown st 1 = wrb zeroes 0 (sb_bytes sb);
  ly_log b : 2 <= b < 32 -> shown st b = zero_block;
}.

Abbreviation layout := (layout_but None).

Lemma meta_data st b : building st -> meta b -> data_block (shown st) b.
Proof.
  intros B Hb. pose proof (bd_fb _ B). unfold meta in Hb. split; [rewrite sb_size_eq; lia|]. split; [rewrite used_shown by (done || lia); lia|].
  split; [lia|]. rewrite sb_size_eq. intros x Hx. rewrite BBLOCK_mkfs by lia. lia.
Qed.

Definition inode_fits (di : dinode) : Prop :=
  0 <= di_type di < 2 ^ 15 /\ di_major di = 0 /\ di_minor di = 0 /\ di_nlink di = 1 /\ 0 <= di_size di < 2 ^ 32 /\
  length (di_addrs di) = 13%nat /\ Forall (fun a => 0 <= a < 2 ^ 32) (di_addrs di).

Lemma addrs_fit st addrs : building st -> file_ok (shown st) addrs -> Forall (fun a => 0 <= a < 2 ^ 32) addrs.
Proof.
  intros B F. apply Forall_lookup. intros n a Hn. pose proof (lookup_lt_Some _ _ _ Hn) as Hl. rewrite (fo_len _ _ _ _ _ F) in Hl.
  pose proof (addr_small st addrs (Z.of_nat n) B F ltac:(change NDIRECT with 12; lia)) as Hs.
  rewrite Nat2Z.id, (nth_lookup_Some _ _ _ _ Hn) in Hs. lia.
Qed.

(** The view with another inode in the slot of [inum]. *)
Definition set_slot (view : Z -> block) (inum : Z) (di : dinode) : Z -> block :=
  zset view (IBLOCK inum sb) (dip_write (dip_off inum) di (view (IBLOCK inum sb))).

Lemma slot_set view inum di j : inode_fits di -> 0 <= inum < 208 -> 0 <= j < 208 -> length (view (IBLOCK inum sb)) = 1024%nat ->
  slot (set_slot view inum di) j = if j =? inum then di else slot view j.
Proof.
  intros (T1 & T2 & T3 & T4 & T5 & T6 & T7) Hi Hj Hl. destruct (IBLOCK_mkfs inum Hi) as [E1 _], (IBLOCK_mkfs j Hj) as [E2 _].
  destruct (dinode_roundtrip (view (IBLOCK inum sb)) inum di) as [S1 S2]; rewrite ?T2, ?T3, ?T4; auto; try lia.
  unfold slot, set_slot. destruct (Z.eqb_spec j inum) as [->|Hne]; [by rewrite zset_eq|].
  unfold zset. destruct (Z.eqb_spec (IBLOCK j sb) (IBLOCK inum sb)) as [E|E]; [|done]. rewrite S2, E; [done|lia|].
  change IPB with 16. rewrite E1, E2 in E. Z.to_euclidean_division_equations. lia.
Qed.

Lemma rinode_ok st inum : building st -> 0 <= inum < 208 -> rinode inum st = Ok (slot (shown st) inum) st.
Proof.
  intros B Hi. unfold rinode. rewrite (bind_ok (fun s => Ok s s) _ _ _ _ eq_refl). rewrite (bd_sb _ B).
  destruct (IBLOCK_mkfs inum Hi) as [_ E]. by run (rsect_ok st (IBLOCK inum sb) B ltac:(lia) ltac:(lia)).
Qed.

Lemma winode_ok st inum di : building st -> 0 <= inum < 208 -> inode_fits di ->
  exists st', winode inum di st = Ok tt st' /\ building st' /\ shown st' = set_slot (shown st) inum di /\
    im_freeblock st' = im_freeblock st /\ im_freeinode st' = im_freeinode st.
Proof.
  intros B Hi T. destruct (IBLOCK_mkfs inum Hi) as [_ E]. pose proof (bd_fb _ B) as Hfb.
  destruct (wsect_ok st (IBLOCK inum sb) (dip_write (dip_off inum) di (shown st (IBLOCK inum sb))) B) as (st' & E1 & B' & V & Eb & Ei); [lia|lia|..].
  { apply length_dip_write; [rewrite shown_ne by lia; apply B; lia|apply T]. }
  exists st'. split_and!; auto. unfold winode. rewrite (bind_ok (fun s => Ok s s) _ _ _ _ eq_refl), (bd_sb _ B).
  by run (rsect_ok st (IBLOCK inum sb) B ltac:(lia) ltac:(lia)).
Qed.

(** Writing an inode is no concern of the files' blocks. *)
Lemma set_slot_other st inum di f : building st -> 0 <= inum < 208 -> is_file (shown st) f ->
  is_file (set_slot (shown st) inum di) f /\
  forall b, owns (set_slot (shown st) inum di) (mf_addrs f) b <-> owns (shown st) (mf_addrs f) b.
Proof.
  intros B Hi Hf. destruct (IBLOCK_mkfs inum Hi) as [_ E]. pose proof (if_meta _ _ Hf (IBLOCK inum sb) (or_intror E)) as Hn.
  assert (forall b, owns (shown st) (mf_addrs f) b -> set_slot (shown st) inum di b = shown st b) as Hag.
  { intros b Hb. apply zset_ne. by intros ->. }
  split; [|intros b; by apply agree_owns]. apply (is_file_agree (shown st)); [done|]. intros b Hb. split; [by apply Hag|].
  apply other_data; [by apply meta_data; [|right]|]. by apply (fo_data _ _ _ _ _ (if_ok _ _ Hf)).
Qed.

(** ** ialloc() *)

Lemma nth_zeroes n m : nth n (replicate m 0) 0 = 0.
Proof. rewrite nth_lookup. destruct (replicate m 0 !! n) eqn:E; [|done]. by apply lookup_replicate in E as [-> _]. Qed.

Lemma empty_fblock view k : fblock view (replicate 13 0) k = 0.
Proof. unfold fblock. rewrite !nth_zeroes. by destruct (k <? NDIRECT). Qed.

Lemma empty_owns view b : ~ owns view (replicate 13 0) b.
Proof. intros [H0 [(k & _ & E)|E]]; [rewrite empty_fblock in E|rewrite nth_zeroes in E]; congruence. Qed.

Lemma is_file_empty view type : 0 <= type < 2 ^ 15 -> is_file view (mkMfile type [] (replicate 13 0)).
Proof.
  intros Ht. split; cbn -[replicate owns]; auto; try done.
  - split; [done|..]; intros b; [intros []%empty_owns|..]; rewrite ?empty_fblock; done.
  - split; [intros k Hk; rewrite empty_fblock; lia|rewrite nth_zeroes; lia|]. intros x Hx. change ((Z.of_nat 0 + 1023) / 1024 * 1024) with 0 in Hx. lia.
  - intros b _. apply empty_owns.
Qed.

Lemma small_i16 x : 0 <= x < 2 ^ 15 -> i16 (xshort x) = x.
Proof. intros H. rewrite xshort_small by lia. apply i16_small. lia. Qed.

Lemma inode_fits_file st f : building st -> is_file (shown st) f -> inode_fits (file_inode f).
Proof.
  intros B [I1 I2 I3 _ _ _]. change (MAXFILE * BSIZE) with 274432 in I2. unfold inode_fits. cbn. split_and!; auto; try lia.
  - apply I3.
  - by apply (addrs_fit st).
Qed.

Lemma inode_length st inum : building st -> 0 <= inum < 208 -> length (shown st (IBLOCK inum sb)) = 1024%nat.
Proof. intros B Hi. destruct (IBLOCK_mkfs inum Hi) as [_ E]. rewrite shown_ne by lia. apply B. lia. Qed.

(** Writing the inode that was to be written. *)
Lemma layout_winode st fs i f : layout_but (Some i) st fs -> fs !! i = Some f ->
  exists st', winode (1 + Z.of_nat i) (file_inode f) st = Ok tt st' /\ layout st' fs.
Proof.
  intros [B L1 L2 L3 L4 L5 L6 L7 L8 L9] Hi. set (inum := 1 + Z.of_nat i). pose proof (lookup_lt_Some _ _ _ Hi) as Hlt.
  pose proof (inode_fits_file st f B (L4 _ _ Hi)) as Tf. destruct (IBLOCK_mkfs inum ltac:(lia)) as [_ Hib].
  destruct (winode_ok st inum (file_inode f) B ltac:(lia) Tf) as (st' & E & B' & V & Eb & Ei). exists st'. split; [done|].
  assert (forall j, 0 <= j < 208 -> slot (shown st') j = if j =? inum then file_inode f else slot (shown st) j) as Hs.
  { intros j Hj. rewrite V. apply slot_set; auto; [lia|by apply inode_length; [|lia]]. }
  split; auto; try congruence.
  - intros j g Hj _. pose proof (lookup_lt_Some _ _ _ Hj). rewrite Hs by lia.
    destruct (Z.eqb_spec (1 + Z.of_nat j) inum); [replace j with i in Hj by lia; congruence|]. apply L3; [done|]. intros [= ->]. lia.
  - intros j g Hj. rewrite V. apply set_slot_other; [done|lia|by eapply L4].
  - intros j j' g g' b Hj Hj' Hne. rewrite V. intros Ho Ho'. apply set_slot_other in Ho; [|done|lia|by eapply L4].
    apply set_slot_other in Ho'; [|done|lia|by eapply L4]. by eapply (L5 j j' g g').
  - intros j Hj. rewrite Hs by lia. destruct (Z.eqb_spec j inum); [lia|]. by apply L7.
  - rewrite V. unfold set_slot. by rewrite zset_ne by lia.
  - intros b Hb. rewrite V. unfold set_slot. rewrite zset_ne by lia. auto.
Qed.

Lemma layout_new st fs type : layout st fs -> (length fs < 199)%nat -> 0 <= type < 2 ^ 15 ->
  layout_but (Some (length fs)) (st <| im_freeinode := 1 + Z.of_nat (length fs) + 1 |>) (fs ++ [mkMfile type [] (replicate 13 0)]).
Proof.
  intros [B L1 L2 L3 L4 L5 L6 L7 L8 L9] Hn Ht. set (f0 := mkMfile type [] (replicate 13 0)). set (st1 := st <| im_freeinode := _ |>).
  change (shown st) with (shown st1) in *.
  assert (forall i f, (fs ++ [f0]) !! i = Some f -> fs !! i = Some f \/ i = length fs /\ f = f0) as Hin.
  { intros i f [H|[H H']]%lookup_app_Some; [by left|right]. apply list_lookup_singleton_Some in H' as [? <-]. split; [lia|done]. }
  split; rewrite ?length_app; cbn [length]; auto.
  - destruct B; split; auto.
  - cbn. lia.
  - lia.
  - intros i f [H|[-> ->]]%Hin Hne; [by apply L3|done].
  - intros i f [H|[-> ->]]%Hin; [by eapply L4|by apply is_file_empty].
  - intros i j f g b [H|[-> ->]]%Hin [H'|[-> ->]]%Hin Hne Ho; [by eapply (L5 i j f g)|by apply empty_owns|by apply empty_owns in Ho|done].
  - rewrite total_app. change (im_freeblock st1) with (im_freeblock st). rewrite L6. change (total [f0]) with 0. lia.
  - intros j Hj. apply L7. lia.
Qed.

Lemma ialloc_ok st fs type : layout st fs -> (length fs < 199)%nat -> 0 <= type < 2 ^ 15 ->
  exists st', ialloc type st = Ok (1 + Z.of_nat (length fs)) st' /\ layout st' (fs ++ [mkMfile type [] (replicate 13 0)]).
Proof.
  intros L Hn Ht. destruct (layout_winode _ _ _ (mkMfile type [] (replicate 13 0)) (layout_new st fs type L Hn Ht)) as (st' & E & L').
  { by rewrite list_lookup_middle. }
  exists st'. split; [|done]. unfold ialloc. rewrite (bind_ok (fun s => Ok s s) _ _ _ _ eq_refl), (ly_count _ _ _ L). cbv zeta.
  rewrite small_i16, u32_small, (bind_ok (fun s => Ok tt _) _ _ _ _ eq_refl) by lia. change (i16 (xshort 1)) with 1. change (xint 0) with 0. by run E.
Qed.

(** ** iappend() *)

Lemma appended_file st f st' addrs' p : building st -> is_file (shown st) f -> appended st (mf_addrs f) st' addrs' (mf_size f) p ->
  mf_size f + Z.of_nat (length p) <= MAXFILE * BSIZE -> is_file (shown st') (mkMfile (mf_type f) (mf_bytes f ++ p) addrs').
Proof.
  intros B [I1 I2 I3 I4 I5 I6] [A1 A2 A3 A4 A5 A6] Hm. split; cbn [mf_type mf_bytes mf_addrs]; auto.
  - rewrite length_app. lia.
  - apply A2.
  - by rewrite length_app, Nat2Z.inj_add.
  - change (MAXFILE * BSIZE) with 274432 in *. rewrite length_app, fbytes_app. f_equal.
    + rewrite <- I5 at 2. apply list_fmap_ext. intros i y [-> Hi]%lookup_seq. destruct (file_pos (Z.of_nat i) (mf_size f) ltac:(lia) I2) as [P1 P2].
      apply (wr_out _ _ _ _ _ _ _ _ _ A2); [change (MAXFILE * BSIZE) with 274432; lia| |lia]. by apply (dn_blocks _ _ _ I4).
    + apply list_eq. intros i. destruct (p !! i) as [c|] eqn:E.
      * pose proof (lookup_lt_Some _ _ _ E). unfold fbytes. rewrite list_lookup_fmap, lookup_seq_lt by done. cbn [fmap option_fmap option_map].
        f_equal. by apply (wr_in _ _ _ _ _ _ _ _ _ A2 i c).
      * apply lookup_ge_None in E. apply lookup_ge_None. by rewrite length_fbytes.
  - intros b Hb. apply (wr_frame _ _ _ _ _ _ _ _ _ A2 b); [by apply meta_data|by apply I6].
Qed.

Lemma appended_other st g addrs st' addrs' off p : is_file (shown st) g ->
  (forall b, owns (shown st) (mf_addrs g) b -> ~ owns (shown st) addrs b) -> appended st addrs st' addrs' off p ->
  is_file (shown st') g /\ (forall b, owns (shown st') (mf_addrs g) b <-> owns (shown st) (mf_addrs g) b) /\
  forall b, owns (shown st) (mf_addrs g) b -> ~ owns (shown st') addrs' b.
Proof.
  intros Hg Hd A. pose proof (ap_wrote _ _ _ _ _ _ A) as W.
  assert (forall b, owns (shown st) (mf_addrs g) b -> shown st' b = shown st b /\ data_block (shown st') b /\ ~ owns (shown st') addrs' b) as Hfr.
  { intros b Hb. apply (wr_frame _ _ _ _ _ _ _ _ _ W); [by apply (fo_data _ _ _ _ _ (if_ok _ _ Hg))|by apply Hd]. }
  split_and!; [|intros b; apply agree_owns; intros c Hc; by apply Hfr|intros b Hb; by apply Hfr].
  apply (is_file_agree (shown st)); [done|]. intros b Hb. by destruct (Hfr b Hb) as (? & ? & _).
Qed.

(** The blocks that belong to no file keep what they hold. *)
Lemma appended_meta st f st' addrs' p b : building st -> is_file (shown st) f -> appended st (mf_addrs f) st' addrs' (mf_size f) p ->
  meta b -> shown st' b = shown st b.
Proof. intros B Hf A Hb. apply (wr_frame _ _ _ _ _ _ _ _ _ (ap_wrote _ _ _ _ _ _ A)); [by apply meta_data|by apply Hf]. Qed.

Lemma layout_appended st fs i f st' addrs' p : layout st fs -> fs !! i = Some f -> appended st (mf_addrs f) st' addrs' (mf_size f) p ->
  mf_size f + Z.of_nat (length p) <= MAXFILE * BSIZE ->
  layout_but (Some i) st' (<[i := mkMfile (mf_type f) (mf_bytes f ++ p) addrs']> fs).
Proof.
  intros [B L1 L2 L3 L4 L5 L6 L7 L8 L9] Hi A Hm. set (f' := mkMfile _ _ _). pose proof (lookup_lt_Some _ _ _ Hi) as Hlt.
  pose proof (appended_file _ _ _ _ _ B (L4 _ _ Hi) A Hm) as Hf'. fold f' in Hf'.
  assert (forall b, meta b -> shown st' b = shown st b) as Hmeta by (intros b; by eapply appended_meta; eauto).
  assert (forall j, 0 <= j < 208 -> slot (shown st') j = slot (shown st) j) as Hs.
  { intros j Hj. unfold slot. rewrite Hmeta; [done|right; by apply IBLOCK_mkfs]. }
  assert (forall j g, fs !! j = Some g -> i <> j -> is_file (shown st') g /\
    (forall b, owns (shown st') (mf_addrs g) b <-> owns (shown st) (mf_addrs g) b) /\
    forall b, owns (shown st) (mf_addrs g) b -> ~ owns (shown st') addrs' b) as Ho.
  { intros j g Hj Hne. eapply appended_other; [by eapply L4| |exact A]. intros b. by eapply (L5 j i). }
  assert (forall j g, <[i := f']> fs !! j = Some g -> i = j /\ g = f' \/ i <> j /\ fs !! j = Some g) as Hin.
  { intros j g [(-> & -> & _)|[? ?]]%list_lookup_insert_Some; auto. }
  split; rewrite ?length_insert; auto.
  - apply A.
  - rewrite (ap_fi _ _ _ _ _ _ A). done.
  - intros j g [[-> ->]|[Hne Hj]]%Hin Hsk; [done|]. pose proof (lookup_lt_Some _ _ _ Hj). rewrite Hs by lia. by apply L3.
  - intros j g [[-> ->]|[Hne Hj]]%Hin; [done|]. by eapply Ho.
  - intros j j' g g' b [[-> ->]|[Hne Hj]]%Hin [[-> ->]|[Hne' Hj']]%Hin Hjj H1 H2; [done|..].
    + destruct (Ho _ _ Hj' Hne') as (_ & O1 & O2). by eapply O2; [apply O1|].
    + destruct (Ho _ _ Hj Hne) as (_ & O1 & O2). by eapply O2; [apply O1|].
    + destruct (Ho _ _ Hj Hne) as (_ & O1 & _), (Ho _ _ Hj' Hne') as (_ & O2 & _). by eapply (L5 j j' g g' b); [..|apply O1|apply O2].
  - rewrite (total_insert _ _ f), (ap_fb _ _ _ _ _ _ A), L6 by done. cbn [mf_bytes f']. rewrite length_app, Nat2Z.inj_add. lia.
  - intros j Hj. rewrite Hs by lia. by apply L7.
  - rewrite Hmeta by (by left). done.
  - intros b Hb. rewrite (ap_log _ _ _ _ _ _ A) by done. auto.
Qed.

Lemma iappend_ok st fs i f p : layout st fs -> fs !! i = Some f -> mf_size f + Z.of_nat (length p) <= MAXFILE * BSIZE ->
  46 + total fs + (nblk (mf_size f + Z.of_nat (length p)) - nblk (mf_size f)) <= 2000 ->
  exists st' addrs', iappend (1 + Z.of_nat i) p st = Ok tt st' /\ layout st' (<[i := mkMfile (mf_type f) (mf_bytes f ++ p) addrs']> fs).
Proof.
  intros L Hi Hm Hroom. pose proof (lookup_lt_Some _ _ _ Hi) as Hlt. pose proof (ly_few _ _ _ L). pose proof (ly_building _ _ _ L) as B.
  destruct (ly_file _ _ _ L i f Hi) as [I1 I2 I3 I4 I5 I6]. change (MAXFILE * BSIZE) with 274432 in *.
  destruct (iappend_loop_ok (S (S (Z.to_nat (Z.of_nat (length p) / BSIZE + 1)))) st (file_inode f) (mf_size f) p) as (st1 & addrs' & E1 & A); auto; try lia.
  { rewrite (ly_blocks _ _ _ L). lia. }
  { apply rounds_init; lia. }
  destruct (layout_winode _ _ i (mkMfile (mf_type f) (mf_bytes f ++ p) addrs') (layout_appended st fs i f st1 addrs' p L Hi A Hm)) as (st' & E2 & L').
  { by rewrite list_lookup_insert_eq. }
  exists st', addrs'. split; [|done]. unfold iappend. run (rinode_ok st (1 + Z.of_nat i) B ltac:(lia)).
  rewrite (ly_slot _ _ _ L i f Hi) by done. cbn [di_size file_inode]. rewrite xint_small by lia. run E1. cbn [fst snd].
  rewrite xint_small by lia. etrans; [|exact E2]. do 2 f_equal. unfold file_inode, set_size, with_addrs. cbn. f_equal. rewrite length_app. lia.
Qed.
