(* ===== verification/MkfsProps.v ===== *)
(** main() of mkfs: the image it leaves holds the files it was given. *)

From Stdlib Require Import FunctionalExtensionality.
From S2P Require Import Prelude Layout Kernel Fs Dir DirSpec FsAlloc FsFile FsWrite FsContent Mkfs MkfsSpec MkfsImage.

(** ** The contents *)

(** The image has files of these types and contents. *)
Definition holds (st : img) (cs : list (Z * list Z)) : Prop :=
  exists fs, layout st fs /\ (fun f => (mf_type f, mf_bytes f)) <$> fs = cs.

Definition blocks (cs : list (Z * list Z)) : Z := foldr (fun c a => nblk (Z.of_nat (length c.2)) + a) 0 cs.

Lemma blocks_cons c cs : blocks (c :: cs) = nblk (Z.of_nat (length c.2)) + blocks cs.
Proof. done. Qed.

Lemma blocks_app cs ds : blocks (cs ++ ds) = blocks cs + blocks ds.
Proof. induction cs as [|c cs IH]; [done|]. cbn [app]. rewrite !blocks_cons. lia. Qed.

Lemma nblk_pos s : 0 <= s -> 0 <= nblk s.
Proof. intros H. pose proof (nblk_mono 0 s H). by change (nblk 0) with 0 in *. Qed.

Lemma blocks_pos cs : 0 <= blocks cs.
Proof. induction cs as [|c cs IH]; [done|]. rewrite blocks_cons. pose proof (nblk_pos (Z.of_nat (length c.2)) ltac:(lia)). lia. Qed.

Lemma blocks_total fs : blocks ((fun f => (mf_type f, mf_bytes f)) <$> fs) = total fs.
Proof. induction fs as [|f fs IH]; [done|]. rewrite fmap_cons, blocks_cons, total_cons, IH. done. Qed.

Lemma blocks_insert cs i c ty bs : cs !! i = Some c -> blocks (<[i := (ty, bs)]> cs) = blocks cs - nblk (Z.of_nat (length c.2)) + nblk (Z.of_nat (length bs)).
Proof.
  revert i. induction cs as [|h cs IH]; intros [|i] Hi; [done..| |].
  - injection Hi as ->. change (<[O := (ty, bs)]> (c :: cs)) with ((ty, bs) :: cs). rewrite !blocks_cons. cbn [snd]. lia.
  - change (<[S i := (ty, bs)]> (h :: cs)) with (h :: <[i := (ty, bs)]> cs). rewrite !blocks_cons, (IH i Hi). lia.
Qed.

Lemma holds_ialloc st cs type : holds st cs -> (length cs < 199)%nat -> 0 <= type < 2 ^ 15 ->
  exists st', ialloc type st = Ok (1 + Z.of_nat (length cs)) st' /\ holds st' (cs ++ [(type, [])]).
Proof.
  intros (fs & L & <-) Hn Ht. rewrite length_fmap in *. destruct (ialloc_ok st fs type L Hn Ht) as (st' & E & L').
  exists st'. split; [done|]. eexists. split; [exact L'|]. by rewrite fmap_app.
Qed.

Lemma holds_iappend st cs i ty bs p : holds st cs -> cs !! i = Some (ty, bs) -> Z.of_nat (length (bs ++ p)) <= MAXFILE * BSIZE ->
  blocks (<[i := (ty, bs ++ p)]> cs) <= 1954 ->
  exists st', iappend (1 + Z.of_nat i) p st = Ok tt st' /\ holds st' (<[i := (ty, bs ++ p)]> cs).
Proof.
  intros (fs & L & <-) Hi Hm Hr. rewrite (blocks_insert _ _ _ _ _ Hi), blocks_total in Hr. rewrite length_app in *. cbn [snd] in Hr.
  apply list_lookup_fmap_Some in Hi as (f & [= -> ->] & Hf).
  destruct (iappend_ok st fs i f p L Hf) as (st' & addrs' & E & L'); [lia|rewrite Nat2Z.inj_add in Hr; lia|].
  exists st'. split; [done|]. eexists. split; [exact L'|]. by rewrite list_fmap_insert.
Qed.

(** ** Files *)

(** What the loop reads of a file. *)
Fixpoint read_all (pieces : list (list Z)) : list Z :=
  match pieces with
  | p :: pieces' => match p with [] => [] | _ => p ++ read_all pieces' end
  | [] => []
  end.

Lemma holds_pieces pieces : forall st cs i ty bs, holds st cs -> cs !! i = Some (ty, bs) ->
  Z.of_nat (length (bs ++ read_all pieces)) <= MAXFILE * BSIZE -> blocks (<[i := (ty, bs ++ read_all pieces)]> cs) <= 1954 ->
  exists st', append_pieces (1 + Z.of_nat i) pieces st = Ok tt st' /\ holds st' (<[i := (ty, bs ++ read_all pieces)]> cs).
Proof.
  induction pieces as [|p pieces IH]; intros st cs i ty bs Hh Hi Hm Hr; cbn [append_pieces read_all] in *.
  { exists st. rewrite app_nil_r in *. by rewrite list_insert_id. }
  destruct p as [|c p']; [exists st; rewrite app_nil_r in *; by rewrite list_insert_id|]. remember (c :: p') as p eqn:Ep. clear Ep.
  rewrite app_assoc in *. set (r := read_all pieces) in *.
  pose proof (nblk_mono (Z.of_nat (length (bs ++ p))) (Z.of_nat (length ((bs ++ p) ++ r))) ltac:(rewrite !length_app; lia)) as Hmono.
  rewrite (blocks_insert _ _ _ _ _ Hi) in Hr. pose proof (lookup_lt_Some _ _ _ Hi) as Hlt.
  destruct (holds_iappend st cs i ty bs p Hh Hi) as (st1 & E1 & H1).
  { rewrite !length_app in *. lia. }
  { rewrite (blocks_insert _ _ _ _ _ Hi). lia. }
  assert (<[i := (ty, bs ++ p)]> cs !! i = Some (ty, bs ++ p)) as Hi1 by (by apply list_lookup_insert_eq).
  destruct (IH st1 _ i ty (bs ++ p) H1 Hi1 Hm) as (st' & E2 & H2).
  { rewrite list_insert_insert_eq, (blocks_insert _ _ _ _ _ Hi). exact Hr. }
  rewrite list_insert_insert_eq in H2. exists st'. split; [|exact H2]. by run E1.
Qed.

Definition entry (inum : Z) (name : list Z) : list Z := de_bytes (mkDirent inum (lstrncpy (Z.to_nat DIRSIZ) name)).

Lemma length_entry inum name : length (entry inum name) = 16%nat.
Proof. unfold entry, de_bytes. cbn [de_inum de_name]. rewrite length_app, length_le_bytes, length_lstrncpy. done. Qed.

(** An entry for the root directory, the first file. *)
Lemma holds_entry st d cs inum name : holds st ((T_DIR, d) :: cs) -> 0 <= inum < 2 ^ 16 -> Z.of_nat (length d) + 16 <= MAXFILE * BSIZE ->
  nblk (Z.of_nat (length d) + 16) + blocks cs <= 1954 ->
  exists st', add_entry 1 inum name st = Ok tt st' /\ holds st' ((T_DIR, d ++ entry inum name) :: cs).
Proof.
  intros Hh Hi Hm Hr. unfold add_entry. rewrite xshort_small by done. fold (entry inum name). change (DIRSIZ) with 14 in *.
  apply (holds_iappend st ((T_DIR, d) :: cs) 0 T_DIR d (entry inum name)); auto.
  - rewrite length_app, length_entry. lia.
  - change (<[O := (T_DIR, d ++ entry inum name)]> ((T_DIR, d) :: cs)) with ((T_DIR, d ++ entry inum name) :: cs).
    rewrite blocks_cons. cbn [snd]. rewrite length_app, length_entry, Nat2Z.inj_add. exact Hr.
Qed.

(** The host has the file, and the name is one for the root directory. *)
Definition given (host : list Z -> option (list (list Z))) (path : list Z) (file : list Z * list Z) : Prop :=
  SLASH ∉ strip_user path /\ file.1 = strip_underscore (strip_user path) /\
  exists pieces, host path = Some pieces /\ file.2 = read_all pieces.

Lemma holds_add_file host path file st d cs : given host path file -> holds st ((T_DIR, d) :: cs) -> (length cs < 198)%nat ->
  Z.of_nat (length d) + 16 <= MAXFILE * BSIZE -> Z.of_nat (length file.2) <= MAXFILE * BSIZE ->
  nblk (Z.of_nat (length d) + 16) + blocks (cs ++ [(T_FILE, file.2)]) <= 1954 ->
  exists st', add_file host 1 path st = Ok tt st' /\
    holds st' ((T_DIR, d ++ entry (2 + Z.of_nat (length cs)) file.1) :: cs ++ [(T_FILE, file.2)]).
Proof.
  intros (Hs & Hn & pieces & Hp & Hd) Hh Hc Hm1 Hm2 Hr. unfold add_file. rewrite bool_decide_eq_true_2 by done. cbn [negb]. rewrite Hp, <- Hn.
  destruct (holds_ialloc st _ T_FILE Hh) as (st1 & E1 & H1); [cbn; lia|done|]. cbn [app length] in E1, H1.
  rewrite blocks_app, blocks_cons in Hr. cbn [snd] in Hr. change (blocks []) with 0 in Hr.
  pose proof (nblk_pos (Z.of_nat (length file.2)) ltac:(lia)).
  destruct (holds_entry st1 d _ (1 + Z.of_nat (S (length cs))) file.1 H1) as (st2 & E2 & H2); [lia|lia|..].
  { rewrite blocks_app. change (blocks [(T_FILE, [])]) with 0. lia. }
  assert (forall x : Z * list Z, (x :: cs ++ [(T_FILE, [])]) !! S (length cs) = Some (T_FILE, [])) as Hlk.
  { intros x. exact (list_lookup_middle cs [] (T_FILE, []) _ eq_refl). }
  destruct (holds_pieces pieces st2 _ (S (length cs)) T_FILE [] H2) as (st3 & E3 & H3).
  { apply Hlk. }
  { cbn [app]. by rewrite <- Hd. }
  { rewrite (blocks_insert _ _ (T_FILE, [])) by apply Hlk. cbn [app snd]. rewrite <- Hd, blocks_cons, blocks_app.
    change (blocks [(T_FILE, [])]) with 0. cbn [snd length]. change (nblk (Z.of_nat 0)) with 0. rewrite length_app, length_entry, Nat2Z.inj_add. change (Z.of_nat 16) with 16. lia. }
  exists st3. run E1. run E2. split; [exact E3|]. cbn [app] in H3. rewrite <- Hd in H3.
  replace (2 + Z.of_nat (length cs)) with (1 + Z.of_nat (S (length cs))) by lia.
  assert (forall (x y : Z * list Z), <[S (length cs) := y]> (x :: cs ++ [(T_FILE, [])]) = x :: cs ++ [y]) as Hins.
  { intros x y. change (x :: <[length cs := y]> (cs ++ [(T_FILE, [])]) = x :: cs ++ [y]). by rewrite insert_app_r_alt, Nat.sub_diag by lia. }
  by rewrite Hins in H3.
Qed.

(** The entries of the root directory for the files from [inum] on. *)
Fixpoint entries (inum : Z) (files : list (list Z * list Z)) : list Z :=
  match files with
  | [] => []
  | f :: files' => entry inum f.1 ++ entries (inum + 1) files'
  end.

Lemma length_entries files : forall inum, length (entries inum files) = (16 * length files)%nat.
Proof. induction files as [|f files IH]; intros inum; [done|]. cbn [entries length]. rewrite length_app, length_entry, IH. lia. Qed.

Definition regular (files : list (list Z * list Z)) : list (Z * list Z) := (fun f => (T_FILE, f.2)) <$> files.

Lemma holds_add_files host paths files : Forall2 (given host) paths files -> forall st d cs, holds st ((T_DIR, d) :: cs) ->
  (length cs + length files < 199)%nat -> Z.of_nat (length (d ++ entries (2 + Z.of_nat (length cs)) files)) <= MAXFILE * BSIZE ->
  Forall (fun f => Z.of_nat (length f.2) <= MAXFILE * BSIZE) files ->
  nblk (Z.of_nat (length (d ++ entries (2 + Z.of_nat (length cs)) files))) + blocks (cs ++ regular files) <= 1954 ->
  exists st', add_files host 1 paths st = Ok tt st' /\
    holds st' ((T_DIR, d ++ entries (2 + Z.of_nat (length cs)) files) :: cs ++ regular files).
Proof.
  induction 1 as [|path f paths files Hg HF IH]; intros st d cs Hh Hc Hd Hm Hr; cbn [add_files entries regular] in *.
  { exists st. by rewrite !app_nil_r. }
  apply Forall_cons in Hm as [Hm1 Hm2]. unfold regular in *. rewrite fmap_cons in *. cbn [length] in Hc. fold (regular files) in *.
  replace (cs ++ (T_FILE, f.2) :: regular files) with ((cs ++ [(T_FILE, f.2)]) ++ regular files) in * by (by rewrite <- app_assoc).
  assert (2 + Z.of_nat (length cs) + 1 = 2 + Z.of_nat (length (cs ++ [(T_FILE, f.2)]))) as El by (rewrite length_app; cbn [length]; lia).
  rewrite app_assoc, El in *. set (d' := d ++ entry (2 + Z.of_nat (length cs)) f.1) in *.
  assert (length d' = (length d + 16)%nat) as Hd' by (unfold d'; by rewrite length_app, length_entry).
  set (en := entries _ files) in *. rewrite length_app in Hd.
  pose proof (nblk_mono (Z.of_nat (length d')) (Z.of_nat (length (d' ++ en))) ltac:(rewrite length_app; lia)) as Hmono.
  pose proof (blocks_pos (regular files)) as Hp. rewrite (blocks_app _ (regular files)) in Hr.
  destruct (holds_add_file host path f st d cs Hg Hh ltac:(lia) ltac:(lia) Hm1) as (st1 & E1 & H1).
  { replace (Z.of_nat (length d) + 16) with (Z.of_nat (length d')) by lia. lia. }
  destruct (IH st1 d' (cs ++ [(T_FILE, f.2)]) H1) as (st2 & E2 & H2); auto.
  { rewrite length_app. cbn [length]. lia. }
  { rewrite length_app. exact Hd. }
  { rewrite (blocks_app _ (regular files)). exact Hr. }
  exists st2. split; [by run E1|exact H2].
Qed.

(** ** The beginning *)

Lemma rdn_zeroes n off : rdn n zeroes off = 0.
Proof.
  unfold rdn, rdb, zeroes. rewrite drop_replicate, take_replicate.
  generalize (n `min` (Z.to_nat BSIZE - off))%nat. intros m. induction m as [|m IH]; [done|]. cbn [replicate le_val]. by rewrite IH.
Qed.

Lemma sb_readback : length (wrb zeroes 0 (sb_bytes sb)) = 1024%nat /\ sb_of_bytes (wrb zeroes 0 (sb_bytes sb)) = sb.
Proof. by vm_compute. Qed.

(** The image file as it is zeroed. *)
Lemma zero_image s : (forall b, im_disk s b = zeroes) ->
  exists s', for_loop (Z.to_nat FSSIZE) 0 (fun i => wsect (Z.of_nat i) zeroes) s = Ok tt s' /\
    (forall b, im_disk s' b = zeroes) /\ im_nsect s' = Z.max (im_nsect s) 2000 /\
    im_sb s' = im_sb s /\ im_freeblock s' = im_freeblock s /\ im_freeinode s' = im_freeinode s.
Proof.
  intros Hz. destruct (for_loop_inv (fun i s' => (forall b, im_disk s' b = zeroes) /\ im_nsect s' = Z.max (im_nsect s) (if (i =? 0)%nat then im_nsect s else Z.of_nat i) /\
    im_sb s' = im_sb s /\ im_freeblock s' = im_freeblock s /\ im_freeinode s' = im_freeinode s) (Z.to_nat FSSIZE) 0
    (fun i => wsect (Z.of_nat i) zeroes) s) as (s' & E & H).
  - split_and!; auto. cbn. lia.
  - change (Z.to_nat FSSIZE) with 2000%nat. intros j s1 Hj (H1 & H2 & H3). eexists. split; [reflexivity|]. cbn [im_disk im_nsect im_sb im_freeblock im_freeinode upd upd_im_disk upd_im_nsect].
    rewrite sector by lia. split_and!; [|..]; try apply H3.
    + intros b. unfold zset. destruct (b =? Z.of_nat j); [done|auto].
    + rewrite H2. cbn [Nat.eqb]. destruct (Nat.eqb_spec j 0); lia.
  - exists s'. destruct H as (H1 & H2 & H3). split_and!; auto; try apply H3.
Qed.

Lemma start_layout s : (forall b, im_disk s b = zeroes) -> im_nsect s = 2000 -> im_sb s = sb -> im_freeblock s = 46 -> im_freeinode s = 1 ->
  exists s', wsect 1 (wrb zeroes 0 (sb_bytes sb)) s = Ok tt s' /\ holds s' [].
Proof.
  intros Hz Hn Hsb Hfb Hfi.
  assert (building s) as B by (split; auto; intros; rewrite ?Hz; lia || done).
  destruct sb_readback as [Hl _].
  destruct (wsect_ok s 1 _ B ltac:(lia) ltac:(lia) Hl) as (s' & E & B' & V & Eb & Ei). exists s'. split; [done|]. exists []. split; [|done].
  assert (forall b, b <> 1 -> b <> 45 -> shown s' b = zeroes) as Hs by (intros b H1 H2; rewrite V, zset_ne, shown_ne by done; apply Hz).
  split; auto; try done.
  - rewrite Ei, Hfi. done.
  - cbn. lia.
  - rewrite Eb, Hfb. done.
  - intros inum Hi. cbn in Hi. unfold slot. destruct (IBLOCK_mkfs inum ltac:(lia)) as [_ Hib]. rewrite Hs by lia. cbn [di_type dip_read]. by rewrite rdn_zeroes.
  - rewrite V. apply zset_eq.
  - intros b Hb. by rewrite Hs by lia.
Qed.

(** ** The end *)

(** The size of a file is rounded up to whole blocks. *)
Definition padded (bs : list Z) : list Z := bs ++ replicate (Z.to_nat ((Z.of_nat (length bs) / BSIZE + 1) * BSIZE - Z.of_nat (length bs))) 0.

Lemma length_padded bs : Z.of_nat (length (padded bs)) = (Z.of_nat (length bs) / BSIZE + 1) * BSIZE.
Proof. unfold padded. rewrite length_app, length_replicate. change BSIZE with 1024. Z.to_euclidean_division_equations. lia. Qed.

Lemma is_file_padded view f : is_file view f -> mf_size f mod BSIZE <> 0 -> is_file view (mkMfile (mf_type f) (padded (mf_bytes f)) (mf_addrs f)).
Proof.
  intros [I1 I2 I3 [D1 D2 D3] I5 I6] Hm. set (n := mf_size f) in *. change (MAXFILE * BSIZE) with 274432 in *.
  pose proof (length_padded (mf_bytes f)) as Hl. fold n in Hl. change BSIZE with 1024 in *.
  assert ((n / 1024 + 1) * 1024 = (n + 1023) / 1024 * 1024) as Er by (Z.to_euclidean_division_equations; lia).
  split; cbn [mf_type mf_bytes mf_addrs]; rewrite ?Hl; auto.
  - change BSIZE with 1024. change (MAXFILE * 1024) with 274432. Z.to_euclidean_division_equations. lia.
  - split.
    + intros k Hk. rewrite D1 by done. Z.to_euclidean_division_equations. lia.
    + rewrite D2. Z.to_euclidean_division_equations. lia.
    + intros x Hx. Z.to_euclidean_division_equations. lia.
  - rewrite <- (Nat2Z.id (length (padded _))), Hl. unfold padded. fold n. change BSIZE with 1024.
    replace (Z.to_nat ((n / 1024 + 1) * 1024)) with (length (mf_bytes f) + Z.to_nat ((n / 1024 + 1) * 1024 - n))%nat
      by (unfold n; Z.to_euclidean_division_equations; lia).
    rewrite fbytes_app, I5. f_equal. apply list_eq. intros i.
    destruct (decide (i < Z.to_nat ((n / 1024 + 1) * 1024 - n))%nat) as [Hi|Hi].
    + rewrite lookup_replicate_2 by done. unfold fbytes. rewrite list_lookup_fmap, lookup_seq_lt by done. cbn [fmap option_fmap option_map].
      f_equal. apply D3. fold n. lia.
    + rewrite !lookup_ge_None_2; rewrite ?length_fbytes, ?length_replicate; done || lia.
Qed.

Lemma nblk_padded s : 0 <= s -> s mod 1024 <> 0 -> nblk ((s / 1024 + 1) * 1024) = nblk s.
Proof. intros H0 Hm. unfold nblk. destruct (Z.ltb_spec 12288 s), (Z.ltb_spec 12288 ((s / 1024 + 1) * 1024)); Z.to_euclidean_division_equations; lia. Qed.

Lemma layout_padded st fs f (f' := mkMfile (mf_type f) (padded (mf_bytes f)) (mf_addrs f)) : layout st (f :: fs) -> mf_size f mod BSIZE <> 0 ->
  layout_but (Some O) st (f' :: fs).
Proof.
  intros [B L1 L2 L3 L4 L5 L6 L7 L8 L9] Hm. split; auto.
  - intros [|i] g Hi Hsk; [done|]. by apply L3.
  - intros [|i] g Hi; [injection Hi as <-; by apply is_file_padded; [apply (L4 O)|]|by apply (L4 (S i))].
  - intros [|i] [|j] g h b Hi Hj Hne; [done|injection Hi as <-|injection Hj as <-|].
    + by apply (L5 O (S j) f h b).
    + by apply (L5 (S i) O g f b).
    + by apply (L5 (S i) (S j) g h b).
  - rewrite L6. rewrite !total_cons. change BSIZE with 1024 in *. cbn [mf_bytes f']. rewrite length_padded. change BSIZE with 1024. rewrite nblk_padded; done || lia.
Qed.

Lemma holds_fix_root st d cs : holds st ((T_DIR, d) :: cs) -> Z.of_nat (length d) mod BSIZE <> 0 ->
  exists st', fix_root 1 st = Ok tt st' /\ holds st' ((T_DIR, padded d) :: cs).
Proof.
  intros ([|f fs] & L & E) Hm; [done|]. injection E as Et Ed Ec. subst d.
  destruct (layout_winode st _ O _ (layout_padded st fs f L Hm) eq_refl) as (st' & E1 & L').
  destruct (ly_file _ _ _ L O f eq_refl) as [_ I2 _ _ _ _]. change (MAXFILE * BSIZE) with 274432 in I2.
  exists st'. split; [|exists (mkMfile (mf_type f) (padded (mf_bytes f)) (mf_addrs f) :: fs); split; [done|rewrite fmap_cons, <- Ec; cbn; by rewrite Et]].
  unfold fix_root. run (rinode_ok st 1 (ly_building _ _ _ L) ltac:(lia)). pose proof (ly_slot _ _ _ L O f eq_refl ltac:(done)) as Hs. change (1 + Z.of_nat 0) with 1 in Hs. rewrite Hs.
  cbn [file_inode di_size]. cbv zeta. assert (0 <= (mf_size f / BSIZE + 1) * BSIZE < 2 ^ 20) as Hb by (change BSIZE with 1024; Z.to_euclidean_division_equations; lia).
  rewrite (xint_small (mf_size f)), u32_small, xint_small by lia. etrans; [|exact E1]. do 2 f_equal.
  unfold set_size, file_inode. cbn [di_type di_major di_minor di_nlink di_addrs mf_type mf_bytes mf_addrs]. by rewrite length_padded.
Qed.

(** The bitmap is written: the image is as it was shown. *)
Lemma balloc_shown st fs : layout st fs -> exists st', balloc (im_freeblock st) st = Ok tt st' /\ im_disk st' = shown st.
Proof.
  intros L. pose proof (ly_building _ _ _ L) as B. pose proof (bd_fb _ B). eexists. unfold balloc. change (BSIZE * 8) with 8192.
  replace (im_freeblock st <? 8192) with true by lia. cbn [negb]. rewrite (bind_ok (fun s => Ok s s) _ _ _ _ eq_refl), (bd_sb _ B).
  split; [reflexivity|]. by rewrite mkfs_sb_eq.
Qed.

(** The contents of the root directory. *)
Definition root_bytes (files : list (list Z * list Z)) : list Z :=
  padded (entry 1 (bytes ".") ++ entry 1 (bytes "..") ++ entries 2 files).

Lemma mkfs_main_ok host argv0 image paths files : Forall2 (given host) paths files -> (length files <= 197)%nat ->
  (Z.of_nat (length files) + 2) mod 64 <> 0 -> Forall (fun f => Z.of_nat (length f.2) <= MAXFILE * BSIZE) files ->
  nblk (16 * (2 + Z.of_nat (length files))) + blocks (regular files) <= 1954 ->
  exists st fs, mkfs_main host (argv0 :: image :: paths) empty_img = Ok tt st /\
    (fun f => (mf_type f, mf_bytes f)) <$> fs = (T_DIR, root_bytes files) :: regular files /\
    exists st0, layout st0 fs /\ im_disk st = shown st0.
Proof.
  intros HF Hn Hmod Hmax Hr. unfold mkfs_main. cbn [length Nat.ltb Nat.leb]. rewrite (bind_ok (fun s => Ok tt _) _ _ _ _ eq_refl).
  destruct (zero_image (empty_img <| im_sb := sb |> <| im_freeblock := nmeta |>)) as (s1 & E1 & Z1 & Z2 & Z3 & Z4 & Z5); [done|].
  destruct (start_layout s1 Z1 Z2 Z3 Z4 Z5) as (s2 & E2 & H2). run E1. run E2.
  destruct (holds_ialloc s2 [] T_DIR H2 ltac:(cbn; lia) ltac:(unfold T_DIR; lia)) as (s3 & E3 & H3). run E3.
  change (1 + Z.of_nat (length (@nil (Z * list Z)))) with 1. change (negb (1 =? ROOTINO)) with false. cbn iota. cbn [app] in H3.
  destruct (holds_entry s3 [] [] 1 (bytes ".") H3 ltac:(lia) ltac:(done) ltac:(done)) as (s4 & E4 & H4). run E4. cbn [app] in H4.
  destruct (holds_entry s4 _ [] 1 (bytes "..") H4 ltac:(lia)) as (s5 & E5 & H5); [rewrite length_entry; done..|]. run E5.
  set (d := entry 1 (bytes ".") ++ entry 1 (bytes "..")) in *. assert (length d = 32%nat) as Hd by (unfold d; by rewrite length_app, !length_entry).
  assert (Z.of_nat (length (d ++ entries 2 files)) = 16 * (2 + Z.of_nat (length files))) as Hlen by (rewrite length_app, length_entries; lia).
  destruct (holds_add_files host paths files HF s5 d [] H5 ltac:(cbn; lia)) as (s6 & E6 & H6); auto.
  1: change (2 + Z.of_nat (length [])) with 2; rewrite Hlen; change (MAXFILE * BSIZE) with 274432; lia.
  1: change (2 + Z.of_nat (length [])) with 2; by rewrite Hlen.
  cbn [drop]. run E6. change (2 + Z.of_nat (length (@nil (Z * list Z)))) with 2 in H6. cbn [app] in H6.
  destruct (holds_fix_root s6 _ _ H6) as (s7 & E7 & (fs & L & Efs)).
  { rewrite Hlen. change BSIZE with 1024. Z.to_euclidean_division_equations. lia. }
  run E7. destruct (balloc_shown s7 fs L) as (s8 & E8 & V). exists s8, fs. split_and!; [by rewrite (bind_ok (fun s => Ok s s) _ _ _ _ eq_refl)|..].
  - rewrite Efs. unfold root_bytes. by rewrite app_assoc.
  - exists s7. split; [exact L|exact V].
Qed.

(** ** The property *)

(** A disk that holds the files [fs], their inodes numbered from 1 on. *)
Record image_ok (d : Z -> block) (fs : list mfile) : Prop := {
  io_sb : sb_of_bytes (d 1) = mkfs_sb;
  io_log b : 2 <= b < 32 -> d b = zero_block;
  io_fs : FsFile.fs_ok 2 30 mkfs_sb d;
  io_used b : 0 <= b < FSSIZE -> used d mkfs_sb b = (b <? nmeta + total fs);
  io_inode i f : fs !! i = Some f -> dip_read (d (IBLOCK (1 + Z.of_nat i) mkfs_sb)) (dip_off (1 + Z.of_nat i)) = file_inode f;
  io_free inum : 1 + Z.of_nat (length fs) <= inum < NINODES -> di_type (dip_read (d (IBLOCK inum mkfs_sb)) (dip_off inum)) = 0;
  io_len b : 0 <= b < FSSIZE -> length (d b) = 1024%nat;
  io_file i f : fs !! i = Some f -> mf_size f <= MAXFILE * BSIZE /\ FsFile.file_ok 2 30 mkfs_sb d (mf_addrs f) /\
    fbytes d (mf_addrs f) 0 (length (mf_bytes f)) = mf_bytes f /\
    forall k, 0 <= k < MAXFILE -> fblock d (mf_addrs f) k <> 0 <-> k * BSIZE < mf_size f;
  io_owned i f b : fs !! i = Some f -> owns d (mf_addrs f) b -> nmeta <= b < nmeta + total fs;
  io_apart i j f g b : fs !! i = Some f -> fs !! j = Some g -> i <> j -> owns d (mf_addrs f) b -> ~ owns d (mf_addrs g) b;
}.

Lemma length_shown st b : building st -> 0 <= b < FSSIZE -> length (shown st b) = 1024%nat.
Proof.
  intros B Hb. unfold shown, zset. destruct (b =? 45); [by rewrite length_mark_used|by apply B].
Qed.

Lemma layout_image st fs : layout st fs -> image_ok (shown st) fs.
Proof.
  intros [B L1 L2 L3 L4 L5 L6 L7 L8 L9]. assert (nmeta + total fs = im_freeblock st) as En by (by rewrite L6).
  split; rewrite ?En.
  - rewrite L8. apply sb_readback.
  - exact L9.
  - by apply building_fs_ok.
  - intros b Hb. by apply used_shown.
  - intros i f Hi. by apply L3.
  - exact L7.
  - intros b Hb. by apply length_shown.
  - intros i f Hi. destruct (L4 i f Hi) as [I1 I2 I3 [I4 _ _] I5 I6]. split_and!; [exact I2|exact I3|exact I5|exact I4].
  - intros i f b Hi Ho. destruct (L4 i f Hi) as [I1 I2 I3 I4 I5 I6]. destruct (fo_data _ _ _ _ _ I3 b Ho) as [Hd _].
    pose proof (data_block_shown _ _ B Hd). assert (~ meta b) as Hm by (intros Hm; by apply (I6 b Hm)). unfold meta in Hm. change nmeta with 46. lia.
  - exact L5.
Qed.

(** C10: mkfs builds a file system: when the files named on the command line, at
    most 197, can be read, have names without a slash, are at most MAXFILE
    blocks long and fit on the disk with the root directory, and their number
    plus 2 is not a multiple of 64 (62, 126 and 190 files are left out: mkfs then
    rounds the size of the root directory up by a block that it has not), the
    image has the superblock, an empty log and a bitmap of exactly the blocks in use; the
    root directory is a whole number of blocks with ".", ".." and one entry for
    each file, in order; and each file has an inode, with blocks of its own and
    the bytes that were read. *)
Theorem mkfs_image host argv0 image paths files
  (Hg : Forall2 (given host) paths files) (Hn : (length files <= 197)%nat) (Hm : (Z.of_nat (length files) + 2) mod 64 <> 0)
  (Hs : Forall (fun f => Z.of_nat (length f.2) <= MAXFILE * BSIZE) files)
  (Hr : nblk (16 * (2 + Z.of_nat (length files))) + blocks (regular files) <= nblocks) :
  exists st fs, mkfs_main host (argv0 :: image :: paths) empty_img = Ok tt st /\ image_ok (im_disk st) fs /\
    (fun f => (mf_type f, mf_bytes f)) <$> fs = (T_DIR, root_bytes files) :: regular files.
Proof.
  destruct (mkfs_main_ok host argv0 image paths files Hg Hn Hm Hs Hr) as (st & fs & E & Efs & st0 & L & V).
  exists st, fs. split_and!; [done| |done]. rewrite V. by apply layout_image.
Qed.

(** An instance of [mkfs_image]: an image with the file README. *)
Lemma mkfs_image_witness : exists st fs f,
  mkfs_main (fun _ => Some [bytes "xv6"]) [bytes "mkfs"; bytes "fs.img"; bytes "README"] empty_img = Ok tt st /\
  image_ok (im_disk st) fs /\ fs !! 1%nat = Some f /\ mf_type f = T_FILE /\ mf_bytes f = bytes "xv6".
Proof.
  destruct (mkfs_image (fun _ => Some [bytes "xv6"]) (bytes "mkfs") (bytes "fs.img") [bytes "README"] [(bytes "README", bytes "xv6")])
    as (st & fs & E & I & Efs).
  - constructor; [|constructor]. split; [by apply (bool_decide_unpack _); vm_compute|]. split; [reflexivity|]. eexists. split; reflexivity.
  - cbn. lia.
  - discriminate.
  - constructor; [|constructor]. vm_compute. discriminate.
  - vm_compute. discriminate.
  - apply (f_equal (fun l => l !! 1%nat)) in Efs. rewrite list_lookup_fmap in Efs. destruct (fs !! 1%nat) as [f|] eqn:Ef; [|discriminate].
    injection Efs as Ht Hb. exists st, fs, f. split; [exact E|]. split; [exact I|]. split; [exact Ef|]. split; [exact Ht|exact Hb].
Defined.
