(* ===== verification/MkfsBoot.v ===== *)
(** The kernel on the image of mkfs: fsinit() mounts it, and every file that was
    given to mkfs is found by its path and reads back byte for byte. *)

From Stdlib Require Import FunctionalExtensionality.
From S2P Require Import Prelude Layout Kernel Sched Bio Log Fs Dir DirSpec Ring Cache Crash LogProof Transaction CacheInit FsAlloc FsExample FsFile FsWrite FsContent Inodes Lookup.
From S2P Require Import Mkfs MkfsSpec MkfsImage MkfsProps.

(** ** fsinit() *)

Section Mount.
Context (me : nat) (pid dev start lsize : Z) (e : list (kernel -> kernel)) (sb : superblock).

Lemma readsb_ok s d : cache s me pid dev (fun _ => 0) none d -> 0 <= dev < 2 ^ 31 ->
  exists s', readsb dev (mkWorld s e) = Ok (sb_of_bytes (d 1)) (mkWorld s' e) /\ cache s' me pid dev (fun _ => 0) none d /\
    k_disk s' = k_disk s /\ cframe s s'.
Proof.
  intros C Hd. destruct (bread_ok me pid dev e 1 s _ _ _ C) as (j & s1 & E1 & C1 & F1 & D1 & W1 & H1 & K1); [done|lia| |].
  { right. exists []. split; [unfold NBUF; cbn; lia|]. intros x Hx. by destruct Hx. }
  destruct (get_data_ok me pid dev e _ _ _ _ _ _ C1 H1) as (b & E2 & V2).
  destruct (brelse_cache me pid dev e 1 s1 _ _ _ j C1) as (s2 & E3 & C2 & F2 & D2 & W2 & H2); [by rewrite zset_eq|done| |].
  { intros _. rewrite D1. apply (ca_clean _ _ _ _ _ _ _ C). done. }
  exists s2. split_and!; [|eapply cache_ext; [exact C2| | |done]; intros x; unfold zset, none; by destruct (x =? 1)|by rewrite D2|].
  - unfold readsb. rewrite u32_small by lia. run E1. run E2. run E3. by rewrite V2.
  - by eapply cframe_trans.
Qed.

(** Mounting a disk whose log is empty. *)
Lemma fsinit_ok s d : booted me pid dev sb s d -> sb_of_bytes (d 1) = sb -> sb_magic sb = FSMAGIC -> sb_logstart sb = start -> sb_nlog sb = lsize ->
  tx_ok start lsize (d start) [] -> hb_n (d start) = 0 -> hb_set_n 0 (d start) = d start ->
  log_outstanding (k_log s) = 0 -> log_committing (k_log s) = false ->
  exists s', fsinit dev (mkWorld s e) = Ok tt (mkWorld s' e) /\ idle me pid dev start lsize s' d /\ k_sb s' = sb /\ k_inodes s' = k_inodes s.
Proof.
  intros [B1 B2 B3 B4 B5] Hsb Hmag Hst Hsz T Hn0 Hset Ho Hc.
  destruct (readsb_ok s d B2 B5) as (s1 & E1 & C1 & D1 & F1). set (s2 := s1 <| k_sb := sb |>).
  assert (cache s2 me pid dev (fun _ => 0) none d) as C2 by (destruct C1 as [[] ? ? ? ? ? ?]; split; auto; by split).
  assert (k_disk s2 = d) as D2 by (change (k_disk s1 = d); by rewrite D1).
  assert (recovered start d = d) as Hrec.
  { apply functional_extensionality. intros x. unfold recovered, logged. rewrite Hn0, Hset. change (Z.to_nat 0) with 0%nat. cbn [seq fmap list_fmap app]. unfold apply_writes, disk_set. cbn. by destruct (Z.eqb_spec x start) as [->|]. }
  assert (k_log s2 = k_log s) as L2 by (change (k_log s1 = k_log s); by apply cframe_log).
  destruct (initlog_ok me pid dev start lsize e s2 (fun _ => 0) sb) as (s3 & E3 & C3 & D3 & W3 & N3 & F3 & bl & Hbl & L3); rewrite ?D2, ?L2; auto; [lia|by rewrite listed_empty|].
  rewrite D2, Hrec in C3, D3. rewrite L2 in L3. exists s3. split_and!.
  - unfold fsinit. run E1. rewrite Hsb. rewrite bind_modify. fold s2. rewrite Hmag. change (negb (FSMAGIC =? FSMAGIC)) with false. cbn iota. exact E3.
  - split; auto; rewrite ?L3; auto. split; rewrite ?L3; done.
  - by rewrite (tframe_sb _ _ F3).
  - destruct F3 as [-> _]. change (k_inodes s1 = k_inodes s). by destruct F1 as [-> _].
Qed.
End Mount.

(** ** The root directory *)

Lemma entry_scan inum nm rest name off n : 0 <= inum < 2 ^ 16 ->
  dir_scan (S n) (entry inum nm ++ rest) name off =
  if (inum =? 0) || negb (namecmp name (lstrncpy (Z.to_nat DIRSIZ) nm) =? 0) then dir_scan n rest name (off + 16) else Some (off, inum).
Proof.
  intros Hi. destruct (dirent_bytes inum nm) as [_ Er]. rewrite u16_small in Er by done. fold (entry inum nm) in Er.
  cbn [dir_scan]. rewrite take_app_length', drop_app_length' by (by rewrite length_entry). by rewrite Er.
Qed.

(** Whether an entry is the one looked for. *)
Lemma entry_same nm name : no_nul nm -> no_nul name ->
  (namecmp name (lstrncpy (Z.to_nat DIRSIZ) nm) =? 0) = bool_decide (take 14 name = take 14 nm).
Proof.
  intros H1 H2. destruct (dirent_roundtrip 0 nm name H1 H2) as (_ & Er & Ec). rewrite Er in Ec. cbn [de_name] in Ec.
  destruct (Z.eqb_spec (namecmp name (lstrncpy (Z.to_nat DIRSIZ) nm)) 0); symmetry; [apply bool_decide_eq_true_2|apply bool_decide_eq_false_2]; tauto.
Qed.

Lemma zeroes_scan name m : forall n off, dir_scan n (replicate m 0) name off = None.
Proof.
  intros n. revert m. induction n as [|n IH]; intros m off; [done|]. cbn [dir_scan]. rewrite take_replicate, drop_replicate.
  assert (forall k, de_inum (de_of_bytes (replicate k 0)) = 0) as ->; [|by cbn].
  intros k. unfold de_of_bytes, rdn, rdb. cbn [de_inum]. rewrite drop_replicate, take_replicate. generalize (2 `min` (k - 0))%nat. intros j.
  induction j as [|j IHj]; [done|]. cbn [replicate le_val]. by rewrite IHj.
Qed.

(** The names given to mkfs, as dirlookup() compares them. *)
Definition names_ok (files : list (list Z * list Z)) : Prop := Forall (fun f => no_nul f.1) files.

Lemma entries_scan name m files : forall inum off n x, 0 <= inum -> inum + Z.of_nat (length files) < 2 ^ 16 ->
  dir_scan n (entries inum files ++ replicate m 0) name off = Some x -> inum <= x.2 < inum + Z.of_nat (length files).
Proof.
  induction files as [|f files IH]; intros inum off n x Hi Hlen E; cbn [entries app] in E; [by rewrite zeroes_scan in E|].
  cbn [length] in *. destruct n as [|n]; [done|]. rewrite <- app_assoc, entry_scan in E by lia.
  destruct ((inum =? 0) || _); [|injection E as <-; cbn; lia]. apply IH in E; lia.
Qed.

Lemma entries_find m files i f : names_ok files -> NoDup (take 14 ∘ fst <$> files) -> files !! i = Some f ->
  forall inum off n, 0 < inum -> inum + Z.of_nat (length files) < 2 ^ 16 -> (length files <= n)%nat ->
  dir_scan n (entries inum files ++ replicate m 0) (take 14 f.1) off = Some (off + 16 * Z.of_nat i, inum + Z.of_nat i).
Proof.
  intros Hf Hnd Hi. revert i Hi. induction files as [|g files IH]; intros i Hi inum off n Hin Hlen Hn; [done|].
  apply Forall_cons in Hf as [Hf1 Hf2]. rewrite fmap_cons in Hnd. apply NoDup_cons in Hnd as [Hnd1 Hnd2].
  cbn [length entries] in *. destruct n as [|n]; [lia|].
  assert (no_nul f.1) as Hff by (destruct i as [|i]; [by injection Hi as ->|by eapply Forall_lookup_1 in Hf2]).
  rewrite <- app_assoc, entry_scan, entry_same by (done || lia || by apply Forall_take). replace (inum =? 0) with false by lia. cbn [orb]. rewrite take_idemp.
  destruct i as [|i].
  - injection Hi as ->. rewrite bool_decide_eq_true_2 by done. cbn [negb]. do 2 f_equal; lia.
  - rewrite bool_decide_eq_false_2.
    + cbn [negb]. rewrite (IH Hf2 Hnd2 i Hi) by lia. do 2 f_equal; lia.
    + intros E. apply Hnd1. apply list_elem_of_fmap. exists f. split; [done|]. by eapply list_elem_of_lookup_2.
Qed.

(** ** The image as a tree *)

Section Image.
Context (d : Z -> block) (fs : list mfile) (files : list (list Z * list Z)).
Hypothesis Hio : image_ok d fs.
Hypothesis Hfs : (fun f => (mf_type f, mf_bytes f)) <$> fs = (T_DIR, root_bytes files) :: regular files.
Hypothesis Hn : (length files <= 197)%nat.
Hypothesis Hnames : names_ok files.

Definition inum_of (inum : Z) : Prop := exists i f, inum = 1 + Z.of_nat i /\ fs !! i = Some f.

Lemma image_slot i f : fs !! i = Some f -> ondisk mkfs_sb d (1 + Z.of_nat i) = file_inode f.
Proof. apply (io_inode _ _ Hio). Qed.

Lemma image_length : length fs = S (length files).
Proof. pose proof (f_equal length Hfs) as E. unfold regular in E. cbn [length] in E. by rewrite !length_fmap in E. Qed.

Lemma image_root : exists f, fs !! 0%nat = Some f /\ mf_type f = T_DIR /\ mf_bytes f = root_bytes files.
Proof.
  pose proof (f_equal (fun l => l !! 0%nat) Hfs) as E. rewrite list_lookup_fmap in E. destruct (fs !! 0%nat) as [f|]; [|discriminate].
  exists f. change (Some (mf_type f, mf_bytes f) = Some (T_DIR, root_bytes files)) in E. injection E as E1 E2. split_and!; [reflexivity|exact E1|exact E2].
Qed.

Lemma image_file i f : fs !! S i = Some f -> exists g, files !! i = Some g /\ mf_type f = T_FILE /\ mf_bytes f = g.2.
Proof.
  intros Hi. apply (f_equal (fun l => l !! S i)) in Hfs. rewrite list_lookup_fmap, Hi in Hfs. cbn [fmap option_fmap option_map] in Hfs.
  change (Some (mf_type f, mf_bytes f) = regular files !! i) in Hfs. unfold regular in Hfs. symmetry in Hfs. apply list_lookup_fmap_Some in Hfs as (g & [= E1 E2] & Hg). eauto.
Qed.

Lemma image_whole i f : fs !! i = Some f -> whole 2 30 mkfs_sb d (file_inode f).
Proof.
  intros Hi. destruct (io_file _ _ Hio i f Hi) as (I1 & I2 & I3 & I4). split_and!; cbn [file_inode di_addrs di_size]; auto using Nat2Z.is_nonneg.
  intros x Hx. change (MAXFILE * BSIZE) with 274432 in I1. destruct (file_pos x (mf_size f) Hx I1) as [P1 P2].
  assert (fblock d (mf_addrs f) (x / BSIZE) <> 0) as H0 by (by apply I4). split; [done|]. apply (fo_data _ _ _ _ _ I2). by apply owned_block.
Qed.

Lemma image_contents i f : fs !! i = Some f -> dcontents d (file_inode f) = mf_bytes f.
Proof. intros Hi. unfold dcontents. cbn [file_inode di_addrs di_size]. rewrite Nat2Z.id. by apply (io_file _ _ Hio i f Hi). Qed.

(** The root directory is the entries, then zeroes. *)
Lemma root_scan name : exists m n, (2 + length files <= n)%nat /\
  dir_find (root_bytes files) name = dir_scan n (entry 1 (bytes ".") ++ entry 1 (bytes "..") ++ entries 2 files ++ replicate m 0) name 0.
Proof.
  eexists _, _. split; [|unfold dir_find; unfold root_bytes at 2; unfold padded; rewrite <- !app_assoc; reflexivity].
  pose proof (length_padded (entry 1 (bytes ".") ++ entry 1 (bytes "..") ++ entries 2 files)) as Hl. fold (root_bytes files) in Hl.
  rewrite !length_app, !length_entry, length_entries in Hl. change BSIZE with 1024 in Hl.
  assert (16 * (2 + length files) <= length (root_bytes files))%nat as Hle by (Z.to_euclidean_division_equations; lia).
  apply Nat.div_le_lower_bound; lia.
Qed.

Lemma root_range name off x : dir_find (root_bytes files) name = Some (off, x) -> inum_of x.
Proof.
  intros E. pose proof image_length as Hlen. assert (1 <= x < 2 + Z.of_nat (length files)) as Hx.
  { destruct (root_scan name) as (m & n & Hn2 & Es). rewrite Es in E. destruct n as [|[|n]]; [lia..|]. rewrite !entry_scan in E by lia.
    cbn [Z.eqb orb] in E. destruct (negb _); [|injection E as _ <-; lia].
    destruct (negb _); [|injection E as _ <-; lia]. apply entries_scan in E; cbn [snd] in E; lia. }
  destruct (lookup_lt_is_Some_2 fs (Z.to_nat (x - 1))) as [f Hf]; [lia|]. exists (Z.to_nat (x - 1)), f. split; [lia|done].
Qed.

Lemma root_find i f : files !! i = Some f -> NoDup (take 14 ∘ fst <$> files) -> take 14 f.1 <> bytes "." -> take 14 f.1 <> bytes ".." ->
  exists off, dir_find (root_bytes files) (take 14 f.1) = Some (off, 2 + Z.of_nat i).
Proof.
  intros Hi Hnd H1 H2. destruct (root_scan (take 14 f.1)) as (m & n & Hn2 & ->). destruct n as [|[|n]]; [lia..|].
  assert (no_nul f.1) as Hf by (by eapply Forall_lookup_1 in Hnames).
  assert (forall k, no_nul (take k f.1)) as Hft by (intros k; by apply Forall_take).
  rewrite entry_scan, entry_same, bool_decide_eq_false_2; cbn [Z.eqb orb negb]; rewrite ?take_idemp; auto; [|by repeat constructor|lia].
  rewrite entry_scan, entry_same, bool_decide_eq_false_2; cbn [Z.eqb orb negb]; rewrite ?take_idemp; auto; [|by repeat constructor|lia].
  eexists. apply entries_find; auto; lia.
Qed.

Lemma image_tree : tree 2 30 mkfs_sb d inum_of.
Proof.
  assert (forall i f, fs !! i = Some f -> mf_type f = T_DIR -> mf_bytes f = root_bytes files) as Hdir.
  { intros [|i] f Hi Ht; [destruct image_root as (f0 & E & _ & Hb); by simplify_eq|]. destruct (image_file i f Hi) as (g & _ & E & _). rewrite Ht in E. done. }
  split.
  - intros inum (i & f & -> & Hi). rewrite (image_slot i f Hi). cbn [file_inode di_type].
    destruct i as [|i]; [destruct image_root as (f0 & E & Ht & _); simplify_eq; by rewrite Ht|]. destruct (image_file i f Hi) as (g & _ & -> & _). done.
  - intros inum (i & f & -> & Hi). rewrite (image_slot i f Hi). done.
  - intros inum (i & f & -> & Hi) Ht. rewrite (image_slot i f Hi) in *. split; [by apply (image_whole i)|]. cbn [file_inode di_size di_type] in *.
    rewrite (Hdir i f Hi Ht). unfold root_bytes. rewrite length_padded. change BSIZE with 1024. Z.to_euclidean_division_equations. lia.
  - intros inum name off inum' (i & f & -> & Hi) Ht. rewrite (image_slot i f Hi) in *. rewrite (image_contents i f Hi). cbn [file_inode di_type] in Ht.
    rewrite (Hdir i f Hi Ht). apply root_range.
Qed.
End Image.

(** ** The properties *)

(** No inode is in use. *)
Definition no_inodes (t : list inode) : Prop := length t = NINODE /\ Forall (fun i => i_ref i = 0 /\ sl_locked (i_lock i) = false) t.

Lemma inodes_empty pid dev sb view t : no_inodes t -> inodes pid dev sb view t (fun _ => 0) (fun _ => false).
Proof.
  intros [Hl HF]. rewrite Forall_lookup in HF. split; try done.
  - intros k i Hk. destruct (HF k i Hk) as [H0 Hu]. unfold ient_ok. by rewrite decide_True.
  - intros j k i i' Hj _ H0. by destruct (HF j i Hj).
Qed.

(** Reading a file through its path, as a system call does. *)
Definition read_path (path : list Z) (n : Z) : K (Z * list Z) :=
  begin_op ;;
  let* r := namei path in
  match r with
  | Some ip => ilock (Some ip) ;; readi ip (DLocal 0) 0 n
  | None => ret (-1, [])
  end.

Lemma split_name name : SLASH ∉ name -> split_path name = [name].
Proof.
  induction name as [|c name IH]; intros Hn; [done|]. cbn [split_path].
  replace (c =? SLASH) with false by (symmetry; apply Z.eqb_neq; set_solver). rewrite IH by set_solver. done.
Qed.

Lemma components_name name : SLASH ∉ name -> name <> [] -> components (SLASH :: name) = [take 14 name].
Proof.
  intros Hs H0. unfold components. cbn [split_path]. rewrite Z.eqb_refl. cbn [List.filter]. rewrite (split_name _ Hs). cbn [List.filter].
  change (nonempty []) with false. unfold nonempty. rewrite bool_decide_eq_false_2 by done. done.
Qed.

Section Reads.
Context (me : nat) (pid : Z) (e : list (kernel -> kernel)) (d : Z -> block) (fs : list mfile) (files : list (list Z * list Z)).
Hypothesis Hio : image_ok d fs.
Hypothesis Hfs : (fun f => (mf_type f, mf_bytes f)) <$> fs = (T_DIR, root_bytes files) :: regular files.
Hypothesis Hn : (length files <= 197)%nat.
Hypothesis Hnames : names_ok files.
Hypothesis Hnd : NoDup (take 14 ∘ fst <$> files).

Lemma read_path_ok s i f : idle me pid ROOTDEV 2 30 s d -> k_sb s = mkfs_sb -> no_inodes (k_inodes s) ->
  files !! i = Some f -> SLASH ∉ f.1 -> f.1 <> [] -> take 14 f.1 <> bytes "." -> take 14 f.1 <> bytes ".." ->
  exists s', read_path (SLASH :: f.1) (Z.of_nat (length f.2)) (mkWorld s e) = Ok (Z.of_nat (length f.2), f.2) (mkWorld s' e).
Proof.
  intros I Hsb Hin Hi Hsl H0 Hd1 Hd2. destruct (begin_op_ok me pid ROOTDEV 2 30 e s d I) as (s1 & E1 & X1 & _ & F1).
  assert (fsys me pid ROOTDEV 2 30 mkfs_sb s1 d [] d (fun _ => 0) (fun _ => false)) as G1.
  { split; [done|by rewrite (tframe_sb _ _ F1)|rewrite (tframe_inodes _ _ F1); by apply inodes_empty]. }
  destruct (iget_ok me pid ROOTDEV 2 30 e mkfs_sb s1 d [] d _ _ ROOTINO [] G1) as (ip & s2 & E2 & G2 & C2 & _); [lia|done|unfold NINODE; cbn; lia|].
  pose proof (image_tree d fs files Hio Hfs Hn) as Ht.
  destruct (image_root fs files Hfs) as (f0 & Hf0 & Ht0 & Hb0).
  assert (at_inode me pid ROOTDEV 2 30 mkfs_sb d [] d (inum_of fs) (fun _ => 0) (fun _ => false) s2 ip ROOTINO) as A2.
  { split_and!; [|done|by exists O, f0]. eapply fsys_ext; [exact G2| |done]. intros x. apply plus_zset. }
  destruct (namex_loop_ok me pid ROOTDEV 2 30 e mkfs_sb d [] d (inum_of fs) (fun _ => 0) (fun _ => false) [] Ht ltac:(done) ltac:(lia) ltac:(done) ltac:(cbn; lia)
    (length (SLASH :: f.1)) (SLASH :: f.1) s2 ip ROOTINO [] ltac:(lia) A2) as (s3 & nm & H3).
  rewrite components_name in H3 by done. cbn [resolve] in H3. change ROOTINO with (1 + Z.of_nat 0) in H3.
  rewrite (image_slot d fs Hio 0 f0 Hf0), (image_contents d fs Hio 0 f0 Hf0) in H3. cbn [file_inode di_type] in H3. rewrite Ht0, Hb0 in H3.
  change (T_DIR =? T_DIR) with true in H3. cbn iota in H3.
  destruct (root_find files Hn Hnames i f Hi Hnd Hd1 Hd2) as (off & Ef). rewrite Ef in H3. destruct H3 as (ip3 & E3 & A3 & C3 & P3).
  destruct (lookup_lt_is_Some_2 fs (S i)) as [g Hg]; [rewrite (image_length fs files Hfs); pose proof (lookup_lt_Some _ _ _ Hi); lia|].
  destruct (image_file fs files Hfs i g Hg) as (f' & Hf' & Hty & Hby). simplify_eq.
  assert (ondisk mkfs_sb d (2 + Z.of_nat i) = file_inode g) as Hod.
  { rewrite <- (image_slot d fs Hio (S i) g Hg). f_equal. lia. }
  destruct (ilock_ok me pid ROOTDEV 2 30 e mkfs_sb s3 d [] d _ _ ip3 (2 + Z.of_nat i) A3 C3) as (s4 & E4 & G4 & _ & Ld); [done|by rewrite Hod; cbn [file_inode di_type]; rewrite Hty|].
  rewrite Hod in Ld. destruct (loaded_file _ 2 30 mkfs_sb s4 d ip3 _ _ Ld (image_whole d fs Hio (S i) g Hg)) as (j & Hj & Ed & _ & Hfa).
  destruct (io_file _ _ Hio (S i) g Hg) as (I1 & _ & I3 & _). rewrite Hby in I1, I3. change (MAXFILE * BSIZE) with 274432 in I1.
  assert (i_size j = Z.of_nat (length f.2)) as Esz by (change (i_size j) with (di_size (dinode_of j)); rewrite Ed; cbn; by rewrite Hby).
  assert (i_addrs j = mf_addrs g) as Ead by (change (i_addrs j) with (di_addrs (dinode_of j)); by rewrite Ed).
  destruct (readi_ok me pid ROOTDEV 2 30 e mkfs_sb s4 d [] d ip3 j 0 (Z.of_nat (length f.2)) (fy_tx _ _ _ _ _ _ _ _ _ _ _ _ G4) Hfa) as (s5 & E5 & _); [lia|lia|lia|].
  exists s5. unfold read_path. run E1. unfold namei, namex. cbn [hd]. rewrite Z.eqb_refl. rewrite bind_assoc, bind_assoc. run E2.
  change (1 + Z.of_nat 0) with ROOTINO in E3. run E3. rewrite (bind_ok (ret _) _ _ _ _ eq_refl). cbn [fst]. run E4. rewrite E5, Esz.
  replace (Z.of_nat (length f.2) <? 0) with false by lia. rewrite Z.sub_0_r, Z.min_id, Nat2Z.id, Ead, I3. done.
Qed.
End Reads.

Lemma given_name host path f : given host path f -> SLASH ∉ f.1.
Proof.
  intros (Hs & -> & _). unfold strip_underscore. destruct (strip_user path) as [|c n]; [done|]. destruct (c =? chr "_"); [set_solver|done].
Qed.

Lemma mkfs_boot_ok d fs me pid e s : image_ok d fs -> booted me pid ROOTDEV mkfs_sb s d ->
  log_outstanding (k_log s) = 0 -> log_committing (k_log s) = false ->
  exists s', fsinit ROOTDEV (mkWorld s e) = Ok tt (mkWorld s' e) /\ idle me pid ROOTDEV 2 30 s' d /\ k_sb s' = mkfs_sb /\ k_inodes s' = k_inodes s.
Proof.
  intros Hio B Ho Hc. pose proof (io_log _ _ Hio 2 ltac:(lia)) as Hl. apply fsinit_ok; rewrite ?Hl; auto.
  - apply Hio.
  - split; [change LOGSIZE with 30; cbn [length]; lia|lia|done|set_solver|constructor].
Qed.

(** C6: From the host to a read in the kernel: the files that were given to mkfs are
    found by the kernel that boots on the image.  fsinit() mounts the image, and
    in a transaction namei() of "/" and the name of a file, ilock() and readi()
    into a local buffer return exactly the bytes of the file on the host.  This
    is for at most 197 readable files of at most MAXFILE blocks that fit on the
    disk together with the root directory, whose names are not empty, ".", or
    "..", have no slash or NUL and differ in their first DIRSIZ bytes; and their
    number plus 2 is not a multiple of 64, for which mkfs rounds the size of the
    root directory up by a block too many. *)
Theorem mkfs_boot_reads host argv0 image paths files me pid e i f
  (Hg : Forall2 (given host) paths files) (Hn : (length files <= 197)%nat) (Hm : (Z.of_nat (length files) + 2) mod 64 <> 0)
  (Hs : Forall (fun f => Z.of_nat (length f.2) <= MAXFILE * BSIZE) files)
  (Hr : nblk (16 * (2 + Z.of_nat (length files))) + blocks (regular files) <= nblocks)
  (Hnames : names_ok files) (Hnd : NoDup (take 14 ∘ fst <$> files)) (Hi : files !! i = Some f)
  (H0 : f.1 <> []) (H1 : take 14 f.1 <> bytes ".") (H2 : take 14 f.1 <> bytes "..") :
  exists st, mkfs_main host (argv0 :: image :: paths) empty_img = Ok tt st /\
    forall s, booted me pid ROOTDEV mkfs_sb s (im_disk st) -> log_outstanding (k_log s) = 0 -> log_committing (k_log s) = false ->
      no_inodes (k_inodes s) ->
      exists s', (fsinit ROOTDEV ;; read_path (SLASH :: f.1) (Z.of_nat (length f.2))) (mkWorld s e) =
        Ok (Z.of_nat (length f.2), f.2) (mkWorld s' e).
Proof.
  destruct (mkfs_main_ok host argv0 image paths files Hg Hn Hm Hs Hr) as (st & fs & E & Efs & st0 & L & V).
  pose proof (layout_image _ _ L) as Hio. rewrite <- V in Hio. exists st. split; [done|]. intros s B Ho Hc Hin.
  destruct (mkfs_boot_ok _ fs me pid e s Hio B Ho Hc) as (s1 & E1 & I1 & Hsb & Ht). rewrite <- Ht in Hin.
  destruct (Forall2_lookup_r _ _ _ _ _ Hg Hi) as (path & _ & Hp). apply given_name in Hp.
  destruct (read_path_ok me pid e _ fs files Hio Efs Hn Hnames Hnd s1 i f I1 Hsb Hin Hi Hp H0 H1 H2) as (s2 & E2).
  exists s2. by run E1.
Qed.

(** ** An image with the file README, and a kernel that boots on it *)

Definition readme : list (list Z * list Z) := [(bytes "README", bytes "xv6")].
Definition readme_host (path : list Z) : option (list (list Z)) := Some [bytes "xv6"].

Lemma readme_given : Forall2 (given readme_host) [bytes "README"] readme.
Proof. constructor; [|constructor]. split; [by apply (bool_decide_unpack _); vm_compute|]. split; [reflexivity|]. eexists. split; reflexivity. Qed.

Lemma readme_fits : Forall (fun f => Z.of_nat (length f.2) <= MAXFILE * BSIZE) readme /\
  nblk (16 * (2 + Z.of_nat (length readme))) + blocks (regular readme) <= nblocks /\ names_ok readme.
Proof.
  split; [constructor; [|constructor]; vm_compute; discriminate|]. split; [vm_compute; discriminate|].
  constructor; [|constructor]. by apply (bool_decide_unpack _); vm_compute.
Qed.

Lemma readme_booted d : exists s, booted 0 1 ROOTDEV mkfs_sb s d /\ log_outstanding (k_log s) = 0 /\ log_committing (k_log s) = false /\
  no_inodes (k_inodes s).
Proof.
  destruct formatted_binit as (bs & _ & R & Bf).
  exists (formatted <| k_bufs := bs |> <| k_disk := d |> <| k_log ::= fun l => l <| log_outstanding := 0 |> |>). set (s := formatted <| k_bufs := _ |> <| k_disk := _ |> <| k_log ::= _ |>).
  split; [|split; [reflexivity|split; [reflexivity|]]].
  - split; [reflexivity| |reflexivity|vm_compute; split; [discriminate|reflexivity]|unfold ROOTDEV; lia].
    apply (cache_empty s 0 1 ROOTDEV (rev (seq 0 NBUF))); [split; [reflexivity..|]; eexists; split; reflexivity|exact R|].
    intros j b Hj Hb. destruct (Bf j b Hj Hb) as (-> & ? & ?). split_and!; [unfold ROOTDEV; lia|done|done].
  - split; [reflexivity|]. apply Forall_forall. intros x Hx. apply elem_of_replicate_inv in Hx as ->. split; reflexivity.
Qed.

(** The file system of that image, mounted and idle. *)
Lemma readme_idle : exists d fs s, image_ok d fs /\ (fun f => (mf_type f, mf_bytes f)) <$> fs = (T_DIR, root_bytes readme) :: regular readme /\
  idle 0 1 ROOTDEV 2 30 s d /\ k_sb s = mkfs_sb /\ inodes 1 ROOTDEV mkfs_sb d (k_inodes s) (fun _ => 0) (fun _ => false).
Proof.
  destruct readme_fits as (F1 & F2 & F3).
  destruct (mkfs_main_ok readme_host (bytes "mkfs") (bytes "fs.img") [bytes "README"] readme readme_given) as (st & fs & E & Efs & st0 & L & V);
    [cbn; lia|discriminate|exact F1|exact F2|].
  pose proof (layout_image _ _ L) as Hio. rewrite <- V in Hio. destruct (readme_booted (im_disk st)) as (s & B & Ho & Hc & Hin).
  destruct (mkfs_boot_ok _ fs 0 1 [] s Hio B Ho Hc) as (s1 & E1 & I1 & Hsb & Ht). rewrite <- Ht in Hin.
  exists (im_disk st), fs, s1. split_and!; auto using inodes_empty.
Qed.

(** In a transaction on that image. *)
Lemma readme_fsys : exists d fs s, image_ok d fs /\ (fun f => (mf_type f, mf_bytes f)) <$> fs = (T_DIR, root_bytes readme) :: regular readme /\
  fsys 0 1 ROOTDEV 2 30 mkfs_sb s d [] d (fun _ => 0) (fun _ => false).
Proof.
  destruct readme_idle as (d & fs & s1 & Hio & Efs & I1 & Hsb & N).
  destruct (begin_op_ok 0 1 ROOTDEV 2 30 [] s1 _ I1) as (s2 & E2 & X2 & _ & F). exists d, fs, s2. split; [exact Hio|]. split; [exact Efs|].
  split; [exact X2|by rewrite (tframe_sb _ _ F)|by rewrite (tframe_inodes _ _ F)].
Qed.

(** What a name in the root directory of that image resolves to. *)
Lemma readme_resolve d fs name : image_ok d fs -> (fun f => (mf_type f, mf_bytes f)) <$> fs = (T_DIR, root_bytes readme) :: regular readme ->
  resolve mkfs_sb d ROOTINO [name] = snd <$> dir_find (root_bytes readme) name.
Proof.
  intros Hio Efs. destruct (image_root fs readme Efs) as (f0 & Hf0 & Ht0 & Hb0). cbn [resolve]. change ROOTINO with (1 + Z.of_nat 0).
  rewrite (image_slot d fs Hio 0 f0 Hf0), (image_contents d fs Hio 0 f0 Hf0). cbn [file_inode di_type]. rewrite Ht0, Hb0.
  change (T_DIR =? T_DIR) with true. cbn iota. by destruct (dir_find (root_bytes readme) name) as [[off x]|].
Qed.

(** An instance of [mkfs_boot_reads]: README on a freshly booted kernel. *)
Lemma mkfs_boot_reads_witness : exists st s s',
  mkfs_main readme_host [bytes "mkfs"; bytes "fs.img"; bytes "README"] empty_img = Ok tt st /\
  booted 0 1 ROOTDEV mkfs_sb s (im_disk st) /\
  (fsinit ROOTDEV ;; read_path (bytes "/README") 3) (mkWorld s []) = Ok (3, bytes "xv6") (mkWorld s' []).
Proof.
  destruct readme_fits as (F1 & F2 & F3).
  destruct (mkfs_boot_reads readme_host (bytes "mkfs") (bytes "fs.img") [bytes "README"] readme 0 1 [] 0 (bytes "README", bytes "xv6") readme_given)
    as (st & E & H); [cbn; lia|discriminate|exact F1|exact F2|exact F3|apply NoDup_singleton|reflexivity|discriminate|discriminate|discriminate|].
  destruct (readme_booted (im_disk st)) as (s & B & Ho & Hc & Hin). destruct (H s B Ho Hc Hin) as (s' & E').
  exists st, s, s'. split; [exact E|]. split; [exact B|exact E'].
Defined.

(** An instance of [namei_spec]: a path with several slashes and a missing file. *)
Lemma namei_spec_witness : exists d fs s, image_ok d fs /\
  (exists s' ip, namei (bytes "//README/") (mkWorld s []) = Ok (Some ip) (mkWorld s' []) /\ cached (k_inodes s') ip 2) /\
  exists s', namei (bytes "/LICENSE") (mkWorld s []) = Ok None (mkWorld s' []).
Proof.
  destruct readme_fsys as (d & fs & s & Hio & Efs & F). exists d, fs, s. split; [exact Hio|].
  pose proof (image_tree d fs readme Hio Efs ltac:(cbn; lia)) as Ht. destruct (image_root fs readme Efs) as (f0 & Hf0 & Ht0 & Hb0).
  assert (inum_of fs ROOTINO) as HP by (by exists O, f0).
  assert (dir_find (root_bytes readme) (bytes "README") = Some (32, 2) /\ dir_find (root_bytes readme) (bytes "LICENSE") = None) as [R1 R2] by (split; vm_compute; reflexivity).
  split.
  - destruct (namei_spec 0 1 2 30 [] mkfs_sb s d [] d (fun _ => 0) (fun _ => false) [] (inum_of fs) (bytes "//README/") ROOTINO F) as (s' & H);
      [left; split; reflexivity|exact Ht|exact HP|reflexivity|lia|done|unfold NINODE; cbn; lia|].
    change (components (bytes "//README/")) with [bytes "README"] in H. rewrite (readme_resolve d fs _ Hio Efs), R1 in H. destruct H as (ip & E & C & _). exists s', ip. split; [exact E|exact C].
  - destruct (namei_spec 0 1 2 30 [] mkfs_sb s d [] d (fun _ => 0) (fun _ => false) [] (inum_of fs) (bytes "/LICENSE") ROOTINO F) as (s' & H);
      [left; split; reflexivity|exact Ht|exact HP|reflexivity|lia|done|unfold NINODE; cbn; lia|].
    change (components (bytes "/LICENSE")) with [bytes "LICENSE"] in H. rewrite (readme_resolve d fs _ Hio Efs), R2 in H. destruct H as (E & _). exists s'. exact E.
Defined.
