(* ===== verification/DirLink.v ===== *)
(** dirlink() of kernel/fs.c: adding a name to a directory, so that dirlookup()
    finds it and finds everything else as before. *)

From S2P Require Import Prelude Layout Kernel Sched Bio Log Fs Dir DirSpec Ring Cache Crash LogProof Transaction CacheInit FsAlloc FsExample FsFile FsWrite FsContent Inodes Lookup.
From S2P Require Import Mkfs MkfsSpec MkfsImage MkfsProps MkfsBoot.

(** ** Directories as bytes *)

(** Where the new entry goes: the first that is not in use, or the end. *)
Fixpoint dir_free (n : nat) (data : list Z) (off : Z) : Z :=
  match n with
  | O => off
  | S n' => if de_inum (de_of_bytes (take 16 data)) =? 0 then off else dir_free n' (drop 16 data) (off + 16)
  end.

(** The number of the entry [dir_free] finds. *)
Fixpoint free_slot (n : nat) (data : list Z) : nat :=
  match n with
  | O => O
  | S n' => if de_inum (de_of_bytes (take 16 data)) =? 0 then O else S (free_slot n' (drop 16 data))
  end.

Lemma dir_free_slot n : forall data off, dir_free n data off = off + 16 * Z.of_nat (free_slot n data).
Proof.
  induction n as [|n IH]; intros data off; cbn [dir_free free_slot]; [lia|]. destruct (_ =? 0); [lia|]. rewrite IH. lia.
Qed.

Lemma free_slot_le n : forall data, (free_slot n data <= n)%nat.
Proof. induction n as [|n IH]; intros data; cbn [free_slot]; [done|]. destruct (_ =? 0); [lia|]. specialize (IH (drop 16 data)). lia. Qed.

Lemma overlay_0 data en : overlay data 0 en = en ++ drop (length en) data.
Proof. done. Qed.

Lemma overlay_next data k en : (16 <= length data)%nat -> overlay data (16 + k) en = take 16 data ++ overlay (drop 16 data) k en.
Proof.
  intros Hl. unfold overlay. rewrite drop_drop, <- (take_drop 16 data) at 1. rewrite take_app, take_take, length_take.
  rewrite (Nat.min_r (16 + k) 16), (Nat.min_l 16 (length data)) by lia. replace (16 + k - 16)%nat with k by lia. rewrite <- !app_assoc. do 3 f_equal.
Qed.

(** The entries of the directory after the new one is written, as dirlookup()
    goes through them. *)
Lemma scan_link name en n : forall data off, length data = (16 * n)%nat -> length en = 16%nat ->
  let de := de_of_bytes en in
  let n' := (if decide (free_slot n data = n) then S n else n)%nat in
  de_inum de <> 0 ->
  dir_scan n' (overlay data (16 * free_slot n data) en) name off =
    if namecmp name (de_name de) =? 0 then
      match dir_scan (free_slot n data) data name off with Some r => Some r | None => Some (dir_free n data off, de_inum de) end
    else dir_scan n data name off.
Proof.
  intros data off Hl He de. revert data off Hl. induction n as [|n IH]; intros data off Hl n' H0.
  - destruct data; [|cbn in Hl; lia]. subst n'. cbn [free_slot]. rewrite decide_True by done. change (16 * 0)%nat with 0%nat. rewrite overlay_0, drop_nil, app_nil_r.
    cbn [dir_scan dir_free]. rewrite take_ge by lia. fold de. replace (de_inum de =? 0) with false by lia. cbn [orb]. by destruct (namecmp _ _ =? 0).
  - subst n'. cbn [free_slot dir_free]. destruct (Z.eqb_spec (de_inum (de_of_bytes (take 16 data))) 0) as [Hz|Hz].
    + rewrite decide_False by lia. change (16 * 0)%nat with 0%nat. rewrite overlay_0, He. cbn [dir_scan]. rewrite take_app_length', drop_app_length' by done. fold de.
      replace (de_inum de =? 0) with false by lia. rewrite Hz. cbn [orb Z.eqb]. by destruct (namecmp _ _ =? 0).
    + replace (16 * S (free_slot n (drop 16 data)))%nat with (16 + 16 * free_slot n (drop 16 data))%nat by lia.
      rewrite overlay_next by lia. specialize (IH (drop 16 data) (off + 16)). rewrite length_drop in IH. specialize (IH ltac:(lia) H0).
      set (n'' := (if decide (S (free_slot n (drop 16 data)) = S n) then S (S n) else S n)%nat).
      assert (n'' = S (if decide (free_slot n (drop 16 data) = n) then S n else n)) as ->.
      { unfold n''. destruct (decide (free_slot n (drop 16 data) = n)); [rewrite decide_True by lia|rewrite decide_False by lia]; done. }
      cbn [dir_scan]. rewrite take_app_length', drop_app_length' by (rewrite length_take; lia). rewrite IH.
      replace (de_inum _ =? 0) with false by lia. cbn [orb]. destruct (namecmp name (de_name (de_of_bytes (take 16 data))) =? 0); cbn [negb]; [|done].
      by destruct (namecmp _ _ =? 0).
Qed.

(** Only the first DIRSIZ bytes of a name count. *)
Lemma lstrncmp_take n : forall p q, lstrncmp n (take n p) q = lstrncmp n p q.
Proof. induction n as [|n IH]; intros [|a p] q; cbn [take lstrncmp hd tail]; rewrite ?IH, ?take_nil; done. Qed.

Lemma scan_take name n : forall data off, dir_scan n data (take 14 name) off = dir_scan n data name off.
Proof. induction n as [|n IH]; intros data off; [done|]. cbn [dir_scan]. rewrite IH. unfold namecmp. by rewrite lstrncmp_take. Qed.

(** What a scan finds among fewer entries. *)
Lemma scan_fewer name n m : (m <= n)%nat -> forall data off, dir_scan n data name off = None -> dir_scan m data name off = None.
Proof.
  revert m. induction n as [|n IH]; intros m Hm data off; [by assert (m = 0%nat) as -> by lia|]. destruct m as [|m]; [done|]. cbn [dir_scan].
  destruct (_ || _); [|done]. apply IH. lia.
Qed.

Lemma length_overlay_slot data n en : length data = (16 * n)%nat -> length en = 16%nat ->
  length (overlay data (16 * free_slot n data) en) = (16 * (if decide (free_slot n data = n) then S n else n))%nat.
Proof.
  intros Hl He. pose proof (free_slot_le n data). unfold overlay. rewrite !length_app, length_take, length_drop, He. case_decide; lia.
Qed.

Definition link_entry (name : list Z) (inum : Z) : list Z := de_bytes (mkDirent (u16 inum) (lstrncpy (Z.to_nat DIRSIZ) name)).

(** A directory of whole entries, as dirlink() leaves it. *)
Definition linked (data name : list Z) (inum : Z) : list Z :=
  overlay data (16 * free_slot (length data / 16) data) (link_entry name inum).

Lemma linked_slot data n name x : length data = (16 * n)%nat ->
  linked data name x = overlay data (16 * free_slot n data) (link_entry name x) /\ exists m, length (linked data name x) = (16 * m)%nat.
Proof.
  intros Hl. assert (linked data name x = overlay data (16 * free_slot n data) (link_entry name x)) as E.
  { unfold linked. replace (length data / 16)%nat with n; [done|]. rewrite Hl, Nat.mul_comm. by rewrite Nat.div_mul. }
  split; [done|]. eexists. rewrite E. apply length_overlay_slot; [done|apply dirent_bytes].
Qed.

Lemma find_linked data name inum other : (length data mod 16 = 0)%nat -> u16 inum <> 0 -> no_nul name -> no_nul other ->
  dir_find data name = None ->
  dir_find (linked data name inum) other =
    if bool_decide (take 14 other = take 14 name) then Some (dir_free (length data / 16) data 0, u16 inum) else dir_find data other.
Proof.
  intros Hl H0 Hn Ho Hf. pose proof (dirent_bytes inum name) as [HL Er]. destruct (dirent_roundtrip inum name other Hn Ho) as (_ & _ & Hc).
  set (n := (length data / 16)%nat) in *. assert (length data = (16 * n)%nat) as Hd by (unfold n; pose proof (Nat.div_mod_eq (length data) 16); lia).
  unfold linked, link_entry. set (de := mkDirent _ _) in *. set (en := de_bytes de) in *. change (Z.to_nat sizeof_dirent) with 16%nat in HL.
  unfold dir_find at 1. fold n. rewrite length_overlay_slot, Nat.mul_comm, Nat.div_mul by done. rewrite scan_link; rewrite ?Er; try done.
  rewrite Er in Hc. destruct (Z.eqb_spec (namecmp other (de_name de)) 0) as [E|E].
  - rewrite bool_decide_eq_true_2 by tauto. apply Hc in E. replace (dir_scan (free_slot n data) data other 0) with (@None (Z * Z)); [done|].
    symmetry. eapply scan_fewer; [apply free_slot_le|]. unfold dir_find in Hf. fold n in Hf. rewrite <- scan_take, E, scan_take. exact Hf.
  - rewrite bool_decide_eq_false_2 by tauto. done.
Qed.

(** ** The inode of a file that was written *)

Lemma inodes_write pid dev sb view view' t ref lck ip i i' : inodes pid dev sb view t ref lck -> t !! ip = Some i -> i_ref i <> 0 ->
  (i_inum i', i_ref i', i_dev i', i_lock i', i_valid i') = (i_inum i, i_ref i, i_dev i, i_lock i, i_valid i) ->
  dinode_of i' = ondisk sb view' (i_inum i) -> (forall x, ref x <> 0 -> x <> i_inum i -> ondisk sb view' x = ondisk sb view x) ->
  inodes pid dev sb view' (<[ip := i']> t) ref lck.
Proof.
  intros [N1 N2 N3 N4 N5 N6] Hi H0 [= E1 E2 E3 E4 E5] Ed Hx.
  assert (forall k a, <[ip := i']> t !! k = Some a -> exists b, t !! k = Some b /\ i_ref a = i_ref b /\ i_inum a = i_inum b /\ (k <> ip -> a = b)) as Hin.
  { intros k a [(-> & <- & _)|[? ?]]%list_lookup_insert_Some; [by exists i|by exists a]. }
  split; auto.
  - by rewrite length_insert.
  - intros k a [(<- & <- & _)|[Hne Hk]]%list_lookup_insert_Some.
    + specialize (N2 ip i Hi). unfold ient_ok in *. rewrite E1, E2, E3, E4, E5. rewrite decide_False in * by done. destruct N2 as (? & ? & _ & ?). done.
    + pose proof (N2 k a Hk) as Ha. unfold ient_ok in *. case_decide as Hz; [done|]. destruct Ha as (A1 & A2 & A3 & A4). split_and!; auto.
      intros Hv. rewrite Hx; [by apply A3|congruence|]. intros E. apply Hne. eapply N3; eauto.
  - intros j k a a' Hj Hk Hja Hka E. destruct (Hin j a Hj) as (b & Hb & ? & ? & _), (Hin k a' Hk) as (b' & Hb' & ? & ? & _). eapply N3; eauto; congruence.
  - intros x Hr. destruct (N4 x Hr) as (k & a & Hk & Ha & Hax). destruct (decide (k = ip)) as [->|Hne].
    + exists ip, i'. rewrite list_lookup_insert_eq by (by eapply lookup_lt_Some). simplify_eq. split_and!; congruence.
    + exists k, a. by rewrite list_lookup_insert_ne.
Qed.

Section Link.
Context (me : nat) (pid dev start lsize : Z) (e : list (kernel -> kernel)) (sb : superblock).
Hypothesis Hdev : 0 <= dev < 2 ^ 31.

Abbreviation tx := (tx_in me pid dev start lsize).
Abbreviation fsys := (fsys me pid dev start lsize sb).
Abbreviation loaded := (loaded dev).
Abbreviation ondisk := (ondisk sb).
Abbreviation dir_ok := (dir_ok start lsize sb).

(** The block of the inode [x] is one of the inode area, and not one of the
    file with the blocks [addrs]. *)
Record inode_area (view : Z -> block) (addrs : list Z) (x : Z) : Prop := {
  ia_range : 0 <= x < 2 ^ 16;
  ia_data : FsFile.data_block start lsize sb view (IBLOCK x sb);
  ia_len : length (view (IBLOCK x sb)) = 1024%nat;
  ia_own : ~ owns view addrs (IBLOCK x sb);
}.

Lemma same_iblock x y : 0 <= x < 2 ^ 16 -> 0 <= y < 2 ^ 16 -> IBLOCK x sb = IBLOCK y sb -> x <> y -> x mod IPB <> y mod IPB.
Proof.
  intros Hx Hy E Hne. unfold IBLOCK, u32 in E. change IPB with 16 in *. Z.to_euclidean_division_equations. lia.
Qed.

Lemma file_addrs view addrs : FsFile.file_ok start lsize sb view addrs -> 0 <= sb_size sb < 2 ^ 31 -> Forall (fun a => 0 <= a < 2 ^ 32) addrs.
Proof.
  intros Hfo Hsz. apply Forall_lookup. intros k a Hk. pose proof (lookup_lt_Some _ _ _ Hk) as Hlt. rewrite (fo_len _ _ _ _ _ Hfo) in Hlt.
  destruct (decide (a = 0)) as [->|H0]; [lia|]. assert (nth k addrs 0 = a) as En by (by apply nth_lookup_Some).
  assert (owns view addrs a) as Ho%(fo_data _ _ _ _ _ Hfo).
  { split; [done|]. destruct (decide (k = 12%nat)) as [->|]; [by right|]. left. exists (Z.of_nat k). change MAXFILE with 268. split; [lia|].
    unfold fblock. replace (Z.of_nat k <? NDIRECT) with true by (change NDIRECT with 12; lia). by rewrite Nat2Z.id. }
  destruct Ho as [(Hb & _) _]. lia.
Qed.

(** What the disk holds of the inodes after writei() wrote the file of [i]. *)
Lemma ondisk_written s view view' ip i i' : FsContent.file dev start lsize sb s view' ip i' ->
  inode_area view (i_addrs i) (i_inum i) -> dinode_of i = ondisk view (i_inum i) ->
  i' = i <| i_addrs := i_addrs i' |> <| i_size := i_size i' |> ->
  view' (IBLOCK (i_inum i) sb) = dip_write (dip_off (i_inum i)) (dinode_of i') (view (IBLOCK (i_inum i) sb)) ->
  (forall b, FsFile.data_block start lsize sb view b -> ~ owns view (i_addrs i) b -> b <> IBLOCK (i_inum i) sb -> view' b = view b) ->
  dinode_of i' = ondisk view' (i_inum i) /\
  forall x, inode_area view (i_addrs i) x -> x <> i_inum i -> ondisk view' x = ondisk view x.
Proof.
  intros [Hfs (Hi & Hfo & Hsz & _) _ _] [A1 A2 A3 A4] Ed Ei Ev Hoth. change (MAXFILE * BSIZE) with 274432 in Hsz.
  pose proof (f_equal di_type Ed) as T1. pose proof (f_equal di_major Ed) as T2. pose proof (f_equal di_minor Ed) as T3. pose proof (f_equal di_nlink Ed) as T4.
  cbn in T1, T2, T3, T4.
  destruct (dinode_roundtrip (view (IBLOCK (i_inum i) sb)) (i_inum i) (dinode_of i')) as [R1 R2]; auto; cbn [dinode_of di_type di_major di_minor di_nlink di_size di_addrs].
  1: lia.
  1-4: rewrite Ei; cbn; rewrite ?T1, ?T2, ?T3, ?T4; apply i16_range.
  1: lia.
  1: apply (fo_len _ _ _ _ _ Hfo).
  1: apply (file_addrs _ _ Hfo), (bm_size _ _ _ _ (fs_bitmap _ _ _ _ Hfs)).
  unfold Inodes.ondisk. split; [by rewrite Ev, R1|]. intros x [X1 X2 X3 X4] Hne.
  destruct (decide (IBLOCK x sb = IBLOCK (i_inum i) sb)) as [E|E]; [|by rewrite Hoth].
  rewrite E, Ev, R2; [done|lia|]. by apply same_iblock.
Qed.

(** A locked inode was read from the disk. *)
Lemma fsys_loaded s d bs view ref lck ip inum : fsys s d bs view ref lck -> cached (k_inodes s) ip inum -> lck inum = true ->
  loaded (k_inodes s) ip inum (ondisk view inum).
Proof.
  intros F C Hl. destruct (cached_ent _ _ _ _ _ _ _ _ _ (fy_in _ _ _ _ _ _ _ _ _ _ _ _ F) C) as (i & Hi & D1 & D2 & _ & _ & D3 & D4).
  rewrite Hl in D4. destruct D4 as [_ D4]. exists i. auto.
Qed.

(** writei() seen from the disk: the file of the inode has the new bytes, and
    the other inodes in use and their blocks are as they were. *)
Lemma writei_fsys s d bs view ref lck ip inum src data off q (di := ondisk view inum) : fsys s d bs view ref lck ->
  cached (k_inodes s) ip inum -> lck inum = true ->
  whole start lsize sb view di -> FsFile.fs_ok start lsize sb view -> (forall y, ref y <> 0 -> inode_area view (di_addrs di) y) ->
  supplies e ip s src data -> 0 <= off <= di_size di -> off + Z.of_nat (length data) <= MAXFILE * BSIZE ->
  off mod BSIZE + Z.of_nat (length data) <= BSIZE * Z.of_nat q -> room sb view (2 * q) -> Z.of_nat (length bs) + 6 * Z.of_nat q + 1 < lsize ->
  exists s' bs' view' (di' := ondisk view' inum), writei ip src off (Z.of_nat (length data)) (mkWorld s e) = Ok (Z.of_nat (length data)) (mkWorld s' e) /\
    fsys s' d bs' view' ref lck /\ keeps (k_inodes s) (k_inodes s') /\ whole start lsize sb view' di' /\ FsFile.fs_ok start lsize sb view' /\
    di' = mkDinode (di_type di) (di_major di) (di_minor di) (di_nlink di) (di_size di') (di_addrs di') /\
    dcontents view' di' = overlay (dcontents view di) (Z.to_nat off) data /\
    (forall b, FsFile.data_block start lsize sb view b -> ~ owns view (di_addrs di) b -> b <> IBLOCK inum sb -> view' b = view b).
Proof.
  intros F C Hlk Hw Hfs Hia Hsrc Ho Hmax Hq Hroom Hlog. pose proof (fsys_loaded _ _ _ _ _ _ _ _ F C Hlk) as Hld.
  destruct (loaded_file _ _ _ _ _ _ _ _ _ Hld Hw) as (i & Hi & Ed & En & Hf). fold di in Ed. subst inum.
  assert (ref (i_inum i) <> 0) as Hri by (by eapply nt_lck; [apply F|]).
  assert (di_addrs di = i_addrs i) as Ead by (by rewrite <- Ed). assert (di_size di = i_size i) as Esz by (by rewrite <- Ed). rewrite Ead, Esz in *.
  destruct (writei_ok me pid dev start lsize e sb Hdev s d bs view ip i src data off q (fy_tx _ _ _ _ _ _ _ _ _ _ _ _ F) (fy_sb _ _ _ _ _ _ _ _ _ _ _ _ F)) as
    (s3 & bs3 & view3 & i3 & E3 & X3 & Hf3 & Ec3 & Ev3 & Ei3 & Hoth & Fr3 & _); auto.
  { destruct (Hia _ Hri) as [A1 A2 A3 A4]. by split. }
  destruct (ondisk_written s3 view view3 ip i i3 Hf3 (Hia _ Hri) Ed Ei3 Ev3 Hoth) as [Ed3 Hx3].
  destruct Hf3 as [Hfs3 ((Hi3 & _) & Hfo3 & Hsz3 & Hmap3) _ _]. pose proof Fr3 as (_ & _ & Hfr).
  assert (k_inodes s3 = <[ip := i3]> (k_inodes s)) as Et.
  { apply list_eq. intros j. destruct (decide (j = ip)) as [->|Hj]; [by rewrite Hi3, list_lookup_insert_eq by (by eapply lookup_lt_Some)|by rewrite list_lookup_insert_ne, Hfr]. }
  exists s3, bs3, view3. rewrite <- Ed3. split_and!; auto.
  - split; [done|by rewrite (fframe_sb _ _ _ Fr3); apply F|]. rewrite Et. eapply inodes_write; [apply F|exact Hi| |by rewrite Ei3|exact Ed3|].
    + destruct C as (i0 & Hi0 & H0 & _). by simplify_eq.
    + intros y Hy Hne. by apply Hx3; [apply Hia|].
  - intros k y (a & Ha & Ha0 & Hay). destruct (decide (k = ip)) as [->|Hk]; [exists i3; simplify_eq; split_and!; [done|by rewrite Ei3..]|exists a; by rewrite Hfr].
  - exact (conj Hfo3 (conj Hsz3 Hmap3)).
  - rewrite <- Ed. by rewrite Ei3.
  - rewrite <- Ed. exact Ec3.
Qed.

(** ** dirlink() *)

Lemma dirlink_loop_ok d bs view ip i n : forall f s off, tx [] s d bs view -> file_at dev start lsize sb s view ip i -> 0 <= off ->
  i_size i = off + 16 * Z.of_nat n -> (n < f)%nat ->
  exists s', dirlink_loop f ip off (mkWorld s e) = Ok (dir_free n (fbytes view (i_addrs i) off (16 * n)) off) (mkWorld s' e) /\
    tx [] s' d bs view /\ tframe s s'.
Proof.
  induction n as [|n IH]; intros f s off X Hf Ho Hs Hn; (destruct f as [|f]; [lia|]); cbn [dirlink_loop];
    run (get_inode_ok _ _ _ e (proj1 (proj1 Hf))).
  { exists s. split_and!; [|done|by destruct s]. by replace (off <? i_size i) with false by lia. }
  destruct (readi_entry me pid dev start lsize e sb s d bs view ip i off X Hf Ho ltac:(lia)) as (s1 & E1 & X1 & F1).
  replace (off <? i_size i) with true by lia. run E1. change (negb (16 =? sizeof_dirent)) with false. cbn iota. cbn [snd].
  replace (16 * S n)%nat with (16 + 16 * n)%nat by lia. rewrite fbytes_cut. cbn [dir_free].
  rewrite take_app_length', drop_app_length' by (by rewrite length_fbytes). change sizeof_dirent with 16.
  destruct (IH f s1 (off + 16) X1 (file_at_frame _ _ _ _ _ _ _ _ _ F1 Hf) ltac:(lia) ltac:(lia) ltac:(lia)) as (s2 & E2 & X2 & F2).
  destruct (_ =? 0); [exists s1|exists s2]; eauto using tframe_trans.
Qed.

(** A name that is there is refused. *)
Lemma dirlink_found s d bs view ref lck ip inum name x l off y : fsys s d bs view ref lck -> cached (k_inodes s) ip inum -> lck inum = true ->
  di_type (ondisk view inum) = T_DIR -> dir_ok view (ondisk view inum) ->
  (forall x, ref x + 1 < 2 ^ 31 - 1) -> (forall x, ref x <> 0 -> x ∈ l) -> (length l < NINODE)%nat ->
  dir_find (dcontents view (ondisk view inum)) name = Some (off, y) -> di_nlink (ondisk view y) <> 0 ->
  exists s', dirlink ip name x (mkWorld s e) = Ok (-1) (mkWorld s' e) /\ fsys s' d bs view ref lck /\ keeps (k_inodes s) (k_inodes s').
Proof.
  intros F C Hlk Ht Hd Hr Hl Hlen Ef Hn. pose proof (fsys_loaded _ _ _ _ _ _ _ _ F C Hlk) as Hld.
  destruct (dirlookup_ok me pid dev start lsize e sb s d bs view ref lck ip inum name l F Hld Ht Hd Hr Hl Hlen) as (s1 & H1). rewrite Ef in H1.
  destruct H1 as (ip' & E1 & F1 & C1 & K1). pose proof (nt_range _ _ _ _ _ _ _ (fy_in _ _ _ _ _ _ _ _ _ _ _ _ F) y) as Hy.
  destruct (iput_ok me pid dev start lsize e sb s1 d bs view _ lck ip' y F1 C1) as (s2 & E2 & F2 & K2); [|done|].
  { intros Hb. rewrite zset_eq. pose proof (nt_lck _ _ _ _ _ _ _ (fy_in _ _ _ _ _ _ _ _ _ _ _ _ F) y Hb). lia. }
  exists s2. split_and!.
  - unfold dirlink. run E1. by run E2.
  - eapply fsys_ext; [exact F2| |done]. intros z. rewrite zset_eq. unfold zset. destruct (Z.eqb_spec z y) as [->|]; [lia|done].
  - intros k z Cz. apply K2; [by apply K1|]. rewrite zset_eq. destruct (decide (z = y)) as [->|]; [right|by left].
    destruct (cached_ent _ _ _ _ _ _ _ _ _ (fy_in _ _ _ _ _ _ _ _ _ _ _ _ F) Cz) as (a & _ & _ & _ & Ea & Ea' & _). lia.
Qed.

(** A new name is written into the first free entry. *)
Lemma dirlink_new s d bs view ref lck ip inum name x l (di := ondisk view inum) : fsys s d bs view ref lck ->
  cached (k_inodes s) ip inum -> lck inum = true ->
  di_type di = T_DIR -> dir_ok view di -> FsFile.fs_ok start lsize sb view -> (forall y, ref y <> 0 -> inode_area view (di_addrs di) y) ->
  (forall x, ref x + 1 < 2 ^ 31 - 1) -> (forall x, ref x <> 0 -> x ∈ l) -> (length l < NINODE)%nat ->
  di_size di + 16 <= MAXFILE * BSIZE -> room sb view 2 -> Z.of_nat (length bs) + 7 < lsize ->
  dir_find (dcontents view di) name = None ->
  exists s' bs' view', dirlink ip name x (mkWorld s e) = Ok 0 (mkWorld s' e) /\ fsys s' d bs' view' ref lck /\
    cached (k_inodes s') ip inum /\ di_type (ondisk view' inum) = T_DIR /\ dir_ok view' (ondisk view' inum) /\ FsFile.fs_ok start lsize sb view' /\
    dcontents view' (ondisk view' inum) = linked (dcontents view di) name x /\
    (forall b, FsFile.data_block start lsize sb view b -> ~ owns view (di_addrs di) b -> b <> IBLOCK inum sb -> view' b = view b).
Proof.
  intros F C Hlk Ht Hd Hfs Hia Hr Hl Hlen Hsz Hroom Hlog Ef. pose proof (fsys_loaded _ _ _ _ _ _ _ _ F C Hlk) as Hld.
  destruct (dirlookup_ok me pid dev start lsize e sb s d bs view ref lck ip inum name l F Hld Ht Hd Hr Hl Hlen) as (s1 & H1). fold di in H1. rewrite Ef in H1.
  destruct H1 as (E1 & F1 & K1). pose proof (fsys_loaded _ _ _ _ _ _ _ _ F1 (K1 _ _ C) Hlk) as Hld1.
  destruct Hd as [Hw Hm]. destruct (loaded_file _ _ _ _ _ _ _ _ _ Hld1 Hw) as (i & Hi & Ed & En & Hf). fold di in Ed, Hw, Hm.
  assert (di_size di = i_size i /\ di_addrs di = i_addrs i) as [Esz Ead] by (rewrite <- Ed; done). rewrite Esz in *. rewrite Ead in *.
  pose proof Hw as (_ & Hw2 & _). rewrite Esz in Hw2.
  set (n := Z.to_nat (i_size i / 16)). assert (i_size i = 16 * Z.of_nat n) as Hn by (unfold n; Z.to_euclidean_division_equations; lia).
  destruct (dirlink_loop_ok d bs view ip i n (S (S n)) s1 0 (fy_tx _ _ _ _ _ _ _ _ _ _ _ _ F1) Hf ltac:(lia) ltac:(lia) ltac:(lia)) as (s2 & E2 & X2 & T2).
  set (data := fbytes view (i_addrs i) 0 (16 * n)) in *. set (off := dir_free n data 0) in *.
  assert (length data = (16 * n)%nat) as Hdl by apply length_fbytes.
  assert (off = 16 * Z.of_nat (free_slot n data)) as Eo by (unfold off; rewrite dir_free_slot; lia). pose proof (free_slot_le n data) as Hslot.
  destruct (dirent_bytes x name) as [HL _]. fold (link_entry name x) in HL. change (Z.to_nat sizeof_dirent) with 16%nat in HL.
  assert (dcontents view di = data) as Edc by (unfold dcontents; rewrite Esz, Ead; unfold data; do 2 f_equal; lia).
  pose proof (fsys_tframe _ _ _ _ _ _ _ _ _ _ _ _ _ F1 X2 T2) as F2.
  assert (forall t, cached (k_inodes s1) ip t -> cached (k_inodes s2) ip t) as K2 by (intros t; by rewrite (tframe_inodes _ _ T2)).
  destruct (writei_fsys s2 d bs view ref lck ip inum (SLocal (link_entry name x)) (link_entry name x) off 1 F2 (K2 _ (K1 _ _ C)) Hlk Hw Hfs) as
    (s3 & bs3 & view3 & E3 & F3 & K3 & Hw3 & Hfs3 & Edi & Ec3 & Hoth); fold di; rewrite ?HL, ?Esz, ?Ead; auto using supplies_local; try lia.
  1: change BSIZE with 1024; Z.to_euclidean_division_equations; lia.
  fold di in Edi, Ec3, Hoth. rewrite Ead in Hoth. destruct (linked_slot data n name x Hdl) as [El Hlk3]. rewrite Eo, Edc in Ec3.
  replace (Z.to_nat (16 * Z.of_nat (free_slot n data))) with (16 * free_slot n data)%nat in Ec3 by lia. rewrite <- El in Ec3. exists s3, bs3, view3. split_and!; auto.
  - unfold dirlink. run E1. run (get_inode_ok _ _ _ e Hi). change sizeof_dirent with 16. fold n. run E2. fold (link_entry name x). 
    rewrite HL in E3. run E3. done.
  - by rewrite Edi.
  - split; [done|]. destruct Hlk3 as [m Hlk3]. assert (length (dcontents view3 (ondisk view3 inum)) = Z.to_nat (di_size (ondisk view3 inum))) as Els by apply length_fbytes.
    rewrite Ec3, Hlk3 in Els. destruct Hw3 as (_ & Hs3 & _). Z.to_euclidean_division_equations; lia.
  - by rewrite Ec3, Edc.
Qed.
End Link.

Lemma dir_length start lsize sb view di : dir_ok start lsize sb view di -> (length (dcontents view di) mod 16 = 0)%nat.
Proof.
  intros [(_ & Hs & _) Hm]. unfold dcontents. rewrite length_fbytes. apply Nat2Z.inj. rewrite Nat2Z.inj_mod, Z2Nat.id by lia. exact Hm.
Qed.

(** ** The property *)

(** What dirlookup() is to find after [name] is linked to the inode [x]. *)
Definition found_after (data name : list Z) (x : Z) (other : list Z) : option Z :=
  if decide (take 14 other = take 14 name) then Some x else snd <$> dir_find data other.

(** C8: dirlink() adds a name to a well-formed directory: a name that is there
    already is refused, with every block and reference as before; otherwise the
    entry is written, a lookup of the name (of its first DIRSIZ bytes) then finds
    the inode linked and a lookup of any other name finds what it found before;
    of the blocks in use outside the log and the bitmap none changes but those of
    the directory and the block of its inode (a directory that grows takes free
    blocks, which the bitmap records).  The directory has a locked inode, is at
    least one entry below the maximal file size, and is in a file system in
    order, with two free blocks, room for seven more blocks in the log, a free
    slot in the inode table and reference counts below 2^31 - 2; the names have
    no NUL, the inode number is between 1 and 65535, and the inode that an
    existing entry of the name leads to has links. *)
Theorem dirlink_spec me pid dev start lsize e sb s d bs view ref lck ip inum name x l (di := ondisk sb view inum)
  (Hdev : 0 <= dev < 2 ^ 31) (F : fsys me pid dev start lsize sb s d bs view ref lck) (C : cached (k_inodes s) ip inum) (Hlk : lck inum = true)
  (Ht : di_type di = T_DIR) (Hd : dir_ok start lsize sb view di) (Hfs : FsFile.fs_ok start lsize sb view)
  (Hia : forall y, ref y <> 0 -> inode_area start lsize sb view (di_addrs di) y)
  (Hn : forall off y, dir_find (dcontents view di) name = Some (off, y) -> di_nlink (ondisk sb view y) <> 0)
  (Hr : forall y, ref y + 1 < 2 ^ 31 - 1) (Hl : forall y, ref y <> 0 -> y ∈ l) (Hlen : (length l < NINODE)%nat)
  (Hsz : di_size di + 16 <= MAXFILE * BSIZE) (Hroom : room sb view 2) (Hlog : Z.of_nat (length bs) + 7 < lsize)
  (Hname : no_nul name) (Hx : 0 < x < 2 ^ 16) :
  match dir_find (dcontents view di) name with
  | Some _ => exists s', dirlink ip name x (mkWorld s e) = Ok (-1) (mkWorld s' e) /\ fsys me pid dev start lsize sb s' d bs view ref lck
  | None => exists s' bs' view', dirlink ip name x (mkWorld s e) = Ok 0 (mkWorld s' e) /\ fsys me pid dev start lsize sb s' d bs' view' ref lck /\
      (forall b, FsFile.data_block start lsize sb view b -> ~ owns view (di_addrs di) b -> b <> IBLOCK inum sb -> view' b = view b) /\
      forall other, no_nul other -> exists s'',
        match found_after (dcontents view di) name x other with
        | Some y => exists ip' off, dirlookup ip other (mkWorld s' e) = Ok (Some (ip', off)) (mkWorld s'' e) /\ cached (k_inodes s'') ip' y
        | None => dirlookup ip other (mkWorld s' e) = Ok None (mkWorld s'' e)
        end
  end.
Proof.
  destruct (dir_find (dcontents view di) name) as [[off y]|] eqn:Ef.
  { destruct (dirlink_found me pid dev start lsize e sb s d bs view ref lck ip inum name x l off y) as (s' & E & F' & _); eauto. }
  destruct (dirlink_new me pid dev start lsize e sb Hdev s d bs view ref lck ip inum name x l) as (s' & bs' & view' & E & F' & C' & Ht' & Hd' & _ & Ec & Hb); auto.
  exists s', bs', view'. split_and!; auto. intros other Ho. pose proof (fsys_loaded _ _ _ _ _ _ _ _ _ _ _ _ _ _ F' C' Hlk) as Hld.
  destruct (dirlookup_ok me pid dev start lsize e sb s' d bs' view' ref lck ip inum other l F' Hld Ht' Hd' Hr Hl Hlen) as (s'' & H). exists s''.
  assert (u16 x = x) as Ex by (apply u16_small; lia). rewrite Ec, find_linked, Ex in H by (eauto using dir_length; lia). unfold found_after. fold di in H.
  case_decide as Eo; [rewrite bool_decide_eq_true_2 in H by done|rewrite bool_decide_eq_false_2 in H by done; destruct (dir_find _ other) as [[off y]|]].
  - destruct H as (ip' & E' & _ & C2 & _). exists ip'. eexists. split; [exact E'|exact C2].
  - destruct H as (ip' & E' & _ & C2 & _). exists ip'. eexists. split; [exact E'|exact C2].
  - apply H.
Qed.

(** The root directory of the image with README, locked. *)
Lemma readme_root : exists d fs s ip, image_ok d fs /\ (fun f => (mf_type f, mf_bytes f)) <$> fs = (T_DIR, root_bytes readme) :: regular readme /\
  fsys 0 1 ROOTDEV 2 30 mkfs_sb s d [] d (zset (fun _ => 0) ROOTINO 1) (zset (fun _ => false) ROOTINO true) /\ cached (k_inodes s) ip ROOTINO.
Proof.
  destruct readme_fsys as (d & fs & s & Hio & Efs & F). exists d, fs. pose proof (image_tree d fs readme Hio Efs ltac:(cbn; lia)) as Ht.
  destruct (image_root fs readme Efs) as (f0 & Hf0 & _). assert (inum_of fs ROOTINO) as HP by (by exists O, f0).
  destruct (iget_ok _ _ _ _ _ [] _ _ _ _ _ _ _ ROOTINO [] F) as (ip & s1 & _ & F1 & C1 & _); [lia|done|unfold NINODE; cbn; lia|].
  destruct (ilock_ok _ _ _ _ _ [] _ _ _ _ _ _ _ ip ROOTINO F1 C1 eq_refl (tr_type _ _ _ _ _ Ht _ HP)) as (s2 & _ & F2 & K2 & _).
  exists s2, ip. split_and!; [exact Hio|exact Efs|exact F2|by apply K2].
Qed.

Lemma image_area d fs f0 : image_ok d fs -> fs !! 0%nat = Some f0 -> inode_area 2 30 mkfs_sb d (mf_addrs f0) ROOTINO.
Proof.
  intros Hio Hf0. assert (IBLOCK ROOTINO mkfs_sb = 32) as Eb by reflexivity. split; rewrite ?Eb.
  - unfold ROOTINO. lia.
  - split; [by vm_compute|]. split; [|split; [lia|]].
    + rewrite (io_used _ _ Hio), <- blocks_total by (unfold FSSIZE; lia). pose proof (blocks_pos ((fun f => (mf_type f, mf_bytes f)) <$> fs)).
      change nmeta with 46. lia.
    + rewrite sb_size_eq. intros x Hx. rewrite BBLOCK_mkfs; lia.
  - apply (io_len _ _ Hio). unfold FSSIZE. lia.
  - intros Ho. apply (io_owned _ _ Hio 0 f0 32 Hf0) in Ho. change nmeta with 46 in Ho. lia.
Qed.

Lemma readme_room d fs : image_ok d fs -> (fun f => (mf_type f, mf_bytes f)) <$> fs = (T_DIR, root_bytes readme) :: regular readme -> room mkfs_sb d 2.
Proof.
  intros Hio Efs. exists [48; 49]. split; [by apply (bool_decide_unpack _)|]. split; [done|]. intros b Hb.
  assert (b = 48 \/ b = 49) as H by set_solver. rewrite sb_size_eq. split; [lia|]. rewrite (io_used _ _ Hio), <- blocks_total, Efs by (unfold FSSIZE; lia).
  change nmeta with 46. assert (blocks ((T_DIR, root_bytes readme) :: regular readme) = 2) as -> by (vm_compute; reflexivity). lia.
Qed.

(** An instance of [dirlink_spec]: another name for README; ".." is refused. *)
Lemma dirlink_spec_witness : exists s ip,
  (exists s', dirlink ip (bytes "..") 2 (mkWorld s []) = Ok (-1) (mkWorld s' [])) /\
  exists s' s'' ip' off, dirlink ip (bytes "LICENSE") 2 (mkWorld s []) = Ok 0 (mkWorld s' []) /\
    dirlookup ip (bytes "LICENSE") (mkWorld s' []) = Ok (Some (ip', off)) (mkWorld s'' []) /\ cached (k_inodes s'') ip' 2.
Proof.
  destruct readme_root as (d & fs & s & ip & Hio & Efs & F & C). exists s, ip.
  pose proof (image_tree d fs readme Hio Efs ltac:(cbn; lia)) as Ht. destruct (image_root fs readme Efs) as (f0 & Hf0 & Ht0 & Hb0).
  pose proof (image_slot d fs Hio 0 f0 Hf0) as Es. change (1 + Z.of_nat 0) with ROOTINO in Es.
  assert (inum_of fs ROOTINO) as HP by (by exists O, f0).
  assert (dcontents d (ondisk mkfs_sb d ROOTINO) = root_bytes readme) as Ec by (by rewrite Es, (image_contents d fs Hio 0 f0 Hf0)).
  assert (di_type (ondisk mkfs_sb d ROOTINO) = T_DIR) as Ety by (by rewrite Es).
  assert (di_size (ondisk mkfs_sb d ROOTINO) + 16 <= MAXFILE * BSIZE) as Esz by (rewrite Es; cbn [file_inode di_size]; rewrite Hb0; vm_compute; discriminate).
  assert (0 <= ROOTDEV < 2 ^ 31) as Hdev by (unfold ROOTDEV; lia). pose proof (tr_dir _ _ _ _ _ Ht _ HP Ety) as Hd.
  assert (forall y, zset (fun _ => 0) ROOTINO 1 y <> 0 -> y = ROOTINO) as Hone.
  { intros y Hy. unfold zset in Hy. by destruct (Z.eqb_spec y ROOTINO). }
  assert (forall y, zset (fun _ => 0) ROOTINO 1 y <> 0 -> inode_area 2 30 mkfs_sb d (di_addrs (ondisk mkfs_sb d ROOTINO)) y) as Hia.
  { intros y ->%Hone. rewrite Es. by apply (image_area d fs). }
  assert (forall y, zset (fun _ => 0) ROOTINO 1 y + 1 < 2 ^ 31 - 1) as Hr by (intros y; unfold zset; destruct (y =? ROOTINO); lia).
  assert (forall y, zset (fun _ => 0) ROOTINO 1 y <> 0 -> y ∈ [ROOTINO]) as Hl by (intros y ->%Hone; by apply list_elem_of_singleton).
  assert (forall name off y, dir_find (dcontents d (ondisk mkfs_sb d ROOTINO)) name = Some (off, y) -> di_nlink (ondisk mkfs_sb d y) <> 0) as Hn.
  { intros name off y Ef. eapply tr_link; [exact Ht|]. by eapply tr_entry. }
  assert (length [ROOTINO] < NINODE)%nat as Hlen by (unfold NINODE; cbn; lia). pose proof (readme_room d fs Hio Efs) as Hroom.
  pose proof (fun name => dirlink_spec 0 1 ROOTDEV 2 30 [] mkfs_sb s d [] d _ _ ip ROOTINO name 2 [ROOTINO] Hdev F C eq_refl Ety Hd
    (io_fs _ _ Hio) Hia (Hn name) Hr Hl Hlen Esz Hroom eq_refl) as H. cbv zeta in H. rewrite Ec in H.
  assert (dir_find (root_bytes readme) (bytes "..") = Some (16, 1) /\ dir_find (root_bytes readme) (bytes "LICENSE") = None) as [R1 R2] by (split; vm_compute; reflexivity).
  split.
  - specialize (H (bytes "..")). rewrite R1 in H. destruct H as (s' & E & _); [repeat (constructor; [discriminate|]); constructor|lia|]. exists s'. exact E.
  - specialize (H (bytes "LICENSE")). rewrite R2 in H. destruct H as (s' & bs' & view' & E & _ & _ & H); [repeat (constructor; [discriminate|]); constructor|lia|].
    destruct (H (bytes "LICENSE")) as (s'' & H'); [repeat (constructor; [discriminate|]); constructor|]. unfold found_after in H'. rewrite decide_True in H' by reflexivity.
    destruct H' as (ip' & off & E' & C'). exists s', s'', ip', off. split; [exact E|split; [exact E'|exact C']].
Defined.
