(* ===== verification/ExecSpec.v ===== *)
(** exec() of kernel/exec.c when there is no program to run: the call fails and
    nothing has changed.  For that, what the file system leaves alone: the
    routines of bio.c, log.c and fs.c that namei() and exec() use change nothing
    of a process but its state and what it sleeps on, no memory and no open
    file, while no other process runs. *)

From S2P Require Import Prelude Layout Strings Kernel Sched Printf Bio Log Fs Dir DirSpec Proc Exec Ring Cache Crash LogProof Transaction CacheInit FsAlloc FsExample FsFile FsWrite FsContent Inodes Lookup.
From S2P Require Import Mkfs MkfsSpec MkfsImage MkfsProps MkfsBoot.

(** A process but for its state and sleep channel; and what user code has. *)
Definition at_rest (p : proc) : proc := p <| p_state := UNUSED |> <| p_chan := None |>.

Definition user_part (s : kernel) : list proc * mem * list Kernel.file * gmap Z pipe :=
  (at_rest <$> k_procs s, k_mem s, k_files s, k_pipes s).

(** [m] keeps it, unless it lets other processes run. *)
Definition aside {A} (m : K A) : Prop := forall w a w', m w = Ok a w' ->
  (length (w_env w') <= length (w_env w))%nat /\
  (length (w_env w') = length (w_env w) -> user_part (w_k w') = user_part (w_k w)).

Lemma as_bind {A B} (m : K A) (k : A -> K B) : aside m -> (forall a, aside (k a)) -> aside (bind m k).
Proof.
  intros Hm Hk w b w' (a & w1 & H1 & H2)%bind_inv. destruct (Hm _ _ _ H1) as [L1 U1], (Hk a _ _ _ H2) as [L2 U2].
  split; [lia|]. intros HL. rewrite U2, U1 by lia. done.
Qed.
Lemma as_ret {A} (a : A) : aside (ret a).
Proof. by intros w b w' [= <- <-]. Qed.
Lemma as_never {A} (m : K A) : (forall w a w', m w <> Ok a w') -> aside m.
Proof. intros H w a w' E. by apply H in E. Qed.
Lemma as_gets {A} (f : kernel -> A) : aside (gets f).
Proof. by intros w a w' [= <- <-]. Qed.
Lemma as_modify f : (forall s, user_part (f s) = user_part s) -> aside (modify f).
Proof. intros H w a w' [= <- <-]. split; [done|]. intros _. apply H. Qed.
Lemma as_waiting {A} (loop : nat -> K A) : (forall n, aside (loop n)) -> aside (waiting loop).
Proof. intros H w a w' E. by eapply H. Qed.
Lemma as_for_loop n : forall i (body : nat -> K unit), (forall j, aside (body j)) -> aside (for_loop n i body).
Proof. induction n as [|n IH]; intros i body Hb; cbn [for_loop]; [apply as_ret|]. apply as_bind; auto. Qed.
Lemma as_index {A} (l : list A) i : aside (index l i).
Proof. unfold index. destruct (l !! i); [apply as_ret|by apply as_never]. Qed.

Lemma as_mod_proc i f : (forall p, at_rest (f p) = at_rest p) -> aside (mod_proc i f).
Proof.
  intros H. apply as_bind; [apply as_bind; [apply as_gets|intros; apply as_index]|]. intros _. apply as_modify. intros s. unfold user_part. cbn. do 3 f_equal.
  apply list_eq. intros j. rewrite !list_lookup_fmap. destruct (decide (i = j)) as [<-|]; [|by rewrite list_lookup_alter_ne].
  rewrite list_lookup_alter_eq. destruct (k_procs s !! i); cbn; [by rewrite H|done].
Qed.
Lemma as_others_run : aside others_run.
Proof. intros [s [|f e]] a w' E; [done|]. injection E as <- <-. cbn. lia. Qed.

(** ** Automation *)

Create HintDb aside discriminated.
#[export] Hint Constants Opaque : aside.
#[export] Hint Resolve as_others_run as_index as_gets as_ret : aside.

Ltac as_step :=
  match goal with
  | |- aside (bind _ _) => apply as_bind; [|intros ?]
  | |- aside (fun w => Blocked w) => by apply as_never
  | |- aside fault => by apply as_never
  | |- aside (panic _) => by apply as_never
  | |- aside diverge => by apply as_never
  | |- aside (modify _) => by apply as_modify
  | |- aside (mod_proc _ _) => by apply as_mod_proc
  | |- aside (for_loop _ _ _) => apply as_for_loop; intros ?
  | |- aside (waiting _) => apply as_waiting; intros ?
  | |- aside (if ?b then _ else _) => destruct b
  | |- aside (match ?x with _ => _ end) => destruct x
  | |- aside _ => solve [auto 2 with aside]
  | |- aside ?m => let h := head_of m in unfold h
  end.
Ltac as_go := intros; repeat as_step.
Ltac as_loop n loop := induction n; intros; cbn [loop]; as_go.

(** ** proc.c, sleeplock.c, printf.c *)

Lemma as_sched : aside sched.
Proof. as_go. Qed.
#[export] Hint Resolve as_sched : aside.
Lemma as_sleep ch l : aside (sleep ch l).
Proof. as_go. Qed.
Lemma as_wakeup ch : aside (wakeup ch).
Proof. as_go. Qed.
#[export] Hint Resolve as_sleep as_wakeup : aside.
Lemma as_acquiresleep_loop n x : aside (acquiresleep_loop n x).
Proof. as_loop n acquiresleep_loop. Qed.
#[export] Hint Resolve as_acquiresleep_loop : aside.
Lemma as_acquiresleep x : aside (acquiresleep x).
Proof. as_go. Qed.
Lemma as_releasesleep x : aside (releasesleep x).
Proof. as_go. Qed.
Lemma as_wait_tx n : aside (wait_tx n).
Proof. as_loop n wait_tx. Qed.
#[export] Hint Resolve as_acquiresleep as_releasesleep as_wait_tx : aside.
Lemma as_uartputc_sync c : aside (uartputc_sync c).
Proof. apply as_bind; [|as_go]. intros w a w' E. by eapply as_wait_tx. Qed.
#[export] Hint Resolve as_uartputc_sync : aside.
Lemma as_consputs l : aside (consputs l).
Proof. as_loop l consputs. Qed.
#[export] Hint Resolve as_consputs : aside.
Lemma as_consputc c : aside (consputc c).
Proof. as_go. Qed.
Lemma as_printint x b s : aside (printint x b s).
Proof. as_go. Qed.
Lemma as_printptr_loop n : forall x, aside (printptr_loop n x).
Proof. as_loop n printptr_loop. Qed.
#[export] Hint Resolve as_consputc as_printint as_printptr_loop : aside.
Lemma as_printf_loop n : forall fmt ap, (length fmt <= n)%nat -> aside (printf_loop fmt ap).
Proof.
  induction n as [|n IH]; intros [|c [|c' fmt]] ap Hn; cbn in Hn; cbn [printf_loop]; try lia;
    repeat lazymatch goal with |- aside (printf_loop _ _) => fail | _ => as_step end; apply IH; cbn in *; lia.
Qed.
Lemma as_printf fmt ap : aside (printf fmt ap).
Proof. unfold printf. pose proof (as_printf_loop (length fmt) fmt ap (Nat.le_refl _)). as_go. Qed.
#[export] Hint Resolve as_printf : aside.

(** ** bio.c, log.c *)

Lemma as_bscan n : forall st te i, aside (bscan n st te i).
Proof. as_loop n bscan. Qed.
#[export] Hint Resolve as_bscan : aside.
Lemma as_bread d b : aside (bread d b).
Proof. as_go. Qed.
Lemma as_bwrite i : aside (bwrite i).
Proof. as_go. Qed.
Lemma as_brelse i : aside (brelse i).
Proof. as_go. Qed.
#[export] Hint Resolve as_bread as_bwrite as_brelse : aside.
Lemma as_log_write i : aside (log_write i).
Proof. as_go. Qed.
Lemma as_begin_op_loop n : aside (begin_op_loop n).
Proof. as_loop n begin_op_loop. Qed.
#[export] Hint Resolve as_log_write as_begin_op_loop : aside.
Lemma as_begin_op : aside begin_op.
Proof. as_go. Qed.
Lemma as_end_op : aside end_op.
Proof. as_go. Qed.
#[export] Hint Resolve as_begin_op as_end_op : aside.

(** ** fs.c *)

Lemma as_balloc_loop n : forall d b, aside (balloc_loop n d b).
Proof. as_loop n balloc_loop. Qed.
#[export] Hint Resolve as_balloc_loop : aside.
Lemma as_balloc d : aside (Fs.balloc d).
Proof. as_go. Qed.
Lemma as_bfree d b : aside (bfree d b).
Proof. as_go. Qed.
Lemma as_iget d i : aside (iget d i).
Proof. as_go. Qed.
Lemma as_iupdate ip : aside (iupdate ip).
Proof. as_go. Qed.
#[export] Hint Resolve as_balloc as_bfree as_iget as_iupdate : aside.
Lemma as_ilock ip : aside (ilock ip).
Proof. as_go. Qed.
Lemma as_iunlock ip : aside (iunlock ip).
Proof. as_go. Qed.
Lemma as_bmap ip bn : aside (bmap ip bn).
Proof. as_go. Qed.
Lemma as_itrunc ip : aside (itrunc ip).
Proof. as_go. Qed.
#[export] Hint Resolve as_ilock as_iunlock as_bmap as_itrunc : aside.
Lemma as_iput ip : aside (iput ip).
Proof. as_go. Qed.
#[export] Hint Resolve as_iput : aside.
Lemma as_iunlockput ip : aside (iunlockput ip).
Proof. as_go. Qed.
(** readi() into a variable of the kernel. *)
Lemma as_readi_loop n : forall ip pos o t m acc, aside (readi_loop n ip (DLocal pos) o t m acc).
Proof. induction n; intros; cbn [readi_loop dest_add]; as_go. Qed.
#[export] Hint Resolve as_iunlockput as_readi_loop : aside.
Lemma as_readi ip o n : aside (readi ip (DLocal 0) o n).
Proof. as_go. Qed.
#[export] Hint Resolve as_readi : aside.
Lemma as_dirlookup_loop n : forall d nm o, aside (dirlookup_loop n d nm o).
Proof. as_loop n dirlookup_loop. Qed.
#[export] Hint Resolve as_dirlookup_loop : aside.
Lemma as_dirlookup d nm : aside (dirlookup d nm).
Proof. as_go. Qed.
#[export] Hint Resolve as_dirlookup : aside.
Lemma as_namex_loop n : forall p b nm ip, aside (namex_loop n p b nm ip).
Proof. as_loop n namex_loop. Qed.
#[export] Hint Resolve as_namex_loop : aside.
Lemma as_namei p : aside (namei p).
Proof. as_go. Qed.
#[export] Hint Resolve as_namei : aside.

(** ** exec() *)

(** A file that does not start with an ELF header. *)
Definition not_elf (data : list Z) : Prop :=
  (length data < Z.to_nat sizeof_elfhdr)%nat \/ elf_magic (elf_of_bytes (take (Z.to_nat sizeof_elfhdr) data)) <> ELF_MAGIC.

Lemma aside_same {A} (m : K A) s a s' e : aside m -> m (mkWorld s e) = Ok a (mkWorld s' e) -> user_part s' = user_part s.
Proof. intros H E. by apply (H _ _ _ E). Qed.

Lemma path_start_same s s' me path inum : user_part s' = user_part s -> k_inodes s' = k_inodes s -> path_start s me path inum -> path_start s' me path inum.
Proof.
  intros U Et [?|(Hp & p & c & Hp1 & Hp2 & Hc)]; [by left|]. right. split; [done|].
  injection U as U _ _ _. apply (f_equal (fun l => l !! me)) in U. rewrite !list_lookup_fmap, Hp1 in U.
  destruct (k_procs s' !! me) as [p'|]; [|done]. exists p', c. split_and!; [done| |by rewrite Et].
  rewrite <- Hp2. change (Some (at_rest p') = Some (at_rest p)) in U. apply (inj Some) in U. change (p_cwd (at_rest p') = p_cwd (at_rest p)). by rewrite U.
Qed.

Lemma resolve_tree start lsize sb d P : tree start lsize sb d P -> forall names inum inum', P inum -> resolve sb d inum names = Some inum' -> P inum'.
Proof.
  intros Ht. induction names as [|name names IH]; intros inum inum' HP E; cbn [resolve] in E; [by injection E as <-|].
  destruct (Z.eqb_spec (di_type (ondisk sb d inum)) T_DIR) as [Hd|]; [|done]. destruct (dir_find _ name) as [[off x]|] eqn:Ef; [|done].
  eapply IH; [|exact E]. by eapply tr_entry.
Qed.

Section Refuse.
Context (me : nat) (pid dev start lsize : Z) (e : list (kernel -> kernel)) (sb : superblock).
Context (d : Z -> block) (P : Z -> Prop) (ref : Z -> Z) (lck : Z -> bool).
Hypothesis Htree : tree start lsize sb d P.
Hypothesis Hlck : forall x, lck x = false.

Abbreviation fsys := (fsys me pid dev start lsize sb).
Abbreviation idle := (idle me pid dev start lsize).

(** The end of a transaction that only looked at files. *)
Lemma end_looking s ref' : fsys s d [] d ref' lck -> hb_n (d start) = 0 ->
  exists s', end_op (mkWorld s e) = Ok tt (mkWorld s' e) /\ idle s' d /\ k_sb s' = sb /\ inodes pid dev sb d (k_inodes s') ref' lck /\ user_part s' = user_part s.
Proof.
  intros [X Hsb N] Hn. destruct (end_op_empty me pid dev start lsize e s d d X Hn) as (s' & E & I & Et & Es).
  exists s'. split_and!; [done|done|congruence|by rewrite Et|by eapply aside_same; [apply as_end_op|]].
Qed.

(** ilock(), the header, and bad: for a file that is not a program. *)
Lemma exec_no_program s ip inum (k : elfhdr -> K Z) : fsys s d [] d (plus ref inum) lck -> cached (k_inodes s) ip inum -> P inum ->
  whole start lsize sb d (ondisk sb d inum) -> not_elf (dcontents d (ondisk sb d inum)) -> hb_n (d start) = 0 ->
  exists s', (ilock (Some ip) ;;
      let* r := readi ip (DLocal 0) 0 sizeof_elfhdr in
      if negb (r.1 =? sizeof_elfhdr) then exec_bad 0 0 (Some ip)
      else if negb (elf_magic (elf_of_bytes r.2) =? ELF_MAGIC) then exec_bad 0 0 (Some ip)
      else k (elf_of_bytes r.2))%M (mkWorld s e) = Ok (-1) (mkWorld s' e) /\
    idle s' d /\ k_sb s' = sb /\ inodes pid dev sb d (k_inodes s') ref lck /\ user_part s' = user_part s.
Proof.
  intros F C HP Hw Hne Hn. destruct (ilock_ok _ _ _ _ _ e _ _ _ _ _ _ _ _ _ F C (Hlck inum) (tr_type _ _ _ _ _ Htree _ HP)) as (s1 & E1 & F1 & K1 & Ld).
  destruct (loaded_file _ _ _ _ _ _ _ _ _ Ld Hw) as (i & Hi & Ed & En & Hf).
  assert (contents d i = dcontents d (ondisk sb d inum)) as Ec by (by rewrite <- Ed). pose proof Hf as (_ & _ & Hsz & _).
  destruct (readi_ok me pid dev start lsize e sb s1 d [] d ip i 0 sizeof_elfhdr (fy_tx _ _ _ _ _ _ _ _ _ _ _ _ F1) Hf) as (s2 & E2 & X2 & T2 & _); [lia|unfold sizeof_elfhdr; lia..|].
  cbv zeta in E2. replace (i_size i <? 0) with false in E2 by lia. set (n := Z.min sizeof_elfhdr (i_size i - 0)) in *.
  pose proof (fsys_tframe _ _ _ _ _ _ _ _ _ _ _ _ _ F1 X2 T2) as F2.
  assert (cached (k_inodes s2) ip inum) as C2 by (rewrite (tframe_inodes _ _ T2); by apply K1).
  destruct (unlock_put me pid dev start lsize e sb d [] d P lck Htree Hlck s2 ip inum _ F2 C2 HP) as (s3 & E3 & F3 & _).
  assert (fsys s3 d [] d ref lck) as F3'.
  { eapply fsys_ext; [exact F3| |done]. intros x. unfold zset, plus. rewrite Z.eqb_refl. destruct (Z.eqb_spec x inum) as [->|]; lia. }
  destruct (end_looking s3 ref F3' Hn) as (s4 & E4 & I4 & Hsb4 & N4 & U4).
  assert (exec_bad 0 0 (Some ip) (mkWorld s2 e) = Ok (-1) (mkWorld s4 e)) as E5.
  { unfold exec_bad. cbn [Z.eqb negb]. eapply run_bind; [reflexivity|]. eapply run_bind; [run E3; exact E4|reflexivity]. }
  exists s4. split_and!; [|done|done|done|].
  - run E1. run E2. cbn [fst snd]. destruct (Z.eqb_spec n sizeof_elfhdr) as [Enn|]; cbn [negb]; [|exact E5].
    destruct Hne as [Hlt|Hmag].
    + rewrite <- Ec in Hlt. unfold contents in Hlt. rewrite length_fbytes in Hlt. unfold sizeof_elfhdr in *. lia.
    + replace (fbytes d (i_addrs i) 0 (Z.to_nat n)) with (take (Z.to_nat sizeof_elfhdr) (dcontents d (ondisk sb d inum))).
      2: { rewrite <- Ec. unfold contents. rewrite Enn. rewrite (fbytes_slice _ _ (Z.to_nat (i_size i)) 0 (Z.to_nat sizeof_elfhdr)); [done|lia|unfold sizeof_elfhdr in *; lia]. }
      apply Z.eqb_neq in Hmag. rewrite Hmag. exact E5.
  - rewrite U4, (aside_same _ _ _ _ _ (as_iunlockput ip) E3), (aside_same _ _ _ _ _ (as_readi ip 0 sizeof_elfhdr) E2). by apply (aside_same _ _ _ _ _ (as_ilock (Some ip)) E1).
Qed.
End Refuse.

(** C9: exec() of a path that leads nowhere, or to a file that does not start with
    an ELF header, returns -1 and has changed nothing: the file system is idle
    with the same blocks on the disk, every inode has the references it had and
    is unlocked, and the process is as it was, with its memory, its page table,
    its name and its files. *)
Theorem exec_refuses me pid start lsize e sb s d ref lck l P path argv inum0
  (I : idle me pid ROOTDEV start lsize s d) (Hsb : k_sb s = sb) (N : inodes pid ROOTDEV sb d (k_inodes s) ref lck)
  (Hs : path_start s me path inum0) (Ht : tree start lsize sb d P) (HP : P inum0) (Hlck : forall x, lck x = false)
  (Hr : forall x, ref x + 2 < 2 ^ 31 - 1) (Hl : forall x, ref x <> 0 -> x ∈ l) (Hlen : (length l < NINODE - 1)%nat)
  (Hbad : match resolve sb d inum0 (components path) with
          | Some inum => whole start lsize sb d (ondisk sb d inum) /\ not_elf (dcontents d (ondisk sb d inum))
          | None => True
          end) :
  exists s', exec path argv (mkWorld s e) = Ok (-1) (mkWorld s' e) /\ idle me pid ROOTDEV start lsize s' d /\
    k_sb s' = sb /\ inodes pid ROOTDEV sb d (k_inodes s') ref lck /\ user_part s' = user_part s.
Proof.
  pose proof (id_hdr _ _ _ _ _ _ _ I) as Hn. pose proof (pc_cur _ _ _ (ca_ctx _ _ _ _ _ _ _ (id_cache _ _ _ _ _ _ _ I))) as Hc.
  destruct (begin_op_ok me pid ROOTDEV start lsize e s d I) as (s1 & E1 & X1 & _ & T1).
  assert (fsys me pid ROOTDEV start lsize sb s1 d [] d ref lck) as F1.
  { split; [done|by rewrite (tframe_sb _ _ T1)|by rewrite (tframe_inodes _ _ T1)]. }
  assert (user_part s1 = user_part s) as U1 by (by eapply aside_same; [apply as_begin_op|]).
  destruct (namei_ok me pid start lsize e sb s1 d [] d ref lck l P path inum0 F1) as (s2 & H2); auto.
  { eapply path_start_same; [done|by apply tframe_inodes|done]. }
  unfold exec. run (curproc_ok me (mkWorld s e) Hc). run E1. destruct (resolve sb d inum0 (components path)) as [inum|] eqn:Er.
  - destruct H2 as (ip & E2 & C2 & F2).
    destruct Hbad as [Hw Hne]. pose proof (resolve_tree _ _ _ _ _ Ht _ _ _ HP Er) as HPi.
    destruct (exec_no_program me pid ROOTDEV start lsize e sb d P ref lck Ht Hlck s2 ip inum (fun elf =>
      let* pagetable := proc_pagetable me in
      if pagetable =? 0 then exec_bad 0 0 (Some ip)
      else
        let* r := exec_segments (Z.to_nat (elf_phnum elf)) ip pagetable (i32 (elf_phoff elf)) 0 in
        if negb r.1 then exec_bad pagetable r.2 (Some ip)
        else iunlockput ip ;; end_op ;; let* p := curproc in exec_stack p path argv elf pagetable r.2)%M F2 C2 HPi Hw Hne Hn) as (s3 & E3 & I3 & Hsb3 & N3 & U3).
    exists s3. split_and!; auto; [by run E2|]. by rewrite U3, (aside_same _ _ _ _ _ (as_namei path) E2).
  - destruct H2 as (E2 & F2). destruct (end_looking me pid ROOTDEV start lsize e sb d lck s2 ref F2 Hn) as (s3 & E3 & I3 & Hsb3 & N3 & U3).
    exists s3. split_and!; auto; [by run E2; run E3|]. by rewrite U3, (aside_same _ _ _ _ _ (as_namei path) E2).
Qed.

(** An instance of [exec_refuses]: there is no LICENSE, and README is not a
    program. *)
Lemma exec_refuses_witness : exists s s1 s2,
  exec (bytes "/LICENSE") [] (mkWorld s []) = Ok (-1) (mkWorld s1 []) /\ user_part s1 = user_part s /\
  exec (bytes "/README") [] (mkWorld s []) = Ok (-1) (mkWorld s2 []) /\ user_part s2 = user_part s.
Proof.
  destruct readme_idle as (d & fs & s & Hio & Efs & I & Hsb & N). exists s.
  pose proof (image_tree d fs readme Hio Efs ltac:(cbn; lia)) as Ht. destruct (image_root fs readme Efs) as (f0 & Hf0 & _).
  assert (inum_of fs ROOTINO) as HP by (by exists O, f0).
  assert (dir_find (root_bytes readme) (bytes "README") = Some (32, 2) /\ dir_find (root_bytes readme) (bytes "LICENSE") = None) as [R1 R2] by (split; vm_compute; reflexivity).
  pose proof (fun path Hs => exec_refuses 0 1 2 30 [] mkfs_sb s d (fun _ => 0) (fun _ => false) [] (inum_of fs) path [] ROOTINO I Hsb N
    (or_introl (conj Hs eq_refl)) Ht HP (fun _ => eq_refl) ltac:(lia) ltac:(done) ltac:(unfold NINODE; cbn; lia)) as H.
  destruct (H (bytes "/LICENSE") eq_refl) as (s1 & E1 & _ & _ & _ & U1).
  { change (components (bytes "/LICENSE")) with [bytes "LICENSE"]. by rewrite (readme_resolve d fs _ Hio Efs), R2. }
  destruct (H (bytes "/README") eq_refl) as (s2 & E2 & _ & _ & _ & U2).
  { change (components (bytes "/README")) with [bytes "README"]. rewrite (readme_resolve d fs _ Hio Efs), R1. cbn [fmap option_fmap option_map snd].
    destruct (fs !! 1%nat) as [f|] eqn:Hf; [|by apply lookup_ge_None_1 in Hf; rewrite (image_length fs readme Efs) in Hf; cbn in Hf; lia].
    pose proof (image_slot d fs Hio 1 f Hf) as Es. change (1 + Z.of_nat 1) with 2 in Es. rewrite Es. split; [by apply (image_whole d fs Hio 1)|].
    rewrite (image_contents d fs Hio 1 f Hf). destruct (image_file fs readme Efs 0 f Hf) as (g & Hg & _ & ->). injection Hg as <-. left. vm_compute. lia. }
  exists s1, s2. split; [exact E1|]. split; [exact U1|]. split; [exact E2|exact U2].
Defined.
