(* ===== verification/PrintSpec.v ===== *)
(** printf.c: numbers print as numbers. *)

From S2P Require Import Prelude Layout Kernel Sched Printf.

(** ** Output *)

Lemma wait_tx_ok n : forall s e,
  (length (ut_idle (k_uart s)) < n)%nat ->
  exists u, wait_tx n (mkWorld s e) = Ok tt (mkWorld (s <| k_uart := u |>) e).
Proof.
  induction n as [|n IH]; intros s e Hn; [lia|]. cbn [wait_tx]. unfold read_lsr.
  rewrite bind_assoc, bind_gets. unfold mod_uart. rewrite bind_assoc, bind_modify. unfold bind at 1, ret at 1.
  set (lsr := Z.lor _ _).
  destruct (ut_idle (k_uart s)) as [|b idle] eqn:E.
  - exists ((k_uart s) <| ut_idle ::= @tail bool |>). cbn [hd] in lsr.
    replace (Z.land lsr LSR_TX_IDLE =? 0) with false by (subst lsr; by destruct (ut_rx (k_uart s))). by destruct s.
  - destruct b.
    + exists ((k_uart s) <| ut_idle ::= @tail bool |>). cbn [hd] in lsr.
      replace (Z.land lsr LSR_TX_IDLE =? 0) with false by (subst lsr; by destruct (ut_rx (k_uart s))). by destruct s.
    + cbn [hd] in lsr.
      replace (Z.land lsr LSR_TX_IDLE =? 0) with true by (subst lsr; by destruct (ut_rx (k_uart s))).
      destruct (IH (s <| k_uart ::= fun u => u <| ut_idle ::= @tail bool |> |>) e) as [u Hu].
      { cbn. rewrite E. cbn in *. lia. }
      exists u. cbn in Hu. rewrite Hu. by destruct s.
Qed.

Lemma uartputc_sync_ok c s e :
  exists u, uartputc_sync c (mkWorld s e) = Ok tt (mkWorld (s <| k_out ::= fun o => o ++ [u8 c] |> <| k_uart := u |>) e).
Proof.
  unfold uartputc_sync, bind.
  destruct (wait_tx_ok (S (length (ut_idle (k_uart s)))) s e ltac:(lia)) as [u Hu]. cbn [w_k]. rewrite Hu.
  exists u. unfold write_thr, modify. cbn. by destruct s.
Qed.

Lemma consputc_ok c s e :
  c <> BACKSPACE ->
  exists u, consputc c (mkWorld s e) = Ok tt (mkWorld (s <| k_out ::= fun o => o ++ [u8 c] |> <| k_uart := u |>) e).
Proof.
  intros Hc. unfold consputc. destruct (Z.eqb_spec c BACKSPACE); [done|]. apply uartputc_sync_ok.
Qed.

Lemma consputs_ok l : forall s e,
  Forall is_byte l ->
  exists u, consputs l (mkWorld s e) = Ok tt (mkWorld (s <| k_out ::= fun o => o ++ l |> <| k_uart := u |>) e).
Proof.
  induction l as [|c l IH]; intros s e Hl; cbn [consputs].
  - exists (k_uart s). unfold ret. do 2 f_equal. destruct s. cbv [upd upd_k_out upd_k_uart]. cbn. by rewrite app_nil_r.
  - apply Forall_cons in Hl as [Hc Hl]. unfold is_byte in Hc.
    destruct (consputc_ok c s e) as [u1 E1]; [unfold BACKSPACE; lia|].
    destruct (IH (s <| k_out ::= fun o => o ++ [u8 c] |> <| k_uart := u1 |>) e Hl) as [u2 E2].
    exists u2. rewrite (bind_ok _ _ _ _ _ E1), E2. do 2 f_equal. destruct s. cbv [upd upd_k_out upd_k_uart]. cbn.
    rewrite <- app_assoc. cbn. by rewrite u8_small.
Qed.

(** ** Numbers *)

(** The value of a digit, and of a list of digits, least significant first. *)
Definition digit_val (c : Z) : Z := if c <? 97 then c - 48 else c - 87.
Fixpoint digits_val (base : Z) (l : list Z) : Z :=
  match l with [] => 0 | c :: l' => digit_val c + base * digits_val base l' end.

(** Reading a number: an optional minus sign, then digits. *)
Definition read_num (base : Z) (l : list Z) : Z :=
  match l with
  | c :: l' => if c =? 45 then - digits_val base (rev l') else digits_val base (rev l)
  | [] => 0
  end.

Lemma digit_facts i : 0 <= i < 16 -> digit_val (digit i) = i /\ 48 <= digit i < 256.
Proof.
  intros H. assert (i = 0 \/ i = 1 \/ i = 2 \/ i = 3 \/ i = 4 \/ i = 5 \/ i = 6 \/ i = 7 \/ i = 8 \/ i = 9 \/
    i = 10 \/ i = 11 \/ i = 12 \/ i = 13 \/ i = 14 \/ i = 15) as Hi by lia.
  repeat (destruct Hi as [->|Hi]; [by vm_compute|]). subst. by vm_compute.
Qed.

Lemma printint_loop_spec base fuel : forall x,
  2 <= base <= 16 -> 0 <= x < base ^ Z.of_nat fuel ->
  digits_val base (printint_loop fuel x base) = x /\
  Forall (fun c => 48 <= c < 256) (printint_loop fuel x base) /\
  forall k, 0 <= k -> x < base ^ k -> Z.of_nat (length (printint_loop fuel x base)) <= Z.max 1 k.
Proof.
  induction fuel as [|f IH]; intros x Hb Hx.
  { change (base ^ Z.of_nat 0) with 1 in Hx. split_and!; [cbn; lia|constructor|cbn; lia]. }
  rewrite Nat2Z.inj_succ, Z.pow_succ_r in Hx by lia. cbn [printint_loop].
  pose proof (Z.mod_pos_bound x base ltac:(lia)) as Hm. pose proof (Z.div_mod x base ltac:(lia)) as Hd.
  destruct (digit_facts (x mod base) ltac:(lia)) as [D1 D2].
  assert (0 <= x / base < base ^ Z.of_nat f) as Hq.
  { split; [apply Z.div_pos; lia|apply Z.div_lt_upper_bound; lia]. }
  destruct (Z.eqb_spec (x / base) 0) as [E|E].
  - split_and!; [cbn [digits_val]; lia|by constructor|]. intros k Hk Hlt. cbn. lia.
  - destruct (IH (x / base) Hb Hq) as (H1 & H2 & H3). split_and!.
    + cbn [digits_val]. rewrite H1, D1. lia.
    + by constructor.
    + intros k Hk Hlt. cbn [length]. destruct (Z.eq_dec k 0) as [->|Hk0].
      { change (base ^ 0) with 1 in Hlt. assert (x = 0) as -> by lia. by rewrite Z.div_0_l in E by lia. }
      assert (x / base < base ^ (k - 1)) as Hlt1.
      { apply Z.div_lt_upper_bound; [lia|]. rewrite <- Z.pow_succ_r by lia. by replace (Z.succ (k - 1)) with k by lia. }
      specialize (H3 (k - 1) ltac:(lia) Hlt1).
      destruct (Z.eq_dec k 1) as [->|]; [change (base ^ (1 - 1)) with 1 in Hlt1; lia|lia].
Qed.

(** Printint() in base 10 or 16 prints a 32-bit number in at most 11
    characters (so within its 16-byte buffer), without blocking, and reading
    the printed characters gives the number back. *)
Theorem printint_spec xx base s e :
  - 2 ^ 31 <= xx < 2 ^ 31 -> base = 10 \/ base = 16 ->
  exists s' out, printint xx base true (mkWorld s e) = Ok tt (mkWorld s' e) /\
    k_out s' = k_out s ++ out /\ read_num base out = xx /\ (length out <= 11)%nat.
Proof.
  intros Hx Hb. unfold printint. set (out := rev (printint_buf xx base true)).
  set (x := if xx <? 0 then u32 (- xx) else u32 xx).
  assert (0 <= x < 2 ^ 32 /\ x = Z.abs xx) as [Hx1 Hx2].
  { unfold x. destruct (Z.ltb_spec xx 0); rewrite u32_small; lia. }
  assert (out = (if xx <? 0 then [45] else []) ++ rev (printint_loop 32 x base)) as Eo.
  { unfold out, printint_buf, x. cbn [andb]. rewrite rev_app_distr. by destruct (xx <? 0). }
  assert (2 ^ 32 <= base ^ Z.of_nat 32) as Hp by (destruct Hb as [->| ->]; apply Z.leb_le; reflexivity).
  assert (2 ^ 32 <= base ^ 10) as Hp10 by (destruct Hb as [->| ->]; apply Z.leb_le; reflexivity).
  assert (2 <= base <= 16) as Hb2 by (clear - Hb; lia).
  destruct (printint_loop_spec base 32 x Hb2) as (L1 & L2 & L3).
  { split; [apply Hx1|]. eapply Z.lt_le_trans; [apply Hx1|exact Hp]. }
  assert (x < base ^ 10) as Hx10 by (eapply Z.lt_le_trans; [apply Hx1|exact Hp10]).
  specialize (L3 10 ltac:(done) Hx10). clear Hp Hp10 Hx10 Hb.
  assert (Forall is_byte out) as HB.
  { rewrite Eo. apply Forall_app. split; [destruct (xx <? 0); [repeat constructor; lia|constructor]|].
    apply Forall_rev. eapply Forall_impl; [exact L2|]. unfold is_byte. cbn. lia. }
  destruct (consputs_ok out s e HB) as [u E]. eexists _, out. split_and!; [exact E|done| |].
  - rewrite Eo. destruct (Z.ltb_spec xx 0) as [Hneg|Hpos]; cbn [app].
    + cbn [read_num]. rewrite Z.eqb_refl, rev_involutive, L1. lia.
    + assert (Forall (fun c => 48 <= c < 256) (rev (printint_loop 32 x base))) as HF by (by apply Forall_rev).
      destruct (rev (printint_loop 32 x base)) as [|c l] eqn:Er.
      { cbn [printint_loop rev] in Er. symmetry in Er. by apply app_cons_not_nil in Er. }
      cbn [read_num]. apply Forall_cons in HF as [Hc _]. destruct (Z.eqb_spec c 45); [lia|].
      rewrite <- Er, rev_involutive, L1. lia.
  - rewrite Eo, length_app, length_rev. destruct (xx <? 0); cbn [length]; lia.
Qed.

(** An instance of [printint_spec]. *)
Lemma printint_spec_witness :
  exists s' out, printint (-42) 10 true (mkWorld one_proc []) = Ok tt (mkWorld s' []) /\
    k_out s' = out /\ read_num 10 out = -42 /\ (length out <= 11)%nat.
Proof. apply (printint_spec (-42) 10 one_proc []); [lia|left; reflexivity]. Defined.
