(* ===== verification/ConsoleSpec.v ===== *)
(** The console line discipline.

    [line cs com ed]: the input buffer [cs] holds the bytes [com] that readers
    may take and the bytes [ed] of the line being edited.  consoleintr() acts
    on this pair of lists the way [line_step] says. *)

From S2P Require Import Prelude Layout Kernel Sched Printf PrintSpec Bio Fs Console Circ.

Record line (cs : consst) (com ed : list Z) : Prop := {
  ln_circ : circ 128 (2 ^ 32) (cons_buf cs) (cons_r cs) (cons_e cs) (com ++ ed);
  ln_w : cons_w cs = u32 (cons_r cs + Z.of_nat (length com));
}.

(** Only whole lines are committed, so a line being edited has no newline. *)
Definition editing (ed : list Z) : Prop := Forall (fun c => c <> 10) ed.

(** The character an input byte stands for. *)
Definition key (c : Z) : Z := if c =? 13 then 10 else c.

Definition line_step (c : Z) (com ed : list Z) : list Z * list Z :=
  if c =? Ctrl "U" then (com, [])
  else if (c =? Ctrl "H") || (c =? 127) then (com, removelast ed)
  else if (c =? 0) || (length com + length ed =? 128)%nat then (com, ed)
  else
    let ed' := ed ++ [key c] in
    if (key c =? 10) || (key c =? Ctrl "D") || (length com + length ed' =? 128)%nat
    then (com ++ ed', []) else (com, ed').

Lemma div_128 : (128 | 2 ^ 32).
Proof. by exists 33554432. Qed.

Section Line.
Context (cs : consst) (com ed : list Z).
Hypothesis L : line cs com ed.

Lemma ln_cap : (length com + length ed <= 128)%nat.
Proof. pose proof (ci_cap _ _ _ _ _ _ (ln_circ _ _ _ L)) as H. rewrite length_app in H. lia. Qed.

Lemma line_edit_empty : (cons_e cs =? cons_w cs) = bool_decide (ed = []).
Proof.
  pose proof ln_cap. destruct L as [[L1 L2 L3 L4 L5] Lw]. rewrite Lw, L4, length_app. unfold u32.
  destruct ed as [|x l]; [rewrite Nat.add_0_r; apply Z.eqb_refl|].
  rewrite bool_decide_false by done. apply Z.eqb_neq. intros E.
  apply mod_offset_inj in E; cbn [length] in *; lia.
Qed.

Lemma line_count : u32 (cons_e cs - cons_r cs) = Z.of_nat (length com + length ed).
Proof.
  unfold u32. rewrite (circ_count 128 (2 ^ 32) ltac:(lia) _ _ _ _ (ln_circ _ _ _ L)). by rewrite length_app.
Qed.

Lemma line_last x l : ed = l ++ [x] -> cons_at cs (u32 (cons_e cs - 1)) = x.
Proof.
  intros ->. destruct L as [Lc _]. rewrite app_assoc in Lc. apply circ_unpush in Lc as [H _]; [|lia|apply div_128].
  by apply nth_lookup_Some.
Qed.

Lemma line_erase : ed <> [] -> line (cs <| cons_e ::= fun e => u32 (e - 1) |>) com (removelast ed).
Proof.
  intros He. destruct L as [Lc Lw]. destruct (exists_last He) as (l & x & E). rewrite E in *.
  rewrite removelast_last. rewrite app_assoc in Lc. apply circ_unpush in Lc as [_ H]; [|lia|apply div_128]. by split.
Qed.

Definition pushed (c : Z) : consst :=
  cs <| cons_buf ::= <[Z.to_nat (cons_e cs mod INPUT_BUF_SIZE) := c]> |> <| cons_e ::= fun e => u32 (e + 1) |>.

Lemma line_append c : (length com + length ed < 128)%nat -> line (pushed c) com (ed ++ [c]).
Proof.
  intros Hc. destruct L as [Lc Lw]. split; [|done]. rewrite app_assoc.
  apply (circ_push 128 (2 ^ 32)); [lia|apply div_128|done|]. rewrite length_app. lia.
Qed.

Lemma line_commit : line (cs <| cons_w := cons_e cs |>) (com ++ ed) [].
Proof. destruct L as [Lc Lw]. split; [by rewrite app_nil_r|]. apply (ci_hi _ _ _ _ _ _ Lc). Qed.
End Line.

(** ** The interrupt handler *)

Lemma consputc_any c s e :
  exists o u, consputc c (mkWorld s e) = Ok tt (mkWorld (s <| k_out := o |> <| k_uart := u |>) e).
Proof.
  destruct (Z.eq_dec c BACKSPACE) as [->|Hc].
  - destruct (uartputc_sync_ok 8 s e) as [u1 E1]. set (s1 := _ <| k_uart := u1 |>) in E1.
    destruct (uartputc_sync_ok 32 s1 e) as [u2 E2]. set (s2 := _ <| k_uart := u2 |>) in E2.
    destruct (uartputc_sync_ok 8 s2 e) as [u3 E3].
    eexists _, u3. unfold consputc. rewrite Z.eqb_refl.
    eapply run_bind; [exact E1|]. eapply run_bind; [exact E2|]. rewrite E3. reflexivity.
  - destruct (consputc_ok c s e Hc) as [u E]. eexists _, u. rewrite E. reflexivity.
Qed.

(** What the echo and the line discipline change. *)
Definition echoed (s s' : kernel) : Prop :=
  s' = s <| k_out := k_out s' |> <| k_uart := k_uart s' |> <| k_cons := k_cons s' |> <| k_procs := k_procs s' |>.

Lemma kill_line_ok com n : forall s e ed,
  line (k_cons s) com ed -> editing ed -> (length ed < n)%nat ->
  exists s', kill_line n (mkWorld s e) = Ok tt (mkWorld s' e) /\ line (k_cons s') com [] /\
    echoed s s' /\ k_procs s' = k_procs s.
Proof.
  induction n as [|n IH]; intros s e ed L O Hn; [lia|]. cbn [kill_line]. rewrite bind_gets. cbn [w_k].
  rewrite (line_edit_empty _ _ _ L). case_bool_decide as E; cbn [negb andb].
  { subst ed. exists s. split_and!; auto. unfold echoed. by destruct s. }
  destruct (exists_last E) as (l & x & El). rewrite (line_last _ _ _ L x l El).
  assert (x <> 10) as Hx.
  { unfold editing in O. rewrite El in O. apply Forall_app in O as [_ O]. by apply Forall_cons in O as [? _]. }
  destruct (Z.eqb_spec x 10); [done|]. cbn [negb].
  set (s1 := s <| k_cons ::= fun cs => cs <| cons_e ::= fun e => u32 (e - 1) |> |>).
  destruct (consputc_any BACKSPACE s1 e) as (o & u & E1).
  destruct (IH (s1 <| k_out := o |> <| k_uart := u |>) e l) as (s2 & E2 & L2 & F2 & P2).
  - cbn. pose proof (line_erase _ _ _ L E) as Le. by rewrite El, removelast_last in Le.
  - unfold editing in *. rewrite El in O. by apply Forall_app in O as [? _].
  - rewrite El, length_app in Hn. cbn in Hn. lia.
  - exists s2. split_and!; [|exact L2| |rewrite P2; done].
    + eapply run_bind; [reflexivity|]. eapply run_bind; [exact E1|exact E2].
    + unfold echoed in *. rewrite F2. unfold s1. by destruct s.
Qed.

Lemma echoed_trans s1 s2 s3 : echoed s1 s2 -> echoed s2 s3 -> echoed s1 s3.
Proof. unfold echoed. intros E1 E2. rewrite E2, E1. by destruct s1. Qed.
Lemma echoed_cons s f : echoed s (s <| k_cons ::= f |>).
Proof. unfold echoed. by destruct s. Qed.
Lemma echoed_out s o u : echoed s (s <| k_out := o |> <| k_uart := u |>).
Proof. unfold echoed. by destruct s. Qed.
Lemma echoed_procs s f : echoed s (s <| k_procs ::= f |>).
Proof. unfold echoed. by destruct s. Qed.
#[local] Hint Resolve echoed_cons echoed_out echoed_procs : core.

(** The default case of the switch: an ordinary character that fits. *)
Lemma cons_store_ok c s e com ed :
  line (k_cons s) com ed -> editing ed -> 0 <= c < 256 -> (length com + length ed < 128)%nat ->
  length (k_procs s) = NPROC -> no_proc_locks s ->
  exists s', (consputc c ;;
      mod_cons (fun cs => cs <| cons_buf ::= <[Z.to_nat (cons_e cs mod INPUT_BUF_SIZE) := u8 c]> |>
        <| cons_e ::= fun e => u32 (e + 1) |>) ;;
      let* cs := gets k_cons in
      when (c =? 10) || (c =? Ctrl "D") || (u32 (cons_e cs - cons_r cs) =? INPUT_BUF_SIZE) do
        (mod_cons (fun cs => cs <| cons_w := cons_e cs |>) ;; wakeup ChCons)) (mkWorld s e)
      = Ok tt (mkWorld s' e) /\ echoed s s' /\
    let commit := (c =? 10) || (c =? Ctrl "D") || (length com + length (ed ++ [c]) =? 128)%nat in
    line (k_cons s') (if commit then com ++ ed ++ [c] else com) (if commit then [] else ed ++ [c]) /\
    editing (if commit then [] else ed ++ [c]).
Proof.
  intros L O Hc Hcap Hp Hl. destruct (consputc_any c s e) as (o & u & E1).
  set (s1 := s <| k_out := o |> <| k_uart := u |>) in E1.
  pose proof (line_append (k_cons s) com ed L c Hcap) as L1. rewrite <- (u8_small c) in L1 at 1 by done.
  set (s2 := s1 <| k_cons ::= fun _ => pushed (k_cons s) (u8 c) |>).
  assert (echoed s s2) as F2 by (eapply echoed_trans; [apply echoed_out|apply echoed_cons]).
  pose proof (line_count _ _ _ L1) as Hcnt.
  assert ((u32 (cons_e (k_cons s2) - cons_r (k_cons s2)) =? INPUT_BUF_SIZE)
    = (length com + length (ed ++ [c]) =? 128)%nat) as Eq.
  { cbn [s2 k_cons upd upd_k_cons]. rewrite Hcnt. unfold INPUT_BUF_SIZE.
    destruct (Nat.eqb_spec (length com + length (ed ++ [c])) 128), (Z.eqb_spec (Z.of_nat (length com + length (ed ++ [c]))) 128); lia || done. }
  set (commit := (c =? 10) || (c =? Ctrl "D") || (length com + length (ed ++ [c]) =? 128)%nat).
  assert (forall r, (when commit do (mod_cons (fun cs => cs <| cons_w := cons_e cs |>) ;; wakeup ChCons)) (mkWorld s2 e) = r ->
    (consputc c ;; mod_cons (fun cs => cs <| cons_buf ::= <[Z.to_nat (cons_e cs mod INPUT_BUF_SIZE) := u8 c]> |>
        <| cons_e ::= fun e => u32 (e + 1) |>) ;;
      let* cs := gets k_cons in
      when (c =? 10) || (c =? Ctrl "D") || (u32 (cons_e cs - cons_r cs) =? INPUT_BUF_SIZE) do
        (mod_cons (fun cs => cs <| cons_w := cons_e cs |>) ;; wakeup ChCons)) (mkWorld s e) = r) as Run.
  { intros r Hr. eapply run_bind; [exact E1|]. eapply run_bind; [reflexivity|]. rewrite bind_gets. cbn [w_k].
    change (k_cons (_ <| k_cons ::= _ |>)) with (k_cons s2). rewrite Eq. exact Hr. }
  destruct commit eqn:Ec.
  - set (s3 := s2 <| k_cons ::= fun cs => cs <| cons_w := cons_e cs |> |>).
    eexists. split; [apply Run; eapply run_bind; [reflexivity|]; apply (wakeup_run ChCons (mkWorld s3 e))|].
    + done.
    + done.
    + split; [eapply echoed_trans; [exact F2|]; eapply echoed_trans; [apply echoed_cons|apply echoed_procs]|].
      split; [|constructor]. exact (line_commit _ _ _ L1).
  - exists s2. split; [by apply Run|]. split; [done|]. split; [exact L1|]. apply Forall_app. split; [done|].
    constructor; [|constructor]. unfold commit in Ec. apply orb_false_iff in Ec as [[Ec _]%orb_false_iff _].
    by apply Z.eqb_neq.
Qed.

(** Control-H: the last character of the line being typed is taken back. *)
Lemma cons_erase_ok s e com ed : line (k_cons s) com ed -> editing ed -> exists s',
  (let* cs := gets k_cons in
   when negb (cons_e cs =? cons_w cs) do
     (mod_cons (fun cs => cs <| cons_e ::= fun e => u32 (e - 1) |>) ;; consputc BACKSPACE))%M (mkWorld s e) = Ok tt (mkWorld s' e) /\
  line (k_cons s') com (removelast ed) /\ editing (removelast ed) /\ echoed s s'.
Proof.
  intros L O. rewrite bind_gets. cbn [w_k]. rewrite (line_edit_empty _ _ _ L). case_bool_decide as Ee; cbn [negb].
  - subst ed. exists s. split_and!; auto. unfold echoed. by destruct s.
  - destruct (consputc_any BACKSPACE (s <| k_cons ::= fun cs => cs <| cons_e ::= fun e => u32 (e - 1) |> |>) e) as (o & u & E1).
    eexists. split; [eapply run_bind; [reflexivity|exact E1]|]. split_and!.
    + exact (line_erase _ _ _ L Ee).
    + destruct (exists_last Ee) as (l & x & El). unfold editing in *. rewrite El in *. rewrite removelast_last.
      by apply Forall_app in O as [? _].
    + eapply echoed_trans; [apply echoed_cons|apply echoed_out].
Qed.

(** C35: The console interrupt handler implements the line discipline: on every
    input byte except Control-P (which prints the process list) it edits the
    line being typed, and commits it to the readers when it is complete or the
    buffer is full, as [line_step] says, without ever losing or reordering
    committed input. *)
Theorem consoleintr_line c s e com ed :
  line (k_cons s) com ed -> editing ed -> 0 <= c < 256 -> c <> Ctrl "P" ->
  LkCons ∉ k_held s -> length (k_procs s) = NPROC -> no_proc_locks s ->
  exists s', consoleintr c (mkWorld s e) = Ok tt (mkWorld s' e) /\
    line (k_cons s') (line_step c com ed).1 (line_step c com ed).2 /\ editing (line_step c com ed).2 /\
    echoed s s'.
Proof.
  intros L O Hc HP Hlk Hp Hnl. set (s1 := s <| k_held ::= cons LkCons |>).
  assert (no_proc_locks s1) as Hnl1.
  { intros j Hj. cbn. apply not_elem_of_cons. split; [done|]. by apply Hnl. }
  change (line (k_cons s1) com ed) in L. set (p := line_step c com ed).
  enough (exists s2, (if c =? Ctrl "U" then kill_line (S (Z.to_nat INPUT_BUF_SIZE))
     else if (c =? Ctrl "H") || (c =? 127) then
       let* cs := gets k_cons in
       when negb (cons_e cs =? cons_w cs) do
         (mod_cons (fun cs => cs <| cons_e ::= fun e => u32 (e - 1) |>) ;; consputc BACKSPACE)
     else
       let* cs := gets k_cons in
       when negb (c =? 0) && (u32 (cons_e cs - cons_r cs) <? INPUT_BUF_SIZE) do
         (consputc (key c) ;;
          mod_cons (fun cs => cs <| cons_buf ::= <[Z.to_nat (cons_e cs mod INPUT_BUF_SIZE) := u8 (key c)]> |>
            <| cons_e ::= fun e => u32 (e + 1) |>) ;;
          let* cs := gets k_cons in
          when (key c =? 10) || (key c =? Ctrl "D") || (u32 (cons_e cs - cons_r cs) =? INPUT_BUF_SIZE) do
            (mod_cons (fun cs => cs <| cons_w := cons_e cs |>) ;; wakeup ChCons))) (mkWorld s1 e) = Ok tt (mkWorld s2 e) /\
    line (k_cons s2) p.1 p.2 /\ editing p.2 /\ echoed s1 s2) as (s2 & E & L2 & O2 & F2).
  { exists (s2 <| k_held := k_held s |>). split_and!; auto.
    - unfold consoleintr. kstep. destruct (Z.eqb_spec c (Ctrl "P")); [done|].
      eapply run_bind; [exact E|]. rewrite (release_acquired LkCons s2 e (k_held s)); [done|done|].
      by rewrite F2.
    - unfold echoed in *. rewrite F2. unfold s1. by destruct s. }
  unfold p, line_step. destruct (Z.eqb_spec c (Ctrl "U")).
  { destruct (kill_line_ok com (S (Z.to_nat INPUT_BUF_SIZE)) s1 e ed L O) as (s2 & E & L2 & F2 & _).
    - pose proof (ln_cap _ _ _ L). change (Z.to_nat INPUT_BUF_SIZE) with 128%nat. lia.
    - exists s2. split_and!; auto. constructor. }
  destruct ((c =? Ctrl "H") || (c =? 127)).
  { destruct (cons_erase_ok s1 e com ed L O) as (s2 & E & L2 & O2 & F2). exists s2. split; [exact E|]. auto. }
  rewrite bind_gets. cbn [w_k]. rewrite (line_count _ _ _ L). pose proof (ln_cap _ _ _ L).
  destruct (Z.eqb_spec c 0); cbn [negb andb orb]; [exists s1; split_and!; auto; unfold echoed; by destruct s1|].
  unfold INPUT_BUF_SIZE at 1. destruct (Z.ltb_spec (Z.of_nat (length com + length ed)) 128), (Nat.eqb_spec (length com + length ed) 128); try lia.
  2: exists s1; split_and!; auto; unfold echoed; by destruct s1.
  assert (0 <= key c < 256) as Hk by (unfold key; destruct (c =? 13); lia).
  destruct (cons_store_ok (key c) s1 e com ed L O Hk ltac:(lia) Hp Hnl1) as (s2 & E & F & L2 & O2).
  exists s2. split; [exact E|]. cbn zeta. destruct ((key c =? 10) || _ || _); auto.
Qed.

(** An instance of [consoleintr_line]. *)
Lemma consoleintr_line_witness :
  exists s', consoleintr 97 (mkWorld one_proc []) = Ok tt (mkWorld s' []) /\ line (k_cons s') [] [97].
Proof.
  destruct (consoleintr_line 97 one_proc [] [] []) as (s' & E & L & _).
  - split; [|reflexivity]. split; [reflexivity|cbn; lia|cbn; lia|reflexivity|done].
  - constructor.
  - lia.
  - discriminate.
  - apply not_elem_of_nil.
  - reflexivity.
  - intros i _. apply not_elem_of_nil.
  - exists s'. split; [exact E|exact L].
Defined.
