(* ===== verification/Umalloc.v ===== *)
(** user/umalloc.c: malloc() and free().

    The free blocks form a circular list in order of address, threaded through
    their own first words: a block starts with a [union header], the address of
    the next free block (8 bytes) and its size in units of sizeof(Header) = 16
    bytes (4 bytes).  [base] is the address of the static header the list
    starts from.  The memory of the process is a byte memory; an access at or
    above the break faults.  [limit] is the largest break the kernel grants
    (uvmalloc() fails beyond it). *)

From S2P Require Import Prelude.

Record heap : Type := mkHeap {
  h_mem : mem;
  h_brk : Z;
  h_freep : Z;
}.
#[export] Instance upd_h_mem : Field h_mem := fun g r => mkHeap (g (h_mem r)) (h_brk r) (h_freep r).
#[export] Instance upd_h_brk : Field h_brk := fun g r => mkHeap (h_mem r) (g (h_brk r)) (h_freep r).
#[export] Instance upd_h_freep : Field h_freep := fun g r => mkHeap (h_mem r) (h_brk r) (g (h_freep r)).

Abbreviation U := (M heap).

Definition sizeof_Header : Z := 16.

(** p->s.ptr and p->s.size. *)
Definition mapped (h : heap) (p : Z) : bool := (0 <=? p) && (p + sizeof_Header <=? h_brk h).
Definition get_ptr (p : Z) : U Z := fun h => if mapped h p then Ok (load 8 (h_mem h) p) h else Fault h.
Definition get_size (p : Z) : U Z := fun h => if mapped h p then Ok (load 4 (h_mem h) (p + 8)) h else Fault h.
Definition set_ptr (p v : Z) : U unit := fun h =>
  if mapped h p then Ok tt (h <| h_mem := store 8 (h_mem h) p v |>) else Fault h.
Definition set_size (p v : Z) : U unit := fun h =>
  if mapped h p then Ok tt (h <| h_mem := store 4 (h_mem h) (p + 8) v |>) else Fault h.
Definition get_freep : U Z := fun h => Ok (h_freep h) h.
Definition set_freep (p : Z) : U unit := fun h => Ok tt (h <| h_freep := p |>).

(** p + n for a Header pointer. *)
Definition hdr_add (p n : Z) : Z := u64 (p + sizeof_Header * n).

(** At most one step per block of the list. *)
Definition list_fuel (h : heap) : nat := S (S (Z.to_nat (h_brk h / sizeof_Header))).

Section Allocator.
Variables base limit : Z.

(** The system call: growproc() with a positive argument fails when there is
    no memory; with a negative one it removes memory, unless the new size wraps
    around. *)
Definition sbrk (n : Z) : U Z := fun h =>
  let addr := h_brk h in
  if 0 <? n then
    if addr + n <=? limit then Ok addr (h <| h_brk := addr + n |>) else Ok (u64 (-1)) h
  else
    let newsz := u64 (addr + n) in
    Ok addr (h <| h_brk := if addr <=? newsz then addr else newsz |>).

(** for(p = freep; !(bp > p && bp < p->s.ptr); p = p->s.ptr) ... *)
Fixpoint free_find (fuel : nat) (bp p : Z) : U Z :=
  match fuel with
  | O => diverge
  | S f =>
      let* nx := get_ptr p in
      if (p <? bp) && (bp <? nx) then ret p
      else if (nx <=? p) && ((p <? bp) || (bp <? nx)) then ret p
      else free_find f bp nx
  end.

(** Join the freed block [bp] with the block that follows it... *)
Definition join_next (bp p : Z) : U unit :=
  let* bsize := get_size bp in
  let* next := get_ptr p in
  if hdr_add bp bsize =? next then
    let* nsize := get_size next in
    set_size bp (u32 (bsize + nsize)) ;;
    let* next := get_ptr p in
    let* nnext := get_ptr next in
    set_ptr bp nnext
  else
    set_ptr bp next.

(** ... and with the block [p] before it. *)
Definition join_prev (bp p : Z) : U unit :=
  let* psize := get_size p in
  if hdr_add p psize =? bp then
    let* bsize := get_size bp in
    set_size p (u32 (psize + bsize)) ;;
    let* bnext := get_ptr bp in
    set_ptr p bnext
  else
    set_ptr p bp.

Definition free (ap : Z) : U unit :=
  let bp := u64 (ap - sizeof_Header) in
  let* freep := get_freep in
  let* p := (fun h => free_find (list_fuel h) bp freep h) in
  join_next bp p ;;
  join_prev bp p ;;
  set_freep p.

Definition morecore (nu : Z) : U Z :=
  let nu := if nu <? 4096 then 4096 else nu in
  let* p := sbrk (i32 (u64 (nu * sizeof_Header))) in
  if p =? u64 (-1) then ret 0
  else
    set_size p nu ;;
    free (u64 (p + sizeof_Header)) ;;
    get_freep.

(** for(p = prevp->s.ptr; ; prevp = p, p = p->s.ptr) ... *)
Fixpoint malloc_loop (fuel : nat) (nunits prevp p : Z) : U Z :=
  match fuel with
  | O => diverge
  | S f =>
      let* psize := get_size p in
      if nunits <=? psize then
        let* q :=
          (if psize =? nunits then
             let* pnext := get_ptr p in
             set_ptr prevp pnext ;;
             ret p
           else
             set_size p (u32 (psize - nunits)) ;;
             let* psize := get_size p in
             let q := hdr_add p psize in
             set_size q nunits ;;
             ret q) in
        set_freep prevp ;;
        ret (hdr_add q 1)
      else
        let* freep := get_freep in
        if p =? freep then
          let* p := morecore nunits in
          if p =? 0 then ret 0
          else let* next := get_ptr p in malloc_loop f nunits p next
        else
          let* next := get_ptr p in malloc_loop f nunits p next
  end.

Definition nunits_of (nbytes : Z) : Z := u32 (u64 (nbytes + sizeof_Header - 1) / sizeof_Header + 1).

Definition malloc (nbytes : Z) : U Z :=
  let nunits := nunits_of nbytes in
  let* freep := get_freep in
  (when freep =? 0 do
    (set_freep base ;;
     set_ptr base base ;;
     set_size base 0)) ;;
  let* prevp := get_freep in
  let* p := get_ptr prevp in
  (fun h => malloc_loop (2 * list_fuel h + 2) nunits prevp p h).
End Allocator.
