(* ===== verification/UmallocSpec.v ===== *)
(** The allocator of umalloc.c is correct.

    [heap_ok h F A]: the memory of the process above [lo] is divided, without
    overlap and without loss, into the free blocks [F] and the allocated blocks
    [A]; the circular list holds exactly [F], in order of address and with no
    two adjacent blocks.  A block is its address and its size in units.
    malloc() moves memory from [F] to [A], free() back; neither changes a byte
    of another allocated block. *)

From stdpp Require Import sorting.
From S2P Require Import Prelude Umalloc.

(** ** Headers in memory *)

Definition hp (m : mem) (a : Z) : Z := load 8 m a.
Definition hs (m : mem) (a : Z) : Z := load 4 m (a + 8).

(** Two headers do not overlap. *)
Definition sep (a b : Z) : Prop := a + 16 <= b \/ b + 16 <= a.

Lemma hp_ptr_eq m a v : 0 <= v < 2 ^ 64 -> hp (store 8 m a v) a = v.
Proof. intros. unfold hp. rewrite load_store_same. apply Z.mod_small. done. Qed.
Lemma hp_ptr_ne m a b v : sep a b -> hp (store 8 m b v) a = hp m a.
Proof. intros H. unfold hp. apply load_store_disjoint. unfold sep in H. lia. Qed.
Lemma hs_ptr m a b v : a = b \/ sep a b -> hs (store 8 m b v) a = hs m a.
Proof. intros H. unfold hs. apply load_store_disjoint. unfold sep in H. lia. Qed.
Lemma hp_size m a b v : a = b \/ sep a b -> hp (store 4 m (b + 8) v) a = hp m a.
Proof. intros H. unfold hp. apply load_store_disjoint. unfold sep in H. lia. Qed.
Lemma hs_size_eq m a v : 0 <= v < 2 ^ 32 -> hs (store 4 m (a + 8) v) a = v.
Proof. intros. unfold hs. rewrite load_store_same. apply Z.mod_small. done. Qed.
Lemma hs_size_ne m a b v : sep a b -> hs (store 4 m (b + 8) v) a = hs m a.
Proof. intros H. unfold hs. apply load_store_disjoint. unfold sep in H. lia. Qed.

(** The accesses of the code, when they do not fault. *)
Lemma get_ptr_ok h p : mapped h p = true -> get_ptr p h = Ok (hp (h_mem h) p) h.
Proof. intros H. unfold get_ptr. by rewrite H. Qed.
Lemma get_size_ok h p : mapped h p = true -> get_size p h = Ok (hs (h_mem h) p) h.
Proof. intros H. unfold get_size. by rewrite H. Qed.
Lemma set_ptr_ok h p v : mapped h p = true -> set_ptr p v h = Ok tt (h <| h_mem := store 8 (h_mem h) p v |>).
Proof. intros H. unfold set_ptr. by rewrite H. Qed.
Lemma set_size_ok h p v : mapped h p = true -> set_size p v h = Ok tt (h <| h_mem := store 4 (h_mem h) (p + 8) v |>).
Proof. intros H. unfold set_size. by rewrite H. Qed.
Lemma mapped_true h p : 0 <= p -> p + 16 <= h_brk h -> mapped h p = true.
Proof. intros. unfold mapped, sizeof_Header. lia. Qed.

(** ** Blocks *)

Abbreviation blk := (Z * Z)%type.

(** Block [x] ends before block [y] begins, and they are not adjacent. *)
Definition before (x y : blk) : Prop := x.1 + Z.max 16 (16 * x.2) <= y.1 /\ x.1 + 16 * x.2 <> y.1.

Definition apart (x y : blk) : Prop := x.1 + 16 * x.2 <= y.1 \/ y.1 + 16 * y.2 <= x.1.

Fixpoint units (l : list blk) : Z := match l with [] => 0 | b :: l => b.2 + units l end.

Lemma units_app l k : units (l ++ k) = units l + units k.
Proof. induction l as [|b l IH]; cbn; lia. Qed.

(** The address of the first block of a list that continues at [e]. *)
Definition first (l : list blk) (e : Z) : Z := match l with b :: _ => b.1 | [] => e end.

(** The headers of the blocks [l] form a list that continues at [e]. *)
Fixpoint fchain (m : mem) (l : list blk) (e : Z) : Prop :=
  match l with
  | [] => True
  | b :: l' => hp m b.1 = first l' e /\ hs m b.1 = b.2 /\ fchain m l' e
  end.

Lemma first_app l k e : first (l ++ k) e = first l (first k e).
Proof. by destruct l. Qed.

Lemma fchain_app m l k e : fchain m (l ++ k) e <-> fchain m l (first k e) /\ fchain m k e.
Proof. induction l as [|b l IH]; cbn; [tauto|]. rewrite IH, first_app. tauto. Qed.

Lemma fchain_ext m m' l e :
  (forall b, b ∈ l -> hp m' b.1 = hp m b.1 /\ hs m' b.1 = hs m b.1) -> fchain m l e -> fchain m' l e.
Proof.
  induction l as [|b l IH]; cbn; [done|]. intros H (H1 & H2 & H3). destruct (H b) as [E1 E2]; [set_solver|].
  split_and!; [congruence|congruence|]. apply IH; [|done]. intros c Hc. apply H. set_solver.
Qed.

Lemma fchain_elem m l e b : fchain m l e -> b ∈ l -> hs m b.1 = b.2.
Proof.
  induction l as [|c l IH]; cbn; [set_solver|]. intros (_ & H & Hc) [->|Hb]%elem_of_cons; [done|]. by apply IH.
Qed.

Lemma sorted_sep x y : before x y -> sep x.1 y.1.
Proof. unfold before, sep. lia. Qed.

Lemma first_least l b e : StronglySorted before l -> b ∈ l -> first l e <= b.1.
Proof.
  intros Hs Hb. destruct Hs as [|c l Hs HF]; [set_solver|]. cbn. apply elem_of_cons in Hb as [->|Hb]; [lia|].
  rewrite Forall_forall in HF. pose proof (HF b Hb). unfold before in *. lia.
Qed.

Lemma exists_last_or_nil {A} (l : list A) : l = [] \/ exists l0 x, l = l0 ++ [x].
Proof. destruct l as [|x l0] using rev_ind; eauto. Qed.

(** ** free(): the place of a block in the list *)

Section Find.
Context (h : heap) (base bp : Z) (l1 l2 : list blk) (q : blk).
Hypothesis Hch : fchain (h_mem h) (l1 ++ q :: l2) base.
Hypothesis Hsort : StronglySorted before (l1 ++ q :: l2).
Hypothesis Hmap : forall b, b ∈ l1 ++ q :: l2 -> mapped h b.1 = true.
Hypothesis Hbase : first (l1 ++ q :: l2) 0 = base.
Hypothesis Hlow : forall b, b ∈ l1 ++ [q] -> b.1 < bp.
Hypothesis Hhigh : forall b, b ∈ l2 -> bp < b.1.

Lemma base_least b : b ∈ l1 ++ q :: l2 -> base <= b.1.
Proof. intros Hb. rewrite <- Hbase. by apply first_least. Qed.

(** From a block at or before [q]. *)
Lemma find_before k : forall a p b,
  l1 ++ q :: l2 = a ++ p :: b -> (length a <= length l1)%nat -> (length l1 - length a < k)%nat ->
  free_find k bp p.1 h = Ok q.1 h.
Proof.
  induction k as [|k IH]; intros a p b E Hl Hk; [lia|]. cbn [free_find].
  pose proof Hch as Hc. rewrite E, fchain_app in Hc. destruct Hc as [_ (Hn & _ & _)].
  rewrite (bind_ok _ _ _ _ _ (get_ptr_ok h p.1 (Hmap p ltac:(rewrite E; set_solver)))). rewrite Hn.
  pose proof Hsort as Hs. rewrite E in Hs. apply StronglySorted_app_1_r in Hs. apply StronglySorted_inv in Hs as [_ HF].
  rewrite Forall_forall in HF.
  destruct (decide (length a = length l1)) as [Ea|Na].
  - apply app_inj_1 in E as [<- [= <- <-]]; [|done]. assert (q.1 < bp) as Hq by (apply Hlow; set_solver).
    pose proof (base_least q ltac:(set_solver)). destruct l2 as [|r l2']; cbn [first].
    + destruct (Z.ltb_spec q.1 bp), (Z.ltb_spec bp base), (Z.leb_spec base q.1); cbn; done || lia.
    + assert (bp < r.1) by (apply Hhigh; set_solver). destruct (Z.ltb_spec q.1 bp), (Z.ltb_spec bp r.1); cbn; done || lia.
  - destruct b as [|r b'].
    { exfalso. apply (f_equal length) in E. rewrite !length_app in E. cbn in E. lia. }
    cbn [first]. assert (before p r) as Hpr by (apply HF; set_solver).
    assert (r.1 < bp) as Hr.
    { apply Hlow. apply list_elem_of_lookup. exists (S (length a)).
      assert ((l1 ++ q :: l2) !! S (length a) = Some r) as Hlk.
      { rewrite E, lookup_app_r by lia. by replace (S (length a) - length a)%nat with 1%nat by lia. }
      change (q :: l2) with ([q] ++ l2) in Hlk. rewrite app_assoc, lookup_app_l in Hlk; [done|]. rewrite length_app. cbn. lia. }
    unfold before in Hpr. replace ((p.1 <? bp) && (bp <? r.1)) with false by lia.
    replace ((r.1 <=? p.1) && ((p.1 <? bp) || (bp <? r.1))) with false by lia.
    apply (IH (a ++ [p]) r b'); [by rewrite <- app_assoc| |]; rewrite length_app; cbn; lia.
Qed.

(** From any block: the walk may go once around the end of the list. *)
Lemma find_any k : forall a p b,
  l1 ++ q :: l2 = a ++ p :: b -> (length l1 - length a < k)%nat ->
  (length l1 < length a -> length b + length l1 + 1 < k)%nat -> free_find k bp p.1 h = Ok q.1 h.
Proof.
  induction k as [|k IH]; intros a p b E Hk0 Hk; [lia|].
  destruct (decide (length a <= length l1)%nat) as [Hl|Hl]; [by apply (find_before _ a p b)|]. specialize (Hk ltac:(lia)).
  cbn [free_find]. pose proof Hch as Hc. rewrite E, fchain_app in Hc. destruct Hc as [_ (Hn & _ & _)].
  rewrite (bind_ok _ _ _ _ _ (get_ptr_ok h p.1 (Hmap p ltac:(rewrite E; set_solver)))). rewrite Hn.
  pose proof Hsort as Hs. rewrite E in Hs. apply StronglySorted_app_1_r in Hs. apply StronglySorted_inv in Hs as [_ HF].
  rewrite Forall_forall in HF.
  assert (bp < p.1) as Hp.
  { apply Hhigh. apply list_elem_of_lookup. exists (length a - length (l1 ++ [q]))%nat.
    assert ((l1 ++ q :: l2) !! length a = Some p) as Hlk by (rewrite E; by apply list_lookup_middle).
    change (q :: l2) with ([q] ++ l2) in Hlk. rewrite app_assoc, lookup_app_r in Hlk; [done|]. rewrite length_app. cbn. lia. }
  assert (base < bp) as Hb0.
  { assert (base <= q.1) by (apply base_least; set_solver). assert (q.1 < bp) by (apply Hlow; set_solver). lia. }
  destruct b as [|r b']; cbn [first].
  - replace ((p.1 <? bp) && (bp <? base)) with false by lia.
    replace ((base <=? p.1) && ((p.1 <? bp) || (bp <? base))) with false by lia.
    assert (exists c l, l1 ++ q :: l2 = c :: l) as (c & l & El) by (destruct l1; eauto).
    replace base with c.1 by (by rewrite <- Hbase, El).
    apply (find_before _ [] c l); [done|cbn; lia|cbn in *; lia].
  - assert (before p r) as Hpr by (apply HF; set_solver). unfold before in Hpr.
    replace ((p.1 <? bp) && (bp <? r.1)) with false by lia.
    replace ((r.1 <=? p.1) && ((p.1 <? bp) || (bp <? r.1))) with false by lia.
    apply (IH (a ++ [p]) r b'); [by rewrite <- app_assoc|rewrite length_app; cbn; lia|cbn in Hk; lia].
Qed.

Lemma find_fuel k p : p ∈ l1 ++ q :: l2 -> (length (l1 ++ q :: l2) <= k)%nat -> free_find k bp p.1 h = Ok q.1 h.
Proof.
  intros (a & b & E)%list_elem_of_split Hk. pose proof (f_equal length E) as El. rewrite !length_app in *. cbn in *.
  apply (find_any k a p b E); lia.
Qed.
End Find.

(** ** free(): joining with the neighbours *)

Definition join_r (b : blk) (l : list blk) : blk * list blk :=
  match l with
  | y :: l' => if b.1 + 16 * b.2 =? y.1 then ((b.1, b.2 + y.2), l') else (b, l)
  | [] => (b, [])
  end.

Definition join_l (p b : blk) : list blk :=
  if p.1 + 16 * p.2 =? b.1 then [(p.1, p.2 + b.2)] else [p; b].

(** Everything but the header at [a] is as before. *)
Definition only_header (a : Z) (m m' : mem) : Prop :=
  (forall c, sep c a -> hp m' c = hp m c /\ hs m' c = hs m c) /\ (forall x, x < a \/ a + 16 <= x -> m' x = m x).

Lemma hdr_add_small p n : 0 <= p + 16 * n < 2 ^ 64 -> hdr_add p n = p + 16 * n.
Proof. intros. unfold hdr_add, sizeof_Header. by apply u64_small. Qed.

Lemma only_ptr m a v : only_header a m (store 8 m a v).
Proof.
  split; [|intros x Hx; apply store_out; lia]. intros c Hc. split; [by apply hp_ptr_ne|apply hs_ptr; by right].
Qed.
Lemma only_size m a v : only_header a m (store 4 m (a + 8) v).
Proof.
  split; [|intros x Hx; apply store_out; lia]. intros c Hc. split; [apply hp_size; by right|by apply hs_size_ne].
Qed.
Lemma only_trans a m m' m'' : only_header a m m' -> only_header a m' m'' -> only_header a m m''.
Proof.
  intros [H1 H2] [H3 H4]. split.
  - intros c Hc. destruct (H1 c Hc), (H3 c Hc). split; congruence.
  - intros x Hx. by rewrite H4, H2.
Qed.

Lemma join_next_ok h base bp bn q l :
  1 <= bn -> 0 < base -> base + 16 <= bp -> bp + 16 * bn <= 2 ^ 32 -> sep q bp ->
  (forall y, y ∈ l -> bp + 16 * bn <= y.1 /\ 1 <= y.2 /\ y.1 + 16 * y.2 <= 2 ^ 32 /\ mapped h y.1 = true) ->
  mapped h bp = true -> mapped h q = true ->
  hs (h_mem h) bp = bn -> hp (h_mem h) q = first l base -> fchain (h_mem h) l base ->
  exists m', join_next bp q h = Ok tt (h <| h_mem := m' |>) /\ only_header bp (h_mem h) m' /\
    hs m' bp = (join_r (bp, bn) l).1.2 /\ hp m' bp = first (join_r (bp, bn) l).2 base.
Proof.
  intros Hbn Hb Hbp Hend Hsep Hl Mb Mq Hs Hp Hc. unfold join_next.
  rewrite (bind_ok _ _ _ _ _ (get_size_ok h bp Mb)), (bind_ok _ _ _ _ _ (get_ptr_ok h q Mq)). rewrite Hs, Hp.
  rewrite hdr_add_small by lia. destruct l as [|y l]; cbn [first join_r fst snd].
  - destruct (Z.eqb_spec (bp + 16 * bn) base); [lia|]. eexists. rewrite set_ptr_ok by done. split_and!; [done|apply only_ptr| |].
    + rewrite hs_ptr; [done|by left].
    + apply hp_ptr_eq. lia.
  - destruct (Hl y) as (Y1 & Y2 & Y3 & Y4); [set_solver|]. destruct Hc as (Hpy & Hsy & Hc).
    assert (0 <= first l base < 2 ^ 64) as Hf.
    { destruct l as [|z l]; cbn; [lia|]. destruct (Hl z) as (? & ? & ? & ?); [set_solver|]. lia. }
    assert (sep y.1 bp) as Hyb by (unfold sep; lia).
    destruct (Z.eqb_spec (bp + 16 * bn) y.1) as [E|E]; cbn [fst snd].
    + rewrite (bind_ok _ _ _ _ _ (get_size_ok h y.1 Y4)), Hsy.
      rewrite (bind_ok _ _ _ _ _ (set_size_ok h bp _ Mb)). set (h1 := h <| h_mem := _ |>).
      destruct (only_size (h_mem h) bp (u32 (bn + y.2))) as [O1 _].
      destruct (O1 q Hsep) as [Eq _]. destruct (O1 y.1 Hyb) as [Ey _].
      rewrite (bind_ok _ _ _ _ _ (get_ptr_ok h1 q Mq)). change (h_mem h1) with (store 4 (h_mem h) (bp + 8) (u32 (bn + y.2))).
      rewrite Eq, Hp. cbn [first]. rewrite (bind_ok _ _ _ _ _ (get_ptr_ok h1 y.1 Y4)).
      change (h_mem h1) with (store 4 (h_mem h) (bp + 8) (u32 (bn + y.2))). rewrite Ey, Hpy.
      rewrite set_ptr_ok by done. eexists. split_and!; [reflexivity|eapply only_trans; [apply only_size|apply only_ptr]| |].
      * rewrite hs_ptr by (by left). cbn. rewrite hs_size_eq; rewrite u32_small; lia.
      * by apply hp_ptr_eq.
    + rewrite set_ptr_ok by done. eexists. split_and!; [reflexivity|apply only_ptr| |].
      * rewrite hs_ptr; [done|by left].
      * cbn. apply hp_ptr_eq. lia.
Qed.

Lemma join_prev_ok h bp bn q e :
  0 <= q.1 -> 0 <= q.2 -> 1 <= bn -> q.1 + Z.max 16 (16 * q.2) <= bp -> bp + 16 * bn <= 2 ^ 32 -> 0 <= e < 2 ^ 64 ->
  mapped h bp = true -> mapped h q.1 = true ->
  hs (h_mem h) bp = bn -> hp (h_mem h) bp = e -> hs (h_mem h) q.1 = q.2 ->
  exists m', join_prev bp q.1 h = Ok tt (h <| h_mem := m' |>) /\ only_header q.1 (h_mem h) m' /\
    fchain m' (join_l q (bp, bn)) e.
Proof.
  intros Hq0 Hqn Hbn Hle Hend He Mb Mq Hs Hp Hqs. unfold join_prev, join_l. cbn [fst snd].
  rewrite (bind_ok _ _ _ _ _ (get_size_ok h q.1 Mq)), Hqs. rewrite hdr_add_small by lia.
  assert (sep bp q.1) as Hsep by (unfold sep; lia).
  destruct (Z.eqb_spec (q.1 + 16 * q.2) bp) as [E|E].
  - rewrite (bind_ok _ _ _ _ _ (get_size_ok h bp Mb)), Hs. rewrite (bind_ok _ _ _ _ _ (set_size_ok h q.1 _ Mq)).
    set (h1 := h <| h_mem := _ |>). rewrite (bind_ok _ _ _ _ _ (get_ptr_ok h1 bp Mb)).
    change (h_mem h1) with (store 4 (h_mem h) (q.1 + 8) (u32 (q.2 + bn))). rewrite hp_size by (by right). rewrite Hp.
    rewrite set_ptr_ok by done. eexists. split_and!; [reflexivity|eapply only_trans; [apply only_size|apply only_ptr]|].
    cbn [fchain first fst snd]. split_and!; [by apply hp_ptr_eq| |done].
    rewrite hs_ptr by (by left). cbn. rewrite hs_size_eq; rewrite u32_small; lia.
  - rewrite set_ptr_ok by done. eexists. split_and!; [reflexivity|apply only_ptr|].
    cbn [fchain first fst snd]. split_and!; [apply hp_ptr_eq; lia| | | |done].
    + rewrite hs_ptr; [done|by left].
    + by rewrite hp_ptr_ne.
    + rewrite hs_ptr; [done|by right].
Qed.

(** The list with block [b] put back between [q] and [l2]. *)
Definition put (l1 : list blk) (q b : blk) (l2 : list blk) : list blk :=
  l1 ++ join_l q (join_r b l2).1 ++ (join_r b l2).2.

Section Put.
Context (l1 l2 : list blk) (q b : blk).
Hypothesis Hsort : StronglySorted before (l1 ++ q :: l2).
Hypothesis Hlow : forall x, x ∈ l1 ++ [q] -> 0 <= x.2 /\ x.1 + Z.max 16 (16 * x.2) <= b.1.
Hypothesis Hhigh : forall y, y ∈ l2 -> 1 <= y.2 /\ b.1 + 16 * b.2 <= y.1.
Hypothesis Hb : 1 <= b.2.

(** What joining with the next block gives. *)
Lemma join_r_spec :
  (join_r b l2).1.1 = b.1 /\ b.2 <= (join_r b l2).1.2 /\
  (join_r b l2).1.2 + units (join_r b l2).2 = b.2 + units l2 /\
  (forall y, y ∈ (join_r b l2).2 -> y ∈ l2 /\ before (join_r b l2).1 y) /\
  ((join_r b l2).1 = b \/ exists y, y ∈ l2 /\ y.1 = b.1 + 16 * b.2 /\ (join_r b l2).1 = (b.1, b.2 + y.2)).
Proof.
  assert (StronglySorted before l2) as Hs by (by apply StronglySorted_app_1_r, StronglySorted_inv in Hsort as [? _]).
  unfold join_r. destruct l2 as [|y l]; [split_and!; [done|cbn; lia|done|set_solver|by left]|].
  destruct (Hhigh y) as [Y1 Y2]; [set_solver|]. apply StronglySorted_inv in Hs as [_ HF]. rewrite Forall_forall in HF.
  destruct (Z.eqb_spec (b.1 + 16 * b.2) y.1) as [E|E]; cbn [fst snd units].
  - split_and!; [done|lia|lia| |right; exists y; split_and!; [set_solver|done|done]].
    intros z Hz. split; [set_solver|]. pose proof (HF z Hz) as Hyz. unfold before in *. cbn. lia.
  - split_and!; [done|lia|lia| |by left]. intros z [->|Hz]%elem_of_cons; (split; [set_solver|]).
    + unfold before. lia.
    + pose proof (HF z Hz) as Hyz. unfold before in *. lia.
Qed.

Lemma put_units : units (put l1 q b l2) = units (l1 ++ q :: l2) + b.2.
Proof.
  destruct join_r_spec as (_ & _ & E & _). unfold put, join_l. rewrite !units_app. cbn [units].
  case_match; cbn [units fst snd]; lia.
Qed.

Lemma put_sorted : StronglySorted before (put l1 q b l2).
Proof.
  destruct join_r_spec as (E1 & E2 & _ & H & _). set (b' := (join_r b l2).1) in *. set (l2' := (join_r b l2).2) in *.
  destruct (Hlow q) as [Hq0 Hqb]; [set_solver|].
  assert (StronglySorted before l2') as Hs2.
  { apply StronglySorted_app_1_r, StronglySorted_inv in Hsort as [Hs _]. unfold l2', join_r.
    destruct l2 as [|y l]; [constructor|]. case_match; [|done]. by apply StronglySorted_inv in Hs as [? _]. }
  assert (forall x y, x ∈ l1 -> y ∈ q :: l2 -> before x y) as H12 by (intros x y; by apply StronglySorted_app_1_elem_of).
  assert (forall y, y ∈ l2 -> before q y) as Hq2.
  { intros y Hy. apply StronglySorted_app_1_r, StronglySorted_inv in Hsort as [_ HF]. rewrite Forall_forall in HF. by apply HF. }
  assert (forall x, x ∈ l1 -> before x b') as H1b.
  { intros x Hx. destruct (Hlow x) as [? _]; [set_solver|]. pose proof (H12 x q Hx ltac:(set_solver)). unfold before in *. lia. }
  unfold put, join_l. fold b' l2'. apply StronglySorted_app_2; [|by apply StronglySorted_app_1_l in Hsort|].
  - intros x z Hx Hz. destruct (Z.eqb_spec (q.1 + 16 * q.2) b'.1); cbn in Hz.
    + apply elem_of_cons in Hz as [->|Hz]; [|apply H12; [done|]; destruct (H z Hz); set_solver].
      pose proof (H12 x q Hx ltac:(set_solver)) as Hxq. exact Hxq.
    + apply elem_of_cons in Hz as [->|Hz]; [apply H12; set_solver|].
      apply elem_of_cons in Hz as [->|Hz]; [by apply H1b|]. apply H12; [done|]. destruct (H z Hz). set_solver.
  - destruct (Z.eqb_spec (q.1 + 16 * q.2) b'.1); cbn.
    + constructor; [done|]. apply Forall_forall. intros z Hz. destruct (H z Hz) as [_ Hbz]. unfold before in *. cbn. lia.
    + constructor; [constructor; [done|]|]; apply Forall_forall.
      * intros z Hz. by apply H.
      * intros z [->|Hz]%elem_of_cons; [unfold before; lia|]. apply Hq2. by apply H.
Qed.

(** A block of the result is an old one, or covers [b] and old ones. *)
Lemma put_elem z a :
  z ∈ put l1 q b l2 -> 1 <= a.2 -> (forall y, y ∈ q :: b :: l2 -> 1 <= y.2 -> apart a y) ->
  z ∈ l1 ++ q :: l2 \/ apart a z.
Proof.
  destruct join_r_spec as (E1 & E2 & _ & H & Hc). intros Hz Ha Hap. unfold put in Hz.
  assert (apart a (join_r b l2).1) as Hab.
  { destruct Hc as [->|(y & Hy & Ey & ->)]; [apply Hap; [set_solver|done]|]. destruct (Hhigh y Hy) as [Hy1 _].
    pose proof (Hap y ltac:(set_solver) Hy1). pose proof (Hap b ltac:(set_solver) Hb). unfold apart in *. cbn. lia. }
  destruct (Hlow q) as [Hq0 Hqb]; [set_solver|]. unfold join_l in Hz.
  apply elem_of_app in Hz as [Hz|Hz]; [left; set_solver|]. apply elem_of_app in Hz as [Hz|Hz]; [|left; destruct (H z Hz); set_solver].
  destruct (Z.eqb_spec (q.1 + 16 * q.2) (join_r b l2).1.1) as [E|E].
  - apply list_elem_of_singleton in Hz as ->. right. destruct (decide (1 <= q.2)) as [Hq1|Hq1].
    + pose proof (Hap q ltac:(set_solver) Hq1). unfold apart in *. cbn. lia.
    + unfold apart in *. cbn. lia.
  - apply elem_of_cons in Hz as [->|Hz]; [left; set_solver|]. apply list_elem_of_singleton in Hz as ->. by right.
Qed.

Lemma put_in z :
  z ∈ put l1 q b l2 -> z ∈ l1 ++ q :: l2 \/
  (1 <= z.2 /\ (z.1 = b.1 \/ (z.1 = q.1 /\ q.1 + 16 * q.2 = b.1)) /\
   (z.1 + 16 * z.2 = b.1 + 16 * b.2 \/ exists y, y ∈ l2 /\ z.1 + 16 * z.2 = y.1 + 16 * y.2)).
Proof.
  destruct join_r_spec as (E1 & E2 & _ & H & Hc). intros Hz. unfold put, join_l in Hz.
  assert ((join_r b l2).1.1 + 16 * (join_r b l2).1.2 = b.1 + 16 * b.2 \/
    exists y, y ∈ l2 /\ (join_r b l2).1.1 + 16 * (join_r b l2).1.2 = y.1 + 16 * y.2) as He.
  { destruct Hc as [->|(y & Hy & Ey & ->)]; [by left|]. right. exists y. cbn. split; [done|lia]. }
  destruct (Hlow q) as [Hq0 Hqb]; [set_solver|].
  apply elem_of_app in Hz as [Hz|Hz]; [left; set_solver|]. apply elem_of_app in Hz as [Hz|Hz]; [|left; destruct (H z Hz); set_solver].
  destruct (Z.eqb_spec (q.1 + 16 * q.2) (join_r b l2).1.1) as [E|E].
  - apply list_elem_of_singleton in Hz as ->. right. cbn. split_and!; [lia|right; lia|].
    destruct He as [He|(y & Hy & He)]; [left; lia|]. right. exists y. split; [done|lia].
  - apply elem_of_cons in Hz as [->|Hz]; [left; set_solver|]. apply list_elem_of_singleton in Hz as ->. right.
    split_and!; [lia|by left|done].
Qed.

(** The list still starts where it did, passes through [q], and has room for [b]. *)
Lemma put_head e : first (put l1 q b l2) e = first (l1 ++ q :: l2) e.
Proof. unfold put, join_l. destruct l1 as [|x l]; [|done]. cbn. by case_match. Qed.

Lemma put_pred : exists n, (q.1, n) ∈ put l1 q b l2.
Proof. unfold put, join_l. case_match; [exists (q.2 + (join_r b l2).1.2)|exists q.2; destruct q]; cbn; set_solver. Qed.

Lemma put_big : exists y, y ∈ put l1 q b l2 /\ b.2 <= y.2.
Proof.
  destruct join_r_spec as (_ & E2 & _). destruct (Hlow q) as [Hq0 _]; [set_solver|]. unfold put, join_l.
  case_match; [exists (q.1, q.2 + (join_r b l2).1.2)|exists (join_r b l2).1]; (split; [set_solver|cbn; lia]).
Qed.

Lemma put_length : (length (put l1 q b l2) <= S (length (l1 ++ q :: l2)))%nat.
Proof.
  unfold put, join_l. rewrite !length_app. assert (length (join_r b l2).2 <= length l2)%nat.
  { unfold join_r. destruct l2; cbn; [done|]. case_match; cbn; lia. }
  case_match; cbn; lia.
Qed.
End Put.

(** ** The invariant *)

Section Heap.
Context (base lo limit : Z).
Hypothesis Hbase : 0 < base.
Hypothesis Hlo : base + 16 <= lo.
Hypothesis Hlimit : limit <= 2 ^ 32.

Definition inside (h : heap) (b : blk) : Prop := lo <= b.1 /\ 1 <= b.2 /\ b.1 + 16 * b.2 <= h_brk h.

Record heap_ok (h : heap) (F A : list blk) : Prop := {
  ho_freep : exists n, (h_freep h, n) ∈ (base, 0) :: F;
  ho_chain : fchain (h_mem h) ((base, 0) :: F) base;
  ho_sorted : StronglySorted before ((base, 0) :: F);
  ho_in b : b ∈ A ++ F -> inside h b;
  ho_size b : b ∈ A -> hs (h_mem h) b.1 = b.2;
  ho_A : StronglySorted apart A;
  ho_AF a f : a ∈ A -> f ∈ F -> apart a f;
  ho_total : 16 * units (A ++ F) = h_brk h - lo;
  ho_brk : h_brk h <= limit;
}.

(** No byte of a block of [A] changes. *)
Definition keeps (A : list blk) (h h' : heap) : Prop :=
  forall b x, b ∈ A -> b.1 <= x < b.1 + 16 * b.2 -> h_mem h' x = h_mem h x.

(** The blocks before and after an address that is in no free block. *)
Lemma split_at b : forall F p,
  StronglySorted before (p :: F) -> p.1 + Z.max 16 (16 * p.2) <= b.1 -> 1 <= b.2 ->
  (forall f, f ∈ F -> 1 <= f.2 /\ apart b f) ->
  exists l1 q l2, p :: F = l1 ++ q :: l2 /\
    (forall x, x ∈ l1 ++ [q] -> x.1 + Z.max 16 (16 * x.2) <= b.1) /\
    (forall y, y ∈ l2 -> b.1 + 16 * b.2 <= y.1).
Proof.
  induction F as [|f F IH]; intros p Hs Hp Hb Hf.
  { exists [], p, []. split_and!; [done| |]; set_solver. }
  apply StronglySorted_inv in Hs as [Hs HF]. destruct (Hf f) as [Hf1 Hf2]; [set_solver|].
  destruct (decide (f.1 < b.1)) as [Hlt|Hge].
  - destruct (IH f Hs) as (l1 & q & l2 & E & H1 & H2); [unfold apart in Hf2; lia|done|intros g Hg; apply Hf; set_solver|].
    exists (p :: l1), q, l2. split_and!; [cbn; by rewrite E| |done]. intros x [->|Hx]%elem_of_cons; [done|by apply H1].
  - exists [], p, (f :: F). split_and!; [done|set_solver|]. apply StronglySorted_inv in Hs as [_ HF'].
    rewrite Forall_forall in HF'. intros y [->|Hy]%elem_of_cons; [unfold apart in Hf2; lia|].
    pose proof (HF' y Hy). unfold before, apart in *. lia.
Qed.
(** Fuel: there is at most one block per unit of memory. *)
Lemma units_length l : (forall b, b ∈ l -> 1 <= b.2) -> Z.of_nat (length l) <= units l.
Proof. induction l as [|b l IH]; cbn; [lia|]. intros H. pose proof (H b ltac:(set_solver)). pose proof (IH ltac:(set_solver)). lia. Qed.

Lemma units_nonneg l : (forall b, b ∈ l -> 1 <= b.2) -> 0 <= units l.
Proof. intros H. pose proof (units_length l H). lia. Qed.

Lemma enough_fuel h F A : heap_ok h F A -> (S (length F) < list_fuel h)%nat.
Proof.
  intros I. pose proof (ho_total _ _ _ I) as T. rewrite units_app in T.
  assert (Z.of_nat (length F) <= units F) by (apply units_length; intros b Hb; apply (ho_in _ _ _ I); set_solver).
  assert (0 <= units A) by (apply units_nonneg; intros b Hb; apply (ho_in _ _ _ I); set_solver).
  unfold list_fuel, sizeof_Header. assert (Z.of_nat (length F) <= h_brk h / 16) by (apply Z.div_le_lower_bound; lia). lia.
Qed.

Lemma list_mapped h F A b : heap_ok h F A -> b ∈ (base, 0) :: F -> mapped h b.1 = true /\ 0 <= b.2 /\ 0 <= b.1.
Proof.
  intros I Hb. assert (lo <= h_brk h) as Hl.
  { pose proof (ho_total _ _ _ I). pose proof (units_nonneg (A ++ F) ltac:(intros c Hc; apply (ho_in _ _ _ I c Hc))). lia. }
  apply elem_of_cons in Hb as [->|Hb].
  - split; [apply mapped_true; cbn; lia|cbn; lia].
  - destruct (ho_in _ _ _ I b ltac:(set_solver)) as (H1 & H2 & H3). split; [apply mapped_true; lia|lia].
Qed.

Lemma free_find_ok h F A bp l1 q l2 :
  heap_ok h F A -> (base, 0) :: F = l1 ++ q :: l2 -> (forall x, x ∈ l1 ++ [q] -> x.1 < bp) -> (forall y, y ∈ l2 -> bp < y.1) ->
  free_find (list_fuel h) bp (h_freep h) h = Ok q.1 h.
Proof.
  intros I EF Hlow Hhigh. destruct (ho_freep _ _ _ I) as [n Hfp]. pose proof (enough_fuel h F A I) as Hfu.
  pose proof (ho_sorted _ _ _ I) as Hsort. pose proof (ho_chain _ _ _ I) as Hc.
  pose proof (fun c => list_mapped h F A c I) as Hmap.
  assert (length ((base, 0%Z) :: F) <= list_fuel h)%nat as Hle by (cbn; lia).
  assert (first ((base, 0) :: F) 0 = base) as H0 by done. rewrite EF in *.
  exact (find_fuel h base bp l1 l2 q Hc Hsort (fun c Hc0 => proj1 (Hmap c Hc0)) H0 Hlow Hhigh _ _ Hfp Hle).
Qed.

(** free(): the effect on memory. *)
Lemma free_mem h F A bp bn l1 q l2 :
  heap_ok h F A -> (base, 0) :: F = l1 ++ q :: l2 -> inside h (bp, bn) -> hs (h_mem h) bp = bn ->
  (forall x, x ∈ l1 ++ [q] -> 0 <= x.2 /\ x.1 + Z.max 16 (16 * x.2) <= bp) ->
  (forall y, y ∈ l2 -> 1 <= y.2 /\ bp + 16 * bn <= y.1 /\ y.1 + 16 * y.2 <= 2 ^ 32) ->
  exists m', free (bp + 16) h = Ok tt (h <| h_mem := m' |> <| h_freep := q.1 |>) /\
    fchain m' (put l1 q (bp, bn) l2) base /\
    (forall a, sep a bp -> sep a q.1 -> hs m' a = hs (h_mem h) a) /\
    (forall x, x < bp \/ bp + 16 <= x -> x < q.1 \/ q.1 + 16 <= x -> m' x = h_mem h x).
Proof.
  intros I EF (B1 & B2 & B3) Hs Hlow Hhigh. cbn [fst snd] in *. pose proof (ho_brk _ _ _ I) as Hbk.
  pose proof (ho_sorted _ _ _ I) as Hsort. pose proof (ho_chain _ _ _ I) as Hc.
  pose proof (fun c => list_mapped h F A c I) as Hmap. rewrite EF in Hsort, Hc, Hmap.
  assert (mapped h bp = true) as Mb by (apply mapped_true; lia).
  destruct (Hmap q) as (Mq & Q2 & Q1); [set_solver|]. pose proof (Hlow q ltac:(set_solver)) as [_ Hqb].
  assert (sep q.1 bp) as Hsqb by (unfold sep; lia).
  pose proof Hc as Hc'. rewrite fchain_app in Hc'. destruct Hc' as (Hc1 & Hpq & Hsq & Hc2).
  destruct (join_next_ok h base bp bn q.1 l2 B2 Hbase ltac:(lia) ltac:(lia) Hsqb
    ltac:(intros y Hy; destruct (Hhigh y Hy) as (? & ? & ?); split_and!; [lia|lia|lia|apply Hmap; set_solver]) Mb Mq Hs Hpq Hc2)
    as (m1 & E1 & [O1 O1'] & S1 & P1).
  destruct (join_r_spec l1 l2 q (bp, bn) Hsort Hlow ltac:(intros y Hy; destruct (Hhigh y Hy) as (? & ? & _); cbn; lia) B2)
    as (J1 & J2 & _ & J4 & J5). cbn [fst snd] in *.
  unfold put. set (b' := (join_r (bp, bn) l2).1) in *. set (l2' := (join_r (bp, bn) l2).2) in *.
  assert (bp + 16 * b'.2 <= 2 ^ 32) as Hb'.
  { destruct J5 as [->|(y & Hy & Ey & ->)]; cbn; [lia|]. destruct (Hhigh y Hy) as (? & ? & ?). lia. }
  assert (0 <= first l2' base < 2 ^ 64) as He.
  { destruct l2' as [|y l]; cbn; [lia|]. destruct (J4 y) as [Hy _]; [set_solver|]. destruct (Hhigh y Hy) as (? & ? & ?). lia. }
  destruct (O1 q.1 Hsqb) as [_ Sq1]. rewrite Hsq in Sq1.
  destruct (join_prev_ok (h <| h_mem := m1 |>) bp b'.2 q (first l2' base) Q1 Q2 ltac:(lia) Hqb Hb' He)
    as (m2 & E2 & [O2 O2'] & C2); [done..|]. cbn in O2, O2', C2.
  replace (bp, b'.2) with b' in C2 by (destruct b'; cbn in *; by subst).
  assert (forall a, sep a bp -> sep a q.1 -> hp m2 a = hp (h_mem h) a /\ hs m2 a = hs (h_mem h) a) as Hext.
  { intros a H1 H2. destruct (O1 a H1), (O2 a H2). split; congruence. }
  exists m2. split_and!.
  - assert (u64 (bp + 16 - 16) = bp) as Ebp by (rewrite u64_small; lia).
    unfold free. change sizeof_Header with 16. rewrite Ebp. unfold bind, get_freep.
    rewrite (free_find_ok h F A bp l1 q l2 I EF); [by rewrite E1, E2| |].
    + intros x Hx. destruct (Hlow x Hx). lia.
    + intros y Hy. destruct (Hhigh y Hy) as (? & ? & _). lia.
  - apply fchain_app. split; [|apply fchain_app; split].
    + rewrite first_app. replace (first (join_l q b') (first l2' base)) with q.1 by (unfold join_l; by case_match).
      eapply fchain_ext; [|exact Hc1]. intros x Hx. destruct (Hlow x ltac:(set_solver)).
      pose proof (StronglySorted_app_1_elem_of _ _ _ x q Hsort Hx ltac:(set_solver)) as Hxq.
      apply Hext; [unfold sep; lia|by apply sorted_sep].
    + exact C2.
    + eapply (fchain_ext (h_mem h)).
      * intros y Hy. destruct (J4 y Hy) as [Hy2 _]. destruct (Hhigh y Hy2) as (? & ? & _). apply Hext; unfold sep; lia.
      * unfold l2', join_r. destruct l2 as [|y l]; [done|]. case_match; [by destruct Hc2 as (_ & _ & ?)|done].
  - intros a H1 H2. by apply Hext.
  - intros x H1 H2. cbn in O2'. by rewrite O2', O1'.
Qed.
(** The place of an allocated block in the free list. *)
Lemma free_place h F A1 A2 b :
  heap_ok h F (A1 ++ b :: A2) ->
  exists l1 q l2, (base, 0) :: F = l1 ++ q :: l2 /\
    (forall x, x ∈ l1 ++ [q] -> 0 <= x.2 /\ x.1 + Z.max 16 (16 * x.2) <= b.1) /\
    (forall y, y ∈ l2 -> 1 <= y.2 /\ b.1 + 16 * b.2 <= y.1 /\ y.1 + 16 * y.2 <= 2 ^ 32 /\ y ∈ F).
Proof.
  intros I. destruct (ho_in _ _ _ I b ltac:(set_solver)) as (B1 & B2 & B3). pose proof (ho_brk _ _ _ I).
  destruct (split_at b F (base, 0) (ho_sorted _ _ _ I)) as (l1 & q & l2 & E & H1 & H2); [cbn; lia|done| |].
  { intros f Hf. split; [|apply (ho_AF _ _ _ I); set_solver]. apply (ho_in _ _ _ I). set_solver. }
  exists l1, q, l2. split_and!; [done| |].
  - intros x Hx. split; [|by apply H1]. apply (list_mapped h F _ x I). rewrite E. set_solver.
  - intros y Hy. pose proof (H2 y Hy). assert (y ∈ F) as HyF.
    { assert (y ∈ (base, 0) :: F) as Hy' by (rewrite E; set_solver). apply elem_of_cons in Hy' as [->|]; [|done]. cbn in *. lia. }
    destruct (ho_in _ _ _ I y ltac:(set_solver)) as (? & ? & ?). split_and!; [done|done|lia|done].
Qed.

(** Removing a block from the allocated ones. *)
Lemma apart_middle A1 b A2 :
  StronglySorted apart (A1 ++ b :: A2) ->
  StronglySorted apart (A1 ++ A2) /\ forall a, a ∈ A1 ++ A2 -> apart a b.
Proof.
  intros Hs. pose proof (StronglySorted_app_1_r _ _ _ Hs) as H2. apply StronglySorted_inv in H2 as [H2 HF].
  rewrite Forall_forall in HF. split.
  - apply StronglySorted_app_2; [|by eapply StronglySorted_app_1_l|done].
    intros x y Hx Hy. eapply StronglySorted_app_1_elem_of; [exact Hs|done|set_solver].
  - intros a [Ha|Ha]%elem_of_app; [eapply StronglySorted_app_1_elem_of; [exact Hs|done|set_solver]|].
    pose proof (HF a Ha). unfold apart in *. lia.
Qed.

(** The blocks of the list after [b] was put back. *)
Lemma put_blocks h F A1 A2 b l1 q l2 F' :
  heap_ok h F (A1 ++ b :: A2) -> (base, 0) :: F = l1 ++ q :: l2 -> put l1 q b l2 = (base, 0) :: F' ->
  (forall x, x ∈ l1 ++ [q] -> 0 <= x.2 /\ x.1 + Z.max 16 (16 * x.2) <= b.1) ->
  (forall y, y ∈ l2 -> 1 <= y.2 /\ b.1 + 16 * b.2 <= y.1) ->
  forall z, z ∈ F' -> inside h z /\ forall a, a ∈ A1 ++ A2 -> apart a z.
Proof.
  intros I EF EF' Hlow Hhigh z Hz. destruct (ho_in _ _ _ I b ltac:(set_solver)) as (B1 & B2 & B3).
  pose proof (ho_sorted _ _ _ I) as Hsort. rewrite EF in Hsort.
  assert (z ∈ put l1 q b l2) as Hzp by (rewrite EF'; set_solver).
  assert (forall f, f ∈ (base, 0) :: F -> 1 <= f.2 -> f ∈ F) as HF by (intros f [->|?]%elem_of_cons ?; [cbn in *; lia|done]).
  assert (z ∈ l1 ++ q :: l2 -> z ∈ F) as Hold.
  { rewrite <- EF. intros [->|]%elem_of_cons; [|done]. pose proof (put_sorted l1 l2 q b Hsort Hlow Hhigh B2) as Ps.
    rewrite EF' in Ps. apply StronglySorted_inv in Ps as [_ Ps]. rewrite Forall_forall in Ps.
    pose proof (Ps _ Hz) as Hbz. unfold before in Hbz. cbn in Hbz. lia. }
  split.
  - destruct (put_in l1 l2 q b Hsort Hlow Hhigh B2 z Hzp) as [Hz'|(Z1 & Z2 & Z3)].
    + apply (ho_in _ _ _ I). specialize (Hold Hz'). set_solver.
    + assert (z.1 + 16 * z.2 <= h_brk h) as Hend.
      { destruct Z3 as [->|(y & Hy & ->)]; [done|]. destruct (Hhigh y Hy). apply (ho_in _ _ _ I).
        pose proof (HF y ltac:(rewrite EF; set_solver) ltac:(lia)). set_solver. }
      split_and!; [|done|done]. destruct Z2 as [->|[-> Eq]]; [done|].
      assert (q ∈ F) as Hq.
      { assert (q ∈ (base, 0) :: F) as Hq' by (rewrite EF; set_solver). apply elem_of_cons in Hq' as [->|]; [|done]. cbn in Eq. lia. }
      apply (ho_in _ _ _ I q). set_solver.
  - intros a Ha. destruct (apart_middle _ _ _ (ho_A _ _ _ I)) as [_ Hab].
    destruct (put_elem l1 l2 q b Hsort Hlow Hhigh B2 z a Hzp) as [Hz'|]; [| |apply (ho_AF _ _ _ I); [set_solver|by apply Hold]|done].
    + apply (ho_in _ _ _ I). set_solver.
    + intros y Hy Hy1. assert (y = b \/ y ∈ F) as [->|HyF]; [|by apply Hab|apply (ho_AF _ _ _ I); [set_solver|done]].
      apply elem_of_cons in Hy as [->|Hy]; [right; apply HF; [rewrite EF; set_solver|done]|].
      apply elem_of_cons in Hy as [->|Hy]; [by left|right; apply HF; [rewrite EF; set_solver|done]].
Qed.

(** free(): a block of [A] goes back to the free list. *)
Lemma free_ok h F A1 A2 b :
  heap_ok h F (A1 ++ b :: A2) ->
  exists h' F', free (b.1 + 16) h = Ok tt h' /\ heap_ok h' F' (A1 ++ A2) /\ keeps (A1 ++ A2) h h' /\
    h_brk h' = h_brk h /\ (exists y, y ∈ F' /\ b.2 <= y.2) /\ (length F' <= S (length F))%nat.
Proof.
  intros I. destruct (free_place h F A1 A2 b I) as (l1 & q & l2 & EF & Hlow & Hhigh).
  pose proof (ho_in _ _ _ I b ltac:(set_solver)) as Hbi. destruct Hbi as (B1 & B2 & B3).
  assert (forall y, y ∈ l2 -> 1 <= y.2 /\ b.1 + 16 * b.2 <= y.1) as Hhigh' by (intros y Hy; destruct (Hhigh y Hy) as (? & ? & _); done).
  pose proof (ho_sorted _ _ _ I) as Hsort. rewrite EF in Hsort.
  pose proof (put_sorted l1 l2 q b Hsort Hlow Hhigh' B2) as Ps. pose proof (put_units l1 l2 q b Hsort Hlow Hhigh' B2) as Pu.
  destruct (free_mem h F _ b.1 b.2 l1 q l2 I EF) as (m' & E & Hc & Hhs & Hm); [done|by apply (ho_size _ _ _ I); set_solver|done| |].
  { intros y Hy. destruct (Hhigh y Hy) as (? & ? & ? & _). done. }
  replace (b.1, b.2) with b in * by (by destruct b).
  assert (exists F', put l1 q b l2 = (base, 0) :: F') as [F' EF'].
  { unfold put, join_l. destruct (join_r_spec l1 l2 q b Hsort Hlow Hhigh' B2) as (J1 & _). destruct l1 as [|x l]; injection EF as <- EF.
    - cbn [fst snd]. rewrite J1. destruct (Z.eqb_spec (base + 16 * 0) b.1); [lia|]. eexists. reflexivity.
    - eexists. reflexivity. }
  pose proof (put_blocks h F A1 A2 b l1 q l2 F' I EF EF' Hlow Hhigh') as Hblk.
  destruct (apart_middle _ _ _ (ho_A _ _ _ I)) as [HA Hab].
  assert (forall a, a ∈ A1 ++ A2 -> inside h a /\ sep a.1 b.1 /\ apart a q /\ sep a.1 q.1) as Hsep.
  { intros a Ha. pose proof (ho_in _ _ _ I a ltac:(set_solver)) as (C1 & C2 & C3). pose proof (Hab a Ha).
    assert (q ∈ (base, 0) :: F) as Hq by (rewrite EF; set_solver). apply elem_of_cons in Hq as [->|Hq].
    - unfold apart, sep, inside in *. cbn in *. lia.
    - pose proof (ho_AF _ _ _ I a q ltac:(set_solver) Hq). pose proof (ho_in _ _ _ I q ltac:(set_solver)) as (? & ? & ?).
      unfold apart, sep, inside in *. lia. }
  eexists _, F'. split; [exact E|]. split; [|split_and!].
  - split; cbn [h_freep h_mem h_brk upd upd_h_mem upd_h_brk upd_h_freep]; rewrite <- ?EF'; auto.
    + by apply put_pred.
    + intros z [Hz|Hz]%elem_of_app; [by apply Hsep|by apply Hblk].
    + intros a Ha. destruct (Hsep a Ha) as (_ & H1 & _ & H2). rewrite Hhs by done. apply (ho_size _ _ _ I). set_solver.
    + intros a f Ha Hf. by apply Hblk.
    + pose proof (ho_total _ _ _ I) as T. rewrite EF', <- EF in Pu. rewrite !units_app in *. cbn [units fst snd] in *. lia.
    + apply (ho_brk _ _ _ I).
  - intros a x Ha Hx. destruct (Hsep a Ha) as ((C1 & C2 & C3) & H1 & Hq & H2). pose proof (Hab a Ha) as Hb. cbn. apply Hm.
    + unfold apart in Hb. lia.
    + destruct (Hlow q ltac:(set_solver)). unfold apart, sep in *. lia.
  - done.
  - destruct (put_big l1 l2 q b Hsort Hlow Hhigh' B2) as (y & Hy & Hy2). exists y. split; [|done].
    rewrite EF' in Hy. apply elem_of_cons in Hy as [->|]; [cbn in *; lia|done].
  - pose proof (put_length l1 l2 q b Hsort Hhigh') as Hlen. rewrite EF', <- EF in Hlen. cbn in Hlen. lia.
Qed.
(** ** malloc(): walking around the list *)

Fixpoint path (m : mem) (prev : Z) (w : list blk) : Prop :=
  match w with
  | [] => True
  | b :: w' => hp m prev = b.1 /\ hs m b.1 = b.2 /\ path m b.1 w'
  end.

Definition last_addr (p : Z) (w : list blk) : Z := match last w with Some b => b.1 | None => p end.

Lemma last_addr_cons p b w : last_addr p (b :: w) = last_addr b.1 w.
Proof. unfold last_addr. rewrite last_cons. by destruct (last w). Qed.

Lemma path_app m w : forall p k, path m p (w ++ k) <-> path m p w /\ path m (last_addr p w) k.
Proof.
  induction w as [|b w IH]; intros p k; cbn [path app]; [tauto|]. rewrite IH, last_addr_cons. tauto.
Qed.

Lemma fchain_path m l : forall a e, fchain m (a :: l) e -> path m a.1 l /\ hp m (last_addr a.1 l) = e.
Proof.
  induction l as [|b l IH]; intros a e; [by intros (H & _ & _)|]. intros (H1 & H2 & H3).
  destruct (IH b e H3) as [H4 H5]. rewrite last_addr_cons. cbn in *. tauto.
Qed.

(** Starting after [f], the list passes every block and ends at [f]. *)
Lemma ring_path m e x f y :
  fchain m (x ++ f :: y) e -> first (x ++ f :: y) 0 = e -> path m f.1 (y ++ x ++ [f]).
Proof.
  rewrite fchain_app. intros [Hx Hf] He. pose proof Hf as (_ & Sf & _). apply fchain_path in Hf as [Hy Hl].
  apply path_app. split; [done|]. destruct x as [|b x]; cbn in He |- *.
  - split_and!; [congruence|done|done].
  - pose proof Hx as (_ & Sb & _). apply fchain_path in Hx as [Hx Hl']. split_and!; [congruence|done|].
    apply path_app. cbn in *. done.
Qed.

Lemma malloc_walk h n k : forall w prev p w',
  path (h_mem h) prev (w ++ p :: w') -> (forall b, b ∈ w -> mapped h b.1 = true /\ b.2 < n /\ b.1 <> h_freep h) ->
  malloc_loop limit (length w + k) n prev (first (w ++ p :: w') 0) h = malloc_loop limit k n (last_addr prev w) p.1 h.
Proof.
  induction w as [|b w IH]; intros prev p w' Hp Hw; [done|]. destruct (Hw b) as (M & Hs & Hf); [set_solver|].
  destruct Hp as (_ & Sb & Hp). cbn [length Nat.add malloc_loop first app].
  rewrite (bind_ok _ _ _ _ _ (get_size_ok h b.1 M)), Sb. destruct (Z.leb_spec n b.2); [lia|].
  rewrite (bind_ok get_freep _ _ _ _ eq_refl). destruct (Z.eqb_spec b.1 (h_freep h)); [done|].
  rewrite (bind_ok _ _ _ _ _ (get_ptr_ok h b.1 M)). rewrite last_addr_cons, <- (IH b.1 p w' Hp) by (intros c Hc; apply Hw; set_solver).
  f_equal. destruct w; apply Hp.
Qed.

(** The predecessor, in the list, of the block found. *)
Lemma pred_split x f y w p w' e :
  y ++ x ++ [f] = w ++ p :: w' -> first (x ++ f :: y) e <> p.1 ->
  exists l1 q l2, x ++ f :: y = l1 ++ q :: p :: l2 /\ q.1 = last_addr f.1 w.
Proof.
  intros E Hne. assert (forall (w0 : list blk) c, last_addr f.1 (w0 ++ [c]) = c.1) as Hlast
    by (intros w0 c; unfold last_addr; by rewrite last_snoc).
  apply app_eq_inv in E as [(k & Ey & Ek)|(k & Ew & Ek)].
  - destruct k as [|c k].
    + cbn in Ek. rewrite app_nil_r in Ey. subst w. destruct x as [|b x]; injection Ek as <- _; [done|]. cbn in Hne. done.
    + injection Ek as <- Ek. destruct (exists_last_or_nil w) as [->|(w0 & c & ->)].
      * exists x, f, k. rewrite Ey. done.
      * exists (x ++ f :: w0), c, k. rewrite Ey, Hlast. split; [|done]. by rewrite <- !app_assoc.
  - destruct (exists_last_or_nil k) as [->|(w0 & c & ->)].
    + destruct x as [|b x]; injection Ek as <- _; done.
    + exists w0, c, (w' ++ y). rewrite Ew, app_assoc, Hlast. split; [|done].
      change (f :: y) with ([f] ++ y). rewrite app_assoc, Ek. by rewrite <- !app_assoc.
Qed.

(** The first block with enough units. *)
Lemma first_fit (n : Z) (l : list blk) :
  (exists y, y ∈ l /\ n <= y.2) -> exists w p w', l = w ++ p :: w' /\ (forall b, b ∈ w -> b.2 < n) /\ n <= p.2.
Proof.
  induction l as [|b l IH]; intros (y & Hy & Hn); [set_solver|]. destruct (decide (n <= b.2)) as [Hb|Hb].
  - exists [], b, l. split_and!; [done|set_solver|done].
  - destruct IH as (w & p & w' & -> & H1 & H2); [exists y; set_solver|]. exists (b :: w), p, w'. split_and!; [done| |done].
    intros c [->|Hc]%elem_of_cons; [lia|by apply H1].
Qed.
(** ** malloc(): taking a block *)

(** The list without [p], or with [p] cut down. *)
Definition cut (n : Z) (p : blk) : list blk := if p.2 =? n then [] else [(p.1, p.2 - n)].
Definition tail_block (n : Z) (p : blk) : blk := (p.1 + 16 * (p.2 - n), n).

Section Take.
Context (h : heap) (F A l1 l2 : list blk) (q p : blk) (n : Z).
Hypothesis I : heap_ok h F A.
Hypothesis EF : (base, 0) :: F = l1 ++ q :: p :: l2.
Hypothesis Hn : 1 <= n <= p.2.

Lemma take_p : p ∈ F.
Proof.
  destruct l1 as [|b l]; injection EF as _ ->; set_solver.
Qed.

Lemma take_list : exists F', l1 ++ q :: cut n p ++ l2 = (base, 0) :: F' /\
  (forall z, z ∈ F' -> z ∈ F \/ z = (p.1, p.2 - n) /\ 1 <= p.2 - n) /\ units F' + n = units F /\ (length F' <= length F)%nat.
Proof.
  assert (exists F0, l1 ++ [q] = (base, 0) :: F0 /\ F = F0 ++ p :: l2) as (F0 & E1 & E2).
  { change (q :: p :: l2) with ([q] ++ p :: l2) in EF. rewrite app_assoc in EF.
    destruct (l1 ++ [q]) as [|b l] eqn:E; [by destruct l1|]. injection EF as <- ->. eauto. }
  exists (F0 ++ cut n p ++ l2). split_and!.
  - change (q :: cut n p ++ l2) with ([q] ++ cut n p ++ l2). by rewrite app_assoc, E1.
  - unfold cut. intros z. rewrite E2, !elem_of_app, elem_of_cons. case_match eqn:Ec; [set_solver|].
    rewrite list_elem_of_singleton. intros [?|[->|?]]; [tauto| |tauto]. right. split; [done|]. apply Z.eqb_neq in Ec. lia.
  - rewrite E2, !units_app. cbn [units]. unfold cut. case_match eqn:Ec; cbn [units fst snd]; [apply Z.eqb_eq in Ec|]; lia.
  - rewrite E2, !length_app. unfold cut. case_match; cbn; lia.
Qed.

Lemma take_sorted : StronglySorted before (l1 ++ q :: cut n p ++ l2).
Proof.
  pose proof (ho_sorted _ _ _ I) as Hs. rewrite EF in Hs.
  assert (forall z, before z p -> before z (p.1, p.2 - n)) as H1 by (intros z; unfold before; cbn; lia).
  assert (1 <= p.2 - n -> forall z, before p z -> before (p.1, p.2 - n) z) as H2 by (intros Hp z; unfold before; cbn; lia).
  rewrite !StronglySorted_app in *. destruct Hs as (Ha & Hl1 & Hs). apply StronglySorted_inv in Hs as [Hs Hq].
  apply StronglySorted_inv in Hs as [Hl2 Hp]. rewrite Forall_forall in Hq, Hp. unfold cut.
  destruct (Z.eqb_spec p.2 n) as [E|E]; cbn; split_and!.
  - intros x y Hx Hy. apply Ha; [done|set_solver].
  - done.
  - constructor; [done|]. apply Forall_forall. intros y Hy. apply Hq. set_solver.
  - intros x y Hx [->|[->|Hy]%elem_of_cons]%elem_of_cons; [apply Ha; set_solver|apply H1, Ha; set_solver|apply Ha; set_solver].
  - done.
  - constructor; [constructor; [done|]|]; apply Forall_forall.
    + intros y Hy. apply H2; [lia|by apply Hp].
    + intros y [->|Hy]%elem_of_cons; [apply H1, Hq; set_solver|apply Hq; set_solver].
Qed.

(** The block cut off is apart from everything else. *)
Lemma take_apart z : (z ∈ F /\ z <> p) \/ z = (p.1, p.2 - n) \/ z ∈ A -> apart (tail_block n p) z.
Proof.
  assert (forall z, apart z p -> apart (tail_block n p) z) as H by (intros y; unfold apart, tail_block; cbn; lia).
  intros [[Hz Hne]|[->|Hz]].
  - apply H. pose proof (ho_sorted _ _ _ I) as Hs. rewrite EF in Hs. change (q :: p :: l2) with ([q] ++ p :: l2) in Hs.
    rewrite app_assoc in Hs. assert (z ∈ (l1 ++ [q]) ++ p :: l2) as Hz' by (rewrite <- app_assoc; cbn; rewrite <- EF; set_solver).
    apply elem_of_app in Hz' as [Hz'|Hz'].
    + pose proof (StronglySorted_app_1_elem_of _ _ _ z p Hs Hz' ltac:(set_solver)). unfold before, apart in *. lia.
    + apply StronglySorted_app_1_r, StronglySorted_inv in Hs as [_ HF]. rewrite Forall_forall in HF.
      apply elem_of_cons in Hz' as [->|Hz']; [done|]. pose proof (HF z Hz'). unfold before, apart in *. lia.
  - unfold apart, tail_block. cbn. lia.
  - apply H. apply (ho_AF _ _ _ I); [done|apply take_p].
Qed.

Lemma take_bounds : mapped h q.1 = true /\ mapped h p.1 = true /\ lo <= p.1 /\ p.1 + 16 * p.2 <= 2 ^ 32 /\
  p.1 + 16 * p.2 <= h_brk h /\ q.1 + 16 <= p.1 /\ 0 <= q.1.
Proof.
  pose proof (ho_brk _ _ _ I). destruct (ho_in _ _ _ I p) as (P1 & P2 & P3); [apply elem_of_app; right; apply take_p|].
  destruct (list_mapped h F A q I) as (Mq & _ & Q1); [rewrite EF; set_solver|].
  destruct (list_mapped h F A p I) as (Mp & _ & _); [rewrite EF; set_solver|].
  pose proof (ho_sorted _ _ _ I) as Hs. rewrite EF in Hs. apply StronglySorted_app_1_r, StronglySorted_inv in Hs as [_ HF].
  rewrite Forall_forall in HF. pose proof (HF p ltac:(set_solver)) as Hqp. unfold before in Hqp. split_and!; [done|done|lia..].
Qed.

(** Bytes that are in no header written. *)
Definition untouched (m m' : mem) : Prop :=
  forall x, x < q.1 \/ q.1 + 16 <= x -> x < p.1 \/ p.1 + 16 <= x ->
    x < (tail_block n p).1 \/ (tail_block n p).1 + 16 <= x -> m' x = m x.

Lemma take_facts :
  fchain (h_mem h) l1 q.1 /\ hp (h_mem h) q.1 = p.1 /\ hs (h_mem h) q.1 = q.2 /\ hp (h_mem h) p.1 = first l2 base /\
  hs (h_mem h) p.1 = p.2 /\ fchain (h_mem h) l2 base /\ (forall x, x ∈ l1 -> before x q) /\ (forall y, y ∈ l2 -> before p y) /\
  0 <= first l2 base < 2 ^ 64.
Proof.
  destruct take_bounds as (_ & _ & P1 & P2 & _).
  pose proof (ho_chain _ _ _ I) as Hc. rewrite EF, fchain_app in Hc. destruct Hc as (C1 & Pq & Sq & Pp & Sp & C2).
  pose proof (ho_sorted _ _ _ I) as Hs. rewrite EF in Hs. split_and!; try done.
  - intros x Hx. eapply StronglySorted_app_1_elem_of; [exact Hs|done|set_solver].
  - apply StronglySorted_app_1_r, StronglySorted_inv in Hs as [Hs _]. apply StronglySorted_inv in Hs as [_ HF]. by apply Forall_forall.
  - destruct l2 as [|y l]; cbn; [lia|]. assert (y ∈ (base, 0) :: F) as Hy by (rewrite EF; set_solver).
    apply elem_of_cons in Hy as [->|Hy]; [cbn; lia|]. destruct (ho_in _ _ _ I y) as (? & ? & ?); [set_solver|]. lia.
  - destruct l2 as [|y l]; cbn; [lia|]. assert (y ∈ (base, 0) :: F) as Hy by (rewrite EF; set_solver).
    apply elem_of_cons in Hy as [->|Hy]; [cbn; lia|].
    destruct (ho_in _ _ _ I y) as (? & ? & ?); [set_solver|]. pose proof (ho_brk _ _ _ I). lia.
Qed.

(** The block found is no longer on the list. *)
Lemma take_gone F' : l1 ++ q :: cut n p ++ l2 = (base, 0) :: F' -> p ∉ F'.
Proof.
  intros E Hp. destruct take_facts as (_ & _ & _ & _ & _ & _ & H1 & H2 & _). destruct take_bounds as (_ & _ & P1 & _ & _ & Hqp & _).
  assert (p ∈ l1 ++ q :: cut n p ++ l2) as Hin by (rewrite E; set_solver). unfold cut in Hin.
  rewrite !elem_of_app, elem_of_cons, elem_of_app in Hin. destruct Hin as [Hin|[->|[Hin|Hin]]].
  - pose proof (H1 _ Hin). unfold before in *. lia.
  - lia.
  - case_match; [set_solver|]. apply list_elem_of_singleton in Hin. apply (f_equal snd) in Hin. cbn in Hin. lia.
  - pose proof (H2 _ Hin). unfold before in *. lia.
Qed.

(** What taking a block does: the whole block, or its end. *)
Definition taken (k : nat) : Prop :=
  exists m', malloc_loop limit (S k) n q.1 p.1 h = Ok ((tail_block n p).1 + 16) (h <| h_mem := m' |> <| h_freep := q.1 |>) /\
    fchain m' (l1 ++ q :: cut n p ++ l2) base /\ hs m' (tail_block n p).1 = n /\ untouched (h_mem h) m'.

Lemma take_exact k : p.2 = n -> taken k.
Proof.
  intros E. destruct take_bounds as (Mq & Mp & P1 & P2 & P3 & Hqp & Q1).
  destruct take_facts as (C1 & Pq & Sq & Pp & Sp & C2 & H1 & H2 & Hf). unfold taken.
  cbn [malloc_loop]. rewrite (bind_ok _ _ _ _ _ (get_size_ok h p.1 Mp)), Sp. destruct (Z.leb_spec n p.2); [|lia].
  unfold tail_block, cut, untouched. cbn [fst snd]. destruct (Z.eqb_spec p.2 n); [|done].
  exists (store 8 (h_mem h) q.1 (first l2 base)). split_and!.
  - rewrite bind_assoc, (bind_ok _ _ _ _ _ (get_ptr_ok h p.1 Mp)), Pp, bind_assoc, (bind_ok _ _ _ _ _ (set_ptr_ok h q.1 _ Mq)).
    unfold bind, ret, set_freep. rewrite hdr_add_small by lia. do 2 f_equal. lia.
  - cbn [app]. apply fchain_app. split.
    + eapply fchain_ext; [|exact C1]. intros x Hx. apply only_ptr. apply sorted_sep. auto.
    + cbn [fchain first]. split_and!; [by apply hp_ptr_eq|rewrite hs_ptr; [done|by left]|].
      eapply fchain_ext; [|exact C2]. intros y Hy. apply only_ptr. pose proof (H2 y Hy). unfold before, sep in *. lia.
  - rewrite hs_ptr; [rewrite <- E, Z.sub_diag, Z.mul_0_r, Z.add_0_r; done|]. right. unfold sep. lia.
  - intros x Hx _ _. apply store_out. lia.
Qed.

Lemma take_cut k : p.2 <> n -> taken k.
Proof.
  intros E. destruct take_bounds as (Mq & Mp & P1 & P2 & P3 & Hqp & Q1).
  destruct take_facts as (C1 & Pq & Sq & Pp & Sp & C2 & H1 & H2 & Hf). unfold taken.
  cbn [malloc_loop]. rewrite (bind_ok _ _ _ _ _ (get_size_ok h p.1 Mp)), Sp. destruct (Z.leb_spec n p.2); [|lia].
  unfold tail_block, cut, untouched. cbn [fst snd]. destruct (Z.eqb_spec p.2 n); [done|].
  set (t := p.1 + 16 * (p.2 - n)). set (m1 := store 4 (h_mem h) (p.1 + 8) (p.2 - n)).
  assert (forall c, sep c p.1 -> sep c t ->
    hp (store 4 m1 (t + 8) n) c = hp (h_mem h) c /\ hs (store 4 m1 (t + 8) n) c = hs (h_mem h) c) as Hext.
  { intros c S1 S2. unfold m1. rewrite !hp_size by (by right). by rewrite !hs_size_ne. }
  exists (store 4 m1 (t + 8) n). split_and!.
  - rewrite u32_small by lia. rewrite bind_assoc, (bind_ok _ _ _ _ _ (set_size_ok h p.1 _ Mp)).
    set (h1 := h <| h_mem := _ |>). rewrite bind_assoc, (bind_ok _ _ _ _ _ (get_size_ok h1 p.1 Mp)).
    change (h_mem h1) with m1. assert (hdr_add p.1 (hs m1 p.1) = t) as Et.
    { unfold m1. rewrite hs_size_eq by lia. apply hdr_add_small. lia. }
    cbv zeta. rewrite Et, bind_assoc.
    rewrite (bind_ok _ _ _ _ _ (set_size_ok h1 t n ltac:(apply mapped_true; unfold t; cbn; lia))).
    unfold bind, ret, set_freep. rewrite (hdr_add_small t 1) by (unfold t; lia). done.
  - apply fchain_app. split; [|cbn [fchain first app fst snd]; split_and!].
    + eapply fchain_ext; [|exact C1]. intros x Hx. pose proof (H1 x Hx). apply Hext; unfold before, sep, t in *; lia.
    + rewrite <- Pq. apply Hext; unfold sep, t; lia.
    + rewrite <- Sq. apply Hext; unfold sep, t; lia.
    + unfold m1. rewrite hp_size by (right; unfold sep, t; lia). rewrite hp_size by (by left). done.
    + rewrite hs_size_ne by (unfold sep, t; lia). apply hs_size_eq. lia.
    + eapply fchain_ext; [|exact C2]. intros y Hy. pose proof (H2 y Hy). apply Hext; unfold before, sep, t in *; lia.
  - apply hs_size_eq. lia.
  - intros x _ X1 X2. unfold tail_block in X2. cbn in X2. unfold m1. rewrite !store_out by (unfold t; lia). done.
Qed.

(** malloc() takes the block [p] it has found. *)
Lemma take_ok k :
  exists h' F' b, malloc_loop limit (S k) n q.1 p.1 h = Ok (b.1 + 16) h' /\ b.2 = n /\ heap_ok h' F' (b :: A) /\
    keeps A h h' /\ h_brk h' = h_brk h.
Proof.
  assert (taken k) as (m' & E & Hc & Hs & Hu) by (destruct (decide (p.2 = n)); [by apply take_exact|by apply take_cut]).
  destruct take_list as (F' & EF' & HF' & Hun & _). pose proof take_sorted as Hsort. rewrite EF' in Hsort, Hc.
  destruct take_bounds as (_ & _ & P1 & P2 & P3 & Hqp & Q1).
  assert (forall a, a ∈ A -> apart a p /\ sep a.1 q.1 /\ 1 <= a.2 /\ apart a q) as HA.
  { intros a Ha. destruct (ho_in _ _ _ I a ltac:(set_solver)) as (A1 & A2 & A3).
    pose proof (ho_AF _ _ _ I a p Ha take_p). split; [done|]. assert (q ∈ (base, 0) :: F) as Hq by (rewrite EF; set_solver).
    apply elem_of_cons in Hq as [->|Hq]; [unfold sep, apart; cbn; lia|].
    pose proof (ho_AF _ _ _ I a q Ha Hq). destruct (ho_in _ _ _ I q ltac:(set_solver)) as (? & ? & ?).
    unfold apart, sep in *. lia. }
  assert (forall a x, a ∈ A -> a.1 <= x < a.1 + 16 * a.2 -> m' x = h_mem h x) as Hk.
  { intros a x Ha Hx. destruct (HA a Ha) as (Hp & Hq & H1 & Haq). unfold untouched, tail_block, apart, sep in *. cbn in Hu.
    destruct (list_mapped h F A q I) as (_ & Q2 & _); [rewrite EF; set_solver|]. apply Hu; lia. }
  eexists _, F', (tail_block n p). split; [exact E|]. split; [done|]. split; [|by split].
  split; cbn [h_freep h_mem h_brk upd upd_h_mem upd_h_brk upd_h_freep]; auto.
  - exists q.2. rewrite <- EF'. destruct q. set_solver.
  - intros z Hz. unfold inside. cbn [h_brk upd upd_h_mem upd_h_brk upd_h_freep].
    apply elem_of_app in Hz as [[->|Hz]%elem_of_cons|Hz]; [unfold tail_block; cbn; lia|apply (ho_in _ _ _ I); set_solver|].
    destruct (HF' z Hz) as [Hz'|[-> Hz']]; [apply (ho_in _ _ _ I); set_solver|cbn; lia].
  - intros a [->|Ha]%elem_of_cons; [done|]. rewrite <- (ho_size _ _ _ I a Ha). unfold hs. apply load_ext.
    intros x Hx. destruct (HA a Ha) as (_ & _ & ? & _). apply (Hk a); [done|lia].
  - constructor; [apply (ho_A _ _ _ I)|]. apply Forall_forall. intros a Ha. apply take_apart. auto.
  - intros a f [->|Ha]%elem_of_cons Hf.
    + apply take_apart. destruct (HF' f Hf) as [Hf'|[-> _]]; [|auto]. left. split; [done|]. intros ->.
      apply (take_gone F' EF'). done.
    + destruct (HF' f Hf) as [Hf'|[-> Hp]]; [by apply (ho_AF _ _ _ I)|]. destruct (HA a Ha) as (Hap & _ & ? & _).
      unfold apart in *. cbn. lia.
  - pose proof (ho_total _ _ _ I) as T. rewrite units_app in *. cbn [units fst snd tail_block]. lia.
  - apply (ho_brk _ _ _ I).
Qed.
End Take.
(** ** malloc(): searching the list *)

Lemma freep_split h F A :
  heap_ok h F A ->
  exists x f y, (base, 0) :: F = x ++ f :: y /\ f.1 = h_freep h /\ path (h_mem h) f.1 (y ++ x ++ [f]) /\
    (forall b, b ∈ y ++ x -> b.1 <> h_freep h) /\ f.1 <> 0.
Proof.
  intros I. destruct (ho_freep _ _ _ I) as [n Hf]. pose proof (ho_chain _ _ _ I) as Hc. pose proof (ho_sorted _ _ _ I) as Hs.
  assert (h_freep h <> 0) as H0.
  { apply elem_of_cons in Hf as [[= -> _]|Hf]; [lia|]. destruct (ho_in _ _ _ I (h_freep h, n)) as (? & _); [set_solver|]. cbn in *. lia. }
  assert (first ((base, 0) :: F) 0 = base) as Hb by done.
  apply list_elem_of_split in Hf as (x & y & E). exists x, (h_freep h, n), y. rewrite E in *.
  split_and!; [done|done|by eapply ring_path| |done].
  intros b. apply StronglySorted_app in Hs as (H1 & _ & Hs). apply StronglySorted_inv in Hs as [_ HF]. rewrite Forall_forall in HF.
  intros [Hb'|Hb']%elem_of_app.
  - pose proof (HF b Hb') as H2. unfold before in H2. cbn in H2. lia.
  - pose proof (H1 b (h_freep h, n) Hb' ltac:(set_solver)) as H2. unfold before in H2. cbn in H2. lia.
Qed.

Lemma path_head m p w b : path m p (w ++ [b]) -> first (w ++ [b]) 0 = hp m p.
Proof. destruct w; by intros (-> & _). Qed.

(** There is a block that is large enough. *)
Lemma malloc_fit h F A n k :
  heap_ok h F A -> 1 <= n -> (exists y, y ∈ F /\ n <= y.2) -> (S (length F) <= k)%nat ->
  exists h' F' b, malloc_loop limit k n (h_freep h) (hp (h_mem h) (h_freep h)) h = Ok (b.1 + 16) h' /\ b.2 = n /\
    heap_ok h' F' (b :: A) /\ keeps A h h' /\ h_brk h' = h_brk h.
Proof.
  intros I Hn (y0 & Hy0 & Hy0n) Hk. destruct (freep_split h F A I) as (x & f & y & E & Ef & Hp & Hne & _).
  destruct (first_fit n (y ++ x ++ [f])) as (w & p & w' & Ew & Hsm & Hpn).
  { exists y0. split; [|done]. assert (y0 ∈ x ++ f :: y) as H by (rewrite <- E; set_solver). set_solver. }
  assert (forall b, b ∈ y ++ x ++ [f] -> b ∈ (base, 0) :: F) as Hin by (rewrite E; set_solver).
  assert (p ∈ F) as HpF.
  { assert (p ∈ (base, 0) :: F) as H by (apply Hin; rewrite Ew; set_solver). apply elem_of_cons in H as [->|]; [cbn in *; lia|done]. }
  destruct (ho_in _ _ _ I p) as (P1 & _ & _); [set_solver|].
  destruct (pred_split x f y w p w' 0 Ew) as (l1 & q & l2 & El & Eq); [rewrite <- E; cbn; lia|].
  assert (length w < length (y ++ x ++ [f]))%nat as Hlw by (rewrite Ew, length_app; cbn; lia).
  assert (forall b, b ∈ w -> mapped h b.1 = true /\ b.2 < n /\ b.1 <> h_freep h) as Hw.
  { intros b Hb. split_and!; [apply (list_mapped h F A b I), Hin; rewrite Ew; set_solver|by apply Hsm|].
    apply Hne. assert (w = take (length w) (y ++ x)) as Et; [|rewrite Et in Hb; apply elem_of_take in Hb as (i & Hi & _);
      by eapply list_elem_of_lookup_2]. rewrite app_assoc in Ew, Hlw. rewrite length_app in Hlw. cbn in Hlw.
    apply (f_equal (take (length w))) in Ew. rewrite take_app_length, take_app_le in Ew by lia. done. }
  assert (length (y ++ x ++ [f]) = S (length F)) as Hlen.
  { apply (f_equal length) in E. rewrite !length_app in *. cbn in *. lia. }
  rewrite <- Ef. rewrite <- (path_head _ _ (y ++ x) f) by (by rewrite <- app_assoc). rewrite <- app_assoc.
  replace k with (length w + S (k - length w - 1))%nat by lia. rewrite Ew in Hp |- *. rewrite malloc_walk by done. rewrite <- Eq.
  rewrite El in E. exact (take_ok h F A l1 l2 q p n I E ltac:(lia) _).
Qed.

(** No block is large enough: the list is gone through once. *)
Lemma malloc_nofit h F A n k :
  heap_ok h F A -> 1 <= n -> (forall y, y ∈ F -> y.2 < n) ->
  malloc_loop limit (S (length F) + k) n (h_freep h) (hp (h_mem h) (h_freep h)) h =
  (let* p := morecore limit n in
   if p =? 0 then ret 0 else let* next := get_ptr p in malloc_loop limit k n p next) h.
Proof.
  intros I Hn Hsm. destruct (freep_split h F A I) as (x & f & y & E & Ef & Hp & Hne & _).
  assert (forall b, b ∈ y ++ x ++ [f] -> mapped h b.1 = true /\ b.2 < n) as Hin.
  { intros b Hb. assert (b ∈ (base, 0) :: F) as H by (rewrite E; set_solver). split; [by apply (list_mapped h F A b I)|].
    apply elem_of_cons in H as [->|H]; [cbn; lia|by apply Hsm]. }
  assert (length (y ++ x) = length F) as Hlen.
  { apply (f_equal length) in E. rewrite !length_app in *. cbn in *. lia. }
  rewrite <- Ef. rewrite <- (path_head _ _ (y ++ x) f) by (by rewrite <- app_assoc).
  replace (S (length F) + k)%nat with (length (y ++ x) + S k)%nat by lia.
  rewrite app_assoc in Hp. rewrite malloc_walk; [|done|intros b Hb; destruct (Hin b ltac:(set_solver)); split_and!; auto].
  destruct (Hin f ltac:(set_solver)) as [Mf Sf]. apply path_app in Hp as [_ (_ & Sz & _)].
  cbn [malloc_loop]. rewrite (bind_ok _ _ _ _ _ (get_size_ok h f.1 Mf)), Sz. destruct (Z.leb_spec n f.2); [lia|].
  rewrite (bind_ok get_freep _ _ _ _ eq_refl). rewrite Ef, Z.eqb_refl. done.
Qed.
(** ** morecore() *)

(** Memory from sbrk() is one more allocated block, until it is freed. *)
Lemma grown_ok h F A n :
  heap_ok h F A -> 1 <= n -> h_brk h + 16 * n <= limit ->
  heap_ok (h <| h_mem := store 4 (h_mem h) (h_brk h + 8) n |> <| h_brk := h_brk h + 16 * n |>) F ((h_brk h, n) :: A).
Proof.
  intros I Hn Hl. assert (forall b, b ∈ A ++ F -> inside h b) as Hin by apply (ho_in _ _ _ I).
  assert (lo <= h_brk h) as Hlb.
  { pose proof (ho_total _ _ _ I). pose proof (units_nonneg (A ++ F) ltac:(intros c Hc; apply (ho_in _ _ _ I c Hc))). lia. }
  assert (forall b, b ∈ (base, 0) :: F \/ b ∈ A -> sep b.1 (h_brk h)) as Hsep.
  { intros b [[->|Hb]%elem_of_cons|Hb]; [unfold sep; cbn; lia|..]; destruct (Hin b ltac:(set_solver)) as (? & ? & ?); unfold sep; lia. }
  destruct I as [I1 I2 I3 I4 I5 I6 I7 I8 I9].
  split; cbn [h_freep h_mem h_brk upd upd_h_mem upd_h_brk upd_h_freep]; auto.
  - eapply fchain_ext; [|exact I2]. intros b Hb. apply only_size. auto.
  - intros b Hb. unfold inside. cbn [h_brk upd upd_h_mem upd_h_brk upd_h_freep].
    apply elem_of_app in Hb as [[->|Hb]%elem_of_cons|Hb]; [cbn; lia|..]; destruct (Hin b ltac:(set_solver)) as (? & ? & ?); lia.
  - intros b [->|Hb]%elem_of_cons; [cbn; apply hs_size_eq; lia|]. rewrite hs_size_ne by (apply Hsep; by right). auto.
  - constructor; [done|]. apply Forall_forall. intros a Ha. destruct (Hin a ltac:(set_solver)) as (? & ? & ?). unfold apart. cbn. lia.
  - intros a f [->|Ha]%elem_of_cons Hf; [|by apply I7]. destruct (Hin f ltac:(set_solver)) as (? & ? & ?). unfold apart. cbn. lia.
  - rewrite units_app in *. cbn [units fst snd app]. lia.
Qed.

Lemma heap_freep h F A : heap_ok h F A -> h_freep h <> 0.
Proof. intros I. destruct (freep_split h F A I) as (x & f & y & _ & <- & _ & _ & H). done. Qed.

Lemma sbrk_pos h n :
  0 < n -> sbrk limit n h = Ok (if h_brk h + n <=? limit then h_brk h else u64 (-1))
    (if h_brk h + n <=? limit then h <| h_brk := h_brk h + n |> else h).
Proof. intros. unfold sbrk. destruct (Z.ltb_spec 0 n); [|lia]. by case_match. Qed.

Lemma morecore_ok h F A n :
  heap_ok h F A -> 1 <= n -> 16 * n < 2 ^ 31 ->
  (limit < h_brk h + 16 * Z.max 4096 n /\ morecore limit n h = Ok 0 h) \/
  exists h' F', morecore limit n h = Ok (h_freep h') h' /\ heap_ok h' F' A /\ keeps A h h' /\
    (exists y, y ∈ F' /\ n <= y.2) /\ (length F' <= S (length F))%nat /\ h_brk h' = h_brk h + 16 * Z.max 4096 n.
Proof.
  intros I Hn Hn2. unfold morecore, sizeof_Header.
  replace (if n <? 4096 then 4096 else n) with (Z.max 4096 n) by (destruct (Z.ltb_spec n 4096); lia).
  set (nu := Z.max 4096 n). assert (1 <= nu /\ 16 * nu < 2 ^ 31) as [Hu1 Hu2] by lia.
  assert (i32 (u64 (nu * 16)) = 16 * nu) as Ei by (rewrite u64_small by lia; rewrite i32_small by lia; lia). rewrite Ei.
  assert (lo <= h_brk h) as Hlb.
  { pose proof (ho_total _ _ _ I). pose proof (units_nonneg (A ++ F) ltac:(intros c Hc; apply (ho_in _ _ _ I c Hc))). lia. }
  pose proof (ho_brk _ _ _ I). rewrite (bind_ok _ _ _ _ _ (sbrk_pos h (16 * nu) ltac:(lia))).
  destruct (Z.leb_spec (h_brk h + 16 * nu) limit) as [Hle|Hgt].
  - right. assert (h_brk h =? u64 (-1) = false) as E1.
    { change (u64 (-1)) with (2 ^ 64 - 1). apply Z.eqb_neq. lia. }
    rewrite E1. set (h1 := h <| h_brk := h_brk h + 16 * nu |>).
    rewrite (bind_ok _ _ _ _ _ (set_size_ok h1 (h_brk h) nu ltac:(apply mapped_true; cbn; lia))).
    pose proof (grown_ok h F A nu I Hu1 Hle) as I1.
    destruct (free_ok _ F [] A (h_brk h, nu) I1) as (h' & F' & Ef & I' & Hk & Hb & (y & Hy & Hyn) & Hlen). cbn [fst snd app] in *.
    exists h', F'. split_and!; [|done| |exists y; split; [done|lia]|done|exact Hb].
    + rewrite u64_small by lia. eapply (bind_ok (free _)) in Ef. rewrite Ef. done.
    + intros b x Hbx Hx. rewrite (Hk b x Hbx Hx). cbn. destruct (ho_in _ _ _ I b ltac:(set_solver)) as (? & ? & ?).
      apply store_out. lia.
  - left. split; [lia|]. change (u64 (-1) =? u64 (-1)) with true. done.
Qed.
(** ** malloc() *)

(** Before the first call nothing has been set up. *)
Definition heap_inv (h : heap) (F A : list blk) : Prop :=
  (h_freep h = 0 /\ h_brk h = lo /\ lo <= limit /\ F = [] /\ A = []) \/ heap_ok h F A.

Lemma nunits_spec nbytes :
  0 <= nbytes < 2 ^ 31 - 32 ->
  1 <= nunits_of nbytes /\ 16 * nunits_of nbytes < 2 ^ 31 /\ nbytes <= 16 * (nunits_of nbytes - 1) < nbytes + 16.
Proof.
  intros H. unfold nunits_of, sizeof_Header. rewrite u64_small by lia.
  pose proof (Z.div_mod (nbytes + 16 - 1) 16 ltac:(lia)). pose proof (Z.mod_pos_bound (nbytes + 16 - 1) 16 ltac:(lia)).
  rewrite u32_small by lia. lia.
Qed.

(** The first call makes a list of [base] alone. *)
Lemma malloc_init h F A :
  heap_inv h F A ->
  exists h', (let* freep := get_freep in when freep =? 0 do (set_freep base ;; set_ptr base base ;; set_size base 0)) h = Ok tt h' /\
    heap_ok h' F A /\ keeps A h h' /\ h_brk h' = h_brk h.
Proof.
  intros [(H0 & Hb & Hl & -> & ->)|I].
  - set (h1 := h <| h_freep := base |>). set (h2 := h1 <| h_mem := store 8 (h_mem h) base base |>).
    assert (mapped h1 base = true) as M by (apply mapped_true; cbn; lia).
    assert (hp (store 4 (h_mem h2) (base + 8) 0) base = base) as E1 by (rewrite hp_size by (by left); apply hp_ptr_eq; lia).
    exists (h2 <| h_mem := store 4 (h_mem h2) (base + 8) 0 |>). split_and!; [| |by intros b x Hb'%elem_of_nil|done].
    + rewrite (bind_ok get_freep _ _ _ _ eq_refl), H0. cbn [Z.eqb]. rewrite (bind_ok (set_freep base) _ _ _ h1 eq_refl).
      rewrite (bind_ok _ _ _ _ _ (set_ptr_ok h1 base base M)). apply set_size_ok. done.
    + split; cbn -[store]; try set_solver.
      * split_and!; [exact E1|by apply hs_size_eq|done].
      * repeat constructor.
      * repeat constructor.
      * lia.
  - exists h. split_and!; [|done|done|done]. rewrite (bind_ok get_freep _ _ _ _ eq_refl).
    destruct (Z.eqb_spec (h_freep h) 0); [|done]. by destruct (heap_freep h F A I).
Qed.

Lemma malloc_ok h F A nbytes :
  heap_inv h F A -> 0 <= nbytes < 2 ^ 31 - 32 ->
  exists r h' F', malloc base limit nbytes h = Ok r h' /\ keeps A h h' /\
    ((r = 0 /\ heap_inv h' F' A /\ F' = F /\ h_brk h' = h_brk h /\ (forall y, y ∈ F -> y.2 < nunits_of nbytes) /\
      limit < h_brk h + 16 * Z.max 4096 (nunits_of nbytes)) \/
     (exists b, r = b.1 + 16 /\ r <> 0 /\ b.2 = nunits_of nbytes /\ heap_inv h' F' (b :: A))).
Proof.
  intros Hi Hnb. destruct (nunits_spec nbytes Hnb) as (N1 & N2 & _). set (n := nunits_of nbytes) in *.
  destruct (malloc_init h F A Hi) as (h1 & E1 & I1 & K1 & B1). pose proof (enough_fuel h1 F A I1) as Hfu.
  assert (malloc base limit nbytes h =
    malloc_loop limit (2 * list_fuel h1 + 2) n (h_freep h1) (hp (h_mem h1) (h_freep h1)) h1) as Em.
  { unfold malloc. fold n. destruct (ho_freep _ _ _ I1) as [m Hm]. destruct (list_mapped h1 F A _ I1 Hm) as (M & _ & _).
    apply bind_inv in E1 as (fp & h0 & [= <- <-] & E1). rewrite (bind_ok get_freep _ _ _ _ eq_refl).
    run E1. rewrite (bind_ok get_freep _ _ _ _ eq_refl).
    rewrite (bind_ok _ _ _ _ _ (get_ptr_ok h1 _ M)). done. }
  rewrite Em. destruct (decide (Exists (fun y : blk => n <= y.2) F)) as [Hfit%Exists_exists|Hno].
  - destruct (malloc_fit h1 F A n (2 * list_fuel h1 + 2) I1 N1 Hfit ltac:(lia)) as (h' & F' & b & E & Eb & I' & K & _).
    exists (b.1 + 16), h', F'. split_and!; [done|intros c x Hc Hx; by rewrite (K c x Hc Hx), (K1 c x Hc Hx)|]. right. exists b.
    destruct (ho_in _ _ _ I' b ltac:(set_solver)) as (? & _). split_and!; [done|lia|done|by right].
  - assert (forall y, y ∈ F -> y.2 < n) as Hsm by (intros y Hy; destruct (decide (n <= y.2)); [destruct Hno; apply Exists_exists; eauto|lia]).
    replace (2 * list_fuel h1 + 2)%nat with (S (length F) + (2 * list_fuel h1 + 1 - length F))%nat by lia.
    rewrite (malloc_nofit h1 F A n _ I1 N1 Hsm).
    destruct (morecore_ok h1 F A n I1 N1 N2) as [[Hlim E]|(h2 & F2 & E & I2 & K2 & Hfit & Hlen & _)].
    + run E. exists 0, h1, F. split_and!; [done|done|]. left. rewrite <- B1. split_and!; try done. by right.
    + run E. pose proof (heap_freep h2 F2 A I2) as H2. destruct (Z.eqb_spec (h_freep h2) 0); [done|].
      destruct (ho_freep _ _ _ I2) as [m Hm]. destruct (list_mapped h2 F2 A _ I2 Hm) as (M & _ & _).
      rewrite (bind_ok _ _ _ _ _ (get_ptr_ok h2 _ M)).
      destruct (malloc_fit h2 F2 A n (2 * list_fuel h1 + 1 - length F) I2 N1 Hfit ltac:(lia)) as (h' & F' & b & E' & Eb & I' & K & _).
      exists (b.1 + 16), h', F'. split_and!; [done| |].
      * intros c x Hc Hx. by rewrite (K c x Hc Hx), (K2 c x Hc Hx), (K1 c x Hc Hx).
      * right. exists b. destruct (ho_in _ _ _ I' b ltac:(set_solver)) as (? & _). split_and!; [done|lia|done|by right].
Qed.
(** ** Properties *)

(** C31: malloc() of fewer than 2^31 - 32 bytes, on a well-formed heap whose break
    the kernel lets grow up to a limit of at most 2^32 and whose static list head
    is below it, returns: either a block that has room for the bytes asked for, disjoint from every other block, or 0, which it returns
    only if no free block is large enough and the break would pass that limit.
    In both cases the heap stays well formed, and no byte of an allocated block
    changes.  A larger request is beyond it: the size overflows the int argument
    of sbrk(). *)
Theorem malloc_spec h F A nbytes :
  heap_inv h F A -> 0 <= nbytes < 2 ^ 31 - 32 ->
  exists r h' F', malloc base limit nbytes h = Ok r h' /\ keeps A h h' /\
    ((r = 0 /\ heap_inv h' F A /\ (forall y, y ∈ F -> 16 * (y.2 - 1) < nbytes) /\
      limit < h_brk h + Z.max (16 * 4096) (nbytes + 32)) \/
     (exists b, r = b.1 + 16 /\ r <> 0 /\ nbytes <= 16 * (b.2 - 1) /\ heap_inv h' F' (b :: A))).
Proof.
  intros Hi Hn. destruct (nunits_spec nbytes Hn) as (N1 & N2 & N3).
  destruct (malloc_ok h F A nbytes Hi Hn) as (r & h' & F' & E & K & [(-> & I' & -> & Hb & Hsm & Hl)|(b & -> & H0 & Eb & I')]).
  - exists 0, h', F. split_and!; [done|done|]. left. split_and!; [done|done| |lia]. intros y Hy. pose proof (Hsm y Hy). lia.
  - exists (b.1 + 16), h', F'. split_and!; [done|done|]. right. exists b. split_and!; [done|done|lia|done].
Qed.

(** Free() of an allocated block returns, the block is free again, joined
    with the free blocks next to it, the heap stays well formed and no byte of
    another allocated block changes. *)
Theorem free_spec h F A1 A2 b :
  heap_inv h F (A1 ++ b :: A2) ->
  exists h' F', free (b.1 + 16) h = Ok tt h' /\ heap_inv h' F' (A1 ++ A2) /\ keeps (A1 ++ A2) h h' /\ h_brk h' = h_brk h.
Proof.
  intros [(_ & _ & _ & _ & E)|I]; [by destruct A1|].
  destruct (free_ok h F A1 A2 b I) as (h' & F' & E & I' & K & B & _). exists h', F'. split_and!; [done|by right|done|done].
Qed.
End Heap.

(** A process with 8192 bytes of code and data, [base] among them. *)
Definition fresh_heap : heap := mkHeap (fun _ => 0) 8192 0.

Lemma fresh_heap_inv : heap_inv 4096 8192 (2 ^ 20) fresh_heap [] [].
Proof. left. split_and!; done. Qed.

Lemma malloc_spec_witness :
  exists r h' F', malloc 4096 (2 ^ 20) 100 fresh_heap = Ok r h' /\
    exists b, r = b.1 + 16 /\ r <> 0 /\ 100 <= 16 * (b.2 - 1) /\ heap_inv 4096 8192 (2 ^ 20) h' F' [b].
Proof.
  destruct (malloc_spec 4096 8192 (2 ^ 20) ltac:(lia) ltac:(lia) ltac:(lia) fresh_heap [] [] 100 fresh_heap_inv ltac:(lia))
    as (r & h' & F' & E & _ & [(_ & _ & _ & H)|H]); [cbn in H; lia|].
  exists r, h', F'. split; [exact E|exact H].
Defined.

Lemma free_spec_witness :
  exists h F b, heap_inv 4096 8192 (2 ^ 20) h F [b] /\
    exists h' F', free (b.1 + 16) h = Ok tt h' /\ heap_inv 4096 8192 (2 ^ 20) h' F' [].
Proof.
  destruct (malloc_ok 4096 8192 (2 ^ 20) ltac:(lia) ltac:(lia) ltac:(lia) fresh_heap [] [] 100 fresh_heap_inv ltac:(lia))
    as (r & h & F & _ & _ & [(_ & _ & _ & _ & _ & H)|(b & _ & _ & _ & H)]); [vm_compute in H; discriminate H|].
  exists h, F, b. split; [exact H|].
  destruct (free_spec 4096 8192 (2 ^ 20) ltac:(lia) ltac:(lia) ltac:(lia) h F [] [] b H) as (h' & F' & E & I' & _).
  exists h', F'. split; [exact E|exact I'].
Defined.

(** The number of bytes malloc() asks of sbrk() is converted to int: for a
    request close to 2^32 it is small, or negative, and malloc() succeeds
    without the memory. *)
Lemma malloc_huge :
  match malloc 4096 (2 ^ 20) (2 ^ 32 - 1) fresh_heap with
  | Ok r h' => r <> 0 /\ h_brk h' <= r
  | _ => False
  end.
Proof. vm_compute. split; discriminate. Qed.
