(* ===== verification/User.v ===== *)
(** A user process above the system calls: the calls the user programs make,
    user/printf.c, and the input and output half of user/ulib.c.

    A process sees, behind a file descriptor, a stream: the results of the
    coming reads, cut into pieces in any way, [None] for an error; the end of
    the stream is the end of the file.  What it writes is recorded.  The calls
    exit() and abort the process; its status is [u_status].  The pieces of
    [u_short] are the results of coming writes that do not accept everything. *)

From S2P Require Import Prelude.

Abbreviation stream := (list (option (list Z))).

Record uproc : Type := mkUproc {
  u_fds : gmap Z stream;
  u_files : list Z -> option stream;
  u_out : list (Z * list Z);
  u_short : list Z;
  u_status : option Z;
}.
#[export] Instance upd_u_fds : Field u_fds := fun g r =>
  mkUproc (g (u_fds r)) (u_files r) (u_out r) (u_short r) (u_status r).
#[export] Instance upd_u_files : Field u_files := fun g r =>
  mkUproc (u_fds r) (g (u_files r)) (u_out r) (u_short r) (u_status r).
#[export] Instance upd_u_out : Field u_out := fun g r =>
  mkUproc (u_fds r) (u_files r) (g (u_out r)) (u_short r) (u_status r).
#[export] Instance upd_u_short : Field u_short := fun g r =>
  mkUproc (u_fds r) (u_files r) (u_out r) (g (u_short r)) (u_status r).
#[export] Instance upd_u_status : Field u_status := fun g r =>
  mkUproc (u_fds r) (u_files r) (u_out r) (u_short r) (g (u_status r)).

(** Equality of process states written as field updates. *)
Ltac ustate :=
  repeat match goal with s : uproc |- _ => destruct s end;
  cbv [upd upd_u_fds upd_u_files upd_u_out upd_u_short upd_u_status u_fds u_files u_out u_short u_status] in *;
  try match goal with |- @eq uproc _ _ => f_equal end.

Abbreviation P := (M uproc).

(** ** System calls *)

(** read(): at most [n] bytes of the next piece. *)
Definition read (fd n : Z) : P (Z * list Z) := fun s =>
  match u_fds s !! fd with
  | None | Some (None :: _) =>
      Ok (-1, []) (s <| u_fds ::= alter (@tail (option (list Z))) fd |>)
  | Some [] => Ok (0, []) s
  | Some (Some c :: st) =>
      let r := take (Z.to_nat n) c in
      let c' := drop (Z.to_nat n) c in
      Ok (Z.of_nat (length r), r) (s <| u_fds ::= <[fd := match c' with [] => st | _ => Some c' :: st end]> |>)
  end.

(** A read loop has at most one round for each byte behind its descriptor. *)
Definition stream_fuel (st : stream) : nat := S (length (concat (default [] <$> st)) + length st).

(** write(): all of [l], or what the next short write accepts. *)
Definition write (fd : Z) (l : list Z) : P Z := fun s =>
  let r := match u_short s with r :: _ => Z.min r (Z.of_nat (length l)) | [] => Z.of_nat (length l) end in
  Ok r (s <| u_short ::= @tail Z |> <| u_out ::= fun o => o ++ [(fd, take (Z.to_nat r) l)] |>).

(** open(path, 0): the lowest descriptor that is not in use. *)
Fixpoint lowest_fd (k : nat) (fd : Z) (fds : gmap Z stream) : option Z :=
  match k with
  | O => None
  | S k' => match fds !! fd with None => Some fd | Some _ => lowest_fd k' (fd + 1) fds end
  end.

Definition open (path : list Z) : P Z := fun s =>
  match u_files s path, lowest_fd 16 0 (u_fds s) with
  | Some st, Some fd => Ok fd (s <| u_fds ::= <[fd := st]> |>)
  | _, _ => Ok (-1) s
  end.

Definition close (fd : Z) : P unit := fun s => Ok tt (s <| u_fds ::= delete fd |>).

(** exit() does not return. *)
Definition exit {A} (status : Z) : P A := fun s => Blocked (s <| u_status := Some status |>).

(** ** printf.c *)

(** digits[i] *)
Definition udigit (i : Z) : Z := nth (Z.to_nat i) (bytes "0123456789ABCDEF") 0.

Definition putc (fd c : Z) : P unit := write fd [u8 c] ;; ret tt.

Fixpoint puts (fd : Z) (l : list Z) : P unit :=
  match l with
  | [] => ret tt
  | c :: l' => putc fd c ;; puts fd l'
  end.

(** do { buf[i++] = digits[x % base]; } while((x /= base) != 0); *)
Fixpoint uprintint_loop (fuel : nat) (x base : Z) : list Z :=
  match fuel with
  | O => []
  | S f => udigit (x mod base) :: (if x / base =? 0 then [] else uprintint_loop f (x / base) base)
  end.

(** The contents of [buf] when it is full: a 32-bit number has at most 32
    digits. *)
Definition uprintint_buf (xx base : Z) (sgn : bool) : list Z :=
  let neg := sgn && (xx <? 0) in
  let x := if neg then u32 (- xx) else u32 xx in
  uprintint_loop 32 x base ++ (if neg then bytes "-" else []).

Definition uprintint (fd xx base : Z) (sgn : bool) : P unit := puts fd (rev (uprintint_buf xx base sgn)).

Fixpoint uprintptr_loop (n : nat) (fd x : Z) : P unit :=
  match n with
  | O => ret tt
  | S n' => putc fd (udigit (Z.shiftr x 60)) ;; uprintptr_loop n' fd (u64 (Z.shiftl x 4))
  end.

Definition uprintptr (fd x : Z) : P unit := puts fd (bytes "0x") ;; uprintptr_loop 16 fd x.

Inductive uarg : Type := UInt (x : Z) | ULong (x : Z) | UStr (s : option (list Z)).

(** [state] is false for 0 and true for '%'; [va_arg] at another type than the
    argument's is undefined. *)
Fixpoint vprintf_loop (fd : Z) (state : bool) (fmt : list Z) (ap : list uarg) : P unit :=
  match fmt with
  | [] => ret tt
  | c :: fmt =>
      if negb state then
        if c =? chr "%" then vprintf_loop fd true fmt ap
        else putc fd c ;; vprintf_loop fd false fmt ap
      else if c =? chr "d" then
        match ap with
        | UInt x :: ap => uprintint fd x 10 true ;; vprintf_loop fd false fmt ap
        | _ => fault
        end
      else if c =? chr "l" then
        match ap with
        | ULong x :: ap => uprintint fd (i32 x) 10 false ;; vprintf_loop fd false fmt ap
        | _ => fault
        end
      else if c =? chr "x" then
        match ap with
        | UInt x :: ap => uprintint fd x 16 false ;; vprintf_loop fd false fmt ap
        | _ => fault
        end
      else if c =? chr "p" then
        match ap with
        | ULong x :: ap => uprintptr fd x ;; vprintf_loop fd false fmt ap
        | _ => fault
        end
      else if c =? chr "s" then
        match ap with
        | UStr s :: ap => puts fd (default (bytes "(null)") s) ;; vprintf_loop fd false fmt ap
        | _ => fault
        end
      else if c =? chr "c" then
        match ap with
        | UInt x :: ap => putc fd x ;; vprintf_loop fd false fmt ap
        | _ => fault
        end
      else if c =? chr "%" then putc fd c ;; vprintf_loop fd false fmt ap
      else putc fd (chr "%") ;; putc fd c ;; vprintf_loop fd false fmt ap
  end.

Definition vprintf (fd : Z) (fmt : list Z) (ap : list uarg) : P unit := vprintf_loop fd false fmt ap.
Definition fprintf (fd : Z) (fmt : list Z) (ap : list uarg) : P unit := vprintf fd fmt ap.
Definition uprintf (fmt : list Z) (ap : list uarg) : P unit := vprintf 1 fmt ap.

(** ** ulib.c, on strings as the bytes before their NUL *)

(** strchr(): the index of the first [c]. *)
Fixpoint strchr (s : list Z) (c : Z) : option nat :=
  match s with
  | [] => None
  | x :: s' => if x =? 0 then None else if x =? c then Some O else S <$> strchr s' c
  end.

(** gets(): one byte at a time up to and including a newline. *)
Fixpoint gets_loop (k : nat) (buf : list Z) : P (list Z) :=
  match k with
  | O => ret buf
  | S k' =>
      let* r := read 0 1 in
      let '(cc, c) := r in
      if cc <? 1 then ret buf
      else
        let buf := buf ++ c in
        if (hd 0 c =? 10) || (hd 0 c =? 13) then ret buf else gets_loop k' buf
  end.

Definition gets (max : Z) : P (list Z) := gets_loop (Z.to_nat (max - 1)) [].

(** atoi() *)
Fixpoint atoi_loop (s : list Z) (n : Z) : Z :=
  match s with
  | c :: s' => if (chr "0" <=? c) && (c <=? chr "9") then atoi_loop s' (i32 (n * 10 + c - chr "0")) else n
  | [] => n
  end.

Definition atoi (s : list Z) : Z := atoi_loop s 0.
