(* ===== verification/Ulib.v ===== *)
(** user/ulib.c: the string and memory routines of user programs.

    They are the loops of the source over a byte memory.  A loop that ends at a
    NUL has fuel, and the theorems say that the length of the string is enough.
    The routines compute what those of the kernel (Strings.v) do. *)

From S2P Require Import Prelude Layout Strings.

(** ** The routines *)

(** while(( *s++ = *t++) != 0); *)
Fixpoint ustrcpy (fuel : nat) (m : mem) (s t : Z) : option mem :=
  match fuel with
  | O => None
  | S f => let m' := mset m s (m t) in if m t =? 0 then Some m' else ustrcpy f m' (s + 1) (t + 1)
  end.

(** while( *p && *p == *q) p++, q++; *)
Fixpoint ustrcmp (fuel : nat) (m : mem) (p q : Z) : option Z :=
  match fuel with
  | O => None
  | S f => if negb (m p =? 0) && (m p =? m q) then ustrcmp f m (p + 1) (q + 1) else Some (m p - m q)
  end.

(** for(n = 0; s[n]; n++); *)
Fixpoint ustrlen_loop (fuel : nat) (m : mem) (s n : Z) : option Z :=
  match fuel with
  | O => None
  | S f => if m (s + n) =? 0 then Some n else ustrlen_loop f m s (n + 1)
  end.
Definition ustrlen (fuel : nat) (m : mem) (s : Z) : option Z := ustrlen_loop fuel m s 0.

(** for(i = 0; i < n; i++) cdst[i] = c; *)
Fixpoint umemset_loop (k : nat) (m : mem) (cdst i c : Z) : mem :=
  match k with
  | O => m
  | S k' => umemset_loop k' (mset m (cdst + i) (u8 c)) cdst (i + 1) c
  end.
Definition umemset (m : mem) (dst c n : Z) : mem := umemset_loop (Z.to_nat n) m dst 0 c.

(** while(n-- > 0) *dst++ = *src++; and while(n-- > 0) *--dst = *--src; *)
Fixpoint umove_up (k : nat) (m : mem) (dst src : Z) : mem :=
  match k with
  | O => m
  | S k' => umove_up k' (mset m dst (m src)) (dst + 1) (src + 1)
  end.
Fixpoint umove_down (k : nat) (m : mem) (dst src : Z) : mem :=
  match k with
  | O => m
  | S k' => umove_down k' (mset m (dst - 1) (m (src - 1))) (dst - 1) (src - 1)
  end.

Definition umemmove (m : mem) (vdst vsrc n : Z) : mem :=
  if vdst <? vsrc then umove_up (Z.to_nat n) m vdst vsrc
  else umove_down (Z.to_nat n) m (vdst + n) (vsrc + n).

Fixpoint umemcmp (m : mem) (s1 s2 : Z) (n : nat) : Z :=
  match n with
  | O => 0
  | S n' => if negb (m s1 =? m s2) then m s1 - m s2 else umemcmp m (s1 + 1) (s2 + 1) n'
  end.

Definition umemcpy (m : mem) (dst src n : Z) : mem := umemmove m dst src n.

(** ** The routines on strings *)

(** There is a string of [l] at [p]. *)
Fixpoint string_at (m : mem) (p : Z) (l : list Z) : Prop :=
  match l with
  | [] => m p = 0
  | c :: l' => m p = c /\ c <> 0 /\ string_at m (p + 1) l'
  end.

Lemma string_at_ext m m' l : forall p, (forall x, p <= x <= p + Z.of_nat (length l) -> m' x = m x) -> string_at m p l -> string_at m' p l.
Proof.
  induction l as [|c l IH]; intros p H; cbn [string_at length] in *; [intros Hp; rewrite H by lia; done|].
  intros (H1 & H2 & H3). split_and!; [rewrite H by lia; done|done|]. apply IH; [|done]. intros x Hx. apply H. lia.
Qed.

(** strcpy() of a string to a place that does not come after its first byte
    within it: the string and its NUL are copied, and no other byte changes. *)
Theorem ustrcpy_spec l : forall fuel m s t, string_at m t l -> s <= t \/ t + Z.of_nat (length l) < s -> (length l < fuel)%nat ->
  exists m', ustrcpy fuel m s t = Some m' /\ string_at m' s l /\ forall x, m' x = mcopy m s t (Z.of_nat (length l) + 1) x.
Proof.
  induction l as [|c l IH]; intros fuel m s t Ht Ho Hf; (destruct fuel as [|f]; [cbn in Hf; lia|]); cbn [ustrcpy string_at length] in *.
  - rewrite Ht. cbn. eexists. split; [done|]. split; [unfold mset; by rewrite Z.eqb_refl|]. intros x. unfold mset, mcopy. zcases; try lia; auto.
    rewrite <- Ht. f_equal. lia.
  - destruct Ht as (E & Hc & Ht). apply Z.eqb_neq in Hc as Hc'. rewrite E, Hc'.
    destruct (IH f (mset m s c) (s + 1) (t + 1)) as (m' & E' & Hs & Hx); [|lia|lia|].
    { eapply string_at_ext; [|exact Ht]. intros x Hx. unfold mset. zcases; [|done]. lia. }
    exists m'. split; [done|]. split.
    + split_and!; [|done|done]. rewrite Hx. unfold mcopy, mset. zcases; lia || done.
    + intros x. rewrite Hx. unfold mcopy, mset. zcases; try lia; auto; try (f_equal; lia). all: rewrite <- E; f_equal; lia.
Qed.

(** The order strcmp() is for. *)
Fixpoint lex (a b : list Z) : comparison :=
  match a, b with
  | [], [] => Eq
  | [], _ => Lt
  | _, [] => Gt
  | x :: a', y :: b' => match x ?= y with Eq => lex a' b' | c => c end
  end.

(** strcmp() of two strings of bytes is negative, zero or positive as the first
    comes before, is or comes after the second. *)
Theorem ustrcmp_spec a : forall b fuel m p q, string_at m p a -> string_at m q b -> (forall x, 0 <= m x) -> (length a < fuel)%nat ->
  exists r, ustrcmp fuel m p q = Some r /\ (r ?= 0) = lex a b.
Proof.
  induction a as [|x a IH]; intros b fuel m p q Ha Hb Hm Hf; (destruct fuel as [|f]; [cbn in Hf; lia|]); cbn [ustrcmp string_at length] in *.
  - rewrite Ha. cbn. eexists. split; [done|]. destruct b as [|y b]; cbn [string_at lex] in *; [by rewrite Hb|].
    destruct Hb as (E & Hy & _). specialize (Hm q). rewrite E in *. apply Z.compare_lt_iff. lia.
  - destruct Ha as (E & Hx & Ha). rewrite E. apply Z.eqb_neq in Hx as Hx'. rewrite Hx'. cbn [negb andb].
    destruct b as [|y b]; cbn [string_at lex] in *.
    + rewrite Hb. rewrite Hx'. eexists. split; [done|]. specialize (Hm p). apply Z.compare_gt_iff. lia.
    + destruct Hb as (E2 & Hy & Hb). rewrite E2. destruct (Z.eqb_spec x y) as [->|Hne].
      * rewrite Z.compare_refl. apply IH; auto. lia.
      * eexists. split; [done|]. destruct (Z.compare_spec x y); [done|apply Z.compare_lt_iff; lia|apply Z.compare_gt_iff; lia].
Qed.

Lemma ustrlen_loop_spec l : forall fuel m s n, string_at m (s + n) l -> (length l < fuel)%nat -> ustrlen_loop fuel m s n = Some (n + Z.of_nat (length l)).
Proof.
  induction l as [|c l IH]; intros fuel m s n Hs Hf; (destruct fuel as [|f]; [cbn in Hf; lia|]); cbn [ustrlen_loop string_at length] in *.
  - rewrite Hs. cbn. f_equal. lia.
  - destruct Hs as (E & Hc & Hs). rewrite E. apply Z.eqb_neq in Hc. rewrite Hc, IH; [f_equal; lia|by rewrite Z.add_assoc|lia].
Qed.

Theorem ustrlen_spec l fuel m s : string_at m s l -> (length l < fuel)%nat -> ustrlen fuel m s = Some (Z.of_nat (length l)).
Proof. intros. unfold ustrlen. rewrite (ustrlen_loop_spec l); [done|by rewrite Z.add_0_r|done]. Qed.

(** ** The routines on memory *)

(** The memmove() of user programs, which tests only the order of the two
    areas, and that of the kernel, which tests for an overlap, do the same. *)
Theorem umemmove_memmove m d s n x : 0 <= n -> umemmove m d s n x = memmove m d s n x.
Proof.
  intros Hn. assert (umemmove m d s n x = mcopy m d s n x /\ memmove m d s n x = mcopy m d s n x) as [-> ->]; [|done].
  assert (forall k m d s, umove_up k m d s = move_up k m d s) as Hup by (induction k as [|k IH]; intros; cbn; auto).
  assert (forall k m d s, umove_down k m d s = move_down k m d s) as Hdown by (induction k as [|k IH]; intros; cbn; auto).
  split.
  - unfold umemmove. destruct (Z.ltb_spec d s).
    + rewrite Hup, move_up_spec, Z2Nat.id by lia. done.
    + rewrite Hdown, move_down_spec, Z2Nat.id by lia. unfold mcopy. zcases; auto; try lia; f_equal; lia.
  - unfold memmove. destruct (Z.eqb_spec n 0) as [->|]; [unfold mcopy; zcases; auto; lia|]. destruct ((s <? d) && (d <? s + n)) eqn:E.
    + rewrite move_down_spec by lia. unfold mcopy. rewrite Z2Nat.id by lia. zcases; auto; try lia; f_equal; lia.
    + rewrite move_up_spec by lia. by rewrite Z2Nat.id by lia.
Qed.

Theorem umemset_mfill m d c n x : 0 <= n -> umemset m d c n x = mfill m d c n x.
Proof.
  intros Hn. unfold umemset. assert (forall k m d i, umemset_loop k m d i c = memset_loop k m d i c) as -> by (induction k as [|k IH]; intros; cbn; auto).
  rewrite memset_loop_spec, Z.add_0_r, Z2Nat.id by lia. done.
Qed.

Theorem umemcmp_eq n : forall m p q, umemcmp m p q n = 0 <-> mread m p n = mread m q n.
Proof.
  induction n as [|n IH]; intros m p q; cbn [umemcmp]; [done|]. rewrite !mread_S. destruct (Z.eqb_spec (m p) (m q)) as [E|E]; cbn [negb].
  - rewrite IH, E. split; [by intros ->|by intros [= ->]].
  - split; [lia|]. by intros [= ? ?].
Qed.
