(* ===== verification/UserSpec.v ===== *)
(** Reads and writes of a user process, for the theorems about programs. *)

From S2P Require Import Prelude User.

(** A state after more output to descriptor 1. *)
Definition printed (ls : list (list Z)) (s : uproc) : uproc :=
  s <| u_out ::= fun o => o ++ ((fun l => (1, l)) <$> ls) |>.

Lemma printed_app a b s : printed b (printed a s) = printed (a ++ b) s.
Proof. unfold printed. ustate. by rewrite fmap_app, <- app_assoc. Qed.

Lemma printed_nil s : printed [] s = s.
Proof. unfold printed. ustate. by rewrite app_nil_r. Qed.

(** A write that is not short. *)
Lemma write_ok fd l s :
  u_short s = [] -> write fd l s = Ok (Z.of_nat (length l)) (s <| u_out ::= fun o => o ++ [(fd, l)] |>).
Proof. intros H. unfold write. rewrite H, Nat2Z.id, firstn_all. f_equal. ustate. by subst. Qed.

(** What is behind the descriptor: pieces that are not empty. *)
Definition pieces (s : uproc) (fd : Z) (ps : list (list Z)) : Prop :=
  u_fds s !! fd = Some (Some <$> ps) /\ Forall (fun p => p <> []) ps.

Lemma read_piece s fd n p ps :
  pieces s fd (p :: ps) -> 0 < n ->
  exists d ps' s', read fd n s = Ok (Z.of_nat (length d), d) s' /\ (0 < length d)%nat /\
    pieces s' fd ps' /\ concat (p :: ps) = d ++ concat ps' /\
    (length ps' <= S (length ps))%nat /\ u_short s' = u_short s /\ u_out s' = u_out s /\
    (Z.of_nat (length d) <= n).
Proof.
  intros [Hfd Hne] Hn. apply Forall_cons in Hne as [Hp Hne]. unfold read. rewrite Hfd. cbn [fmap list_fmap].
  set (d := take (Z.to_nat n) p). set (r := drop (Z.to_nat n) p).
  assert (p = d ++ r) as Edr by (symmetry; apply take_drop).
  assert (0 < length d)%nat as Hd by (unfold d; rewrite length_take; destruct p; [done|]; cbn; lia).
  assert (Z.of_nat (length d) <= n) as Hdn by (unfold d; rewrite length_take; lia).
  exists d, (match r with [] => ps | _ => r :: ps end). eexists. split; [reflexivity|]. split; [done|]. split; [split|].
  - cbn. rewrite lookup_insert_eq. by destruct r.
  - destruct r eqn:Er; [done|]. by constructor.
  - split_and!; try done; [|destruct r; cbn; lia]. cbn. rewrite Edr, <- app_assoc. f_equal. by destruct r.
Qed.

Lemma stream_fuel_ok (ps : list (list Z)) : (length (concat ps) < stream_fuel (Some <$> ps))%nat.
Proof.
  unfold stream_fuel. assert (default [] <$> (Some <$> ps) = ps) as -> by (rewrite <- list_fmap_compose; apply list_fmap_id). lia.
Qed.

(** ** printf *)

(** What vprintf() writes: each character is a write of its own. *)
Definition put_chars (fd : Z) (l : list Z) (s : uproc) : uproc :=
  s <| u_out ::= fun o => o ++ ((fun c => (fd, [u8 c])) <$> l) |>.

Lemma put_chars_app fd a b s : put_chars fd b (put_chars fd a s) = put_chars fd (a ++ b) s.
Proof. unfold put_chars. ustate. by rewrite fmap_app, <- app_assoc. Qed.

Lemma putc_ok fd c s : u_short s = [] -> putc fd c s = Ok tt (put_chars fd [c] s).
Proof. intros H. unfold putc, bind. by rewrite write_ok. Qed.

Lemma puts_ok fd l : forall s, u_short s = [] -> puts fd l s = Ok tt (put_chars fd l s).
Proof.
  induction l as [|c l IH]; intros s H; cbn [puts].
  - unfold ret. f_equal. unfold put_chars. ustate. by rewrite app_nil_r.
  - rewrite (bind_ok _ _ _ _ _ (putc_ok fd c s H)), IH by done. by rewrite put_chars_app.
Qed.

(** The decimal digits of a number. *)
Definition dec (n : Z) : list Z := rev (uprintint_buf n 10 true).

(** One conversion of a format, and literal text. *)
Lemma vprintf_d fd fmt x ap s :
  u_short s = [] -> vprintf_loop fd false (bytes "%d" ++ fmt) (UInt x :: ap) s =
  vprintf_loop fd false fmt ap (put_chars fd (dec x) s).
Proof.
  intros H. transitivity ((puts fd (dec x) ;; vprintf_loop fd false fmt ap) s); [reflexivity|].
  by rewrite (bind_ok _ _ _ _ _ (puts_ok fd _ s H)).
Qed.

Lemma vprintf_s fd fmt x ap s :
  u_short s = [] -> vprintf_loop fd false (bytes "%s" ++ fmt) (UStr (Some x) :: ap) s =
  vprintf_loop fd false fmt ap (put_chars fd x s).
Proof.
  intros H. transitivity ((puts fd x ;; vprintf_loop fd false fmt ap) s); [reflexivity|].
  by rewrite (bind_ok _ _ _ _ _ (puts_ok fd _ s H)).
Qed.

Lemma vprintf_c fd c fmt ap s :
  u_short s = [] -> c <> chr "%" -> vprintf_loop fd false (c :: fmt) ap s = vprintf_loop fd false fmt ap (put_chars fd [c] s).
Proof.
  intros H Hc. cbn [vprintf_loop negb]. destruct (Z.eqb_spec c (chr "%")); [done|].
  by rewrite (bind_ok _ _ _ _ _ (putc_ok fd c s H)).
Qed.

(** atoi() reads back what %d printed. *)
Lemma udigit_dec d : 0 <= d < 10 -> udigit d = 48 + d.
Proof.
  intros H. assert (d = 0 \/ d = 1 \/ d = 2 \/ d = 3 \/ d = 4 \/ d = 5 \/ d = 6 \/ d = 7 \/ d = 8 \/ d = 9) as Hd by lia.
  repeat destruct Hd as [->|Hd]; [reflexivity..|]. subst d. reflexivity.
Qed.

Lemma atoi_step d rest acc :
  0 <= d < 10 -> 0 <= acc -> acc * 10 + d < 2 ^ 31 -> atoi_loop (udigit d :: rest) acc = atoi_loop rest (acc * 10 + d).
Proof.
  intros Hd Ha Hb. rewrite udigit_dec by done. cbn [atoi_loop].
  change (chr "0") with 48. change (chr "9") with 57.
  destruct (Z.leb_spec 48 (48 + d)); [|lia]. destruct (Z.leb_spec (48 + d) 57); [|lia]. cbn [andb].
  rewrite i32_small by lia. f_equal. lia.
Qed.

Lemma atoi_digits n : forall x rest,
  0 <= x < 10 ^ Z.of_nat n -> x < 2 ^ 31 -> (0 < n)%nat ->
  atoi_loop (rev (uprintint_loop n x 10) ++ rest) 0 = atoi_loop rest x.
Proof.
  induction n as [|n IH]; intros x rest Hx Hb Hn; [lia|]. cbn [uprintint_loop rev]. rewrite <- app_assoc. cbn [app].
  pose proof (Z.div_mod x 10 ltac:(lia)) as Hdm. pose proof (Z.mod_pos_bound x 10 ltac:(lia)) as Hm.
  destruct (Z.eqb_spec (x / 10) 0) as [E|E].
  - cbn [rev app]. rewrite atoi_step by lia. f_equal. lia.
  - assert (0 < x / 10 < 10 ^ Z.of_nat n) as Hq.
    { replace (Z.of_nat (S n)) with (1 + Z.of_nat n) in Hx by lia. rewrite Z.pow_add_r in Hx by lia.
      pose proof (Z.div_pos x 10). split; [lia|]. apply Z.div_lt_upper_bound; lia. }
    destruct n as [|n]; [cbn in Hq; lia|]. rewrite IH by lia. rewrite atoi_step by lia. f_equal. lia.
Qed.

Lemma atoi_dec n : 0 <= n < 2 ^ 31 -> atoi (dec n) = n.
Proof.
  intros H. unfold atoi, dec, uprintint_buf. destruct (Z.ltb_spec n 0); [lia|]. cbn [andb]. rewrite app_nil_r, u32_small by lia.
  rewrite <- (app_nil_r (rev _)). apply atoi_digits; [|lia|lia].
  split; [lia|]. transitivity (2 ^ 31); [lia|]. change (10 ^ Z.of_nat 32) with (10 ^ 32). lia.
Qed.
