(* ===== verification/Calls.v ===== *)
(** User programs as the system calls they make: user/init.c, kill.c, ln.c,
    mkdir.c, rm.c, zombie.c, forktest.c and stressfs.c, and stat() of
    user/ulib.c.

    A process is the list of the calls it has made so far, with the results; the
    result of a call is given by the operating system [os], any function of the
    calls before it and the call.  A program is run by one process: fork()
    returns 0 in a child and a process id in its parent, and either can be the
    process that is looked at.  printf() makes one call for each byte of the text
    that user/printf.c makes of its arguments (User.v). *)

From S2P Require Import Prelude Layout User.

Inductive call : Type :=
| COpen (path : list Z) (mode : Z)
| CMknod (path : list Z) (major minor : Z)
| CDup (fd : Z)
| CClose (fd : Z)
| CRead (fd n : Z)
| CWrite (fd : Z) (data : list Z)
| CFstat (fd : Z)
| CPipe
| CFork
| CWait (status : bool)
| CExec (path : list Z) (argv : list (list Z))
| CGetpid
| CKill (pid : Z)
| CLink (old new : list Z)
| CMkdir (path : list Z)
| CUnlink (path : list Z)
| CChdir (path : list Z)
| CSbrk (n : Z)
| CSleep (n : Z).

#[export] Instance call_eq_dec : EqDecision call.
Proof. solve_decision. Defined.

(** A result, and what the call stored: the bytes of read(), the fields dev, ino,
    type, nlink and size of fstat(), the descriptors of pipe(), the status of
    wait() (which is asked for, or not: the argument may be null). *)
Abbreviation reply := (Z * list Z)%type.

Abbreviation history := (list (call * reply)).

Record caller : Type := mkCaller {
  c_hist : history;
  c_status : option Z;
}.
#[export] Instance upd_c_hist : Field c_hist := fun g r => mkCaller (g (c_hist r)) (c_status r).
#[export] Instance upd_c_status : Field c_status := fun g r => mkCaller (c_hist r) (g (c_status r)).

Abbreviation C := (M caller).

(** exit() does not return. *)
Definition cexit {A} (status : Z) : C A := fun s => Blocked (s <| c_status := Some status |>).

(** _main() of ulib.c: a program whose main() returns exits. *)
Definition _main (main : C unit) : C unit := main ;; cexit 0.

(** The bytes printf() writes: what it writes does not depend on the results of
    write(), which it does not look at. *)
Definition no_files : uproc := mkUproc ∅ (fun _ => None) [] [] None.
Definition ptext (fmt : list Z) (ap : list uarg) : option (list Z) :=
  match uprintf fmt ap no_files with
  | Ok _ s => Some (concat (snd <$> u_out s))
  | _ => None
  end.

Section Programs.
Context (os : history -> call -> reply).

Definition calls (c : call) : C reply := fun s =>
  let r := os (c_hist s) c in Ok r (s <| c_hist ::= fun h => h ++ [(c, r)] |>).
Definition call1 (c : call) : C Z := let* r := calls c in ret r.1.

(** exec() returns only if it fails: otherwise the process runs another program. *)
Definition cexec (path : list Z) (argv : list (list Z)) : C unit :=
  let* r := call1 (CExec path argv) in
  if r <? 0 then ret tt else fun s => Blocked s.

(** putc() for each byte *)
Fixpoint cputs (fd : Z) (text : list Z) : C unit :=
  match text with
  | [] => ret tt
  | c :: text => calls (CWrite fd [c]) ;; cputs fd text
  end.

Definition cprintf (fd : Z) (fmt : list Z) (ap : list uarg) : C unit :=
  match ptext fmt ap with Some text => cputs fd text | None => fault end.

(** ** stat() of ulib.c: the fields of the file's struct stat *)

Definition stat (n : list Z) : C (Z * list Z) :=
  let* fd := call1 (COpen n O_RDONLY) in
  if fd <? 0 then ret (-1, [])
  else
    let* r := calls (CFstat fd) in
    call1 (CClose fd) ;;
    ret r.

(** ** kill.c *)

Fixpoint kill_args (args : list (list Z)) : C unit :=
  match args with
  | [] => ret tt
  | a :: args => call1 (CKill (atoi a)) ;; kill_args args
  end.

Definition kill_main (argv : list (list Z)) : C unit :=
  (when (length argv <? 2)%nat do
    (cprintf 2 (bytes "usage: kill pid..." ++ nl) [] ;;
     cexit 1)) ;;
  kill_args (tail argv) ;;
  cexit 0.

(** ** ln.c *)

Definition ln_main (argv : list (list Z)) : C unit :=
  match argv with
  | [_; old; new] =>
      let* r := call1 (CLink old new) in
      (when r <? 0 do cprintf 2 (bytes "link %s %s: failed" ++ nl) [UStr (Some old); UStr (Some new)]) ;;
      cexit 0
  | _ =>
      cprintf 2 (bytes "Usage: ln old new" ++ nl) [] ;;
      cexit 1
  end.

(** ** mkdir.c and rm.c *)

Fixpoint mkdir_args (args : list (list Z)) : C unit :=
  match args with
  | [] => ret tt
  | a :: args =>
      let* r := call1 (CMkdir a) in
      if r <? 0 then cprintf 2 (bytes "mkdir: %s failed to create" ++ nl) [UStr (Some a)]
      else mkdir_args args
  end.

Definition mkdir_main (argv : list (list Z)) : C unit :=
  (when (length argv <? 2)%nat do
    (cprintf 2 (bytes "Usage: mkdir files..." ++ nl) [] ;;
     cexit 1)) ;;
  mkdir_args (tail argv) ;;
  cexit 0.

Fixpoint rm_args (args : list (list Z)) : C unit :=
  match args with
  | [] => ret tt
  | a :: args =>
      let* r := call1 (CUnlink a) in
      if r <? 0 then cprintf 2 (bytes "rm: %s failed to delete" ++ nl) [UStr (Some a)]
      else rm_args args
  end.

Definition rm_main (argv : list (list Z)) : C unit :=
  (when (length argv <? 2)%nat do
    (cprintf 2 (bytes "Usage: rm files..." ++ nl) [] ;;
     cexit 1)) ;;
  rm_args (tail argv) ;;
  cexit 0.

(** ** zombie.c *)

Definition zombie_main : C unit :=
  let* pid := call1 CFork in
  (when 0 <? pid do (call1 (CSleep 5) ;; ret tt)) ;;
  cexit 0.

(** ** init.c *)

Definition CONSOLE : Z := 1.

(** The two loops, with at most [fuel] calls of fork() and wait(): [shell] is
    the process id in [pid] while the inner loop runs. *)
Fixpoint init_loop (fuel : nat) (shell : option Z) : C unit :=
  match fuel with
  | O => diverge
  | S f =>
      match shell with
      | None =>
          cprintf 1 (bytes "init: starting sh" ++ nl) [] ;;
          let* pid := call1 CFork in
          (when pid <? 0 do
            (cprintf 1 (bytes "init: fork failed" ++ nl) [] ;;
             cexit 1)) ;;
          (when pid =? 0 do
            (cexec (bytes "sh") [bytes "sh"] ;;
             cprintf 1 (bytes "init: exec sh failed" ++ nl) [] ;;
             cexit 1)) ;;
          init_loop f (Some pid)
      | Some pid =>
          let* wpid := call1 (CWait false) in
          if wpid =? pid then init_loop f None
          else if wpid <? 0 then
            cprintf 1 (bytes "init: wait returned an error" ++ nl) [] ;;
            cexit 1
          else init_loop f (Some pid)
      end
  end.

Definition init_main (fuel : nat) : C unit :=
  let* fd := call1 (COpen (bytes "console") O_RDWR) in
  (when fd <? 0 do
    (call1 (CMknod (bytes "console") CONSOLE 0) ;;
     call1 (COpen (bytes "console") O_RDWR) ;; ret tt)) ;;
  call1 (CDup 0) ;;
  call1 (CDup 0) ;;
  init_loop fuel None.

(** ** forktest.c *)

Definition N : nat := 1000.

Definition print (s : list Z) : C unit := call1 (CWrite 1 s) ;; ret tt.

(** for(n=0; n<N; n++): the value of [n] at the end, after [k] more rounds *)
Fixpoint forktest_forks (k : nat) (n : nat) : C nat :=
  match k with
  | O => ret n
  | S k' =>
      let* pid := call1 CFork in
      if pid <? 0 then ret n
      else (when pid =? 0 do cexit 0) ;; forktest_forks k' (S n)
  end.

(** for(; n > 0; n--) *)
Fixpoint forktest_waits (n : nat) : C unit :=
  match n with
  | O => ret tt
  | S n' =>
      let* r := call1 (CWait false) in
      (when r <? 0 do
        (print (bytes "wait stopped early" ++ nl) ;;
         cexit 1)) ;;
      forktest_waits n'
  end.

Definition forktest : C unit :=
  print (bytes "fork test" ++ nl) ;;
  let* n := forktest_forks N O in
  (when (n =? N)%nat do
    (print (bytes "fork claimed to work N times!" ++ nl) ;;
     cexit 1)) ;;
  forktest_waits n ;;
  let* r := call1 (CWait false) in
  (when negb (r =? -1) do
    (print (bytes "wait got too many" ++ nl) ;;
     cexit 1)) ;;
  print (bytes "fork test OK" ++ nl).

Definition forktest_main : C unit := forktest ;; cexit 0.

(** ** stressfs.c *)

(** for(i = 0; i < 4; i++) if(fork() > 0) break; *)
Fixpoint stress_forks (k : nat) (i : Z) : C Z :=
  match k with
  | O => ret i
  | S k' =>
      let* pid := call1 CFork in
      if 0 <? pid then ret i else stress_forks k' (i + 1)
  end.

Definition stressfs_main : C unit :=
  cprintf 1 (bytes "stressfs starting" ++ nl) [] ;;
  let data := replicate 512 (chr "a") in
  let* i := stress_forks 4 0 in
  cprintf 1 (bytes "write %d" ++ nl) [UInt i] ;;
  let path := bytes "stressfs" ++ [u8 (chr "0" + i)] in
  let* fd := call1 (COpen path (Z.lor O_CREATE O_RDWR)) in
  for_loop 20 0 (fun _ => call1 (CWrite fd data) ;; ret tt) ;;
  call1 (CClose fd) ;;
  cprintf 1 (bytes "read" ++ nl) [] ;;
  let* fd := call1 (COpen path O_RDONLY) in
  for_loop 20 0 (fun _ => call1 (CRead fd 512) ;; ret tt) ;;
  call1 (CClose fd) ;;
  call1 (CWait false) ;;
  cexit 0.
End Programs.
