(* ===== verification/CallsSpec.v ===== *)
(** What the small user programs do: rm and mkdir stop at the first failure,
    kill does not, init starts a shell again whenever it exits, and forktest
    accepts exactly the systems on which fork() fails cleanly.

    Then a logic of the descriptors such a program holds: printf() never faults
    when its arguments fit its format, and a triple [{e} m {Q, d}] is for a
    program that runs to its end owning the descriptors [e] at first and [d] at
    last, whatever else is open. *)

From stdpp Require Import gmultiset.
From S2P Require Import Prelude Layout User UserSpec Calls.

(** A process that has made no calls. *)
Definition fresh : caller := mkCaller [] None.

(** The process after the calls [h] more. *)
Definition more (h : history) (s : caller) : caller := s <| c_hist ::= fun l => l ++ h |>.

Lemma more_nil s : more [] s = s.
Proof. destruct s. unfold more, upd, upd_c_hist. cbn. by rewrite app_nil_r. Qed.

Lemma more_more a b s : more b (more a s) = more (a ++ b) s.
Proof. unfold more, upd, upd_c_hist. cbn. by rewrite app_assoc. Qed.

Lemma call1_ok os c s : call1 os c s = Ok (os (c_hist s) c).1 (more [(c, os (c_hist s) c)] s).
Proof. done. Qed.

(** ** Text *)

(** The calls that write [text]. *)
Definition putcalls (fd : Z) (text : list Z) : list call := (fun c => CWrite fd [c]) <$> text.

Lemma cputs_ok os fd text : forall s, exists h, cputs os fd text s = Ok tt (more h s) /\ fst <$> h = putcalls fd text.
Proof.
  induction text as [|c text IH]; intros s; cbn [cputs].
  - exists []. by rewrite more_nil.
  - unfold bind. unfold calls at 1. set (r := os (c_hist s) _). destruct (IH (more [(CWrite fd [c], r)] s)) as (h & E & Hh).
    exists ((CWrite fd [c], r) :: h). change (s <| c_hist ::= _ |>) with (more [(CWrite fd [c], r)] s). rewrite E, more_more. cbn. by rewrite Hh.
Qed.

Lemma put_text l s : snd <$> u_out (put_chars 1 l s) = (snd <$> u_out s) ++ ((fun c => [u8 c]) <$> l).
Proof. unfold put_chars. cbn. by rewrite fmap_app, <- list_fmap_compose. Qed.

Lemma concat_singles l : concat ((fun c => [u8 c]) <$> l) = u8 <$> l.
Proof. induction l as [|c l IH]; [done|]. cbn. by rewrite IH. Qed.

(** A format of literal text, one %s, and literal text. *)
Definition plain (l : list Z) : Prop := Forall (fun c => 0 <= c < 256 /\ c <> chr "%") l.

Ltac is_plain := repeat (apply Forall_cons; split; [by vm_compute; repeat split|]); by apply Forall_nil.

Lemma vprintf_plain l : forall fmt ap s, plain l -> u_short s = [] ->
  vprintf_loop 1 false (l ++ fmt) ap s = vprintf_loop 1 false fmt ap (put_chars 1 l s).
Proof.
  induction l as [|c l IH]; intros fmt ap s Hl Hs.
  - cbn [app]. f_equal. unfold put_chars. ustate. by rewrite app_nil_r.
  - apply Forall_cons in Hl as [[_ Hc] Hl]. rewrite <- app_comm_cons, vprintf_c, IH, put_chars_app by done. done.
Qed.

Lemma plain_u8 l : plain l -> u8 <$> l = l.
Proof. induction 1 as [|c l [Hc _] _ IH]; [done|]. cbn. rewrite IH, u8_small by done. done. Qed.

Lemma ptext_s pre x post : plain pre -> plain post -> ptext (pre ++ bytes "%s" ++ post) [UStr (Some x)] = Some (pre ++ (u8 <$> x) ++ post).
Proof.
  intros H1 H2. unfold ptext, uprintf, vprintf. rewrite vprintf_plain, vprintf_s by done. rewrite <- (app_nil_r post), vprintf_plain by done. cbn [vprintf_loop ret].
  rewrite !put_text, !concat_app, !concat_singles. cbn [u_out no_files fmap list_fmap concat app]. rewrite (plain_u8 pre), (plain_u8 post) by done.
  by rewrite app_nil_r, <- app_assoc.
Qed.

(** ** rm and mkdir *)

(** The calls [mk] for the arguments, in order: all succeeded; or one failed, a
    message says so, and those after it were not made. *)
Definition in_order (mk : list Z -> call) (msg : list Z -> list Z) (args : list (list Z)) (h : history) : Prop :=
  (fst <$> h = mk <$> args /\ Forall (fun x => 0 <= x.2.1) h) \/
  exists done a rest l r said, args = done ++ a :: rest /\ h = l ++ (mk a, r) :: said /\
    fst <$> l = mk <$> done /\ Forall (fun x => 0 <= x.2.1) l /\ r.1 < 0 /\ fst <$> said = putcalls 2 (msg a).

Section InOrder.
Context (os : history -> call -> reply) (mk : list Z -> call) (pre post : list Z) (f : list (list Z) -> C unit).
Hypothesis Hpre : plain pre.
Hypothesis Hpost : plain post.
Hypothesis Hnil : f [] = ret tt.
Hypothesis Hcons : forall a args, f (a :: args) = (let* r := call1 os (mk a) in
  if r <? 0 then cprintf os 2 (pre ++ bytes "%s" ++ post) [UStr (Some a)] else f args)%M.

Lemma each_in_order args : forall s, exists h, f args s = Ok tt (more h s) /\
  in_order mk (fun a => pre ++ (u8 <$> a) ++ post) args h.
Proof.
  induction args as [|a args IH]; intros s.
  - exists []. rewrite Hnil, more_nil. split; [done|by left].
  - rewrite Hcons. run (call1_ok os (mk a) s). set (r := os (c_hist s) (mk a)). destruct (Z.ltb_spec r.1 0) as [Hr|Hr].
    + unfold cprintf. rewrite ptext_s by done. destruct (cputs_ok os 2 (pre ++ (u8 <$> a) ++ post) (more [(mk a, r)] s)) as (said & E & Hs).
      exists ((mk a, r) :: said). rewrite E, more_more. split; [done|].
      right. exists [], a, args, [], r, said. split_and!; [done..|constructor|done|done].
    + destruct (IH (more [(mk a, r)] s)) as (h & E & H). exists ((mk a, r) :: h). rewrite E, more_more. split; [done|].
      destruct H as [[H1 H2]|(dn & b & rest & l & r' & w & -> & -> & H3 & H4 & H5 & H6)].
      * left. cbn. rewrite H1. split; [done|by constructor].
      * right. exists (a :: dn), b, rest, ((mk a, r) :: l), r', w. split_and!; [done|done|cbn; by rewrite H3|by constructor|done|done].
Qed.
End InOrder.

Lemma rm_args_ok os args s : exists h, rm_args os args s = Ok tt (more h s) /\
  in_order CUnlink (fun a => bytes "rm: " ++ (u8 <$> a) ++ bytes " failed to delete" ++ nl) args h.
Proof. apply (each_in_order os CUnlink (bytes "rm: ") (bytes " failed to delete" ++ nl) (rm_args os)); [is_plain..|done|done]. Qed.

Lemma mkdir_args_ok os args s : exists h, mkdir_args os args s = Ok tt (more h s) /\
  in_order CMkdir (fun a => bytes "mkdir: " ++ (u8 <$> a) ++ bytes " failed to create" ++ nl) args h.
Proof. apply (each_in_order os CMkdir (bytes "mkdir: ") (bytes " failed to create" ++ nl) (mkdir_args os)); [is_plain..|done|done]. Qed.

Lemma kill_args_ok os args : forall s, exists h, kill_args os args s = Ok tt (more h s) /\ fst <$> h = (fun x => CKill (atoi x)) <$> args.
Proof.
  induction args as [|x l IH]; intros s; cbn [kill_args].
  - exists []. by rewrite more_nil.
  - run (call1_ok os (CKill (atoi x)) s). set (r := os (c_hist s) (CKill (atoi x))). destruct (IH (more [(CKill (atoi x), r)] s)) as (h & E & Hh).
    exists ((CKill (atoi x), r) :: h). rewrite E, more_more. cbn. by rewrite Hh.
Qed.

(** rm unlinks its arguments and mkdir creates them in the order given, until a
    call fails; it then says which one, makes no more calls and exits with
    status 0. *)
Theorem rm_mkdir_spec os prog a args :
  (exists h, rm_main os (prog :: a :: args) fresh = Blocked (mkCaller h (Some 0)) /\
     in_order CUnlink (fun a => bytes "rm: " ++ (u8 <$> a) ++ bytes " failed to delete" ++ nl) (a :: args) h) /\
  exists h, mkdir_main os (prog :: a :: args) fresh = Blocked (mkCaller h (Some 0)) /\
     in_order CMkdir (fun a => bytes "mkdir: " ++ (u8 <$> a) ++ bytes " failed to create" ++ nl) (a :: args) h.
Proof.
  split; [destruct (rm_args_ok os (a :: args) fresh) as (h & E & H)|destruct (mkdir_args_ok os (a :: args) fresh) as (h & E & H)]; exists h; (split; [|exact H]).
  - unfold rm_main. change (length (prog :: a :: args) <? 2)%nat with false. cbn iota. rewrite bind_ret. cbn [tail]. by run E.
  - unfold mkdir_main. change (length (prog :: a :: args) <? 2)%nat with false. cbn iota. rewrite bind_ret. cbn [tail]. by run E.
Qed.

(** kill signals every process named, also after a failure. *)
Theorem kill_program_spec os prog a args : exists h,
  kill_main os (prog :: a :: args) fresh = Blocked (mkCaller h (Some 0)) /\ fst <$> h = (fun x => CKill (atoi x)) <$> a :: args.
Proof.
  destruct (kill_args_ok os (a :: args) fresh) as (h & E & Hh). exists h. split; [|exact Hh].
  unfold kill_main. change (length (prog :: a :: args) <? 2)%nat with false. cbn iota. rewrite bind_ret. cbn [tail]. by run E.
Qed.

(** ** init *)

(** What init has done since its descriptors are set up: [served None h] when no
    shell runs, [served (Some pid) h] when the shell [pid] does. *)
Inductive served : option Z -> history -> Prop :=
| sv_boot : served None []
| sv_start h said p : served None h -> fst <$> said = putcalls 1 (bytes "init: starting sh" ++ nl) -> 0 < p.1 ->
    served (Some p.1) (h ++ said ++ [(CFork, p)])
| sv_orphan h pid w : served (Some pid) h -> w.1 <> pid -> 0 <= w.1 -> served (Some pid) (h ++ [(CWait false, w)])
| sv_exit h pid w : served (Some pid) h -> w.1 = pid -> served None (h ++ [(CWait false, w)]).

(** Step rules of the loop. *)
Lemma init_start os f s : (forall h, 0 < (os h CFork).1) ->
  exists said p, init_loop os (S f) None s = init_loop os f (Some p.1) (more (said ++ [(CFork, p)]) s) /\
    fst <$> said = putcalls 1 (bytes "init: starting sh" ++ nl) /\ 0 < p.1.
Proof.
  intros Hf. cbn [init_loop]. unfold cprintf. replace (ptext _ _) with (Some (bytes "init: starting sh" ++ nl)) by by vm_compute.
  destruct (cputs_ok os 1 (bytes "init: starting sh" ++ nl) s) as (said & E & Hs). run E. run (call1_ok os CFork (more said s)).
  set (p := os _ CFork). pose proof (Hf (c_hist (more said s))) as Hp. fold p in Hp. exists said, p.
  rewrite (proj2 (Z.ltb_ge p.1 0)) by lia. rewrite (proj2 (Z.eqb_neq p.1 0)) by lia. rewrite !bind_ret, more_more. done.
Qed.

Lemma init_wait os f pid s : 0 <= (os (c_hist s) (CWait false)).1 ->
  init_loop os (S f) (Some pid) s =
    init_loop os f (if (os (c_hist s) (CWait false)).1 =? pid then None else Some pid) (more [(CWait false, os (c_hist s) (CWait false))] s).
Proof.
  intros Hw. cbn [init_loop]. run (call1_ok os (CWait false) s). case_match; [done|]. by rewrite (proj2 (Z.ltb_ge _ 0)).
Qed.

Lemma init_loop_ok os f : (forall h, 0 < (os h CFork).1) -> (forall h, 0 <= (os h (CWait false)).1) ->
  forall shell setup h, served shell h -> exists shell' h',
    init_loop os f shell (mkCaller (setup ++ h) None) = Diverge (mkCaller (setup ++ h') None) /\ served shell' h'.
Proof.
  intros Hf Hw. induction f as [|f IH]; intros shell setup h Hh; [by exists shell, h|].
  destruct shell as [pid|].
  - rewrite init_wait by apply Hw. cbn [c_hist]. set (w := os (setup ++ h) (CWait false)). unfold more, upd, upd_c_hist. cbn [c_hist c_status].
    rewrite <- app_assoc. apply IH. destruct (Z.eqb_spec w.1 pid) as [E|E]; [by apply (sv_exit h pid)|]. apply sv_orphan; [done|done|apply Hw].
  - destruct (init_start os f (mkCaller (setup ++ h) None)) as (said & p & E & Hs & Hp); [done|].
    rewrite E. unfold more, upd, upd_c_hist. cbn [c_hist c_status]. rewrite <- app_assoc. apply IH. by apply sv_start.
Qed.

(** init opens the console three times, creating the device if it has to, and
    then, as long as fork() and wait() work, never exits: whenever its shell has
    exited it starts another one, and never while one runs. *)
Theorem init_spec os fuel :
  (forall h, 0 < (os h CFork).1) -> (forall h, 0 <= (os h (CWait false)).1) ->
  exists setup shell h, init_main os fuel fresh = Diverge (mkCaller (setup ++ h) None) /\ served shell h /\
    (let con := COpen (bytes "console") O_RDWR in
     fst <$> setup = (if (os [] con).1 <? 0 then [con; CMknod (bytes "console") CONSOLE 0; con] else [con]) ++ [CDup 0; CDup 0]).
Proof.
  intros Hf Hw. unfold init_main. set (con := COpen (bytes "console") O_RDWR). run (call1_ok os con fresh).
  change (c_hist fresh) with (@nil (call * reply)). set (r := os [] con).
  assert (forall l, exists setup shell h,
    (call1 os (CDup 0) ;; call1 os (CDup 0) ;; init_loop os fuel None)%M (mkCaller l None) = Diverge (mkCaller (setup ++ h) None) /\
    served shell h /\ fst <$> setup = (fst <$> l) ++ [CDup 0; CDup 0]) as H.
  { intros l. run (call1_ok os (CDup 0) (mkCaller l None)). set (s1 := more _ _). run (call1_ok os (CDup 0) s1).
    unfold s1, more, upd, upd_c_hist. cbn [c_hist c_status]. set (x := os l _). set (y := os _ (CDup 0)).
    destruct (init_loop_ok os fuel Hf Hw None ((l ++ [(CDup 0, x)]) ++ [(CDup 0, y)]) [] sv_boot) as (sh & h & E & Hh).
    rewrite app_nil_r in E. exists ((l ++ [(CDup 0, x)]) ++ [(CDup 0, y)]), sh, h. split_and!; [exact E|done|]. by rewrite !fmap_app, <- app_assoc. }
  destruct (Z.ltb_spec r.1 0) as [Hr|Hr].
  - unfold bind at 1 2 3. cbn -[init_loop call1]. rewrite !call1_ok. unfold more, upd, upd_c_hist. cbn -[init_loop call1]. eapply H.
  - rewrite bind_ret. apply (H [(con, r)]).
Qed.

(** ** forktest *)

(** The children of a process: those it forked and has not waited for. *)
Definition forked (h : history) : nat := length (filter (fun x => x.1 = CFork /\ 0 < x.2.1) h).
Definition waited (h : history) : nat := length (filter (fun x => x.1 = (CWait false) /\ 0 <= x.2.1) h).
Definition children (h : history) : Z := Z.of_nat (forked h) - Z.of_nat (waited h).

(** A system with room for [k] children: fork() works as long as there is room,
    and wait() as long as there is a child. *)
Definition room (os : history -> call -> reply) (k : nat) : Prop :=
  forall h, (if children h <? Z.of_nat k then 0 < (os h CFork).1 else (os h CFork).1 < 0) /\
    (if 0 <? children h then 0 <= (os h (CWait false)).1 else (os h (CWait false)).1 = -1).

Lemma children_app a b : children (a ++ b) = children a + children b.
Proof. unfold children, forked, waited. rewrite !filter_app, !length_app.
lia. Qed.

Ltac count_one := unfold children, forked, waited; rewrite !filter_cons; repeat case_decide; case_match; cbn in *; destruct_and?; naive_solver lia.

Lemma children_fork r : children [(CFork, r)] = if 0 <? r.1 then 1 else 0.
Proof. count_one. Qed.

Lemma children_wait r : children [(CWait false, r)] = if 0 <=? r.1 then -1 else 0.
Proof. count_one. Qed.

Lemma children_write fd text r : children [(CWrite fd text, r)] = 0.
Proof. done. Qed.

Section Forktest.
Context (os : history -> call -> reply) (k : nat) (Hos : room os k).

Lemma forks_ok m : forall n s, children (c_hist s) = Z.of_nat n -> (n <= k)%nat -> exists h,
  forktest_forks os m n s = Ok (Nat.min k (n + m)) (more h s) /\ children (c_hist s ++ h) = Z.of_nat (Nat.min k (n + m)).
Proof.
  induction m as [|m IH]; intros n s Hn Hk; cbn [forktest_forks].
  - exists []. rewrite more_nil, app_nil_r, Nat.add_0_r, Nat.min_r by done. done.
  - run (call1_ok os CFork s). set (r := os (c_hist s) CFork). destruct (Hos (c_hist s)) as [H _]. fold r in H. rewrite Hn in H.
    destruct (Z.ltb_spec (Z.of_nat n) (Z.of_nat k)) as [Hr|Hr].
    + rewrite (proj2 (Z.ltb_ge r.1 0)), (proj2 (Z.eqb_neq r.1 0)), bind_ret by lia.
      assert (children (c_hist s ++ [(CFork, r)]) = Z.of_nat (S n)) as Hc.
      { rewrite children_app, children_fork, (proj2 (Z.ltb_lt 0 r.1)) by lia. lia. }
      destruct (IH (S n) (more [(CFork, r)] s)) as (h & E & Hh); [exact Hc|lia|].
      exists ((CFork, r) :: h). rewrite E, more_more. cbn [c_hist more upd upd_c_hist] in Hh. rewrite <- app_assoc in Hh.
      replace (n + S m)%nat with (S n + m)%nat by lia. done.
    + rewrite (proj2 (Z.ltb_lt r.1 0)) by lia. exists [(CFork, r)]. rewrite Nat.min_l by lia. replace k with n by lia.
      split; [done|]. rewrite children_app, children_fork, (proj2 (Z.ltb_ge 0 r.1)) by lia. lia.
Qed.

Lemma waits_ok n : forall s, children (c_hist s) = Z.of_nat n -> exists h,
  forktest_waits os n s = Ok tt (more h s) /\ children (c_hist s ++ h) = 0.
Proof.
  induction n as [|n IH]; intros s Hn; cbn [forktest_waits].
  - exists []. by rewrite more_nil, app_nil_r.
  - run (call1_ok os (CWait false) s). set (r := os (c_hist s) (CWait false)). destruct (Hos (c_hist s)) as [_ H]. fold r in H.
    rewrite Hn, (proj2 (Z.ltb_lt _ _)) in H by lia. rewrite (proj2 (Z.ltb_ge r.1 0)), bind_ret by lia.
    destruct (IH (more [(CWait false, r)] s)) as (h & E & Hh).
    { change (children (c_hist s ++ [(CWait false, r)]) = Z.of_nat n). rewrite children_app, children_wait, (proj2 (Z.leb_le 0 r.1)) by lia. lia. }
    exists ((CWait false, r) :: h). rewrite E, more_more. split; [done|]. cbn [c_hist more upd upd_c_hist] in Hh. by rewrite <- app_assoc in Hh.
Qed.

(** forktest on a system with room for [k] children: it succeeds just when fork()
    fails before the thousandth child, and then every child was waited for. *)
Theorem forktest_spec : exists h,
  forktest_main os fresh = Blocked (mkCaller h (Some (if (k <? N)%nat then 0 else 1))) /\ ((k < N)%nat -> children h = 0).
Proof.
  unfold forktest_main, forktest, print. rewrite !bind_assoc. run (call1_ok os (CWrite 1 (bytes "fork test" ++ nl)) fresh). rewrite !bind_ret.
  set (s1 := more _ fresh). destruct (forks_ok N 0%nat s1) as (h & E & Hh); [done|lia|]. rewrite bind_assoc. run E. rewrite Nat.add_0_l in *.
  destruct (Nat.ltb_spec k N) as [Hk|Hk].
  - rewrite Nat.min_l in * by lia. rewrite (proj2 (Nat.eqb_neq k N)) by lia. rewrite !bind_assoc, bind_ret.
    destruct (waits_ok k (more h s1)) as (h2 & E2 & Hh2); [done|]. rewrite bind_assoc. run E2.
    set (s2 := more h2 (more h s1)). rewrite !bind_assoc. run (call1_ok os (CWait false) s2). destruct (Hos (c_hist s2)) as [_ H].
    assert (children (c_hist s2) = 0) as Hs2 by exact Hh2. rewrite Hs2 in H. change (0 <? 0) with false in H. cbn iota in H.
    set (s3 := more _ s2). rewrite H. change (negb (-1 =? -1)) with false. cbn iota. rewrite !bind_assoc, bind_ret, bind_assoc.
    run (call1_ok os (CWrite 1 (bytes "fork test OK" ++ nl)) s3). set (r := os (c_hist s3) _). eexists. split; [reflexivity|]. intros _.
    change (children ((c_hist s2 ++ [(CWait false, os (c_hist s2) (CWait false))]) ++ [(CWrite 1 (bytes "fork test OK" ++ nl), r)]) = 0).
    rewrite !children_app, Hs2, children_wait, H, children_write. done.
  - rewrite Nat.min_r in * by lia. rewrite Nat.eqb_refl. eexists. split; [done|]. lia.
Qed.
End Forktest.

(** * The descriptors a program holds *)

(** ** printf() with arguments that fit its format *)

Fixpoint fits (state : bool) (fmt : list Z) (ap : list uarg) : bool :=
  match fmt with
  | [] => true
  | c :: fmt =>
      if negb state then if c =? chr "%" then fits true fmt ap else fits false fmt ap
      else if (c =? chr "d") then match ap with UInt _ :: ap => fits false fmt ap | _ => false end
      else if c =? chr "l" then match ap with ULong _ :: ap => fits false fmt ap | _ => false end
      else if c =? chr "x" then match ap with UInt _ :: ap => fits false fmt ap | _ => false end
      else if c =? chr "p" then false
      else if c =? chr "s" then match ap with UStr _ :: ap => fits false fmt ap | _ => false end
      else if c =? chr "c" then match ap with UInt _ :: ap => fits false fmt ap | _ => false end
      else fits false fmt ap
  end.

Definition prints (m : P unit) : Prop := forall s, u_short s = [] -> exists s', m s = Ok tt s' /\ u_short s' = [].

Lemma prints_puts fd l : prints (puts fd l).
Proof. intros s Hs. rewrite puts_ok by done. by eexists. Qed.

Lemma prints_putc fd c : prints (putc fd c).
Proof. intros s Hs. rewrite putc_ok by done. by eexists. Qed.

Lemma prints_bind (a b : P unit) : prints a -> prints b -> prints (a ;; b)%M.
Proof. intros Ha Hb s Hs. destruct (Ha s Hs) as (s1 & E & Hs1). run E. by apply Hb. Qed.

Lemma prints_fits fd fmt : forall state ap, fits state fmt ap = true -> prints (vprintf_loop fd state fmt ap).
Proof.
  induction fmt as [|c fmt IH]; intros state ap H; [by intros s Hs; exists s|]. cbn [fits vprintf_loop] in *.
  destruct state; cbn [negb] in *.
  - repeat case_match; try done; simplify_eq;
      repeat (apply prints_bind; [apply prints_puts || apply prints_putc|]); by apply IH.
  - case_match; [by apply IH|]. apply prints_bind; [apply prints_putc|by apply IH].
Qed.

Lemma ptext_fits fmt ap : fits false fmt ap = true -> exists text, ptext fmt ap = Some text.
Proof. intros H. unfold ptext, uprintf, vprintf. destruct (prints_fits 1 fmt false ap H no_files) as (s' & -> & _); [done|]. by eexists. Qed.

(** ** Descriptors *)

(** The descriptor a call returned, if any. *)
Definition own (fd : Z) : gmultiset Z := if fd <? 0 then ∅ else {[+ fd +]}.

(** The open descriptors of a process, and how a call changes them: fork() gives
    the child its own, and exec() and exit() end the program. *)
Definition fd_step (l : gmultiset Z) (x : call * reply) : gmultiset Z :=
  match x.1 with
  | COpen _ _ | CDup _ => own x.2.1 ⊎ l
  | CPipe => if x.2.1 <? 0 then l else foldr (fun fd l => own fd ⊎ l) l x.2.2
  | CClose fd => l ∖ own fd
  | _ => l
  end.
Definition open_fds (h : history) (l : gmultiset Z) : gmultiset Z := foldl fd_step l h.

Lemma open_fds_app a b l : open_fds (a ++ b) l = open_fds b (open_fds a l).
Proof. apply foldl_app. Qed.

(** A program that runs to its end with a result that satisfies [Q]; it owns [e]
    before and [d] of the result after, and changes nothing else. *)
Definition triple {A} (e : gmultiset Z) (m : C A) (Q : A -> Prop) (d : A -> gmultiset Z) : Prop :=
  forall s, exists a h, m s = Ok a (more h s) /\ Q a /\ forall l, open_fds h (e ⊎ l) = d a ⊎ l.

Abbreviation keeps Q m := (triple ∅ m Q (fun _ => ∅)).
Abbreviation fine := (fun _ => True).

Lemma triple_ret {A} (Q : A -> Prop) (d : A -> gmultiset Z) (a : A) : Q a -> triple (d a) (ret a) Q d.
Proof. intros H s. exists a, []. by rewrite more_nil. Qed.

Lemma keeps_ret {A} (Q : A -> Prop) (a : A) : Q a -> keeps Q (ret a).
Proof. apply (triple_ret Q (fun _ => ∅)). Qed.

Lemma triple_bind {A B} e (Q : A -> Prop) d (R : B -> Prop) d' (m : C A) (f : A -> C B) :
  triple e m Q d -> (forall a, Q a -> triple (d a) (f a) R d') -> triple e (bind m f) R d'.
Proof.
  intros Hm Hf s. destruct (Hm s) as (a & h & E & Ha & Hh). run E. destruct (Hf a Ha (more h s)) as (b & h' & E' & Hb & Hh').
  exists b, (h ++ h'). rewrite E', more_more. split_and!; [done|done|]. intros l. by rewrite open_fds_app, Hh, Hh'.
Qed.

(** The frame rule, and changing the order of the descriptors. *)
Lemma triple_frame {A} f e (m : C A) Q d : triple e m Q d -> triple (e ⊎ f) m Q (fun a => d a ⊎ f).
Proof.
  intros H s. destruct (H s) as (a & h & E & Ha & Hh). exists a, h. split_and!; [done|done|].
  intros l. specialize (Hh (f ⊎ l)). by rewrite !(assoc_L (⊎)) in Hh.
Qed.

Lemma triple_mono {A} e e' (m : C A) (Q Q' : A -> Prop) d d' :
  triple e m Q d -> e = e' -> (forall a, Q a -> Q' a /\ d a = d' a) -> triple e' m Q' d'.
Proof.
  intros H -> HQ s. destruct (H s) as (a & h & E & Ha & Hh). destruct (HQ a Ha) as [H' Hd]. exists a, h. by setoid_rewrite Hd in Hh.
Qed.

Lemma triple_keeps {A B} e (Q : A -> Prop) (R : B -> Prop) d (m : C A) (f : A -> C B) :
  keeps Q m -> (forall a, Q a -> triple e (f a) R d) -> triple e (bind m f) R d.
Proof.
  intros Hm Hf. eapply triple_bind; [apply (triple_mono (∅ ⊎ e) _ _ _ _ _ (fun _ => e) (triple_frame e _ _ _ _ Hm)); [multiset_solver|]|exact Hf].
  intros a Ha. split; [exact Ha|multiset_solver].
Qed.

Lemma triple_ext {A} e (m m' : C A) Q d : (forall s, m' s = m s) -> triple e m Q d -> triple e m' Q d.
Proof. intros E H s. rewrite E. apply H. Qed.

(** ** The calls *)

Section CallRules.
Context (os : history -> call -> reply).

Lemma triple_calls c (Q : reply -> Prop) e d :
  (forall h, Q (os h c)) -> (forall r l, Q r -> fd_step (e ⊎ l) (c, r) = d r ⊎ l) -> triple e (calls os c) Q d.
Proof. intros HQ Hd s. exists (os (c_hist s) c), [(c, os (c_hist s) c)]. split_and!; [done|done|]. intros l. by apply Hd. Qed.

Lemma triple_call1 c (Q : Z -> Prop) e d :
  (forall h, Q (os h c).1) -> (forall r l, Q r.1 -> fd_step (e ⊎ l) (c, r) = d r.1 ⊎ l) -> triple e (call1 os c) Q d.
Proof. intros HQ Hd s. exists (os (c_hist s) c).1, [(c, os (c_hist s) c)]. split_and!; [done|done|]. intros l. by apply Hd. Qed.

Lemma open_rule path mode : triple ∅ (call1 os (COpen path mode)) fine own.
Proof. apply triple_call1; [done|]. intros r l _. unfold fd_step. cbn [fst snd]. multiset_solver. Qed.

Lemma close_rule fd : triple (own fd) (call1 os (CClose fd)) fine (fun _ => ∅).
Proof. apply triple_call1; [done|]. intros r l _. unfold fd_step. cbn [fst snd]. multiset_solver. Qed.

Lemma keeps_puts fd text : keeps fine (cputs os fd text).
Proof.
  induction text as [|c text IH]; [by apply keeps_ret|]. cbn [cputs].
  apply (triple_keeps ∅ fine); [by apply triple_calls|done].
Qed.

Lemma keeps_printf fd fmt ap : fits false fmt ap = true -> keeps fine (cprintf os fd fmt ap).
Proof. intros H. destruct (ptext_fits fmt ap H) as (text & E). unfold cprintf. rewrite E. apply keeps_puts. Qed.

(** What is opened around a program that keeps the descriptors is closed after it. *)
Lemma keeps_around {A B} path mode (Q : A -> Prop) (R : B -> Prop) (m : Z -> C A) (k : A -> C B) (bad : C B) :
  (forall fd, keeps Q (m fd)) -> (forall a, Q a -> keeps R (k a)) -> keeps R bad ->
  keeps R (let* fd := call1 os (COpen path mode) in
           if fd <? 0 then bad else let* a := m fd in call1 os (CClose fd) ;; k a)%M.
Proof.
  intros Hm Hk Hb. eapply triple_bind; [apply open_rule|]. intros fd _. destruct (fd <? 0) eqn:Hfd.
  - unfold own. rewrite Hfd. exact Hb.
  - apply (triple_keeps _ Q); [apply Hm|]. intros a Ha. eapply triple_bind; [apply close_rule|]. intros x _. by apply Hk.
Qed.
End CallRules.
