(* ===== verification/Ls.v ===== *)
(** user/ls.c: the name it shows for a path, and that it gives back every
    descriptor it opens, on every path through it. *)

From stdpp Require Import gmultiset.
From S2P Require Import Prelude Layout User UserSpec Calls CallsSpec.

(** ** ls.c *)

(** for(p=path+strlen(path); p >= path && *p != '/'; p--): the index of [p] at the
    end, when it is [k] at first *)
Fixpoint fmt_scan (path : list Z) (k : nat) : Z :=
  if nth k path 0 =? chr "/" then Z.of_nat k
  else match k with O => -1 | S k' => fmt_scan path k' end.

Definition fmtname (path : list Z) : list Z :=
  let p := drop (Z.to_nat (fmt_scan path (length path) + 1)) path in
  if DIRSIZ <=? Z.of_nat (length p) then p
  else p ++ replicate (Z.to_nat DIRSIZ - length p) (chr " ").

(** A C string in an array: the bytes before the first NUL. *)
Fixpoint until_nul (l : list Z) : list Z :=
  match l with
  | [] => []
  | c :: l => if c =? 0 then [] else c :: until_nul l
  end.

Section Ls.
Context (os : history -> call -> reply).

(** printf("%s %d %d %d\n", fmtname(path), st.type, st.ino, st.size): %d takes the
    low word of st.size *)
Definition ls_line (fmt : string) (path : list Z) (size : uarg) (st : list Z) : C unit :=
  match st with
  | [dev; ino; type; nlink; _] => cprintf os 1 (bytes fmt ++ nl) [UStr (Some (fmtname path)); UInt type; UInt (i32 ino); size]
  | _ => fault
  end.

(** while(read(fd, &de, sizeof(de)) == sizeof(de)) *)
Fixpoint ls_entries (fuel : nat) (fd : Z) (path : list Z) : C unit :=
  match fuel with
  | O => diverge
  | S f =>
      let* r := calls os (CRead fd 16) in
      if r.1 =? 16 then
        let inum := nth 0 r.2 0 + 256 * nth 1 r.2 0 in
        if inum =? 0 then ls_entries f fd path
        else
          let buf := path ++ [chr "/"] ++ until_nul (take 14 (drop 2 r.2)) in
          let* st := stat os buf in
          (if st.1 <? 0 then cprintf os 1 (bytes "ls: cannot stat %s" ++ nl) [UStr (Some buf)]
           else ls_line "%s %d %d %d" buf (UInt (i32 (nth 4 st.2 0))) st.2) ;;
          ls_entries f fd path
      else ret tt
  end.

Definition ls (fuel : nat) (path : list Z) : C unit :=
  let* fd := call1 os (COpen path 0) in
  if fd <? 0 then cprintf os 2 (bytes "ls: cannot open %s" ++ nl) [UStr (Some path)]
  else
    let* st := calls os (CFstat fd) in
    if st.1 <? 0 then
      cprintf os 2 (bytes "ls: cannot stat %s" ++ nl) [UStr (Some path)] ;;
      call1 os (CClose fd) ;;
      ret tt
    else
      let type := nth 2 st.2 0 in
      (if bool_decide (type = T_DEVICE \/ type = T_FILE) then ls_line "%s %d %d %l" path (ULong (nth 4 st.2 0)) st.2
       else if type =? T_DIR then
         if 512 <? Z.of_nat (length path) + 1 + DIRSIZ + 1 then cprintf os 1 (bytes "ls: path too long" ++ nl) []
         else ls_entries fuel fd path
       else ret tt) ;;
      call1 os (CClose fd) ;;
      ret tt.

Fixpoint ls_args (fuel : nat) (args : list (list Z)) : C unit :=
  match args with
  | [] => ret tt
  | a :: args => ls fuel a ;; ls_args fuel args
  end.

Definition ls_main (fuel : nat) (argv : list (list Z)) : C unit :=
  (when (length argv <? 2)%nat do (ls fuel (bytes ".") ;; cexit 0)) ;;
  ls_args fuel (tail argv) ;;
  cexit 0.
End Ls.

(** ** The name shown *)

Lemma fmt_scan_ge path k : (length path <= k)%nat -> fmt_scan path k = fmt_scan path (length path).
Proof.
  induction k as [|k IH]; intros Hk; [by replace (length path) with O by lia|].
  destruct (decide (length path = S k)) as [->|Hn]; [done|]. cbn. rewrite nth_overflow by lia. apply IH. lia.
Qed.

Lemma fmt_scan_none path k : ~ chr "/" ∈ path -> fmt_scan path k = -1.
Proof.
  intros Hn. assert (forall i, (nth i path 0 =? chr "/") = false) as H.
  { intros i. apply Z.eqb_neq. intros E. destruct (decide (i < length path)%nat) as [Hi|Hi]; [|by rewrite nth_overflow in E by lia].
    apply Hn. rewrite <- E. apply list_elem_of_In, nth_In, Hi. }
  induction k as [|k IH]; cbn; by rewrite H.
Qed.

Lemma fmt_scan_last pre name k : ~ chr "/" ∈ name ->
  fmt_scan (pre ++ chr "/" :: name) (length pre + k) = Z.of_nat (length pre).
Proof.
  intros Hn. induction k as [|k IH].
  - rewrite Nat.add_0_r. destruct pre as [|c pre]; [done|]. cbn [length fmt_scan]. by rewrite (nth_middle (c :: pre) name).
  - rewrite Nat.add_succ_r. cbn [fmt_scan]. rewrite app_nth2 by lia. replace (S (length pre + k) - length pre)%nat with (S k) by lia. cbn [nth].
    destruct (Z.eqb_spec (nth k name 0) (chr "/")) as [E|_]; [|exact IH]. exfalso.
    destruct (decide (k < length name)%nat) as [Hi|Hi]; [|by rewrite nth_overflow in E by lia].
    apply Hn. rewrite <- E. apply list_elem_of_In, nth_In, Hi.
Qed.

(** The name of a path, as ls shows it. *)
Definition shown_name (name : list Z) : list Z := name ++ replicate (14 - length name) (chr " ").

(** fmtname() gives what is after the last slash, or the whole path if it has
    none, padded with blanks to 14 characters. *)
Theorem fmtname_spec dir name : ~ chr "/" ∈ name -> fmtname name = shown_name name /\ fmtname (dir ++ chr "/" :: name) = shown_name name.
Proof.
  intros Hn. unfold fmtname. rewrite fmt_scan_none by done. rewrite length_app, fmt_scan_last by done.
  replace (Z.to_nat (Z.of_nat (length dir) + 1)) with (length dir + 1)%nat by lia. rewrite <- drop_drop, drop_app_length.
  change (Z.to_nat (-1 + 1)) with O. cbn [drop]. rewrite !drop_0. unfold shown_name, DIRSIZ. change (Z.to_nat 14) with 14%nat.
  destruct (Z.leb_spec 14 (Z.of_nat (length name))); [|done].
  replace (14 - length name)%nat with O by lia. cbn. by rewrite app_nil_r.
Qed.

(** ** Descriptors *)

(** The directory entries read so far. *)
Definition entries_read (h : history) : nat := length (filter (fun x => (match x.1 with CRead _ _ => x.2.1 =? 16 | _ => false end) = true) h).

Section LsSpec.
Context (os : history -> call -> reply) (n : nat).
(** fstat() gives a struct stat, and no more than [n] entries can be read. *)
Hypothesis Hstat : forall h fd, 0 <= (os h (CFstat fd)).1 -> length (os h (CFstat fd)).2 = 5%nat.
Hypothesis Hread : forall h fd, (n <= entries_read h)%nat -> (os h (CRead fd 16)).1 <> 16.

Definition is_stat (r : reply) : Prop := 0 <= r.1 -> length r.2 = 5%nat.

Lemma keeps_fstat fd : keeps is_stat (calls os (CFstat fd)).
Proof. apply triple_calls; [intros h; exact (Hstat h fd)|done]. Qed.

Lemma keeps_stat path : keeps is_stat (stat os path).
Proof. apply (keeps_around os path O_RDONLY is_stat); [apply keeps_fstat|intros a Ha; by apply keeps_ret|apply keeps_ret; intros H; cbn in H; lia]. Qed.

Lemma keeps_line_d path x st : length st = 5%nat -> keeps fine (ls_line os "%s %d %d %d" path (UInt x) st).
Proof. intros H. destruct st as [|a [|b [|c [|d [|e [|]]]]]]; try done. by apply keeps_printf. Qed.

Lemma keeps_line_l path x st : length st = 5%nat -> keeps fine (ls_line os "%s %d %d %l" path (ULong x) st).
Proof. intros H. destruct st as [|a [|b [|c [|d [|e [|]]]]]]; try done. by apply keeps_printf. Qed.

Lemma entry_keeps buf : keeps fine (let* st := stat os buf in
  if st.1 <? 0 then cprintf os 1 (bytes "ls: cannot stat %s" ++ nl) [UStr (Some buf)]
  else ls_line os "%s %d %d %d" buf (UInt (i32 (nth 4 st.2 0))) st.2)%M.
Proof.
  apply (triple_keeps ∅ is_stat); [apply keeps_stat|]. intros st Hst. destruct (Z.ltb_spec st.1 0); [by apply keeps_printf|]. by apply keeps_line_d, Hst.
Qed.

Lemma entries_app a b : entries_read (a ++ b) = (entries_read a + entries_read b)%nat.
Proof. unfold entries_read. by rewrite filter_app, length_app. Qed.

Lemma ls_entries_ok f : forall fd path s, (n - entries_read (c_hist s) < f)%nat ->
  exists h, ls_entries os f fd path s = Ok tt (more h s) /\ forall l, open_fds h l = l.
Proof.
  induction f as [|f IH]; intros fd path s Hf; [lia|]. cbn [ls_entries]. unfold bind at 1, calls at 1.
  change (s <| c_hist ::= _ |>) with (more [(CRead fd 16, os (c_hist s) (CRead fd 16))] s). pose proof (Hread (c_hist s) fd) as Hn. set (r := os _ _) in *.
  destruct (r.1 =? 16) eqn:Hr; [|by exists [(CRead fd 16, r)]].
  assert (entries_read [(CRead fd 16, r)] = 1%nat) as H1 by (unfold entries_read; by rewrite filter_cons_True).
  set (s1 := more _ s). assert (forall h, (n - entries_read (c_hist (more h s1)) < f)%nat) as Hs1.
  { intros h. cbn [c_hist s1 more upd upd_c_hist]. rewrite !entries_app, H1. lia. }
  case_match.
  - destruct (IH fd path s1) as (h & E & Hh); [specialize (Hs1 []); by rewrite more_nil in Hs1|].
    exists ((CRead fd 16, r) :: h). rewrite E. unfold s1. by rewrite more_more.
  - set (buf := path ++ _). rewrite <- bind_assoc. destruct (entry_keeps buf s1) as ([] & h & E & _ & Hh). run E.
    destruct (IH fd path (more h s1)) as (h' & E' & Hh'); [apply Hs1|]. exists ((CRead fd 16, r) :: h ++ h').
    rewrite E'. unfold s1. rewrite !more_more, <- ?app_assoc. split; [done|]. intros l. change (open_fds (h ++ h') l = l). specialize (Hh l). rewrite !(left_id_L ∅ (⊎)) in Hh. by rewrite open_fds_app, Hh, Hh'.
Qed.

Lemma ls_keeps path : keeps fine (ls os (S n) path).
Proof.
  set (m := fun fd => (let* st := calls os (CFstat fd) in
    if st.1 <? 0 then cprintf os 2 (bytes "ls: cannot stat %s" ++ nl) [UStr (Some path)]
    else if bool_decide (nth 2 st.2 0 = T_DEVICE \/ nth 2 st.2 0 = T_FILE) then ls_line os "%s %d %d %l" path (ULong (nth 4 st.2 0)) st.2
    else if nth 2 st.2 0 =? T_DIR then
      if 512 <? Z.of_nat (length path) + 1 + DIRSIZ + 1 then cprintf os 1 (bytes "ls: path too long" ++ nl) [] else ls_entries os (S n) fd path
    else ret tt)%M : C unit).
  apply (triple_ext _ (let* fd := call1 os (COpen path 0) in
    if fd <? 0 then cprintf os 2 (bytes "ls: cannot open %s" ++ nl) [UStr (Some path)] else m fd ;; call1 os (CClose fd) ;; ret tt)%M).
  - intros s. apply bind_eq. intros fd s1. destruct (fd <? 0); [done|]. unfold m. rewrite bind_assoc. apply bind_eq. intros st s2. by destruct (st.1 <? 0).
  - apply (keeps_around os path 0 fine); [|intros; by apply keeps_ret|by apply keeps_printf].
    intros fd. apply (triple_keeps ∅ is_stat); [apply keeps_fstat|]. intros st Hst. destruct (Z.ltb_spec st.1 0); [by apply keeps_printf|].
    repeat case_match; [by apply keeps_line_l, Hst|by apply keeps_printf| |by apply keeps_ret].
    intros s. destruct (ls_entries_ok (S n) fd path s) as (h & E & Hh); [lia|]. exists tt, h. split_and!; [done|done|]. intros l. by rewrite Hh.
Qed.

Lemma ls_args_keeps args : keeps fine (ls_args os (S n) args).
Proof. induction args as [|a args IH]; [by apply keeps_ret|]. cbn [ls_args]. apply (triple_keeps ∅ fine); [apply ls_keeps|done]. Qed.

(** ls comes to its end and exits with status 0, and every descriptor it opened,
    for its arguments and for the entries of directories, has been closed,
    whichever of its calls failed. *)
Theorem ls_closes argv : exists h, ls_main os (S n) argv fresh = Blocked (mkCaller h (Some 0)) /\ open_fds h ∅ = ∅.
Proof.
  unfold ls_main. destruct (length argv <? 2)%nat.
  - destruct (ls_keeps (bytes ".") fresh) as ([] & h & E & _ & Hh). exists h. split; [rewrite bind_assoc; by run E|]. specialize (Hh ∅). by rewrite !(left_id_L ∅ (⊎)) in Hh.
  - rewrite bind_ret. destruct (ls_args_keeps (tail argv) fresh) as ([] & h & E & _ & Hh). exists h. split; [by run E|]. specialize (Hh ∅). by rewrite !(left_id_L ∅ (⊎)) in Hh.
Qed.
End LsSpec.
