(* ===== verification/Grind.v ===== *)
(** user/grind.c: random system calls, forever.  The generator is the one of Park
    and Miller, computed without overflow; and as long as the calls do what they
    should, the process that runs them neither exits nor loses a descriptor. *)

From stdpp Require Import gmultiset.
From S2P Require Import Prelude Layout User UserSpec Calls CallsSpec Ls.

(** ** The generator *)

Definition do_rand (ctx : Z) : Z :=
  let x := ctx mod 0x7ffffffe + 1 in
  let hi := x / 127773 in
  let lo := x mod 127773 in
  let x := 16807 * lo - 2836 * hi in
  let x := if x <? 0 then x + 0x7fffffff else x in
  x - 1.

(** ** go() *)

(** The variables of go() and the generator's state: the static buffer of 999
    bytes is [g_buf]. *)
Record grind : Type := mkGrind {
  g_fd : Z;
  g_buf : list Z;
  g_iters : Z;
  rand_next : Z;
}.
#[export] Instance upd_g_fd : Field g_fd := fun f r => mkGrind (f (g_fd r)) (g_buf r) (g_iters r) (rand_next r).
#[export] Instance upd_g_buf : Field g_buf := fun f r => mkGrind (g_fd r) (f (g_buf r)) (g_iters r) (rand_next r).

(** An array after [data] was stored at its index [i]. *)
Definition stored (i : nat) (data buf : list Z) : list Z := take i buf ++ data ++ drop (i + length data) buf.

Section Grind.
Context (os : history -> call -> reply).

Definition call_ (c : call) : C unit := call1 os c ;; ret tt.

(** printf("...\n"); exit(status); *)
Definition fail_with {A} (fd : Z) (msg : string) (status : Z) : C A :=
  cprintf os fd (bytes msg ++ nl) [] ;;
  cexit status.

(** close(open(path, O_CREATE|O_RDWR)); *)
Definition rdwr (path : string) : call := COpen (bytes path) (Z.lor O_CREATE O_RDWR).
Definition touch (path : string) : C unit := let* fd := call1 os (rdwr path) in call_ (CClose fd).

(** int pid = fork(); if(pid == 0){ child } else if(pid < 0){ printf, exit } *)
Definition fork_child (out status : Z) (child : C Z) : C Z :=
  let* pid := call1 os CFork in
  if pid =? 0 then child
  else if pid <? 0 then fail_with out "grind: fork failed" status
  else ret pid.

Definition pipe_or (out : Z) : C (Z * Z) :=
  let* r := calls os CPipe in
  if r.1 <? 0 then fail_with out "grind: pipe failed" 1
  else match r.2 with [a; b] => ret (a, b) | _ => fault end.

(** chdir("grindir") or exit *)
Definition chdir_or (dir msg : string) : C unit :=
  let* r := call1 os (CChdir (bytes dir)) in
  when negb (r =? 0) do fail_with 1 msg 1.

Definition go_19 : C unit :=
  let* fds := pipe_or 1 in
  fork_child 1 1
    (call_ CFork ;;
     call_ CFork ;;
     let* w := call1 os (CWrite fds.2 (bytes "x")) in
     (when negb (w =? 1) do cprintf os 1 (bytes "grind: pipe write failed" ++ nl) []) ;;
     let* r := call1 os (CRead fds.1 1) in
     (when negb (r =? 1) do cprintf os 1 (bytes "grind: pipe read failed" ++ nl) []) ;;
     cexit 0) ;;
  call_ (CClose fds.1) ;;
  call_ (CClose fds.2) ;;
  call_ (CWait false).

Definition go_20 : C unit :=
  fork_child 1 1
    (call_ (CUnlink (bytes "a")) ;;
     call_ (CMkdir (bytes "a")) ;;
     call_ (CChdir (bytes "a")) ;;
     call_ (CUnlink (bytes "../a")) ;;
     call_ (rdwr "x") ;;
     call_ (CUnlink (bytes "x")) ;;
     cexit 0) ;;
  call_ (CWait false).

Definition go_21 : C unit :=
  call_ (CUnlink (bytes "c")) ;;
  let* fd1 := call1 os (rdwr "c") in
  (when fd1 <? 0 do fail_with 1 "grind: create c failed" 1) ;;
  let* w := call1 os (CWrite fd1 (bytes "x")) in
  (when negb (w =? 1) do fail_with 1 "grind: write c failed" 1) ;;
  let* st := calls os (CFstat fd1) in
  (when negb (st.1 =? 0) do fail_with 1 "grind: fstat failed" 1) ;;
  match st.2 with
  | [dev; ino; type; nlink; size] =>
      (when negb (size =? 1) do
        (cprintf os 1 (bytes "grind: fstat reports wrong size %d" ++ nl) [UInt (i32 size)] ;; cexit 1)) ;;
      (when 200 <? ino do
        (cprintf os 1 (bytes "grind: fstat reports crazy i-number %d" ++ nl) [UInt (i32 ino)] ;; cexit 1)) ;;
      call_ (CClose fd1) ;;
      call_ (CUnlink (bytes "c"))
  | _ => fault
  end.

(** dup(old) != new *)
Definition dup_or (old new status : Z) : C unit :=
  let* r := call1 os (CDup old) in
  when negb (r =? new) do fail_with 2 "grind: dup failed" status.

Definition go_22_echo (aa bb : Z * Z) : C Z :=
  call_ (CClose bb.1) ;;
  call_ (CClose bb.2) ;;
  call_ (CClose aa.1) ;;
  call_ (CClose 1) ;;
  dup_or aa.2 1 1 ;;
  call_ (CClose aa.2) ;;
  cexec os (bytes "grindir/../echo") [bytes "echo"; bytes "hi"] ;;
  fail_with 2 "grind: echo: not found" 2.

Definition go_22_cat (aa bb : Z * Z) : C Z :=
  call_ (CClose aa.2) ;;
  call_ (CClose bb.1) ;;
  call_ (CClose 0) ;;
  dup_or aa.1 0 4 ;;
  call_ (CClose aa.1) ;;
  call_ (CClose 1) ;;
  dup_or bb.2 1 5 ;;
  call_ (CClose bb.2) ;;
  cexec os (bytes "/cat") [bytes "cat"] ;;
  fail_with 2 "grind: cat: not found" 6.

(** read(bb[0], buf+i, 1) *)
Definition read1 (fd : Z) (i : nat) (buf : list Z) : C (list Z) :=
  let* r := calls os (CRead fd 1) in
  ret (stored i (take 1 r.2) buf).

Definition read_3 (bb : Z * Z) : C (list Z) :=
  call_ (CClose bb.2) ;;
  let* buf := read1 bb.1 0 [0; 0; 0; 0] in
  let* buf := read1 bb.1 1 buf in
  read1 bb.1 2 buf.

(** strcmp(buf, "hi\n") != 0 tells whether the strings differ. *)
Definition go_22 : C unit :=
  let* aa := pipe_or 2 in
  let* bb := pipe_or 2 in
  fork_child 2 3 (go_22_echo aa bb) ;;
  fork_child 2 7 (go_22_cat aa bb) ;;
  call_ (CClose aa.1) ;;
  call_ (CClose aa.2) ;;
  let* buf := read_3 bb in
  call_ (CClose bb.1) ;;
  let* w1 := calls os (CWait true) in
  let* w2 := calls os (CWait true) in
  match w1.2, w2.2 with
  | [st1], [st2] =>
      when negb (st1 =? 0) || negb (st2 =? 0) || negb (bool_decide (until_nul buf = bytes "hi" ++ nl)) do
        (cprintf os 1 (bytes "grind: exec pipeline failed %d %d " ++ [34] ++ bytes "%s" ++ [34] ++ nl) [UInt st1; UInt st2; UStr (Some (until_nul buf))] ;;
         cexit 1)
  | _, _ => fault
  end.

(** One round of the loop, for [what]. *)
Definition go_what (what break0 : Z) (g : grind) : C grind :=
  let same (m : C unit) : C grind := m ;; ret g in
  if what =? 1 then same (touch "grindir/../a")
  else if what =? 2 then same (touch "grindir/../grindir/../b")
  else if what =? 3 then same (call_ (CUnlink (bytes "grindir/../a")))
  else if what =? 4 then same
    (chdir_or "grindir" "grind: chdir grindir failed" ;;
     call_ (CUnlink (bytes "../b")) ;;
     call_ (CChdir (bytes "/")))
  else if what =? 5 then
    call_ (CClose (g_fd g)) ;;
    let* fd := call1 os (rdwr "/grindir/../a") in
    ret (g <| g_fd := fd |>)
  else if what =? 6 then
    call_ (CClose (g_fd g)) ;;
    let* fd := call1 os (rdwr "/./grindir/./../b") in
    ret (g <| g_fd := fd |>)
  else if what =? 7 then same (call_ (CWrite (g_fd g) (g_buf g)))
  else if what =? 8 then
    let* r := calls os (CRead (g_fd g) 999) in
    ret (g <| g_buf ::= stored 0 (take 999 r.2) |>)
  else if what =? 9 then same
    (call_ (CMkdir (bytes "grindir/../a")) ;;
     touch "a/../a/./a" ;;
     call_ (CUnlink (bytes "a/a")))
  else if what =? 10 then same
    (call_ (CMkdir (bytes "/../b")) ;;
     touch "grindir/../b/b" ;;
     call_ (CUnlink (bytes "b/b")))
  else if what =? 11 then same
    (call_ (CUnlink (bytes "b")) ;;
     call_ (CLink (bytes "../grindir/./../a") (bytes "../b")))
  else if what =? 12 then same
    (call_ (CUnlink (bytes "../grindir/../a")) ;;
     call_ (CLink (bytes ".././b") (bytes "/grindir/../a")))
  else if what =? 13 then same
    (fork_child 1 1 (cexit 0) ;;
     call_ (CWait false))
  else if what =? 14 then same
    (fork_child 1 1 (call_ CFork ;; call_ CFork ;; cexit 0) ;;
     call_ (CWait false))
  else if what =? 15 then same (call_ (CSbrk 6011))
  else if what =? 16 then same
    (let* b := call1 os (CSbrk 0) in
     when break0 <? u64 b do
       (let* b := call1 os (CSbrk 0) in
        call_ (CSbrk (i32 (- (u64 b - break0))))))
  else if what =? 17 then same
    (let* pid := fork_child 1 1 (touch "a" ;; cexit 0) in
     chdir_or "../grindir/.." "grind: chdir failed" ;;
     call_ (CKill pid) ;;
     call_ (CWait false))
  else if what =? 18 then same
    (fork_child 1 1 (let* pid := call1 os CGetpid in call_ (CKill pid) ;; cexit 0) ;;
     call_ (CWait false))
  else if what =? 19 then same go_19
  else if what =? 20 then same go_20
  else if what =? 21 then same go_21
  else if what =? 22 then same go_22
  else ret g.

Fixpoint go_loop (fuel : nat) (which_child break0 : Z) (g : grind) : C unit :=
  match fuel with
  | O => diverge
  | S f =>
      let iters := u64 (g_iters g + 1) in
      (when iters mod 500 =? 0 do call_ (CWrite 1 (bytes (if which_child =? 0 then "A" else "B")))) ;;
      let x := do_rand (rand_next g) in
      let* g := go_what (x mod 23) break0 (mkGrind (g_fd g) (g_buf g) iters x) in
      go_loop f which_child break0 g
  end.

Definition go (fuel : nat) (which_child rand_next : Z) : C unit :=
  let* break0 := call1 os (CSbrk 0) in
  call_ (CMkdir (bytes "grindir")) ;;
  chdir_or "grindir" "grind: chdir grindir failed" ;;
  call_ (CChdir (bytes "/")) ;;
  go_loop fuel which_child (u64 break0) (mkGrind (-1) (replicate 999 0) 0 rand_next).

(** ** iter() and main() *)

Definition iter (fuel : nat) (rand_next : Z) : C unit :=
  call_ (CUnlink (bytes "a")) ;;
  call_ (CUnlink (bytes "b")) ;;
  let* pid1 := call1 os CFork in
  (when pid1 <? 0 do fail_with 1 "grind: fork failed" 1) ;;
  (when pid1 =? 0 do (go fuel 0 (Z.lxor rand_next 31) ;; cexit 0)) ;;
  let* pid2 := call1 os CFork in
  (when pid2 <? 0 do fail_with 1 "grind: fork failed" 1) ;;
  (when pid2 =? 0 do (go fuel 1 (Z.lxor rand_next 7177) ;; cexit 0)) ;;
  let* w := calls os (CWait true) in
  let st1 := hd (-1) w.2 in
  (when negb (st1 =? 0) do
    (call_ (CKill pid1) ;;
     call_ (CKill pid2))) ;;
  call_ (CWait true) ;;
  cexit 0.

Fixpoint main_loop (fuel : nat) (rand_next : Z) : C unit :=
  match fuel with
  | O => diverge
  | S f =>
      let* pid := call1 os CFork in
      (when pid =? 0 do (iter f rand_next ;; cexit 0)) ;;
      (when 0 <? pid do call_ (CWait false)) ;;
      call_ (CSleep 20) ;;
      main_loop f (u64 (rand_next + 1))
  end.

Definition main (fuel : nat) : C unit := main_loop fuel 1.
End Grind.

(** ** The generator *)

Lemma park_miller_nonzero x : 1 <= x <= 0x7ffffffe -> 16807 * x mod 0x7fffffff <> 0.
Proof.
  intros Hx E. apply Z.mod_divide in E; [|lia]. apply Z.gauss in E; [|done]. destruct E as [k ->]. lia.
Qed.

(** do_rand() is x -> 7^5 x mod (2^31 - 1) on the numbers 1 to 2^31 - 2, kept one
    less, and the numbers it works with stay within 31 bits. *)
Theorem do_rand_spec ctx : 0 <= ctx ->
  let x := ctx mod 0x7ffffffe + 1 in
  do_rand ctx + 1 = 7 ^ 5 * x mod (2 ^ 31 - 1) /\ 0 <= do_rand ctx <= 0x7ffffffd /\
  0 <= 16807 * (x mod 127773) < 2 ^ 31 /\ 0 <= 2836 * (x / 127773) < 2 ^ 31.
Proof.
  intros Hc x. assert (1 <= x <= 0x7ffffffe) as Hx by (unfold x; pose proof (Z.mod_pos_bound ctx 0x7ffffffe ltac:(lia)); lia).
  pose proof (park_miller_nonzero x Hx) as Hn. pose proof (Z.div_mod x 127773 ltac:(lia)) as Hd. pose proof (Z.mod_pos_bound x 127773 ltac:(lia)) as Hm.
  assert (0 <= x / 127773 < 16808) by (split; [apply Z.div_pos; lia|apply Z.div_lt_upper_bound; lia]).
  unfold do_rand. fold x. set (hi := x / 127773) in *. set (lo := x mod 127773) in *.
  change (7 ^ 5) with 16807. change (2 ^ 31 - 1) with 0x7fffffff.
  assert (16807 * x mod 0x7fffffff = (16807 * lo - 2836 * hi) mod 0x7fffffff) as E.
  { rewrite Hd. replace (16807 * (127773 * hi + lo)) with (16807 * lo - 2836 * hi + hi * 0x7fffffff) by lia. apply Z.mod_add. lia. }
  rewrite E in *. destruct (Z.ltb_spec (16807 * lo - 2836 * hi) 0) as [H0|H0].
  - rewrite <- (Z.mod_add _ 1) in Hn |- * by lia. rewrite Z.mod_small in Hn |- * by lia. lia.
  - rewrite Z.mod_small in Hn |- * by lia. lia.
Qed.

(** ** go() *)

(** What the calls should do, as go() sees them in the parent. *)
Definition good (c : call) (r : reply) : Prop :=
  match c with
  | CFork => 0 < r.1
  | CChdir _ => r.1 = 0
  | CPipe => 0 <= r.1 /\ exists a b, r.2 = [a; b]
  | COpen _ _ => 0 <= r.1
  | CWrite _ data => r.1 = Z.of_nat (length data)
  | CFstat _ => r.1 = 0 /\ exists dev ino type nlink, r.2 = [dev; ino; type; nlink; 1] /\ ino <= 200
  | CWait true => r.2 = [0]
  | _ => True
  end.

(** The three bytes read after a close() are the output of echo hi. *)
Definition pipeline (os : history -> call -> reply) : Prop := forall h fd' r fd,
  let h0 := h ++ [(CClose fd', r)] in
  let r1 := os h0 (CRead fd 1) in
  let h1 := h0 ++ [(CRead fd 1, r1)] in
  let r2 := os h1 (CRead fd 1) in
  let h2 := h1 ++ [(CRead fd 1, r2)] in
  take 1 r1.2 = [chr "h"] /\ take 1 r2.2 = [chr "i"] /\ take 1 (os h2 (CRead fd 1)).2 = nl.

Section Good.
Context (os : history -> call -> reply).
Hypothesis Hgood : forall h c, good c (os h c).
Hypothesis Hpipe : pipeline os.

Lemma call_ok c s : call_ os c s = Ok tt (more [(c, os (c_hist s) c)] s).
Proof. done. Qed.

Lemma read1_ok fd i buf s r c : os (c_hist s) (CRead fd 1) = r -> take 1 r.2 = [c] ->
  read1 os fd i buf s = Ok (stored i [c] buf) (more [(CRead fd 1, r)] s).
Proof. intros <- E. unfold read1, bind, calls. by rewrite E. Qed.

(** A call that opens and closes nothing. *)
Definition neutral (c : call) : bool := match c with COpen _ _ | CDup _ | CPipe | CClose _ => false | _ => true end.

Lemma keeps_calls c : neutral c = true -> keeps (good c) (calls os c).
Proof. intros H. apply triple_calls; [intros h; apply Hgood|]. intros r l _. by destruct c. Qed.

Lemma keeps_call1 c (Q : Z -> Prop) : neutral c = true -> (forall h, Q (os h c).1) -> keeps Q (call1 os c).
Proof. intros H HQ. apply triple_call1; [exact HQ|]. intros r l _. by destruct c. Qed.

Lemma keeps_call c : neutral c = true -> keeps fine (call_ os c).
Proof. intros H. apply (triple_keeps ∅ fine); [by apply keeps_call1|]. intros; by apply keeps_ret. Qed.

Lemma close_call fd : triple (own fd) (call_ os (CClose fd)) fine (fun _ => ∅).
Proof. eapply triple_bind; [apply close_rule|]. intros; by apply keeps_ret. Qed.

Lemma keeps_touch path : keeps fine (touch os path).
Proof. eapply triple_bind; [apply open_rule|]. intros fd _. apply close_call. Qed.

Lemma keeps_fork out status child : keeps (fun pid => 0 < pid) (fork_child os out status child).
Proof.
  apply (triple_keeps ∅ (fun pid => 0 < pid)); [apply keeps_call1; [done|]; intros h; apply (Hgood h CFork)|].
  intros pid Hp. rewrite (proj2 (Z.eqb_neq pid 0)), (proj2 (Z.ltb_ge pid 0)) by lia. by apply keeps_ret.
Qed.

Lemma keeps_chdir dir msg : keeps fine (chdir_or os dir msg).
Proof.
  apply (triple_keeps ∅ (fun r => r = 0)); [apply keeps_call1; [done|]; intros h; apply (Hgood h (CChdir (bytes dir)))|].
  intros r ->. by apply keeps_ret.
Qed.

Lemma pipe_rule out : triple ∅ (pipe_or os out) fine (fun p => own p.1 ⊎ own p.2).
Proof.
  eapply (triple_bind _ (good CPipe) (fun r => foldr (fun fd l => own fd ⊎ l) ∅ r.2)).
  - apply triple_calls; [intros h; apply Hgood|]. intros r l [Hr (a & b & E)]. unfold fd_step. cbn [fst snd].
    rewrite (proj2 (Z.ltb_ge r.1 0)) by lia. rewrite E. cbn [foldr]. multiset_solver.
  - intros r [Hr (a & b & E)]. rewrite (proj2 (Z.ltb_ge r.1 0)) by lia. rewrite E. cbn [foldr].
    eapply triple_mono; [apply (triple_ret fine (fun p : Z * Z => own p.1 ⊎ own p.2) (a, b) I)| |done]. cbn [fst snd]. multiset_solver.
Qed.

(** Steps of a proof that a program keeps its descriptors. *)
Ltac keep :=
  match goal with
  | |- triple ?e (call_ os (CClose ?fd) ;; _)%M _ _ => fail 1
  | |- triple _ (call_ os _ ;; _)%M _ _ => apply (triple_keeps _ fine); [by apply keeps_call|intros ? _]
  | |- triple _ (touch os _ ;; _)%M _ _ => apply (triple_keeps _ fine); [apply keeps_touch|intros ? _]
  | |- triple _ (chdir_or os _ _ ;; _)%M _ _ => apply (triple_keeps _ fine); [apply keeps_chdir|intros ? _]
  | |- triple _ (bind (fork_child os _ _ _) _) _ _ => apply (triple_keeps _ (fun pid => 0 < pid)); [apply keeps_fork|intros ? ?]
  | |- triple ∅ (call_ os _) _ (fun _ => ∅) => by apply keeps_call
  | |- triple ∅ (chdir_or os _ _) _ (fun _ => ∅) => apply keeps_chdir
  | |- triple ∅ (touch os _) _ (fun _ => ∅) => apply keeps_touch
  | |- triple ∅ (ret _) _ (fun _ => ∅) => by apply keeps_ret
  end.

(** Closing one of the descriptors owned. *)
Lemma close_one {A} e f fd (k : unit -> C A) Q d :
  e = own fd ⊎ f -> triple f (k tt) Q d -> triple e (bind (call_ os (CClose fd)) k) Q d.
Proof.
  intros -> Hk. eapply triple_bind; [apply (triple_frame f), close_call|]. intros [] _.
  eapply triple_mono; [exact Hk|multiset_solver|done].
Qed.

Lemma keeps_19 : keeps fine (go_19 os).
Proof.
  eapply triple_bind; [apply pipe_rule|]. intros [a b] _. cbn [fst snd]. keep.
  apply (close_one _ (own b)); [done|]. apply (close_one _ ∅); [multiset_solver|]. keep.
Qed.

Lemma keeps_21 : keeps fine (go_21 os).
Proof.
  unfold go_21. keep. eapply (triple_bind _ (fun fd => 0 <= fd)); [apply (triple_call1 os (rdwr "c") (fun fd => 0 <= fd) ∅ own)|].
  - intros h. apply (Hgood h (rdwr "c")).
  - intros r l _. unfold fd_step. cbn [fst snd rdwr]. multiset_solver.
  - intros fd Hfd. rewrite (proj2 (Z.ltb_ge fd 0)) by done. apply (triple_keeps _ fine); [by apply keeps_ret|intros _ _].
    apply (triple_keeps _ (fun w => w = 1)); [apply keeps_call1; [done|]; intros h; apply (Hgood h (CWrite fd (bytes "x")))|intros w ->].
    apply (triple_keeps _ fine); [by apply keeps_ret|intros _ _].
    apply (triple_keeps _ (good (CFstat fd))); [by apply keeps_calls|]. intros st (H0 & dev & ino & type & nlink & E & Hi). rewrite H0, E.
    rewrite (proj2 (Z.ltb_ge 200 ino)) by done. do 3 (apply (triple_keeps _ fine); [by apply keeps_ret|intros _ _]).
    apply (close_one _ ∅); [multiset_solver|]. keep.
Qed.

Lemma read_3_rule bb : triple (own bb.2) (read_3 os bb) (fun buf => until_nul buf = bytes "hi" ++ nl) (fun _ => ∅).
Proof.
  intros s. set (q := os (c_hist s) (CClose bb.2)). destruct (Hpipe (c_hist s) bb.2 q bb.1) as (E1 & E2 & E3).
  cbv zeta in *. set (c0 := (CClose bb.2, q)) in *. set (r1 := os (c_hist s ++ [c0]) _) in *. set (c1 := (CRead bb.1 1, r1)) in *.
  set (r2 := os ((c_hist s ++ [c0]) ++ [c1]) _) in *. set (c2 := (CRead bb.1 1, r2)) in *. set (r3 := os (((c_hist s ++ [c0]) ++ [c1]) ++ [c2]) _) in *.
  exists (bytes "hi" ++ nl ++ [0]), ([c0] ++ [c1] ++ [c2] ++ [(CRead bb.1 1, r3)]). split_and!; [|done|].
  - unfold read_3. run (call_ok (CClose bb.2) s). run (read1_ok bb.1 0 [0; 0; 0; 0] (more [c0] s) r1 _ eq_refl E1).
    run (read1_ok bb.1 1 (stored 0 [chr "h"] [0; 0; 0; 0]) (more [c1] (more [c0] s)) r2 _ eq_refl E2).
    rewrite (read1_ok bb.1 2 _ (more [c2] (more [c1] (more [c0] s))) r3 _ eq_refl E3), !more_more. by rewrite <- ?app_assoc.
  - intros l. change (open_fds _ (own bb.2 ⊎ l)) with ((own bb.2 ⊎ l) ∖ own bb.2). multiset_solver.
Qed.

Lemma keeps_22 : keeps fine (go_22 os).
Proof.
  eapply triple_bind; [apply pipe_rule|]. intros [a a'] _. cbn [fst snd].
  eapply triple_bind; [eapply triple_mono; [apply (triple_frame (own a ⊎ own a')), (pipe_rule 2)|multiset_solver|done]|]. intros [b b'] _. cbn [fst snd].
  do 2 keep. apply (close_one _ (own b ⊎ own b' ⊎ own a')); [multiset_solver|]. apply (close_one _ (own b' ⊎ own b)); [multiset_solver|].
  eapply triple_bind; [apply (triple_frame (own b)), (read_3_rule (b, b'))|]. intros buf E. cbn [fst snd].
  apply (close_one _ ∅); [multiset_solver|]. apply (triple_keeps _ (good (CWait true))); [by apply keeps_calls|]. intros w1 E1.
  apply (triple_keeps _ (good (CWait true))); [by apply keeps_calls|]. intros w2 E2. rewrite E1, E2, E, bool_decide_true by done. by apply keeps_ret.
Qed.

Definition go_post (g : grind) : gmultiset Z := own (g_fd g).

Lemma go_ret e g : e = go_post g -> triple e (ret g) fine go_post.
Proof. intros ->. by apply (triple_ret fine go_post). Qed.

Lemma same_rule (m : C unit) g : keeps fine m -> triple (go_post g) (m ;; ret g)%M fine go_post.
Proof. intros H. apply (triple_keeps _ fine); [done|]. intros _ _. by apply go_ret. Qed.

Lemma reopen_rule path g : triple (go_post g) (call_ os (CClose (g_fd g)) ;; let* fd := call1 os (rdwr path) in ret (g <| g_fd := fd |>))%M fine go_post.
Proof.
  apply (close_one _ ∅); [unfold go_post; multiset_solver|]. eapply triple_bind; [apply open_rule|]. intros fd _.
  by apply go_ret.
Qed.

Lemma go_what_rule what break0 g : triple (go_post g) (go_what os what break0 g) fine go_post.
Proof.
  unfold go_what. repeat (case_match; [first
    [apply same_rule; first [apply keeps_19|apply keeps_21|apply keeps_22|by repeat keep|idtac] | apply reopen_rule | idtac]|]).
  all: try by apply go_ret.
  - apply (triple_keeps _ fine); [by apply triple_calls|]. intros r _. by apply go_ret.
  - apply (triple_keeps _ fine); [by apply keeps_call1|]. intros b _. case_match; [|by apply keeps_ret].
    apply (triple_keeps _ fine); [by apply keeps_call1|]. intros b' _. by apply keeps_call.
  - unfold go_20. by repeat keep.
Qed.

Lemma go_loop_ok fuel which break0 : forall g s, exists g' h,
  go_loop os fuel which break0 g s = Diverge (more h s) /\ forall l, open_fds h (go_post g ⊎ l) = go_post g' ⊎ l.
Proof.
  induction fuel as [|f IH]; intros g s; cbn [go_loop]; [exists g, []; by rewrite more_nil|].
  set (g1 := mkGrind (g_fd g) _ _ _).
  assert (forall m : C unit, keeps fine m -> triple (go_post g) (m ;; go_what os (do_rand (rand_next g) mod 23) break0 g1)%M fine go_post) as H.
  { intros m Hm. apply (triple_keeps _ fine); [done|]. intros _ _. exact (go_what_rule _ break0 g1). }
  rewrite <- bind_assoc. edestruct H as (g2 & h & E & _ & Hh); [|run E].
  - case_match; [by apply keeps_call|by apply keeps_ret].
  - destruct (IH g2 (more h s)) as (g' & h' & E' & Hh'). exists g', (h ++ h'). rewrite E', more_more. split; [done|].
    intros l. by rewrite open_fds_app, Hh, Hh'.
Qed.

(** As long as the calls do what they should, go() runs on for any number of
    rounds: it does not exit, and of the descriptors it opened it holds at most
    the one in its variable fd. *)
Theorem go_runs fuel which rand : exists h fd,
  go os fuel which rand fresh = Diverge (mkCaller h None) /\ open_fds h ∅ = own fd.
Proof.
  unfold go. run (call1_ok os (CSbrk 0) fresh). set (s1 := more _ fresh). set (break0 := u64 _). rewrite <- !bind_assoc.
  set (prep := (call_ os _ ;; chdir_or os _ _)%M). assert (keeps fine (prep ;; call_ os (CChdir (bytes "/")))%M) as H.
  { apply (triple_keeps _ fine); [unfold prep; by repeat keep|]. intros _ _. keep. }
  destruct (H s1) as ([] & h & E & _ & Hh). run E. set (g := mkGrind (-1) _ _ _).
  destruct (go_loop_ok fuel which break0 g (more h s1)) as (g' & h' & -> & Hh'). unfold s1. rewrite !more_more.
  eexists _, (g_fd g'). split; [done|]. rewrite !open_fds_app. set (l0 := open_fds [_] _). assert (l0 = ∅) as -> by done.
  specialize (Hh ∅). specialize (Hh' ∅). rewrite !(right_id_L ∅ (⊎)) in Hh. rewrite !(right_id_L ∅ (⊎)) in Hh'. rewrite Hh. exact Hh'.
Qed.
End Good.
