(* ===== verification/Usertests.v ===== *)
(** user/usertests.c: the driver of the tests, run() to main().  The tests are
    programs that the driver is given; each runs in a child process.  The driver
    exits with status 0 just when every test chosen was run and succeeded and no
    page of memory was lost. *)

From S2P Require Import Prelude Layout User UserSpec Calls CallsSpec.

(** ** The driver *)

Abbreviation tests := (list (list Z * (list Z -> C unit))).

Section Driver.
Context (os : history -> call -> reply).

Definition say (text : string) : C unit := cprintf os 1 (bytes text ++ nl) [].

Definition run (f : list Z -> C unit) (s : list Z) : C bool :=
  cprintf os 1 (bytes "test %s: ") [UStr (Some s)] ;;
  let* pid := call1 os CFork in
  (when pid <? 0 do
    (say "runtest: fork error" ;;
     cexit 1)) ;;
  if pid =? 0 then f s ;; cexit 0
  else
    let* w := calls os (CWait true) in
    match w.2 with
    | [xstatus] =>
        (if negb (xstatus =? 0) then say "FAILED" else say "OK") ;;
        ret (xstatus =? 0)
    | _ => fault
    end.

(** strcmp(t->s, justone) == 0 *)
Definition chosen (justone : option (list Z)) (name : list Z) : bool :=
  match justone with None => true | Some x => bool_decide (name = x) end.

Fixpoint runtests (tests : tests) (justone : option (list Z)) : C Z :=
  match tests with
  | [] => ret 0
  | (s, f) :: rest =>
      if chosen justone s then
        let* r := run f s in
        if negb r then
          say "SOME TESTS FAILED" ;;
          ret 1
        else runtests rest justone
      else runtests rest justone
  end.

(** The child of countfree(): it also writes into the page it got. *)
Fixpoint countfree_child (fuel : nat) (fd : Z) : C unit :=
  match fuel with
  | O => diverge
  | S k =>
      let* a := call1 os (CSbrk 4096) in
      if u64 a =? 0xffffffffffffffff then ret tt
      else
        let* w := call1 os (CWrite fd (bytes "x")) in
        (when negb (w =? 1) do
          (say "write() failed in countfree()" ;;
           cexit 1)) ;;
        countfree_child k fd
  end.

Fixpoint countfree_loop (fuel : nat) (fd n : Z) : C Z :=
  match fuel with
  | O => diverge
  | S k =>
      let* cc := call1 os (CRead fd 1) in
      (when cc <? 0 do
        (say "read() failed in countfree()" ;;
         cexit 1)) ;;
      if cc =? 0 then ret n else countfree_loop k fd (i32 (n + 1))
  end.

Definition countfree (fuel : nat) : C Z :=
  let* r := calls os CPipe in
  (when r.1 <? 0 do
    (say "pipe() failed in countfree()" ;;
     cexit 1)) ;;
  match r.2 with
  | [fd0; fd1] =>
      let* pid := call1 os CFork in
      (when pid <? 0 do
        (say "fork failed in countfree()" ;;
         cexit 1)) ;;
      (when pid =? 0 do
        (call1 os (CClose fd0) ;;
         countfree_child fuel fd1 ;;
         cexit 0)) ;;
      call1 os (CClose fd1) ;;
      let* n := countfree_loop fuel fd0 0 in
      call1 os (CClose fd0) ;;
      call1 os (CWait false) ;;
      ret n
  | _ => fault
  end.

Context (quicktests slowtests : tests).

(** One round of the do loop: [Some v] when it returns [v]. *)
Definition drive_round (fuel : nat) (quick : bool) (continuous : Z) (justone : option (list Z)) : C (option Z) :=
  say "usertests starting" ;;
  let* free0 := countfree fuel in
  let* q := runtests quicktests justone in
  if negb (q =? 0) && negb (continuous =? 2) then ret (Some 1)
  else
    let* sl :=
      (if negb quick then
         (when bool_decide (justone = None) do say "usertests slow tests starting") ;;
         runtests slowtests justone
       else ret 0) in
    if negb (sl =? 0) && negb (continuous =? 2) then ret (Some 1)
    else
      let* free1 := countfree fuel in
      if free1 <? free0 then
        cprintf os 1 (bytes "FAILED -- lost some free pages %d (out of %d)" ++ nl) [UInt free1; UInt free0] ;;
        ret (if negb (continuous =? 2) then Some 1 else None)
      else ret None.

Fixpoint drivetests (rounds fuel : nat) (quick : bool) (continuous : Z) (justone : option (list Z)) : C Z :=
  match rounds with
  | O => diverge
  | S k =>
      let* r := drive_round fuel quick continuous justone in
      match r with
      | Some v => ret v
      | None => if continuous =? 0 then ret 0 else drivetests k fuel quick continuous justone
      end
  end.

(** main() after it has looked at its arguments. *)
Definition usertests_drive (rounds fuel : nat) (quick : bool) (continuous : Z) (justone : option (list Z)) : C unit :=
  let* r := drivetests rounds fuel quick continuous justone in
  (when negb (r =? 0) do cexit 1) ;;
  say "ALL TESTS PASSED" ;;
  cexit 0.

Definition usertests_main (rounds fuel : nat) (argv : list (list Z)) : C unit :=
  match argv with
  | [] | [_] => usertests_drive rounds fuel false 0 None
  | [_; a] =>
      if bool_decide (a = bytes "-q") then usertests_drive rounds fuel true 0 None
      else if bool_decide (a = bytes "-c") then usertests_drive rounds fuel false 1 None
      else if bool_decide (a = bytes "-C") then usertests_drive rounds fuel false 2 None
      else if negb (hd 0 a =? chr "-") then usertests_drive rounds fuel false 0 (Some a)
      else say "Usage: usertests [-c] [-C] [-q] [testname]" ;; cexit 1
  | _ => say "Usage: usertests [-c] [-C] [-q] [testname]" ;; cexit 1
  end.
End Driver.

(** ** Its verdict *)

(** A program that runs to its end, with what is known of its result and of the
    calls it made. *)
Definition does {A} (m : C A) (Q : A -> history -> Prop) : Prop := forall s, exists a h, m s = Ok a (more h s) /\ Q a h.

Lemma does_ret {A} (a : A) (Q : A -> history -> Prop) : Q a [] -> does (ret a) Q.
Proof. intros H s. exists a, []. by rewrite more_nil. Qed.

Lemma does_bind {A B} (m : C A) (f : A -> C B) Q R :
  does m Q -> (forall a h, Q a h -> does (f a) (fun b h' => R b (h ++ h'))) -> does (bind m f) R.
Proof.
  intros Hm Hf s. destruct (Hm s) as (a & h & E & Ha). run E. destruct (Hf a h Ha (more h s)) as (b & h' & E' & Hb).
  exists b, (h ++ h'). by rewrite E', more_more.
Qed.

Lemma does_mono {A} (m : C A) (Q R : A -> history -> Prop) : does m Q -> (forall a h, Q a h -> R a h) -> does m R.
Proof. intros H HQ s. destruct (H s) as (a & h & E & Ha). exists a, h. split; [done|by apply HQ]. Qed.

(** The statuses of the tests, and the pages counted. *)
Definition statuses (h : history) : list Z := omap (fun x => match x.1 with CWait true => head x.2.2 | _ => None end) h.
Definition pages (h : history) : nat := length (filter (fun x => match x.1 with CRead _ _ => 0 <? x.2.1 | _ => false end = true) h).

Lemma statuses_app a b : statuses (a ++ b) = statuses a ++ statuses b.
Proof. apply omap_app. Qed.

Lemma pages_app a b : pages (a ++ b) = (pages a + pages b)%nat.
Proof. unfold pages. by rewrite filter_app, length_app. Qed.

(** The calls wait(0), with which countfree() ends. *)
Definition ends (h : history) : nat := length (filter (fun x => match x.1 with CWait false => true | _ => false end = true) h).

Lemma ends_app a b : ends (a ++ b) = (ends a + ends b)%nat.
Proof. unfold ends. by rewrite filter_app, length_app. Qed.

(** Calls that neither wait nor count a page. *)
Definition quiet (h : history) : Prop := statuses h = [] /\ pages h = O /\ ends h = O.

Lemma quiet_app a b : quiet a -> quiet b -> quiet (a ++ b).
Proof. intros (Sa & Pa & Ea) (Sb & Pb & Eb). unfold quiet. by rewrite statuses_app, pages_app, ends_app, Sa, Sb, Pa, Pb, Ea, Eb. Qed.

Section Verdict.
Context (os : history -> call -> reply) (n : nat).
(** fork() and pipe() work, wait() stores a status, and read() does not fail and
    ends after at most [n] bytes. *)
Hypothesis Hn : Z.of_nat n < 2 ^ 31.
Hypothesis Hfork : forall h, 0 < (os h CFork).1.
Hypothesis Hpipe : forall h, 0 <= (os h CPipe).1 /\ exists a b, (os h CPipe).2 = [a; b].
Hypothesis Hwait : forall h, exists st, (os h (CWait true)).2 = [st].
Hypothesis Hread : forall h fd, 0 <= (os h (CRead fd 1)).1 /\ ((n <= pages h)%nat -> (os h (CRead fd 1)).1 = 0).

(** A call that is neither a read() nor a wait(). *)
Definition mute (c : call) : bool := match c with CRead _ _ | CWait _ => false | _ => true end.

Lemma does_call c (Q : Z -> Prop) : mute c = true -> (forall h, Q (os h c).1) -> does (call1 os c) (fun a h => Q a /\ quiet h).
Proof. intros Hc HQ s. eexists _, [_]. split; [done|]. split; [apply HQ|]. by destruct c. Qed.

Lemma does_printf fmt ap : fits false fmt ap = true -> does (cprintf os 1 fmt ap) (fun _ => quiet).
Proof.
  intros H. destruct (ptext_fits fmt ap H) as (text & E). unfold cprintf. rewrite E. intros s.
  destruct (cputs_ok os 1 text s) as (h & E' & Hh). exists tt, h. split; [done|]. clear - Hh. revert text Hh.
  induction h as [|[c r] h IH]; intros text Hh; [done|]. destruct text as [|x text]; [done|]. injection Hh as Hc Ht. subst c. by apply (quiet_app [_]), (IH text).
Qed.

Lemma does_say text : fits false (bytes text ++ nl) [] = true -> does (say os text) (fun _ => quiet).
Proof. apply does_printf. Qed.

(** After a part that makes only quiet calls. *)
Lemma does_quiet {A B} (m : C A) (f : A -> C B) (Q : A -> Prop) R :
  (forall b h h', quiet h -> R b h' -> R b (h ++ h')) ->
  does m (fun a h => Q a /\ quiet h) -> (forall a, Q a -> does (f a) R) -> does (bind m f) R.
Proof.
  intros HR Hm Hf. eapply does_bind; [exact Hm|]. intros a h [Ha Hh]. eapply does_mono; [by apply Hf|]. intros b h' Hb. by apply HR.
Qed.

Lemma does_quiet_u {B} (m : C unit) (f : unit -> C B) R :
  (forall b h h', quiet h -> R b h' -> R b (h ++ h')) -> does m (fun _ => quiet) -> does (f tt) R -> does (bind m f) R.
Proof.
  intros HR Hm Hf. eapply does_bind; [exact Hm|]. intros [] h Hh. eapply does_mono; [exact Hf|]. intros b h' Hb. by apply HR.
Qed.

(** The result of one test. *)
Definition ran (b : bool) (h : history) : Prop := pages h = O /\ ends h = O /\ exists st, statuses h = [st] /\ b = (st =? 0).

Lemma ran_app b h h' : quiet h -> ran b h' -> ran b (h ++ h').
Proof.
  intros (Hs & Hp & He) (Hp' & He' & st & Hs' & Hb). unfold ran. rewrite pages_app, ends_app, statuses_app, Hp, Hp', He, He', Hs. split_and!; [done|done|by exists st].
Qed.

Lemma run_ok f s : does (run os f s) ran.
Proof.
  apply does_quiet_u; [apply ran_app|by apply does_printf|]. apply (does_quiet _ _ (fun pid => 0 < pid)); [apply ran_app|by apply does_call|]. intros pid Hp.
  rewrite (proj2 (Z.ltb_ge pid 0)) by lia. apply does_quiet_u; [apply ran_app|by apply does_ret|]. rewrite (proj2 (Z.eqb_neq pid 0)) by lia.
  eapply (does_bind _ _ (fun w h => exists st, w.2 = [st] /\ statuses h = [st] /\ pages h = O /\ ends h = O)).
  - intros s'. eexists _, [_]. split; [done|]. destruct (Hwait (c_hist s')) as (st & E). exists st. split_and!; [done| |done|done]. unfold statuses. cbn. by rewrite E.
  - intros w h (st & E & Hs & Hp' & He). rewrite E. eapply does_bind; [instantiate (1 := fun _ => quiet); case_match; by apply does_say|].
    intros [] h' (Hs' & Hp'' & He'). apply does_ret. unfold ran. rewrite !app_nil_r, pages_app, ends_app, statuses_app, Hp', Hp'', He, He', Hs, Hs'.
    split_and!; [done|done|by exists st].
Qed.

(** The tests that are run. *)
Definition selected (ts : tests) (justone : option (list Z)) : tests := filter (fun t => chosen justone t.1 = true) ts.

(** All of [k] tests succeeded, or those up to one that failed were run. *)
Definition passed (k : nat) (h : history) : Prop := statuses h = replicate k 0.
Definition failed (k : nat) (h : history) : Prop := exists j st, (j < k)%nat /\ st <> 0 /\ statuses h = replicate j 0 ++ [st].
Definition verdict (k : nat) (v : Z) (h : history) : Prop := pages h = O /\ ends h = O /\ (v = 0 /\ passed k h \/ v = 1 /\ failed k h).

Lemma verdict_cons k v h h' : ran true h -> verdict k v h' -> verdict (S k) v (h ++ h').
Proof.
  intros (Hp & He & st & Hs & Hb) (Hp' & He' & H). symmetry in Hb. apply Z.eqb_eq in Hb as ->.
  split_and!; [by rewrite pages_app, Hp, Hp'|by rewrite ends_app, He, He'|]. unfold passed, failed in *. rewrite statuses_app, Hs.
  destruct H as [[-> H]|[-> (j & st & Hj & Hst & H)]]; [left|right].
  - by rewrite H.
  - split; [done|]. exists (S j), st. split_and!; [lia|done|]. by rewrite H.
Qed.

Lemma runtests_ok ts justone : does (runtests os ts justone) (verdict (length (selected ts justone))).
Proof.
  induction ts as [|[s f] ts IH]; cbn [runtests].
  - apply does_ret. split_and!; [done|done|by left].
  - unfold selected. rewrite filter_cons. cbn [fst]. destruct (chosen justone s) eqn:Hc; [|by rewrite decide_False].
    rewrite decide_True by done. cbn [length]. eapply does_bind; [apply run_ok|]. intros [] h Hr; cbn [negb].
    + eapply does_mono; [exact IH|]. intros v h' Hv. by apply verdict_cons.
    + eapply does_bind; [by apply does_say|]. intros [] h' (Hs' & Hp' & He'). apply does_ret. destruct Hr as (Hp & He & st & Hs & Hb).
      symmetry in Hb. apply Z.eqb_neq in Hb. rewrite app_nil_r. split_and!; [by rewrite pages_app, Hp, Hp'|by rewrite ends_app, He, He'|]. right. split; [done|].
      exists O, st. split_and!; [lia|done|]. by rewrite statuses_app, Hs, Hs'.
Qed.

(** countfree() counts the bytes it reads. *)
Lemma countfree_loop_ok fuel : forall fd k s, (n - pages (c_hist s) < fuel)%nat -> (k + (n - pages (c_hist s)) <= n)%nat ->
  exists h, countfree_loop os fuel fd (Z.of_nat k) s = Ok (Z.of_nat (k + pages h)) (more h s) /\ statuses h = [] /\ ends h = O.
Proof.
  induction fuel as [|fuel IH]; intros fd k s Hf Hk; [lia|]. cbn [countfree_loop]. run (call1_ok os (CRead fd 1) s).
  destruct (Hread (c_hist s) fd) as [H0 He]. set (r := os (c_hist s) (CRead fd 1)) in *. rewrite (proj2 (Z.ltb_ge r.1 0)) by lia. rewrite bind_ret.
  destruct (Z.eqb_spec r.1 0) as [E|E].
  - exists [(CRead fd 1, r)]. assert (pages [(CRead fd 1, r)] = O) as ->; [|by rewrite Nat.add_0_r].
    unfold pages. rewrite filter_cons_False; [done|]. cbn. apply not_true_iff_false, Z.ltb_ge. lia.
  - assert (pages [(CRead fd 1, r)] = 1%nat) as H1.
    { unfold pages. rewrite filter_cons_True; [done|]. cbn. apply Z.ltb_lt. lia. }
    assert (pages (c_hist s) < n)%nat as Hlt by (destruct (decide (n <= pages (c_hist s))%nat) as [Hd|Hd]; [specialize (He Hd); lia|lia]).
    assert (pages (c_hist (more [(CRead fd 1, r)] s)) = S (pages (c_hist s))) as Hpg.
    { change (pages (c_hist s ++ [(CRead fd 1, r)]) = S (pages (c_hist s))). rewrite pages_app, H1. lia. }
    rewrite i32_small by lia. replace (Z.of_nat k + 1) with (Z.of_nat (S k)) by lia.
    destruct (IH fd (S k) (more [(CRead fd 1, r)] s)) as (h & E' & Hh & He'); [lia|lia|].
    exists ((CRead fd 1, r) :: h). rewrite E', more_more. change ((CRead fd 1, r) :: h) with ([(CRead fd 1, r)] ++ h).
    rewrite pages_app, statuses_app, ends_app, H1, Hh, He'. split; [|done]. do 2 f_equal. lia.
Qed.

Definition counted (v : Z) (h : history) : Prop :=
  statuses h = [] /\ v = Z.of_nat (pages h) /\ exists x r, h = x ++ [(CWait false, r)] /\ ends x = O.

Lemma counted_app v h h' : quiet h -> counted v h' -> counted v (h ++ h').
Proof.
  intros (Hs & Hp & He) (Hs' & -> & x & r & -> & Hx). unfold counted. rewrite (statuses_app h), Hs, Hs', (pages_app h), Hp. split_and!; [done|done|].
  exists (h ++ x), r. by rewrite <- app_assoc, ends_app, He, Hx.
Qed.

Lemma countfree_ok : does (countfree os (S n)) counted.
Proof.
  eapply (does_bind _ _ (fun r h => (0 <= r.1 /\ exists a b, r.2 = [a; b]) /\ quiet h)); [intros s; eexists _, [_]; by split|].
  intros r h [[Hr (a & b & E)] Hh]. eapply does_mono; [|intros v h' Hv; by apply counted_app]. rewrite (proj2 (Z.ltb_ge r.1 0)), E by lia.
  apply does_quiet_u; [apply counted_app|by apply does_ret|]. apply (does_quiet _ _ (fun pid => 0 < pid)); [apply counted_app|by apply does_call|]. intros pid Hp.
  rewrite (proj2 (Z.ltb_ge pid 0)), (proj2 (Z.eqb_neq pid 0)) by lia. do 2 (apply does_quiet_u; [apply counted_app|by apply does_ret|]).
  apply (does_quiet _ _ (fun _ => True)); [apply counted_app|by apply does_call|]. intros _ _.
  eapply (does_bind _ _ (fun v h => statuses h = [] /\ v = Z.of_nat (pages h) /\ ends h = O)).
  - intros s. destruct (countfree_loop_ok (S n) a 0 s) as (h' & E' & Hs & He); [lia|lia|]. by exists (Z.of_nat (pages h')), h'.
  - intros v h' (Hs & -> & He). eapply does_bind; [by apply (does_call (CClose a) fine)|]. intros ? q [_ (Hs' & Hp' & He')].
    eapply (does_bind _ _ (fun _ h => exists r, h = [(CWait false, r)])); [intros s; eexists _, [_]; split; [done|by eexists]|]. intros ? q2 [r' ->].
    apply does_ret. rewrite app_nil_r, app_assoc. unfold counted. rewrite statuses_app, statuses_app, Hs, Hs', !pages_app, Hp'.
    split_and!; [done|change (pages [(CWait false, r')]) with O; lia|]. exists (h' ++ q), r'. by rewrite ends_app, He, He'.
Qed.

(** The calls of a run of the driver: the pages are counted, the tests are run, and
    the pages are counted again. *)
Definition driven (k : nat) (h : history) (free0 free1 : Z) : Prop := exists q h0 ht h1 rest,
  h = q ++ h0 ++ ht ++ h1 ++ rest /\ quiet q /\ counted free0 h0 /\ pages ht = O /\ ends ht = O /\ passed k ht /\ counted free1 h1 /\ quiet rest.

Context (quicktests slowtests : tests).

Definition number (quick : bool) (justone : option (list Z)) : nat :=
  (length (selected quicktests justone) + if quick then 0 else length (selected slowtests justone))%nat.

Lemma failed_more k j h h' : failed k h -> statuses h' = [] -> failed (k + j) (h ++ h').
Proof. intros (i & st & Hi & Hst & E) E'. exists i, st. rewrite statuses_app, E, E', app_nil_r. split_and!; [lia|done|done]. Qed.

Lemma failed_after k j h0 h h' : statuses h0 = replicate j 0 -> failed k h -> statuses h' = [] -> failed (j + k) (h0 ++ h ++ h').
Proof.
  intros E0 (i & st & Hi & Hst & E) E'. exists (j + i)%nat, st. rewrite !statuses_app, E0, E, E', app_nil_r, replicate_add, <- app_assoc. split_and!; [lia|done|done].
Qed.

(** One round ends with a verdict, or goes on. *)
Definition round_post (k : nat) (r : option Z) (h : history) : Prop :=
  r = None /\ (exists free0 free1, free0 <= free1 /\ driven k h free0 free1) \/
  r = Some 1 /\ (failed k h \/ exists free0 free1, free1 < free0 /\ driven k h free0 free1).

(** The slow tests. *)
Lemma slow_ok quick justone : does (if negb quick then
    (when bool_decide (justone = None) do say os "usertests slow tests starting") ;; runtests os slowtests justone else ret 0)%M
  (verdict (if quick then 0 else length (selected slowtests justone))).
Proof.
  destruct quick; cbn [negb]; [apply does_ret; split_and!; [done|done|by left]|].
  apply does_quiet_u; [|case_bool_decide; [by apply does_say|by apply does_ret]|apply runtests_ok].
  intros v h h' (Hs & Hp & He) (Hp' & He' & H). unfold verdict, passed, failed in *. by rewrite pages_app, ends_app, statuses_app, Hs, Hp, Hp', He, He'.
Qed.

Lemma drive_round_ok quick justone : does (drive_round os quicktests slowtests (S n) quick 0 justone) (round_post (number quick justone)).
Proof.
  unfold drive_round, number. set (kq := length (selected quicktests justone)). set (ks := if quick then _ else _).
  eapply does_bind; [by apply does_say|]. intros [] q Hq. eapply does_bind; [apply countfree_ok|]. intros free0 h0 H0.
  eapply does_bind; [apply runtests_ok|]. fold kq. intros v ht (Hp & He & [[-> Hv]|[-> Hv]]); cbn [Z.eqb negb andb].
  - eapply does_bind; [apply slow_ok|]. fold ks. intros v ht' (Hp' & He' & [[-> Hv']|[-> Hv']]); cbn [Z.eqb negb andb].
    + assert (passed (kq + ks) (ht ++ ht')) as Hall by (unfold passed in *; by rewrite statuses_app, Hv, Hv', replicate_add).
      eapply does_bind; [apply countfree_ok|]. intros free1 h1 H1. destruct (Z.ltb_spec free1 free0) as [Hlt|Hge].
      * eapply does_bind; [by apply does_printf|]. intros [] rest Hr. apply does_ret. right. split; [done|]. right. exists free0, free1. split; [done|].
        exists q, h0, (ht ++ ht'), h1, rest. rewrite app_nil_r, <- app_assoc. split_and!; try done; [by rewrite pages_app, Hp, Hp'|by rewrite ends_app, He, He'].
      * apply does_ret. left. split; [done|]. exists free0, free1. split; [done|].
        exists q, h0, (ht ++ ht'), h1, []. rewrite <- app_assoc. split_and!; try done; [by rewrite pages_app, Hp, Hp'|by rewrite ends_app, He, He'].
    + apply does_ret. right. split; [done|]. left. rewrite (app_assoc q), (app_assoc (q ++ h0)). apply failed_after; [|done|done].
      destruct Hq as (Hs & _). destruct H0 as (Hs0 & _). by rewrite !statuses_app, Hs, Hs0, Hv.
  - apply does_ret. right. split; [done|]. left. rewrite (app_assoc q), <- (app_nil_r ((q ++ h0) ++ _)). apply failed_more; [|done].
    apply (failed_after kq 0 (q ++ h0) ht []); [|done|done]. destruct Hq as (Hs & _). destruct H0 as (Hs0 & _). by rewrite statuses_app, Hs, Hs0.
Qed.

(** usertests exits with status 0, saying ALL TESTS PASSED, when every one of the
    tests chosen was run and exited with status 0, in order, and the number of
    free pages counted after the tests is no less than before them; it exits with
    status 1 when a test failed, with the tests after it not run, or when pages
    were lost. *)
Theorem usertests_verdict quick justone : exists h,
  (usertests_drive os quicktests slowtests 1 (S n) quick 0 justone fresh = Blocked (mkCaller h (Some 0)) /\
    exists free0 free1, free0 <= free1 /\ driven (number quick justone) h free0 free1) \/
  (usertests_drive os quicktests slowtests 1 (S n) quick 0 justone fresh = Blocked (mkCaller h (Some 1)) /\
    (failed (number quick justone) h \/ exists free0 free1, free1 < free0 /\ driven (number quick justone) h free0 free1)).
Proof.
  destruct (drive_round_ok quick justone fresh) as (r & h & E & [[-> (f0 & f1 & Hf & D)]|[-> H]]).
  - destruct (does_say "ALL TESTS PASSED" eq_refl (more h fresh)) as ([] & q & E' & Hq). exists (h ++ q). left. split.
    + unfold usertests_drive, drivetests. rewrite bind_assoc. run E. cbn [Z.eqb]. rewrite bind_ret. cbn [Z.eqb negb]. rewrite bind_ret. run E'. reflexivity.
    + exists f0, f1. split; [done|]. destruct D as (q0 & h0 & ht & h1 & rest & -> & Hq0 & H0 & Hp & He & Ht & H1 & Hr).
      exists q0, h0, ht, h1, (rest ++ q). rewrite <- !app_assoc. split_and!; [reflexivity|assumption..|by apply quiet_app].
  - exists h. right. split; [|exact H]. unfold usertests_drive, drivetests. rewrite bind_assoc. run E. rewrite bind_ret. cbn [Z.eqb negb]. reflexivity.
Qed.
End Verdict.
