(* ===== verification/Grep.v ===== *)
(** user/grep.c: the regular expression matcher and the program.

    A string is the list of bytes before its NUL, so that [re[0] == '\0'] is
    [re = []].  The buffer of grep() is the list of its first [m] bytes. *)

From S2P Require Import Prelude User.

(** ** The matcher *)

(** matchstar(): search for c*re at the beginning of text; [here] is
    matchhere(re, .). *)
Fixpoint matchstar (here : list Z -> bool) (c : Z) (text : list Z) : bool :=
  if here text then true
  else
    match text with
    | [] => false
    | t :: text' => if (t =? c) || (c =? chr ".") then matchstar here c text' else false
    end.

Fixpoint matchhere (re text : list Z) : bool :=
  match re with
  | [] => true
  | c :: re1 =>
      match re1 with
      | d :: re2 =>
          if d =? chr "*" then matchstar (matchhere re2) c text
          else
            match text with
            | t :: text' => if (c =? chr ".") || (c =? t) then matchhere re1 text' else false
            | [] => false
            end
      | [] =>
          if c =? chr "$" then match text with [] => true | _ => false end
          else
            match text with
            | t :: text' => if (c =? chr ".") || (c =? t) then matchhere re1 text' else false
            | [] => false
            end
      end
  end.

Fixpoint match_loop (re text : list Z) : bool :=
  if matchhere re text then true
  else match text with [] => false | _ :: text' => match_loop re text' end.

Definition match_ (re text : list Z) : bool :=
  match re with
  | c :: re' => if c =? chr "^" then matchhere re' text else match_loop re text
  | [] => match_loop re text
  end.

(** ** The program *)

(** while((q = strchr(p, '\n')) != 0): the lines of the buffer; what is left is
    the beginning of the next line. *)
Fixpoint grep_lines (fuel : nat) (pattern p : list Z) : P (list Z) :=
  match fuel with
  | O => diverge
  | S f =>
      match strchr p 10 with
      | Some q =>
          (when match_ pattern (take q p) do (write 1 (take (S q) p) ;; ret tt)) ;;
          grep_lines f pattern (drop (S q) p)
      | None => ret p
      end
  end.

(** while((n = read(fd, buf+m, sizeof(buf)-m-1)) > 0) *)
Fixpoint grep_loop (fuel : nat) (pattern : list Z) (fd : Z) (buf : list Z) : P unit :=
  match fuel with
  | O => diverge
  | S f =>
      let* r := read fd (1024 - Z.of_nat (length buf) - 1) in
      let '(n, data) := r in
      if 0 <? n then
        let buf := buf ++ data in
        let* buf := grep_lines (S (length buf)) pattern buf in
        grep_loop f pattern fd buf
      else ret tt
  end.

Definition grep (pattern : list Z) (fd : Z) : P unit := fun s =>
  grep_loop (stream_fuel (default [] (u_fds s !! fd))) pattern fd [] s.

Fixpoint grep_files (pattern : list Z) (files : list (list Z)) : P unit :=
  match files with
  | [] => ret tt
  | f :: files =>
      let* fd := open f in
      if fd <? 0 then
        uprintf (bytes "grep: cannot open %s" ++ nl) [UStr (Some f)] ;;
        exit 1
      else
        grep pattern fd ;;
        close fd ;;
        grep_files pattern files
  end.

Definition grep_main (argv : list (list Z)) : P unit :=
  match argv with
  | _ :: pattern :: files =>
      match files with
      | [] => grep pattern 0 ;; exit 0
      | _ => grep_files pattern files ;; exit 0
      end
  | _ =>
      fprintf 2 (bytes "usage: grep pattern [file ...]" ++ nl) [] ;;
      exit 1
  end.
