(* ===== verification/GrepSpec.v ===== *)
(** What grep prints.

    [sem re] is the set of strings the pattern [re] describes; match() searches
    for it.  grep() prints, in order, the lines of its input that match, for
    every way of cutting the input into reads. *)

From S2P Require Import Prelude User UserSpec Grep.

(** ** Patterns *)

Inductive item : Type := One (c : Z) | Many (c : Z).

(** The items of a pattern, and whether it ends with the anchor $. *)
Fixpoint items (re : list Z) : list item * bool :=
  match re with
  | [] => ([], false)
  | c :: re1 =>
      match re1 with
      | d :: re2 =>
          if d =? chr "*" then (Many c :: (items re2).1, (items re2).2)
          else (One c :: (items re1).1, (items re1).2)
      | [] => if c =? chr "$" then ([], true) else ([One c], false)
      end
  end.

Definition char_ok (c t : Z) : Prop := c = chr "." \/ c = t.

Inductive sem : list item -> list Z -> Prop :=
| sem_nil : sem [] []
| sem_one c t its w : char_ok c t -> sem its w -> sem (One c :: its) (t :: w)
| sem_many c ts its w : Forall (char_ok c) ts -> sem its w -> sem (Many c :: its) (ts ++ w).

(** [text] starts with a string of the pattern, and ends with it if [e]. *)
Definition starts (p : list item * bool) (text : list Z) : Prop :=
  exists w rest, text = w ++ rest /\ sem p.1 w /\ (p.2 = true -> rest = []).

(** The meaning of a pattern: it is found anywhere, unless it starts with ^. *)
Definition matches (re text : list Z) : Prop :=
  match re with
  | c :: re' =>
      if c =? chr "^" then starts (items re') text
      else exists pre suf, text = pre ++ suf /\ starts (items re) suf
  | [] => True
  end.

Lemma char_ok_star c t : (t =? c) || (c =? chr ".") = true <-> char_ok c t.
Proof. unfold char_ok. rewrite orb_true_iff, !Z.eqb_eq. naive_solver. Qed.
Lemma char_ok_here c t : (c =? chr ".") || (c =? t) = true <-> char_ok c t.
Proof. unfold char_ok. rewrite orb_true_iff, !Z.eqb_eq. naive_solver. Qed.

(** matchstar() tries the rest of the pattern after each possible repetition. *)
Lemma matchstar_spec here c text :
  matchstar here c text = true <-> exists ts rest, text = ts ++ rest /\ Forall (char_ok c) ts /\ here rest = true.
Proof.
  induction text as [|t text IH]; cbn [matchstar].
  - destruct (here []) eqn:E; split; try done.
    + intros _. exists [], []. split_and!; [done|constructor|done].
    + intros (ts & rest & Et & _ & Hr). symmetry in Et. apply app_nil in Et as [-> ->]. congruence.
  - destruct (here (t :: text)) eqn:E; [split; [|done]; intros _; exists [], (t :: text); split_and!; [done|constructor|done]|].
    destruct ((t =? c) || (c =? chr ".")) eqn:Eo.
    + rewrite IH. apply char_ok_star in Eo. split.
      * intros (ts & rest & -> & Hf & Hr). exists (t :: ts), rest. split_and!; [done|by constructor|done].
      * intros (ts & rest & Et & Hf & Hr). destruct ts as [|u ts]; cbn in Et; [subst rest; congruence|].
        injection Et as <- ->. apply Forall_cons in Hf as [_ Hf]. eauto.
    + split; [done|]. intros (ts & rest & Et & Hf & Hr). destruct ts as [|u ts]; cbn in Et; [subst rest; congruence|].
      injection Et as <- ->. apply Forall_cons in Hf as [Hf _]. apply char_ok_star in Hf. congruence.
Qed.

Lemma starts_one c its e text :
  starts (One c :: its, e) text <-> exists t text', text = t :: text' /\ char_ok c t /\ starts (its, e) text'.
Proof.
  unfold starts. cbn. split.
  - intros (w & rest & -> & Hs & He). inversion Hs as [|? t ? w0 Hc Hs' |]; subst. exists t, (w0 ++ rest). eauto 10.
  - intros (t & text' & -> & Hc & w & rest & -> & Hs & He). exists (t :: w), rest. split_and!; [done|by constructor|done].
Qed.

Lemma starts_many c its e text :
  starts (Many c :: its, e) text <-> exists ts rest, text = ts ++ rest /\ Forall (char_ok c) ts /\ starts (its, e) rest.
Proof.
  unfold starts. cbn. split.
  - intros (w & rest & -> & Hs & He). inversion Hs as [| |? ts ? w0 Hf Hs']; subst. exists ts, (w0 ++ rest). rewrite <- app_assoc. eauto 10.
  - intros (ts & r & -> & Hf & w & rest & -> & Hs & He). exists (ts ++ w), rest. rewrite <- app_assoc.
    split_and!; [done|by constructor|done].
Qed.

Lemma matchhere_spec re : forall text, matchhere re text = true <-> starts (items re) text.
Proof.
  assert (forall n re, (length re < n)%nat -> forall text, matchhere re text = true <-> starts (items re) text) as H.
  { induction n as [|n IH]; intros r Hl text; [lia|]. destruct r as [|c re1]; cbn [matchhere items].
    { split; [|done]. intros _. exists [], text. split_and!; [done|constructor|done]. }
    assert (forall text, match text with t :: text' => if (c =? chr ".") || (c =? t) then matchhere re1 text' else false
      | [] => false end = true <-> starts (One c :: (items re1).1, (items re1).2) text) as Hone.
    { intros tx. rewrite starts_one. destruct tx as [|t tx']; [split; [done|]; intros (? & ? & ? & _); done|].
      destruct ((c =? chr ".") || (c =? t)) eqn:E.
      - rewrite (IH re1) by (cbn in Hl; lia). rewrite <- surjective_pairing. apply char_ok_here in E. naive_solver.
      - split; [done|]. intros (t' & text' & [= <- <-] & Hc & _). apply char_ok_here in Hc. congruence. }
    destruct re1 as [|d re2].
    - destruct (c =? chr "$") eqn:Ed; [|apply Hone]. unfold starts. cbn. split.
      + destruct text; [|done]. intros _. exists [], []. split_and!; [done|constructor|done].
      + intros (w & rest & -> & Hs & He). inversion Hs; subst. by rewrite He.
    - destruct (d =? chr "*"); [|apply Hone].
      rewrite starts_many, matchstar_spec. setoid_rewrite (IH re2); [|cbn in Hl; lia]. by rewrite <- surjective_pairing. }
  apply (H (S (length re))). lia.
Qed.

Lemma match_loop_spec re text :
  match_loop re text = true <-> exists pre suf, text = pre ++ suf /\ starts (items re) suf.
Proof.
  induction text as [|t text IH]; cbn [match_loop].
  - destruct (matchhere re []) eqn:E.
    + split; [|done]. intros _. exists [], []. split; [done|]. by apply matchhere_spec.
    + split; [done|]. intros (pre & suf & Et & Hs). symmetry in Et. apply app_nil in Et as [-> ->].
      apply matchhere_spec in Hs. congruence.
  - destruct (matchhere re (t :: text)) eqn:E.
    + split; [|done]. intros _. exists [], (t :: text). split; [done|]. by apply matchhere_spec.
    + rewrite IH. split.
      * intros (pre & suf & -> & Hs). by exists (t :: pre), suf.
      * intros (pre & suf & Et & Hs). destruct pre as [|u pre]; cbn in Et; [subst suf; apply matchhere_spec in Hs; congruence|].
        injection Et as <- ->. eauto.
Qed.

(** ** Lines *)

(** The complete lines of a text, without their newlines, and what follows. *)
Fixpoint split_lines (txt : list Z) : list (list Z) * list Z :=
  match txt with
  | [] => ([], [])
  | c :: txt' =>
      let '(ls, r) := split_lines txt' in
      if c =? 10 then ([] :: ls, r)
      else match ls with [] => ([], c :: r) | l :: ls => ((c :: l) :: ls, r) end
  end.

Definition lines (txt : list Z) : list (list Z) := (split_lines txt).1.
Definition partial (txt : list Z) : list Z := (split_lines txt).2.

Lemma split_no_newline l : 10 ∉ l -> split_lines l = ([], l).
Proof.
  induction l as [|c l IH]; intros H; [done|]. cbn. rewrite IH by set_solver. destruct (Z.eqb_spec c 10) as [->|]; [set_solver|done].
Qed.

Lemma split_newline l r : 10 ∉ l -> split_lines (l ++ 10 :: r) = (l :: lines r, partial r).
Proof.
  induction l as [|c l IH]; intros H; cbn.
  - unfold lines, partial. by destruct (split_lines r).
  - rewrite IH by set_solver. destruct (Z.eqb_spec c 10) as [->|]; [set_solver|done].
Qed.

Lemma partial_no_newline txt : 10 ∉ partial txt.
Proof.
  unfold partial. induction txt as [|c txt IH]; cbn; [apply not_elem_of_nil|]. destruct (split_lines txt) as [ls r]. cbn in IH.
  destruct (Z.eqb_spec c 10); [done|]. destruct ls; cbn; set_solver.
Qed.

Lemma partial_subset txt c : c ∈ partial txt -> c ∈ txt.
Proof.
  unfold partial. induction txt as [|d txt IH]; cbn; [done|]. destruct (split_lines txt) as [ls r]. cbn in IH.
  destruct (d =? 10); cbn; [set_solver|]. destruct ls; cbn; set_solver.
Qed.

(** Looking at a text in two pieces. *)
Lemma split_app a b :
  lines (a ++ b) = lines a ++ lines (partial a ++ b) /\ partial (a ++ b) = partial (partial a ++ b).
Proof.
  unfold lines, partial. induction a as [|c a [IH1 IH2]]; [done|]. cbn.
  destruct (split_lines a) as [la ra]. cbn in IH1, IH2.
  destruct (split_lines (a ++ b)) as [lab rab]. cbn in IH1, IH2. subst lab rab.
  destruct (c =? 10) eqn:Ec; cbn.
  - by destruct (split_lines (ra ++ b)).
  - destruct la as [|l la]; cbn; [|done]. destruct (split_lines (ra ++ b)) as [l2 r2] eqn:E. cbn. rewrite Ec. by destruct l2.
Qed.

Lemma strchr_newline p : 0 ∉ p ->
  strchr p 10 = match lines p with [] => None | l :: _ => Some (length l) end.
Proof.
  unfold lines. induction p as [|c p IH]; intros H; [done|]. cbn. destruct (Z.eqb_spec c 0) as [->|]; [set_solver|].
  rewrite IH by set_solver. destruct (split_lines p) as [ls r]. cbn. destruct (c =? 10); [done|]. by destruct ls.
Qed.

(** The first line is in front of the rest. *)
Lemma first_line p l ls : lines p = l :: ls ->
  exists r, p = l ++ 10 :: r /\ lines r = ls /\ partial r = partial p.
Proof.
  unfold lines, partial. revert l ls. induction p as [|c p IH]; intros l ls; [done|]. cbn.
  destruct (split_lines p) as [ls' r'] eqn:E. destruct (Z.eqb_spec c 10) as [->|].
  - intros [= <- <-]. exists p. rewrite E. done.
  - destruct ls' as [|l' ls']; [done|]. intros [= <- <-]. destruct (IH l' ls') as (r & -> & E1 & E2); [done|].
    exists r. done.
Qed.

(** ** grep() *)

(** The lines printed. *)
Definition selected (pattern txt : list Z) : list (list Z) :=
  (fun l => l ++ [10]) <$> filter (fun l => match_ pattern l = true) (lines txt).

Lemma grep_lines_ok pattern n : forall p s,
  (length p < n)%nat -> 0 ∉ p -> u_short s = [] ->
  grep_lines n pattern p s = Ok (partial p) (printed (selected pattern p) s).
Proof.
  induction n as [|n IH]; intros p s Hn Hp Hs; [lia|]. cbn [grep_lines]. rewrite strchr_newline by done. unfold selected.
  destruct (lines p) as [|l ls] eqn:El.
  - cbn. rewrite printed_nil. unfold ret. f_equal. pose proof (split_no_newline p) as Hsp. unfold lines in El.
    destruct (decide (10 ∈ p)) as [Hin|Hni]; [|unfold partial; by rewrite Hsp].
    apply list_elem_of_split_l in Hin as (a & b & -> & Ha). rewrite split_newline in El by done. done.
  - destruct (first_line p l ls El) as (r & -> & E1 & E2). rewrite filter_cons, take_app_length.
    assert (take (S (length l)) (l ++ 10 :: r) = l ++ [10]) as Et.
    { replace (l ++ 10 :: r) with ((l ++ [10]) ++ r) by (by rewrite <- app_assoc).
      replace (S (length l)) with (length (l ++ [10])) by (rewrite length_app; cbn; lia). apply take_app_length. }
    assert (drop (S (length l)) (l ++ 10 :: r) = r) as Ed.
    { replace (l ++ 10 :: r) with ((l ++ [10]) ++ r) by (by rewrite <- app_assoc).
      replace (S (length l)) with (length (l ++ [10])) by (rewrite length_app; cbn; lia). apply drop_app_length. }
    rewrite Et, Ed. rewrite length_app in Hn. cbn in Hn.
    destruct (match_ pattern l) eqn:Em.
    + rewrite decide_True by done. cbn [fmap list_fmap].
      assert ((write 1 (l ++ [10]) ;; ret tt) s = Ok tt (printed [l ++ [10]] s)) as Ew.
      { unfold bind. by rewrite write_ok. }
      run Ew. rewrite IH by (done || lia || set_solver). rewrite printed_app. unfold selected. rewrite E1, E2. done.
    + rewrite decide_False by done. rewrite (bind_ok (ret tt) _ _ _ s eq_refl). rewrite IH by (done || lia || set_solver).
      unfold selected. by rewrite E1, E2.
Qed.

(** ** The read loop *)

(** Every line fits into the buffer together with its newline. *)
Definition fits (txt : list Z) : Prop :=
  Forall (fun l => (length l <= 1022)%nat) (lines txt) /\ (length (partial txt) <= 1022)%nat.

Lemma fits_prefix b r : 10 ∉ b -> fits (b ++ r) -> (length b <= 1022)%nat.
Proof.
  intros Hb [H1 H2]. unfold lines, partial in *. destruct (decide (10 ∈ r)) as [Hin|Hni].
  - apply list_elem_of_split_l in Hin as (a & c & -> & Ha). rewrite app_assoc, split_newline in H1 by set_solver.
    apply Forall_cons in H1 as [H1 _]. rewrite length_app in H1. lia.
  - rewrite split_no_newline in H2 by set_solver. cbn in H2. rewrite length_app in H2. lia.
Qed.

Lemma fits_app a b : fits (a ++ b) -> fits (partial a ++ b).
Proof.
  unfold fits. destruct (split_app a b) as [-> ->]. rewrite Forall_app. tauto.
Qed.

Lemma selected_app pattern a b : selected pattern (a ++ b) = selected pattern a ++ selected pattern (partial a ++ b).
Proof. unfold selected. destruct (split_app a b) as [-> _]. by rewrite filter_app, fmap_app. Qed.


Lemma grep_loop_ok pattern fd n : forall ps buf s,
  (length (concat ps) < n)%nat -> pieces s fd ps -> 10 ∉ buf -> 0 ∉ buf ++ concat ps -> fits (buf ++ concat ps) ->
  u_short s = [] ->
  exists s', grep_loop n pattern fd buf s = Ok tt s' /\
    u_out s' = u_out s ++ ((fun l => (1, l)) <$> selected pattern (buf ++ concat ps)).
Proof.
  induction n as [|n IH]; intros ps buf s Hn Hps Hb H0 Hf Hs; [lia|]. cbn [grep_loop].
  destruct ps as [|p ps].
  - exists s. rewrite app_nil_r. unfold selected, lines. rewrite split_no_newline by done. cbn. rewrite app_nil_r. split; [|done].
    unfold bind, read. destruct Hps as [-> _]. done.
  - pose proof (fits_prefix _ _ Hb Hf) as Hlen.
    destruct (read_piece s fd (1024 - Z.of_nat (length buf) - 1) p ps Hps ltac:(lia))
      as (d & ps' & s1 & E & Hd & Hps' & Ec & _ & Hs1 & Ho1 & _).
    run E. destruct (Z.ltb_spec 0 (Z.of_nat (length d))); [|lia].
    rewrite Ec in *. rewrite app_assoc in H0, Hf. rewrite length_app in Hn.
    rewrite (bind_ok _ _ _ _ _ (grep_lines_ok pattern _ (buf ++ d) s1 (Nat.lt_succ_diag_r _) ltac:(set_solver) ltac:(congruence))).
    destruct (IH ps' (partial (buf ++ d)) (printed (selected pattern (buf ++ d)) s1)) as (s' & E' & Ho').
    + lia.
    + exact Hps'.
    + apply partial_no_newline.
    + pose proof (partial_subset (buf ++ d)). set_solver.
    + by apply fits_app.
    + cbn. congruence.
    + exists s'. split; [done|]. rewrite Ho', (app_assoc buf), (selected_app _ (buf ++ d)), fmap_app. cbn. by rewrite Ho1, <- app_assoc.
Qed.

(** ** Properties *)

(** C38: match() decides the meaning of the pattern: it returns true exactly if
    the text contains a string of the language the pattern describes, at the
    start if the pattern starts with ^ and at the end if it ends with $. *)
Theorem match_correct re text : match_ re text = true <-> matches re text.
Proof.
  unfold match_, matches. destruct re as [|c re]; [|destruct (c =? chr "^"); [apply matchhere_spec|apply match_loop_spec]].
  rewrite match_loop_spec. split; [done|]. intros _. exists [], text. split; [done|]. exists [], text. split_and!; [done|constructor|done].
Qed.

(** C39: grep() prints the lines of its input that match, in order and each with
    its newline, and nothing else, in whatever pieces read() delivers the
    input, if no line is longer than 1022 bytes, the input has no NUL, and
    write() never writes less than it is given. *)
Theorem grep_prints pattern fd ps s :
  pieces s fd ps -> 0 ∉ concat ps -> fits (concat ps) -> u_short s = [] ->
  exists s', grep pattern fd s = Ok tt s' /\
    u_out s' = u_out s ++ ((fun l => (1, l)) <$> selected pattern (concat ps)).
Proof.
  intros Hps H0 Hf Hs. unfold grep. pose proof Hps as [Hfd _]. rewrite Hfd. cbn [from_option id].
  apply (grep_loop_ok pattern fd _ ps [] s); [apply stream_fuel_ok|done|apply not_elem_of_nil|done|done|done].
Qed.

(** Standard input of three lines, in two pieces. *)
Definition grep_input : uproc :=
  mkUproc {[ 0 := [Some (bytes "alpha" ++ [10] ++ bytes "be"); Some (bytes "ta" ++ [10] ++ bytes "gamma" ++ [10])] ]}
    (fun _ => None) [] [] None.

Lemma grep_prints_witness :
  exists s', grep (bytes "^.*ta$") 0 grep_input = Ok tt s' /\
    u_out s' = [(1, bytes "beta" ++ [10])].
Proof.
  destruct (grep_prints (bytes "^.*ta$") 0 [bytes "alpha" ++ [10] ++ bytes "be"; bytes "ta" ++ [10] ++ bytes "gamma" ++ [10]] grep_input)
    as (s' & E & Ho).
  - split; [reflexivity|]. repeat constructor; discriminate.
  - apply (bool_decide_unpack _). vm_compute. exact I.
  - split; apply (bool_decide_unpack _); vm_compute; exact I.
  - reflexivity.
  - exists s'. split; [exact E|]. rewrite Ho. vm_compute. reflexivity.
Defined.
