(* ===== verification/Programs.v ===== *)
(** user/cat.c, user/wc.c and user/echo.c, and what they compute.

    cat copies its input; wc counts its lines, words and bytes; both for every
    way of cutting the input into reads. *)

From S2P Require Import Prelude User UserSpec.

(** ** cat.c *)

(** while((n = read(fd, buf, sizeof(buf))) > 0); the last [n] is returned. *)
Fixpoint cat_loop (fuel : nat) (fd : Z) : P Z :=
  match fuel with
  | O => diverge
  | S f =>
      let* r := read fd 512 in
      let '(n, buf) := r in
      if 0 <? n then
        let* w := write 1 buf in
        (when negb (w =? n) do
          (fprintf 2 (bytes "cat: write error" ++ nl) [] ;;
           exit 1)) ;;
        cat_loop f fd
      else ret n
  end.

Definition cat (fd : Z) : P unit :=
  let* n := (fun s => cat_loop (stream_fuel (default [] (u_fds s !! fd))) fd s) in
  when n <? 0 do
    (fprintf 2 (bytes "cat: read error" ++ nl) [] ;;
     exit 1).

Fixpoint cat_files (files : list (list Z)) : P unit :=
  match files with
  | [] => ret tt
  | f :: files =>
      let* fd := open f in
      (when fd <? 0 do
        (fprintf 2 (bytes "cat: cannot open %s" ++ nl) [UStr (Some f)] ;;
         exit 1)) ;;
      cat fd ;;
      close fd ;;
      cat_files files
  end.

Definition cat_main (argv : list (list Z)) : P unit :=
  match tail argv with
  | [] => cat 0 ;; exit 0
  | files => cat_files files ;; exit 0
  end.

(** ** wc.c *)

(** The counters l, w, c and inword. *)
Record counts : Type := mkCounts {
  wc_l : Z;
  wc_w : Z;
  wc_c : Z;
  wc_inword : bool;
}.

Definition wc_spaces : list Z := [32; 13; 9; 10; 11].
Definition is_space (x : Z) : bool := match strchr wc_spaces x with Some _ => true | None => false end.

(** The body of for(i=0; i<n; i++). *)
Definition wc_byte (k : counts) (x : Z) : counts :=
  let c := i32 (wc_c k + 1) in
  let l := if x =? 10 then i32 (wc_l k + 1) else wc_l k in
  if is_space x then mkCounts l (wc_w k) c false
  else if negb (wc_inword k) then mkCounts l (i32 (wc_w k + 1)) c true
  else mkCounts l (wc_w k) c (wc_inword k).

Fixpoint wc_loop (fuel : nat) (fd : Z) (k : counts) : P (Z * counts) :=
  match fuel with
  | O => diverge
  | S f =>
      let* r := read fd 512 in
      let '(n, buf) := r in
      if 0 <? n then wc_loop f fd (fold_left wc_byte buf k) else ret (n, k)
  end.

Definition wc (fd : Z) (name : list Z) : P unit :=
  let* r := (fun s => wc_loop (stream_fuel (default [] (u_fds s !! fd))) fd (mkCounts 0 0 0 false) s) in
  let '(n, k) := r in
  (when n <? 0 do
    (uprintf (bytes "wc: read error" ++ nl) [] ;;
     exit 1)) ;;
  uprintf (bytes "%d %d %d %s" ++ nl) [UInt (wc_l k); UInt (wc_w k); UInt (wc_c k); UStr (Some name)].

Fixpoint wc_files (files : list (list Z)) : P unit :=
  match files with
  | [] => ret tt
  | f :: files =>
      let* fd := open f in
      (when fd <? 0 do
        (uprintf (bytes "wc: cannot open %s" ++ nl) [UStr (Some f)] ;;
         exit 1)) ;;
      wc fd f ;;
      close fd ;;
      wc_files files
  end.

Definition wc_main (argv : list (list Z)) : P unit :=
  match tail argv with
  | [] => wc 0 [] ;; exit 0
  | files => wc_files files ;; exit 0
  end.

(** ** echo.c *)

Fixpoint echo_args (args : list (list Z)) : P unit :=
  match args with
  | [] => ret tt
  | a :: args =>
      write 1 a ;;
      (match args with [] => write 1 nl | _ => write 1 (bytes " ") end) ;;
      echo_args args
  end.

Definition echo_main (argv : list (list Z)) : P unit := echo_args (tail argv) ;; exit 0.

(** ** cat copies *)

Lemma cat_loop_ok fd n : forall ps s,
  (length (concat ps) < n)%nat -> pieces s fd ps -> u_short s = [] ->
  exists bs s', cat_loop n fd s = Ok 0 s' /\ concat bs = concat ps /\ u_out s' = u_out s ++ ((fun b => (1, b)) <$> bs).
Proof.
  induction n as [|n IH]; intros ps s Hn Hps Hs; [lia|]. cbn [cat_loop]. destruct ps as [|p ps].
  - exists [], s. split_and!; [|done|by rewrite app_nil_r]. unfold bind, read. destruct Hps as [-> _]. done.
  - destruct (read_piece s fd 512 p ps Hps ltac:(lia)) as (d & ps' & s1 & E & Hd & Hps' & Ec & _ & Hs1 & Ho1 & _).
    run E. destruct (Z.ltb_spec 0 (Z.of_nat (length d))); [|lia].
    rewrite (bind_ok _ _ _ _ _ (write_ok 1 d s1 ltac:(congruence))). rewrite Z.eqb_refl. cbn [negb].
    rewrite (bind_ok (ret tt) _ _ _ _ eq_refl). rewrite Ec in *. rewrite length_app in Hn.
    destruct (IH ps' (s1 <| u_out ::= fun o => o ++ [(1, d)] |>) ltac:(lia) Hps' ltac:(cbn; congruence)) as (bs & s' & E' & Eb & Ho').
    exists (d :: bs), s'. split_and!; [done|cbn; by rewrite Eb|]. rewrite Ho'. cbn. by rewrite Ho1, <- app_assoc.
Qed.

(** ** wc counts *)

(** A byte starts a word if it is not a space and the one before it is. *)
Fixpoint word_starts (prev_space : bool) (txt : list Z) : Z :=
  match txt with
  | [] => 0
  | x :: txt' => (if prev_space && negb (is_space x) then 1 else 0) + word_starts (is_space x) txt'
  end.

Definition newlines (txt : list Z) : Z := Z.of_nat (length (filter (fun x => x = 10) txt)).

Lemma wc_bytes txt : forall k,
  0 <= wc_l k -> 0 <= wc_w k -> 0 <= wc_c k ->
  wc_l k + Z.of_nat (length txt) < 2 ^ 31 -> wc_w k + Z.of_nat (length txt) < 2 ^ 31 -> wc_c k + Z.of_nat (length txt) < 2 ^ 31 ->
  fold_left wc_byte txt k =
  mkCounts (wc_l k + newlines txt) (wc_w k + word_starts (negb (wc_inword k)) txt) (wc_c k + Z.of_nat (length txt))
    (match last txt with Some x => negb (is_space x) | None => wc_inword k end).
Proof.
  unfold newlines. induction txt as [|x txt IH]; intros [l w c i] Hl Hw Hc Bl Bw Bc; cbn [wc_l wc_w wc_c wc_inword] in *.
  { cbn. by rewrite !Z.add_0_r. }
  cbn [length] in *. cbn [fold_left]. rewrite filter_cons, last_cons. cbn [word_starts].
  unfold wc_byte at 2. cbn [wc_l wc_w wc_c wc_inword].
  rewrite !i32_small by lia. destruct (Z.eqb_spec x 10) as [->|Hx].
  - change (is_space 10) with true. rewrite decide_True by done.
    rewrite IH by (cbn; lia). cbn [wc_l wc_w wc_c wc_inword length]. f_equal; try lia; destruct i; cbn; try lia; by destruct (last txt).
  - rewrite decide_False by done. destruct (is_space x) eqn:Es, i;
      (rewrite IH by (cbn; lia)); cbn [wc_l wc_w wc_c wc_inword length negb andb]; f_equal; try lia;
      destruct (last txt); cbn; rewrite ?Es; done.
Qed.

Lemma wc_loop_ok fd n : forall ps k s,
  (length (concat ps) < n)%nat -> pieces s fd ps ->
  exists s', wc_loop n fd k s = Ok (0, fold_left wc_byte (concat ps) k) s' /\ u_out s' = u_out s /\ u_short s' = u_short s.
Proof.
  induction n as [|n IH]; intros ps k s Hn Hps; [lia|]. cbn [wc_loop]. destruct ps as [|p ps].
  - exists s. split_and!; [|done|done]. unfold bind, read. destruct Hps as [-> _]. done.
  - destruct (read_piece s fd 512 p ps Hps ltac:(lia)) as (d & ps' & s1 & E & Hd & Hps' & Ec & _ & Hs1 & Ho1 & _).
    run E. destruct (Z.ltb_spec 0 (Z.of_nat (length d))); [|lia].
    rewrite Ec in *. rewrite length_app in Hn.
    destruct (IH ps' (fold_left wc_byte d k) s1 ltac:(lia) Hps') as (s' & E' & Ho' & Hs').
    exists s'. rewrite fold_left_app. split_and!; [done|congruence|congruence].
Qed.

(** ** Properties *)

(** Cat(fd) returns after it has written exactly the bytes of its input, in
    order, to standard output. *)
Theorem cat_copies fd ps s :
  pieces s fd ps -> u_short s = [] ->
  exists bs s', cat fd s = Ok tt s' /\ concat bs = concat ps /\ u_out s' = u_out s ++ ((fun b => (1, b)) <$> bs).
Proof.
  intros Hps Hs. destruct (cat_loop_ok fd (stream_fuel (Some <$> ps)) ps s (stream_fuel_ok ps) Hps Hs) as (bs & s' & E & Eb & Ho).
  exists bs, s'. split_and!; [|done|done]. unfold cat. eapply (bind_ok _ (fun n => when n <? 0 do _)) in E.
  destruct Hps as [Hfd _]. unfold bind in *. rewrite Hfd. cbn [from_option id]. by rewrite E.
Qed.

Lemma cat_copies_witness :
  exists bs s', cat 0 (mkUproc {[ 0 := [Some (bytes "ab"); Some (bytes "c")] ]} (fun _ => None) [] [] None) = Ok tt s' /\
    concat bs = bytes "abc" /\ u_out s' = (fun b => (1, b)) <$> bs.
Proof.
  destruct (cat_copies 0 [bytes "ab"; bytes "c"]
    (mkUproc {[ 0 := [Some (bytes "ab"); Some (bytes "c")] ]} (fun _ => None) [] [] None)) as (bs & s' & E & Eb & Ho).
  - split; [reflexivity|]. repeat constructor; discriminate.
  - reflexivity.
  - exists bs, s'. split; [exact E|]. split; [exact Eb|exact Ho].
Defined.

(** Wc(fd, name) prints the number of newlines, of words and of bytes of its
    input in decimal, followed by the name, where a word starts at a byte that
    is not a space and that is the first one or follows a space. *)
Theorem wc_counts fd name ps s :
  pieces s fd ps -> u_short s = [] -> Z.of_nat (length (concat ps)) < 2 ^ 31 ->
  exists s', wc fd name s = Ok tt s' /\
    u_out s' = u_out s ++ ((fun c => (1, [u8 c])) <$>
      (dec (newlines (concat ps)) ++ bytes " " ++ dec (word_starts true (concat ps)) ++ bytes " " ++
       dec (Z.of_nat (length (concat ps))) ++ bytes " " ++ name ++ nl)).
Proof.
  intros Hps Hs Hlen. destruct (wc_loop_ok fd _ ps (mkCounts 0 0 0 false) s (stream_fuel_ok ps) Hps) as (s1 & E & Ho & Hs1).
  rewrite wc_bytes in E by (cbn; lia). cbn [wc_l wc_w wc_c wc_inword negb] in E. rewrite !Z.add_0_l in E.
  eexists. split.
  - unfold wc. destruct Hps as [Hfd _]. eapply run_bind; [rewrite Hfd; exact E|]. cbn iota beta.
    rewrite (bind_ok (ret tt) _ _ _ s1 eq_refl). unfold uprintf, vprintf. cbn [wc_l wc_w wc_c].
    change (bytes "%d %d %d %s" ++ nl) with (bytes "%d" ++ 32 :: bytes "%d" ++ 32 :: bytes "%d" ++ 32 :: bytes "%s" ++ [10]).
    assert (u_short s1 = []) as H1 by congruence.
    rewrite vprintf_d, vprintf_c, vprintf_d, vprintf_c, vprintf_d, vprintf_c, vprintf_s, vprintf_c by done.
    cbn [vprintf_loop]. rewrite !put_chars_app. reflexivity.
  - cbn. rewrite Ho. do 2 f_equal.
Qed.

Lemma wc_counts_witness :
  exists s', wc 0 (bytes "f") (mkUproc {[ 0 := [Some (bytes "ab c"); Some (bytes "d e" ++ [10])] ]} (fun _ => None) [] [] None) = Ok tt s' /\
    concat (snd <$> u_out s') = bytes "1 3 8 f" ++ [10].
Proof.
  destruct (wc_counts 0 (bytes "f") [bytes "ab c"; bytes "d e" ++ [10]]
    (mkUproc {[ 0 := [Some (bytes "ab c"); Some (bytes "d e" ++ [10])] ]} (fun _ => None) [] [] None)) as (s' & E & Ho).
  - split; [reflexivity|]. repeat constructor; discriminate.
  - reflexivity.
  - vm_compute. reflexivity.
  - exists s'. split; [exact E|]. rewrite Ho. vm_compute. reflexivity.
Defined.
