(* ===== verification/Sh.v ===== *)
(** user/sh.c: the parser of the shell.

    The command line is the list of bytes before its NUL ([buf]); a char* into
    it is an offset, and [es] is the offset of the NUL.  The parser moves the
    current offset ([*ps]), which is the state of its monad; panic() prints its
    message and exits, which here is the outcome [Panic] (its text is all that
    is printed but the last newline).  A node of the tree
    is built by a constructor instead of malloc(), which is taken to succeed.
    While parseexec() runs, its variable [cmd] points to the EXEC node inside
    the tree [ret]; [add_arg] is the assignment through it. *)

From S2P Require Import Prelude User Layout.

Definition MAXARGS : Z := 10.

Inductive cmd : Type :=
| EXEC (argv : list (nat * nat))
| REDIR (c : cmd) (file efile : nat) (mode fd : Z)
| PIPE (left right : cmd)
| LIST (left right : cmd)
| BACK (c : cmd).

Definition whitespace : list Z := [32; 9; 13; 10; 11].
Definition symbols : list Z := bytes "<|>&;()".

(** strchr(toks, c) != 0 *)
Definition among (toks : list Z) (c : Z) : bool := match strchr toks c with Some _ => true | None => false end.

Abbreviation Ps := (M nat).

Section Parser.
Variable buf : list Z.

(** *s *)
Definition char_at (s : nat) : Z := nth s buf 0.

(** while(s < es && test( *s )) s++; *)
Fixpoint skip (test : Z -> bool) (k s : nat) : nat :=
  match k with
  | O => s
  | S k' => if test (char_at s) then skip test k' (S s) else s
  end.
Definition skip_while (test : Z -> bool) (s : nat) : nat := skip test (length buf - s) s.

(** The token, and where it starts ( *q ) and ends ( *eq ). *)
Definition gettoken : Ps (Z * nat * nat) := fun s =>
  let s := skip_while (among whitespace) s in
  let q := s in
  let c := char_at s in
  let '(tok, s) :=
    if c =? 0 then (c, s)
    else if among (bytes "|();&<") c then (c, S s)
    else if c =? chr ">" then
      if char_at (S s) =? chr ">" then (chr "+", S (S s)) else (c, S s)
    else (chr "a", skip_while (fun x => negb (among whitespace x) && negb (among symbols x)) s) in
  let eq := s in
  Ok (tok, q, eq) (skip_while (among whitespace) s).

Definition peek (toks : list Z) : Ps bool := fun s =>
  let s := skip_while (among whitespace) s in
  Ok (negb (char_at s =? 0) && among toks (char_at s)) s.

Fixpoint parseredirs (fuel : nat) (c : cmd) : Ps cmd :=
  match fuel with
  | O => diverge
  | S f =>
      let* more := peek (bytes "<>") in
      if more then
        let* t := gettoken in
        let* a := gettoken in
        let tok := t.1.1 in
        let '(kind, q, eq) := a in
        if negb (kind =? chr "a") then panic "missing file for redirection"
        else
          let c :=
            if tok =? chr "<" then REDIR c q eq O_RDONLY 0
            else if tok =? chr ">" then REDIR c q eq (Z.lor (Z.lor O_WRONLY O_CREATE) O_TRUNC) 1
            else if tok =? chr "+" then REDIR c q eq (Z.lor O_WRONLY O_CREATE) 1
            else c in
          parseredirs f c
      else ret c
  end.

(** cmd->argv[argc] = q; cmd->eargv[argc] = eq; for the node [cmd] inside [ret]. *)
Fixpoint add_arg (c : cmd) (a : nat * nat) : cmd :=
  match c with
  | EXEC argv => EXEC (argv ++ [a])
  | REDIR c file efile mode fd => REDIR (add_arg c a) file efile mode fd
  | c => c
  end.

Fixpoint parseexec_loop (fuel : nat) (c : cmd) (argc : Z) : Ps cmd :=
  match fuel with
  | O => diverge
  | S f =>
      let* stop := peek (bytes "|)&;") in
      if stop then ret c
      else
        let* t := gettoken in
        let '(tok, q, eq) := t in
        if tok =? 0 then ret c
        else if negb (tok =? chr "a") then panic "syntax"
        else
          let c := add_arg c (q, eq) in
          let argc := argc + 1 in
          if MAXARGS <=? argc then panic "too many args"
          else
            let* c := parseredirs (S (length buf)) c in
            parseexec_loop f c argc
  end.

(** while(peek(ps, es, "&")) cmd = backcmd(cmd) *)
Fixpoint parse_back (fuel : nat) (c : cmd) : Ps cmd :=
  match fuel with
  | O => diverge
  | S f =>
      let* b := peek (bytes "&") in
      if b then gettoken ;; parse_back f (BACK c) else ret c
  end.

Fixpoint parseline (fuel : nat) : Ps cmd :=
  match fuel with
  | O => diverge
  | S f =>
      let* c := parsepipe f in
      let* c := parse_back (S (length buf)) c in
      let* b := peek (bytes ";") in
      if b then
        gettoken ;;
        let* r := parseline f in
        ret (LIST c r)
      else ret c
  end
with parsepipe (fuel : nat) : Ps cmd :=
  match fuel with
  | O => diverge
  | S f =>
      let* c := parseexec f in
      let* b := peek (bytes "|") in
      if b then
        gettoken ;;
        let* r := parsepipe f in
        ret (PIPE c r)
      else ret c
  end
with parseexec (fuel : nat) : Ps cmd :=
  match fuel with
  | O => diverge
  | S f =>
      let* b := peek (bytes "(") in
      if b then parseblock f
      else
        let* c := parseredirs (S (length buf)) (EXEC []) in
        parseexec_loop (S (length buf)) c 0
  end
with parseblock (fuel : nat) : Ps cmd :=
  match fuel with
  | O => diverge
  | S f =>
      let* b := peek (bytes "(") in
      if negb b then panic "parseblock"
      else
        gettoken ;;
        let* c := parseline f in
        let* b := peek (bytes ")") in
        if negb b then panic "syntax - missing )"
        else
          gettoken ;;
          parseredirs (S (length buf)) c
  end.
End Parser.

(** NUL-terminate all the counted strings. *)
Fixpoint nulterminate (c : cmd) (buf : list Z) : list Z :=
  match c with
  | EXEC argv => fold_left (fun b a => <[a.2 := 0]> b) argv buf
  | REDIR c _ efile _ _ => <[efile := 0]> (nulterminate c buf)
  | PIPE l r => nulterminate r (nulterminate l buf)
  | LIST l r => nulterminate r (nulterminate l buf)
  | BACK c => nulterminate c buf
  end.

(** The C string at the start of [l]. *)
Fixpoint cstring (l : list Z) : list Z :=
  match l with
  | [] => []
  | c :: l' => if c =? 0 then [] else c :: cstring l'
  end.

(** The bytes of a message as a string. *)
Definition text (l : list Z) : string :=
  fold_right (fun c => String (Ascii.ascii_of_nat (Z.to_nat c))) EmptyString l.

(** Every recursive call but four in a row consumes a byte.  The result is the
    tree and the buffer with the NULs. *)
Definition parsecmd (s : list Z) : outcome nat (cmd * list Z) :=
  (let* c := parseline s (4 * length s + 4) in
   peek s [] ;;
   let* s1 := (fun p => Ok p p) in
   if negb (s1 =? length s)%nat then panic (text (bytes "leftovers: " ++ drop s1 s ++ [10] ++ bytes "syntax"))
   else ret (c, nulterminate c s)) O.
