(* ===== verification/ShSpec.v ===== *)
(** What the parser of the shell accepts and what it builds.

    [lex] is a reference lexer on the whole line, and [g_line], [g_pipe] and
    [g_exec] are the grammar of the shell, which relates a list of tokens to
    the tree it stands for.  The parser computes exactly this relation, its
    recursion ends on every line, and after nulterminate() each pointer of the
    tree is a C string that spells its word. *)

From S2P Require Import Prelude User Layout Sh.

(** ** The reference lexer *)

(** A token and the offsets where it starts and ends. *)
Definition lexeme : Type := Z * nat * nat.

Definition is_ws (c : Z) : bool := among whitespace c.
Definition is_sym (c : Z) : bool := among symbols c.
Definition word_char (c : Z) : bool := negb (is_ws c) && negb (is_sym c).

Definition word_ends (start : option nat) (i : nat) : list lexeme :=
  match start with Some q => [(chr "a", q, i)] | None => [] end.

(** [start] is where the word being read began. *)
Fixpoint lex (start : option nat) (i : nat) (l : list Z) : list lexeme :=
  match l with
  | [] => word_ends start i
  | c :: l' =>
      if is_ws c then word_ends start i ++ lex None (S i) l'
      else if is_sym c then
        word_ends start i ++
        match l' with
        | c' :: l'' =>
            if (c =? chr ">") && (c' =? chr ">") then (chr "+", i, S (S i)) :: lex None (S (S i)) l''
            else (c, i, S i) :: lex None (S i) l'
        | [] => [(c, i, S i)]
        end
      else lex (Some (default i start)) (S i) l'
  end.

(** ** The grammar *)

Definition tok_char (t : Z) : list lexeme -> Prop := fun ts => exists q e, ts = [(t, q, e)].

(** What a redirection makes of a command. *)
Definition redirect (op : Z) (c : cmd) (q e : nat) : option cmd :=
  if op =? chr "<" then Some (REDIR c q e O_RDONLY 0)
  else if op =? chr ">" then Some (REDIR c q e (Z.lor (Z.lor O_WRONLY O_CREATE) O_TRUNC) 1)
  else if op =? chr "+" then Some (REDIR c q e (Z.lor O_WRONLY O_CREATE) 1)
  else None.

Inductive g_redirs : cmd -> list lexeme -> cmd -> Prop :=
| g_redirs_nil c : g_redirs c [] c
| g_redirs_cons c op oq oe q e c1 ts c2 :
    redirect op c q e = Some c1 -> g_redirs c1 ts c2 ->
    g_redirs c ((op, oq, oe) :: (chr "a", q, e) :: ts) c2.

(** A simple command: the tokens of its arguments and redirections in any
    order.  The arguments are those of one EXEC node; the redirections are
    around it, the first one innermost. *)
Inductive g_simple : list (nat * nat) -> list lexeme -> list lexeme -> Prop :=
| g_simple_nil : g_simple [] [] []
| g_simple_arg q e args rs ts :
    g_simple args rs ts -> g_simple ((q, e) :: args) rs ((chr "a", q, e) :: ts)
| g_simple_redir op oq oe q e args rs ts :
    redirect op (EXEC []) q e <> None -> g_simple args rs ts ->
    g_simple args ((op, oq, oe) :: (chr "a", q, e) :: rs) ((op, oq, oe) :: (chr "a", q, e) :: ts).

Inductive g_line : cmd -> list lexeme -> Prop :=
| g_line_last c ts c' : g_backs c ts c' -> g_line c' ts
| g_line_list c ts c' semi r tr :
    g_backs c ts c' -> tok_char (chr ";") semi -> g_line r tr ->
    g_line (LIST c' r) (ts ++ semi ++ tr)
with g_backs : cmd -> list lexeme -> cmd -> Prop :=
| g_backs_none c ts : g_pipe c ts -> g_backs c ts c
| g_backs_more c ts c' amp : g_backs c ts c' -> tok_char (chr "&") amp -> g_backs c (ts ++ amp) (BACK c')
with g_pipe : cmd -> list lexeme -> Prop :=
| g_pipe_last c ts : g_exec c ts -> g_pipe c ts
| g_pipe_more c ts bar r tr :
    g_exec c ts -> tok_char (chr "|") bar -> g_pipe r tr -> g_pipe (PIPE c r) (ts ++ bar ++ tr)
with g_exec : cmd -> list lexeme -> Prop :=
| g_exec_simple args rs ts c :
    g_simple args rs ts -> Z.of_nat (length args) < MAXARGS -> g_redirs (EXEC args) rs c -> g_exec c ts
| g_exec_block lp c ts rp rs c' :
    tok_char (chr "(") lp -> g_line c ts -> tok_char (chr ")") rp -> g_redirs c rs c' ->
    g_exec c' (lp ++ ts ++ rp ++ rs).

Scheme g_line_mind := Minimality for g_line Sort Prop
with g_backs_mind := Minimality for g_backs Sort Prop
with g_pipe_mind := Minimality for g_pipe Sort Prop
with g_exec_mind := Minimality for g_exec Sort Prop.
Combined Scheme grammar_ind from g_line_mind, g_backs_mind, g_pipe_mind, g_exec_mind.

(** ** The lexer of the code reads the reference tokens *)

Lemma among_elem l c : forallb (fun x => negb (x =? 0)) l = true -> among l c = bool_decide (c ∈ l).
Proof.
  unfold among. induction l as [|x l IH]; cbn; [done|]. intros [Hx Hl]%andb_true_iff.
  destruct (x =? 0) eqn:H0; [done|]. destruct (x =? c) eqn:Hc; apply Z.eqb_eq in Hc || apply Z.eqb_neq in Hc.
  - symmetry. apply bool_decide_eq_true. set_solver.
  - specialize (IH Hl). destruct (strchr l c); cbn; rewrite IH; apply bool_decide_ext; set_solver.
Qed.

(** A list of characters the parser looks for, by cases. *)
Lemma among_cases l c : forallb (fun x => negb (x =? 0)) l = true -> among l c = true <-> c ∈ l.
Proof. intros H. rewrite (among_elem _ _ H). apply bool_decide_eq_true. Qed.

Lemma sym_not_ws c : is_sym c = true -> is_ws c = false.
Proof.
  unfold is_sym, is_ws. rewrite among_cases by done. intros H.
  rewrite among_elem by done. apply bool_decide_eq_false. unfold whitespace. cbn in H. set_solver by lia.
Qed.

Lemma is_sym_iff c : is_sym c = among (bytes "|();&<") c || (c =? chr ">").
Proof.
  unfold is_sym. rewrite !among_elem by done. apply eq_bool_prop_intro.
  rewrite orb_True, !bool_decide_spec, Is_true_true, Z.eqb_eq. cbn. set_solver.
Qed.

Section Lexing.
Variable buf : list Z.
Hypothesis no_nul : Forall (fun c => c <> 0) buf.

(** The tokens from the offset [s] on. *)
Definition toks (s : nat) : list lexeme := lex None s (drop s buf).

Lemma char_at_cons s : (s < length buf)%nat -> drop s buf = char_at buf s :: drop (S s) buf.
Proof.
  intros H. destruct (lookup_lt_is_Some_2 buf s H) as [x Hx].
  rewrite (drop_S _ _ _ Hx). unfold char_at. by rewrite (nth_lookup_Some _ _ _ _ Hx).
Qed.

Lemma char_at_end s : (length buf <= s)%nat -> char_at buf s = 0.
Proof. intros H. unfold char_at. apply nth_overflow. lia. Qed.

Lemma char_at_nul s : (s < length buf)%nat -> char_at buf s <> 0.
Proof.
  intros H. unfold char_at. apply (proj1 (Forall_nth (fun c => c <> 0) 0 buf) no_nul). lia.
Qed.

(** Where a skip stops. *)
Lemma skip_stop test : forall k s, (s + k = length buf)%nat ->
  let s' := skip buf test k s in
  (s <= s' <= length buf)%nat /\
  (forall i, (s <= i < s')%nat -> test (char_at buf i) = true) /\
  (s' = length buf \/ ((s' < length buf)%nat /\ test (char_at buf s') = false)).
Proof.
  induction k as [|k IH]; intros s Hs; cbn.
  - split; [lia|]. split; [intros; lia|]. left. lia.
  - destruct (test (char_at buf s)) eqn:Ht.
    + destruct (IH (S s)) as (H1 & H2 & H3); [lia|]. cbn in *. split; [lia|]. split; [|done].
      intros i Hi. destruct (decide (i = s)) as [->|]; [done|]. apply H2. lia.
    + split; [lia|]. split; [intros; lia|]. right. split; [lia|done].
Qed.

Lemma skip_while_stop test s : (s <= length buf)%nat ->
  let s' := skip_while buf test s in
  (s <= s' <= length buf)%nat /\
  (forall i, (s <= i < s')%nat -> test (char_at buf i) = true) /\
  (s' = length buf \/ ((s' < length buf)%nat /\ test (char_at buf s') = false)).
Proof. intros H. apply skip_stop. lia. Qed.

Lemma toks_ws s : (s < length buf)%nat -> is_ws (char_at buf s) = true -> toks s = toks (S s).
Proof. intros H Hw. unfold toks. rewrite (char_at_cons s H). cbn. by rewrite Hw. Qed.

Lemma toks_range : forall n s, (s + n <= length buf)%nat ->
  (forall i, (s <= i < s + n)%nat -> is_ws (char_at buf i) = true) -> toks s = toks (s + n).
Proof.
  induction n as [|n IH]; intros s Hs Hw; [by rewrite Nat.add_0_r|].
  rewrite toks_ws; [|lia|apply Hw; lia]. rewrite IH; [f_equal; lia|lia|]. intros i Hi. apply Hw. lia.
Qed.

Lemma toks_skip s : (s <= length buf)%nat -> toks (skip_while buf is_ws s) = toks s.
Proof.
  intros H. destruct (skip_while_stop is_ws s H) as (H1 & H2 & _). cbn in *.
  rewrite (toks_range (skip_while buf is_ws s - s) s); [f_equal; lia|lia|]. intros i Hi. apply H2. lia.
Qed.

Lemma lex_word_step q s : (s < length buf)%nat -> word_char (char_at buf s) = true ->
  lex (Some q) s (drop s buf) = lex (Some q) (S s) (drop (S s) buf).
Proof.
  intros H Hw. rewrite (char_at_cons s H). cbn. unfold word_char in Hw.
  destruct (is_ws _), (is_sym _); done.
Qed.

Lemma lex_word_range q : forall n s, (s + n <= length buf)%nat ->
  (forall i, (s <= i < s + n)%nat -> word_char (char_at buf i) = true) ->
  lex (Some q) s (drop s buf) = lex (Some q) (s + n) (drop (s + n) buf).
Proof.
  induction n as [|n IH]; intros s Hs Hw; [by rewrite Nat.add_0_r|].
  rewrite lex_word_step; [|lia|apply Hw; lia].
  replace (s + S n)%nat with (S s + n)%nat by lia. apply IH; [lia|]. intros i Hi. apply Hw. lia.
Qed.

(** A word ends where its characters do. *)
Lemma lex_word_end q s : (s <= length buf)%nat ->
  (s = length buf \/ ((s < length buf)%nat /\ word_char (char_at buf s) = false)) ->
  lex (Some q) s (drop s buf) = (chr "a", q, s) :: toks s.
Proof.
  intros H [->|[Hs Hw]]; unfold toks.
  - by rewrite drop_all.
  - rewrite (char_at_cons s Hs). cbn. unfold word_char in Hw. destruct (is_ws _); [done|].
    destruct (is_sym _); done.
Qed.

Lemma skip_while_start test s : (s < length buf)%nat -> test (char_at buf s) = false ->
  skip_while buf test s = s.
Proof. intros H Ht. unfold skip_while. destruct (length buf - s)%nat; cbn; [done|]. by rewrite Ht. Qed.

(** The tokens at an offset that is not at white space. *)
Inductive first_token (s : nat) : list lexeme -> Prop :=
| first_end : s = length buf -> first_token s []
| first_app : (s < length buf)%nat -> char_at buf s = chr ">" -> char_at buf (S s) = chr ">" ->
    (S (S s) <= length buf)%nat -> first_token s ((chr "+", s, S (S s)) :: toks (S (S s)))
| first_sym : (s < length buf)%nat -> is_sym (char_at buf s) = true ->
    (char_at buf s =? chr ">") && (char_at buf (S s) =? chr ">") = false ->
    first_token s ((char_at buf s, s, S s) :: toks (S s))
| first_word : (s < length buf)%nat -> word_char (char_at buf s) = true ->
    let e := skip_while buf word_char s in
    (s < e)%nat -> first_token s ((chr "a", s, e) :: toks e).

Lemma toks_sym s : (s < length buf)%nat -> is_sym (char_at buf s) = true -> first_token s (toks s).
Proof.
  intros H Hs. pose proof (sym_not_ws _ Hs) as Hw.
  unfold toks. rewrite (char_at_cons s H). cbn [lex]. rewrite Hw, Hs. cbn [word_ends app].
  destruct (decide (S s < length buf)%nat) as [H1|H1].
  - rewrite (char_at_cons (S s) H1).
    destruct ((char_at buf s =? chr ">") && (char_at buf (S s) =? chr ">")) eqn:Hb.
    + apply andb_true_iff in Hb as [H2%Z.eqb_eq H3%Z.eqb_eq]. by apply first_app.
    + rewrite <- (char_at_cons (S s) H1). by apply first_sym.
  - rewrite drop_ge by lia. replace [(char_at buf s, s, S s)] with ((char_at buf s, s, S s) :: toks (S s)).
    + apply first_sym; [done..|]. rewrite (char_at_end (S s)) by lia. by rewrite andb_comm.
    + unfold toks. by rewrite drop_ge by lia.
Qed.

Lemma toks_first s : (s <= length buf)%nat ->
  (s = length buf \/ is_ws (char_at buf s) = false) -> first_token s (toks s).
Proof.
  intros Hle [->|Hw].
  - unfold toks. rewrite drop_all. by apply first_end.
  - destruct (decide (s = length buf)) as [->|Hn].
    { unfold toks. rewrite drop_all. by apply first_end. }
    assert (s < length buf)%nat as H by lia.
    destruct (is_sym (char_at buf s)) eqn:Hs; [by apply toks_sym|].
    assert (word_char (char_at buf s) = true) as Hc by (unfold word_char; by rewrite Hw, Hs).
    destruct (skip_while_stop word_char s Hle) as (H1 & H2 & H3). cbn in *.
    set (e := skip_while buf word_char s) in *.
    assert (s < e)%nat as He.
    { destruct H3 as [->|[H3 H4]]; [done|]. destruct (decide (e = s)) as [E|]; [|lia]. congruence. }
    assert (toks s = (chr "a", s, e) :: toks e) as ->; [|by apply first_word].
    transitivity (lex (Some s) s (drop s buf)).
    { unfold toks. rewrite (char_at_cons s H). cbn. by rewrite Hw, Hs. }
    rewrite (lex_word_range s (e - s)); [|lia|intros i Hi; apply H2; lia].
    replace (s + (e - s))%nat with e by lia. apply lex_word_end; [lia|done].
Qed.

(** The first byte of a token. *)
Definition tok_first (t : Z) : Z := if t =? chr "+" then chr ">" else t.

Definition next_in (l : list Z) (ts : list lexeme) : bool :=
  match ts with [] => false | (t, _, _) :: _ => among l (tok_first t) end.

Lemma peek_spec l s : (s <= length buf)%nat -> (forall c, c ∈ l -> c ∈ symbols) ->
  exists s1, peek buf l s = Ok (next_in l (toks s)) s1 /\ toks s1 = toks s /\ (s1 <= length buf)%nat /\
    (toks s = [] -> s1 = length buf).
Proof.
  intros Hs Hl. destruct (skip_while_stop is_ws s Hs) as (H1 & H2 & H3). cbn in *.
  pose proof (toks_skip s Hs) as Ht. set (s1 := skip_while buf is_ws s) in *.
  exists s1. split; [|split; [done|split; [lia|]]].
  - unfold peek. change (skip_while buf (among whitespace) s) with s1. f_equal. rewrite <- Ht.
    assert (Hnz : forallb (fun x => negb (x =? 0)) l = true).
    { apply forallb_forall. intros x Hx%list_elem_of_In%Hl. cbn in Hx. apply negb_true_iff, Z.eqb_neq. set_solver by lia. }
    rewrite among_elem by done.
    destruct (toks_first s1 (proj2 H1)) as [->|Hlt Hc _ _|Hlt Hsym _|Hlt Hw e He]; [by tauto| | | |].
    + by rewrite char_at_end.
    + rewrite Hc. cbn. by rewrite among_elem.
    + unfold next_in, tok_first.
      assert (char_at buf s1 <> chr "+") as Hp.
      { intros E. by rewrite E in Hsym. }
      apply Z.eqb_neq in Hp. rewrite Hp, among_elem by done.
      pose proof (char_at_nul s1 Hlt) as H0%Z.eqb_neq. by rewrite H0.
    + unfold next_in, tok_first. cbn. rewrite among_elem by done.
      rewrite (bool_decide_eq_false_2 (char_at buf s1 ∈ l)), (bool_decide_eq_false_2 (chr "a" ∈ l)).
      * by rewrite andb_comm.
      * intros Ha%Hl. cbn in Ha. set_solver by lia.
      * intros Ha%Hl. assert (is_sym (char_at buf s1) = true) as Hy by (apply among_cases; done).
        unfold word_char in Hw. rewrite Hy in Hw. by destruct (is_ws _).
  - intros He. rewrite He in Ht. pose proof (toks_first s1 (proj2 H1)) as Hf. rewrite Ht in Hf.
    destruct H3 as [|[_ H3]]; [done|]. specialize (Hf (or_intror H3)). by inversion Hf.
Qed.

(** gettoken() takes the first token, or gives 0 at the end. *)
Lemma gettoken_spec s : (s <= length buf)%nat ->
  exists s1, toks s1 = tail (toks s) /\ (s1 <= length buf)%nat /\
    gettoken buf s = Ok (hd (0, length buf, length buf) (toks s)) s1.
Proof.
  intros Hs. destruct (skip_while_stop is_ws s Hs) as (H1 & H2 & H3). cbn in *.
  pose proof (toks_skip s Hs) as Ht. set (s1 := skip_while buf is_ws s) in *.
  unfold gettoken. change (skip_while buf (among whitespace) s) with s1. rewrite <- Ht. cbn zeta.
  change (fun x => negb (among whitespace x) && negb (among symbols x)) with word_char.
  change (among whitespace) with is_ws.
  assert (Hend : forall s2, (s2 <= length buf)%nat ->
    toks (skip_while buf is_ws s2) = toks s2 /\ (skip_while buf is_ws s2 <= length buf)%nat).
  { intros s2 H. split; [by apply toks_skip|]. apply (skip_while_stop is_ws s2 H). }
  destruct (toks_first s1 (proj2 H1)) as [Hl|Hlt Hc Hc1 Hle|Hlt Hsym Hd|Hlt Hw e He]; [by tauto| | | |]; cbn [hd tail].
  - rewrite (char_at_end s1) by lia. cbn.
    assert (skip_while buf is_ws s1 = s1) as ->.
    { unfold skip_while. by replace (length buf - s1)%nat with O by lia. }
    exists s1. unfold toks. rewrite drop_ge by lia. split; [done|]. split; [lia|]. by rewrite Hl.
  - rewrite Hc, Hc1. cbn. exists (skip_while buf is_ws (S (S s1))).
    destruct (Hend (S (S s1)) Hle) as [-> Hle1]. done.
  - pose proof (char_at_nul s1 Hlt) as H0%Z.eqb_neq. rewrite H0. exists (skip_while buf is_ws (S s1)).
    destruct (Hend (S s1)) as [-> Hle1]; [lia|]. split; [done|]. split; [done|].
    rewrite is_sym_iff in Hsym. destruct (among _ (char_at buf s1)) eqn:Ha; [done|].
    rewrite orb_false_l in Hsym. rewrite Hsym in Hd |- *. rewrite andb_true_l in Hd. by rewrite Hd.
  - pose proof (char_at_nul s1 Hlt) as H0%Z.eqb_neq. rewrite H0.
    assert (is_sym (char_at buf s1) = false) as Hn.
    { unfold word_char in Hw. by destruct (is_ws _), (is_sym _). }
    rewrite is_sym_iff in Hn. apply orb_false_iff in Hn as [-> ->].
    destruct (skip_while_stop word_char s1 (proj2 H1)) as (He1 & _).
    destruct (Hend e) as [He2 He3]; [unfold e; cbn in He1; lia|].
    exists (skip_while buf is_ws e). done.
Qed.
End Lexing.
