(* ===== verification/ShProof.v ===== *)
(** The parser of the shell computes the grammar of ShSpec.v. *)

From S2P Require Import Prelude User Layout Sh ShSpec.

(** ** Facts on the grammar *)

Lemma redirect_add op c q e c1 a :
  redirect op c q e = Some c1 -> redirect op (add_arg c a) q e = Some (add_arg c1 a).
Proof. unfold redirect. repeat case_match; intros; simplify_eq; done. Qed.

Lemma redirect_fold args : forall op c q e c1, redirect op c q e = Some c1 ->
  redirect op (fold_left add_arg args c) q e = Some (fold_left add_arg args c1).
Proof. induction args as [|a args IH]; intros; cbn; [done|]. by apply IH, redirect_add. Qed.

Lemma redirect_any op c c' q e : redirect op c q e <> None -> redirect op c' q e <> None.
Proof. unfold redirect. by repeat case_match. Qed.

Lemma g_redirs_add c rs c' a : g_redirs c rs c' -> g_redirs (add_arg c a) rs (add_arg c' a).
Proof. induction 1; econstructor; eauto using redirect_add. Qed.

Lemma g_redirs_app c rs c1 rs' c2 : g_redirs c rs c1 -> g_redirs c1 rs' c2 -> g_redirs c (rs ++ rs') c2.
Proof. induction 1; [done|]. intros. cbn. econstructor; eauto. Qed.

Lemma g_simple_redirs c rs c' : g_redirs c rs c' -> g_simple [] rs rs.
Proof. induction 1 as [|c op oq oe q e c1 ts c2 H]; constructor; [|done]. eapply redirect_any. by rewrite H. Qed.

Lemma g_simple_app args rs ts args' rs' ts' :
  g_simple args rs ts -> g_simple args' rs' ts' -> g_simple (args ++ args') (rs ++ rs') (ts ++ ts').
Proof. induction 1; [done|..]; intros; cbn; constructor; auto. Qed.

Lemma redirect_op op c q e : redirect op c q e <> None <-> among (bytes "<>") (tok_first op) = true.
Proof.
  rewrite among_cases by done. unfold redirect, tok_first.
  destruct (op =? chr "<") eqn:H1; [apply Z.eqb_eq in H1 as ->; cbn; set_solver|].
  destruct (op =? chr ">") eqn:H2; [apply Z.eqb_eq in H2 as ->; cbn; set_solver|].
  destruct (op =? chr "+") eqn:H3; [cbn; set_solver|].
  apply Z.eqb_neq in H1, H2. cbn in *. set_solver.
Qed.

(** The next token is the end or one of [l]. *)
Definition follow (l : list Z) (ts : list lexeme) : Prop := ts = [] \/ next_in l ts = true.

Lemma follow_not l l' ts : follow l ts ->
  forallb (fun c => negb (among l' c)) l && forallb (fun x => negb (x =? 0)) l = true -> next_in l' ts = false.
Proof.
  intros [->|H] [Hd Hl]%andb_true_iff; [done|]. destruct ts as [|[[t q] e] ts]; [done|]. cbn in *.
  apply among_cases, list_elem_of_In in H; [|done]. rewrite forallb_forall in Hd.
  by apply negb_true_iff, Hd.
Qed.

Lemma follow_weaken l l' ts : follow l ts ->
  forallb (among l') l && forallb (fun x => negb (x =? 0)) l = true -> follow l' ts.
Proof.
  intros [->|H] [Hd Hl]%andb_true_iff; [by left|]. right. destruct ts as [|[[t q] e] ts]; [done|]. cbn in *.
  apply among_cases, list_elem_of_In in H; [|done]. rewrite forallb_forall in Hd. by apply Hd.
Qed.

Lemma follow_tok c tk l ts : tok_char c tk -> among l (tok_first c) = true -> follow l (tk ++ ts).
Proof. intros (q & e & ->) H. right. done. Qed.

(** ** Tokens are not 0, and no more than the bytes *)

Lemma lex_ind_len (P : list Z -> Prop) :
  P [] -> (forall c, P [c]) -> (forall c c' l, P (c' :: l) -> P l -> P (c :: c' :: l)) -> forall l, P l.
Proof.
  intros H0 H1 H2 l. cut (P l /\ forall c, P (c :: l)); [tauto|].
  induction l as [|x l [IH1 IH2]]; split; auto.
Qed.

Lemma lex_two st i c c' l : lex st i (c :: c' :: l) =
  if is_ws c then word_ends st i ++ lex None (S i) (c' :: l)
  else if is_sym c then word_ends st i ++
    (if (c =? chr ">") && (c' =? chr ">") then (chr "+", i, S (S i)) :: lex None (S (S i)) l
     else (c, i, S i) :: lex None (S i) (c' :: l))
  else lex (Some (default i st)) (S i) (c' :: l).
Proof. reflexivity. Qed.

Lemma lex_nonzero l : Forall (fun c => c <> 0) l ->
  forall st i, Forall (fun t : lexeme => t.1.1 <> 0) (lex st i l).
Proof.
  assert (forall st i, Forall (fun t : lexeme => t.1.1 <> 0) (word_ends st i)) as Hw.
  { intros [q|] i; cbn; [by repeat constructor|done]. }
  induction l as [|c|c c' l IH1 IH2] using lex_ind_len; intros Hl st i.
  - apply Hw.
  - cbn. inversion_clear Hl. destruct (is_ws c); [apply Forall_app; eauto|].
    destruct (is_sym c); [apply Forall_app; split; [done|by repeat constructor]|apply (Hw (Some _))].
  - inversion_clear Hl as [|? ? Hc Hl1]. specialize (IH1 Hl1). inversion_clear Hl1 as [|? ? Hc' Hl2]. specialize (IH2 Hl2).
    rewrite lex_two.
    destruct (is_ws c); [apply Forall_app; eauto|]. destruct (is_sym c); [|done].
    apply Forall_app. split; [done|]. destruct (_ && _); constructor; done.
Qed.

Lemma lex_length l : forall st i, (length (lex st i l) <= length l + length (word_ends st i))%nat.
Proof.
  induction l as [|c|c c' l IH1 IH2] using lex_ind_len; intros st i.
  - cbn. lia.
  - cbn. destruct (is_ws c), (is_sym c); cbn; rewrite ?length_app; cbn; destruct st; cbn; lia.
  - rewrite lex_two.
    pose proof (IH1 None (S i)). pose proof (IH2 None (S (S i))). pose proof (IH1 (Some (default i st)) (S i)).
    destruct (is_ws c), (is_sym c); try destruct (_ && _); rewrite ?length_app; cbn [length word_ends] in *; lia.
Qed.

Section Parsing.
Variable buf : list Z.
Hypothesis no_nul : Forall (fun c => c <> 0) buf.

(** The offset [s] is before the tokens [ts]. *)
Definition at_toks (s : nat) (ts : list lexeme) : Prop := (s <= length buf)%nat /\ toks buf s = ts.

Lemma at_length s ts : at_toks s ts -> (length ts <= length buf)%nat.
Proof.
  intros [Hs <-]. unfold toks. etrans; [apply lex_length|]. rewrite length_drop. cbn. lia.
Qed.

Lemma at_nonzero s t q e ts : at_toks s ((t, q, e) :: ts) -> (t =? 0) = false.
Proof.
  intros [Hs Ht]. apply Z.eqb_neq.
  assert (Forall (fun t : lexeme => t.1.1 <> 0) (toks buf s)) as H by (apply lex_nonzero, Forall_drop, no_nul).
  rewrite Ht in H. by inversion H.
Qed.

Lemma peek_at l s ts : at_toks s ts -> forallb (among symbols) l = true ->
  exists s1, peek buf l s = Ok (next_in l ts) s1 /\ at_toks s1 ts.
Proof.
  intros [Hs <-] Hl. destruct (peek_spec buf no_nul l s Hs) as (s1 & H1 & H2 & H3 & _).
  - intros c Hc%list_elem_of_In. rewrite forallb_forall in Hl. specialize (Hl c Hc). by apply among_cases in Hl.
  - exists s1. done.
Qed.

Lemma gettoken_at s t ts : at_toks s (t :: ts) -> exists s1, gettoken buf s = Ok t s1 /\ at_toks s1 ts.
Proof.
  intros [Hs Ht]. destruct (gettoken_spec buf no_nul s Hs) as (s1 & H1 & H2 & H3).
  exists s1. rewrite Ht in H1, H3. done.
Qed.

Lemma gettoken_end s : at_toks s [] -> exists s1, gettoken buf s = Ok (0, length buf, length buf) s1 /\ at_toks s1 [].
Proof.
  intros [Hs Ht]. destruct (gettoken_spec buf no_nul s Hs) as (s1 & H1 & H2 & H3).
  exists s1. rewrite Ht in H1, H3. done.
Qed.

(** ** What is parsed is in the grammar, and parsing ends *)

(** [m] ends before [ts]: with an error message, or with a tree related by [G]
    to the tokens it has taken. *)
Definition sound (G : cmd -> list lexeme -> Prop) (m : Ps cmd) (ts : list lexeme) : Prop :=
  forall s, at_toks s ts ->
  (exists msg s1, m s = Panic msg s1) \/
  (exists c s1 used rest, m s = Ok c s1 /\ ts = used ++ rest /\ at_toks s1 rest /\ G c used).

Lemma sound_ret (G : cmd -> list lexeme -> Prop) c ts : G c [] -> sound G (ret c) ts.
Proof. intros H s Hs. right. exists c, s, [], ts. done. Qed.

Lemma sound_panic G msg ts : sound G (panic msg) ts.
Proof. intros s Hs. left. eexists _, _. done. Qed.

Lemma sound_intro G m ts : (forall s, at_toks s ts -> sound G m ts) -> sound G m ts.
Proof. intros H s Hs. by apply (H s). Qed.

Lemma sound_weaken (G G' : cmd -> list lexeme -> Prop) m ts : (forall c u, G c u -> G' c u) -> sound G m ts -> sound G' m ts.
Proof.
  intros H Hm s Hs. destruct (Hm s Hs) as [?|(c & s1 & u & r & H1 & H2 & H3 & H4)]; [by left|].
  right. exists c, s1, u, r. auto.
Qed.

Lemma sound_bind (G : cmd -> list lexeme -> Prop) G' m k ts :
  sound G m ts ->
  (forall c used rest, ts = used ++ rest -> G c used -> sound (fun c' u => G' c' (used ++ u)) (k c) rest) ->
  sound G' (bind m k) ts.
Proof.
  intros Hm Hk s Hs. destruct (Hm s Hs) as [(msg & s1 & E)|(c & s1 & u & r & H1 & H2 & H3 & H4)].
  { left. exists msg, s1. unfold bind. by rewrite E. }
  run H1. destruct (Hk c u r H2 H4 s1 H3) as [?|(c' & s2 & u' & r' & E1 & E2 & E3 & E4)]; [by left|].
  right. exists c', s2, (u ++ u'), r'. split; [done|]. split; [|done]. rewrite <- app_assoc, <- E2. done.
Qed.

Lemma sound_peek G l k ts : forallb (among symbols) l = true ->
  sound G (k (next_in l ts)) ts -> sound G (bind (peek buf l) k) ts.
Proof.
  intros Hl Hk s Hs. destruct (peek_at l s ts Hs Hl) as (s1 & H1 & H2).
  run H1. by apply Hk.
Qed.

Lemma sound_gettoken (G : cmd -> list lexeme -> Prop) k t ts :
  sound (fun c u => G c (t :: u)) (k t) ts -> sound G (bind (gettoken buf) k) (t :: ts).
Proof.
  intros Hk s Hs. destruct (gettoken_at s t ts Hs) as (s1 & H1 & H2).
  run H1. destruct (Hk s1 H2) as [?|(c & s2 & u & r & E1 & E2 & E3 & E4)]; [by left|].
  right. exists c, s2, (t :: u), r. rewrite E2. done.
Qed.

Lemma sound_gettoken_end G k :
  sound G (k (0, length buf, length buf)) [] -> sound G (bind (gettoken buf) k) [].
Proof.
  intros Hk s Hs. destruct (gettoken_end s Hs) as (s1 & H1 & H2). run H1. by apply Hk.
Qed.

Lemma next_in_cons l ts : next_in l ts = true -> exists t q e ts', ts = (t, q, e) :: ts' /\ among l (tok_first t) = true.
Proof. destruct ts as [|[[t q] e] ts]; [done|]. cbn. eauto 8. Qed.

Lemma one_char (c t : Z) : (c =? 0) = false -> (c =? chr ">") = false -> among [c] (tok_first t) = true -> t = c.
Proof.
  intros H0 H1 H. apply among_cases in H; [|cbn; by rewrite H0]. apply Z.eqb_neq in H1.
  unfold tok_first in H. case_match; set_solver.
Qed.

Lemma parseredirs_sound : forall f c ts, (length ts < f)%nat -> sound (fun c' u => g_redirs c u c') (parseredirs buf f c) ts.
Proof.
  induction f as [|f IH]; intros c ts Hf; [lia|]. cbn [parseredirs].
  apply sound_peek; [done|]. destruct (next_in _ ts) eqn:Hn; [|apply sound_ret; constructor].
  apply next_in_cons in Hn as (t & oq & oe & ts1 & -> & Ht). apply sound_gettoken.
  destruct ts1 as [|[[k q] e] ts2]; [apply sound_gettoken_end, sound_panic|].
  apply sound_gettoken. cbn zeta. cbn [fst snd].
  destruct (k =? chr "a") eqn:Hk; [apply Z.eqb_eq in Hk as ->|apply sound_panic]. cbn [negb].
  apply (redirect_op t c q e) in Ht. destruct (redirect t c q e) as [c1|] eqn:Hr; [|done].
  replace (if t =? chr "<" then _ else _) with c1.
  - eapply sound_weaken; [|apply (IH c1 ts2); cbn in Hf; lia]. intros c2 u Hu. econstructor; eauto.
  - unfold redirect in Hr. repeat case_match; by simplify_eq.
Qed.

(** What parseexec() has built when it has taken the tokens [used]. *)
Definition built (used : list lexeme) (argc : Z) (c : cmd) : Prop :=
  exists args rs, g_simple args rs used /\ Z.of_nat (length args) = argc /\ argc < MAXARGS /\ g_redirs (EXEC args) rs c.

Lemma built_redirs used argc c rs c' : built used argc c -> g_redirs c rs c' -> built (used ++ rs) argc c'.
Proof.
  intros (args & rs0 & H1 & H2 & H3 & H4) H. exists args, (rs0 ++ rs).
  split; [|split; [done|split; [done|by eapply g_redirs_app]]].
  rewrite <- (app_nil_r args). eapply g_simple_app; [done|by eapply g_simple_redirs].
Qed.

Lemma built_arg used argc c q e : built used argc c -> argc + 1 < MAXARGS ->
  built (used ++ [(chr "a", q, e)]) (argc + 1) (add_arg c (q, e)).
Proof.
  intros (args & rs & H1 & H2 & H3 & H4) H. exists (args ++ [(q, e)]), rs.
  split; [|split; [rewrite length_app; cbn; lia|split; [done|apply (g_redirs_add (EXEC args)); done]]].
  rewrite <- (app_nil_r rs). eapply g_simple_app; [done|]. repeat constructor.
Qed.

Lemma parseexec_loop_sound : forall f used argc c ts, (length ts < f)%nat -> built used argc c ->
  sound (fun c' u => exists n, built (used ++ u) n c') (parseexec_loop buf f c argc) ts.
Proof.
  induction f as [|f IH]; intros used argc c ts Hf Hb; [lia|]. cbn [parseexec_loop].
  assert (exists n, built (used ++ []) n c) as H0 by (exists argc; by rewrite app_nil_r).
  apply sound_peek; [done|]. destruct (next_in _ ts); [by apply sound_ret|].
  destruct ts as [|[[t q] e] ts]; [apply sound_gettoken_end; by apply sound_ret|].
  apply sound_intro. intros s0 Hs0. pose proof (at_nonzero _ _ _ _ _ Hs0) as Hz. pose proof (at_length _ _ Hs0) as Hlen.
  apply sound_gettoken. cbn beta iota zeta.
  rewrite Hz. destruct (t =? chr "a") eqn:Ht; cbn [negb]; [apply Z.eqb_eq in Ht as ->|apply sound_panic].
  destruct (MAXARGS <=? argc + 1) eqn:Hm; [apply sound_panic|]. apply Z.leb_gt in Hm.
  eapply sound_bind; [apply parseredirs_sound; cbn in Hlen; lia|]. intros c1 u rest -> Hr.
  eapply sound_weaken; [|apply (IH ((used ++ [(chr "a", q, e)]) ++ u) (argc + 1) c1)].
  - cbn. intros c2 u2 [n Hn]. exists n. by rewrite <- !app_assoc in Hn.
  - cbn in Hf. rewrite length_app in Hf. lia.
  - eapply built_redirs; [|done]. by apply built_arg.
Qed.

Lemma parse_back_sound : forall f c0 used c ts, (length ts < f)%nat -> g_backs c0 used c ->
  sound (fun c' u => g_backs c0 (used ++ u) c') (parse_back buf f c) ts.
Proof.
  induction f as [|f IH]; intros c0 used c ts Hf Hb; [lia|]. cbn [parse_back].
  apply sound_peek; [done|]. destruct (next_in _ ts) eqn:Hn; [|apply sound_ret; by rewrite app_nil_r].
  apply next_in_cons in Hn as (t & q & e & ts1 & -> & Ht%one_char); [subst t|done..]. apply sound_gettoken.
  eapply sound_weaken; [|apply (IH c0 (used ++ [(chr "&", q, e)]) (BACK c))].
  - cbn. intros c' u H. by rewrite <- app_assoc in H.
  - cbn in Hf. lia.
  - apply g_backs_more; [done|]. by exists q, e.
Qed.

Lemma tok_char_one t q e : tok_char t [(t, q, e)].
Proof. by exists q, e. Qed.

(** One more round of fuel for each function, given the round before. *)
Definition line_sound (f : nat) : Prop := forall ts, (4 * length ts + 4 <= f)%nat -> sound g_line (parseline buf f) ts.
Definition pipe_sound (f : nat) : Prop := forall ts, (4 * length ts + 3 <= f)%nat -> sound g_pipe (parsepipe buf f) ts.
Definition exec_sound (f : nat) : Prop := forall ts, (4 * length ts + 2 <= f)%nat -> sound g_exec (parseexec buf f) ts.
Definition block_sound (f : nat) : Prop := forall ts, (4 * length ts + 1 <= f)%nat -> sound g_exec (parseblock buf f) ts.

Lemma line_sound_S f : line_sound f -> pipe_sound f -> line_sound (S f).
Proof.
  intros IHl IHp ts Hf. cbn [parseline]. apply sound_intro. intros s0 Hlen%at_length.
  eapply sound_bind; [apply IHp; lia|]. intros c u rest -> Hc. rewrite length_app in *.
  eapply sound_bind; [apply (parse_back_sound _ c u); [lia|by constructor]|]. intros c' u' rest' -> Hc'.
  apply sound_peek; [done|]. destruct (next_in _ rest') eqn:Hn.
  - apply next_in_cons in Hn as (t & q & e & ts1 & -> & Ht%one_char); [subst t|done..]. apply sound_gettoken.
    rewrite length_app in *. cbn [length] in *. eapply sound_bind; [apply IHl; lia|]. intros r ur rest2 -> Hr.
    apply sound_ret. rewrite app_nil_r. rewrite app_assoc.
    apply (g_line_list c (u ++ u') c' [(chr ";", q, e)]); [done|apply tok_char_one|done].
  - apply sound_ret. rewrite app_nil_r. by eapply g_line_last.
Qed.

Lemma pipe_sound_S f : pipe_sound f -> exec_sound f -> pipe_sound (S f).
Proof.
  intros IHp IHe ts Hf. cbn [parsepipe]. eapply sound_bind; [apply IHe; lia|]. intros c u rest -> Hc.
  rewrite length_app in *. apply sound_peek; [done|]. destruct (next_in _ rest) eqn:Hn.
  - apply next_in_cons in Hn as (t & q & e & ts1 & -> & Ht%one_char); [subst t|done..]. apply sound_gettoken.
    cbn [length] in *. eapply sound_bind; [apply IHp; lia|]. intros r ur rest2 -> Hr.
    apply sound_ret. rewrite app_nil_r. apply (g_pipe_more c u [(chr "|", q, e)]); [done|apply tok_char_one|done].
  - apply sound_ret. rewrite app_nil_r. by constructor.
Qed.

Lemma exec_sound_S f : block_sound f -> exec_sound (S f).
Proof.
  intros IHb ts Hf. cbn [parseexec]. apply sound_intro. intros s0 Hlen%at_length.
  apply sound_peek; [done|]. destruct (next_in _ ts); [apply IHb; lia|].
  eapply sound_bind; [apply parseredirs_sound; lia|]. intros c u rest -> Hc. rewrite length_app in *.
  eapply sound_weaken; [|apply (parseexec_loop_sound _ u 0 c); [lia|]].
  - cbn. intros c' u' (n & args & rs & H1 & <- & H3 & H4). by eapply g_exec_simple.
  - apply (built_redirs [] 0 (EXEC [])); [|done]. exists [], []. repeat split; constructor.
Qed.

Lemma block_sound_S f : line_sound f -> block_sound (S f).
Proof.
  intros IHl ts Hf. cbn [parseblock]. apply sound_intro. intros s0 Hlen%at_length.
  apply sound_peek; [done|]. destruct (next_in _ ts) eqn:Hn; [|apply sound_panic]. cbn [negb].
  apply next_in_cons in Hn as (t & q & e & ts1 & -> & Ht%one_char); [subst t|done..]. apply sound_gettoken.
  cbn [length] in *. eapply sound_bind; [apply IHl; lia|]. intros c u rest -> Hc. rewrite length_app in *.
  apply sound_peek; [done|]. destruct (next_in _ rest) eqn:Hn; [|apply sound_panic]. cbn [negb].
  apply next_in_cons in Hn as (t & q1 & e1 & ts2 & -> & Ht%one_char); [subst t|done..]. apply sound_gettoken.
  cbn [length] in *. eapply sound_weaken; [|apply parseredirs_sound; lia]. cbn. intros c' rs Hrs.
  apply (g_exec_block [(chr "(", q, e)] c u [(chr ")", q1, e1)] rs); [apply tok_char_one|done|apply tok_char_one|done].
Qed.

Lemma parse_sound f : line_sound f /\ pipe_sound f /\ exec_sound f /\ block_sound f.
Proof.
  induction f as [|f (IHl & IHp & IHe & IHb)].
  - repeat split; intros ts Hf; lia.
  - auto using line_sound_S, pipe_sound_S, exec_sound_S, block_sound_S.
Qed.

(** ** What is in the grammar is parsed *)

(** [m] returns [c] and goes from before the tokens [ts] to before [rest]. *)
Definition yields (m : Ps cmd) (ts : list lexeme) (c : cmd) (rest : list lexeme) : Prop :=
  forall s, at_toks s ts -> exists s1, m s = Ok c s1 /\ at_toks s1 rest.

Lemma yields_ret c ts : yields (ret c) ts c ts.
Proof. intros s Hs. by exists s. Qed.

Lemma yields_intro m ts c rest : (forall s, at_toks s ts -> yields m ts c rest) -> yields m ts c rest.
Proof. intros H s Hs. by apply (H s). Qed.

Lemma yields_bind m (k : cmd -> Ps cmd) ts c1 ts1 c rest :
  yields m ts c1 ts1 -> yields (k c1) ts1 c rest -> yields (bind m k) ts c rest.
Proof. intros H1 H2 s Hs. destruct (H1 s Hs) as (s1 & E & Hs1). run E. by apply H2. Qed.

Lemma yields_peek l k ts c rest b : forallb (among symbols) l = true -> next_in l ts = b ->
  yields (k b) ts c rest -> yields (bind (peek buf l) k) ts c rest.
Proof.
  intros Hl <- Hk s Hs. destruct (peek_at l s ts Hs Hl) as (s1 & E & Hs1). run E. by apply Hk.
Qed.

Lemma yields_gettoken k t ts c rest : yields (k t) ts c rest -> yields (bind (gettoken buf) k) (t :: ts) c rest.
Proof. intros Hk s Hs. destruct (gettoken_at s t ts Hs) as (s1 & E & Hs1). run E. by apply Hk. Qed.

Lemma yields_gettoken_end k c rest : yields (k (0, length buf, length buf)) [] c rest -> yields (bind (gettoken buf) k) [] c rest.
Proof. intros Hk s Hs. destruct (gettoken_end s Hs) as (s1 & E & Hs1). run E. by apply Hk. Qed.

(** The next token is read by a test for it. *)
Lemma yields_token t tk k ts c rest : tok_char t tk -> (forall x, tk = [x] -> yields (k x) ts c rest) ->
  yields (bind (gettoken buf) k) (tk ++ ts) c rest.
Proof. intros (q & e & ->) H. apply yields_gettoken. by apply H. Qed.

Lemma parseredirs_step f op oq oe q e c c1 ts s : redirect op c q e = Some c1 ->
  at_toks s ((op, oq, oe) :: (chr "a", q, e) :: ts) ->
  exists s1, parseredirs buf (S f) c s = parseredirs buf f c1 s1 /\ at_toks s1 ts.
Proof.
  intros Hr Hs. cbn [parseredirs]. destruct (peek_at (bytes "<>") s _ Hs) as (s1 & E1 & Hs1); [done|].
  run E1. cbn [next_in]. rewrite (proj1 (redirect_op op c q e)) by (by rewrite Hr).
  destruct (gettoken_at s1 _ _ Hs1) as (s2 & E2 & Hs2). run E2.
  destruct (gettoken_at s2 _ _ Hs2) as (s3 & E3 & Hs3). run E3.
  exists s3. split; [|done]. cbn [fst snd negb]. cbn zeta. rewrite Z.eqb_refl. cbn [negb].
  replace (if op =? chr "<" then _ else _) with c1; [done|].
  unfold redirect in Hr. repeat case_match; by simplify_eq.
Qed.

Lemma parseredirs_stop f c ts : next_in (bytes "<>") ts = false -> yields (parseredirs buf (S f) c) ts c ts.
Proof. intros H. cbn [parseredirs]. eapply yields_peek; [done|exact H|]. apply yields_ret. Qed.

Lemma parseredirs_yields c rs c' rest : g_redirs c rs c' -> next_in (bytes "<>") rest = false ->
  forall f, (length rs < f)%nat -> yields (parseredirs buf f c) (rs ++ rest) c' rest.
Proof.
  intros H Hn. induction H as [|c op oq oe q e c1 ts c2 H1 H2 IH]; intros [|f] Hf; cbn [length] in Hf; try lia.
  - by apply parseredirs_stop.
  - intros s Hs. destruct (parseredirs_step f _ _ _ _ _ _ _ _ s H1 Hs) as (s1 & -> & Hs1). apply (IH f); [lia|done].
Qed.

(** The rest of a simple command, from before the redirections on. *)
Lemma parseexec_rest args rs ts : g_simple args rs ts -> forall f1 f2 c argc rest c',
  (length ts < f1)%nat -> (length ts < f2)%nat -> 0 <= argc -> argc + Z.of_nat (length args) < MAXARGS ->
  g_redirs (fold_left add_arg args c) rs c' -> follow (bytes "|)&;") rest ->
  yields (let* c := parseredirs buf f1 c in parseexec_loop buf f2 c argc)%M (ts ++ rest) c' rest.
Proof.
  induction 1 as [|q e args rs ts Hg IH|op oq oe q e args rs ts Hop Hg IH];
    intros [|f1] [|f2] c argc rest c' Hf1 Hf2 Ha Hm Hr Hfo; cbn [length app fold_left] in *; try lia.
  - inversion Hr; subst. eapply yields_bind; [apply parseredirs_stop; by eapply follow_not|].
    cbn [parseexec_loop]. destruct Hfo as [->|Hfo].
    + eapply yields_peek; [done..|]. apply yields_gettoken_end, yields_ret.
    + eapply yields_peek; [done..|]. apply yields_ret.
  - eapply yields_bind; [by apply parseredirs_stop|]. cbn [parseexec_loop].
    eapply yields_peek; [done..|]. apply yields_intro. intros s0 Hs0%at_length. apply yields_gettoken.
    cbn beta iota zeta. cbn [length] in *. rewrite length_app in *.
    change (chr "a" =? 0) with false. rewrite Z.eqb_refl. cbn [negb].
    replace (MAXARGS <=? argc + 1) with false by lia. apply IH; try lia; done.
  - inversion Hr as [|? ? ? ? ? ? c1' ? ? Hr1 Hr2]; subst.
    apply (redirect_any _ _ c) in Hop. destruct (redirect op c q e) as [c1|] eqn:Hc; [|done].
    intros s Hs. destruct (parseredirs_step f1 _ _ _ _ _ _ _ _ s Hc Hs) as (s1 & E & Hs1).
    rewrite (run_cong _ (parseredirs buf f1 c1) _ s s1 E). apply (IH f1 (S f2) c1 argc); try lia; [|done..].
    pose proof (redirect_fold args _ _ _ _ _ Hc) as Hc'. rewrite Hc' in Hr1. by simplify_eq.
Qed.

Lemma simple_first args rs ts rest : g_simple args rs ts -> follow (bytes "|)&;") rest ->
  next_in (bytes "(") (ts ++ rest) = false.
Proof.
  intros [|q e args' rs' ts' H|op oq oe q e args' rs' ts' Hop H] Hf; [by eapply follow_not|done|].
  apply redirect_op in Hop. apply (follow_not (bytes "<>")); [|done]. by right.
Qed.

Definition line_yields (c : cmd) (ts : list lexeme) : Prop := forall f rest,
  (4 * length ts + 4 <= f)%nat -> follow (bytes ")") rest -> yields (parseline buf f) (ts ++ rest) c rest.
Definition pipe_yields (c : cmd) (ts : list lexeme) : Prop := forall f rest,
  (4 * length ts + 3 <= f)%nat -> follow (bytes ")&;") rest -> yields (parsepipe buf f) (ts ++ rest) c rest.
Definition exec_yields (c : cmd) (ts : list lexeme) : Prop := forall f rest,
  (4 * length ts + 2 <= f)%nat -> follow (bytes "|)&;") rest -> yields (parseexec buf f) (ts ++ rest) c rest.
(** The pipeline and [n] rounds of the loop over the &s. *)
Definition backs_yields (_ : cmd) (ts : list lexeme) (c' : cmd) : Prop := forall f, (4 * length ts + 3 <= f)%nat ->
  exists n, (n <= length ts)%nat /\ forall k rest s, follow (bytes ")&;") rest -> at_toks s (ts ++ rest) ->
  exists s1, (let* c := parsepipe buf f in parse_back buf (n + k) c)%M s = parse_back buf k c' s1 /\ at_toks s1 rest.

Lemma backs_done c ts c' f rest : backs_yields c ts c' -> (4 * length ts + 3 <= f)%nat ->
  follow (bytes ");") rest ->
  yields (let* c := parsepipe buf f in parse_back buf (S (length buf)) c)%M (ts ++ rest) c' rest.
Proof.
  intros H Hf Hfo s Hs. destruct (H f Hf) as (n & Hn & Hk). pose proof (at_length _ _ Hs) as Hlen. rewrite length_app in Hlen.
  destruct (Hk (S (length buf - n)) rest s) as (s1 & E & Hs1); [by eapply follow_weaken|done|].
  replace (n + S (length buf - n))%nat with (S (length buf)) in E by lia. rewrite E. cbn [parse_back].
  revert Hs1. apply (yields_peek (bytes "&") _ rest c' rest false); [done| |apply yields_ret].
  by eapply follow_not.
Qed.

Lemma backs_more_yields c ts c' amp : backs_yields c ts c' -> tok_char (chr "&") amp -> backs_yields c (ts ++ amp) (BACK c').
Proof.
  intros IH (q & e & ->) f Hf. rewrite length_app in *. cbn [length] in *.
  destruct (IH f) as (n & Hn & Hk); [lia|]. exists (S n). split; [lia|]. intros k rest s Hfo Hs.
  rewrite <- app_assoc in Hs. destruct (Hk (S k) ([(chr "&", q, e)] ++ rest) s) as (s1 & E & Hs1); [by right|done|].
  replace (n + S k)%nat with (S n + k)%nat in E by lia. rewrite E. cbn [parse_back app] in *.
  destruct (peek_at (bytes "&") s1 _ Hs1) as (s2 & E2 & Hs2); [done|]. run E2. cbn [next_in].
  change (among (bytes "&") (tok_first (chr "&"))) with true. cbn iota.
  destruct (gettoken_at s2 _ _ Hs2) as (s3 & E3 & Hs3). run E3. by exists s3.
Qed.

Lemma line_last_yields c ts c' : backs_yields c ts c' -> line_yields c' ts.
Proof.
  intros IH [|f] rest Hf Hfo; [lia|]. cbn [parseline]. intros s Hs. rewrite <- bind_assoc. revert s Hs.
  eapply yields_bind; [eapply backs_done; [done|lia|by eapply follow_weaken]|].
  eapply yields_peek; [done|by eapply follow_not|]. apply yields_ret.
Qed.

Lemma line_list_yields c ts c' semi r tr : backs_yields c ts c' -> tok_char (chr ";") semi -> line_yields r tr ->
  line_yields (LIST c' r) (ts ++ semi ++ tr).
Proof.
  intros IH Hsemi IHr [|f] rest Hf Hfo; [lia|]. pose proof Hsemi as (q & e & Es). subst semi.
  rewrite !length_app in Hf. cbn [length] in Hf.
  cbn [parseline]. intros s Hs. rewrite <- bind_assoc. revert s Hs. rewrite <- !app_assoc.
  eapply yields_bind; [eapply backs_done; [done|lia|by eapply follow_tok]|].
  eapply yields_peek; [done|reflexivity|]. apply yields_gettoken.
  eapply yields_bind; [apply IHr; [lia|done]|apply yields_ret].
Qed.

Lemma pipe_more_yields c ts bar r tr : exec_yields c ts -> tok_char (chr "|") bar -> pipe_yields r tr ->
  pipe_yields (PIPE c r) (ts ++ bar ++ tr).
Proof.
  intros IH Hbar IHr [|f] rest Hf Hfo; [lia|]. pose proof Hbar as (q & e & Es). subst bar.
  rewrite !length_app in Hf. cbn [length] in Hf. cbn [parsepipe]. rewrite <- !app_assoc.
  eapply yields_bind; [apply IH; [lia|by eapply follow_tok]|].
  eapply yields_peek; [done|reflexivity|]. apply yields_gettoken.
  eapply yields_bind; [apply IHr; [lia|done]|apply yields_ret].
Qed.

Lemma exec_block_yields lp c ts rp rs c' : tok_char (chr "(") lp -> line_yields c ts -> tok_char (chr ")") rp ->
  g_redirs c rs c' -> exec_yields c' (lp ++ ts ++ rp ++ rs).
Proof.
  intros (q & e & ->) IH Hrp Hrs [|[|f]] rest Hf Hfo; rewrite !length_app in Hf; cbn [length] in Hf; [lia..|].
  pose proof Hrp as (q1 & e1 & Er). subst rp. cbn [length] in Hf. rewrite <- !app_assoc. cbn [parseexec].
  eapply yields_peek; [done|reflexivity|]. cbn [parseblock].
  eapply yields_peek; [done|reflexivity|]. cbn [app].
  apply yields_intro. intros s0 Hlen%at_length. cbn [length] in Hlen. rewrite !length_app in Hlen. cbn [length] in Hlen.
  rewrite length_app in Hlen. change (among (bytes "(") (tok_first (chr "("))) with true. cbn [negb].
  apply yields_gettoken. eapply yields_bind; [apply IH; [lia|by right]|].
  eapply yields_peek; [done|reflexivity|]. cbn [app next_in].
  change (among (bytes ")") (tok_first (chr ")"))) with true. cbn [negb].
  apply yields_gettoken. eapply parseredirs_yields; [done|by eapply follow_not|lia].
Qed.

Lemma exec_simple_yields args rs ts c : g_simple args rs ts -> Z.of_nat (length args) < MAXARGS ->
  g_redirs (EXEC args) rs c -> exec_yields c ts.
Proof.
  intros Hg Hm Hr [|f] rest Hf Hfo; [lia|]. cbn [parseexec].
  apply yields_intro. intros s0 Hlen%at_length. rewrite length_app in Hlen.
  eapply yields_peek; [done|by eapply simple_first|].
  eapply parseexec_rest; [exact Hg|lia|lia|lia|lia| |done].
  replace (fold_left add_arg args (EXEC [])) with (EXEC args); [done|].
  assert (forall l a, fold_left add_arg l (EXEC a) = EXEC (a ++ l)) as ->; [|done].
  induction l as [|x l IH]; intros a; cbn; [by rewrite app_nil_r|]. by rewrite IH, <- app_assoc.
Qed.

Lemma parse_complete :
  (forall c ts, g_line c ts -> line_yields c ts) /\ (forall c ts c', g_backs c ts c' -> backs_yields c ts c') /\
  (forall c ts, g_pipe c ts -> pipe_yields c ts) /\ (forall c ts, g_exec c ts -> exec_yields c ts).
Proof.
  apply grammar_ind; intros.
  - by eapply line_last_yields.
  - by eapply line_list_yields.
  - intros f Hf. exists O. split; [lia|]. intros k rest s Hfo Hs.
    destruct (H0 f rest Hf Hfo s Hs) as (s1 & E & Hs1). exists s1. split; [|done]. cbn [Nat.add].
    by run E.
  - by apply backs_more_yields.
  - intros [|f] rest Hf Hfo; [lia|]. cbn [parsepipe].
    eapply yields_bind; [apply H0; [lia|by eapply follow_weaken]|].
    eapply yields_peek; [done|by eapply follow_not|]. apply yields_ret.
  - by apply pipe_more_yields.
  - by eapply exec_simple_yields.
  - by eapply exec_block_yields.
Qed.
End Parsing.

(** ** parsecmd() *)

Section Parsecmd.
Variable line : list Z.
Hypothesis no_nul : Forall (fun c => c <> 0) line.

Lemma at_start : at_toks line 0 (lex None 0 line).
Proof. split; [lia|]. unfold toks. by rewrite drop_0. Qed.

Lemma fuel_enough ts s : at_toks line s ts -> (4 * length ts + 4 <= 4 * length line + 4)%nat.
Proof. intros H%at_length. lia. Qed.

(** The end of parsecmd(), when parseline() stops before [rest]. *)
Lemma parsecmd_finish c s rest : parseline line (4 * length line + 4) O = Ok c s -> at_toks line s rest ->
  (rest = [] -> parsecmd line = Ok (c, nulterminate c line) (length line)) /\
  (rest <> [] -> exists msg p, parsecmd line = Panic msg p).
Proof.
  intros E [Hs Ht]. destruct (peek_spec line no_nul [] s Hs) as (s1 & E1 & H1 & H2 & H3); [set_solver|].
  unfold parsecmd. rewrite (bind_ok _ _ _ _ _ E), (bind_ok _ _ _ _ _ E1).
  rewrite (bind_ok (fun p => Ok p p) _ s1 s1 s1 eq_refl). split; intros Hr.
  - rewrite H3 by congruence. by rewrite Nat.eqb_refl.
  - destruct (s1 =? length line)%nat eqn:Heq; [|by eexists _, s1]. apply Nat.eqb_eq in Heq.
    destruct Hr. rewrite <- Ht, <- H1, Heq. unfold toks. by rewrite drop_all.
Qed.

Lemma parsecmd_cases :
  (exists msg p, parsecmd line = Panic msg p) \/
  (exists c, parsecmd line = Ok (c, nulterminate c line) (length line) /\ g_line c (lex None 0 line)).
Proof.
  destruct (parse_sound line no_nul (4 * length line + 4)) as [Hl _].
  destruct (Hl _ (fuel_enough _ _ at_start) O at_start) as [(msg & p & E)|(c & s & u & rest & E & Eu & Hs & Hg)].
  - left. exists msg, p. unfold parsecmd, bind at 1. by rewrite E.
  - destruct (parsecmd_finish c s rest E Hs) as [H1 H2]. destruct rest as [|t rest].
    + right. exists c. rewrite app_nil_r in Eu. subst u. auto.
    + left. by apply H2.
Qed.

Lemma parsecmd_accepts c : g_line c (lex None 0 line) ->
  parsecmd line = Ok (c, nulterminate c line) (length line).
Proof.
  intros Hg. destruct (parse_complete line no_nul) as [Hl _].
  destruct (Hl c _ Hg (4 * length line + 4)%nat []) with (s := O) as (s & E & Hs).
  - eapply fuel_enough, at_start.
  - by left.
  - rewrite app_nil_r. apply at_start.
  - by apply (parsecmd_finish c s []).
Qed.
End Parsecmd.

(** ** The words of the tree *)

(** The strings a tree points to. *)
Fixpoint words (c : cmd) : list (nat * nat) :=
  match c with
  | EXEC argv => argv
  | REDIR c q e _ _ => words c ++ [(q, e)]
  | PIPE l r | LIST l r => words l ++ words r
  | BACK c => words c
  end.

Definition slice (q e : nat) (l : list Z) : list Z := take (e - q) (drop q l).

Lemma cstring_word w l : Forall (fun c => c <> 0) w -> (l = [] \/ exists l', l = 0 :: l') -> cstring (w ++ l) = w.
Proof.
  intros Hw Hl. induction w as [|c w IH]; cbn.
  - by destruct Hl as [->|[l' ->]].
  - inversion_clear Hw as [|? ? Hc Hw']. apply Z.eqb_neq in Hc. by rewrite Hc, IH.
Qed.

Lemma nulterminate_fold c : forall l, nulterminate c l = fold_left (fun b a => <[a.2 := 0]> b) (words c) l.
Proof.
  induction c as [argv|c IH q e m fd|l IHl r IHr|l IHl r IHr|c IH]; intros b; cbn; [done|..|done].
  - by rewrite IH, fold_left_app.
  - by rewrite IHl, IHr, fold_left_app.
  - by rewrite IHl, IHr, fold_left_app.
Qed.

Lemma nuls_length ws : forall l : list Z, length (fold_left (fun b (a : nat * nat) => <[a.2 := 0]> b) ws l) = length l.
Proof. induction ws as [|a ws IH]; intros l; cbn; [done|]. by rewrite IH, length_insert. Qed.

Lemma nuls_lookup_out ws i : forall l : list Z, (forall a, a ∈ ws -> a.2 <> i) ->
  fold_left (fun b (a : nat * nat) => <[a.2 := 0]> b) ws l !! i = l !! i.
Proof.
  induction ws as [|a ws IH]; intros l H; cbn; [done|]. rewrite IH by set_solver.
  apply list_lookup_insert_ne. apply H. set_solver.
Qed.

Lemma nuls_lookup_in ws i : forall l : list Z, (i < length l)%nat -> i ∈ ws.*2 ->
  fold_left (fun b (a : nat * nat) => <[a.2 := 0]> b) ws l !! i = Some 0.
Proof.
  induction ws as [|a ws IH]; intros l Hi H; cbn in *; [set_solver|].
  destruct (decide (i ∈ ws.*2)) as [Hin|Hin]; [apply IH; [by rewrite length_insert|done]|].
  rewrite nuls_lookup_out; [|intros b Hb Hbi; apply Hin; apply list_elem_of_fmap; by exists b].
  assert (a.2 = i) as -> by set_solver. by apply list_lookup_insert_eq.
Qed.

(** The bytes from [q] to [e] are a word of the line. *)
Definition is_word (line : list Z) (q e : nat) : Prop :=
  (q < e <= length line)%nat /\
  (forall i, (q <= i < e)%nat -> exists c, line !! i = Some c /\ word_char c = true) /\
  (forall c, line !! e = Some c -> word_char c = false).

Definition open_word (line : list Z) (start : option nat) (i : nat) : Prop :=
  match start with
  | None => True
  | Some q => (q < i)%nat /\ forall j, (q <= j < i)%nat -> exists c, line !! j = Some c /\ word_char c = true
  end.

Lemma word_ends_word line start i q e : (i <= length line)%nat -> open_word line start i ->
  (forall c, line !! i = Some c -> word_char c = false) -> (chr "a", q, e) ∈ word_ends start i -> is_word line q e.
Proof.
  intros Hi Ho Hc H. destruct start as [q'|]; cbn in *; [|set_solver].
  apply list_elem_of_singleton in H. simplify_eq. destruct Ho as [H1 H2]. split; [lia|done].
Qed.

Lemma open_word_step line start i c : open_word line start i -> line !! i = Some c -> word_char c = true ->
  open_word line (Some (default i start)) (S i).
Proof.
  intros Ho Hc Hw. destruct start as [q|]; cbn in *.
  - destruct Ho as [H1 H2]. split; [lia|]. intros j Hj. destruct (decide (j = i)) as [->|]; [eauto|]. apply H2. lia.
  - split; [lia|]. intros j Hj. replace j with i by lia. eauto.
Qed.

Lemma drop_cons_inv (line : list Z) i c l : drop i line = c :: l ->
  line !! i = Some c /\ drop (S i) line = l /\ (S i <= length line)%nat.
Proof.
  intros H. assert (line !! i = Some c) as Hc by (rewrite <- (Nat.add_0_r i), <- lookup_drop, H; done).
  split; [done|]. split; [|by apply lookup_lt_Some in Hc].
  rewrite <- (Nat.add_1_r i), <- drop_drop, H. done.
Qed.

Lemma word_char_not c : is_ws c = true \/ is_sym c = true -> word_char c = false.
Proof. unfold word_char. intros [-> | ->]; [done|apply andb_false_r]. Qed.

Lemma lex_words line : forall l start i q e, drop i line = l -> (i <= length line)%nat -> open_word line start i ->
  (chr "a", q, e) ∈ lex start i l -> is_word line q e.
Proof.
  intros l. induction l as [|c|c c' l IH1 IH2] using lex_ind_len; intros start i q e Hd Hi Ho Hin.
  - apply (word_ends_word line start i q e Hi Ho); [|exact Hin]. intros c Hc. apply lookup_lt_Some in Hc.
    apply (f_equal length) in Hd. rewrite length_drop in Hd. cbn in Hd. lia.
  - apply drop_cons_inv in Hd as (Hc & Hd & Hi1). cbn in Hin.
    destruct (is_ws c) eqn:Hw; [|destruct (is_sym c) eqn:Hs].
    + rewrite app_nil_r in Hin. apply (word_ends_word line start i q e Hi Ho); [|exact Hin]. intros x Hx. simplify_eq. apply word_char_not. auto.
    + apply elem_of_app in Hin as [Hin|Hin].
      * apply (word_ends_word line start i q e Hi Ho); [|exact Hin]. intros x Hx. simplify_eq. apply word_char_not. auto.
      * apply list_elem_of_singleton in Hin. by simplify_eq.
    + eapply (word_ends_word _ (Some _)); [exact Hi1| | |exact Hin].
      * eapply open_word_step; [done..|]. unfold word_char. by rewrite Hw, Hs.
      * intros x Hx. apply lookup_lt_Some in Hx. apply (f_equal length) in Hd. rewrite length_drop in Hd. cbn in Hd. lia.
  - pose proof (drop_cons_inv _ _ _ _ Hd) as (Hc & Hd1 & Hi1). pose proof (drop_cons_inv _ _ _ _ Hd1) as (Hc' & Hd2 & Hi2).
    rewrite lex_two in Hin.
    destruct (is_ws c) eqn:Hw; [|destruct (is_sym c) eqn:Hs].
    + apply elem_of_app in Hin as [Hin|Hin]; [|exact (IH1 None (S i) q e Hd1 Hi1 I Hin)].
      apply (word_ends_word line start i q e Hi Ho); [|exact Hin]. intros x Hx. simplify_eq. apply word_char_not. auto.
    + apply elem_of_app in Hin as [Hin|Hin].
      * apply (word_ends_word line start i q e Hi Ho); [|exact Hin]. intros x Hx. simplify_eq. apply word_char_not. auto.
      * destruct (_ && _); apply elem_of_cons in Hin as [Hin|Hin]; [by simplify_eq|exact (IH2 None (S (S i)) q e Hd2 Hi2 I Hin)| |exact (IH1 None (S i) q e Hd1 Hi1 I Hin)].
        by simplify_eq.
    + eapply IH1; [done..| |done]. eapply open_word_step; [done..|]. unfold word_char. by rewrite Hw, Hs.
Qed.

(** The strings of a tree are word tokens. *)
Lemma redirs_words c rs c' : g_redirs c rs c' ->
  forall q e, (q, e) ∈ words c' -> (q, e) ∈ words c \/ (chr "a", q, e) ∈ rs.
Proof.
  induction 1 as [|c op oq oe q e c1 ts c2 Hr H IH]; intros q' e' Hin; [by left|].
  destruct (IH _ _ Hin) as [H1|H1]; [|right; set_solver].
  assert (words c1 = words c ++ [(q, e)]) as Hw by (unfold redirect in Hr; repeat case_match; by simplify_eq).
  rewrite Hw in H1. apply elem_of_app in H1 as [?|H1%list_elem_of_singleton]; [by left|]. right. simplify_eq. set_solver.
Qed.

Lemma simple_words args rs ts : g_simple args rs ts ->
  (forall q e, (q, e) ∈ args -> (chr "a", q, e) ∈ ts) /\ (forall t, t ∈ rs -> t ∈ ts).
Proof. induction 1; set_solver. Qed.

Lemma grammar_words :
  (forall c ts, g_line c ts -> forall q e, (q, e) ∈ words c -> (chr "a", q, e) ∈ ts) /\
  (forall c ts c', g_backs c ts c' -> forall q e, (q, e) ∈ words c' -> (chr "a", q, e) ∈ ts) /\
  (forall c ts, g_pipe c ts -> forall q e, (q, e) ∈ words c -> (chr "a", q, e) ∈ ts) /\
  (forall c ts, g_exec c ts -> forall q e, (q, e) ∈ words c -> (chr "a", q, e) ∈ ts).
Proof.
  apply grammar_ind; intros; cbn [words] in *; rewrite ?elem_of_app in *.
  - eauto.
  - naive_solver.
  - eauto.
  - eauto.
  - eauto.
  - naive_solver.
  - destruct (simple_words _ _ _ H) as [H3 H4].
    edestruct redirs_words as [H5|H5]; [exact H1|exact H2|by apply H3|by apply H4].
  - edestruct redirs_words as [H5|H5]; [exact H3|exact H4|naive_solver|naive_solver].
Qed.

(** When the marks are at the ends of words, they do not cut a word. *)
Lemma word_after_nuls line ws q e : Forall (fun c => c <> 0) line ->
  (forall q' e', (q', e') ∈ ws -> is_word line q' e') -> (q, e) ∈ ws ->
  cstring (drop q (fold_left (fun b (a : nat * nat) => <[a.2 := 0]> b) ws line)) = slice q e line.
Proof.
  intros Hnz Hws Hin. pose proof (Hws _ _ Hin) as ((Hq & He) & Hc & _).
  set (b := fold_left _ ws line).
  assert (length b = length line) as Hlen by apply nuls_length.
  assert (slice q e b = slice q e line) as Hsl.
  { unfold slice. apply list_eq. intros i. destruct (decide (i < e - q)%nat); [|by rewrite !lookup_take_ge by lia].
    rewrite !lookup_take_lt, !lookup_drop by lia. apply nuls_lookup_out. intros [q' e'] Ha Heq. cbn in Heq. subst e'.
    destruct (Hc (q + i)%nat) as (c & Hl & Hw); [lia|]. destruct (Hws _ _ Ha) as (_ & _ & Hn).
    specialize (Hn c Hl). congruence. }
  rewrite <- (take_drop (e - q) (drop q b)). fold (slice q e b). rewrite Hsl. apply cstring_word.
  - by apply Forall_take, Forall_drop.
  - rewrite drop_drop. replace (q + (e - q))%nat with e by lia.
    destruct (decide (e = length line)) as [->|Hne]; [left; apply drop_ge; lia|]. right.
    assert (b !! e = Some 0) as Hb.
    { apply nuls_lookup_in; [lia|]. apply list_elem_of_fmap. by exists (q, e). }
    rewrite (drop_S _ _ _ Hb). eauto.
Qed.

(** ** The properties *)

(** C28: parsecmd() is the grammar of the shell: for a line without NULs it
    returns a tree exactly when the tokens of the whole line stand for this
    tree by the grammar, and then with the line NUL-terminated after each of
    its words; every other line ends in a message. *)
Theorem parsecmd_grammar line (H : Forall (fun c => c <> 0) line) :
  (forall c b p, parsecmd line = Ok (c, b) p <->
     g_line c (lex None 0 line) /\ b = nulterminate c line /\ p = length line) /\
  ((forall c, ~ g_line c (lex None 0 line)) <-> exists msg p, parsecmd line = Panic msg p).
Proof.
  destruct (parsecmd_cases line H) as [(msg & p0 & E)|(c0 & E & Hg)]; rewrite E; (split; [intros c b p; split|split]).
  - done.
  - intros (Hg & _). by rewrite (parsecmd_accepts line H c Hg) in E.
  - eauto.
  - intros _ c Hg. by rewrite (parsecmd_accepts line H c Hg) in E.
  - intros E'. injection E' as <- <- <-. done.
  - intros (Hg' & -> & ->). by rewrite <- E, (parsecmd_accepts line H c Hg').
  - intros Hn. by destruct (Hn c0).
  - by intros (msg & p & ?).
Qed.

(** After parsecmd(), each pointer of the tree is a C string: the word of
    the command line between the offsets the lexer recorded, not empty and
    without white space or symbols. *)
Theorem parsecmd_words line (H : Forall (fun c => c <> 0) line) c b p (E : parsecmd line = Ok (c, b) p) :
  length b = length line /\
  forall q e, (q, e) ∈ words c ->
    cstring (drop q b) = slice q e line /\ slice q e line <> [] /\ Forall (fun x => word_char x = true) (slice q e line).
Proof.
  destruct (parsecmd_cases line H) as [(msg & p0 & E')|(c0 & E' & Hg)]; rewrite E' in E; [done|].
  injection E as <- <- <-. rewrite nulterminate_fold. split; [apply nuls_length|].
  assert (forall q e, (q, e) ∈ words c0 -> is_word line q e) as Hw.
  { intros q e Hin. apply (lex_words line line None 0); [by rewrite drop_0|lia|done|]. exact (proj1 grammar_words c0 _ Hg q e Hin). }
  intros q e Hin. pose proof (Hw q e Hin) as ((Hq & He) & Hc & _). split; [by apply word_after_nuls|]. split.
  - intros Hn%(f_equal length). unfold slice in Hn. rewrite length_take, length_drop in Hn. cbn in Hn. lia.
  - apply Forall_lookup. intros i x Hi. unfold slice in Hi. apply lookup_take_Some in Hi as [Hi Hlt].
    rewrite lookup_drop in Hi. destruct (Hc (q + i)%nat) as (y & Hy & Hyw); [lia|]. by simplify_eq.
Qed.

(** ** A command line *)

Definition example_line : list Z := bytes "cat<in x|(grep -v y; wc) >>out &" ++ [10].

Definition example_tree : cmd :=
  BACK (PIPE (REDIR (EXEC [(0, 3); (7, 8)]) 4 6 O_RDONLY 0)
             (REDIR (LIST (EXEC [(10, 14); (15, 17); (18, 19)]) (EXEC [(21, 23)])) 27 30 (Z.lor O_WRONLY O_CREATE) 1))%nat.

Lemma example_parse : parsecmd example_line = Ok (example_tree, nulterminate example_tree example_line) (length example_line).
Proof. vm_compute. reflexivity. Qed.

Lemma example_no_nul : Forall (fun c => c <> 0) example_line.
Proof. apply (bool_decide_unpack _). vm_compute. done. Qed.

Lemma parsecmd_grammar_witness : g_line example_tree (lex None 0 example_line).
Proof. exact (proj1 (proj1 (proj1 (parsecmd_grammar example_line example_no_nul) _ _ _) example_parse)). Defined.

Lemma parsecmd_words_witness : cstring (drop 15 (nulterminate example_tree example_line)) = bytes "-v".
Proof.
  apply (proj2 (parsecmd_words example_line example_no_nul _ _ _ example_parse) 15%nat 17%nat).
  apply (bool_decide_unpack _). vm_compute. done.
Defined.
