(* ===== verification/ShRun.v ===== *)
(** user/sh.c: running commands, and the loop of the shell.

    A process of the shell is its descriptor table and what it has done so
    far, a list of actions; the action of a fork holds what the child does, so
    that the actions of the first process are the tree of all of them and no
    order between the processes is fixed.  [r_fail] says which of the coming
    calls fork(), exec(), open(), pipe() and chdir() fail (when it is used up,
    they succeed).  [r_in] holds the lines that gets() returns.  A process that
    exits or is replaced by exec() is [Blocked].  What a call does to files is
    not modelled here. *)

From S2P Require Import Prelude User Layout Sh.

(** What a descriptor refers to: a file and how it was opened, or an end of a
    pipe (true for the end that is written). *)
Inductive desc : Type :=
| DFile (path : list Z) (mode : Z)
| DPipe (id : nat) (w : bool).

#[export] Instance desc_eq_dec : EqDecision desc.
Proof. solve_decision. Defined.

Abbreviation fdtable := (gmap Z desc).

Inductive action : Type :=
| Fork (child : list action)
| Wait (fds : fdtable)
| Say (text : list Z)
| Chdir (path : list Z)
| Exec (argv : list (list Z)) (fds : fdtable)
| Exit (status : Z).

Record rstate : Type := mkRstate {
  r_fds : fdtable;
  r_acts : list action;
  r_pipes : nat;
  r_fail : list bool;
  r_in : list (list Z);
}.
#[export] Instance upd_r_fds : Field r_fds := fun g r => mkRstate (g (r_fds r)) (r_acts r) (r_pipes r) (r_fail r) (r_in r).
#[export] Instance upd_r_acts : Field r_acts := fun g r => mkRstate (r_fds r) (g (r_acts r)) (r_pipes r) (r_fail r) (r_in r).
#[export] Instance upd_r_pipes : Field r_pipes := fun g r => mkRstate (r_fds r) (r_acts r) (g (r_pipes r)) (r_fail r) (r_in r).
#[export] Instance upd_r_fail : Field r_fail := fun g r => mkRstate (r_fds r) (r_acts r) (r_pipes r) (g (r_fail r)) (r_in r).
#[export] Instance upd_r_in : Field r_in := fun g r => mkRstate (r_fds r) (r_acts r) (r_pipes r) (r_fail r) (g (r_in r)).

Abbreviation Sh := (M rstate).

(** ** System calls *)

Definition act (a : action) : Sh unit := fun s => Ok tt (s <| r_acts ::= fun l => l ++ [a] |>).

(** Whether the next call fails. *)
Definition fails : Sh bool := fun s => Ok (hd false (r_fail s)) (s <| r_fail ::= @tail bool |>).

Definition close (fd : Z) : Sh unit := fun s => Ok tt (s <| r_fds ::= delete fd |>).

(** The lowest free descriptor now refers to [d]. *)
Fixpoint free_fd (k : nat) (fd : Z) (fds : fdtable) : option Z :=
  match k with
  | O => None
  | S k' => match fds !! fd with None => Some fd | Some _ => free_fd k' (fd + 1) fds end
  end.

Definition fdalloc (d : desc) : Sh Z := fun s =>
  match free_fd NOFILE 0 (r_fds s) with
  | Some fd => Ok fd (s <| r_fds ::= <[fd := d]> |>)
  | None => Ok (-1) s
  end.

Definition open (path : list Z) (mode : Z) : Sh Z :=
  let* f := fails in if f then ret (-1) else fdalloc (DFile path mode).

Definition dup (fd : Z) : Sh Z := fun s =>
  match r_fds s !! fd with Some d => fdalloc d s | None => Ok (-1) s end.

(** pipe(p): p[0] and p[1], or an error that leaves no descriptor. *)
Definition pipe : Sh (option (Z * Z)) := fun s =>
  (let* f := fails in
   if f then ret None
   else fun s =>
     let n := r_pipes s in
     (let* p0 := fdalloc (DPipe n false) in
      let* p1 := fdalloc (DPipe n true) in
      if (p0 <? 0) || (p1 <? 0) then (if 0 <=? p0 then close p0 else ret tt) ;; ret None
      else ret (Some (p0, p1))) (s <| r_pipes := S n |>)) s.

Definition exit {A} (status : Z) : Sh A := fun s => Blocked (s <| r_acts ::= fun l => l ++ [Exit status] |>).

(** exec(): does not return when it succeeds. *)
Definition exec (argv : list (list Z)) : Sh unit := fun s =>
  (let* f := fails in
   if f then ret tt else fun s => Blocked (s <| r_acts ::= fun l => l ++ [Exec argv (r_fds s)] |>)) s.

Definition wait : Sh unit := fun s => Ok tt (s <| r_acts ::= fun l => l ++ [Wait (r_fds s)] |>).

(** ** sh.c *)

Definition panic {A} (text : list Z) : Sh A := act (Say (text ++ [10])) ;; exit 1.

(** if(fork1() == 0) child, where the child does not return. *)
Definition fork1 (child : Sh unit) : Sh unit :=
  let* f := fails in
  if f then panic (bytes "fork")
  else fun s =>
    let c := final (child (s <| r_acts := [] |>)) in
    Ok tt (s <| r_acts ::= fun l => l ++ [Fork (r_acts c)] |> <| r_pipes := r_pipes c |> <| r_fail := r_fail c |>).

Section Run.
Variable buf : list Z.

Definition word (q : nat) : list Z := cstring (drop q buf).

Fixpoint runcmd (c : cmd) : Sh unit :=
  match c with
  | EXEC argv =>
      match argv with
      | [] => exit 1
      | (q, _) :: _ =>
          exec (map (fun a => word a.1) argv) ;;
          act (Say (bytes "exec " ++ word q ++ bytes " failed" ++ [10])) ;;
          exit 0
      end
  | REDIR c file _ mode fd =>
      close fd ;;
      let* r := open (word file) mode in
      if r <? 0 then
        act (Say (bytes "open " ++ word file ++ bytes " failed" ++ [10])) ;;
        exit 1
      else runcmd c ;; exit 0
  | LIST l r =>
      fork1 (runcmd l) ;;
      wait ;;
      runcmd r ;;
      exit 0
  | PIPE l r =>
      let* p := pipe in
      match p with
      | None => panic (bytes "pipe")
      | Some (p0, p1) =>
          fork1 (close 1 ;; dup p1 ;; close p0 ;; close p1 ;; runcmd l) ;;
          fork1 (close 0 ;; dup p0 ;; close p0 ;; close p1 ;; runcmd r) ;;
          close p0 ;;
          close p1 ;;
          wait ;;
          wait ;;
          exit 0
      end
  | BACK c =>
      fork1 (runcmd c) ;;
      exit 0
  end.
End Run.

(** runcmd(parsecmd(buf)): the messages of the parser are printed as those of
    panic() here. *)
Definition runline (line : list Z) : Sh unit :=
  match parsecmd line with
  | Ok (c, buf) _ => runcmd buf c
  | Panic msg _ => panic (bytes msg)
  | _ => fault
  end.

(** The line in [buf], or an error at the end of the input. *)
Definition getcmd : Sh (option (list Z)) :=
  act (Say (bytes "$ ")) ;;
  fun s =>
    let buf := cstring (hd [] (r_in s)) in
    Ok (match buf with [] => None | _ => Some buf end) (s <| r_in ::= @tail (list Z) |>).

(** while((fd = open("console", O_RDWR)) >= 0) { if(fd >= 3) { close(fd); break; } } *)
Fixpoint open_console (fuel : nat) : Sh unit :=
  match fuel with
  | O => diverge
  | S f =>
      let* fd := open (bytes "console") O_RDWR in
      if 0 <=? fd then
        if 3 <=? fd then close fd
        else open_console f
      else ret tt
  end.

Definition is_cd (buf : list Z) : bool :=
  (nth 0 buf 0 =? chr "c") && (nth 1 buf 0 =? chr "d") && (nth 2 buf 0 =? chr " ").

(** chdir(buf+3) with the last byte chopped. *)
Definition builtin_cd (buf : list Z) : Sh unit :=
  let buf := removelast buf in
  let path := drop 3 buf in
  let* f := fails in
  if f then act (Say (bytes "cannot cd " ++ path ++ [10]))
  else act (Chdir path).

Fixpoint main_loop (fuel : nat) : Sh unit :=
  match fuel with
  | O => diverge
  | S f =>
      let* r := getcmd in
      match r with
      | None => exit 0
      | Some buf =>
          (if is_cd buf then builtin_cd buf
           else fork1 (runline buf) ;; wait) ;;
          main_loop f
      end
  end.

(** At most three descriptors are opened before the loop ends, and there is
    one round for each line. *)
Definition main : Sh unit :=
  open_console 5 ;;
  fun s => main_loop (S (length (r_in s))) s.
