(* ===== verification/ShRunSpec.v ===== *)
(** What the shell runs, and with which descriptors.

    [plan] is the meaning of a command: the programs it runs, each with its
    arguments and with what its descriptors 0, 1 and 2 refer to.  Without
    failing calls runcmd() runs exactly the plan.  Whatever calls fail, each
    program runs and each process waits with no descriptor but 0, 1 and 2, so
    that no process keeps an end of a pipe open that another one is waiting to
    see closed. *)

From S2P Require Import Prelude User Layout Sh ShSpec ShProof ShRun.

Definition stdio (i o e : desc) : fdtable := <[0 := i]> (<[1 := o]> {[2 := e]}).

(** The descriptors are 0, 1 and 2. *)
Definition std (fds : fdtable) : Prop := exists i o e, fds = stdio i o e.

(** ** The meaning of a command *)

Section Plan.
Variable word : nat * nat -> list Z.

Definition run : Type := list (list Z) * fdtable.

Fixpoint plan (c : cmd) (i o e : desc) (n : nat) : list run * nat :=
  match c with
  | EXEC [] => ([], n)
  | EXEC argv => ([(word <$> argv, stdio i o e)], n)
  | REDIR c q eq mode fd =>
      let d := DFile (word (q, eq)) mode in
      if fd =? 0 then plan c d o e n else plan c i d e n
  | LIST l r =>
      let '(a, n1) := plan l i o e n in
      let '(b, n2) := plan r i o e n1 in
      (a ++ b, n2)
  | PIPE l r =>
      let '(a, n1) := plan l i (DPipe n true) e (S n) in
      let '(b, n2) := plan r (DPipe n false) o e n1 in
      (a ++ b, n2)
  | BACK c => plan c i o e n
  end.
End Plan.

Lemma plan_ext w w' c : (forall a, a ∈ words c -> w a = w' a) -> forall i o e n, plan w c i o e n = plan w' c i o e n.
Proof.
  induction c as [argv|c IH q eq m fd|l IHl r IHr|l IHl r IHr|c IH]; intros Hw i o e n; cbn in *.
  - destruct argv as [|a argv]; [done|]. do 3 f_equal. apply list_fmap_ext. intros ? ? ?%list_elem_of_lookup_2. auto.
  - rewrite (Hw (q, eq)) by set_solver. rewrite !IH by set_solver. done.
  - rewrite IHl by set_solver. destruct (plan w' l _ _ _ _). rewrite IHr by set_solver. done.
  - rewrite IHl by set_solver. destruct (plan w' l _ _ _ _). rewrite IHr by set_solver. done.
  - auto.
Qed.

(** The redirections of a parsed command are of descriptor 0 or 1. *)
Fixpoint redirs01 (c : cmd) : Prop :=
  match c with
  | EXEC _ => True
  | REDIR c _ _ _ fd => redirs01 c /\ (fd = 0 \/ fd = 1)
  | PIPE l r | LIST l r => redirs01 l /\ redirs01 r
  | BACK c => redirs01 c
  end.

Lemma g_redirs01 c rs c' : g_redirs c rs c' -> redirs01 c -> redirs01 c'.
Proof.
  induction 1 as [|c op oq oe q e c1 ts c2 Hr H IH]; [done|]. intros Hc. apply IH.
  unfold redirect in Hr. repeat case_match; simplify_eq; cbn; auto.
Qed.

Lemma grammar_redirs01 :
  (forall c ts, g_line c ts -> redirs01 c) /\ (forall c ts c', g_backs c ts c' -> redirs01 c') /\
  (forall c ts, g_pipe c ts -> redirs01 c) /\ (forall c ts, g_exec c ts -> redirs01 c).
Proof. apply grammar_ind; intros; cbn; eauto using g_redirs01. by eapply g_redirs01. Qed.

(** ** The descriptors of every process *)

Section All.
Variable ok : fdtable -> Prop.

(** [ok] holds of the descriptors of every process when it runs a program or
    waits. *)
Fixpoint all_fds (a : action) : Prop :=
  match a with
  | Fork child => (fix all l := match l with [] => True | x :: l' => all_fds x /\ all l' end) child
  | Wait fds | Exec _ fds => ok fds
  | _ => True
  end.

Lemma all_fds_fork l : all_fds (Fork l) <-> Forall all_fds l.
Proof. induction l as [|x l IH]; cbn; [by rewrite Forall_nil|]. by rewrite Forall_cons, <- IH. Qed.
End All.

Abbreviation plumbed := (Forall (all_fds std)).

(** The programs of a tree of processes. *)
Fixpoint execs (a : action) : list run :=
  match a with
  | Fork child => (fix go l := match l with [] => [] | x :: l' => execs x ++ go l' end) child
  | Exec argv fds => [(argv, fds)]
  | _ => []
  end.

Definition all_execs (l : list action) : list run := l ≫= execs.

Lemma execs_fork l : execs (Fork l) = all_execs l.
Proof. unfold all_execs. induction l as [|x l IH]; cbn in *; [done|]. by rewrite IH. Qed.

Lemma all_execs_app l l' : all_execs (l ++ l') = all_execs l ++ all_execs l'.
Proof. apply bind_app. Qed.

(** ** Tables *)

Lemma stdio_close0 i o e : delete 0 (stdio i o e) = <[1 := o]> {[2 := e]}.
Proof. unfold stdio. by rewrite delete_insert_id. Qed.
Lemma stdio_close1 i o e : delete 1 (stdio i o e) = <[0 := i]> {[2 := e]}.
Proof. unfold stdio. rewrite delete_insert_ne by done. by rewrite delete_insert_id. Qed.
Lemma stdio_close fd i o e d : fd = 0 \/ fd = 1 ->
  <[fd := d]> (delete fd (stdio i o e)) = if fd =? 0 then stdio d o e else stdio i d e.
Proof.
  intros [->| ->]; cbn [Z.eqb].
  - by rewrite stdio_close0.
  - rewrite stdio_close1. unfold stdio. by rewrite insert_insert_ne.
Qed.

Definition with_pipe (i o e : desc) (n : nat) : fdtable := <[4 := DPipe n true]> (<[3 := DPipe n false]> (stdio i o e)).

Lemma fdalloc_run d s fd : free_fd NOFILE 0 (r_fds s) = Some fd -> fdalloc d s = Ok fd (s <| r_fds ::= <[fd := d]> |>).
Proof. intros H. unfold fdalloc. by rewrite H. Qed.

Lemma pipe_run s i o e : r_fds s = stdio i o e ->
  pipe s = if hd false (r_fail s) then Ok None (s <| r_fail ::= @tail bool |>)
           else Ok (Some (3, 4)) (s <| r_fail ::= @tail bool |> <| r_fds := with_pipe i o e (r_pipes s) |> <| r_pipes ::= S |>).
Proof.
  intros H. destruct s as [fds acts n fl inp]. cbn in H. subst fds. unfold pipe, fails, bind at 1. cbn [r_fail].
  destruct (hd false fl); [done|].
  erewrite bind_ok; [|apply fdalloc_run; vm_compute; reflexivity].
  erewrite bind_ok; [|apply fdalloc_run; vm_compute; reflexivity]. done.
Qed.

(** What a child of a pipeline does before its command. *)
Lemma left_run (k : Sh unit) s i o e n : r_fds s = with_pipe i o e n ->
  (close 1 ;; dup 4 ;; close 3 ;; close 4 ;; k)%M s = k (s <| r_fds := stdio i (DPipe n true) e |>).
Proof.
  intros H. destruct s as [fds acts m fl inp]. cbn in H. subst fds. unfold close at 1, bind at 1.
  erewrite bind_ok; [|unfold dup; change (r_fds _ !! 4) with (Some (DPipe n true)); apply fdalloc_run; vm_compute; reflexivity].
  unfold close, bind. reflexivity.
Qed.

Lemma right_run (k : Sh unit) s i o e n : r_fds s = with_pipe i o e n ->
  (close 0 ;; dup 3 ;; close 3 ;; close 4 ;; k)%M s = k (s <| r_fds := stdio (DPipe n false) o e |>).
Proof.
  intros H. destruct s as [fds acts m fl inp]. cbn in H. subst fds. unfold close at 1, bind at 1.
  erewrite bind_ok; [|unfold dup; change (r_fds _ !! 3) with (Some (DPipe n false)); apply fdalloc_run; vm_compute; reflexivity].
  unfold close, bind. reflexivity.
Qed.

Lemma parent_run (k : Sh unit) s i o e n : r_fds s = with_pipe i o e n ->
  (close 3 ;; close 4 ;; k)%M s = k (s <| r_fds := stdio i o e |>).
Proof.
  intros H. destruct s as [fds acts m fl inp]. cbn in H. subst fds. unfold close, bind. reflexivity.
Qed.

(** A redirection: it leaves 0, 1 and 2, or the file cannot be opened. *)
Lemma redir_run path mode fd s i o e : r_fds s = stdio i o e -> fd = 0 \/ fd = 1 ->
  (let* _ := close fd in open path mode)%M s =
    if hd false (r_fail s) then Ok (-1) (s <| r_fds ::= delete fd |> <| r_fail ::= @tail bool |>)
    else Ok fd (s <| r_fail ::= @tail bool |>
                  <| r_fds := let d := DFile path mode in if fd =? 0 then stdio d o e else stdio i d e |>).
Proof.
  intros H Hfd. destruct s as [fds acts n fl inp]. cbn in H. subst fds. unfold close, open, fails, bind. cbn [r_fail].
  cbv [upd upd_r_fds r_fds upd_r_fail r_fail]. destruct (hd false fl); [done|].
  erewrite fdalloc_run; [|instantiate (1 := fd); cbn [r_fds]; destruct Hfd as [->| ->]; vm_compute; reflexivity].
  cbv [upd upd_r_fds r_fds]. cbn [r_acts r_pipes r_fail r_in]. by rewrite stdio_close.
Qed.

(** ** Every process runs and waits with the descriptors 0, 1 and 2 *)

(** The process ends, and its tree is plumbed. *)
Definition ends_well (o : outcome rstate unit) : Prop := exists s', o = Blocked s' /\ plumbed (r_acts s').

Lemma plumbed_snoc l a : plumbed l -> all_fds std a -> plumbed (l ++ [a]).
Proof. intros. apply Forall_app. auto. Qed.

Lemma ends_exit n s : plumbed (r_acts s) -> ends_well (exit n s).
Proof. intros H. eexists. split; [done|]. by apply plumbed_snoc. Qed.

Lemma ends_act a k s : plumbed (r_acts s) -> all_fds std a ->
  (forall s1, r_fds s1 = r_fds s -> plumbed (r_acts s1) -> ends_well (k s1)) -> ends_well ((act a ;; k)%M s).
Proof. intros H Ha Hk. apply Hk; [done|]. by apply plumbed_snoc. Qed.

Lemma ends_panic msg s : plumbed (r_acts s) -> ends_well (ShRun.panic msg s).
Proof. intros H. apply ends_act; [done..|]. intros. by apply ends_exit. Qed.

Lemma ends_wait k s : plumbed (r_acts s) -> std (r_fds s) ->
  (forall s1, r_fds s1 = r_fds s -> plumbed (r_acts s1) -> ends_well (k s1)) -> ends_well ((wait ;; k)%M s).
Proof. intros H Hs Hk. apply Hk; [done|]. by apply plumbed_snoc. Qed.

Lemma ends_bind_blocked m (k : Sh unit) s : ends_well (m s) -> ends_well ((m ;; k)%M s).
Proof. intros (s' & E & H). exists s'. unfold bind. by rewrite E. Qed.

Lemma ends_fork child k s : plumbed (r_acts s) ->
  (forall s1, r_fds s1 = r_fds s -> plumbed (r_acts s1) -> ends_well (child s1)) ->
  (forall s1, r_fds s1 = r_fds s -> plumbed (r_acts s1) -> ends_well (k s1)) ->
  ends_well ((fork1 child ;; k)%M s).
Proof.
  intros H Hc Hk. unfold fork1. unfold fails. unfold bind at 2. unfold bind. destruct (hd false (r_fail s)).
  - destruct (ends_panic (bytes "fork") (s <| r_fail ::= @tail bool |>)) as (s' & E & Hs'); [done|].
    rewrite E. by exists s'.
  - apply Hk; [done|]. cbn. apply plumbed_snoc; [done|]. apply all_fds_fork.
    destruct (Hc (s <| r_fail ::= @tail bool |> <| r_acts := [] |>)) as (s' & E & Hs'); [done|constructor|].
    rewrite E. exact Hs'.
Qed.

Lemma std_stdio i o e : std (stdio i o e).
Proof. by exists i, o, e. Qed.

Lemma exec_ends argv k s : std (r_fds s) -> plumbed (r_acts s) ->
  (forall s1, plumbed (r_acts s1) -> ends_well (k s1)) -> ends_well ((exec argv ;; k)%M s).
Proof.
  intros Hs H Hk. unfold exec, fails, bind. destruct (hd false (r_fail s)); [by apply Hk|].
  eexists. split; [done|]. by apply plumbed_snoc.
Qed.

Lemma runcmd_ends buf c : redirs01 c -> forall s, std (r_fds s) -> plumbed (r_acts s) -> ends_well (runcmd buf c s).
Proof.
  induction c as [argv|c IH q eq m fd|l IHl r IHr|l IHl r IHr|c IH]; intros Hc s (i & o & e & Hs) H; cbn [runcmd redirs01] in *.
  - destruct argv as [|[q eq] argv]; [by apply ends_exit|]. apply exec_ends; [rewrite Hs; apply std_stdio|done|].
    intros s1 H1. apply ends_act; [done..|]. intros. by apply ends_exit.
  - destruct Hc as [Hc Hfd]. rewrite <- bind_assoc. unfold bind at 1. rewrite (redir_run _ _ _ _ _ _ _ Hs Hfd).
    destruct (hd false (r_fail s)).
    + apply ends_act; [done..|]. intros. by apply ends_exit.
    + replace (fd <? 0) with false by lia. apply ends_bind_blocked, IH; [done| |done]. cbn. case_match; apply std_stdio.
  - destruct Hc as [Hl Hr]. unfold bind at 1. rewrite (pipe_run s i o e Hs).
    destruct (hd false (r_fail s)); [by apply ends_panic|].
    apply ends_fork; [done|..]; cbn [r_fds]; intros s1 Hs1 H1.
    { rewrite (left_run _ s1 i o e (r_pipes s)) by done. apply IHl; [done|apply std_stdio|done]. }
    apply ends_fork; [done|..]; rewrite Hs1; intros s2 Hs2 H2.
    { rewrite (right_run _ s2 i o e (r_pipes s)) by done. apply IHr; [done|apply std_stdio|done]. }
    rewrite (parent_run _ s2 i o e (r_pipes s)) by done.
    apply ends_wait; [done|apply std_stdio|]. intros s3 Hs3 H3. apply ends_wait; [done|rewrite Hs3; apply std_stdio|].
    intros s4 Hs4 H4. by apply ends_exit.
  - destruct Hc as [Hl Hr]. apply ends_fork; [done|..]; rewrite Hs; intros s1 Hs1 H1.
    { apply IHl; [done|rewrite Hs1; apply std_stdio|done]. }
    apply ends_wait; [done|rewrite Hs1; apply std_stdio|]. intros s2 Hs2 H2.
    apply ends_bind_blocked, IHr; [done|rewrite Hs2, Hs1; apply std_stdio|done].
  - apply ends_fork; [done|..]; rewrite Hs; intros s1 Hs1 H1; [|by apply ends_exit].
    apply IH; [done|rewrite Hs1; apply std_stdio|done].
Qed.

(** ** Without failing calls, the plan is run *)

(** From [s] the process ends when the programs [rs] have been run and [n]
    pipes made in all. *)
Definition does (s : rstate) (o : outcome rstate unit) (rs : list run) (n : nat) : Prop :=
  exists s', o = Blocked s' /\ r_fail s' = [] /\ all_execs (r_acts s') = all_execs (r_acts s) ++ rs /\ r_pipes s' = n.

Lemma does_exit st s : r_fail s = [] -> does s (exit st s) [] (r_pipes s).
Proof. intros H. eexists. split; [done|]. split; [done|]. split; [|done]. cbn. by rewrite all_execs_app. Qed.

Lemma does_from s s1 o rs n : does s1 o rs n -> all_execs (r_acts s1) = all_execs (r_acts s) -> does s o rs n.
Proof. intros (s' & ? & ? & H & ?) E. exists s'. by rewrite <- E. Qed.

Lemma does_at s s1 (m : Sh unit) rs n : does s1 (m s1) rs n -> r_acts s1 = r_acts s -> does s (m s1) rs n.
Proof. intros H E. eapply does_from; [exact H|]. by rewrite E. Qed.

Lemma does_bind_blocked m (k : Sh unit) s rs n : does s (m s) rs n -> does s ((m ;; k)%M s) rs n.
Proof. intros (s' & E & H). exists s'. unfold bind. by rewrite E. Qed.

Lemma does_wait k s rs n :
  (forall s1, r_fds s1 = r_fds s -> r_fail s1 = r_fail s -> r_pipes s1 = r_pipes s -> does s1 (k s1) rs n) ->
  does s ((wait ;; k)%M s) rs n.
Proof. intros Hk. eapply does_from; [by apply Hk|]. cbn. by rewrite all_execs_app, app_nil_r. Qed.

Lemma does_fork child k s rs1 n1 rs2 n2 : r_fail s = [] ->
  (forall s1, r_fds s1 = r_fds s -> r_fail s1 = [] -> r_pipes s1 = r_pipes s -> does s1 (child s1) rs1 n1) ->
  (forall s1, r_fds s1 = r_fds s -> r_fail s1 = [] -> r_pipes s1 = n1 -> does s1 (k s1) rs2 n2) ->
  does s ((fork1 child ;; k)%M s) (rs1 ++ rs2) n2.
Proof.
  intros Hf Hc Hk. unfold fork1. unfold fails. unfold bind at 2. unfold bind. rewrite Hf. cbn [hd].
  destruct (Hc (s <| r_fail ::= @tail bool |> <| r_acts := [] |>)) as (s' & E & H1 & H2 & H3); [done|by cbn; rewrite Hf|done|].
  rewrite E. cbn [final].
  destruct (Hk (s <| r_fail ::= @tail bool |> <| r_acts ::= fun l => l ++ [Fork (r_acts s')] |>
    <| r_pipes := r_pipes s' |> <| r_fail := r_fail s' |>)) as (s2 & E2 & H4 & H5 & H6); [done..|].
  exists s2. split; [done|]. split; [done|]. split; [|done]. rewrite H5. cbn [r_acts upd upd_r_acts upd_r_pipes upd_r_fail].
  cbn. rewrite all_execs_app. cbn in H2. unfold all_execs at 2. cbn [mbind list_bind]. rewrite execs_fork, H2. cbn.
  by rewrite app_nil_r, <- app_assoc.
Qed.

Section Runs.
Variables (buf : list Z) (w : nat * nat -> list Z).

(** runcmd() runs the plan of [c], whose strings are given by [w]. *)
Definition runs_plan (c : cmd) : Prop := forall i o e s, r_fds s = stdio i o e -> r_fail s = [] ->
  does s (runcmd buf c s) (plan w c i o e (r_pipes s)).1 (plan w c i o e (r_pipes s)).2.

Lemma exec_plan argv : (forall a, a ∈ argv -> word buf a.1 = w a) -> runs_plan (EXEC argv).
Proof.
  intros Hw i o e s Hs Hf. cbn [runcmd plan]. destruct argv as [|[q eq] argv]; [by apply does_exit|].
  assert (map (fun a => word buf a.1) ((q, eq) :: argv) = w <$> (q, eq) :: argv) as ->.
  { apply map_ext_in. intros a Ha%list_elem_of_In. by apply Hw. }
  unfold exec, fails, bind. rewrite Hf. cbn [hd].
  eexists. split; [done|]. cbn. rewrite Hf. split; [done|]. split; [|done]. rewrite all_execs_app. f_equal.
  unfold all_execs. cbn. by rewrite Hs.
Qed.

Lemma redir_plan c q eq m fd : word buf q = w (q, eq) -> fd = 0 \/ fd = 1 -> runs_plan c -> runs_plan (REDIR c q eq m fd).
Proof.
  intros Hw Hfd IH i o e s Hs Hf. cbn [runcmd plan]. rewrite <- bind_assoc. unfold bind at 1.
  rewrite (redir_run _ _ _ _ _ _ _ Hs Hfd), Hf, Hw. cbn [hd]. replace (fd <? 0) with false by lia.
  apply does_at; [|reflexivity]. apply does_bind_blocked.
  destruct (fd =? 0);
    (refine (IH _ _ _ (s <| r_fail ::= @tail bool |> <| r_fds := stdio _ _ _ |>) eq_refl _); cbn; by rewrite Hf).
Qed.

Lemma list_plan l r : runs_plan l -> runs_plan r -> runs_plan (LIST l r).
Proof.
  intros IHl IHr i o e s Hs Hf. cbn [runcmd plan]. specialize (IHl i o e). specialize (IHr i o e).
  destruct (plan w l _ _ _ _) as [a n1] eqn:El. destruct (plan w r _ _ _ n1) as [b n2] eqn:Er. cbn [fst snd].
  eapply (does_fork _ _ _ a n1 b n2); [done|..]; rewrite Hs; intros s1 Hs1 Hf1 Hp1.
  { specialize (IHl s1 Hs1 Hf1). by rewrite Hp1, El in IHl. }
  apply does_wait. intros s2 Hs2 Hf2 Hp2. apply does_bind_blocked. rewrite Hs1 in Hs2. rewrite Hf1 in Hf2.
  specialize (IHr s2 Hs2 Hf2). by rewrite Hp2, Hp1, Er in IHr.
Qed.

Lemma back_plan c : runs_plan c -> runs_plan (BACK c).
Proof.
  intros IH i o e s Hs Hf. cbn [runcmd plan].
  destruct (plan w c _ _ _ _) as [a n1] eqn:El. cbn [fst snd]. rewrite <- (app_nil_r a).
  eapply (does_fork _ _ _ a n1 [] n1); [done|..]; rewrite Hs; intros s1 Hs1 Hf1 Hp1.
  { specialize (IH i o e s1 Hs1 Hf1). by rewrite Hp1, El in IH. }
  rewrite <- Hp1. by apply does_exit.
Qed.

Lemma pipe_plan l r : runs_plan l -> runs_plan r -> runs_plan (PIPE l r).
Proof.
  intros IHl IHr i o e s Hs Hf. cbn [runcmd plan]. unfold bind at 1. rewrite (pipe_run s i o e Hs), Hf. cbn [hd].
  set (n := r_pipes s). specialize (IHl i (DPipe n true) e). specialize (IHr (DPipe n false) o e).
  destruct (plan w l _ _ _ _) as [a n1] eqn:El. destruct (plan w r _ _ _ n1) as [b n2] eqn:Er. cbn [fst snd].
  apply does_at; [|reflexivity].
  eapply (does_fork _ _ _ a n1 b n2); [cbn; by rewrite Hf|..]; cbn [r_fds r_pipes]; intros s1 Hs1 Hf1 Hp1.
  { rewrite (left_run _ s1 i o e n) by done. apply does_at; [|reflexivity].
    specialize (IHl (s1 <| r_fds := stdio i (DPipe n true) e |>) eq_refl Hf1). cbn in IHl, Hp1.
    fold n in Hp1. rewrite Hp1, El in IHl. exact IHl. }
  rewrite <- (app_nil_r b).
  eapply (does_fork _ _ _ b n2 [] n2); [done|..]; rewrite Hs1; intros s2 Hs2 Hf2 Hp2.
  { rewrite (right_run _ s2 i o e n) by done. apply does_at; [|reflexivity].
    specialize (IHr (s2 <| r_fds := stdio (DPipe n false) o e |>) eq_refl Hf2). cbn in IHr.
    rewrite Hp2, Hp1, Er in IHr. exact IHr. }
  rewrite (parent_run _ s2 i o e n) by done. apply does_at; [|reflexivity].
  apply does_wait. intros s3 _ Hf3 Hp3. apply does_wait. intros s4 _ Hf4 Hp4.
  replace n2 with (r_pipes s4) by (rewrite Hp4, Hp3; exact Hp2). apply does_exit. by rewrite Hf4, Hf3.
Qed.

Lemma runcmd_plan c : (forall a, a ∈ words c -> word buf a.1 = w a) -> redirs01 c -> runs_plan c.
Proof.
  induction c as [argv|c IH q eq m fd|l IHl r IHr|l IHl r IHr|c IH]; intros Hw Hc; cbn [words redirs01] in *.
  - by apply exec_plan.
  - apply redir_plan; [apply (Hw (q, eq)); set_solver|tauto|]. apply IH; [set_solver|tauto].
  - apply pipe_plan; [apply IHl|apply IHr]; try tauto; set_solver.
  - apply list_plan; [apply IHl|apply IHr]; try tauto; set_solver.
  - apply back_plan. auto.
Qed.
End Runs.

(** ** The shell *)

Lemma cstring_no_nul l : Forall (fun c => c <> 0) (cstring l).
Proof. induction l as [|c l IH]; cbn; [done|]. destruct (c =? 0) eqn:E; [done|]. constructor; [lia|done]. Qed.

Lemma runline_ends line s : Forall (fun c => c <> 0) line -> std (r_fds s) -> plumbed (r_acts s) -> ends_well (runline line s).
Proof.
  intros Hl Hs H. unfold runline. destruct (parsecmd_cases line Hl) as [(msg & p & ->)|(c & -> & Hg)].
  - by apply ends_panic.
  - apply runcmd_ends; [by apply (proj1 grammar_redirs01 c (lex None 0 line))|done..].
Qed.

(** ** The loop of the shell *)

Definition prompt : action := Say (bytes "$ ").

(** [session n fl inp acts]: what the shell does with the lines [inp], when [n]
    pipes have been made and [fl] says which of the coming calls fail.  It
    prompts and reads a line.  When there is none, or the line starts with a NUL
    byte, it exits.  It runs cd itself, and any other line in a child, for which
    it waits; it stops when it cannot fork. *)
Inductive session (fds : fdtable) : nat -> list bool -> list (list Z) -> list action -> Prop :=
| session_end n fl inp : cstring (hd [] inp) = [] -> session fds n fl inp [prompt; Exit 0]
| session_cd n fl line inp acts : cstring line <> [] -> is_cd (cstring line) = true ->
    session fds n (tail fl) inp acts ->
    let path := drop 3 (removelast (cstring line)) in
    session fds n fl (line :: inp)
      (prompt :: (if hd false fl then Say (bytes "cannot cd " ++ path ++ [10]) else Chdir path) :: acts)
| session_run n fl line inp acts : cstring line <> [] -> is_cd (cstring line) = false -> hd false fl = false ->
    let child := final (runline (cstring line) (mkRstate fds [] n (tail fl) inp)) in
    session fds (r_pipes child) (r_fail child) inp acts ->
    session fds n fl (line :: inp) (prompt :: Fork (r_acts child) :: Wait fds :: acts)
| session_fork n fl line inp : cstring line <> [] -> is_cd (cstring line) = false -> hd false fl = true ->
    session fds n fl (line :: inp) [prompt; Say (bytes "fork" ++ [10]); Exit 1].

Lemma getcmd_run fds acts n fl inp : getcmd (mkRstate fds acts n fl inp) =
  Ok (match cstring (hd [] inp) with [] => None | _ => Some (cstring (hd [] inp)) end)
     (mkRstate fds (acts ++ [prompt]) n fl (tail inp)).
Proof. reflexivity. Qed.

Lemma builtin_cd_run buf fds acts n fl inp : builtin_cd buf (mkRstate fds acts n fl inp) =
  let path := drop 3 (removelast buf) in
  Ok tt (mkRstate fds (acts ++ [if hd false fl then Say (bytes "cannot cd " ++ path ++ [10]) else Chdir path]) n (tail fl) inp).
Proof. unfold builtin_cd, fails, bind. cbn [r_fail]. by destruct (hd false fl). Qed.

Lemma fork_wait_run (k : Sh unit) fds acts n fl inp : (fork1 k ;; wait)%M (mkRstate fds acts n fl inp) =
  if hd false fl then Blocked (mkRstate fds (acts ++ [Say (bytes "fork" ++ [10])] ++ [Exit 1]) n (tail fl) inp)
  else let child := final (k (mkRstate fds [] n (tail fl) inp)) in
    Ok tt (mkRstate fds (acts ++ [Fork (r_acts child)] ++ [Wait fds]) (r_pipes child) (r_fail child) inp).
Proof. unfold fork1, fails, bind. cbn [r_fail]. rewrite !app_assoc. by destruct (hd false fl). Qed.

(** The loop is a session, and its processes are plumbed. *)
Lemma main_loop_session : forall f fds acts n fl inp, (length inp < f)%nat -> std fds ->
  exists s' new, main_loop f (mkRstate fds acts n fl inp) = Blocked s' /\ r_acts s' = acts ++ new /\
    session fds n fl inp new /\ plumbed new.
Proof.
  induction f as [|f IH]; intros fds acts n fl inp Hf Hs; [lia|]. cbn [main_loop]. run (getcmd_run fds acts n fl inp).
  destruct (cstring (hd [] inp)) as [|c l] eqn:E.
  { eexists _, _. split; [reflexivity|]. cbn. rewrite <- app_assoc. split; [reflexivity|]. split; [by apply session_end|by repeat constructor]. }
  destruct inp as [|line inp]; [done|]. cbn [hd tail length] in *.
  assert (Forall (fun c => c <> 0) (cstring line)) as Hl by apply cstring_no_nul.
  assert (cstring line <> []) as Hne by (by rewrite E). rewrite <- E in *. clear E c l.
  destruct (is_cd (cstring line)) eqn:Hcd.
  - run (builtin_cd_run (cstring line) fds (acts ++ [prompt]) n fl inp). cbn zeta.
    destruct (IH fds ((acts ++ [prompt]) ++ [if hd false fl then Say (bytes "cannot cd " ++ drop 3 (removelast (cstring line)) ++ [10]) else Chdir (drop 3 (removelast (cstring line)))]) n (tail fl) inp) as (s' & new & -> & Ea & Hn & Hp); [lia|done|].
    eexists _, _. split; [reflexivity|]. rewrite Ea, <- !app_assoc. split; [reflexivity|]. split; [by apply session_cd|].
    constructor; [done|]. constructor; [by destruct (hd false fl)|done].
  - pose proof (fork_wait_run (runline (cstring line)) fds (acts ++ [prompt]) n fl inp) as Ef.
    destruct (hd false fl) eqn:Hfl.
    { unfold bind at 1. rewrite Ef. eexists _, _. split; [reflexivity|]. cbn [r_acts]. rewrite <- !app_assoc.
      split; [reflexivity|]. split; [by apply session_fork|by repeat constructor]. }
    run Ef. cbn zeta. destruct (runline_ends (cstring line) (mkRstate fds [] n (tail fl) inp) Hl Hs) as (s1 & E1 & H1); [constructor|].
    destruct (IH fds ((acts ++ [prompt]) ++ [Fork (r_acts s1)] ++ [Wait fds]) (r_pipes s1) (r_fail s1) inp) as (s' & new & E2 & Ea & Hn & Hp); [lia|done|].
    exists s', (prompt :: Fork (r_acts s1) :: Wait fds :: new). rewrite E1. cbn [final]. split; [exact E2|]. rewrite Ea, <- !app_assoc.
    split; [reflexivity|]. split.
    + pose proof (session_run fds n fl line inp new Hne Hcd Hfl) as Hr. cbn zeta in Hr. rewrite E1 in Hr. by apply Hr.
    + constructor; [done|]. constructor; [by apply all_fds_fork|]. by constructor.
Qed.

Lemma open_console_run f s i o e : r_fds s = stdio i o e ->
  open_console (S f) s = Ok tt (s <| r_fail ::= @tail bool |>).
Proof.
  intros H. destruct s as [fds acts n fl inp]. cbn in H. subst fds. cbn [open_console]. unfold open, fails, bind. cbn [r_fail].
  destruct (hd false fl); [done|]. erewrite fdalloc_run; [|vm_compute; reflexivity]. cbn [Z.leb]. reflexivity.
Qed.

(** C30: the shell started on the descriptors 0, 1 and 2 terminates after a
    session: line by line it prompts, runs cd itself and every other line in a
    child that it waits for, and it exits at the end of its input, at a line that
    starts with a NUL byte, or when fork() fails; whichever calls fail and
    whatever the lines are, every program is run and every wait() is made with
    exactly the descriptors 0, 1 and 2 open, in all its processes. *)
Theorem sh_descriptors s (Hs : std (r_fds s)) (H : r_acts s = []) :
  exists s', main s = Blocked s' /\ session (r_fds s) (r_pipes s) (tail (r_fail s)) (r_in s) (r_acts s') /\
    Forall (all_fds std) (r_acts s').
Proof.
  destruct s as [fds acts n fl inp]. cbn in *. subst acts. pose proof Hs as (i & o & e & ->).
  unfold main. rewrite (bind_ok _ _ _ _ _ (open_console_run 4 (mkRstate (stdio i o e) [] n fl inp) i o e eq_refl)). cbn.
  destruct (main_loop_session (S (length inp)) (stdio i o e) [] n (tail fl) inp) as (s' & new & E & Ea & Hn & Hp); [lia|done|].
  exists s'. rewrite Ea. done.
Qed.

(** C29: a command line runs its plan: when the tokens of the line stand for a
    command by the grammar and no call fails, the child of the shell runs
    exactly the programs of the command, with the words of the line as
    arguments, the files of the redirections and both ends of the pipes as
    their standard descriptors. *)
Theorem sh_runs_plan line c i o e s (Hl : Forall (fun x => x <> 0) line) (Hg : g_line c (lex None 0 line))
  (Hs : r_fds s = stdio i o e) (Hf : r_fail s = []) (Ha : r_acts s = []) :
  exists s', runline line s = Blocked s' /\
    all_execs (r_acts s') = (plan (fun a => slice a.1 a.2 line) c i o e (r_pipes s)).1.
Proof.
  unfold runline. rewrite (parsecmd_accepts line Hl c Hg).
  destruct (runcmd_plan (nulterminate c line) (fun a => slice a.1 a.2 line) c) with (i := i) (o := o) (e := e) (s := s)
    as (s' & E & _ & He & _); [| |done|done|].
  - intros [q eq] Hin. unfold word. rewrite nulterminate_fold. apply (word_after_nuls line); [done| |done].
    intros q' e' Hin'. apply (lex_words line line None 0); [by rewrite drop_0|lia|done|].
    exact (proj1 grammar_words c _ Hg q' e' Hin').
  - by apply (proj1 grammar_redirs01 c (lex None 0 line)).
  - exists s'. split; [done|]. by rewrite He, Ha.
Qed.

(** ** A session *)

Definition tty : desc := DFile (bytes "console") O_RDWR.

Definition login (lines : list (list Z)) : rstate := mkRstate (stdio tty tty tty) [] 0 [] lines.

Lemma sh_descriptors_witness :
  let s := login [example_line; bytes "cd /" ++ [10]; bytes "a | | b" ++ [10]] in
  exists s', main s = Blocked s' /\ session (r_fds s) 0 [] (r_in s) (r_acts s') /\ Forall (all_fds std) (r_acts s').
Proof. apply (sh_descriptors (login _)); [by exists tty, tty, tty|reflexivity]. Defined.

(** cat and grep are joined by pipe 0; the block writes to the file. *)
Lemma sh_runs_plan_witness :
  exists s', runline example_line (login []) = Blocked s' /\
    all_execs (r_acts s') =
      let out := DFile (bytes "out") (Z.lor O_WRONLY O_CREATE) in
      [ ([bytes "cat"; bytes "x"], stdio (DFile (bytes "in") O_RDONLY) (DPipe 0 true) tty);
        ([bytes "grep"; bytes "-v"; bytes "y"], stdio (DPipe 0 false) out tty);
        ([bytes "wc"], stdio (DPipe 0 false) out tty) ].
Proof.
  refine (sh_runs_plan example_line example_tree tty tty tty (login []) example_no_nul _ eq_refl eq_refl eq_refl).
  destruct (parsecmd_cases example_line example_no_nul) as [(msg & p & E)|(c & E & Hg)];
    rewrite example_parse in E; [discriminate|]. injection E as E _. rewrite E. exact Hg.
Defined.

(** The cd command chops the last byte of its line also when that is not a
    newline: at the end of an input without a final newline, [cd ab] changes
    to the directory [a]. *)
Lemma cd_last_line : exists s', main (login [bytes "cd ab"]) = Blocked s' /\
  r_acts s' = [Say (bytes "$ "); Chdir (bytes "a"); Say (bytes "$ "); Exit 0].
Proof. eexists. split; vm_compute; reflexivity. Qed.
